(* ===== verification/_CoqProject ===== *)
-Q . S2P
Prelude.v
Blake2s.v
Kdf.v
ChaCha20.v
Poly1305.v
Aead.v
Field25519.v
X25519.v
KeyExchange.v
Wg.v
Awg.v
Inet.v
Stun.v
Turn.v
Ice.v
Bridge.v
Exn.v
VoipBuffers.v
Double.v
Jitter.v
VoipDefs.v
Congestion.v
VoipCrypto.v
VoipPacket.v
VoipState.v
VoipControl.v
VoipReceive.v
VoipTick.v
VoipSafety.v
VoipCall.v
VoipSetup.v
Emoji.v
VoipSocket.v
VoipSocks.v
VoipNet.v
TgMessage.v
TgConnection.v
TgReliable.v
Json.v
TgSignaling.v
TgInstance.v
