(* ===== verification/Prelude.v ===== *)
(** * Onegram: the protocol core, verified

    Onegram is a Telegram client for old iOS devices. Most of the repository is
    Objective-C user interface, vendored libraries and generated tables; this
    development verifies the C and C++ code that carries protocols of its own.

    ** Parts of the program and the files that model them

    - NekroCore, a userspace WireGuard with obfuscation, in
      [src/Modules/NekroEngine/NekroCore]: [Blake2s.v] ([crypto/blake2s.c]),
      [Kdf.v] ([crypto/kdf.c]), [ChaCha20.v], [Poly1305.v] and [Aead.v]
      ([crypto/chachapoly.c]), [Field25519.v] and [X25519.v]
      ([crypto/x25519.c]), [Wg.v] ([wg/wg.c]), [Awg.v] ([wg/awg.c]) and
      [Bridge.v] ([fuckdpi_bridge.c], the privileged daemon). [KeyExchange.v] is
      the interface between the handshake and the curve: a class with the laws
      the handshake relies on.
    - The TURN and ICE client of the calls,
      [src/thirdparty/TgVoipWebrtcIOS6/src/tgcalls/Ios6TurnClient.cpp]:
      [Inet.v] (addresses as text), [Stun.v] (the codec), [Turn.v] (allocation,
      permissions, relayed data), [Ice.v] (connectivity checks).
    - libtgvoip, the voice calls, in [src/submodules/libtgvoip]:
      [VoipBuffers.v] ([Buffers.cpp]), [Jitter.v] ([JitterBuffer.cpp]),
      [Congestion.v] ([CongestionControl.cpp]), [VoipDefs.v]
      ([PrivateDefines.h]), and of [VoIPController.cpp]: [VoipCrypto.v] (packet
      encryption), [VoipPacket.v] (headers, received window, acknowledgements,
      extras), [VoipState.v] (the controller: endpoints,
      call states, the send queue), [VoipControl.v] (what the application does
      and what is sent), [VoipReceive.v] (the receive thread), [VoipTick.v] (the
      tick thread), with [VoipSafety.v], [VoipCall.v] and [VoipSetup.v] proving
      the properties of a call. Below the controller, [VoipSocket.v] (the sockets
      of the system and the obfuscated TCP connection, [NetworkSocket.cpp] and
      [os/posix/NetworkSocketPosix.cpp]), [VoipSocks.v] (the SOCKS5 proxy) and
      [VoipNet.v] (which socket of a call a packet takes, and the turns of the
      receive thread).
    - The signalling of the video calls, in [src/tgcalls] next to the TURN client:
      [TgMessage.v] ([Message.cpp], over [include/rtc_base/byte_buffer.h]),
      [TgConnection.v] ([EncryptedConnection.cpp], [CryptoHelper.cpp]) and
      [TgReliable.v], two connections over a network; [Json.v]
      ([third-party/json11.cpp]) and [TgSignaling.v] ([v2/Signaling.cpp]), the
      messages of the second version, and [TgInstance.v], their way to the
      encrypted connection and back ([v2/InstanceV2Impl.cpp], [utils/gzip.cpp]).
    - [Emoji.v]: the emoji suggestions of the keyboard,
      [src/Telegraph/emoji_suggestions.cpp] and the loader of
      [emoji_suggestions_data.cpp].
    - Shared: this file (machine words, byte strings, loops, little-endian
      values), [Exn.v] (state and C++ exceptions), [Double.v] (IEEE doubles and
      record update).

    ** How the parts interact

    [Wg] derives its keys with [Kdf] over [Blake2s] and seals with [Aead], which
    composes [ChaCha20] and [Poly1305]; [Awg] sends its junk before the handshake.
    [Turn] builds and parses messages with [Stun]; [Ice] drives the transport of
    [Turn] with a clock and [select]. In a call a packet is written by
    [VoipPacket] on a stream of [VoipBuffers], sealed by [VoipCrypto], and on the
    other side opened, parsed, put through the window and, when it carries
    sound, handed to [Jitter]; acknowledgements feed [Congestion].
    [VoipReceive] is one turn of the receive thread from the bytes of a packet on,
    [VoipNet] the turn from [Select] on. A socket is whatever satisfies the class
    [VoipSocket.Socket]; the theorems about connections are proved against
    [VoipSocket.StreamSocket], which a TCP socket and a SOCKS5 connection over one
    both satisfy. In [TgConnection] the two kinds of messages of a connection
    are instances of the class [Flavour], and of [Reader] and
    [TgReliable.Transmissible] with the laws the proofs use.

    ** Conventions

    A C function is a Gallina function of the same name; what it changes through
    pointers is returned. Integers are [Z], wrapped by [u8], [u32], [i64] and so
    on where the C type wraps; bytes are [list Z] with every element a byte.
    Loops are [for_loop], structural recursion over the data, or recursion on
    fuel that the theorems show to be enough: the random loop and the drain loop
    of the daemon use the length of the remaining script plus one, the ICE probe
    the readings of the clock up to its deadline ([Ice.probe_terminates]), the
    parser of JSON twice the length of the text ([Json.parse_returns]), the loops
    around zlib the length of what they write. System
    calls, the clock and the random device are scripts of results or functions of
    the number of calls made so far. C++ code that throws is in the monad of
    [Exn.v]: an exception keeps the mutations made before it. Doubles are
    [SpecFloat]'s binary64 with round-to-nearest-even. Code outside of the
    repository (the CommonCrypto digests, the AES and SHA of the host
    application, zlib) is a class whose laws are the documented ones; each theorem
    that uses it has a witness with a concrete instance.

    ** What the theorems show

    - Equivalence with the standards: BLAKE2s (RFC 7693), HMAC and HKDF,
      ChaCha20, Poly1305 and their AEAD (RFC 8439), X25519 (RFC 7748), with the
      bounds of the limb arithmetic.
    - Protocol runs: the WireGuard handshake agrees on its keys
      ([Wg.handshake_agreement]), data messages survive reordering, an
      allocation succeeds against a challenging server, relayed data arrives
      unchanged, ICE messages of each side pass the checks of the other, a voice
      packet sealed and framed at one end is opened and parsed at the other
      ([VoipCrypto.open_seal], [VoipPacket.header_roundtrip]).
    - Safety on arbitrary input: what a TURN packet may deliver, on which
      received datagram the ICE probe selects a peer, what the daemon starts, that
      opening arbitrary bytes neither throws nor accepts a wrong hash.
    - State invariants over every reachable state: ownership of the jitter
      buffer's pool, the in-flight accounting of congestion control, the window
      of received sequence numbers, extras dropped only when delivered, the
      transactions of the ICE probe.
    - Errors, bounds and termination: return codes and what each leaves
      unchanged, truncation, full buffers, the random device, the probe, the
      parser of JSON, a connection that has failed ([VoipSocket.dead_connection]).
    - A whole call: no event of any sequence of packets, ticks and operations
      aborts or ends in an exception ([VoipSafety.call_never_fails]), forged
      packets change nothing ([VoipCall.forged_packets_ignored]), the first two
      packets agree on version, flags and streams and start the audio devices
      ([VoipSetup.call_set_up]), and sound arrives ([VoipCall.audio_delivered]).
    - The network of a call: the connection to a relay carries the frames of the
      packets in order ([VoipNet.relay_stream]) and however the stream is cut the
      other end reads the packets ([VoipSocket.obfuscated_stream]); what passes
      between client and proxy ([VoipSocks.socks_negotiation],
      [VoipSocks.socks_datagrams]).
    - Signalling: what is sent with an acknowledgement arrives once and in order
      over a network that loses and repeats packets
      ([TgReliable.reliable_delivery]; what it does not promise is shown there by
      examples), arbitrary packets have no effect unless made with the key
      ([TgConnection.incoming_authentic]), the window of counters refines a set
      ([TgConnection.replay_window]), messages survive the wire
      ([TgMessage.message_roundtrip]), in the second version as JSON
      ([TgSignaling.signaling_roundtrip], over [Json.json_roundtrip] and a parser
      that ends on every input, [Json.parse_returns]), and end to end, compressed
      or not, over any network ([TgInstance.signaling_delivered]).
    - The search for emoji: the matching is complete, every run of matches of one
      emoji leaves one result, and the answer is ordered
      ([Emoji.suggestions_for_query]).

    ** Not modelled

    Group calls, audio devices and codecs of libtgvoip, and its bundled WebRTC; of
    its sockets the listing of interfaces, socket options and the pipe that
    interrupts [select]; the tunnel interface of NekroCore (route and control
    sockets) and its Objective-C command line; comments in JSON and the comparison
    of values; the rest of tgcalls (glue over OpenSSL, usrsctp and WebRTC, and its
    group calls); SQLite, SQLCipher and LMDB (vendored); the
    generated emoji arrays, which are arguments of the loader; everything in Objective-C. Logging, locking and [malloc]
    failure are left out throughout; functions of one thread are atomic. *)

From Stdlib Require Import ZArith Lia.
From Stdlib Require Ascii String.
From stdpp Require Export base tactics option list numbers sets.

#[global] Open Scope Z_scope.
Ltac Zify.zify_post_hook ::= Z.to_euclidean_division_equations.

(** ** Machine words

    A [w]-bit word is a [Z]; the C conversions wrap it explicitly. *)

Definition u8 (x : Z) : Z := Z.land x 0xff.
Definition u16 (x : Z) : Z := Z.land x 0xffff.
Definition u32 (x : Z) : Z := Z.land x 0xffffffff.
Definition u64 (x : Z) : Z := Z.land x 0xffffffffffffffff.
(** Two's-complement signed words. *)
Definition i32 (x : Z) : Z := u32 (x + 0x80000000) - 0x80000000.
Definition i64 (x : Z) : Z := u64 (x + 0x8000000000000000) - 0x8000000000000000.

Definition is_byte (x : Z) : Prop := 0 <= x < 256.
Definition is_u32 (x : Z) : Prop := 0 <= x < 4294967296.
Definition is_u64 (x : Z) : Prop := 0 <= x < 18446744073709551616.

Abbreviation bytes := (list Z) (only parsing).
Abbreviation wf_bytes := (Forall is_byte) (only parsing).
Abbreviation wf_words := (Forall is_u32) (only parsing).

#[export] Instance is_byte_dec x : Decision (is_byte x).
Proof. unfold is_byte. apply _. Defined.
#[export] Instance is_u32_dec x : Decision (is_u32 x).
Proof. unfold is_u32. apply _. Defined.

Lemma land_mask_mod x k : 0 <= k -> Z.land x (2 ^ k - 1) = x mod 2 ^ k.
Proof. intros. rewrite <- Z.land_ones by lia. f_equal. rewrite Z.ones_equiv. lia. Qed.

Lemma u8_mod x : u8 x = x mod 256.
Proof. apply (land_mask_mod x 8). lia. Qed.
Lemma u16_mod x : u16 x = x mod 65536.
Proof. apply (land_mask_mod x 16). lia. Qed.
Lemma u32_mod x : u32 x = x mod 4294967296.
Proof. apply (land_mask_mod x 32). lia. Qed.
Lemma u64_mod x : u64 x = x mod 18446744073709551616.
Proof. apply (land_mask_mod x 64). lia. Qed.

Lemma u8_id x : 0 <= x < 256 -> u8 x = x.
Proof. rewrite u8_mod. lia. Qed.
Lemma u32_id x : 0 <= x < 4294967296 -> u32 x = x.
Proof. rewrite u32_mod. lia. Qed.
Lemma u64_id x : 0 <= x < 18446744073709551616 -> u64 x = x.
Proof. rewrite u64_mod. lia. Qed.
Lemma i64_id x : -0x8000000000000000 <= x < 0x8000000000000000 -> i64 x = x.
Proof. unfold i64. rewrite u64_mod. lia. Qed.
Lemma i32_id x : -0x80000000 <= x < 0x80000000 -> i32 x = x.
Proof. unfold i32. rewrite u32_mod. lia. Qed.

Lemma u8_is_byte x : is_byte (u8 x).
Proof. unfold is_byte. rewrite u8_mod. lia. Qed.
Lemma u32_is_u32 x : is_u32 (u32 x).
Proof. unfold is_u32. rewrite u32_mod. lia. Qed.

(** Bounds for the bit operations on words. *)
Lemma bits_below_lt x k :
  0 <= k -> 0 <= x -> (forall i, k <= i -> Z.testbit x i = false) -> x < 2 ^ k.
Proof.
  intros Hk Hx Hb.
  replace x with (x mod 2 ^ k); [apply Z.mod_pos_bound; lia|].
  apply Z.bits_inj'. intros i Hi.
  destruct (decide (i < k)).
  - by rewrite Z.mod_pow2_bits_low by lia.
  - rewrite Z.mod_pow2_bits_high by lia. symmetry. apply Hb. lia.
Qed.

Lemma testbit_above x k i : 0 <= x < 2 ^ k -> 0 <= k <= i -> Z.testbit x i = false.
Proof.
  intros Hx Hi. rewrite <- (Z.mod_small x (2 ^ k)) by lia.
  apply Z.mod_pow2_bits_high. lia.
Qed.

Lemma lxor_bound x y k : 0 <= k -> 0 <= x < 2 ^ k -> 0 <= y < 2 ^ k -> 0 <= Z.lxor x y < 2 ^ k.
Proof.
  intros Hk Hx Hy. split; [apply Z.lxor_nonneg; lia|].
  apply bits_below_lt; [lia|apply Z.lxor_nonneg; lia|].
  intros i Hi. rewrite Z.lxor_spec, !(testbit_above _ k) by lia. done.
Qed.

Lemma lor_bound x y k : 0 <= k -> 0 <= x < 2 ^ k -> 0 <= y < 2 ^ k -> 0 <= Z.lor x y < 2 ^ k.
Proof.
  intros Hk Hx Hy. split; [apply Z.lor_nonneg; lia|].
  apply bits_below_lt; [lia|apply Z.lor_nonneg; lia|].
  intros i Hi. rewrite Z.lor_spec, !(testbit_above _ k) by lia. done.
Qed.

Lemma land_bound_r x y : 0 <= y -> 0 <= Z.land x y <= y.
Proof.
  intros Hy. split; [apply Z.land_nonneg; lia|].
  pose proof (Z.lor_ldiff_and y x) as He.
  pose proof (Z.ldiff_nonneg y x) as Hn.
  assert (Z.ldiff y x + Z.land y x = y) as Hs.
  { rewrite <- Z.lxor_lor, <- Z.add_nocarry_lxor in He.
    - done.
    - apply Z.bits_inj'. intros i Hi.
      rewrite !Z.land_spec, Z.ldiff_spec, Z.bits_0. by destruct (Z.testbit y i), (Z.testbit x i).
    - apply Z.bits_inj'. intros i Hi.
      rewrite !Z.land_spec, Z.ldiff_spec, Z.bits_0. by destruct (Z.testbit y i), (Z.testbit x i). }
  rewrite Z.land_comm. lia.
Qed.

Lemma lxor_is_u32 x y : is_u32 x -> is_u32 y -> is_u32 (Z.lxor x y).
Proof. apply (lxor_bound x y 32). lia. Qed.
Lemma lor_is_u32 x y : is_u32 x -> is_u32 y -> is_u32 (Z.lor x y).
Proof. apply (lor_bound x y 32). lia. Qed.
Lemma lxor_is_byte x y : is_byte x -> is_byte y -> is_byte (Z.lxor x y).
Proof. apply (lxor_bound x y 8). lia. Qed.

(** Disjoint bits add up. *)
Lemma lor_add_shift x y k : 0 <= k -> 0 <= x < 2 ^ k -> Z.lor x (Z.shiftl y k) = x + y * 2 ^ k.
Proof.
  intros Hk Hx. rewrite <- Z.shiftl_mul_pow2 by lia.
  assert (Z.land x (Z.shiftl y k) = 0) as H0.
  { apply Z.bits_inj'. intros i Hi. rewrite Z.land_spec, Z.bits_0.
    destruct (decide (i < k)).
    - rewrite Z.shiftl_spec_low by lia. apply andb_false_r.
    - rewrite (testbit_above x k) by lia. done. }
  rewrite <- Z.lxor_lor, Z.add_nocarry_lxor by done. done.
Qed.

Create HintDb words.
#[export] Hint Resolve u8_is_byte u32_is_u32 lxor_is_u32 lor_is_u32 lxor_is_byte : words.

Create Rewrite HintDb len.
#[export] Hint Rewrite @length_app @length_take @length_drop
  @length_replicate @length_insert @length_map @length_seq : len.
(** Normalise list lengths and finish with arithmetic. *)
Ltac len := autorewrite with len; simpl length; try lia.

(** ** Buffers

    A C array is the list of its cells; [l.[i]] reads a cell, [<[i:=x]> l]
    writes one and [store l off src] is [memcpy(l + off, src, length src)]. *)

Definition ix (l : list Z) (i : nat) : Z := nth i l 0.
Notation "l .[ i ]" := (ix l i) (at level 1, left associativity, format "l .[ i ]") : Z_scope.

Definition store (l : list Z) (off : nat) (src : list Z) : list Z :=
  take off l ++ src ++ drop (off + length src) l.
Definition slice (l : list Z) (off n : nat) : list Z := take n (drop off l).
Definition zeros (n : nat) : list Z := replicate n 0.

Lemma ix_lookup l i x : l !! i = Some x -> l.[i] = x.
Proof. unfold ix. rewrite nth_lookup. by intros ->. Qed.

Lemma ix_insert_eq l i x : (i < length l)%nat -> (<[i:=x]> l).[i] = x.
Proof. intros. apply ix_lookup. by apply list_lookup_insert_eq. Qed.

Lemma ix_insert_ne l i j x : i <> j -> (<[i:=x]> l).[j] = l.[j].
Proof. intros. unfold ix. rewrite !nth_lookup. by rewrite list_lookup_insert_ne. Qed.

Lemma ix_insert l i j x :
  (i < length l)%nat -> (<[i:=x]> l).[j] = if decide (i = j) then x else l.[j].
Proof.
  intros. case_decide as Hd; [subst; by apply ix_insert_eq|by apply ix_insert_ne].
Qed.

Lemma ix_Forall (P : Z -> Prop) l i : Forall P l -> P 0 -> P l.[i].
Proof.
  intros Hl H0. unfold ix. rewrite nth_lookup.
  destruct (l !! i) eqn:E; [|done]. by eapply Forall_lookup_1.
Qed.

Lemma ix_byte l i : wf_bytes l -> is_byte l.[i].
Proof. intros. apply ix_Forall; [done|]. unfold is_byte. lia. Qed.
Lemma ix_u32 l i : wf_words l -> is_u32 l.[i].
Proof. intros. apply ix_Forall; [done|]. unfold is_u32. lia. Qed.

Lemma ix_app_l l k i : (i < length l)%nat -> (l ++ k).[i] = l.[i].
Proof. intros. unfold ix. by rewrite app_nth1. Qed.
Lemma ix_app_r l k i : (length l <= i)%nat -> (l ++ k).[i] = k.[i - length l].
Proof. intros. unfold ix. by rewrite app_nth2. Qed.
Lemma ix_take l n i : (i < n)%nat -> (take n l).[i] = l.[i].
Proof. intros. unfold ix. rewrite !nth_lookup. by rewrite lookup_take_lt. Qed.
Lemma ix_drop l n i : (drop n l).[i] = l.[n + i].
Proof. unfold ix. rewrite !nth_lookup. by rewrite lookup_drop. Qed.
Lemma ix_map (f : Z -> Z) l i : (i < length l)%nat -> (map f l).[i] = f l.[i].
Proof.
  intros. unfold ix. rewrite (nth_indep _ 0 (f 0)) by (by rewrite length_map).
  apply map_nth.
Qed.
Lemma ix_map_seq (f : nat -> Z) n i : (i < n)%nat -> (map f (seq 0 n)).[i] = f i.
Proof.
  intros. unfold ix. rewrite (nth_indep _ 0 (f 0%nat)) by (by rewrite length_map, length_seq).
  rewrite map_nth, seq_nth by done. done.
Qed.
Lemma ix_ext l k : length l = length k -> (forall i, (i < length l)%nat -> l.[i] = k.[i]) -> l = k.
Proof. intros Hl Hi. by apply (nth_ext l k 0 0). Qed.

Lemma length_store l off src :
  (off + length src <= length l)%nat -> length (store l off src) = length l.
Proof. intros. unfold store. rewrite !length_app, length_take, length_drop. lia. Qed.

Lemma take_store l off src n :
  (off + length src <= length l)%nat -> n = (off + length src)%nat ->
  take n (store l off src) = take off l ++ src.
Proof.
  intros Hl ->. unfold store. rewrite app_assoc, take_app_le.
  - rewrite take_ge; [done|]. rewrite length_app, length_take. lia.
  - rewrite length_app, length_take. lia.
Qed.

Lemma Forall_store (P : Z -> Prop) l off src :
  Forall P l -> Forall P src -> Forall P (store l off src).
Proof. intros. unfold store. repeat apply Forall_app_2; auto using Forall_take, Forall_drop. Qed.

Lemma store_all l src : length src = length l -> store l 0 src = src.
Proof. intros H. unfold store. rewrite drop_ge by lia. by rewrite take_0, app_nil_r. Qed.

(** Two consecutive stores are one. *)
Lemma store_store l off a b : (off + length a + length b <= length l)%nat ->
  store (store l off a) (off + length a) b = store l off (a ++ b).
Proof.
  intros Hl. unfold store at 1. rewrite (take_store l off a) by lia. unfold store at 2.
  rewrite <- !app_assoc. do 3 f_equal.
  unfold store. rewrite length_app, app_assoc.
  rewrite drop_app_ge by (rewrite length_app, length_take; lia).
  rewrite length_app, length_take, drop_drop. f_equal. lia.
Qed.

Lemma length_slice l off n : (off + n <= length l)%nat -> length (slice l off n) = n.
Proof. intros. unfold slice. rewrite length_take, length_drop. lia. Qed.
Lemma Forall_slice (P : Z -> Prop) l off n : Forall P l -> Forall P (slice l off n).
Proof. intros. unfold slice. by apply Forall_take, Forall_drop. Qed.
Lemma ix_slice l off n i : (i < n)%nat -> (slice l off n).[i] = l.[off + i].
Proof. intros. unfold slice. by rewrite ix_take, ix_drop. Qed.
Lemma slice_split l off a b : slice l off (a + b) = slice l off a ++ slice l (off + a) b.
Proof.
  unfold slice. rewrite <- (take_drop a (take (a + b) (drop off l))).
  rewrite take_take, Nat.min_l by lia. f_equal.
  rewrite skipn_firstn_comm, drop_drop. by replace (a + b - a)%nat with b by lia.
Qed.
(** Fields of a message that is a concatenation. *)
Lemma slice_app_l a b off n : (off + n <= length a)%nat -> slice (a ++ b) off n = slice a off n.
Proof.
  intros H. unfold slice. rewrite drop_app_le by lia. rewrite take_app_le; [done|].
  rewrite length_drop. lia.
Qed.
Lemma slice_app_r a b off n : (length a <= off)%nat -> slice (a ++ b) off n = slice b (off - length a) n.
Proof. intros H. unfold slice. by rewrite drop_app_ge. Qed.
Lemma slice_head a b off n : off = 0%nat -> n = length a -> slice (a ++ b) off n = a.
Proof. intros -> ->. unfold slice. rewrite drop_0. apply take_app_length. Qed.
Lemma slice_whole a off n : off = 0%nat -> n = length a -> slice a off n = a.
Proof. intros -> ->. unfold slice. rewrite drop_0. by apply take_ge. Qed.
Lemma zeros_wf n : wf_bytes (zeros n).
Proof. apply Forall_replicate. unfold is_byte. lia. Qed.
Lemma length_zeros n : length (zeros n) = n.
Proof. apply length_replicate. Qed.

Lemma Forall_insert_words l i x : wf_words l -> is_u32 x -> wf_words (<[i:=x]> l).
Proof. intros. by apply Forall_insert. Qed.

#[export] Hint Resolve ix_byte ix_u32 zeros_wf Forall_insert_words Forall_take Forall_drop
  Forall_app_2 Forall_store Forall_slice : words.

(** The bytes of a C string literal, without the terminator. *)
Export String.StringSyntax.
Definition str (s : String.string) : list Z :=
  map (fun c => Z.of_nat (Ascii.nat_of_ascii c)) (String.list_ascii_of_string s).
Arguments str s%_string_scope.

Lemma str_wf s : wf_bytes (str s).
Proof.
  apply Forall_map, Forall_true. intros c. unfold is_byte. cbn beta.
  pose proof (Ascii.nat_ascii_bounded c). lia.
Qed.
#[export] Hint Resolve str_wf : words.

(** ** Counted loops: [for (i = a; i < a + n; i++) s = f s i]. *)

Definition for_loop {A} (a n : nat) (f : A -> nat -> A) (s : A) : A := foldl f s (seq a n).

Lemma for_loop_0 {A} a (f : A -> nat -> A) s : for_loop a 0 f s = s.
Proof. done. Qed.
Lemma for_loop_S {A} a n (f : A -> nat -> A) s :
  for_loop a (S n) f s = f (for_loop a n f s) (a + n)%nat.
Proof. unfold for_loop. by rewrite seq_S, foldl_app. Qed.

(** The loop rule: an invariant indexed by the counter. *)
Lemma for_loop_inv {A} (I : nat -> A -> Prop) a n f s :
  I a s ->
  (forall i t, (a <= i < a + n)%nat -> I i t -> I (S i) (f t i)) ->
  I (a + n)%nat (for_loop a n f s).
Proof.
  intros H0 Hs. induction n as [|n IH].
  - by rewrite Nat.add_0_r.
  - rewrite for_loop_S, Nat.add_succ_r. apply Hs; [lia|].
    apply IH. intros. apply Hs; [lia|done].
Qed.

Lemma for_loop_ext {A} a n (f g : A -> nat -> A) s :
  (forall i t, (a <= i < a + n)%nat -> f t i = g t i) -> for_loop a n f s = for_loop a n g s.
Proof.
  intros H. induction n as [|n IH]; [done|].
  rewrite !for_loop_S, IH by (intros; apply H; lia). apply H. lia.
Qed.

(** Two loops whose bodies agree on the states an invariant allows. *)
Lemma for_loop_inv_ext {A} (I : nat -> A -> Prop) a n (f g : A -> nat -> A) s :
  I a s ->
  (forall i t, (a <= i < a + n)%nat -> I i t -> f t i = g t i /\ I (S i) (f t i)) ->
  for_loop a n f s = for_loop a n g s /\ I (a + n)%nat (for_loop a n f s).
Proof.
  intros H0 Hs. induction n as [|n IH].
  - by rewrite Nat.add_0_r.
  - destruct IH as [He Hi]; [intros; apply Hs; [lia|done]|].
    rewrite !for_loop_S, Nat.add_succ_r, <- He. apply Hs; [lia|done].
Qed.

(** Iterating over the indices of a table is folding over the table. *)
Lemma for_loop_foldl {A B} (f : A -> B -> A) (l : list B) d s :
  for_loop 0 (length l) (fun t i => f t (nth i l d)) s = foldl f s l.
Proof.
  induction l as [|x l IH] using rev_ind; [done|].
  rewrite length_app, Nat.add_1_r, for_loop_S, foldl_app, Nat.add_0_l. cbn [foldl].
  rewrite app_nth2, Nat.sub_diag by lia. cbn [nth]. f_equal. rewrite <- IH.
  apply for_loop_ext. intros i t Hi. by rewrite app_nth1 by lia.
Qed.

(** [for (i = 0; i < n; i++) l[i] = f(i, l[i]);] *)
Lemma for_loop_update (f : nat -> Z -> Z) n l :
  length l = n ->
  for_loop 0 n (fun l i => <[i := f i l.[i]]> l) l = map (fun i => f i l.[i]) (seq 0 n).
Proof.
  intros Hl.
  destruct (for_loop_inv (fun k t => length t = n /\ forall j, (j < n)%nat -> t.[j] =
      if decide (j < k)%nat then f j l.[j] else l.[j]) 0 n (fun l i => <[i := f i l.[i]]> l) l)
    as [Hn Hj].
  - split; [done|]. intros. by case_decide; [lia|].
  - intros i t Hi [Ht Hv]. split; [by rewrite length_insert|]. intros j Hj.
    rewrite ix_insert by lia. destruct (decide (i = j)) as [->|Hne]; rewrite Hv by done;
      repeat case_decide; first [lia|done].
  -   apply ix_ext; [len|]. intros j Hlt. rewrite Hj by lia. rewrite ix_map_seq by lia.
    case_decide; [done|lia].
Qed.

(** ** Little-endian numerals *)

Fixpoint le_val (l : list Z) : Z :=
  match l with [] => 0 | b :: r => b + 256 * le_val r end.
Fixpoint le_bytes (n : nat) (v : Z) : list Z :=
  match n with O => [] | S n => u8 v :: le_bytes n (Z.shiftr v 8) end.

Lemma length_le_bytes n v : length (le_bytes n v) = n.
Proof. revert v. induction n; intros; simpl; auto. Qed.

Lemma le_bytes_wf n v : wf_bytes (le_bytes n v).
Proof. revert v. induction n; intros; simpl; constructor; auto with words. Qed.

Lemma le_val_bound l : wf_bytes l -> 0 <= le_val l < 256 ^ Z.of_nat (length l).
Proof.
  induction 1 as [|b r Hb Hr IH]; [done|].
  cbn [le_val length]. unfold is_byte in Hb. rewrite Nat2Z.inj_succ, Z.pow_succ_r by lia. lia.
Qed.

Lemma le_val_app l k : le_val (l ++ k) = le_val l + 256 ^ Z.of_nat (length l) * le_val k.
Proof.
  induction l as [|b r IH]; cbn [le_val length app]; [lia|].
  rewrite IH, Nat2Z.inj_succ, Z.pow_succ_r by lia. lia.
Qed.

Lemma le_val_le_bytes n v : le_val (le_bytes n v) = v mod 256 ^ Z.of_nat n.
Proof.
  revert v. induction n as [|n IH]; intros v; cbn [le_val le_bytes].
  - by rewrite Z.mod_1_r.
  - rewrite IH, u8_mod, Nat2Z.inj_succ, Z.pow_succ_r, Z.shiftr_div_pow2 by lia.
    rewrite Z.rem_mul_r by lia. done.
Qed.

Lemma le_bytes_le_val l : wf_bytes l -> le_bytes (length l) (le_val l) = l.
Proof.
  induction 1 as [|b r Hb Hr IH]; [done|]. cbn [le_val le_bytes length].
  unfold is_byte in Hb. f_equal.
  - rewrite u8_mod. lia.
  - rewrite Z.shiftr_div_pow2 by lia.
    replace ((b + 256 * le_val r) / 2 ^ 8) with (le_val r) by lia. done.
Qed.

Lemma le_val_inj l k :
  wf_bytes l -> wf_bytes k -> length l = length k -> le_val l = le_val k -> l = k.
Proof.
  intros Hl Hk He Hv. rewrite <- (le_bytes_le_val l), <- (le_bytes_le_val k) by done.
  by rewrite He, Hv.
Qed.

Lemma le_val_zeros n : le_val (zeros n) = 0.
Proof. unfold zeros. induction n; [done|]. cbn [replicate le_val]. lia. Qed.

Lemma le_bytes_mod n v : le_bytes n v = le_bytes n (v mod 256 ^ Z.of_nat n).
Proof.
  apply le_val_inj; rewrite ?length_le_bytes; auto using le_bytes_wf.
  rewrite !le_val_le_bytes, Z.mod_mod; [done|]. apply Z.pow_nonzero; lia.
Qed.

Lemma length_concat_words n (l : list Z) : length (concat (map (le_bytes n) l)) = (n * length l)%nat.
Proof.
  induction l as [|x l IH]; cbn [concat map length]; [lia|].
  rewrite length_app, length_le_bytes, IH. lia.
Qed.


(** The C idiom [p[0] | p[1] << 8 | p[2] << 16 | p[3] << 24] and its inverse. *)
Definition load32 (p : list Z) (i : nat) : Z :=
  Z.lor (Z.lor (Z.lor p.[i] (u32 (Z.shiftl p.[i + 1] 8)))
               (u32 (Z.shiftl p.[i + 2] 16))) (u32 (Z.shiftl p.[i + 3] 24)).
Definition store32 (v : Z) : list Z :=
  [u8 v; u8 (Z.shiftr v 8); u8 (Z.shiftr v 16); u8 (Z.shiftr v 24)].

Lemma load32_val p i :
  wf_bytes p -> load32 p i = p.[i] + 256 * p.[i + 1] + 65536 * p.[i + 2] + 16777216 * p.[i + 3].
Proof.
  intros Hp. unfold load32.
  pose proof (ix_byte p i Hp) as H0. pose proof (ix_byte p (i + 1) Hp) as H1.
  pose proof (ix_byte p (i + 2) Hp) as H2. pose proof (ix_byte p (i + 3) Hp) as H3.
  unfold is_byte in *.
  rewrite !u32_id by (rewrite Z.shiftl_mul_pow2 by lia; lia).
  rewrite (lor_add_shift _ _ 8) by lia.
  rewrite (lor_add_shift _ _ 16) by lia.
  rewrite (lor_add_shift _ _ 24) by lia. lia.
Qed.

Lemma load32_is_u32 p i : wf_bytes p -> is_u32 (load32 p i).
Proof.
  intros Hp. rewrite load32_val by done.
  pose proof (ix_byte p i Hp) as H0. pose proof (ix_byte p (i + 1) Hp) as H1.
  pose proof (ix_byte p (i + 2) Hp) as H2. pose proof (ix_byte p (i + 3) Hp) as H3.
  unfold is_byte, is_u32 in *. lia.
Qed.

Lemma slice4 p i : (i + 4 <= length p)%nat ->
  slice p i 4 = [p.[i]; p.[i + 1]; p.[i + 2]; p.[i + 3]].
Proof.
  intros H. apply ix_ext; [by rewrite length_slice|].
  rewrite length_slice by done. intros j Hj. rewrite ix_slice by done.
  destruct j as [|[|[|[|]]]]; [by rewrite Nat.add_0_r|done..|lia].
Qed.

Lemma load32_le p i : wf_bytes p -> (i + 4 <= length p)%nat -> load32 p i = le_val (slice p i 4).
Proof. intros Hp Hi. rewrite load32_val, slice4 by done. cbn [le_val]. lia. Qed.

Lemma store32_le v : store32 v = le_bytes 4 v.
Proof. unfold store32. cbn [le_bytes]. by rewrite !Z.shiftr_shiftr by lia. Qed.

Lemma store32_wf v : wf_bytes (store32 v).
Proof. rewrite store32_le. apply le_bytes_wf. Qed.

#[export] Hint Resolve load32_is_u32 store32_wf le_bytes_wf : words.
#[export] Hint Rewrite length_le_bytes length_zeros : len.

(** Find a field of a concatenation from the lengths of its pieces. *)
Ltac slices :=
  repeat first [rewrite slice_head by len | rewrite slice_whole by len
    | rewrite slice_app_r by len | rewrite slice_app_l by len]; try reflexivity.

(** Prove that a byte string built from known pieces holds bytes. *)
Ltac wf :=
  repeat first [assumption | apply Forall_nil_2 | apply Forall_cons_2; [unfold is_byte; lia|]
    | apply Forall_app_2 | solve [auto with words] ].

Lemma le_val_drop n l : wf_bytes l -> (n <= length l)%nat ->
  le_val (drop n l) = le_val l / 256 ^ Z.of_nat n.
Proof.
  intros Hl Hn. rewrite <- (take_drop n l) at 2. rewrite le_val_app, length_take, Nat.min_l by done.
  pose proof (le_val_bound (take n l) ltac:(auto with words)) as Hb.
  rewrite length_take, Nat.min_l in Hb by done.
  rewrite Z.mul_comm, Z.div_add, Z.div_small by lia. lia.
Qed.

Lemma le_val_take n l : wf_bytes l -> (n <= length l)%nat ->
  le_val (take n l) = le_val l mod 256 ^ Z.of_nat n.
Proof.
  intros Hl Hn. rewrite <- (take_drop n l) at 2. rewrite le_val_app, length_take, Nat.min_l by done.
  pose proof (le_val_bound (take n l) ltac:(auto with words)) as Hb.
  rewrite length_take, Nat.min_l in Hb by done.
  rewrite Z.mul_comm, Z.mod_add, Z.mod_small by lia. done.
Qed.

(** A 32-bit load at offset [i] reads bits [8i .. 8i+31] of the whole string. *)
Lemma load32_bits p i : wf_bytes p -> (i + 4 <= length p)%nat ->
  load32 p i = le_val p / 256 ^ Z.of_nat i mod 4294967296.
Proof.
  intros Hp Hi. rewrite load32_le by done. unfold slice.
  rewrite le_val_take, le_val_drop by (rewrite ?length_drop; auto with words; lia). done.
Qed.

(** [land] works digit by digit. *)
Lemma land_digits a b c d k : 0 <= k -> 0 <= a < 2 ^ k -> 0 <= c < 2 ^ k ->
  Z.land (a + b * 2 ^ k) (c + d * 2 ^ k) = Z.land a c + Z.land b d * 2 ^ k.
Proof.
  intros Hk Ha Hc.
  assert (0 <= Z.land a c < 2 ^ k) as Hac by (pose proof (land_bound_r a c); lia).
  rewrite <- !lor_add_shift by done.
  apply Z.bits_inj'. intros i Hi. rewrite !Z.land_spec, !Z.lor_spec, Z.land_spec.
  destruct (decide (i < k)).
  - rewrite !Z.shiftl_spec_low by lia. by rewrite !orb_false_r.
  - rewrite !Z.shiftl_spec by lia. rewrite Z.land_spec.
    rewrite (testbit_above a k), (testbit_above c k) by lia. done.
Qed.

Lemma mul_range a b A B : 0 <= a <= A -> 0 <= b <= B -> 0 <= a * b <= A * B.
Proof. nia. Qed.

Lemma pow_mod_cong x y e n : x mod n = y mod n -> x ^ e mod n = y ^ e mod n.
Proof.
  intros H. destruct (Z.neg_nonneg_cases e) as [He|He]; [by rewrite !Z.pow_neg_r by done|].
  revert e He. apply natlike_ind; [done|]. intros e He IH.
  rewrite !Z.pow_succ_r by done. rewrite Zmult_mod, H, IH, <- Zmult_mod. reflexivity.
Qed.

(** ** Decimal numerals, as [printf("%u")] writes them *)

Fixpoint dec_digits (fuel : nat) (n : Z) : list Z :=
  match fuel with
  | O => []
  | S fuel => if decide (n < 10) then [48 + n] else dec_digits fuel (n / 10) ++ [48 + n mod 10]
  end.
Definition dec (n : Z) : list Z := dec_digits 10 n.

Definition is_digit (c : Z) : Prop := 48 <= c <= 57.
#[export] Instance is_digit_dec c : Decision (is_digit c).
Proof. unfold is_digit. apply _. Defined.

Lemma dec_digits_spec f : forall n, 0 <= n < 10 ^ Z.of_nat f ->
  Forall is_digit (dec_digits f n) /\ foldl (fun a c => a * 10 + (c - 48)) 0 (dec_digits f n) = n.
Proof.
  unfold is_digit. induction f as [|f IH]; intros n Hn; [cbn in *; split; [done|lia]|]. cbn [dec_digits].
  rewrite Nat2Z.inj_succ, Z.pow_succ_r in Hn by lia.
  case_decide; [split; [apply Forall_cons_2; [lia|done]|cbn; lia]|].
  destruct (IH (n / 10)) as [IH1 IH2]; [lia|].
  rewrite foldl_app, IH2. cbn [foldl]. split; [|lia].
  apply Forall_app_2; [done|]. apply Forall_cons_2; [lia|done].
Qed.

(** A canonical numeral: not empty, and a leading zero only for zero itself. *)
Lemma dec_digits_head f : forall n, 0 <= n < 10 ^ Z.of_nat f -> (0 < f)%nat ->
  exists c ds, dec_digits f n = c :: ds /\ is_digit c /\ (c = 48 -> n = 0 /\ ds = []).
Proof.
  unfold is_digit. induction f as [|f IH]; intros n Hn Hf; [lia|]. cbn [dec_digits].
  rewrite Nat2Z.inj_succ, Z.pow_succ_r in Hn by lia.
  case_decide; [exists (48 + n), []; repeat split; lia|].
  destruct f as [|f]; [cbn in Hn; lia|].
  destruct (IH (n / 10)) as (c & ds & -> & Hc & H0); [lia|lia|].
  exists c, (ds ++ [48 + n mod 10]). split; [done|]. split; [done|]. intros E. destruct (H0 E). lia.
Qed.
