(* ===== verification/Blake2s.v ===== *)
(** * BLAKE2s

    [src/Modules/NekroEngine/NekroCore/crypto/blake2s.c]. *)

From S2P Require Import Prelude.

(** ** State and operations of the C code *)

Definition NW_BLAKE2S_OUTBYTES : nat := 32.
Definition NW_BLAKE2S_BLOCKBYTES : nat := 64.
Definition NW_BLAKE2S_KEYBYTES : nat := 32.

Definition blake2s_IV : list Z :=
  [0x6A09E667; 0xBB67AE85; 0x3C6EF372; 0xA54FF53A;
   0x510E527F; 0x9B05688C; 0x1F83D9AB; 0x5BE0CD19].

Definition blake2s_sigma : list (list nat) :=
  [[0; 1; 2; 3; 4; 5; 6; 7; 8; 9; 10; 11; 12; 13; 14; 15];
   [14; 10; 4; 8; 9; 15; 13; 6; 1; 12; 0; 2; 11; 7; 5; 3];
   [11; 8; 12; 0; 5; 2; 15; 13; 10; 14; 3; 6; 7; 1; 9; 4];
   [7; 9; 3; 1; 13; 12; 11; 14; 2; 6; 5; 10; 4; 0; 15; 8];
   [9; 0; 5; 7; 2; 4; 10; 15; 14; 1; 11; 12; 6; 8; 3; 13];
   [2; 12; 6; 10; 0; 11; 8; 3; 4; 13; 7; 5; 15; 14; 1; 9];
   [12; 5; 1; 15; 14; 13; 4; 10; 0; 7; 6; 3; 9; 2; 8; 11];
   [13; 11; 7; 14; 12; 1; 3; 9; 5; 0; 15; 4; 8; 6; 2; 10];
   [6; 15; 14; 9; 11; 3; 0; 8; 12; 2; 13; 7; 1; 4; 10; 5];
   [10; 2; 8; 4; 7; 6; 1; 5; 15; 11; 9; 14; 3; 12; 13; 0]]%nat.

(** [blake2s_sigma[r][k]] *)
Definition sigma (r k : nat) : nat := nth k (nth r blake2s_sigma []) 0%nat.

Record nw_blake2s_state := BState {
  S_h : list Z;
  S_t0 : Z; S_t1 : Z;
  S_f0 : Z; S_f1 : Z;
  S_buf : list Z;
  S_buflen : nat;
  S_outlen : nat
}.

Definition rotr32 (w c : Z) : Z := Z.lor (Z.shiftr w c) (u32 (Z.shiftl w (32 - c))).

Definition blake2s_increment_counter (st : nw_blake2s_state) (inc : Z) : nw_blake2s_state :=
  let t0 := u32 (S_t0 st + inc) in
  let t1 := u32 (S_t1 st + (if t0 <? inc then 1 else 0)) in
  BState (S_h st) t0 t1 (S_f0 st) (S_f1 st) (S_buf st) (S_buflen st) (S_outlen st).

(** The macro [G(r,i,a,b,c,d)] on the cells [v[a] .. v[d]]. *)
Definition G (m : list Z) (r i a b c d : nat) (v : list Z) : list Z :=
  let va := u32 (u32 (v.[a] + v.[b]) + m.[sigma r (2 * i)]) in
  let vd := rotr32 (Z.lxor v.[d] va) 16 in
  let vc := u32 (v.[c] + vd) in
  let vb := rotr32 (Z.lxor v.[b] vc) 12 in
  let va := u32 (u32 (va + vb) + m.[sigma r (2 * i + 1)]) in
  let vd := rotr32 (Z.lxor vd va) 8 in
  let vc := u32 (vc + vd) in
  let vb := rotr32 (Z.lxor vb vc) 7 in
  <[b := vb]> (<[c := vc]> (<[d := vd]> (<[a := va]> v))).

Definition ROUND (m : list Z) (v : list Z) (r : nat) : list Z :=
  let v := G m r 0 0 4 8 12 v in
  let v := G m r 1 1 5 9 13 v in
  let v := G m r 2 2 6 10 14 v in
  let v := G m r 3 3 7 11 15 v in
  let v := G m r 4 0 5 10 15 v in
  let v := G m r 5 1 6 11 12 v in
  let v := G m r 6 2 7 8 13 v in
  G m r 7 3 4 9 14 v.

Definition blake2s_compress (st : nw_blake2s_state) (block : list Z) : nw_blake2s_state :=
  let m := map (fun i => load32 block (i * 4)) (seq 0 16) in
  let v := map (fun i => (S_h st).[i]) (seq 0 8) ++
           [blake2s_IV.[0]; blake2s_IV.[1]; blake2s_IV.[2]; blake2s_IV.[3];
            Z.lxor (S_t0 st) blake2s_IV.[4]; Z.lxor (S_t1 st) blake2s_IV.[5];
            Z.lxor (S_f0 st) blake2s_IV.[6]; Z.lxor (S_f1 st) blake2s_IV.[7]] in
  let v := for_loop 0 10 (ROUND m) v in
  let h := for_loop 0 8 (fun h i => <[i := Z.lxor h.[i] (Z.lxor v.[i] v.[i + 8])]> h) (S_h st) in
  BState h (S_t0 st) (S_t1 st) (S_f0 st) (S_f1 st) (S_buf st) (S_buflen st) (S_outlen st).

(** The [while (inlen > NW_BLAKE2S_BLOCKBYTES)] loop of [nw_blake2s_update]. *)
Fixpoint update_blocks (fuel : nat) (st : nw_blake2s_state) (pin : list Z) : nw_blake2s_state * list Z :=
  match fuel with
  | O => (st, pin)
  | S fuel =>
      if decide (NW_BLAKE2S_BLOCKBYTES < length pin)%nat then
        let st := blake2s_increment_counter st (Z.of_nat NW_BLAKE2S_BLOCKBYTES) in
        let st := blake2s_compress st (take NW_BLAKE2S_BLOCKBYTES pin) in
        update_blocks fuel st (drop NW_BLAKE2S_BLOCKBYTES pin)
      else (st, pin)
  end.

Definition with_buf (st : nw_blake2s_state) (buf : list Z) (buflen : nat) : nw_blake2s_state :=
  BState (S_h st) (S_t0 st) (S_t1 st) (S_f0 st) (S_f1 st) buf buflen (S_outlen st).

Definition nw_blake2s_update (st : nw_blake2s_state) (inp : list Z) : nw_blake2s_state :=
  if decide (length inp = 0)%nat then st else
  let left := S_buflen st in
  let fill := (NW_BLAKE2S_BLOCKBYTES - left)%nat in
  let '(st, pin) :=
    if decide (fill < length inp)%nat then
      let st := with_buf st (store (S_buf st) left (take fill inp)) 0 in
      let st := blake2s_increment_counter st (Z.of_nat NW_BLAKE2S_BLOCKBYTES) in
      let st := blake2s_compress st (S_buf st) in
      update_blocks (length inp) st (drop fill inp)
    else (st, inp) in
  with_buf st (store (S_buf st) (S_buflen st) pin) (S_buflen st + length pin).

(** [-1] is [None]. *)
Definition nw_blake2s_init (outlen : nat) : option nw_blake2s_state :=
  if decide (outlen = 0 \/ NW_BLAKE2S_OUTBYTES < outlen)%nat then None else
  let h := <[0%nat := Z.lxor blake2s_IV.[0] (Z.lxor 0x01010000 (u32 (Z.of_nat outlen)))]> blake2s_IV in
  Some (BState h 0 0 0 0 (zeros NW_BLAKE2S_BLOCKBYTES) 0 outlen).

Definition nw_blake2s_init_key (outlen : nat) (key : list Z) : option nw_blake2s_state :=
  let keylen := length key in
  if decide (outlen = 0 \/ NW_BLAKE2S_OUTBYTES < outlen)%nat then None else
  if decide (NW_BLAKE2S_KEYBYTES < keylen)%nat then None else
  let h := <[0%nat := Z.lxor blake2s_IV.[0]
                       (Z.lxor (Z.lxor 0x01010000 (u32 (Z.shiftl (u32 (Z.of_nat keylen)) 8)))
                               (u32 (Z.of_nat outlen)))]> blake2s_IV in
  let st := BState h 0 0 0 0 (zeros NW_BLAKE2S_BLOCKBYTES) 0 outlen in
  if decide (keylen = 0)%nat then Some st else
  Some (nw_blake2s_update st (store (zeros NW_BLAKE2S_BLOCKBYTES) 0 key)).

(** Result: the state left behind and the [S->outlen] bytes written to [out]. *)
Definition nw_blake2s_final (st : nw_blake2s_state) (outlen : nat) : option (nw_blake2s_state * list Z) :=
  if decide (outlen < S_outlen st)%nat then None else
  let st := blake2s_increment_counter st (u32 (Z.of_nat (S_buflen st))) in
  let st := BState (S_h st) (S_t0 st) (S_t1 st) 0xffffffff (S_f1 st)
             (store (S_buf st) (S_buflen st) (zeros (NW_BLAKE2S_BLOCKBYTES - S_buflen st)))
             (S_buflen st) (S_outlen st) in
  let st := blake2s_compress st (S_buf st) in
  let buffer := for_loop 0 8 (fun buffer i => store buffer (i * 4) (store32 (S_h st).[i]))
                  (zeros NW_BLAKE2S_OUTBYTES) in
  Some (st, take (S_outlen st) buffer).

(** [key = NULL] is the empty list. *)
Definition nw_blake2s (outlen : nat) (inp key : list Z) : option (list Z) :=
  st ← (if decide (key <> []) then nw_blake2s_init_key outlen key else nw_blake2s_init outlen);
  let st := nw_blake2s_update st inp in
  '(_, out) ← nw_blake2s_final st outlen;
  Some out.


(** ** Specification: RFC 7693

    Written on unbounded integers: words are reduced [mod 2^32] where the RFC
    says so, the message is one string and the offset counter one number. *)

Definition rfc_rotr (w c : Z) : Z := (w / 2 ^ c + w * 2 ^ (32 - c)) mod 4294967296.

(** RFC 7693, section 3.1: the mixing function G. *)
Definition rfc_G (v : list Z) (a b c d : nat) (x y : Z) : list Z :=
  let v := <[a := (v.[a] + v.[b] + x) mod 4294967296]> v in
  let v := <[d := rfc_rotr (Z.lxor v.[d] v.[a]) 16]> v in
  let v := <[c := (v.[c] + v.[d]) mod 4294967296]> v in
  let v := <[b := rfc_rotr (Z.lxor v.[b] v.[c]) 12]> v in
  let v := <[a := (v.[a] + v.[b] + y) mod 4294967296]> v in
  let v := <[d := rfc_rotr (Z.lxor v.[d] v.[a]) 8]> v in
  let v := <[c := (v.[c] + v.[d]) mod 4294967296]> v in
  <[b := rfc_rotr (Z.lxor v.[b] v.[c]) 7]> v.

Definition rfc_round (m : nat -> Z) (v : list Z) (s : list nat) : list Z :=
  let x k := m (nth k s 0%nat) in
  let v := rfc_G v 0 4 8 12 (x 0%nat) (x 1%nat) in
  let v := rfc_G v 1 5 9 13 (x 2%nat) (x 3%nat) in
  let v := rfc_G v 2 6 10 14 (x 4%nat) (x 5%nat) in
  let v := rfc_G v 3 7 11 15 (x 6%nat) (x 7%nat) in
  let v := rfc_G v 0 5 10 15 (x 8%nat) (x 9%nat) in
  let v := rfc_G v 1 6 11 12 (x 10%nat) (x 11%nat) in
  let v := rfc_G v 2 7 8 13 (x 12%nat) (x 13%nat) in
  rfc_G v 3 4 9 14 (x 14%nat) (x 15%nat).

(** Section 3.2: the compression function F, with the message word [i] read
    as a little-endian number. *)
Definition rfc_F (h m : list Z) (t : Z) (f : bool) : list Z :=
  let v := h ++ blake2s_IV in
  let v := <[12%nat := Z.lxor v.[12] (t mod 4294967296)]> v in
  let v := <[13%nat := Z.lxor v.[13] (t / 4294967296 mod 4294967296)]> v in
  let v := if f then <[14%nat := Z.lxor v.[14] 0xffffffff]> v else v in
  let v := foldl (rfc_round (fun i => le_val (slice m (4 * i) 4))) v blake2s_sigma in
  map (fun i => Z.lxor h.[i] (Z.lxor v.[i] v.[i + 8])) (seq 0 8).

(** Section 3.3: all the blocks but the last, then the padded last one. *)
Fixpoint rfc_absorb (fuel : nat) (h : list Z) (t : Z) (d : list Z) : list Z :=
  match fuel with
  | O => h
  | S fuel =>
      if decide (length d <= 64)%nat
      then rfc_F h (d ++ zeros (64 - length d)) (t + Z.of_nat (length d)) true
      else rfc_absorb fuel (rfc_F h (take 64 d) (t + 64) false) (t + 64) (drop 64 d)
  end.

Definition rfc_init (outlen keylen : nat) : list Z :=
  <[0%nat := Z.lxor blake2s_IV.[0] (0x01010000 + 256 * Z.of_nat keylen + Z.of_nat outlen)]> blake2s_IV.

Definition rfc_blake2s (outlen : nat) (msg key : list Z) : list Z :=
  let d := if decide (key = []) then msg else key ++ zeros (64 - length key) ++ msg in
  take outlen (concat (map (le_bytes 4) (rfc_absorb (S (length d)) (rfc_init outlen (length key)) 0 d))).

(** ** The compression function *)

Lemma rotr32_rfc w c : is_u32 w -> 0 < c < 32 -> rotr32 w c = rfc_rotr w c.
Proof.
  intros Hw Hc. unfold rotr32, rfc_rotr, is_u32 in *.
  assert (0 < 2 ^ c) as Hp by (apply Z.pow_pos_nonneg; lia).
  assert (0 < 2 ^ (32 - c)) as Hq by (apply Z.pow_pos_nonneg; lia).
  assert (2 ^ c * 2 ^ (32 - c) = 4294967296) as Hpq
    by (rewrite <- Z.pow_add_r by lia; by replace (c + (32 - c)) with 32 by lia).
  rewrite u32_mod, Z.shiftl_mul_pow2, Z.shiftr_div_pow2 by lia.
  pose proof (Z.div_mod w (2 ^ c) ltac:(lia)) as Hdm.
  pose proof (Z.mod_pos_bound w (2 ^ c) Hp) as Hm.
  set (q := w / 2 ^ c) in *. set (r := w mod 2 ^ c) in *.
  assert (0 <= q < 2 ^ (32 - c)) as Hqb.
  { split; [apply Z.div_pos; lia|]. apply Z.div_lt_upper_bound; nia. }
  replace (w * 2 ^ (32 - c)) with (r * 2 ^ (32 - c) + q * 4294967296) by nia.
  rewrite Z.add_assoc, !Z.mod_add by lia.
  rewrite (Z.mod_small (r * _)), (Z.mod_small (q + _)) by nia.
  rewrite <- (Z.shiftl_mul_pow2 r) by lia. rewrite lor_add_shift by lia.
  by rewrite Z.shiftl_mul_pow2 by lia.
Qed.

Lemma rotr32_is_u32 w c : is_u32 w -> 0 < c < 32 -> is_u32 (rotr32 w c).
Proof. intros. rewrite rotr32_rfc by done. unfold rfc_rotr, is_u32. lia. Qed.
Lemma rfc_rotr_is_u32 w c : is_u32 (rfc_rotr w c).
Proof. unfold rfc_rotr, is_u32. lia. Qed.
#[export] Hint Resolve rotr32_is_u32 rfc_rotr_is_u32 : words.

Ltac words := repeat first [apply rotr32_is_u32; [|lia] | apply rfc_rotr_is_u32 | apply lxor_is_u32 | apply ix_u32
  | apply u32_is_u32 | assumption].

Lemma length_G m r i a b c d v : length (G m r i a b c d v) = length v.
Proof. unfold G. len. Qed.

Lemma G_wf m r i a b c d v : wf_words v -> wf_words (G m r i a b c d v).
Proof. intros Hv. unfold G. repeat apply Forall_insert; words; done. Qed.

Lemma u32_add3 x y z : u32 (x + y + z) = u32 (u32 (x + y) + z).
Proof. rewrite !u32_mod. lia. Qed.

Lemma G_rfc m r i a b c d v :
  wf_words v -> length v = 16%nat -> NoDup [a; b; c; d] -> Forall (fun k => k < 16)%nat [a; b; c; d] ->
  G m r i a b c d v = rfc_G v a b c d m.[sigma r (2 * i)] m.[sigma r (2 * i + 1)].
Proof.
  intros Hv Hl Hnd Hlt.
  repeat match goal with H : NoDup (_ :: _) |- _ => apply NoDup_cons in H; destruct H end.
  repeat match goal with H : Forall _ (_ :: _) |- _ => apply Forall_cons in H; destruct H end.
  assert (a <> b /\ a <> c /\ a <> d /\ b <> c /\ b <> d /\ c <> d) as (?&?&?&?&?&?) by set_solver.
  unfold G, rfc_G.
  repeat first [rewrite ix_insert_eq by (rewrite ?length_insert; lia) | rewrite ix_insert_ne by done].
  rewrite <- !u32_mod, !u32_add3.
  rewrite <- !rotr32_rfc by (first [lia | words]).
  apply ix_ext; [len|]. intros j _.
  rewrite !ix_insert by (rewrite ?length_insert; lia). repeat case_decide; congruence.
Qed.

Lemma ROUND_rfc m v r :
  wf_words v -> length v = 16%nat ->
  ROUND m v r = rfc_round (fun k => m.[k]) v (nth r blake2s_sigma []).
Proof.
  intros Hv Hl. unfold ROUND, rfc_round.
  do 8 (rewrite G_rfc; [|repeat apply G_wf; done|by rewrite ?length_G
    |by apply (bool_decide_unpack _); vm_compute|by repeat constructor; lia]).
  done.
Qed.

Lemma ROUND_wf m v r : wf_words v -> length v = 16%nat ->
  wf_words (ROUND m v r) /\ length (ROUND m v r) = 16%nat.
Proof. intros. unfold ROUND. split; [repeat apply G_wf; done|by rewrite !length_G]. Qed.

Lemma rfc_round_ext m m' v s : (forall k, m k = m' k) -> rfc_round m v s = rfc_round m' v s.
Proof. intros H. unfold rfc_round. by rewrite !H. Qed.

(** The 64-bit offset counter held in [t[0]], [t[1]]. *)
Definition counter (st : nw_blake2s_state) : Z := S_t0 st + 4294967296 * S_t1 st.

Record wf_state (st : nw_blake2s_state) : Prop := {
  wf_h_len : length (S_h st) = 8%nat;
  wf_h : wf_words (S_h st);
  wf_t0 : is_u32 (S_t0 st);
  wf_t1 : is_u32 (S_t1 st);
  wf_f0 : S_f0 st = 0;
  wf_f1 : S_f1 st = 0;
  wf_buf_len : length (S_buf st) = 64%nat;
  wf_buf : wf_bytes (S_buf st);
  wf_buflen : (S_buflen st <= 64)%nat;
  wf_outlen : (1 <= S_outlen st <= 32)%nat
}.

Lemma message_word block i :
  wf_bytes block -> length block = 64%nat ->
  (map (fun i => load32 block (i * 4)) (seq 0 16)).[i] = le_val (slice block (4 * i) 4).
Proof.
  intros Hb Hl. destruct (decide (i < 16)%nat).
  - rewrite (ix_map_seq (fun i => load32 block (i * 4))) by done.
    rewrite load32_le by (done || lia). by rewrite Nat.mul_comm.
  - unfold ix. rewrite nth_overflow by len. unfold slice. by rewrite drop_ge by lia.
Qed.

Lemma blake2s_IV_wf : wf_words blake2s_IV.
Proof. apply (bool_decide_unpack _). by vm_compute. Qed.

(** One compression step of the C code is the function F of the RFC. *)
Lemma blake2s_compress_rfc st block (f : bool) :
  length (S_h st) = 8%nat -> wf_words (S_h st) -> is_u32 (S_t0 st) -> is_u32 (S_t1 st) ->
  S_f1 st = 0 -> S_f0 st = (if f then 0xffffffff else 0) ->
  wf_bytes block -> length block = 64%nat ->
  S_h (blake2s_compress st block) = rfc_F (S_h st) block (counter st) f /\
  wf_words (S_h (blake2s_compress st block)) /\ length (S_h (blake2s_compress st block)) = 8%nat.
Proof.
  intros Hhl Hh Ht0 Ht1 Hf1 Hf0 Hb Hbl. unfold blake2s_compress, rfc_F. cbn [S_h].
  set (ms := map (fun i => load32 block (i * 4)) (seq 0 16)). set (v0 := map (fun i => (S_h st).[i]) (seq 0 8) ++ _).
  match goal with |- context [if f then ?a else ?b] => set (v1 := if f then a else b) end.
  assert (wf_words v0 /\ length v0 = 16%nat) as [Hv0 Hl0].
  { split; [|by unfold v0; len]. unfold v0. apply Forall_app_2.
    - apply Forall_map, Forall_true. intros. by apply ix_u32.
    - pose proof blake2s_IV_wf. rewrite Hf1, Hf0.
      repeat constructor; try (apply lxor_is_u32; [|by apply ix_u32]); try by apply ix_u32.
      all: try assumption; destruct f; unfold is_u32; lia. }
  assert (v0 = v1) as <-.
  { unfold v0, v1. rewrite Hf1, Hf0. unfold counter, is_u32 in *.
    replace ((S_t0 st + 4294967296 * S_t1 st) mod 4294967296) with (S_t0 st) by lia.
    replace ((S_t0 st + 4294967296 * S_t1 st) / 4294967296 mod 4294967296) with (S_t1 st) by lia.
    rewrite (Z.lxor_comm (S_t0 st)), (Z.lxor_comm (S_t1 st)).
    destruct (S_h st) as [|?[|?[|?[|?[|?[|?[|?[|?[|]]]]]]]]]; try discriminate Hhl.
    by destruct f. }
  destruct (for_loop_inv_ext (fun _ v => wf_words v /\ length v = 16%nat) 0 10 (ROUND ms)
    (fun v r => rfc_round (fun i => le_val (slice block (4 * i) 4)) v (nth r blake2s_sigma []))
    v0 ltac:(done)) as [He [Hw Hl]].
  { intros i t _ [Ht Htl]. split; [|by apply ROUND_wf].
    rewrite ROUND_rfc by done. apply rfc_round_ext. intros. by apply message_word. }
  rewrite <- (for_loop_foldl _ blake2s_sigma []). change (length blake2s_sigma) with 10%nat.
  rewrite <- He. set (v := for_loop _ _ (ROUND ms) _) in *.
  rewrite (for_loop_update (fun i x => Z.lxor x (Z.lxor v.[i] v.[i + 8]))) by done.
  split; [done|]. split; [|by len].
  apply Forall_map, Forall_true. intros. words.
Qed.

(** ** The streaming interface implements the one-string specification *)

Definition absorb (h : list Z) (t : Z) (d : list Z) : list Z := rfc_absorb (S (length d)) h t d.

Lemma rfc_absorb_fuel n h t d : (length d < n)%nat -> rfc_absorb n h t d = absorb h t d.
Proof.
  unfold absorb. revert h t d. induction n as [n IH] using lt_wf_ind. intros h t d Hn.
  destruct n as [|n]; [lia|]. cbn [rfc_absorb]. case_decide; [done|].
  rewrite IH by (rewrite ?length_drop; lia). rewrite (IH (length d)) by (rewrite ?length_drop; lia).
  done.
Qed.

Lemma absorb_last h t d : (length d <= 64)%nat ->
  absorb h t d = rfc_F h (d ++ zeros (64 - length d)) (t + Z.of_nat (length d)) true.
Proof. intros. unfold absorb. cbn [rfc_absorb]. by case_decide. Qed.

Lemma absorb_step h t b d : length b = 64%nat -> d <> [] ->
  absorb h t (b ++ d) = absorb (rfc_F h b (t + 64) false) (t + 64) d.
Proof.
  intros Hb Hd. unfold absorb at 1. cbn [rfc_absorb].
  assert (length d <> 0%nat) by (by destruct d). case_decide as Hle; [rewrite length_app in Hle; lia|].
  rewrite take_app_length', drop_app_length' by done.
  apply rfc_absorb_fuel. len.
Qed.

Lemma rfc_F_cong h m t t' f :
  t mod 18446744073709551616 = t' mod 18446744073709551616 -> rfc_F h m t f = rfc_F h m t' f.
Proof.
  intros H. unfold rfc_F.
  replace (t mod 4294967296) with (t' mod 4294967296) by lia.
  replace (t / 4294967296 mod 4294967296) with (t' / 4294967296 mod 4294967296) by lia. done.
Qed.

Lemma absorb_cong h t t' d :
  t mod 18446744073709551616 = t' mod 18446744073709551616 -> absorb h t d = absorb h t' d.
Proof.
  unfold absorb. generalize (S (length d)) as n. intros n. revert h t t' d.
  induction n as [|n IH]; intros h t t' d H; [done|]. cbn [rfc_absorb]. case_decide.
  - apply rfc_F_cong. lia.
  - rewrite (rfc_F_cong _ _ (t + 64) (t' + 64)) by lia. apply IH. lia.
Qed.

#[local] Opaque rfc_F absorb blake2s_compress.

Lemma counter_increment st inc :
  wf_state st -> 0 <= inc < 4294967296 ->
  counter (blake2s_increment_counter st inc) = (counter st + inc) mod 18446744073709551616 /\
  wf_state (blake2s_increment_counter st inc).
Proof.
  intros [] Hinc. unfold blake2s_increment_counter, counter in *. cbn. split.
  - unfold is_u32 in *. rewrite !u32_mod. case_match; lia.
  - constructor; cbn; auto with words.
Qed.

Lemma wf_with_buf st buf n :
  wf_state st -> length buf = 64%nat -> wf_bytes buf -> (n <= 64)%nat -> wf_state (with_buf st buf n).
Proof. intros []. by constructor. Qed.

(** Absorbing one full block: the counter advances by 64, then F. *)
Lemma compress_block st b :
  wf_state st -> length b = 64%nat -> wf_bytes b ->
  let st' := blake2s_compress (blake2s_increment_counter st 64) b in
  S_h st' = rfc_F (S_h st) b (counter st + 64) false /\
  counter st' = (counter st + 64) mod 18446744073709551616 /\
  S_buf st' = S_buf st /\ S_buflen st' = S_buflen st /\ S_outlen st' = S_outlen st /\ wf_state st'.
Proof.
  intros Hw Hl Hb st'. destruct (counter_increment st 64 Hw ltac:(lia)) as [Hc Hw'].
  pose proof Hw' as [].
  destruct (blake2s_compress_rfc (blake2s_increment_counter st 64) b false)
    as (He & Hwh & Hlh); [assumption..|].
  with_strategy transparent [blake2s_compress] (split_and!; try reflexivity).
  - unfold st'. rewrite He. apply rfc_F_cong. rewrite Hc. lia.
  - with_strategy transparent [blake2s_compress] exact Hc.
  - with_strategy transparent [blake2s_compress] (constructor; assumption).
Qed.

Lemma update_blocks_spec fuel st pin :
  wf_state st -> wf_bytes pin -> (length pin <= fuel)%nat ->
  let '(st', pin') := update_blocks fuel st pin in
  wf_state st' /\ wf_bytes pin' /\ S_buf st' = S_buf st /\ S_buflen st' = S_buflen st /\
  S_outlen st' = S_outlen st /\ (length pin' <= 64)%nat /\
  (length pin' <= length pin)%nat /\
  forall x, absorb (S_h st') (counter st') (pin' ++ x) = absorb (S_h st) (counter st) (pin ++ x).
Proof.
  revert st pin. induction fuel as [|fuel IH]; intros st pin Hw Hb Hf.
  { cbn [update_blocks]. split_and!; try done; lia. }
  cbn [update_blocks]. unfold NW_BLAKE2S_BLOCKBYTES. case_decide as Hlt.
  - destruct (compress_block st (take 64 pin) Hw) as (Hh & Hc & Hbuf & Hbl & Ho & Hw');
      [len|by apply Forall_take|].
    specialize (IH _ (drop 64 pin) Hw' ltac:(by apply Forall_drop) ltac:(rewrite length_drop; lia)).
    change (Z.of_nat 64) with 64.
    destruct (update_blocks _ _ _) as [st' pin']. destruct IH as (?&?&?&?&?&?&Hle&Hx).
    rewrite length_drop in Hle. split_and!; try congruence; try lia; try done. intros x.
    replace (pin ++ x) with (take 64 pin ++ drop 64 pin ++ x) by (by rewrite app_assoc, take_drop).
    rewrite Hx, Hh, (absorb_step _ _ (take 64 pin)).
    + apply absorb_cong. rewrite Hc. lia.
    + len.
    + intros Hn. apply (f_equal length) in Hn. revert Hn. len.
  - split_and!; try done. lia.
Qed.

(** The digest of everything absorbed so far followed by [x]. *)
Definition pending (st : nw_blake2s_state) : list Z := take (S_buflen st) (S_buf st).
Definition remaining (st : nw_blake2s_state) (x : list Z) : list Z :=
  absorb (S_h st) (counter st) (pending st ++ x).

Lemma append_buf st pin x :
  wf_state st -> wf_bytes pin -> (S_buflen st + length pin <= 64)%nat ->
  let st' := with_buf st (store (S_buf st) (S_buflen st) pin) (S_buflen st + length pin) in
  wf_state st' /\ remaining st' x = remaining st (pin ++ x).
Proof.
  intros Hw Hb Hl st'. pose proof (wf_buf_len _ Hw). split.
  - apply wf_with_buf; try done; [rewrite length_store; lia|].
    apply Forall_store; [apply Hw|done].
  - unfold remaining, pending, st'. cbn. rewrite (take_store _ _ _ _) by lia.
    by rewrite <- app_assoc.
Qed.

(** Feeding [a] to the hash consumes exactly [a]. *)
Lemma update_remaining st a x :
  wf_state st -> wf_bytes a ->
  wf_state (nw_blake2s_update st a) /\ S_outlen (nw_blake2s_update st a) = S_outlen st /\
  remaining (nw_blake2s_update st a) x = remaining st (a ++ x).
Proof.
  intros Hw Ha. unfold nw_blake2s_update, NW_BLAKE2S_BLOCKBYTES.
  case_decide as Hz; [by apply nil_length_inv in Hz as ->|].
  pose proof (wf_buf_len _ Hw) as Hbl. pose proof (wf_buflen _ Hw) as Hbn.
  case_decide as Hf.
  - set (fill := (64 - S_buflen st)%nat) in *.
    set (blk := store (S_buf st) (S_buflen st) (take fill a)).
    assert (blk = pending st ++ take fill a) as Hblk.
    { rewrite <- (take_ge blk 64); [|unfold blk; rewrite length_store; rewrite ?length_take; lia].
      unfold blk. apply take_store; rewrite length_take; lia. }
    assert (length blk = 64%nat) as Hblen by (unfold blk; rewrite length_store; rewrite ?length_take; lia).
    assert (wf_bytes blk) as Hbwf by (apply Forall_store; [apply Hw|by apply Forall_take]).
    assert (wf_state (with_buf st blk 0)) as Hw1 by (apply wf_with_buf; done || lia).
    destruct (compress_block (with_buf st blk 0) blk Hw1 Hblen Hbwf)
      as (Hh & Hc & Hbuf & Hbfl & Ho & Hw2).
    pose proof (update_blocks_spec (length a) _ (drop fill a) Hw2 ltac:(by apply Forall_drop)) as Hu.
    cbn [with_buf S_buf] in *. rewrite length_drop in Hu. specialize (Hu ltac:(unfold fill; lia)).
    change (blake2s_increment_counter (with_buf st blk 0) (Z.of_nat 64)) with
      (blake2s_increment_counter (with_buf st blk 0) 64).
    change (S_buf (blake2s_increment_counter (with_buf st blk 0) 64)) with blk.
    destruct (update_blocks _ _ _) as [st' pin'] eqn:E.
    destruct Hu as (Hw' & Hp' & Hbuf' & Hbfl' & Ho' & Hle & _ & Hx).
    assert (S_buflen st' = 0%nat) as Hz' by (by rewrite Hbfl', Hbfl).
    destruct (append_buf st' pin' x Hw' Hp') as [Hw3 Hr]; [lia|].
    split; [done|]. split; [cbn [with_buf S_outlen]; by rewrite Ho', Ho|]. rewrite Hr.
    unfold remaining at 1, pending. rewrite Hz'. rewrite take_0. cbn [app].
    rewrite Hx, Hh, Hc. unfold remaining.
    replace (pending st ++ a ++ x) with (blk ++ drop fill a ++ x)
      by (rewrite Hblk, <- app_assoc; f_equal; by rewrite app_assoc, take_drop).
    rewrite (absorb_step _ _ blk); [apply absorb_cong; change (counter (with_buf st blk 0)) with (counter st); lia
      |done|].
    intros Hn. apply (f_equal length) in Hn. revert Hn. unfold fill. len.
  - destruct (append_buf st a x Hw Ha) as [Hw3 Hr]; [lia|]. by split.
Qed.

Lemma store_words (h : list Z) :
  length h = 8%nat ->
  for_loop 0 8 (fun buffer i => store buffer (i * 4) (store32 h.[i])) (zeros NW_BLAKE2S_OUTBYTES) =
  concat (map (le_bytes 4) h).
Proof.
  intros Hl. rewrite <- (map_ext store32) by apply store32_le.
  destruct h as [|?[|?[|?[|?[|?[|?[|?[|?[|]]]]]]]]]; try discriminate Hl. reflexivity.
Qed.

(** Finalising produces the digest of everything absorbed. *)
Lemma final_remaining st n :
  wf_state st -> (S_outlen st <= n)%nat ->
  snd <$> nw_blake2s_final st n =
  Some (take (S_outlen st) (concat (map (le_bytes 4) (remaining st [])))).
Proof.
  intros Hw Hn. unfold nw_blake2s_final. case_decide; [lia|]. cbn [fmap option_fmap option_map snd].
  pose proof (wf_buf_len _ Hw) as Hbl. pose proof (wf_buflen _ Hw) as Hbn.
  rewrite u32_id by lia.
  destruct (counter_increment st (Z.of_nat (S_buflen st)) Hw ltac:(lia)) as [Hc Hw'].
  set (st1 := blake2s_increment_counter st _) in *.
  set (buf := store (S_buf st1) (S_buflen st1) _).
  assert (buf = pending st ++ zeros (64 - S_buflen st)) as Hbuf.
  { rewrite <- (take_ge buf 64).
    - apply take_store; rewrite length_zeros; cbn; lia.
    - unfold buf. rewrite length_store; rewrite ?length_zeros; cbn; lia. }
  assert (length (pending st) = S_buflen st) as Hpl by (unfold pending; len).
  set (st2 := BState _ _ _ _ _ _ _ _).
  destruct (blake2s_compress_rfc st2 buf true) as (He & _ & Hl); try apply Hw'; try done.
  { rewrite Hbuf. apply Forall_app_2; [apply Forall_take, Hw|apply zeros_wf]. }
  { rewrite Hbuf. len. }
  with_strategy transparent [blake2s_compress] change (S_outlen (blake2s_compress st2 (S_buf st2))) with (S_outlen st).
  rewrite store_words by done. change (S_buf st2) with buf. rewrite He.
  unfold remaining. rewrite app_nil_r, absorb_last, Hpl, <- Hbuf by lia.
  change (S_h st2) with (S_h st). change (counter st2) with (counter st1).
  rewrite (rfc_F_cong _ _ (counter st1) (counter st + Z.of_nat (S_buflen st)));
    [reflexivity|]. rewrite Hc. lia.
Qed.

Lemma init_words outlen keylen :
  (outlen <= 32)%nat -> (keylen <= 32)%nat ->
  Z.lxor (Z.lxor 0x01010000 (u32 (Z.shiftl (u32 (Z.of_nat keylen)) 8))) (u32 (Z.of_nat outlen)) =
  0x01010000 + 256 * Z.of_nat keylen + Z.of_nat outlen.
Proof.
  intros Ho Hk.
  assert (Forall (fun o => Forall (fun k =>
    Z.lxor (Z.lxor 0x01010000 (u32 (Z.shiftl (u32 (Z.of_nat k)) 8))) (u32 (Z.of_nat o)) =
    0x01010000 + 256 * Z.of_nat k + Z.of_nat o) (seq 0 33)) (seq 0 33)) as H
    by (apply (bool_decide_unpack _); by vm_compute).
  rewrite Forall_seq in H. specialize (H outlen ltac:(lia)).
  rewrite Forall_seq in H. apply (H keylen). lia.
Qed.

Lemma wf_fresh h outlen :
  length h = 8%nat -> wf_words h -> (1 <= outlen <= 32)%nat ->
  wf_state (BState h 0 0 0 0 (zeros NW_BLAKE2S_BLOCKBYTES) 0 outlen).
Proof.
  intros. constructor; try assumption; try reflexivity; try (cbn; lia); try apply zeros_wf.
  all: unfold is_u32; cbn; lia.
Qed.

Lemma rfc_init_wf outlen keylen : (1 <= outlen <= 32)%nat -> (keylen <= 32)%nat ->
  length (rfc_init outlen keylen) = 8%nat /\ wf_words (rfc_init outlen keylen).
Proof.
  intros. unfold rfc_init. split; [by rewrite length_insert|].
  apply Forall_insert; [apply blake2s_IV_wf|].
  apply lxor_is_u32; [apply ix_u32, blake2s_IV_wf|]. unfold is_u32. lia.
Qed.

Lemma init_spec outlen :
  (1 <= outlen <= 32)%nat ->
  exists st, nw_blake2s_init outlen = Some st /\ wf_state st /\ S_outlen st = outlen /\
    forall x, remaining st x = absorb (rfc_init outlen 0) 0 x.
Proof.
  intros Ho. unfold nw_blake2s_init, NW_BLAKE2S_OUTBYTES. case_decide; [lia|].
  pose proof (init_words outlen 0 ltac:(lia) ltac:(lia)) as Hi.
  change (u32 (Z.shiftl (u32 (Z.of_nat 0)) 8)) with 0 in Hi. rewrite Z.lxor_0_r in Hi. rewrite Hi.
  destruct (rfc_init_wf outlen 0) as [Hl Hw]; [lia..|].
  eexists. split; [done|]. split; [by apply wf_fresh|]. done.
Qed.

Lemma init_key_spec outlen key :
  (1 <= outlen <= 32)%nat -> (1 <= length key <= 32)%nat -> wf_bytes key ->
  exists st, nw_blake2s_init_key outlen key = Some st /\ wf_state st /\ S_outlen st = outlen /\
    forall x, remaining st x =
      absorb (rfc_init outlen (length key)) 0 (key ++ zeros (64 - length key) ++ x).
Proof.
  intros Ho Hk Hkw. unfold nw_blake2s_init_key, NW_BLAKE2S_OUTBYTES, NW_BLAKE2S_KEYBYTES.
  repeat (case_decide; [lia|]). rewrite init_words by lia.
  destruct (rfc_init_wf outlen (length key)) as [Hl Hw]; [lia..|].
  eexists. split; [done|].
  assert (store (zeros NW_BLAKE2S_BLOCKBYTES) 0 key = key ++ zeros (64 - length key)) as ->.
  { unfold store, zeros, NW_BLAKE2S_BLOCKBYTES. by rewrite take_0, drop_replicate. }
  assert (wf_bytes (key ++ zeros (64 - length key))) as Hb by (apply Forall_app_2; auto with words).
  match goal with |- wf_state (nw_blake2s_update ?s0 _) /\ _ =>
    assert (wf_state s0) as Hs by (by apply wf_fresh) end.
  split; [by apply (update_remaining _ _ [])|].
  split; [by rewrite (proj1 (proj2 (update_remaining _ _ [] Hs Hb)))|].
  intros x. rewrite (proj2 (proj2 (update_remaining _ _ x Hs Hb))).
  unfold remaining. cbn [S_h]. rewrite <- app_assoc. done.
Qed.

Lemma length_rfc_F h m t f : length (rfc_F h m t f) = 8%nat.
Proof. with_strategy transparent [rfc_F] unfold rfc_F. len. Qed.

Lemma length_absorb h t d : length (absorb h t d) = 8%nat.
Proof.
  with_strategy transparent [absorb] unfold absorb.
  assert (forall n, (0 < n)%nat -> forall h t d, (length d < n)%nat -> length (rfc_absorb n h t d) = 8%nat) as H.
  { induction n as [n IH] using lt_wf_ind. intros Hn h' t' d' Hd. destruct n as [|n]; [lia|].
    cbn [rfc_absorb]. case_decide; [apply length_rfc_F|]. apply IH; len. }
  apply H; lia.
Qed.

Lemma rfc_blake2s_absorb outlen msg key :
  rfc_blake2s outlen msg key =
  take outlen (concat (map (le_bytes 4) (absorb (rfc_init outlen (length key)) 0
    (if decide (key = []) then msg else key ++ zeros (64 - length key) ++ msg)))).
Proof. with_strategy transparent [absorb] unfold absorb. reflexivity. Qed.

Lemma rfc_blake2s_length outlen msg key :
  (outlen <= 32)%nat -> length (rfc_blake2s outlen msg key) = outlen.
Proof.
  intros. rewrite rfc_blake2s_absorb, length_take, length_concat_words, length_absorb. lia.
Qed.

Lemma rfc_blake2s_wf outlen msg key : wf_bytes (rfc_blake2s outlen msg key).
Proof.
  unfold rfc_blake2s. apply Forall_take, Forall_concat, Forall_map, Forall_true.
  intros. apply le_bytes_wf.
Qed.

(** The one-shot call is the RFC function wherever its parameters are legal. *)
Lemma nw_blake2s_spec outlen inp key :
  (1 <= outlen <= 32)%nat -> (length key <= 32)%nat -> wf_bytes inp -> wf_bytes key ->
  nw_blake2s outlen inp key = Some (rfc_blake2s outlen inp key).
Proof.
  intros Ho Hk Hi Hkw. unfold nw_blake2s.
  assert (exists st, (if decide (key <> []) then nw_blake2s_init_key outlen key else nw_blake2s_init outlen)
    = Some st /\ wf_state st /\ S_outlen st = outlen /\
    forall x, remaining st x = absorb (rfc_init outlen (length key)) 0
      (if decide (key = []) then x else key ++ zeros (64 - length key) ++ x)) as (st & -> & Hw & Hol & Hr).
  { destruct key as [|k0 key'].
    - destruct (decide _) as [Hn|]; [by destruct Hn|]. by apply init_spec.
    - destruct (decide _) as [|Hn]; [|by destruct Hn]. apply init_key_spec; [done| |done].
      cbn [length] in *. lia. }
  cbn [mbind option_bind].
  destruct (update_remaining st inp [] Hw Hi) as (Hw' & Hol' & Hr').
  pose proof (final_remaining _ outlen Hw' ltac:(lia)) as Hf.
  destruct (nw_blake2s_final _ _) as [[st' out]|]; [|done].
  cbn in Hf. injection Hf as ->. rewrite Hr', Hr, app_nil_r, Hol', Hol, rfc_blake2s_absorb. done.
Qed.

(** ** Properties *)

(** C16: for every legal digest length (1..32), key (0..32 bytes) and message,
    the one-shot [nw_blake2s] returns the BLAKE2s digest of RFC 7693. *)
Theorem nw_blake2s_rfc7693 (outlen : nat) (inp key : list Z)
    (Ho : (1 <= outlen <= 32)%nat) (Hk : (length key <= 32)%nat)
    (Hi : wf_bytes inp) (Hkw : wf_bytes key) :
  nw_blake2s outlen inp key = Some (rfc_blake2s outlen inp key) /\
  length (rfc_blake2s outlen inp key) = outlen.
Proof. split; [by apply nw_blake2s_spec|apply rfc_blake2s_length; lia]. Qed.

Lemma nw_blake2s_rfc7693_witness :
  (1 <= 32 <= 32)%nat /\ nw_blake2s 32 [0x61; 0x62; 0x63] [] = Some (rfc_blake2s 32 [0x61; 0x62; 0x63] []).
Proof.
  split; [lia|].
  apply (nw_blake2s_rfc7693 32 [0x61; 0x62; 0x63] []); cbn; try lia; repeat constructor; lia.
Defined.

Lemma updates_remaining st chunks x :
  wf_state st -> Forall wf_bytes chunks ->
  wf_state (foldl nw_blake2s_update st chunks) /\
  S_outlen (foldl nw_blake2s_update st chunks) = S_outlen st /\
  remaining (foldl nw_blake2s_update st chunks) x = remaining st (concat chunks ++ x).
Proof.
  intros Hw Hc. revert st Hw. induction Hc as [|c cs Hc Hcs IH]; intros st Hw; [done|].
  cbn [foldl concat]. destruct (update_remaining st c (concat cs ++ x) Hw Hc) as (Hw' & Ho & Hr).
  destruct (IH _ Hw') as (? & Ho' & Hr'). rewrite <- app_assoc, <- Hr.
  split_and!; [done|congruence|done].
Qed.

(** how a message is cut into [nw_blake2s_update] calls does not matter: from
    any well-formed state, feeding the chunks one by one and feeding their
    concatenation finalise to the same digest. *)
Theorem blake2s_streaming (st : nw_blake2s_state) (chunks : list (list Z)) (n : nat)
    (Hw : wf_state st) (Hc : Forall (fun c => wf_bytes c) chunks) (Hn : (S_outlen st <= n)%nat) :
  snd <$> nw_blake2s_final (foldl nw_blake2s_update st chunks) n =
  snd <$> nw_blake2s_final (nw_blake2s_update st (concat chunks)) n.
Proof.
  destruct (updates_remaining st chunks [] Hw Hc) as (Hw1 & Ho1 & Hr1).
  destruct (update_remaining st (concat chunks) [] Hw) as (Hw2 & Ho2 & Hr2).
  { by apply Forall_concat. }
  rewrite !final_remaining by (done || lia). by rewrite Hr1, Hr2, Ho1, Ho2.
Qed.

Lemma blake2s_streaming_witness :
  exists st, nw_blake2s_init 16 = Some st /\ wf_state st /\
    snd <$> nw_blake2s_final (foldl nw_blake2s_update st [[1; 2]; []; [3]]) 16 =
    snd <$> nw_blake2s_final (nw_blake2s_update st [1; 2; 3]) 16.
Proof.
  destruct (init_spec 16 ltac:(lia)) as (st & Hi & Hw & Ho & _). exists st.
  split; [exact Hi|]. split; [exact Hw|].
  apply (blake2s_streaming st [[1; 2]; []; [3]] 16 Hw); [repeat constructor; lia|lia].
Defined.

(** [nw_blake2s] fails exactly on the parameters the two init functions
    reject: an empty or over-long digest, or an over-long key. *)
Theorem nw_blake2s_fails (outlen : nat) (inp key : list Z) (Hi : wf_bytes inp) (Hk : wf_bytes key) :
  nw_blake2s outlen inp key = None <->
  outlen = 0%nat \/ (NW_BLAKE2S_OUTBYTES < outlen)%nat \/ (NW_BLAKE2S_KEYBYTES < length key)%nat.
Proof.
  unfold NW_BLAKE2S_OUTBYTES, NW_BLAKE2S_KEYBYTES. split.
  - intros Hn. destruct (decide (1 <= outlen <= 32 /\ length key <= 32)%nat) as [[]|]; [|lia].
    by rewrite nw_blake2s_spec in Hn.
  - intros Hbad. unfold nw_blake2s, nw_blake2s_init, nw_blake2s_init_key,
      NW_BLAKE2S_OUTBYTES, NW_BLAKE2S_KEYBYTES.
    destruct key as [|k ks]; destruct (decide _) as [Hne|Hne]; try (by destruct Hne);
      cbn [length] in *; repeat case_decide; try reflexivity; lia.
Qed.

Lemma nw_blake2s_fails_witness :
  nw_blake2s 33 [] [] = None <-> 33%nat = 0%nat \/ (32 < 33)%nat \/ (32 < 0)%nat.
Proof. apply (nw_blake2s_fails 33 [] []); constructor. Defined.
