(* ===== verification/Kdf.v ===== *)
(** * HMAC-BLAKE2s and WireGuard's HKDF

    [src/Modules/NekroEngine/NekroCore/crypto/kdf.c]. The sequence
    "init with 32, updates, final with 32" that kdf.c and wg.c run on a local
    hash state is [hash32_init] / [nw_blake2s_update] / [hash32_final]; the
    return codes the C code ignores there are always 0 ([hash32_spec]). *)

From S2P Require Import Prelude Blake2s.

(** [nw_blake2s_init(&S, 32)], [nw_blake2s_final(&S, out, 32)] *)
Definition hash32_init : nw_blake2s_state :=
  default (BState [] 0 0 0 0 [] 0 0) (nw_blake2s_init 32).
Definition hash32_final (st : nw_blake2s_state) : list Z :=
  default [] (snd <$> nw_blake2s_final st 32).

(** ** The C code *)

Definition BLK : nat := 64.

Definition nw_hmac_blake2s (key data : list Z) : list Z :=
  let k := zeros BLK in
  let k := if decide (BLK < length key)%nat
           then store k 0 (default [] (nw_blake2s 32 key []))
           else store k 0 key in
  let ipad := map (fun i => Z.lxor k.[i] 0x36) (seq 0 BLK) in
  let opad := map (fun i => Z.lxor k.[i] 0x5c) (seq 0 BLK) in
  let st := nw_blake2s_update hash32_init ipad in
  let st := nw_blake2s_update st data in
  let inner := hash32_final st in
  let st := nw_blake2s_update hash32_init opad in
  let st := nw_blake2s_update st inner in
  hash32_final st.

(** [want1..3]: whether the output pointer is non-NULL. The result is what is
    written through the three pointers. *)
Definition nw_kdf (want1 want2 want3 : bool) (chaining_key data : list Z)
  : option (list Z) * option (list Z) * option (list Z) :=
  let t0 := nw_hmac_blake2s chaining_key data in
  let t1 := nw_hmac_blake2s t0 [0x1] in
  let out1 := if want1 then Some t1 else None in
  if negb want2 then (out1, None, None) else
  let t2 := nw_hmac_blake2s t0 (<[32%nat := 0x2]> (store (zeros 33) 0 t1)) in
  if negb want3 then (out1, Some t2, None) else
  let t3 := nw_hmac_blake2s t0 (<[32%nat := 0x3]> (store (zeros 33) 0 t2)) in
  (out1, Some t2, Some t3).

(** ** Specification *)

(** The unkeyed 32-byte hash. *)
Definition Hash (m : list Z) : list Z := rfc_blake2s 32 m [].

(** RFC 2104 with block size 64. *)
Definition hmac (key m : list Z) : list Z :=
  let k := if decide (64 < length key)%nat then Hash key else key in
  let k := k ++ zeros (64 - length k) in
  Hash (map (Z.lxor 0x5c) k ++ Hash (map (Z.lxor 0x36) k ++ m)).

(** RFC 5869, section 2.3 with an empty [info]: T(i) = HMAC(PRK, T(i-1) | i). *)
Fixpoint hkdf_T (prk : list Z) (i : nat) : list Z :=
  match i with O => [] | S j => hmac prk (hkdf_T prk j ++ [Z.of_nat i]) end.
Definition hkdf (salt ikm : list Z) (i : nat) : list Z := hkdf_T (hmac salt ikm) i.

(** ** Proofs *)

Lemma length_H m : length (Hash m) = 32%nat.
Proof. apply rfc_blake2s_length. lia. Qed.
Lemma H_wf m : wf_bytes (Hash m).
Proof. apply rfc_blake2s_wf. Qed.
#[export] Hint Resolve H_wf : words.
#[export] Hint Rewrite length_H : len.

Lemma hash32_spec (parts : list (list Z)) :
  Forall (fun c => wf_bytes c) parts ->
  hash32_final (foldl nw_blake2s_update hash32_init parts) = Hash (concat parts).
Proof.
  intros Hp. destruct (init_spec 32 ltac:(lia)) as (st & Hi & Hw & Ho & Hr).
  unfold hash32_init. rewrite Hi. cbn [from_option id].
  destruct (updates_remaining st parts [] Hw Hp) as (Hw' & Ho' & Hr').
  unfold hash32_final. rewrite final_remaining by (try done; rewrite Ho', Ho; lia). cbn [from_option id].
  unfold Hash. rewrite Hr', Ho', Ho, Hr, rfc_blake2s_absorb, app_nil_r. done.
Qed.

Lemma hash32_two a b : wf_bytes a -> wf_bytes b ->
  hash32_final (nw_blake2s_update (nw_blake2s_update hash32_init a) b) = Hash (a ++ b).
Proof.
  intros. pose proof (hash32_spec [a; b] ltac:(by repeat constructor)) as Hs.
  cbn [concat foldl] in Hs. by rewrite app_nil_r in Hs.
Qed.

Lemma pad_xor c k : length k = BLK ->
  map (fun i => Z.lxor k.[i] c) (seq 0 BLK) = map (Z.lxor c) k.
Proof.
  intros Hk. apply ix_ext; [len|]. intros i Hi. rewrite length_map, length_seq in Hi.
  rewrite (ix_map_seq (fun i => Z.lxor k.[i] c)), ix_map by lia. apply Z.lxor_comm.
Qed.

Lemma map_lxor_wf c k : is_byte c -> wf_bytes k -> wf_bytes (map (Z.lxor c) k).
Proof. intros Hc Hk. apply Forall_map. eapply Forall_impl; [done|]. cbn. auto with words. Qed.

Lemma nw_hmac_spec key data :
  wf_bytes key -> wf_bytes data -> nw_hmac_blake2s key data = hmac key data.
Proof.
  intros Hk Hd. unfold nw_hmac_blake2s, hmac.
  set (k := if decide (BLK < length key)%nat then _ else _).
  set (k' := if decide (64 < length key)%nat then Hash key else key).
  assert (k = k' ++ zeros (64 - length k') /\ (length k' <= 64)%nat /\ wf_bytes k') as (-> & Hl & Hkw).
  { unfold k, k', BLK, store, zeros. case_decide.
    - rewrite nw_blake2s_spec by (done || cbn; lia || constructor). cbn [from_option id].
      fold (Hash key). rewrite take_0, drop_replicate, length_H. split; [done|]. split; [lia|apply H_wf].
    - rewrite take_0, drop_replicate. split; [done|]. split; [lia|done]. }
  rewrite !pad_xor by (unfold BLK; len).
  assert (wf_bytes (k' ++ zeros (64 - length k'))) as Hp by auto with words.
  assert (forall c, is_byte c -> wf_bytes (map (Z.lxor c) (k' ++ zeros (64 - length k')))) as Hx
    by (intros; by apply map_lxor_wf).
  rewrite (hash32_two _ data) by (done || by apply Hx).
  by rewrite hash32_two by (apply H_wf || by apply Hx).
Qed.

Lemma length_hmac key m : length (hmac key m) = 32%nat.
Proof. apply length_H. Qed.
Lemma hmac_wf key m : wf_bytes (hmac key m).
Proof. apply H_wf. Qed.
#[export] Hint Resolve hmac_wf : words.
#[export] Hint Rewrite length_hmac : len.

Lemma append_counter t c : length t = 32%nat -> <[32%nat := c]> (store (zeros 33) 0 t) = t ++ [c].
Proof.
  intros Ht. unfold store. rewrite take_0, Ht. cbn [app].
  rewrite insert_app_r_alt by lia. by rewrite Ht.
Qed.

#[local] Opaque hmac.

Lemma hkdf_1 s m : hkdf s m 1 = hmac (hmac s m) [1].
Proof. reflexivity. Qed.
Lemma hkdf_2 s m : hkdf s m 2 = hmac (hmac s m) (hkdf s m 1 ++ [2]).
Proof. reflexivity. Qed.
Lemma hkdf_3 s m : hkdf s m 3 = hmac (hmac s m) (hkdf s m 2 ++ [3]).
Proof. reflexivity. Qed.

Lemma length_hkdf s m i : length (hkdf s m (S i)) = 32%nat.
Proof. unfold hkdf. cbn [hkdf_T]. apply length_hmac. Qed.
Lemma hkdf_wf s m i : wf_bytes (hkdf s m i).
Proof. unfold hkdf. destruct i; cbn [hkdf_T]; [constructor|apply hmac_wf]. Qed.
#[export] Hint Resolve hkdf_wf : words.
#[export] Hint Rewrite length_hkdf : len.

Lemma nw_kdf_spec want1 want2 want3 ck data :
  wf_bytes ck -> wf_bytes data ->
  nw_kdf want1 want2 want3 ck data =
    ((if want1 then Some (hkdf ck data 1) else None),
     (if want2 then Some (hkdf ck data 2) else None),
     (if want2 && want3 then Some (hkdf ck data 3) else None)).
Proof.
  intros Hc Hd. unfold nw_kdf. rewrite !(nw_hmac_spec ck) by done.
  pose proof (hmac_wf ck data) as Hp.
  rewrite !(nw_hmac_spec (hmac ck data) [1]) by wf. rewrite <- hkdf_1.
  rewrite !append_counter by apply length_hkdf.
  rewrite !(nw_hmac_spec (hmac ck data) (hkdf ck data 1 ++ [2])) by wf. rewrite <- hkdf_2.
  rewrite !append_counter by apply length_hkdf.
  rewrite !(nw_hmac_spec (hmac ck data) (hkdf ck data 2 ++ [3])) by wf. rewrite <- hkdf_3.
  by destruct want1, want2, want3.
Qed.

(** ** Properties *)

(** [nw_hmac_blake2s] is HMAC (RFC 2104) over RFC 7693 BLAKE2s-256 for keys
    and data of any length, the hashed-down over-long key included. *)
Theorem nw_hmac_rfc2104 (key data : list Z) (Hk : wf_bytes key) (Hd : wf_bytes data) :
  nw_hmac_blake2s key data = hmac key data /\ length (nw_hmac_blake2s key data) = 32%nat.
Proof. rewrite nw_hmac_spec by done. split; [done|apply length_hmac]. Qed.

Lemma nw_hmac_rfc2104_witness :
  nw_hmac_blake2s [1; 2] [3] = hmac [1; 2] [3] /\ length (nw_hmac_blake2s [1; 2] [3]) = 32%nat.
Proof. apply (nw_hmac_rfc2104 [1; 2] [3]); repeat constructor; lia. Defined.

(** [nw_kdf] writes HKDF's first, second and third output block through the
    pointers it is given; the third one is written only if the second is
    asked for as well (the early return on [!out2]). *)
Theorem nw_kdf_hkdf (want1 want2 want3 : bool) (ck data : list Z)
    (Hc : wf_bytes ck) (Hd : wf_bytes data) :
  nw_kdf want1 want2 want3 ck data =
    ((if want1 then Some (hkdf ck data 1) else None),
     (if want2 then Some (hkdf ck data 2) else None),
     (if want2 && want3 then Some (hkdf ck data 3) else None)).
Proof. by apply nw_kdf_spec. Qed.

Lemma nw_kdf_hkdf_witness :
  nw_kdf true true false (zeros 32) [7] =
    (Some (hkdf (zeros 32) [7] 1), Some (hkdf (zeros 32) [7] 2), None).
Proof. apply (nw_kdf_hkdf true true false (zeros 32) [7]); repeat constructor; lia. Defined.
