(* ===== verification/ChaCha20.v ===== *)
(** * ChaCha20

    [src/Modules/NekroEngine/NekroCore/crypto/chachapoly.c], lines 1-58: the
    block function and the keystream XOR. *)

From S2P Require Import Prelude.

(** ** The C code *)

Definition load32le (p : list Z) (i : nat) : Z := load32 p i.
Definition store32le (v : Z) : list Z := store32 v.
Definition rotl32 (x n : Z) : Z := Z.lor (u32 (Z.shiftl x n)) (Z.shiftr x (32 - n)).

(** The macro [QR(a,b,c,d)] on the cells [x[a] .. x[d]]. *)
Definition QR (a b c d : nat) (x : list Z) : list Z :=
  let xa := u32 (x.[a] + x.[b]) in
  let xd := rotl32 (Z.lxor x.[d] xa) 16 in
  let xc := u32 (x.[c] + xd) in
  let xb := rotl32 (Z.lxor x.[b] xc) 12 in
  let xa := u32 (xa + xb) in
  let xd := rotl32 (Z.lxor xd xa) 8 in
  let xc := u32 (xc + xd) in
  let xb := rotl32 (Z.lxor xb xc) 7 in
  <[b := xb]> (<[c := xc]> (<[d := xd]> (<[a := xa]> x))).

(** The body of the [for (i = 0; i < 10; i++)] loop. *)
Definition double_round (x : list Z) : list Z :=
  let x := QR 0 4 8 12 x in
  let x := QR 1 5 9 13 x in
  let x := QR 2 6 10 14 x in
  let x := QR 3 7 11 15 x in
  let x := QR 0 5 10 15 x in
  let x := QR 1 6 11 12 x in
  let x := QR 2 7 8 13 x in
  QR 3 4 9 14 x.

Definition chacha20_block (inp : list Z) : list Z :=
  let out := map (fun i => inp.[i]) (seq 0 16) in
  let out := for_loop 0 10 (fun out _ => double_round out) out in
  for_loop 0 16 (fun out i => <[i := u32 (out.[i] + inp.[i])]> out) out.

(** The words [st[0] .. st[15]] set up by [nw_chacha20_xor]. *)
Definition chacha20_state (key nonce : list Z) (counter : Z) : list Z :=
  [0x61707865; 0x3320646e; 0x79622d32; 0x6b206574] ++
  map (fun i => load32le key (4 * i)) (seq 0 8) ++
  [counter; load32le nonce 0; load32le nonce 4; load32le nonce 8].

(** [while (len > 0)]: one round per 64-byte block, the counter word wrapping. *)
Fixpoint xor_blocks (fuel : nat) (st inp : list Z) : list Z :=
  match fuel with
  | O => []
  | S fuel =>
      if decide (0 < length inp)%nat then
        let blk := chacha20_block st in
        let n := if decide (length inp < 64)%nat then length inp else 64%nat in
        let out := map (fun i =>
          let ks := u8 (Z.shiftr blk.[Nat.div i 4] (8 * Z.of_nat (Nat.modulo i 4))) in
          Z.lxor inp.[i] ks) (seq 0 n) in
        let st := <[12%nat := u32 (st.[12] + 1)]> st in
        out ++ xor_blocks fuel st (drop n inp)
      else []
  end.

Definition nw_chacha20_xor (inp key nonce : list Z) (counter : Z) : list Z :=
  xor_blocks (length inp) (chacha20_state key nonce counter) inp.

(** ** Specification: RFC 8439, sections 2.1 to 2.4 *)

Definition rfc_rotl (x n : Z) : Z := (x * 2 ^ n + x / 2 ^ (32 - n)) mod 4294967296.
Definition rfc_add (x y : Z) : Z := (x + y) mod 4294967296.

Definition quarter_round (s : list Z) (a b c d : nat) : list Z :=
  let s := <[a := rfc_add s.[a] s.[b]]> s in
  let s := <[d := rfc_rotl (Z.lxor s.[d] s.[a]) 16]> s in
  let s := <[c := rfc_add s.[c] s.[d]]> s in
  let s := <[b := rfc_rotl (Z.lxor s.[b] s.[c]) 12]> s in
  let s := <[a := rfc_add s.[a] s.[b]]> s in
  let s := <[d := rfc_rotl (Z.lxor s.[d] s.[a]) 8]> s in
  let s := <[c := rfc_add s.[c] s.[d]]> s in
  <[b := rfc_rotl (Z.lxor s.[b] s.[c]) 7]> s.

Definition inner_block (s : list Z) : list Z :=
  let s := quarter_round s 0 4 8 12 in
  let s := quarter_round s 1 5 9 13 in
  let s := quarter_round s 2 6 10 14 in
  let s := quarter_round s 3 7 11 15 in
  let s := quarter_round s 0 5 10 15 in
  let s := quarter_round s 1 6 11 12 in
  let s := quarter_round s 2 7 8 13 in
  quarter_round s 3 4 9 14.

(** The little-endian words of a byte string. *)
Definition words (n : nat) (bs : list Z) : list Z := map (fun i => le_val (slice bs (4 * i) 4)) (seq 0 n).

Definition rfc_block_words (key : list Z) (counter : Z) (nonce : list Z) : list Z :=
  let s0 := [0x61707865; 0x3320646e; 0x79622d32; 0x6b206574] ++ words 8 key ++
            [counter mod 4294967296] ++ words 3 nonce in
  zip_with rfc_add (Nat.iter 10 inner_block s0) s0.

(** [chacha20_block] of the RFC: the 64 keystream bytes of one block. *)
Definition rfc_block (key : list Z) (counter : Z) (nonce : list Z) : list Z :=
  concat (map (le_bytes 4) (rfc_block_words key counter nonce)).

(** Byte [i] of the keystream that starts at block [counter]. *)
Definition keystream (key nonce : list Z) (counter : Z) (i : nat) : Z :=
  (rfc_block key (counter + Z.of_nat (Nat.div i 64)) nonce).[Nat.modulo i 64].

(** [chacha20_encrypt]: XOR the message with the keystream. *)
Definition rfc_encrypt (key nonce : list Z) (counter : Z) (msg : list Z) : list Z :=
  map (fun i => Z.lxor msg.[i] (keystream key nonce counter i)) (seq 0 (length msg)).

(** ** Proofs *)

Lemma rotl32_rfc x n : is_u32 x -> 0 < n < 32 -> rotl32 x n = rfc_rotl x n.
Proof.
  intros Hx Hn. unfold rotl32, rfc_rotl, is_u32 in *.
  assert (0 < 2 ^ n) as Hp by (apply Z.pow_pos_nonneg; lia).
  assert (0 < 2 ^ (32 - n)) as Hq by (apply Z.pow_pos_nonneg; lia).
  assert (2 ^ n * 2 ^ (32 - n) = 4294967296) as Hpq
    by (rewrite <- Z.pow_add_r by lia; by replace (n + (32 - n)) with 32 by lia).
  rewrite u32_mod, Z.shiftl_mul_pow2, Z.shiftr_div_pow2 by lia.
  pose proof (Z.div_mod x (2 ^ (32 - n)) ltac:(lia)) as Hdm.
  pose proof (Z.mod_pos_bound x (2 ^ (32 - n)) Hq) as Hm.
  set (q := x / 2 ^ (32 - n)) in *. set (r := x mod 2 ^ (32 - n)) in *.
  assert (0 <= q < 2 ^ n) as Hqb.
  { split; [apply Z.div_pos; lia|]. apply Z.div_lt_upper_bound; nia. }
  replace (x * 2 ^ n) with (r * 2 ^ n + q * 4294967296) by nia.
  rewrite Z.mod_add, (Z.mod_small (r * _)) by nia.
  replace (r * 2 ^ n + q * 4294967296 + q) with (q + r * 2 ^ n + q * 4294967296) by lia.
  rewrite Z.mod_add, (Z.mod_small (q + _)) by nia.
  rewrite Z.lor_comm, <- (Z.shiftl_mul_pow2 r) by lia. rewrite lor_add_shift by lia.
  by rewrite Z.shiftl_mul_pow2 by lia.
Qed.

Lemma rfc_rotl_is_u32 x n : is_u32 (rfc_rotl x n).
Proof. unfold rfc_rotl, is_u32. lia. Qed.
Lemma rotl32_is_u32 x n : is_u32 x -> 0 < n < 32 -> is_u32 (rotl32 x n).
Proof. intros. rewrite rotl32_rfc by done. apply rfc_rotl_is_u32. Qed.

Ltac word := repeat first [apply rotl32_is_u32; [|lia] | apply rfc_rotl_is_u32 | apply lxor_is_u32
  | apply ix_u32 | apply u32_is_u32 | assumption].

Lemma length_QR a b c d x : length (QR a b c d x) = length x.
Proof. unfold QR. len. Qed.
Lemma QR_wf a b c d x : wf_words x -> wf_words (QR a b c d x).
Proof. intros Hx. unfold QR. repeat apply Forall_insert; word; done. Qed.

Lemma rfc_add_u32 x y : rfc_add x y = u32 (x + y).
Proof. by rewrite u32_mod. Qed.

Lemma QR_rfc a b c d x :
  wf_words x -> length x = 16%nat -> NoDup [a; b; c; d] -> Forall (fun k => k < 16)%nat [a; b; c; d] ->
  QR a b c d x = quarter_round x a b c d.
Proof.
  intros Hx Hl Hnd Hlt.
  repeat match goal with H : NoDup (_ :: _) |- _ => apply NoDup_cons in H; destruct H end.
  repeat match goal with H : Forall _ (_ :: _) |- _ => apply Forall_cons in H; destruct H end.
  assert (a <> b /\ a <> c /\ a <> d /\ b <> c /\ b <> d /\ c <> d) as (?&?&?&?&?&?) by set_solver.
  unfold QR, quarter_round.
  repeat first [rewrite ix_insert_eq by (rewrite ?length_insert; lia) | rewrite ix_insert_ne by done].
  rewrite !rfc_add_u32. rewrite <- !rotl32_rfc by (first [lia|word]).
  apply ix_ext; [len|]. intros j _.
  rewrite !ix_insert by (rewrite ?length_insert; lia). repeat case_decide; congruence.
Qed.

Lemma double_round_rfc x : wf_words x -> length x = 16%nat -> double_round x = inner_block x.
Proof.
  intros Hx Hl. unfold double_round, inner_block.
  do 8 (rewrite QR_rfc; [|repeat apply QR_wf; done|by rewrite ?length_QR
    |by apply (bool_decide_unpack _); vm_compute|by repeat constructor; lia]).
  done.
Qed.

Lemma double_round_wf x : wf_words x -> length x = 16%nat ->
  wf_words (double_round x) /\ length (double_round x) = 16%nat.
Proof. intros. unfold double_round. split; [repeat apply QR_wf; done|by rewrite !length_QR]. Qed.

Lemma map_ix_id x n : length x = n -> map (fun i => x.[i]) (seq 0 n) = x.
Proof.
  intros Hn. apply ix_ext; [len|]. intros i Hi. rewrite length_map, length_seq in Hi.
  by rewrite (ix_map_seq (fun i => x.[i])).
Qed.

(** The block function: ten double rounds and the final addition. *)
Lemma chacha20_block_rfc x : wf_words x -> length x = 16%nat ->
  chacha20_block x = zip_with rfc_add (Nat.iter 10 inner_block x) x.
Proof.
  intros Hx Hl. unfold chacha20_block. rewrite map_ix_id by done.
  destruct (for_loop_inv_ext (fun i y => wf_words y /\ length y = 16%nat /\ y = Nat.iter i inner_block x)
    0 10 (fun y _ => double_round y) (fun y _ => double_round y) x) as [_ (Hw & Hyl & He)].
  { done. }
  { intros i t _ (Ht & Htl & ->). split; [done|].
    destruct (double_round_wf _ Ht Htl). split_and!; try done. rewrite Nat.iter_succ. by apply double_round_rfc. }
  rewrite (for_loop_update (fun i y => u32 (y + x.[i]))) by done.
  change (0 + 10)%nat with 10%nat in *.
  rewrite He in *. clear He. set (y := Nat.iter 10 inner_block x) in *. clearbody y.
  apply ix_ext; [len; rewrite length_zip_with; lia|]. intros i Hi. rewrite length_map, length_seq in Hi.
  rewrite (ix_map_seq (fun i => u32 (y.[i] + x.[i]))) by done.
  rewrite <- rfc_add_u32. unfold ix. rewrite !nth_lookup, lookup_zip_with.
  destruct (lookup_lt_is_Some_2 y i) as [a ->]; [lia|].
  destruct (lookup_lt_is_Some_2 x i) as [b ->]; [lia|]. done.
Qed.

Lemma chacha20_block_wf x : wf_words x -> length x = 16%nat ->
  wf_words (chacha20_block x) /\ length (chacha20_block x) = 16%nat.
Proof.
  intros Hx Hl. rewrite chacha20_block_rfc by done.
  assert (length (Nat.iter 10 inner_block x) = 16%nat) as Hn.
  { assert (forall n, wf_words (Nat.iter n inner_block x) /\ length (Nat.iter n inner_block x) = 16%nat) as HI.
    { induction n as [|n [IHw IHl]]; [done|]. rewrite Nat.iter_succ.
      rewrite <- double_round_rfc by done. by apply double_round_wf. }
    apply HI. }
  split; [|rewrite length_zip_with; lia].
  clear Hn. revert x Hx Hl. intros x _ _. generalize (Nat.iter 10 inner_block x) as y.
  induction x as [|a x IH]; intros [|b y]; try constructor; [|apply IH].
  rewrite rfc_add_u32. apply u32_is_u32.
Qed.

(** Byte [i] of a serialised word list. *)
Lemma serialize_ix (l : list Z) i : (i < 4 * length l)%nat ->
  (concat (map (le_bytes 4) l)).[i] = u8 (Z.shiftr l.[Nat.div i 4] (8 * Z.of_nat (Nat.modulo i 4))).
Proof.
  revert i. induction l as [|x l IH]; intros i Hi; [simpl in Hi; lia|].
  cbn [map concat]. destruct (decide (i < 4)%nat) as [Hlt|Hge].
  - rewrite ix_app_l by done. rewrite Nat.div_small, Nat.mod_small by done. rewrite <- store32_le.
    destruct i as [|[|[|[|]]]]; [|done..|lia]. cbn. by rewrite Z.shiftr_0_r.
  - rewrite ix_app_r by (rewrite length_le_bytes; lia). rewrite length_le_bytes.
    rewrite IH by (simpl in Hi; lia).
    replace (Nat.div i 4) with (S (Nat.div (i - 4) 4)).
    + replace (Nat.modulo i 4) with (Nat.modulo (i - 4) 4); [done|].
      replace i with (i - 4 + 1 * 4)%nat at 2 by lia. by rewrite Nat.Div0.mod_add.
    + replace i with (i - 4 + 1 * 4)%nat at 2 by lia. rewrite Nat.div_add by lia. lia.
Qed.

Lemma length_quarter_round x a b c d : length (quarter_round x a b c d) = length x.
Proof. unfold quarter_round. by rewrite !length_insert. Qed.
Lemma length_inner_block x : length (inner_block x) = length x.
Proof. unfold inner_block. by rewrite !length_quarter_round. Qed.

#[local] Opaque inner_block chacha20_block double_round.

Section Stream.
Context (key nonce : list Z) (Hkw : wf_bytes key) (Hnw : wf_bytes nonce)
  (Hkl : length key = 32%nat) (Hnl : length nonce = 12%nat).

Lemma state_words c : is_u32 c ->
  chacha20_state key nonce c =
    [0x61707865; 0x3320646e; 0x79622d32; 0x6b206574] ++ words 8 key ++
    [c mod 4294967296] ++ words 3 nonce.
Proof.
  intros Hc. unfold chacha20_state, words, load32le.
  rewrite (map_ext_in _ (fun i => le_val (slice key (4 * i) 4)) (seq 0 8)).
  - rewrite Z.mod_small by done. rewrite !load32_le by (done || lia). reflexivity.
  - intros i Hi%in_seq. apply load32_le; [done|lia].
Qed.

Lemma state_wf c : is_u32 c ->
  wf_words (chacha20_state key nonce c) /\ length (chacha20_state key nonce c) = 16%nat.
Proof.
  intros Hc. split; [|done]. unfold chacha20_state, load32le.
  apply Forall_app_2; [repeat constructor; lia|]. apply Forall_app_2.
  - apply Forall_map, Forall_true. auto with words.
  - repeat apply Forall_cons_2; auto with words.
Qed.

Lemma state_next c :
  <[12%nat := u32 ((chacha20_state key nonce c).[12] + 1)]> (chacha20_state key nonce c) =
  chacha20_state key nonce (u32 (c + 1)).
Proof. reflexivity. Qed.

Lemma rfc_block_cong c c' : c mod 4294967296 = c' mod 4294967296 ->
  rfc_block key c nonce = rfc_block key c' nonce.
Proof. intros H. unfold rfc_block, rfc_block_words. by rewrite H. Qed.

Lemma block_keystream c i : is_u32 c -> (i < 64)%nat ->
  u8 (Z.shiftr (chacha20_block (chacha20_state key nonce c)).[Nat.div i 4] (8 * Z.of_nat (Nat.modulo i 4))) =
  keystream key nonce c i.
Proof.
  intros Hc Hi. destruct (state_wf c Hc) as [Hw Hl].
  destruct (chacha20_block_wf _ Hw Hl) as [_ Hbl].
  rewrite <- serialize_ix by lia.
  unfold keystream. rewrite Nat.div_small, Nat.mod_small, Z.add_0_r by done.
  unfold rfc_block, rfc_block_words. rewrite chacha20_block_rfc by assumption.
  rewrite state_words by assumption. reflexivity.
Qed.

#[local] Opaque rfc_block.

Lemma keystream_next c i :
  keystream key nonce (u32 (c + 1)) i = keystream key nonce c (64 + i).
Proof.
  unfold keystream. replace (64 + i)%nat with (i + 1 * 64)%nat by lia.
  rewrite Nat.div_add, Nat.Div0.mod_add by lia.
  rewrite (rfc_block_cong (u32 (c + 1) + _) (c + Z.of_nat (Nat.div i 64 + 1))); [reflexivity|].
  rewrite u32_mod. lia.
Qed.

Lemma xor_blocks_rfc fuel c inp :
  is_u32 c -> (length inp <= fuel)%nat ->
  xor_blocks fuel (chacha20_state key nonce c) inp = rfc_encrypt key nonce c inp.
Proof.
  revert c inp. induction fuel as [|fuel IH]; intros c inp Hc Hf.
  { by assert (inp = []) as -> by (apply nil_length_inv; lia). }
  cbn [xor_blocks]. destruct (decide (0 < length inp)%nat) as [Hpos|Hz].
  2: { by assert (inp = []) as -> by (apply nil_length_inv; lia). }
  set (n := if decide _ then _ else _).
  assert ((n <= 64)%nat /\ (0 < n <= length inp)%nat /\ (n < 64 -> length inp = n)%nat) as (Hn1 & Hn2 & Hn3).
  { unfold n. case_decide; lia. }
  rewrite state_next, IH by (rewrite ?length_drop; auto with words; lia).
  unfold rfc_encrypt. rewrite length_drop.
  apply ix_ext; [len|]. intros i Hi. rewrite length_app, !length_map, !length_seq in Hi.
  rewrite (ix_map_seq (fun i => Z.lxor inp.[i] (keystream key nonce c i))) by lia.
  destruct (decide (i < n)%nat).
  - rewrite ix_app_l by len.
    rewrite (ix_map_seq (fun i => Z.lxor inp.[i] (u8 (Z.shiftr _ (8 * Z.of_nat (Nat.modulo i 4)))))) by done.
    by rewrite block_keystream by (done || lia).
  - rewrite ix_app_r; len. rewrite (ix_map_seq (fun i => Z.lxor (drop n inp).[i] _)) by lia.
    rewrite ix_drop, keystream_next. replace n with 64%nat by lia.
    by replace (64 + (i - 64))%nat with i by lia.
Qed.

End Stream.

Lemma nw_chacha20_xor_spec inp key nonce counter :
  wf_bytes key -> wf_bytes nonce -> length key = 32%nat -> length nonce = 12%nat -> is_u32 counter ->
  nw_chacha20_xor inp key nonce counter = rfc_encrypt key nonce counter inp.
Proof. intros. by apply xor_blocks_rfc. Qed.

Lemma keystream_byte key nonce c i : is_byte (keystream key nonce c i).
Proof.
  with_strategy transparent [rfc_block] (apply ix_byte; unfold rfc_block). apply Forall_concat, Forall_map, Forall_true.
  intros. apply le_bytes_wf.
Qed.

Lemma length_rfc_block key c nonce : length (rfc_block key c nonce) = 64%nat.
Proof.
  with_strategy transparent [rfc_block] unfold rfc_block. rewrite length_concat_words.
  unfold rfc_block_words. set (s0 := _ ++ _ ++ _ ++ _).
  assert (length s0 = 16%nat) as Hl by (unfold s0, words; len).
  assert (forall n, length (Nat.iter n inner_block s0) = 16%nat) as HI.
  { induction n as [|n IH]; [done|]. rewrite Nat.iter_succ.
    by rewrite length_inner_block. }
  rewrite length_zip_with, HI, Hl. reflexivity.
Qed.

Lemma length_rfc_encrypt key nonce c m : length (rfc_encrypt key nonce c m) = length m.
Proof. unfold rfc_encrypt. len. Qed.
Lemma rfc_encrypt_wf key nonce c m : wf_bytes m -> wf_bytes (rfc_encrypt key nonce c m).
Proof.
  intros. apply Forall_map, Forall_true. intros.
  apply lxor_is_byte; [by apply ix_byte|apply keystream_byte].
Qed.
#[export] Hint Resolve rfc_encrypt_wf : words.
#[export] Hint Rewrite length_rfc_encrypt : len.

Lemma rfc_encrypt_involutive key nonce c m :
  rfc_encrypt key nonce c (rfc_encrypt key nonce c m) = m.
Proof.
  apply ix_ext; [len|]. rewrite !length_rfc_encrypt. intros i Hi.
  unfold rfc_encrypt at 1. rewrite length_rfc_encrypt.
  rewrite (ix_map_seq (fun i => Z.lxor (rfc_encrypt key nonce c m).[i] _)) by done.
  unfold rfc_encrypt. rewrite (ix_map_seq (fun i => Z.lxor m.[i] _)) by done.
  by rewrite Z.lxor_assoc, Z.lxor_nilpotent, Z.lxor_0_r.
Qed.

(** ** Properties *)

(** C17: [nw_chacha20_xor] is the ChaCha20 encryption of RFC 8439 for input of
    any length: byte [i] is XORed with byte [i mod 64] of block
    [counter + i / 64], the block counter wrapping at 32 bits. *)
Theorem nw_chacha20_rfc8439 (inp key nonce : list Z) (counter : Z)
    (Hk : wf_bytes key) (Hn : wf_bytes nonce) (Hkl : length key = 32%nat)
    (Hnl : length nonce = 12%nat) (Hc : is_u32 counter) :
  nw_chacha20_xor inp key nonce counter = rfc_encrypt key nonce counter inp /\
  length (nw_chacha20_xor inp key nonce counter) = length inp.
Proof. rewrite nw_chacha20_xor_spec by done. split; [done|apply length_rfc_encrypt]. Qed.

Lemma nw_chacha20_rfc8439_witness :
  nw_chacha20_xor [1; 2; 3] (zeros 32) (zeros 12) 0xffffffff =
    rfc_encrypt (zeros 32) (zeros 12) 0xffffffff [1; 2; 3] /\
  length (nw_chacha20_xor [1; 2; 3] (zeros 32) (zeros 12) 0xffffffff) = 3%nat.
Proof.
  apply (nw_chacha20_rfc8439 [1; 2; 3] (zeros 32) (zeros 12) 0xffffffff);
    try apply zeros_wf; try reflexivity. unfold is_u32. lia.
Defined.

(** XORing twice with the same key, nonce and counter gives the input back. *)
Theorem nw_chacha20_roundtrip (inp key nonce : list Z) (counter : Z)
    (Hk : wf_bytes key) (Hn : wf_bytes nonce) (Hkl : length key = 32%nat)
    (Hnl : length nonce = 12%nat) (Hc : is_u32 counter) :
  nw_chacha20_xor (nw_chacha20_xor inp key nonce counter) key nonce counter = inp.
Proof. rewrite !nw_chacha20_xor_spec by done. apply rfc_encrypt_involutive. Qed.

Lemma nw_chacha20_roundtrip_witness :
  nw_chacha20_xor (nw_chacha20_xor [9; 8] (zeros 32) (zeros 12) 7) (zeros 32) (zeros 12) 7 = [9; 8].
Proof.
  apply (nw_chacha20_roundtrip [9; 8] (zeros 32) (zeros 12) 7);
    try apply zeros_wf; try reflexivity. unfold is_u32. lia.
Defined.
