(* ===== verification/Poly1305.v ===== *)
(** * Poly1305

    [src/Modules/NekroEngine/NekroCore/crypto/chachapoly.c], lines 60-180: the
    one-time authenticator on five 26-bit limbs (poly1305-donna). *)

From S2P Require Import Prelude ChaCha20.

(** ** The C code *)

Record poly1305_ctx := Poly {
  p_r : list Z;
  p_h : list Z;
  p_pad : list Z;
  p_leftover : nat;
  p_buffer : list Z;
  p_final : Z
}.

(** The 16-byte buffer is uninitialised until written; it starts as zeros here. *)
Definition poly1305_init (key : list Z) : poly1305_ctx :=
  Poly [Z.land (load32le key 0) 0x3ffffff;
        Z.land (Z.shiftr (load32le key 3) 2) 0x3ffff03;
        Z.land (Z.shiftr (load32le key 6) 4) 0x3ffc0ff;
        Z.land (Z.shiftr (load32le key 9) 6) 0x3f03fff;
        Z.land (Z.shiftr (load32le key 12) 8) 0x00fffff]
       [0; 0; 0; 0; 0]
       [load32le key 16; load32le key 20; load32le key 24; load32le key 28]
       0 (zeros 16) 0.

(** [c = d0 >> 26; h0 = d0 & 0x3ffffff; d1 += c; ...], the carry propagation. *)
Definition poly1305_carry (d0 d1 d2 d3 d4 : Z) : list Z :=
  let c := u32 (Z.shiftr d0 26) in let h0 := Z.land (u32 d0) 0x3ffffff in let d1 := u64 (d1 + c) in
  let c := u32 (Z.shiftr d1 26) in let h1 := Z.land (u32 d1) 0x3ffffff in let d2 := u64 (d2 + c) in
  let c := u32 (Z.shiftr d2 26) in let h2 := Z.land (u32 d2) 0x3ffffff in let d3 := u64 (d3 + c) in
  let c := u32 (Z.shiftr d3 26) in let h3 := Z.land (u32 d3) 0x3ffffff in let d4 := u64 (d4 + c) in
  let c := u32 (Z.shiftr d4 26) in let h4 := Z.land (u32 d4) 0x3ffffff in
  let h0 := u32 (h0 + u32 (c * 5)) in
  let c := Z.shiftr h0 26 in let h0 := Z.land h0 0x3ffffff in let h1 := u32 (h1 + c) in
  [h0; h1; h2; h3; h4].

(** One iteration of the [while (bytes >= 16)] loop on the 16 bytes at [m]. The
    products and sums are modulo [2^64]; the single [u64] on each sum is the
    same residue. *)
Definition poly1305_block (hibit : Z) (r h m : list Z) : list Z :=
  let r0 := r.[0] in let r1 := r.[1] in let r2 := r.[2] in let r3 := r.[3] in let r4 := r.[4] in
  let s1 := u32 (r1 * 5) in let s2 := u32 (r2 * 5) in
  let s3 := u32 (r3 * 5) in let s4 := u32 (r4 * 5) in
  let h0 := u32 (h.[0] + Z.land (load32le m 0) 0x3ffffff) in
  let h1 := u32 (h.[1] + Z.land (Z.shiftr (load32le m 3) 2) 0x3ffffff) in
  let h2 := u32 (h.[2] + Z.land (Z.shiftr (load32le m 6) 4) 0x3ffffff) in
  let h3 := u32 (h.[3] + Z.land (Z.shiftr (load32le m 9) 6) 0x3ffffff) in
  let h4 := u32 (h.[4] + Z.lor (Z.shiftr (load32le m 12) 8) hibit) in
  let d0 := u64 (h0*r0 + h1*s4 + h2*s3 + h3*s2 + h4*s1) in
  let d1 := u64 (h0*r1 + h1*r0 + h2*s4 + h3*s3 + h4*s2) in
  let d2 := u64 (h0*r2 + h1*r1 + h2*r0 + h3*s4 + h4*s3) in
  let d3 := u64 (h0*r3 + h1*r2 + h2*r1 + h3*r0 + h4*s4) in
  let d4 := u64 (h0*r4 + h1*r3 + h2*r2 + h3*r1 + h4*r0) in
  poly1305_carry d0 d1 d2 d3 d4.

Fixpoint poly1305_loop (fuel : nat) (hibit : Z) (r h m : list Z) : list Z :=
  match fuel with
  | O => h
  | S fuel => if decide (16 <= length m)%nat
              then poly1305_loop fuel hibit r (poly1305_block hibit r h m) (drop 16 m)
              else h
  end.

Definition poly1305_blocks (st : poly1305_ctx) (m : list Z) : poly1305_ctx :=
  let hibit := if decide (p_final st <> 0) then 0 else Z.shiftl 1 24 in
  Poly (p_r st) (poly1305_loop (length m) hibit (p_r st) (p_h st) m)
       (p_pad st) (p_leftover st) (p_buffer st) (p_final st).

Definition p_set_buffer (st : poly1305_ctx) (buffer : list Z) (leftover : nat) : poly1305_ctx :=
  Poly (p_r st) (p_h st) (p_pad st) leftover buffer (p_final st).

(** The second half of [poly1305_update], reached with an empty buffer. *)
Definition poly1305_update_rest (st : poly1305_ctx) (m : list Z) : poly1305_ctx :=
  let want := (Nat.div (length m) 16 * 16)%nat in
  let '(st, m) := if decide (16 <= length m)%nat
                  then (poly1305_blocks st (take want m), drop want m) else (st, m) in
  if decide (length m <> 0)%nat
  then p_set_buffer st (store (p_buffer st) (p_leftover st) m) (p_leftover st + length m)
  else st.

Definition poly1305_update (st : poly1305_ctx) (m : list Z) : poly1305_ctx :=
  if decide (p_leftover st <> 0)%nat then
    let want := (16 - p_leftover st)%nat in
    let want := if decide (length m < want)%nat then length m else want in
    let st := p_set_buffer st (store (p_buffer st) (p_leftover st) (take want m))
                (p_leftover st + want) in
    if decide (p_leftover st < 16)%nat then st else
    let st := poly1305_blocks st (p_buffer st) in
    poly1305_update_rest (p_set_buffer st (p_buffer st) 0) (drop want m)
  else poly1305_update_rest st m.

(** Full carry of [h] (first block of [poly1305_finish] after the last block). *)
Definition poly1305_reduce (h : list Z) : list Z :=
  let h0 := h.[0] in let h1 := h.[1] in let h2 := h.[2] in let h3 := h.[3] in let h4 := h.[4] in
  let c := Z.shiftr h1 26 in let h1 := Z.land h1 0x3ffffff in let h2 := u32 (h2 + c) in
  let c := Z.shiftr h2 26 in let h2 := Z.land h2 0x3ffffff in let h3 := u32 (h3 + c) in
  let c := Z.shiftr h3 26 in let h3 := Z.land h3 0x3ffffff in let h4 := u32 (h4 + c) in
  let c := Z.shiftr h4 26 in let h4 := Z.land h4 0x3ffffff in let h0 := u32 (h0 + u32 (c * 5)) in
  let c := Z.shiftr h0 26 in let h0 := Z.land h0 0x3ffffff in let h1 := u32 (h1 + c) in
  [h0; h1; h2; h3; h4].

(** [g = h - p], selected without a branch by the sign of [g4]. *)
Definition poly1305_select (h : list Z) : list Z :=
  let h0 := h.[0] in let h1 := h.[1] in let h2 := h.[2] in let h3 := h.[3] in let h4 := h.[4] in
  let g0 := u32 (h0 + 5) in let c := Z.shiftr g0 26 in let g0 := Z.land g0 0x3ffffff in
  let g1 := u32 (h1 + c) in let c := Z.shiftr g1 26 in let g1 := Z.land g1 0x3ffffff in
  let g2 := u32 (h2 + c) in let c := Z.shiftr g2 26 in let g2 := Z.land g2 0x3ffffff in
  let g3 := u32 (h3 + c) in let c := Z.shiftr g3 26 in let g3 := Z.land g3 0x3ffffff in
  let g4 := u32 (u32 (h4 + c) - Z.shiftl 1 26) in
  let mask := u32 (Z.shiftr g4 31 - 1) in
  let g0 := Z.land g0 mask in let g1 := Z.land g1 mask in let g2 := Z.land g2 mask in
  let g3 := Z.land g3 mask in let g4 := Z.land g4 mask in
  let mask := u32 (Z.lnot mask) in
  [Z.lor (Z.land h0 mask) g0; Z.lor (Z.land h1 mask) g1; Z.lor (Z.land h2 mask) g2;
   Z.lor (Z.land h3 mask) g3; Z.lor (Z.land h4 mask) g4].

(** Five 26-bit limbs to four 32-bit words. *)
Definition poly1305_pack (h : list Z) : list Z :=
  [Z.land (Z.lor h.[0] (u32 (Z.shiftl h.[1] 26))) 0xffffffff;
   Z.land (Z.lor (Z.shiftr h.[1] 6) (u32 (Z.shiftl h.[2] 20))) 0xffffffff;
   Z.land (Z.lor (Z.shiftr h.[2] 12) (u32 (Z.shiftl h.[3] 14))) 0xffffffff;
   Z.land (Z.lor (Z.shiftr h.[3] 18) (u32 (Z.shiftl h.[4] 8))) 0xffffffff].

(** [mac = (h + pad) mod 2^128]. *)
Definition poly1305_add_pad (h pad : list Z) : list Z :=
  let f := u64 (h.[0] + pad.[0]) in let h0 := u32 f in
  let f := u64 (h.[1] + pad.[1] + Z.shiftr f 32) in let h1 := u32 f in
  let f := u64 (h.[2] + pad.[2] + Z.shiftr f 32) in let h2 := u32 f in
  let f := u64 (h.[3] + pad.[3] + Z.shiftr f 32) in let h3 := u32 f in
  store32le h0 ++ store32le h1 ++ store32le h2 ++ store32le h3.

Definition poly1305_finish (st : poly1305_ctx) : list Z :=
  let st :=
    if decide (p_leftover st <> 0)%nat then
      let i := p_leftover st in
      let buffer := store (<[i := 1]> (p_buffer st)) (i + 1) (zeros (16 - (i + 1))) in
      poly1305_blocks (Poly (p_r st) (p_h st) (p_pad st) (p_leftover st) buffer 1) buffer
    else st in
  poly1305_add_pad (poly1305_pack (poly1305_select (poly1305_reduce (p_h st)))) (p_pad st).

(** ** Specification: RFC 8439, section 2.5 *)

Definition P1305 : Z := 2 ^ 130 - 5.

(** The accumulator over the 16-byte blocks, each with the byte 1 appended. *)
Fixpoint rfc_poly_acc (fuel : nat) (r acc : Z) (msg : list Z) : Z :=
  match fuel with
  | O => acc
  | S fuel => if decide (msg = []) then acc
              else rfc_poly_acc fuel r ((acc + le_val (take 16 msg ++ [1])) * r mod P1305) (drop 16 msg)
  end.

Definition rfc_clamp (r : Z) : Z := Z.land r 0x0ffffffc0ffffffc0ffffffc0fffffff.

Definition rfc_poly1305 (key msg : list Z) : list Z :=
  let r := rfc_clamp (le_val (take 16 key)) in
  let s := le_val (slice key 16 16) in
  le_bytes 16 (rfc_poly_acc (length msg) r 0 msg + s).

(** RFC 8439, section 2.5.2: the test vector, through the C code. *)
Example poly1305_kat :
  poly1305_finish (poly1305_update (poly1305_init
    [0x85;0xd6;0xbe;0x78;0x57;0x55;0x6d;0x33;0x7f;0x44;0x52;0xfe;0x42;0xd5;0x06;0xa8;
     0x01;0x03;0x80;0x8a;0xfb;0x0d;0xb2;0xfd;0x4a;0xbf;0xf6;0xaf;0x41;0x49;0xf5;0x1b])
    [0x43;0x72;0x79;0x70;0x74;0x6f;0x67;0x72;0x61;0x70;0x68;0x69;0x63;0x20;0x46;0x6f;
     0x72;0x75;0x6d;0x20;0x52;0x65;0x73;0x65;0x61;0x72;0x63;0x68;0x20;0x47;0x72;0x6f;0x75;0x70])
  = [0xa8;0x06;0x1d;0xc1;0x30;0x51;0x36;0xc6;0xc2;0x2b;0x8b;0xaf;0x0c;0x01;0x27;0xa9].
Proof. vm_compute. reflexivity. Qed.

(** ** Limbs *)

(** The number a list of 26-bit limbs stands for. *)
Fixpoint hval (h : list Z) : Z :=
  match h with [] => 0 | x :: r => x + 67108864 * hval r end.

Lemma carry_hi d : 0 <= d < 288230376151711744 -> u32 (Z.shiftr d 26) = d / 67108864.
Proof. intros. rewrite Z.shiftr_div_pow2 by lia. change (2 ^ 26) with 67108864. apply u32_id. lia. Qed.
Lemma carry_lo d : Z.land (u32 d) 0x3ffffff = d mod 67108864.
Proof. rewrite (land_mask_mod _ 26), u32_mod by lia. lia. Qed.
Lemma limb_hi h : Z.shiftr h 26 = h / 67108864.
Proof. by rewrite Z.shiftr_div_pow2 by lia. Qed.
Lemma limb_lo h : Z.land h 0x3ffffff = h mod 67108864.
Proof. by rewrite (land_mask_mod _ 26) by lia. Qed.

(** What a carried accumulator satisfies between blocks. *)
Definition h_bounds (h : list Z) : Prop :=
  exists h0 h1 h2 h3 h4, h = [h0; h1; h2; h3; h4] /\ 0 <= h0 < 67108864 /\ 0 <= h1 < 67108928 /\
    0 <= h2 < 67108864 /\ 0 <= h3 < 67108864 /\ 0 <= h4 < 67108864.

(** The carry keeps the value modulo [2^130 - 5] and restores the bounds. *)
Lemma poly1305_carry_spec d0 d1 d2 d3 d4 :
  0 <= d0 < 200000000000000000 -> 0 <= d1 < 200000000000000000 -> 0 <= d2 < 200000000000000000 ->
  0 <= d3 < 200000000000000000 -> 0 <= d4 < 40000000000000000 ->
  h_bounds (poly1305_carry d0 d1 d2 d3 d4) /\
  hval (poly1305_carry d0 d1 d2 d3 d4) mod P1305 = hval [d0; d1; d2; d3; d4] mod P1305.
Proof.
  intros H0 H1 H2 H3 H4. unfold poly1305_carry.
  rewrite (carry_hi d0), (carry_lo d0) by lia.
  pose proof (Z.div_mod d0 67108864 ltac:(lia)) as E0. pose proof (Z.mod_pos_bound d0 67108864 ltac:(lia)).
  set (q0 := d0 / 67108864) in *. set (r0 := d0 mod 67108864) in *.
  assert (0 <= q0 < 3000000000) by lia. rewrite (u64_id (d1 + q0)) by lia.
  rewrite (carry_hi (d1 + q0)), (carry_lo (d1 + q0)) by lia.
  pose proof (Z.div_mod (d1 + q0) 67108864 ltac:(lia)) as E1.
  pose proof (Z.mod_pos_bound (d1 + q0) 67108864 ltac:(lia)).
  set (q1 := (d1 + q0) / 67108864) in *. set (r1 := (d1 + q0) mod 67108864) in *.
  assert (0 <= q1 < 3000000000) by lia. rewrite (u64_id (d2 + q1)) by lia.
  rewrite (carry_hi (d2 + q1)), (carry_lo (d2 + q1)) by lia.
  pose proof (Z.div_mod (d2 + q1) 67108864 ltac:(lia)) as E2.
  pose proof (Z.mod_pos_bound (d2 + q1) 67108864 ltac:(lia)).
  set (q2 := (d2 + q1) / 67108864) in *. set (r2 := (d2 + q1) mod 67108864) in *.
  assert (0 <= q2 < 3000000000) by lia. rewrite (u64_id (d3 + q2)) by lia.
  rewrite (carry_hi (d3 + q2)), (carry_lo (d3 + q2)) by lia.
  pose proof (Z.div_mod (d3 + q2) 67108864 ltac:(lia)) as E3.
  pose proof (Z.mod_pos_bound (d3 + q2) 67108864 ltac:(lia)).
  set (q3 := (d3 + q2) / 67108864) in *. set (r3 := (d3 + q2) mod 67108864) in *.
  assert (0 <= q3 < 3000000000) by lia. rewrite (u64_id (d4 + q3)) by lia.
  rewrite (carry_hi (d4 + q3)), (carry_lo (d4 + q3)) by lia.
  pose proof (Z.div_mod (d4 + q3) 67108864 ltac:(lia)) as E4.
  pose proof (Z.mod_pos_bound (d4 + q3) 67108864 ltac:(lia)).
  set (q4 := (d4 + q3) / 67108864) in *. set (r4 := (d4 + q3) mod 67108864) in *.
  assert (0 <= q4 < 600000000) by lia.
  rewrite (u32_id (q4 * 5)), (u32_id (r0 + q4 * 5)), (limb_hi (r0 + q4 * 5)), (limb_lo (r0 + q4 * 5)) by lia.
  pose proof (Z.div_mod (r0 + q4 * 5) 67108864 ltac:(lia)) as E5.
  pose proof (Z.mod_pos_bound (r0 + q4 * 5) 67108864 ltac:(lia)).
  set (q5 := (r0 + q4 * 5) / 67108864) in *. set (r5 := (r0 + q4 * 5) mod 67108864) in *.
  assert (0 <= q5 < 64) by lia. rewrite (u32_id (r1 + q5)) by lia.
  split; [exists r5, (r1 + q5), r2, r3, r4; split_and!; (reflexivity || lia)|].
  replace (hval [d0; d1; d2; d3; d4]) with (hval [r5; r1 + q5; r2; r3; r4] + q4 * P1305).
  - by rewrite Z.mod_add by done.
  - unfold P1305. cbn [hval]. lia.
Qed.

(** A number below [2^130] in five limbs. *)
Lemma limbs5 V :
  V = hval [V mod 67108864; V / 67108864 mod 67108864; V / 4503599627370496 mod 67108864;
            V / 302231454903657293676544 mod 67108864; V / 20282409603651670423947251286016].
Proof.
  cbn [hval].
  change 20282409603651670423947251286016 with (302231454903657293676544 * 67108864).
  rewrite <- (Z.div_div V 302231454903657293676544) by lia.
  change 302231454903657293676544 with (4503599627370496 * 67108864).
  rewrite <- (Z.div_div V 4503599627370496) by lia.
  change 4503599627370496 with (67108864 * 67108864).
  rewrite <- (Z.div_div V 67108864) by lia. lia.
Qed.


Lemma load_take m i : wf_bytes m -> (16 <= length m)%nat -> (i + 4 <= 16)%nat ->
  load32le m i = le_val (take 16 m) / 256 ^ Z.of_nat i mod 4294967296.
Proof.
  intros Hm Hl Hi. unfold load32le. rewrite <- load32_bits by (auto with words; len).
  rewrite !load32_val by auto with words. by rewrite !ix_take by lia.
Qed.

(** The five masked loads of [poly1305_blocks] and [poly1305_init]. *)
Lemma message_limbs m (V := le_val (take 16 m)) :
  wf_bytes m -> (16 <= length m)%nat ->
  load32le m 0 mod 67108864 = V mod 67108864 /\
  Z.shiftr (load32le m 3) 2 mod 67108864 = V / 67108864 mod 67108864 /\
  Z.shiftr (load32le m 6) 4 mod 67108864 = V / 4503599627370496 mod 67108864 /\
  Z.shiftr (load32le m 9) 6 mod 67108864 = V / 302231454903657293676544 mod 67108864 /\
  Z.shiftr (load32le m 12) 8 = V / 20282409603651670423947251286016 /\
  0 <= V / 20282409603651670423947251286016 < 16777216.
Proof.
  intros Hm Hl. rewrite !load_take by (done || lia). fold V.
  assert (0 <= V < 340282366920938463463374607431768211456) as HV.
  { unfold V. pose proof (le_val_bound (take 16 m) ltac:(auto with words)) as Hb.
    rewrite length_take, Nat.min_l in Hb by done. exact Hb. }
  clearbody V. rewrite !Z.shiftr_div_pow2 by lia.
  change (256 ^ Z.of_nat 0) with 1. change (256 ^ Z.of_nat 3) with 16777216.
  change (256 ^ Z.of_nat 6) with 281474976710656.
  change (256 ^ Z.of_nat 9) with 4722366482869645213696.
  change (256 ^ Z.of_nat 12) with 79228162514264337593543950336.
  change 20282409603651670423947251286016 with (79228162514264337593543950336 * 256).
  change 302231454903657293676544 with (4722366482869645213696 * 64).
  change 4503599627370496 with (281474976710656 * 16).
  change 67108864 with (16777216 * 4) at 4.
  rewrite <- !Z.div_div by lia. split_and!; lia.
Qed.

(** The clamped multiplier. *)
Definition r_bounds (r : list Z) : Prop :=
  exists r0 r1 r2 r3 r4, r = [r0; r1; r2; r3; r4] /\ 0 <= r0 <= 67108863 /\ 0 <= r1 <= 67108611 /\
    0 <= r2 <= 67092735 /\ 0 <= r3 <= 66076671 /\ 0 <= r4 <= 1048575.

Lemma land_mod_mask x mask : 0 <= mask < 67108864 -> Z.land x mask = Z.land (x mod 67108864) mask.
Proof.
  intros Hm. rewrite <- limb_lo, <- Z.land_assoc, (Z.land_comm 0x3ffffff mask), limb_lo.
  by rewrite (Z.mod_small mask) by lia.
Qed.

Lemma clamp_limbs a b c d e : 0 <= a < 67108864 -> 0 <= b < 67108864 -> 0 <= c < 67108864 ->
  0 <= d < 67108864 ->
  rfc_clamp (hval [a; b; c; d; e]) =
  hval [Z.land a 0x3ffffff; Z.land b 0x3ffff03; Z.land c 0x3ffc0ff; Z.land d 0x3f03fff; Z.land e 0x00fffff].
Proof.
  intros. unfold rfc_clamp. cbn [hval].
  change 0x0ffffffc0ffffffc0ffffffc0fffffff with
    (0x3ffffff + (0x3ffff03 + (0x3ffc0ff + (0x3f03fff + 0x00fffff * 2 ^ 26) * 2 ^ 26) * 2 ^ 26) * 2 ^ 26).
  rewrite Z.mul_0_r, Z.add_0_r, !(Z.mul_comm 67108864). change 67108864 with (2 ^ 26) in *.
  rewrite !land_digits by lia. by rewrite Z.add_0_r.
Qed.

Lemma poly1305_init_r key :
  wf_bytes key -> (16 <= length key)%nat ->
  r_bounds (p_r (poly1305_init key)) /\
  hval (p_r (poly1305_init key)) = rfc_clamp (le_val (take 16 key)).
Proof.
  intros Hk Hl. destruct (message_limbs key Hk Hl) as (E0 & E1 & E2 & E3 & E4 & H4).
  cbn [p_r poly1305_init]. split.
  - do 5 eexists. split; [reflexivity|]. split_and!; apply land_bound_r; lia.
  - rewrite (limbs5 (le_val (take 16 key))), clamp_limbs by lia.
    rewrite <- E0, <- E1, <- E2, <- E3, <- E4, <- !land_mod_mask by lia. done.
Qed.

(** The schoolbook product, folded at [2^130 = 5]. *)
Definition limb_product (a r : list Z) : list Z :=
  let a0 := a.[0] in let a1 := a.[1] in let a2 := a.[2] in let a3 := a.[3] in let a4 := a.[4] in
  let r0 := r.[0] in let r1 := r.[1] in let r2 := r.[2] in let r3 := r.[3] in let r4 := r.[4] in
  [a0 * r0 + a1 * (r4 * 5) + a2 * (r3 * 5) + a3 * (r2 * 5) + a4 * (r1 * 5);
   a0 * r1 + a1 * r0 + a2 * (r4 * 5) + a3 * (r3 * 5) + a4 * (r2 * 5);
   a0 * r2 + a1 * r1 + a2 * r0 + a3 * (r4 * 5) + a4 * (r3 * 5);
   a0 * r3 + a1 * r2 + a2 * r1 + a3 * r0 + a4 * (r4 * 5);
   a0 * r4 + a1 * r3 + a2 * r2 + a3 * r1 + a4 * r0].

Lemma limb_product_val a0 a1 a2 a3 a4 r0 r1 r2 r3 r4
    (a := [a0; a1; a2; a3; a4]) (r := [r0; r1; r2; r3; r4]) :
  hval (limb_product a r) mod P1305 = hval a * hval r mod P1305.
Proof.
  rewrite <- (Z.mod_add (hval (limb_product a r))
    ((a1 * r4 + a2 * r3 + a3 * r2 + a4 * r1) + 67108864 * ((a2 * r4 + a3 * r3 + a4 * r2) +
      67108864 * ((a3 * r4 + a4 * r3) + 67108864 * (a4 * r4))))) by done.
  f_equal. unfold limb_product, P1305, a, r. cbn [hval ix nth]. ring.
Qed.

Lemma dot5 a0 a1 a2 a3 a4 b0 b1 b2 b3 b4 A B0 B1 B2 B3 B4 :
  0 <= a0 <= A -> 0 <= a1 <= A -> 0 <= a2 <= A -> 0 <= a3 <= A -> 0 <= a4 <= A ->
  0 <= b0 <= B0 -> 0 <= b1 <= B1 -> 0 <= b2 <= B2 -> 0 <= b3 <= B3 -> 0 <= b4 <= B4 ->
  0 <= a0 * b0 + a1 * b1 + a2 * b2 + a3 * b3 + a4 * b4 <= A * (B0 + B1 + B2 + B3 + B4).
Proof.
  intros H0 H1 H2 H3 H4 G0 G1 G2 G3 G4.
  pose proof (mul_range _ _ _ _ H0 G0). pose proof (mul_range _ _ _ _ H1 G1).
  pose proof (mul_range _ _ _ _ H2 G2). pose proof (mul_range _ _ _ _ H3 G3).
  pose proof (mul_range _ _ _ _ H4 G4). clear - H H5 H6 H7 H8.
  rewrite !Z.mul_add_distr_l. lia.
Qed.

Lemma range_weaken x m n : 0 <= x <= m -> m < n -> 0 <= x < n.
Proof. lia. Qed.

Lemma limb_product_bounds a0 a1 a2 a3 a4 r :
  0 <= a0 <= 134218000 -> 0 <= a1 <= 134218000 -> 0 <= a2 <= 134218000 -> 0 <= a3 <= 134218000 ->
  0 <= a4 <= 134218000 -> r_bounds r ->
  exists d0 d1 d2 d3 d4, limb_product [a0; a1; a2; a3; a4] r = [d0; d1; d2; d3; d4] /\
    0 <= d0 < 200000000000000000 /\ 0 <= d1 < 200000000000000000 /\ 0 <= d2 < 200000000000000000 /\
    0 <= d3 < 200000000000000000 /\ 0 <= d4 < 40000000000000000.
Proof.
  intros H0 H1 H2 H3 H4 (r0 & r1 & r2 & r3 & r4 & -> & R0 & R1 & R2 & R3 & R4).
  assert (0 <= r1 * 5 <= 335543055 /\ 0 <= r2 * 5 <= 335463675 /\ 0 <= r3 * 5 <= 330383355 /\
    0 <= r4 * 5 <= 5242875) as (T1 & T2 & T3 & T4) by lia.
  do 5 eexists. split; [reflexivity|]. cbn [ix nth].
  pose proof (dot5 _ _ _ _ _ _ _ _ _ _ _ _ _ _ _ _ H0 H1 H2 H3 H4 R0 T4 T3 T2 T1) as D0.
  pose proof (dot5 _ _ _ _ _ _ _ _ _ _ _ _ _ _ _ _ H0 H1 H2 H3 H4 R1 R0 T4 T3 T2) as D1.
  pose proof (dot5 _ _ _ _ _ _ _ _ _ _ _ _ _ _ _ _ H0 H1 H2 H3 H4 R2 R1 R0 T4 T3) as D2.
  pose proof (dot5 _ _ _ _ _ _ _ _ _ _ _ _ _ _ _ _ H0 H1 H2 H3 H4 R3 R2 R1 R0 T4) as D3.
  pose proof (dot5 _ _ _ _ _ _ _ _ _ _ _ _ _ _ _ _ H0 H1 H2 H3 H4 R4 R3 R2 R1 R0) as D4.
  split; [apply (range_weaken _ _ _ D0); lia|]. split; [apply (range_weaken _ _ _ D1); lia|].
  split; [apply (range_weaken _ _ _ D2); lia|]. split; [apply (range_weaken _ _ _ D3); lia|].
  apply (range_weaken _ _ _ D4); lia.
Qed.

(** One block: [h := (h + m + hibit 2^104) r] modulo [2^130 - 5], on limbs that
    stay below their bounds, so that no 32- or 64-bit operation wraps. *)
Lemma poly1305_block_spec hibit r h m :
  r_bounds r -> h_bounds h -> wf_bytes m -> (16 <= length m)%nat ->
  hibit = 0 \/ hibit = 16777216 ->
  h_bounds (poly1305_block hibit r h m) /\
  hval (poly1305_block hibit r h m) mod P1305 =
  (hval h + (le_val (take 16 m) + hibit * 20282409603651670423947251286016)) * hval r mod P1305.
Proof.
  intros (r0 & r1 & r2 & r3 & r4 & -> & ? & ? & ? & ? & ?)
    (h0 & h1 & h2 & h3 & h4 & -> & ? & ? & ? & ? & ?) Hm Hl Hhb.
  unfold poly1305_block. rewrite !limb_lo.
  destruct (message_limbs m Hm Hl) as (-> & -> & -> & -> & -> & Hm4).
  set (V := le_val (take 16 m)) in *. pose proof (limbs5 V) as HV. cbn [hval] in HV.
  assert (Z.lor (V / 20282409603651670423947251286016) hibit =
    V / 20282409603651670423947251286016 + hibit) as ->.
  { destruct Hhb as [->| ->]; [by rewrite Z.lor_0_r, Z.add_0_r|].
    change 16777216 with (Z.shiftl 1 24) at 1. by rewrite lor_add_shift by lia. }
  pose proof (Z.mod_pos_bound V 67108864 ltac:(lia)).
  pose proof (Z.mod_pos_bound (V / 67108864) 67108864 ltac:(lia)).
  pose proof (Z.mod_pos_bound (V / 4503599627370496) 67108864 ltac:(lia)).
  pose proof (Z.mod_pos_bound (V / 302231454903657293676544) 67108864 ltac:(lia)).
  set (m0 := V mod _) in *. set (m1 := V / 67108864 mod _) in *.
  set (m2 := V / 4503599627370496 mod _) in *. set (m3 := V / 302231454903657293676544 mod _) in *.
  set (m4 := V / _) in *. clearbody m0 m1 m2 m3 m4 V.
  change (ix [r0; r1; r2; r3; r4] 0) with r0. change (ix [r0; r1; r2; r3; r4] 1) with r1.
  change (ix [r0; r1; r2; r3; r4] 2) with r2. change (ix [r0; r1; r2; r3; r4] 3) with r3.
  change (ix [r0; r1; r2; r3; r4] 4) with r4.
  change (ix [h0; h1; h2; h3; h4] 0) with h0. change (ix [h0; h1; h2; h3; h4] 1) with h1.
  change (ix [h0; h1; h2; h3; h4] 2) with h2. change (ix [h0; h1; h2; h3; h4] 3) with h3.
  change (ix [h0; h1; h2; h3; h4] 4) with h4.
  rewrite (u32_id (h0 + m0)), (u32_id (h1 + m1)), (u32_id (h2 + m2)), (u32_id (h3 + m3)),
    (u32_id (h4 + (m4 + hibit))), (u32_id (r1 * 5)), (u32_id (r2 * 5)), (u32_id (r3 * 5)),
    (u32_id (r4 * 5)) by lia.
  set (a0 := h0 + m0) in *. set (a1 := h1 + m1) in *. set (a2 := h2 + m2) in *.
  set (a3 := h3 + m3) in *. set (a4 := h4 + (m4 + hibit)) in *.
  assert (0 <= a0 <= 134218000 /\ 0 <= a1 <= 134218000 /\ 0 <= a2 <= 134218000 /\
    0 <= a3 <= 134218000 /\ 0 <= a4 <= 134218000) as (A0 & A1 & A2 & A3 & A4) by lia.
  replace (hval [h0; h1; h2; h3; h4] +
    (V + hibit * 20282409603651670423947251286016)) with (hval [a0; a1; a2; a3; a4])
    by (cbn [hval]; lia).
  rewrite <- (limb_product_val a0 a1 a2 a3 a4 r0 r1 r2 r3 r4).
  set (r := [r0; r1; r2; r3; r4]).
  assert (r_bounds r) as Hr by (do 5 eexists; split; [reflexivity|lia]).
  destruct (limb_product_bounds a0 a1 a2 a3 a4 r A0 A1 A2 A3 A4 Hr)
    as (d0 & d1 & d2 & d3 & d4 & Hd & D0 & D1 & D2 & D3 & D4).
  rewrite Hd. subst r. unfold limb_product, ix in Hd. cbn [nth] in Hd.
  injection Hd as -> -> -> -> ->. rewrite !u64_id by lia. by apply poly1305_carry_spec.
Qed.

(** ** Streaming *)

Definition poly_acc (r acc : Z) (msg : list Z) : Z := rfc_poly_acc (length msg) r acc msg.

Lemma rfc_poly_acc_fuel r : forall n k acc msg, (length msg <= n)%nat -> (length msg <= k)%nat ->
  rfc_poly_acc n r acc msg = rfc_poly_acc k r acc msg.
Proof.
  induction n as [|n IH]; intros k acc msg Hn Hk.
  - apply Nat.le_0_r, nil_length_inv in Hn as ->. by destruct k.
  - destruct k as [|k]; [apply Nat.le_0_r, nil_length_inv in Hk as ->; done|].
    cbn [rfc_poly_acc]. case_decide as Hd; [done|].
    destruct msg as [|b msg]; [done|]. apply IH; rewrite length_drop; cbn [length] in *; lia.
Qed.

Lemma poly_acc_unfold r acc m : m <> [] ->
  poly_acc r acc m = poly_acc r ((acc + le_val (take 16 m ++ [1])) * r mod P1305) (drop 16 m).
Proof.
  intros Hm. unfold poly_acc. destruct (length m) as [|n] eqn:El.
  { by apply nil_length_inv in El. }
  cbn [rfc_poly_acc]. rewrite decide_False by done.
  apply rfc_poly_acc_fuel; rewrite length_drop; lia.
Qed.

Lemma poly_acc_nil r acc : poly_acc r acc [] = acc.
Proof. done. Qed.

(** A full block is absorbed from any representative of the accumulator. *)
Lemma poly_acc_block r acc h blk x : length blk = 16%nat -> acc = h mod P1305 ->
  poly_acc r acc (blk ++ x) =
  poly_acc r ((h + (le_val blk + 16777216 * 20282409603651670423947251286016)) * r mod P1305) x.
Proof.
  intros Hb ->. rewrite poly_acc_unfold by (intros Hn; apply (f_equal length) in Hn; rewrite length_app in Hn; cbn in Hn; lia).
  rewrite take_app_le, take_ge, drop_app_length' by lia. rewrite le_val_app, Hb. cbn [le_val].
  f_equal. rewrite <- Z.mul_mod_idemp_l, Z.add_mod_idemp_l, Z.mul_mod_idemp_l by done.
  done.
Qed.
#[local] Opaque poly_acc poly1305_block P1305.

Lemma poly1305_loop_spec r : r_bounds r -> forall fuel h m k x,
  h_bounds h -> wf_bytes m -> length m = (16 * k)%nat -> (k <= fuel)%nat ->
  h_bounds (poly1305_loop fuel 16777216 r h m) /\
  poly_acc (hval r) (hval h mod P1305) (m ++ x) =
  poly_acc (hval r) (hval (poly1305_loop fuel 16777216 r h m) mod P1305) x.
Proof.
  intros Hr. induction fuel as [|fuel IH]; intros h m k x Hh Hm Hl Hk.
  - assert (m = []) as -> by (apply nil_length_inv; lia). done.
  - cbn [poly1305_loop]. case_decide as Hd.
    + destruct k as [|k]; [lia|].
      destruct (poly1305_block_spec 16777216 r h m Hr Hh Hm Hd ltac:(by right)) as [Hh' Hv].
      destruct (IH (poly1305_block 16777216 r h m) (drop 16 m) k x) as [? He];
        [done|auto with words|rewrite length_drop; lia|lia|].
      split; [done|]. rewrite <- He, Hv. rewrite <- (take_drop 16 m) at 1. rewrite <- app_assoc.
      rewrite (poly_acc_block _ _ (hval h)) by (rewrite ?length_take; lia || done). done.
    + assert (m = []) as -> by (apply nil_length_inv; lia). done.
Qed.

Record wf_poly (st : poly1305_ctx) : Prop := {
  wp_r : r_bounds (p_r st);
  wp_h : h_bounds (p_h st);
  wp_buffer : length (p_buffer st) = 16%nat;
  wp_wf : wf_bytes (p_buffer st);
  wp_leftover : (p_leftover st < 16)%nat;
  wp_final : p_final st = 0
}.

(** The accumulator after everything fed so far and then [x]. *)
Definition p_pending (st : poly1305_ctx) : list Z := take (p_leftover st) (p_buffer st).
Definition p_remaining (st : poly1305_ctx) (x : list Z) : Z :=
  poly_acc (hval (p_r st)) (hval (p_h st) mod P1305) (p_pending st ++ x).

Lemma poly1305_blocks_spec st m k x :
  r_bounds (p_r st) -> h_bounds (p_h st) -> p_final st = 0 -> wf_bytes m -> length m = (16 * k)%nat ->
  h_bounds (p_h (poly1305_blocks st m)) /\
  poly_acc (hval (p_r st)) (hval (p_h st) mod P1305) (m ++ x) =
  poly_acc (hval (p_r st)) (hval (p_h (poly1305_blocks st m)) mod P1305) x.
Proof.
  intros Hr Hh Hf Hm Hl. unfold poly1305_blocks. cbn [p_h]. rewrite Hf, decide_False by lia.
  change (Z.shiftl 1 24) with 16777216. apply (poly1305_loop_spec _ Hr _ _ _ k); done || lia.
Qed.

(** Appending fewer bytes than the buffer has room for. *)
Lemma p_append st m x :
  wf_poly st -> wf_bytes m -> (p_leftover st + length m < 16)%nat ->
  let st' := p_set_buffer st (store (p_buffer st) (p_leftover st) m) (p_leftover st + length m) in
  wf_poly st' /\ p_remaining st' x = p_remaining st (m ++ x).
Proof.
  intros Hw Hm Hl st'. pose proof (wp_buffer _ Hw). split.
  - constructor; try apply Hw; cbn; [rewrite length_store; lia|apply Forall_store; [apply Hw|done]|lia].
  - unfold p_remaining, p_pending, st'. cbn [p_set_buffer p_r p_h p_leftover p_buffer].
    rewrite (take_store _ _ _ _) by lia. by rewrite <- app_assoc.
Qed.

Lemma p_pending_empty st : p_leftover st = 0%nat -> p_pending st = [].
Proof. unfold p_pending. by intros ->. Qed.

Lemma poly1305_update_rest_spec st m x :
  wf_poly st -> wf_bytes m -> p_leftover st = 0%nat ->
  wf_poly (poly1305_update_rest st m) /\ p_remaining (poly1305_update_rest st m) x = p_remaining st (m ++ x) /\
  p_r (poly1305_update_rest st m) = p_r st /\ p_pad (poly1305_update_rest st m) = p_pad st.
Proof.
  intros Hw Hm Hlo. unfold poly1305_update_rest.
  set (want := (Nat.div (length m) 16 * 16)%nat).
  pose proof (Nat.div_mod (length m) 16 ltac:(lia)) as Hdm.
  pose proof (Nat.mod_upper_bound (length m) 16 ltac:(lia)) as Hmo.
  set (mid := if decide (16 <= length m)%nat then _ else _).
  assert (wf_poly mid.1 /\ p_leftover mid.1 = 0%nat /\ p_r mid.1 = p_r st /\ p_pad mid.1 = p_pad st /\
    wf_bytes mid.2 /\ (length mid.2 < 16)%nat /\ p_remaining mid.1 (mid.2 ++ x) = p_remaining st (m ++ x))
    as (Hw1 & Hlo1 & Hr1 & Hp1 & Hm1 & Hl1 & He1).
  { unfold mid. case_decide as Hd; [|by split_and!; try done; cbn; lia].
    destruct (poly1305_blocks_spec st (take want m) (length m / 16) (drop want m ++ x)) as [Hh He];
      try apply Hw; auto with words; [unfold want; len|].
    cbn [fst snd]. split_and!; try done; auto with words.
    - destruct Hw. by constructor.
    - rewrite length_drop. unfold want. lia.
    - unfold p_remaining. rewrite !p_pending_empty by done. cbn [app].
      replace (m ++ x) with (take want m ++ drop want m ++ x) by (by rewrite app_assoc, take_drop).
      by rewrite He. }
  destruct mid as [st1 m1]. cbn [fst snd] in *. case_decide as Hd.
  - destruct (p_append st1 m1 x) as [? He]; [done|done|lia|]. by rewrite He, He1.
  - assert (m1 = []) as -> by (apply nil_length_inv; lia). done.
Qed.

Lemma poly1305_update_spec st m x :
  wf_poly st -> wf_bytes m ->
  wf_poly (poly1305_update st m) /\ p_remaining (poly1305_update st m) x = p_remaining st (m ++ x) /\
  p_r (poly1305_update st m) = p_r st /\ p_pad (poly1305_update st m) = p_pad st.
Proof.
  intros Hw Hm. pose proof (wp_leftover _ Hw) as Hlo. pose proof (wp_buffer _ Hw) as Hbl.
  unfold poly1305_update. case_decide as Hd; [|apply poly1305_update_rest_spec; done || lia].
  set (want := if decide (length m < 16 - p_leftover st)%nat then length m else (16 - p_leftover st)%nat).
  assert (want = Nat.min (length m) (16 - p_leftover st)) as Hwant by (unfold want; case_decide; lia).
  cbn [p_set_buffer p_leftover]. case_decide as Hf.
  - destruct (p_append st (take want m) x) as [Hw1 He1]; [done|auto with words|rewrite length_take; lia|].
    rewrite length_take, (Nat.min_l want) in * by lia. split; [done|]. rewrite He1.
    by rewrite (take_ge m) by lia.
  - set (buf := store (p_buffer st) (p_leftover st) (take want m)).
    assert (buf = p_pending st ++ take want m) as Hbuf.
    { rewrite <- (take_ge buf 16); [|unfold buf; rewrite length_store; rewrite ?length_take; lia].
      unfold buf. apply take_store; rewrite length_take; lia. }
    assert (length buf = 16%nat) as Hbufl by (unfold buf; rewrite length_store; rewrite ?length_take; lia).
    assert (wf_bytes buf) as Hbw by (apply Forall_store; [apply Hw|auto with words]).
    set (st1 := p_set_buffer st buf (p_leftover st + want)). change (p_buffer st1) with buf.
    destruct (poly1305_blocks_spec st1 buf 1 (drop want m ++ x)) as [Hh1 He1]; try apply Hw; try done.
    set (st2 := p_set_buffer (poly1305_blocks st1 buf) (p_buffer (poly1305_blocks st1 buf)) 0).
    assert (wf_poly st2) as Hw2 by (constructor; try apply Hw; done || (cbn; lia)).
    destruct (poly1305_update_rest_spec st2 (drop want m) x) as (Hw3 & He3 & Hr3 & Hp3);
      [done|auto with words|done|].
    split_and!; try done. rewrite He3. unfold p_remaining at 1. rewrite p_pending_empty by done.
    change (hval (p_h st2)) with (hval (p_h (poly1305_blocks st1 buf))). cbn [app].
    change (p_r st2) with (p_r st1). rewrite <- He1, Hbuf. unfold p_remaining.
    rewrite <- !app_assoc, (app_assoc (take want m)), take_drop. done.
Qed.

(** ** Finalisation *)

Definition limbs26 (h : list Z) : Prop :=
  exists h0 h1 h2 h3 h4, h = [h0; h1; h2; h3; h4] /\ 0 <= h0 < 67108864 /\ 0 <= h1 < 67108864 /\
    0 <= h2 < 67108864 /\ 0 <= h3 < 67108864 /\ 0 <= h4 < 67108864.

Lemma poly1305_reduce_spec h : h_bounds h ->
  limbs26 (poly1305_reduce h) /\ hval (poly1305_reduce h) mod P1305 = hval h mod P1305.
Proof.
  intros (h0 & h1 & h2 & h3 & h4 & -> & H0 & H1 & H2 & H3 & H4).
  unfold poly1305_reduce. cbn [ix nth]. unfold ix. cbn [nth]. rewrite !limb_lo, !limb_hi.
  assert (exists q r, h1 / 67108864 = q /\ h1 mod 67108864 = r /\ h1 = 67108864 * q + r /\
    0 <= r < 67108864 /\ 0 <= q <= 1 /\ (q = 1 -> r < 64)) as (q1 & r1 & -> & -> & E1 & ? & ? & ?)
    by (do 2 eexists; split_and!; try reflexivity; lia).
  rewrite (u32_id (h2 + q1)) by lia.
  assert (exists q r, (h2 + q1) / 67108864 = q /\ (h2 + q1) mod 67108864 = r /\ h2 + q1 = 67108864 * q + r /\
    0 <= r < 67108864 /\ 0 <= q <= q1) as (q2 & r2 & -> & -> & E2 & ? & ?)
    by (do 2 eexists; split_and!; try reflexivity; lia).
  rewrite (u32_id (h3 + q2)) by lia.
  assert (exists q r, (h3 + q2) / 67108864 = q /\ (h3 + q2) mod 67108864 = r /\ h3 + q2 = 67108864 * q + r /\
    0 <= r < 67108864 /\ 0 <= q <= q2) as (q3 & r3 & -> & -> & E3 & ? & ?)
    by (do 2 eexists; split_and!; try reflexivity; lia).
  rewrite (u32_id (h4 + q3)) by lia.
  assert (exists q r, (h4 + q3) / 67108864 = q /\ (h4 + q3) mod 67108864 = r /\ h4 + q3 = 67108864 * q + r /\
    0 <= r < 67108864 /\ 0 <= q <= q3) as (q4 & r4 & -> & -> & E4 & ? & ?)
    by (do 2 eexists; split_and!; try reflexivity; lia).
  rewrite (u32_id (q4 * 5)), (u32_id (h0 + q4 * 5)) by lia.
  assert (exists q r, (h0 + q4 * 5) / 67108864 = q /\ (h0 + q4 * 5) mod 67108864 = r /\
    h0 + q4 * 5 = 67108864 * q + r /\ 0 <= r < 67108864 /\ 0 <= q <= q4) as (q0 & r0 & -> & -> & E0 & ? & ?)
    by (do 2 eexists; split_and!; try reflexivity; lia).
  rewrite (u32_id (r1 + q0)) by lia.
  split; [exists r0, (r1 + q0), r2, r3, r4; split_and!; reflexivity || lia|].
  replace (hval [h0; h1; h2; h3; h4]) with (hval [r0; r1 + q0; r2; r3; r4] + q4 * P1305).
  - by rewrite Z.mod_add by done.
  - with_strategy transparent [P1305] unfold P1305. cbn [hval]. lia.
Qed.

Lemma land_ones32 x : 0 <= x < 4294967296 -> Z.land x 4294967295 = x.
Proof. intros. rewrite (land_mask_mod _ 32) by lia. apply Z.mod_small. lia. Qed.

(** The branch-free selection subtracts [p] exactly when [h >= p]. *)
Lemma poly1305_select_spec h : limbs26 h ->
  limbs26 (poly1305_select h) /\ hval (poly1305_select h) = hval h mod P1305.
Proof.
  intros (h0 & h1 & h2 & h3 & h4 & -> & H0 & H1 & H2 & H3 & H4).
  unfold poly1305_select, ix. cbn [nth]. rewrite !limb_lo, !limb_hi, (u32_id (h0 + 5)) by lia.
  assert (forall x, 0 <= x < 67108864 + 5 -> exists q r, x / 67108864 = q /\ x mod 67108864 = r /\
    x = 67108864 * q + r /\ 0 <= r < 67108864 /\ 0 <= q <= 1) as DM
    by (intros; do 2 eexists; split_and!; try reflexivity; lia).
  destruct (DM (h0 + 5)) as (q0 & r0 & -> & -> & E0 & ? & ?); [lia|]. rewrite (u32_id (h1 + q0)) by lia.
  destruct (DM (h1 + q0)) as (q1 & r1 & -> & -> & E1 & ? & ?); [lia|]. rewrite (u32_id (h2 + q1)) by lia.
  destruct (DM (h2 + q1)) as (q2 & r2 & -> & -> & E2 & ? & ?); [lia|]. rewrite (u32_id (h3 + q2)) by lia.
  destruct (DM (h3 + q2)) as (q3 & r3 & -> & -> & E3 & ? & ?); [lia|]. rewrite (u32_id (h4 + q3)) by lia.
  clear DM. change (Z.shiftl 1 26) with 67108864.
  with_strategy transparent [P1305] unfold P1305. change (2 ^ 130) with 1361129467683753853853498429727072845824.
  destruct (decide (h4 + q3 < 67108864)) as [Hlt|Hge].
  - replace (u32 (h4 + q3 - 67108864)) with (h4 + q3 - 67108864 + 4294967296) by (rewrite u32_mod; lia).
    replace (Z.shiftr _ 31) with 1 by (rewrite Z.shiftr_div_pow2 by lia; lia).
    change (u32 (1 - 1)) with 0. change (u32 (Z.lnot 0)) with 4294967295.
    rewrite !Z.land_0_r, !land_ones32, !Z.lor_0_r by lia.
    split; [do 5 eexists; split; [reflexivity|lia]|].
    symmetry. apply Z.mod_small. cbn [hval]. lia.
  - assert (h4 = 67108863) as -> by lia. assert (q3 = 1) as -> by lia.
    change (u32 (67108863 + 1 - 67108864)) with 0.
    change (u32 (Z.shiftr 0 31 - 1)) with 4294967295. change (u32 (Z.lnot 4294967295)) with 0.
    rewrite !land_ones32, !Z.land_0_r, !Z.lor_0_l by lia.
    split; [do 5 eexists; split; [reflexivity|lia]|].
    apply (Zmod_unique _ _ 1); cbn [hval]; lia.
Qed.

(** A word that takes the low [32-k] bits of a limb. *)
Lemma word_high x y k m : 0 <= x < 2 ^ k -> 0 <= k <= 32 -> m = 2 ^ (32 - k) ->
  Z.land (Z.lor x (u32 (Z.shiftl y k))) 0xffffffff = x + y mod m * 2 ^ k.
Proof.
  intros Hx Hk ->. assert (2 ^ (32 - k) * 2 ^ k = 4294967296) as Hp.
  { rewrite <- Z.pow_add_r by lia. by replace (32 - k + k) with 32 by lia. }
  assert (0 < 2 ^ (32 - k)) by (apply Z.pow_pos_nonneg; lia).
  pose proof (Z.mod_pos_bound y (2 ^ (32 - k)) ltac:(lia)).
  assert (u32 (Z.shiftl y k) = Z.shiftl (y mod 2 ^ (32 - k)) k) as ->.
  { rewrite u32_mod, !Z.shiftl_mul_pow2 by lia. rewrite <- Hp, Z.mul_mod_distr_r by lia. done. }
  rewrite lor_add_shift by lia. apply land_ones32. nia.
Qed.

Lemma poly1305_pack_spec h : limbs26 h ->
  exists w0 w1 w2 w3, poly1305_pack h = [w0; w1; w2; w3] /\ is_u32 w0 /\ is_u32 w1 /\ is_u32 w2 /\ is_u32 w3 /\
    w0 + 4294967296 * (w1 + 4294967296 * (w2 + 4294967296 * w3)) =
    hval h mod 340282366920938463463374607431768211456.
Proof.
  intros (h0 & h1 & h2 & h3 & h4 & -> & H0 & H1 & H2 & H3 & H4).
  unfold poly1305_pack, ix. cbn [nth]. rewrite !Z.shiftr_div_pow2 by lia.
  rewrite (word_high h0 h1 26 64), (word_high (h1 / 2 ^ 6) h2 20 4096),
    (word_high (h2 / 2 ^ 12) h3 14 262144), (word_high (h3 / 2 ^ 18) h4 8 16777216) by lia.
  do 4 eexists. split; [reflexivity|]. unfold is_u32. do 4 (split; [lia|]).
  apply (Zmod_unique _ _ (h4 / 16777216)); cbn [hval]; lia.
Qed.

Lemma store32le_val v : is_u32 v -> le_val (store32le v) = v.
Proof.
  intros Hv. unfold store32le. rewrite store32_le, le_val_le_bytes. by apply Z.mod_small.
Qed.

Lemma poly1305_add_pad_spec w0 w1 w2 w3 p0 p1 p2 p3 :
  wf_words [w0; w1; w2; w3] -> wf_words [p0; p1; p2; p3] ->
  poly1305_add_pad [w0; w1; w2; w3] [p0; p1; p2; p3] =
  le_bytes 16 (w0 + 4294967296 * (w1 + 4294967296 * (w2 + 4294967296 * w3)) +
               (p0 + 4294967296 * (p1 + 4294967296 * (p2 + 4294967296 * p3)))).
Proof.
  intros Hw Hp. repeat match goal with H : Forall _ (_ :: _) |- _ => apply Forall_cons in H; destruct H end.
  unfold is_u32 in *. unfold poly1305_add_pad, ix. cbn [nth]. rewrite !Z.shiftr_div_pow2 by lia.
  change (2 ^ 32) with 4294967296.
  assert (forall x, 0 <= x <= 8589934591 -> exists q r, x / 4294967296 = q /\ u32 x = r /\
    x = 4294967296 * q + r /\ 0 <= r < 4294967296 /\ 0 <= q <= 1) as DM
    by (intros; rewrite u32_mod; do 2 eexists; split_and!; try reflexivity; lia).
  rewrite (u64_id (w0 + p0)) by lia.
  destruct (DM (w0 + p0)) as (q0 & r0 & -> & -> & E0 & ? & ?); [lia|]. rewrite (u64_id (w1 + p1 + q0)) by lia.
  destruct (DM (w1 + p1 + q0)) as (q1 & r1 & -> & -> & E1 & ? & ?); [lia|]. rewrite (u64_id (w2 + p2 + q1)) by lia.
  destruct (DM (w2 + p2 + q1)) as (q2 & r2 & -> & -> & E2 & ? & ?); [lia|]. rewrite (u64_id (w3 + p3 + q2)) by lia.
  destruct (DM (w3 + p3 + q2)) as (q3 & r3 & _ & -> & E3 & ? & ?); [lia|]. clear DM.
  apply le_val_inj; [unfold store32le; wf|apply le_bytes_wf|done|].
  rewrite le_val_le_bytes, !le_val_app, !store32le_val by done.
  change (256 ^ Z.of_nat (length (store32le _))) with 4294967296.
  change (256 ^ Z.of_nat 16) with 340282366920938463463374607431768211456.
  apply (Zmod_unique _ _ q3); lia.
Qed.

Lemma p_pad_spec key : wf_bytes key -> length key = 32%nat ->
  exists p0 p1 p2 p3, p_pad (poly1305_init key) = [p0; p1; p2; p3] /\ wf_words [p0; p1; p2; p3] /\
    p0 + 4294967296 * (p1 + 4294967296 * (p2 + 4294967296 * p3)) = le_val (slice key 16 16).
Proof.
  intros Hk Hl. cbn [p_pad poly1305_init]. unfold load32le. do 4 eexists. split; [reflexivity|].
  split; [repeat constructor; by apply load32_is_u32|].
  rewrite !load32_le by (done || lia).
  change (slice key 16 16) with (slice key 16 (4 + (4 + (4 + 4)))). rewrite !slice_split. cbn [Nat.add].
  rewrite !le_val_app, !length_slice by lia. cbn. lia.
Qed.

(** ** The tag of a whole message *)

Lemma poly1305_init_wf key : wf_bytes key -> length key = 32%nat -> wf_poly (poly1305_init key).
Proof.
  intros Hk Hl. destruct (poly1305_init_r key Hk ltac:(lia)) as [Hr _].
  constructor; [done| |done|apply zeros_wf|cbn; lia|done].
  exists 0, 0, 0, 0, 0. split; [done|lia].
Qed.

(** The padded last block, without [hibit], stands for the bytes and a final 1. *)
Lemma p_final_block st :
  wf_poly st -> p_leftover st <> 0%nat ->
  let buffer := store (<[p_leftover st := 1]> (p_buffer st)) (p_leftover st + 1)
                  (zeros (16 - (p_leftover st + 1))) in
  wf_bytes buffer /\ length buffer = 16%nat /\ le_val buffer = le_val (p_pending st ++ [1]).
Proof.
  intros Hw Hd buffer. pose proof (wp_leftover _ Hw) as Hlo. pose proof (wp_buffer _ Hw) as Hbl.
  assert (buffer = (p_pending st ++ [1]) ++ zeros (16 - (p_leftover st + 1))) as Hb.
  { rewrite <- (take_ge buffer 16) by (unfold buffer; rewrite length_store; rewrite ?length_insert; len).
    unfold buffer. rewrite (take_store _ _ _ _) by (rewrite ?length_insert; len). f_equal.
    rewrite Nat.add_1_r. rewrite (take_S_r _ _ 1) by (apply list_lookup_insert_eq; lia).
    by rewrite take_insert_ge by lia. }
  rewrite Hb. split_and!.
  - pose proof (wp_wf _ Hw). unfold p_pending. wf.
  - unfold p_pending. len.
  - by rewrite le_val_app, le_val_zeros, Z.mul_0_r, Z.add_0_r.
Qed.

Lemma poly1305_finish_spec st key :
  wf_poly st -> wf_bytes key -> length key = 32%nat -> p_pad st = p_pad (poly1305_init key) ->
  poly1305_finish st = le_bytes 16 (p_remaining st [] + le_val (slice key 16 16)).
Proof.
  intros Hw Hk Hkl Hp. unfold poly1305_finish.
  set (st1 := if decide _ then _ else _).
  assert (h_bounds (p_h st1) /\ hval (p_h st1) mod P1305 = p_remaining st [] /\ p_pad st1 = p_pad st) as (Hh & Hv & Hp1).
  { unfold p_remaining. rewrite app_nil_r. unfold st1. case_decide as Hd.
    - destruct (p_final_block st Hw Hd) as (Hbw & Hbl & Hbv).
      set (buffer := store _ _ _) in *. unfold poly1305_blocks. cbn [p_h p_r p_final p_pad].
      rewrite decide_True by done. rewrite Hbl. cbn [poly1305_loop].
      rewrite decide_True by lia. rewrite decide_False by (rewrite length_drop; lia).
      destruct (poly1305_block_spec 0 (p_r st) (p_h st) buffer) as [Hh Hv];
        [apply Hw|apply Hw|done|lia|by left|]. split_and!; [done| |done].
      rewrite Hv, take_ge, Hbv, Z.mul_0_l, Z.add_0_r by lia.
      pose proof (wp_leftover _ Hw). pose proof (wp_buffer _ Hw).
      assert (length (p_pending st) = p_leftover st) as Hl by (unfold p_pending; len).
      rewrite poly_acc_unfold by (intros Hn; rewrite Hn in Hl; cbn in Hl; lia).
      rewrite take_ge, drop_ge, poly_acc_nil by lia.
      by rewrite <- Z.mul_mod_idemp_l, <- Z.add_mod_idemp_l, Z.mul_mod_idemp_l by done.
    - rewrite p_pending_empty by lia. rewrite poly_acc_nil. split_and!; [apply Hw|done|done]. }
  destruct (poly1305_reduce_spec _ Hh) as [Hl Hr]. destruct (poly1305_select_spec _ Hl) as [Hl' Hs].
  destruct (poly1305_pack_spec _ Hl') as (w0 & w1 & w2 & w3 & -> & W0 & W1 & W2 & W3 & Hwv).
  destruct (p_pad_spec key Hk Hkl) as (p0 & p1 & p2 & p3 & Hpe & Hpw & Hpv).
  rewrite Hp1, Hp, Hpe, poly1305_add_pad_spec, Hwv, Hpv, Hs, Hr, Hv
    by (first [assumption | repeat apply Forall_cons_2; assumption || apply Forall_nil_2]).
  rewrite (le_bytes_mod 16 (_ mod _ + _)), (le_bytes_mod 16 (p_remaining _ _ + _)).
  by rewrite Z.add_mod_idemp_l.
Qed.

Lemma poly1305_updates_spec st chunks x :
  wf_poly st -> Forall wf_bytes chunks ->
  wf_poly (foldl poly1305_update st chunks) /\
  p_remaining (foldl poly1305_update st chunks) x = p_remaining st (concat chunks ++ x) /\
  p_pad (foldl poly1305_update st chunks) = p_pad st.
Proof.
  intros Hw Hc. revert st Hw. induction Hc as [|c cs Hc Hcs IH]; intros st Hw; [done|].
  cbn [foldl concat]. destruct (poly1305_update_spec st c (concat cs ++ x) Hw Hc) as (Hw' & Hr & _ & Hp).
  destruct (IH _ Hw') as (? & Hr' & Hp'). rewrite <- app_assoc, <- Hr.
  split_and!; [done|done|congruence].
Qed.

(** Any sequence of updates, then the tag. *)
Lemma poly1305_spec key chunks :
  wf_bytes key -> length key = 32%nat -> Forall wf_bytes chunks ->
  poly1305_finish (foldl poly1305_update (poly1305_init key) chunks) = rfc_poly1305 key (concat chunks).
Proof.
  intros Hk Hl Hc. destruct (poly1305_updates_spec _ chunks [] (poly1305_init_wf key Hk Hl) Hc) as (Hw & Hr & Hp).
  rewrite (poly1305_finish_spec _ key Hw Hk Hl Hp), Hr, app_nil_r.
  unfold p_remaining. rewrite (proj2 (poly1305_init_r key Hk ltac:(lia))).
  reflexivity.
Qed.

Lemma length_rfc_poly1305 key m : length (rfc_poly1305 key m) = 16%nat.
Proof. apply length_le_bytes. Qed.
Lemma rfc_poly1305_wf key m : wf_bytes (rfc_poly1305 key m).
Proof. apply le_bytes_wf. Qed.
#[export] Hint Resolve rfc_poly1305_wf : words.
#[export] Hint Rewrite length_rfc_poly1305 : len.

(** ** Properties *)

(** C15: for every 32-byte key and every way of cutting a message into
    [poly1305_update] calls, [poly1305_finish] returns the RFC 8439 tag of the
    whole message: five-limb arithmetic modulo [2^130 - 5] with no 32- or
    64-bit operation overflowing, the branch-free final subtraction and the
    addition of the pad. *)
Theorem poly1305_rfc8439 (key : list Z) (chunks : list (list Z))
    (Hk : wf_bytes key) (Hl : length key = 32%nat) (Hc : Forall (fun c => wf_bytes c) chunks) :
  poly1305_finish (foldl poly1305_update (poly1305_init key) chunks) = rfc_poly1305 key (concat chunks).
Proof. by apply poly1305_spec. Qed.

Lemma poly1305_rfc8439_witness :
  poly1305_finish (foldl poly1305_update (poly1305_init (replicate 32 255)) [zeros 5; replicate 40 255; []]) =
  rfc_poly1305 (replicate 32 255) (concat [zeros 5; replicate 40 255; []]).
Proof.
  apply (poly1305_rfc8439 (replicate 32 255) [zeros 5; replicate 40 255; []]);
    repeat constructor; lia.
Defined.

(** C22: the limb invariant: after any sequence of updates the accumulator's
    limbs stay below their bounds (26 bits, six spare values for limb 1) and
    fewer than 16 bytes wait in the buffer. *)
Theorem poly1305_invariant (key : list Z) (chunks : list (list Z))
    (Hk : wf_bytes key) (Hl : length key = 32%nat) (Hc : Forall (fun c => wf_bytes c) chunks) :
  wf_poly (foldl poly1305_update (poly1305_init key) chunks).
Proof. by apply (poly1305_updates_spec _ chunks []); [apply poly1305_init_wf|]. Qed.

Lemma poly1305_invariant_witness :
  wf_poly (foldl poly1305_update (poly1305_init (replicate 32 255)) [replicate 33 255]).
Proof.
  apply (poly1305_invariant (replicate 32 255) [replicate 33 255]); repeat constructor; lia.
Defined.
