(* ===== verification/Aead.v ===== *)
(** * ChaCha20-Poly1305

    [src/Modules/NekroEngine/NekroCore/crypto/chachapoly.c], lines 182-232: the
    AEAD construction of RFC 8439, section 2.8. *)

From S2P Require Import Prelude ChaCha20 Poly1305.

(** ** The C code *)

Definition poly_pad16 (st : poly1305_ctx) (len : nat) : poly1305_ctx :=
  if decide (Nat.modulo len 16 <> 0)%nat
  then poly1305_update st (zeros (16 - Nat.modulo len 16)) else st.

Definition aead_mac (aad ct key nonce : list Z) : list Z :=
  let polykey := nw_chacha20_xor (zeros 32) key nonce 0 in
  let aadlen := Z.of_nat (length aad) in
  let ctlen := Z.of_nat (length ct) in
  let st := poly1305_init polykey in
  let st := poly_pad16 (poly1305_update st aad) (length aad) in
  let st := poly_pad16 (poly1305_update st ct) (length ct) in
  let lenblk := store32le (u32 aadlen) ++ store32le (u32 (Z.shiftr (u64 aadlen) 32)) ++
                store32le (u32 ctlen) ++ store32le (u32 (Z.shiftr (u64 ctlen) 32)) in
  poly1305_finish (poly1305_update st lenblk).

(** The [plen + 16] bytes written to [out]; the return value is always 0. *)
Definition nw_chacha20poly1305_encrypt (plain aad key nonce : list Z) : list Z :=
  let out := nw_chacha20_xor plain key nonce 1 in
  out ++ aead_mac aad out key nonce.

(** [diff |= tag[i] ^ cipher[plen + i]] over the 16 tag bytes. *)
Definition tag_diff (tag cipher : list Z) (plen : nat) : Z :=
  for_loop 0 16 (fun diff i => Z.lor diff (u8 (Z.lxor tag.[i] cipher.[plen + i]))) 0.

(** [None] is the return value [-1]; [out] is then left alone. *)
Definition nw_chacha20poly1305_decrypt (cipher aad key nonce : list Z) : option (list Z) :=
  if decide (length cipher < 16)%nat then None else
  let plen := (length cipher - 16)%nat in
  let tag := aead_mac aad (take plen cipher) key nonce in
  if decide (tag_diff tag cipher plen <> 0) then None else
  Some (nw_chacha20_xor (take plen cipher) key nonce 1).

(** ** Specification: RFC 8439, section 2.8 *)

Definition pad16 (x : list Z) : list Z := zeros (Nat.modulo (16 - Nat.modulo (length x) 16) 16).

Definition rfc_mac_data (aad ct : list Z) : list Z :=
  aad ++ pad16 aad ++ ct ++ pad16 ct ++
  le_bytes 8 (Z.of_nat (length aad)) ++ le_bytes 8 (Z.of_nat (length ct)).

Definition rfc_tag (aad ct key nonce : list Z) : list Z :=
  rfc_poly1305 (take 32 (rfc_block key 0 nonce)) (rfc_mac_data aad ct).

Definition rfc_aead (plain aad key nonce : list Z) : list Z :=
  let ct := rfc_encrypt key nonce 1 plain in ct ++ rfc_tag aad ct key nonce.

(** ** Proofs *)

Definition aead_params (key nonce : list Z) : Prop :=
  wf_bytes key /\ wf_bytes nonce /\ length key = 32%nat /\ length nonce = 12%nat.

Lemma length64_words n :
  store32le (u32 (Z.of_nat n)) ++ store32le (u32 (Z.shiftr (u64 (Z.of_nat n)) 32)) =
  le_bytes 8 (Z.of_nat n).
Proof.
  apply le_val_inj; [unfold store32le; wf|apply le_bytes_wf|done|].
  rewrite le_val_app, !store32le_val, le_val_le_bytes by apply u32_is_u32.
  change (256 ^ Z.of_nat (length (store32le _))) with 4294967296.
  change (256 ^ Z.of_nat 8) with 18446744073709551616.
  rewrite !u32_mod, u64_mod, Z.shiftr_div_pow2 by lia. lia.
Qed.

(** Padding is an update with zero or one chunk. *)
Definition pad_chunks (x : list Z) : list (list Z) :=
  if decide (Nat.modulo (length x) 16 <> 0)%nat then [zeros (16 - Nat.modulo (length x) 16)] else [].

Lemma poly_pad16_chunks st x : poly_pad16 st (length x) = foldl poly1305_update st (pad_chunks x).
Proof. unfold poly_pad16, pad_chunks. by case_decide. Qed.

Lemma concat_pad_chunks x : concat (pad_chunks x) = pad16 x.
Proof.
  unfold pad_chunks, pad16. pose proof (Nat.mod_upper_bound (length x) 16 ltac:(lia)).
  case_decide as Hd; cbn [concat].
  - rewrite app_nil_r. f_equal. symmetry. apply Nat.mod_small. lia.
  - replace (Nat.modulo (length x) 16) with 0%nat by lia. done.
Qed.

Lemma pad_chunks_wf x : Forall wf_bytes (pad_chunks x).
Proof. unfold pad_chunks. case_decide; repeat constructor. apply zeros_wf. Qed.

Section Params.
Context (key nonce : list Z) (Hp : aead_params key nonce).
#[local] Opaque rfc_block rfc_poly1305 poly1305_finish poly1305_update poly1305_init.

(** The one-time key is the first half of block 0. *)
Lemma polykey_rfc : nw_chacha20_xor (zeros 32) key nonce 0 = take 32 (rfc_block key 0 nonce).
Proof.
  destruct Hp as (Hk & Hn & Hkl & Hnl).
  rewrite nw_chacha20_xor_spec by (assumption || (unfold is_u32; lia)).
  apply ix_ext.
  - rewrite length_rfc_encrypt, length_take, length_rfc_block. reflexivity.
  - rewrite length_rfc_encrypt, length_zeros. intros i Hi. unfold rfc_encrypt. rewrite length_zeros.
    rewrite (ix_map_seq (fun i => Z.lxor (zeros 32).[i] _)), ix_take by done.
    assert ((zeros 32).[i] = 0) as ->.
    { apply (ix_Forall (fun z => z = 0)); [|reflexivity]. by apply Forall_replicate. }
    unfold keystream. rewrite Z.lxor_0_l, Nat.div_small, Nat.mod_small by lia. reflexivity.
Qed.

Lemma aead_mac_spec aad ct : wf_bytes aad -> wf_bytes ct -> aead_mac aad ct key nonce = rfc_tag aad ct key nonce.
Proof.
  intros Ha Hc. unfold aead_mac, rfc_tag. rewrite !poly_pad16_chunks, polykey_rfc.
  assert (wf_bytes (take 32 (rfc_block key 0 nonce)) /\ length (take 32 (rfc_block key 0 nonce)) = 32%nat) as [Hw Hl].
  { rewrite <- polykey_rfc. destruct Hp as (Hk & Hn & Hkl & Hnl).
    rewrite nw_chacha20_xor_spec by (assumption || (unfold is_u32; lia)).
    split; [auto with words|by rewrite length_rfc_encrypt]. }
  set (st0 := poly1305_init _). set (lenblk := store32le _ ++ _).
  assert (lenblk = le_bytes 8 (Z.of_nat (length aad)) ++ le_bytes 8 (Z.of_nat (length ct))) as Hlb.
  { unfold lenblk. by rewrite <- !length64_words, <- app_assoc. }
  pose proof (poly1305_spec (take 32 (rfc_block key 0 nonce))
    ([aad] ++ pad_chunks aad ++ [ct] ++ pad_chunks ct ++ [lenblk]) Hw Hl) as He.
  rewrite !foldl_app in He. cbn [foldl] in He. fold st0 in He. rewrite He.
  - rewrite !concat_app, !concat_pad_chunks. cbn [concat]. by rewrite !app_nil_r, Hlb.
  - assert (wf_bytes lenblk) by (rewrite Hlb; auto with words). clearbody lenblk.
    repeat apply Forall_app_2; try apply pad_chunks_wf; repeat apply Forall_cons_2;
      assumption || apply Forall_nil_2.
Qed.

Lemma length_rfc_tag aad ct : length (rfc_tag aad ct key nonce) = 16%nat.
Proof. apply length_rfc_poly1305. Qed.
Lemma rfc_tag_wf aad ct : wf_bytes (rfc_tag aad ct key nonce).
Proof. apply rfc_poly1305_wf. Qed.
#[local] Opaque rfc_tag.

(** Encryption is the RFC's AEAD. *)
Lemma aead_encrypt_spec plain aad : wf_bytes plain -> wf_bytes aad ->
  nw_chacha20poly1305_encrypt plain aad key nonce = rfc_aead plain aad key nonce.
Proof.
  intros Hpl Ha. unfold nw_chacha20poly1305_encrypt, rfc_aead.
  destruct Hp as (Hk & Hn & Hkl & Hnl).
  rewrite nw_chacha20_xor_spec by (assumption || (unfold is_u32; lia)).
  rewrite aead_mac_spec by auto with words. reflexivity.
Qed.

(** The accumulated difference is zero exactly on equal tags. *)
Lemma tag_diff_zero tag cipher plen :
  wf_bytes tag -> wf_bytes cipher -> length tag = 16%nat -> (plen + 16 = length cipher)%nat ->
  tag_diff tag cipher plen = 0 <-> tag = drop plen cipher.
Proof.
  intros Ht Hc Hl Hpl. unfold tag_diff.
  assert (for_loop 0 16 (fun diff i => Z.lor diff (u8 (Z.lxor tag.[i] cipher.[plen + i]))) 0 = 0 <->
    forall i, (i < 16)%nat -> tag.[i] = cipher.[plen + i]) as ->.
  { set (f := fun diff i => _). generalize 16%nat as n. induction n as [|n IH].
    - split; [intros _ i Hi; lia|reflexivity].
    - rewrite for_loop_S, Nat.add_0_l. unfold f at 1. rewrite Z.lor_eq_0_iff, IH.
      assert (u8 (Z.lxor tag.[n] cipher.[plen + n]) = 0 <-> tag.[n] = cipher.[plen + n]) as ->.
      { rewrite u8_id by (apply lxor_is_byte; by apply ix_byte). apply Z.lxor_eq_0_iff. }
      split.
      + intros [Hi Hn] i Hlt. destruct (decide (i = n)) as [->|]; [done|]. apply Hi. lia.
      + intros Hi. split; [intros; apply Hi; lia|apply Hi; lia]. }
  split.
  - intros Hi. apply ix_ext; [rewrite length_drop; lia|]. intros i Hlt. rewrite ix_drop. apply Hi. lia.
  - intros -> i Hi. by rewrite ix_drop.
Qed.

(** Decryption accepts exactly the messages whose last 16 bytes are the tag. *)
Lemma aead_decrypt_spec cipher aad : wf_bytes cipher -> wf_bytes aad ->
  nw_chacha20poly1305_decrypt cipher aad key nonce =
  if decide (length cipher < 16)%nat then None else
  let ct := take (length cipher - 16) cipher in
  if decide (drop (length cipher - 16) cipher = rfc_tag aad ct key nonce)
  then Some (rfc_encrypt key nonce 1 ct) else None.
Proof.
  intros Hc Ha. unfold nw_chacha20poly1305_decrypt. case_decide as Hl; [reflexivity|].
  set (n := (length cipher - 16)%nat). cbn zeta. rewrite aead_mac_spec by auto with words.
  pose proof (tag_diff_zero (rfc_tag aad (take n cipher) key nonce) cipher n) as Ht.
  specialize (Ht (rfc_tag_wf _ _) Hc (length_rfc_tag _ _) ltac:(lia)).
  destruct Hp as (Hk & Hn & Hkl & Hnl).
  rewrite nw_chacha20_xor_spec by (assumption || (unfold is_u32; lia)).
  destruct (decide (tag_diff _ _ _ <> 0)) as [Hd|Hd], (decide (drop n cipher = _)) as [He|He];
    try reflexivity.
  - exfalso. apply Hd, Ht. congruence.
  - exfalso. apply He. symmetry. apply Ht. lia.
Qed.

Lemma length_rfc_aead plain aad : length (rfc_aead plain aad key nonce) = (length plain + 16)%nat.
Proof. unfold rfc_aead. rewrite length_app, length_rfc_encrypt, length_rfc_tag. reflexivity. Qed.
Lemma rfc_aead_wf plain aad : wf_bytes plain -> wf_bytes (rfc_aead plain aad key nonce).
Proof. intros. unfold rfc_aead. apply Forall_app_2; [auto with words|apply rfc_tag_wf]. Qed.

Lemma aead_roundtrip plain aad : wf_bytes plain -> wf_bytes aad ->
  nw_chacha20poly1305_decrypt (nw_chacha20poly1305_encrypt plain aad key nonce) aad key nonce = Some plain.
Proof.
  intros Hpl Ha. rewrite aead_encrypt_spec, aead_decrypt_spec by (auto using rfc_aead_wf).
  rewrite length_rfc_aead. rewrite decide_False by lia. rewrite Nat.add_sub. cbn zeta. unfold rfc_aead.
  rewrite take_app_length', drop_app_length' by (by rewrite length_rfc_encrypt).
  rewrite decide_True by reflexivity. by rewrite rfc_encrypt_involutive.
Qed.

End Params.

Lemma aead_decrypt_authentic_iff cipher plain aad key nonce :
  aead_params key nonce -> wf_bytes cipher -> wf_bytes aad ->
  nw_chacha20poly1305_decrypt cipher aad key nonce = Some plain <->
  wf_bytes plain /\ cipher = rfc_aead plain aad key nonce.
Proof.
  intros Hp Hc Ha.
  rewrite aead_decrypt_spec by done. split.
  - case_decide as Hl; [discriminate|]. cbn zeta. case_decide as Ht; [|discriminate].
    intros [= <-]. split; [auto with words|]. unfold rfc_aead.
    rewrite rfc_encrypt_involutive, <- Ht. symmetry. apply take_drop.
  - intros [Hw ->]. rewrite <- aead_encrypt_spec, <- aead_decrypt_spec by (try done; rewrite aead_encrypt_spec by done; by apply rfc_aead_wf).
    by apply aead_roundtrip.
Qed.

(** ** Properties *)

(** C12: [nw_chacha20poly1305_encrypt] is the AEAD of RFC 8439: the ChaCha20
    ciphertext from block 1 followed by the Poly1305 tag, under the key of
    block 0, of the padded associated data, ciphertext and both lengths. *)
Theorem aead_encrypt_rfc8439 (plain aad key nonce : list Z)
    (Hp : aead_params key nonce) (Hpl : wf_bytes plain) (Ha : wf_bytes aad) :
  nw_chacha20poly1305_encrypt plain aad key nonce = rfc_aead plain aad key nonce /\
  length (nw_chacha20poly1305_encrypt plain aad key nonce) = (length plain + 16)%nat.
Proof. rewrite aead_encrypt_spec by done. split; [reflexivity|apply length_rfc_aead]. Qed.

Lemma zero_params : aead_params (zeros 32) (zeros 12).
Proof. split_and!; [apply zeros_wf|apply zeros_wf|reflexivity|reflexivity]. Defined.

Lemma aead_encrypt_rfc8439_witness :
  nw_chacha20poly1305_encrypt [1; 2; 3] [4] (zeros 32) (zeros 12) =
    rfc_aead [1; 2; 3] [4] (zeros 32) (zeros 12) /\
  length (nw_chacha20poly1305_encrypt [1; 2; 3] [4] (zeros 32) (zeros 12)) = 19%nat.
Proof.
  apply (aead_encrypt_rfc8439 [1; 2; 3] [4] (zeros 32) (zeros 12) zero_params); repeat constructor; lia.
Defined.

(** decrypting what [nw_chacha20poly1305_encrypt] wrote, under the same key,
    nonce and associated data, returns the plaintext. *)
Theorem aead_decrypt_encrypt (plain aad key nonce : list Z)
    (Hp : aead_params key nonce) (Hpl : wf_bytes plain) (Ha : wf_bytes aad) :
  nw_chacha20poly1305_decrypt (nw_chacha20poly1305_encrypt plain aad key nonce) aad key nonce = Some plain.
Proof. by apply aead_roundtrip. Qed.

Lemma aead_decrypt_encrypt_witness :
  nw_chacha20poly1305_decrypt (nw_chacha20poly1305_encrypt [7; 7] [] (zeros 32) (zeros 12)) []
    (zeros 32) (zeros 12) = Some [7; 7].
Proof. apply (aead_decrypt_encrypt [7; 7] [] (zeros 32) (zeros 12) zero_params); repeat constructor; lia. Defined.

(** C18: decryption is authenticated: it returns a plaintext for exactly the
    ciphertexts that encryption of that plaintext produces, so a short input or
    any other tag is refused. *)
Theorem aead_decrypt_authentic (cipher plain aad key nonce : list Z)
    (Hp : aead_params key nonce) (Hc : wf_bytes cipher) (Ha : wf_bytes aad) :
  nw_chacha20poly1305_decrypt cipher aad key nonce = Some plain <->
  wf_bytes plain /\ cipher = rfc_aead plain aad key nonce.
Proof. by apply aead_decrypt_authentic_iff. Qed.

Lemma aead_decrypt_authentic_witness :
  nw_chacha20poly1305_decrypt (zeros 15) [] (zeros 32) (zeros 12) = Some [] <->
  Forall is_byte [] /\ zeros 15 = rfc_aead [] [] (zeros 32) (zeros 12).
Proof.
  apply (aead_decrypt_authentic (zeros 15) [] [] (zeros 32) (zeros 12) zero_params);
    [apply zeros_wf|constructor].
Defined.
