(* ===== verification/Field25519.v ===== *)
(** * The field of X25519

    [src/Modules/NekroEngine/NekroCore/crypto/x25519.c]: the arithmetic modulo
    [2^255 - 19] on sixteen signed 16-bit limbs kept in [int64_t] cells
    (TweetNaCl's representation), with its value and bounds lemmas. *)

From S2P Require Import Prelude.

(** ** The C code

    [gf] is [i64[16]], a list of 16 integers; every store wraps to 64 bits. *)

Definition gf_121665 : list Z := [0xDB41; 1; 0; 0; 0; 0; 0; 0; 0; 0; 0; 0; 0; 0; 0; 0].

(** One iteration of the loop of [car25519]. *)
Definition car_step (o : list Z) (i : nat) : list Z :=
  let o := <[i := i64 (o.[i] + Z.shiftl 1 16)]> o in
  let c := Z.shiftr o.[i] 16 in
  let k := if decide (i < 15)%nat then (i + 1)%nat else 0%nat in
  let o := <[k := i64 (o.[k] + i64 (c - 1 + 37 * (c - 1) * (if decide (i = 15%nat) then 1 else 0)))]> o in
  <[i := i64 (o.[i] - i64 (Z.shiftl c 16))]> o.

Definition car25519 (o : list Z) : list Z := for_loop 0 16 car_step o.

Definition sel_step (c : Z) (pq : list Z * list Z) (i : nat) : list Z * list Z :=
  let '(p, q) := pq in
  let t := Z.land c (Z.lxor p.[i] q.[i]) in
  (<[i := Z.lxor p.[i] t]> p, <[i := Z.lxor q.[i] t]> q).

Definition sel25519 (p q : list Z) (b : Z) : list Z * list Z :=
  let c := Z.lnot (b - 1) in
  for_loop 0 16 (sel_step c) (p, q).

(** One iteration of [for (i = 1; i < 15; i++)] in [pack25519]. *)
Definition pack_step (t : list Z) (m : list Z) (i : nat) : list Z :=
  let m := <[i := i64 (t.[i] - 0xffff - Z.land (Z.shiftr m.[i - 1] 16) 1)]> m in
  <[(i - 1)%nat := Z.land m.[i - 1] 0xffff]> m.

(** One of the two conditional subtractions of the modulus. *)
Definition pack_round (tm : list Z * list Z) (j : nat) : list Z * list Z :=
  let '(t, m) := tm in
  let m := <[0%nat := i64 (t.[0] - 0xffed)]> m in
  let m := for_loop 1 14 (pack_step t) m in
  let m := <[15%nat := i64 (t.[15] - 0x7fff - Z.land (Z.shiftr m.[14] 16) 1)]> m in
  let b := Z.land (Z.shiftr m.[15] 16) 1 in
  let m := <[14%nat := Z.land m.[14] 0xffff]> m in
  sel25519 t m (1 - b).

Definition pack25519 (n : list Z) : list Z :=
  let t := car25519 (car25519 (car25519 n)) in
  let '(t, m) := for_loop 0 2 pack_round (t, zeros 16) in
  for_loop 0 16 (fun o i =>
    let o := <[(2 * i)%nat := u8 (Z.land t.[i] 0xff)]> o in
    <[(2 * i + 1)%nat := u8 (Z.shiftr t.[i] 8)]> o) (zeros 32).

Definition unpack25519 (n : list Z) : list Z :=
  let o := map (fun i => n.[2 * i] + Z.shiftl n.[2 * i + 1] 8) (seq 0 16) in
  <[15%nat := Z.land o.[15] 0x7fff]> o.

(** [A], [Z], [M] and [S] of the source. *)
Definition gf_A (a b : list Z) : list Z := map (fun i => i64 (a.[i] + b.[i])) (seq 0 16).
Definition gf_Z (a b : list Z) : list Z := map (fun i => i64 (a.[i] - b.[i])) (seq 0 16).

Definition M_row (a b : list Z) (t : list Z) (i : nat) : list Z :=
  for_loop 0 16 (fun t j => <[(i + j)%nat := i64 (t.[i + j] + i64 (a.[i] * b.[j]))]> t) t.

Definition gf_M (a b : list Z) : list Z :=
  let t := zeros 31 in
  let t := for_loop 0 16 (M_row a b) t in
  let t := for_loop 0 15 (fun t i => <[i := i64 (t.[i] + i64 (38 * t.[i + 16]))]> t) t in
  car25519 (car25519 (take 16 t)).

Definition gf_S (a : list Z) : list Z := gf_M a a.

(** [for (a = 253; a >= 0; a--)]: the counter of iteration [k] is [253 - k]. *)
Definition inv_step (i : list Z) (c : list Z) (k : nat) : list Z :=
  let a := (253 - k)%nat in
  let c := gf_S c in
  if decide (a <> 2 /\ a <> 4)%nat then gf_M c i else c.

Definition inv25519 (i : list Z) : list Z := for_loop 0 254 (inv_step i) i.

(** ** Values of limb lists *)

Definition p25519 : Z := 2 ^ 255 - 19.

Fixpoint eval16 (l : list Z) : Z :=
  match l with [] => 0 | x :: r => x + 65536 * eval16 r end.

Definition limbs_in (lo hi : Z) (l : list Z) : Prop := Forall (fun x => lo <= x <= hi) l.

Lemma limbs_in_ix lo hi l i : limbs_in lo hi l -> (i < length l)%nat -> lo <= l.[i] <= hi.
Proof.
  intros Hl Hi. destruct (lookup_lt_is_Some_2 l i Hi) as [x Hx].
  rewrite (ix_lookup _ _ _ Hx). by apply (Forall_lookup_1 _ _ _ _ Hl Hx).
Qed.

Lemma limbs_in_of_ix lo hi l : (forall i, (i < length l)%nat -> lo <= l.[i] <= hi) -> limbs_in lo hi l.
Proof.
  intros H. apply Forall_lookup. intros i x Hx.
  rewrite <- (ix_lookup _ _ _ Hx). apply H. by eapply lookup_lt_Some.
Qed.

Lemma limbs_in_weaken lo hi lo' hi' l : lo' <= lo -> hi <= hi' -> limbs_in lo hi l -> limbs_in lo' hi' l.
Proof. intros ? ? Hl. eapply Forall_impl; [exact Hl|]. cbn. intros x Hx. lia. Qed.

Lemma eval16_app l k : eval16 (l ++ k) = eval16 l + 65536 ^ Z.of_nat (length l) * eval16 k.
Proof.
  induction l as [|x l IH]; cbn [app eval16 length]; [lia|].
  rewrite IH, Nat2Z.inj_succ, Z.pow_succ_r by lia. lia.
Qed.

Lemma eval16_insert l i x : (i < length l)%nat ->
  eval16 (<[i := x]> l) = eval16 l + (x - l.[i]) * 65536 ^ Z.of_nat i.
Proof.
  revert i. induction l as [|y l IH]; intros i Hi; cbn [length] in Hi; [lia|].
  destruct i as [|i]; cbn [insert list_insert eval16].
  - change ((y :: l).[0]) with y. lia.
  - change ((y :: l).[S i]) with (l.[i]).
    change (list_insert i x l) with (<[i := x]> l). rewrite IH by lia.
    rewrite Nat2Z.inj_succ, Z.pow_succ_r by lia. lia.
Qed.

Lemma eval16_range l : limbs_in 0 65535 l -> 0 <= eval16 l < 65536 ^ Z.of_nat (length l).
Proof.
  induction 1 as [|x l Hx Hl IH]; cbn [eval16 length]; [lia|].
  rewrite Nat2Z.inj_succ, Z.pow_succ_r by lia. lia.
Qed.

Lemma eval16_zeros n : eval16 (zeros n) = 0.
Proof. unfold zeros. induction n as [|n IH]; cbn [replicate eval16]; [done|]. lia. Qed.

(** ** Carrying *)

(** Carry from limb to limb, returning the carried limbs and the carry out. *)
Fixpoint carry_list (c : Z) (l : list Z) : list Z * Z :=
  match l with
  | [] => ([], c)
  | x :: r => let '(r', c') := carry_list ((x + c) / 65536) r in ((x + c) mod 65536 :: r', c')
  end.

Lemma carry_list_app c l k :
  carry_list c (l ++ k) =
  let '(l', c1) := carry_list c l in let '(k', c2) := carry_list c1 k in (l' ++ k', c2).
Proof.
  revert c. induction l as [|x l IH]; intros c; cbn [carry_list app].
  - by destruct (carry_list c k).
  - rewrite IH. destruct (carry_list _ l) as [l' c1]. by destruct (carry_list c1 k).
Qed.

Lemma carry_list_length c l : length (carry_list c l).1 = length l.
Proof.
  revert c. induction l as [|x l IH]; intros c; cbn [carry_list]; [done|].
  specialize (IH ((x + c) / 65536)). destruct (carry_list _ l). cbn in *. lia.
Qed.

Lemma carry_list_range c l : limbs_in 0 65535 (carry_list c l).1.
Proof.
  revert c. induction l as [|x l IH]; intros c; cbn [carry_list]; [constructor|].
  specialize (IH ((x + c) / 65536)). destruct (carry_list _ l). constructor; [lia|done].
Qed.

Lemma carry_list_eval c l :
  eval16 (carry_list c l).1 + (carry_list c l).2 * 65536 ^ Z.of_nat (length l) = eval16 l + c.
Proof.
  revert c. induction l as [|x l IH]; intros c; cbn [carry_list eval16 length fst snd]; [lia|].
  specialize (IH ((x + c) / 65536)). destruct (carry_list _ l) as [r' c']. cbn [fst snd eval16] in *.
  rewrite Nat2Z.inj_succ, Z.pow_succ_r by lia. lia.
Qed.

(** A carry never exceeds the limbs. *)
Lemma carry_list_bound B C c l : (B + C) / 65536 + 1 <= C -> limbs_in (- B) B l -> - C <= c <= C ->
  - C <= (carry_list c l).2 <= C.
Proof.
  intros HB Hl. revert c. induction Hl as [|x l Hx Hl IH]; intros c Hc; cbn [carry_list]; [done|].
  specialize (IH ((x + c) / 65536) ltac:(lia)). by destruct (carry_list _ l).
Qed.

Lemma ix_mid l x k i : i = length l -> (l ++ x :: k).[i] = x.
Proof. intros ->. rewrite ix_app_r by lia. by rewrite Nat.sub_diag. Qed.

Lemma ix_mid_next l x y k i : i = length l -> (l ++ x :: y :: k).[i + 1] = y.
Proof. intros ->. rewrite ix_app_r by lia. by replace (length l + 1 - length l)%nat with 1%nat by lia. Qed.

Lemma insert_mid l (x z : Z) k i : i = length l -> <[i := z]> (l ++ x :: k) = l ++ z :: k.
Proof. intros ->. rewrite insert_app_r_alt by lia. by rewrite Nat.sub_diag. Qed.

Lemma insert_mid_next l (x y z : Z) k i : i = length l ->
  <[(i + 1)%nat := z]> (l ++ x :: y :: k) = l ++ x :: z :: k.
Proof.
  intros ->. rewrite insert_app_r_alt by lia. by replace (length l + 1 - length l)%nat with 1%nat by lia.
Qed.

Definition car_bound : Z := 1152921504606846976.

(** The arithmetic of one step: no wrap-around, floor division. *)
Lemma car_arith x y k : - car_bound <= x <= car_bound -> - car_bound <= y <= car_bound -> k = 0 \/ k = 1 ->
  i64 (x + Z.shiftl 1 16) = x + 65536 /\
  i64 (y + i64 (Z.shiftr (x + 65536) 16 - 1 + 37 * (Z.shiftr (x + 65536) 16 - 1) * k)) =
    y + (1 + 37 * k) * (x / 65536) /\
  i64 (x + 65536 - i64 (Z.shiftl (Z.shiftr (x + 65536) 16) 16)) = x mod 65536.
Proof.
  unfold car_bound. intros Hx Hy Hk. rewrite Z.shiftl_mul_pow2, Z.shiftr_div_pow2 by lia.
  change (1 * 2 ^ 16) with 65536. change (2 ^ 16) with 65536. rewrite i64_id by lia.
  replace ((x + 65536) / 65536) with (x / 65536 + 1) by lia.
  pose proof (Z.div_mod x 65536 ltac:(lia)) as E. pose proof (Z.mod_pos_bound x 65536 ltac:(lia)).
  set (q := x / 65536) in *. set (r := x mod 65536) in *. clearbody q r.
  split; [done|]. rewrite Z.shiftl_mul_pow2 by lia. change (2 ^ 16) with 65536.
  rewrite (i64_id ((q + 1) * 65536)), (i64_id (x + 65536 - _)) by lia.
  replace (q + 1 - 1 + 37 * (q + 1 - 1) * k) with ((1 + 37 * k) * q) by lia.
  destruct Hk as [->| ->]; rewrite (i64_id (_ * q)), i64_id by lia; lia.
Qed.

Lemma car_step_mid done_ x y rest i :
  i = length done_ -> (i < 15)%nat ->
  - car_bound <= x <= car_bound -> - car_bound <= y <= car_bound ->
  car_step (done_ ++ x :: y :: rest) i = done_ ++ x mod 65536 :: y + x / 65536 :: rest.
Proof.
  intros Hi Hlt Hx Hy. unfold car_step.
  destruct (car_arith x y 0 Hx Hy ltac:(by left)) as (E1 & E2 & E3).
  rewrite decide_True, decide_False by lia. rewrite !(ix_mid done_ x) by done. rewrite E1.
  rewrite (insert_mid done_ x _ _ i Hi), !(ix_mid done_ (x + 65536) _ i Hi), (ix_mid_next done_ _ _ _ i Hi), E2.
  rewrite (insert_mid_next done_ _ _ _ _ i Hi), (ix_mid done_ _ _ i Hi), E3, (insert_mid done_ _ _ _ i Hi).
  by replace ((1 + 37 * 0) * (x / 65536)) with (x / 65536) by lia.
Qed.

Lemma car_step_last a l x :
  length l = 14%nat -> - car_bound <= x <= car_bound -> - car_bound <= a <= car_bound ->
  car_step (a :: l ++ [x]) 15 = a + 38 * (x / 65536) :: l ++ [x mod 65536].
Proof.
  intros Hl Hx Ha. unfold car_step. change (a :: l ++ [x]) with ((a :: l) ++ [x]).
  destruct (car_arith x a 1 Hx Ha ltac:(by right)) as (E1 & E2 & E3).
  assert (15%nat = length (a :: l)) as Hl' by (cbn; lia).
  rewrite decide_False, decide_True by lia. rewrite !(ix_mid (a :: l) x _ 15 Hl'), E1.
  rewrite (insert_mid (a :: l) x _ _ 15 Hl'), !(ix_mid (a :: l) (x + 65536) _ 15 Hl').
  change (((a :: l) ++ [x + 65536]).[0]) with a. rewrite E2.
  set (a' := a + _). change (<[0%nat := a']> ((a :: l) ++ [x + 65536])) with ((a' :: l) ++ [x + 65536]).
  assert (15%nat = length (a' :: l)) as Hl2 by (cbn; lia).
  by rewrite (ix_mid (a' :: l) _ _ 15 Hl2), E3, (insert_mid (a' :: l) _ _ _ 15 Hl2).
Qed.

(** [car25519] is one pass of [carry_list], the carry out folded in times 38. *)
Definition car_spec (o : list Z) : list Z :=
  let '(l, c) := carry_list 0 o in <[0%nat := l.[0] + 38 * c]> l.

Lemma car25519_prefix o : length o = 16%nat -> limbs_in (- car_bound + 2 ^ 46) (car_bound - 2 ^ 46) o ->
  forall k, (k <= 15)%nat -> exists d x rest, o = d ++ x :: rest /\ length d = k /\
    - 2 ^ 45 <= (carry_list 0 d).2 <= 2 ^ 45 /\
    for_loop 0 k car_step o = (carry_list 0 d).1 ++ (x + (carry_list 0 d).2) :: rest.
Proof.
  intros Hl Ho. induction k as [|k IH]; intros Hk.
  - destruct o as [|x o]; [done|]. exists [], x, o. cbn. rewrite Z.add_0_r. by split_and!; try done; lia.
  - destruct IH as (d & x & rest & He & Hd & Hc & Hf); [lia|].
    destruct rest as [|y rest]; [rewrite He, length_app in Hl; cbn in Hl; lia|].
    assert (limbs_in (- car_bound + 2 ^ 46) (car_bound - 2 ^ 46) (d ++ [x] ++ [y] ++ rest)) as Hb
      by (rewrite He in Ho; exact Ho).
    apply Forall_app in Hb as [Hbd [Hbx [Hby _]%Forall_app]%Forall_app].
    apply Forall_cons in Hbx as [Hbx _], Hby as [Hby _].
    exists (d ++ [x]), y, rest. split; [by rewrite He, <- app_assoc|]. split; [rewrite length_app; cbn; lia|].
    rewrite for_loop_S, Hf, Nat.add_0_l, carry_list_app. cbn [carry_list].
    pose proof (carry_list_length 0 d) as Hdl. destruct (carry_list 0 d) as [d' c]. cbn [fst snd] in *.
    unfold car_bound in *. split; [lia|].
    rewrite car_step_mid by (unfold car_bound; lia). by rewrite <- app_assoc.
Qed.

Lemma car25519_spec o : length o = 16%nat -> limbs_in (- car_bound + 2 ^ 46) (car_bound - 2 ^ 46) o ->
  car25519 o = car_spec o.
Proof.
  intros Hl Ho. unfold car25519, car_spec.
  destruct (car25519_prefix o Hl Ho 15 ltac:(lia)) as (d & x & rest & He & Hd & Hc & Hf).
  rewrite for_loop_S, Hf. assert (rest = []) as ->.
  { apply nil_length_inv. rewrite He, length_app in Hl. cbn in Hl. lia. }
  assert (- car_bound + 2 ^ 46 <= x <= car_bound - 2 ^ 46) as Hx.
  { rewrite He in Ho. apply Forall_app in Ho as [_ Ho]. by apply Forall_cons in Ho as [? _]. }
  rewrite He, carry_list_app. cbn [carry_list].
  pose proof (carry_list_length 0 d) as Hdl. pose proof (carry_list_range 0 d) as Hr.
  destruct (carry_list 0 d) as [d' c]. cbn [fst snd] in *.
  destruct d' as [|a d']; [cbn in Hdl; lia|]. apply Forall_cons in Hr as [Ha _].
  unfold car_bound in *. change (0 + 15)%nat with 15%nat.
  change ((a :: d') ++ ?t) with (a :: d' ++ t).
  by rewrite car_step_last by (unfold car_bound; cbn in *; lia).
Qed.

(** Folding [2^256 = 38] keeps the value modulo [p]. *)
Lemma car_spec_eval o : length o = 16%nat -> eval16 (car_spec o) mod p25519 = eval16 o mod p25519.
Proof.
  intros Hl. unfold car_spec. pose proof (carry_list_eval 0 o) as He.
  pose proof (carry_list_length 0 o) as Hll. destruct (carry_list 0 o) as [l c]. cbn [fst snd] in *.
  rewrite eval16_insert by lia. rewrite Hl in He. change (65536 ^ Z.of_nat 16) with (2 * p25519 + 38) in He.
  replace (eval16 o) with (eval16 l + 38 * c + 2 * c * p25519) by lia. rewrite Z.mod_add by done.
  f_equal. change (65536 ^ Z.of_nat 0) with 1. lia.
Qed.

Lemma length_car_spec o : length (car_spec o) = length o.
Proof.
  unfold car_spec. pose proof (carry_list_length 0 o). destruct (carry_list 0 o).
  by rewrite length_insert.
Qed.

(** A reduced element: what [gf_M] returns. *)
Definition tight (o : list Z) : Prop :=
  exists h t, o = h :: t /\ -38 <= h <= 65573 /\ limbs_in 0 65535 t /\ length t = 15%nat.
(** What [gf_A] and [gf_Z] make of reduced elements, and [gf_M] accepts. *)
Definition loose (o : list Z) : Prop := length o = 16%nat /\ limbs_in (-131200) 131200 o.
(** Canonical limbs. *)
Definition canonical (o : list Z) : Prop := length o = 16%nat /\ limbs_in 0 65535 o.

Lemma carry_list_unit c l : limbs_in 0 65535 l -> -1 <= c <= 1 ->
  -1 <= (carry_list c l).2 <= 1 /\ ((carry_list c l).2 = 0 \/ (carry_list c l).2 = c).
Proof.
  intros Hl. revert c. induction Hl as [|x l Hx Hl IH]; intros c Hc; cbn [carry_list fst snd]; [lia|].
  specialize (IH ((x + c) / 65536) ltac:(lia)). destruct (carry_list _ l). cbn [fst snd] in *. lia.
Qed.

Lemma car_spec_first o : length o = 16%nat -> limbs_in (- car_bound + 2 ^ 46) (car_bound - 2 ^ 46) o ->
  exists h t, car_spec o = h :: t /\ - 2 ^ 51 <= h <= 2 ^ 51 /\ limbs_in 0 65535 t /\ length t = 15%nat.
Proof.
  intros Hl Ho. unfold car_spec.
  pose proof (carry_list_bound car_bound (2 ^ 45) 0 o) as Hb. pose proof (carry_list_range 0 o) as Hr.
  pose proof (carry_list_length 0 o) as Hll. destruct (carry_list 0 o) as [l c]. cbn [fst snd] in *.
  destruct Hb; [unfold car_bound; lia|by eapply limbs_in_weaken; [..|exact Ho]; lia|lia|].
  destruct l as [|x l]; [cbn in Hll; lia|]. apply Forall_cons in Hr as [Hx Hr].
  exists (x + 38 * c), l. split; [reflexivity|]. cbn [length] in Hll. split; [lia|]. split; [done|lia].
Qed.

Lemma car_spec_second h t : - 2 ^ 51 <= h <= 2 ^ 51 -> limbs_in 0 65535 t -> length t = 15%nat ->
  tight (car_spec (h :: t)).
Proof.
  intros Hh Ht Hl. unfold car_spec. cbn [carry_list]. rewrite Z.add_0_r.
  assert (- 2 ^ 35 <= h / 65536 <= 2 ^ 35) as Hq by lia. set (q0 := h / 65536) in *. clearbody q0.
  destruct t as [|t1 [|t2 [|t3 t]]]; try discriminate Hl. cbn [carry_list].
  apply Forall_cons in Ht as [Ht1 [Ht2 [Ht3 Ht]%Forall_cons]%Forall_cons].
  assert (- 2 ^ 20 <= (t1 + q0) / 65536 <= 2 ^ 20) by lia. set (q1 := (t1 + q0) / 65536) in *. clearbody q1.
  assert (- 33 <= (t2 + q1) / 65536 <= 33) by lia. set (q2 := (t2 + q1) / 65536) in *. clearbody q2.
  assert (- 1 <= (t3 + q2) / 65536 <= 1) as Hq3 by lia.
  destruct (carry_list_unit ((t3 + q2) / 65536) t) as [Hc _]; [done|done|].
  pose proof (carry_list_range ((t3 + q2) / 65536) t) as Hr. pose proof (carry_list_length ((t3 + q2) / 65536) t) as Hll.
  destruct (carry_list _ t) as [t' c]. cbn [fst snd length] in *.
  eexists _, _. split; [reflexivity|]. cbn [ix nth length]. split_and!; try lia.
  repeat apply Forall_cons_2; try lia. done.
Qed.

Lemma tight_loose o : tight o -> loose o.
Proof.
  intros (h & t & -> & Hh & Ht & Hl). split; [cbn; lia|]. apply Forall_cons_2; [lia|].
  eapply limbs_in_weaken; [..|exact Ht]; lia.
Qed.

Lemma loose_car_bounds o : loose o -> limbs_in (- car_bound + 2 ^ 46) (car_bound - 2 ^ 46) o.
Proof. intros [_ Ho]. eapply limbs_in_weaken; [..|exact Ho]; unfold car_bound; lia. Qed.

Lemma canonical_tight o : canonical o -> tight o.
Proof.
  intros [Hl Ho]. destruct o as [|h t]; [done|]. apply Forall_cons in Ho as [Hh Ht].
  exists h, t. cbn in Hl. split_and!; try done; lia.
Qed.

(** A pass over a reduced element leaves canonical limbs. *)
Lemma car_spec_third o : tight o -> canonical (car_spec o).
Proof.
  intros (h & t & -> & Hh & Ht & Hl). unfold car_spec. cbn [carry_list]. rewrite Z.add_0_r.
  assert (-1 <= h / 65536 <= 1) as Hq by lia.
  destruct (carry_list_unit (h / 65536) t Ht Hq) as [Hc Hc'].
  pose proof (carry_list_range (h / 65536) t) as Hr. pose proof (carry_list_length (h / 65536) t) as Hll.
  destruct (carry_list _ t) as [t' c]. cbn [fst snd length] in *.
  split; [cbn; lia|]. apply Forall_cons_2; [|done]. change ((h mod 65536 :: t').[0]) with (h mod 65536). lia.
Qed.

Lemma car_bounds_wide B o : B <= car_bound - 2 ^ 46 -> limbs_in (- B) B o ->
  limbs_in (- car_bound + 2 ^ 46) (car_bound - 2 ^ 46) o.
Proof. intros HB. apply limbs_in_weaken; lia. Qed.

Lemma car2_spec o : length o = 16%nat -> limbs_in (- car_bound + 2 ^ 46) (car_bound - 2 ^ 46) o ->
  tight (car25519 (car25519 o)) /\ eval16 (car25519 (car25519 o)) mod p25519 = eval16 o mod p25519.
Proof.
  intros Hl Ho. rewrite (car25519_spec o) by done.
  destruct (car_spec_first o Hl Ho) as (h & t & He & Hh & Ht & Htl). rewrite He.
  rewrite car25519_spec; [|cbn; lia|].
  - split; [by apply car_spec_second|]. rewrite car_spec_eval by (cbn; lia).
    rewrite <- He. by apply car_spec_eval.
  - unfold car_bound. apply Forall_cons_2; [lia|]. eapply limbs_in_weaken; [..|exact Ht]; lia.
Qed.

Lemma car3_spec o : length o = 16%nat -> limbs_in (- car_bound + 2 ^ 46) (car_bound - 2 ^ 46) o ->
  canonical (car25519 (car25519 (car25519 o))) /\
  eval16 (car25519 (car25519 (car25519 o))) mod p25519 = eval16 o mod p25519.
Proof.
  intros Hl Ho. destruct (car2_spec o Hl Ho) as [Ht He]. destruct (tight_loose _ Ht) as [Hl2 Hb2].
  assert (limbs_in (- car_bound + 2 ^ 46) (car_bound - 2 ^ 46) (car25519 (car25519 o))).
  { eapply limbs_in_weaken; [..|exact Hb2]; unfold car_bound; lia. }
  rewrite (car25519_spec (car25519 _)) by done.
  split; [by apply car_spec_third|]. by rewrite car_spec_eval.
Qed.

(** ** Addition, subtraction, multiplication *)

Lemma eval16_zip (f : Z -> Z -> Z) (k : Z) a b :
  (forall x y, f x y = x + k * y) -> length a = 16%nat -> length b = 16%nat ->
  eval16 (map (fun i => f a.[i] b.[i]) (seq 0 16)) = eval16 a + k * eval16 b.
Proof.
  intros Hf Ha Hb.
  assert (forall n a b, length a = n -> length b = n ->
    eval16 (map (fun i => f a.[i] b.[i]) (seq 0 n)) = eval16 a + k * eval16 b) as H; [|by apply H].
  clear - Hf. induction n as [|n IH]; intros a b Ha Hb.
  - apply nil_length_inv in Ha as ->, Hb as ->. cbn. lia.
  - destruct a as [|x a], b as [|y b]; try discriminate. cbn [seq map eval16].
    rewrite <- seq_shift, map_map. change ((x :: a).[0]) with x. change ((y :: b).[0]) with y.
    change (fun i => f (x :: a).[S i] (y :: b).[S i]) with (fun i => f a.[i] b.[i]).
    rewrite IH by (cbn in *; lia). rewrite Hf. lia.
Qed.

Lemma gf_A_spec a b : tight a -> tight b -> loose (gf_A a b) /\ eval16 (gf_A a b) = eval16 a + eval16 b.
Proof.
  intros Ha Hb. destruct (tight_loose _ Ha) as [Hla _], (tight_loose _ Hb) as [Hlb _].
  assert (forall o i, tight o -> -38 <= o.[i] <= 65573) as HT.
  { intros o i (h & t & -> & Hh & Ht & _). apply ix_Forall; [|lia].
    apply Forall_cons_2; [lia|]. eapply limbs_in_weaken; [..|exact Ht]; lia. }
  assert (gf_A a b = map (fun i => a.[i] + b.[i]) (seq 0 16)) as ->.
  { unfold gf_A. apply map_ext. intros i. apply i64_id. pose proof (HT a i Ha). pose proof (HT b i Hb). lia. }
  split; [|rewrite (eval16_zip Z.add 1) by (done || lia); lia]. split; [done|].
  apply Forall_map, Forall_true. intros i. pose proof (HT a i Ha). pose proof (HT b i Hb). cbn. lia.
Qed.

Lemma gf_Z_spec a b : tight a -> tight b -> loose (gf_Z a b) /\ eval16 (gf_Z a b) = eval16 a - eval16 b.
Proof.
  intros Ha Hb. destruct (tight_loose _ Ha) as [Hla _], (tight_loose _ Hb) as [Hlb _].
  assert (forall o i, tight o -> -38 <= o.[i] <= 65573) as HT.
  { intros o i (h & t & -> & Hh & Ht & _). apply ix_Forall; [|lia].
    apply Forall_cons_2; [lia|]. eapply limbs_in_weaken; [..|exact Ht]; lia. }
  assert (gf_Z a b = map (fun i => a.[i] - b.[i]) (seq 0 16)) as ->.
  { unfold gf_Z. apply map_ext. intros i. apply i64_id. pose proof (HT a i Ha). pose proof (HT b i Hb). lia. }
  split; [|rewrite (eval16_zip Z.sub (-1)) by (done || lia); lia]. split; [done|].
  apply Forall_map, Forall_true. intros i. pose proof (HT a i Ha). pose proof (HT b i Hb). cbn. lia.
Qed.

Lemma eval16_take_S l n : (n < length l)%nat ->
  eval16 (take (S n) l) = eval16 (take n l) + l.[n] * 65536 ^ Z.of_nat n.
Proof.
  intros Hn. destruct (lookup_lt_is_Some_2 l n Hn) as [x Hx]. rewrite (ix_lookup _ _ _ Hx).
  rewrite (take_S_r _ _ _ Hx), eval16_app, length_take, Nat.min_l by lia. cbn [eval16]. lia.
Qed.

(** The largest product of two accepted limbs. *)
Definition prod_bound : Z := 131200 * 131200.

Lemma abs_mul_bound x y : -131200 <= x <= 131200 -> -131200 <= y <= 131200 ->
  - prod_bound <= x * y <= prod_bound.
Proof. unfold prod_bound. nia. Qed.

Section Multiply.
Context (a b : list Z) (Ha : loose a) (Hb : loose b).

(** One row of the schoolbook product. *)
Lemma M_row_spec i t B : (i < 16)%nat -> length t = 31%nat -> limbs_in (- B) B t ->
  0 <= B <= 240 * prod_bound ->
  length (M_row a b t i) = 31%nat /\ limbs_in (- (B + 16 * prod_bound)) (B + 16 * prod_bound) (M_row a b t i) /\
  eval16 (M_row a b t i) = eval16 t + a.[i] * 65536 ^ Z.of_nat i * eval16 b.
Proof.
  intros Hi Hl Ht HB. destruct Ha as [Hla Hba], Hb as [Hlb Hbb]. unfold M_row.
  destruct (for_loop_inv (fun j t' => length t' = 31%nat /\
      limbs_in (- (B + Z.of_nat j * prod_bound)) (B + Z.of_nat j * prod_bound) t' /\
      eval16 t' = eval16 t + a.[i] * 65536 ^ Z.of_nat i * eval16 (take j b))
    0 16 (fun t j => <[(i + j)%nat := i64 (t.[i + j] + i64 (a.[i] * b.[j]))]> t) t) as (H1 & H2 & H3).
  - split; [done|]. rewrite take_0. cbn [eval16]. split; [|lia].
    eapply limbs_in_weaken; [..|exact Ht]; lia.
  - intros j t' Hj (Hl' & Hr & He).
    pose proof (limbs_in_ix _ _ a i Hba ltac:(lia)) as Hai.
    pose proof (limbs_in_ix _ _ b j Hbb ltac:(lia)) as Hbj.
    pose proof (limbs_in_ix _ _ t' (i + j) Hr ltac:(lia)) as Hti.
    pose proof (abs_mul_bound _ _ Hai Hbj) as Hp.
    assert (i64 (t'.[i + j] + i64 (a.[i] * b.[j])) = t'.[i + j] + a.[i] * b.[j]) as ->.
    { unfold prod_bound in *. rewrite !i64_id; [reflexivity|lia|]. rewrite i64_id by lia. lia. }
    split; [by rewrite length_insert|]. split.
    + apply Forall_insert; [|cbn beta; lia]. eapply limbs_in_weaken; [..|exact Hr]; unfold prod_bound; lia.
    + rewrite eval16_insert, He, eval16_take_S by lia. rewrite Nat2Z.inj_add, Z.pow_add_r by lia. ring.
  - change (0 + 16)%nat with 16%nat in *. rewrite (take_ge b) in H3 by lia. split_and!; try done.
Qed.

(** The double loop multiplies; no 64-bit operation wraps. *)
Lemma product_spec (t := for_loop 0 16 (M_row a b) (zeros 31)) :
  length t = 31%nat /\ limbs_in (- (256 * prod_bound)) (256 * prod_bound) t /\
  eval16 t = eval16 a * eval16 b.
Proof.
  destruct Ha as [Hla Hba].
  destruct (for_loop_inv (fun i t' => length t' = 31%nat /\
      limbs_in (- (Z.of_nat i * 16 * prod_bound)) (Z.of_nat i * 16 * prod_bound) t' /\
      eval16 t' = eval16 (take i a) * eval16 b)
    0 16 (M_row a b) (zeros 31)) as (H1 & H2 & H3).
  - split; [done|]. rewrite take_0, eval16_zeros. cbn [eval16]. split; [|lia].
    apply Forall_replicate. lia.
  - intros i t' Hi (Hl' & Hr & He). unfold prod_bound in *.
    destruct (M_row_spec i t' (Z.of_nat i * 16 * prod_bound)) as (G1 & G2 & G3); try done;
      [lia|unfold prod_bound; lia|].
    split; [done|]. split.
    + eapply limbs_in_weaken; [..|exact G2]; unfold prod_bound; lia.
    + rewrite G3, He, eval16_take_S by lia. ring.
  - change (0 + 16)%nat with 16%nat in *. rewrite (take_ge a) in H3 by lia. split_and!; try done.
Qed.

End Multiply.

(** The reduction loop adds 38 times the upper limbs to the lower ones. *)
Lemma fold38_spec t B : length t = 31%nat -> limbs_in (- B) B t -> 0 <= B <= 256 * prod_bound ->
  let t' := for_loop 0 15 (fun t i => <[i := i64 (t.[i] + i64 (38 * t.[i + 16]))]> t) t in
  length t' = 31%nat /\ limbs_in (- (39 * B)) (39 * B) (take 16 t') /\
  eval16 (take 16 t') = eval16 (take 16 t) + 38 * eval16 (drop 16 t).
Proof.
  intros Hl Ht HB t'.
  destruct (for_loop_inv (fun n t' => length t' = 31%nat /\ drop 16 t' = drop 16 t /\
      limbs_in (- (39 * B)) (39 * B) (take 16 t') /\ (forall k, (n <= k < 16)%nat -> t'.[k] = t.[k]) /\
      eval16 (take 16 t') = eval16 (take 16 t) + 38 * eval16 (take n (drop 16 t)))
    0 15 (fun t i => <[i := i64 (t.[i] + i64 (38 * t.[i + 16]))]> t) t) as (H1 & H2 & H3 & H4 & H5).
  - split_and!; try done; [|rewrite take_0; cbn [eval16]; lia].
    apply Forall_take. eapply limbs_in_weaken; [..|exact Ht]; lia.
  - intros i u Hi (Hul & Hud & Hur & Huk & Hue).
    assert (u.[i + 16] = t.[i + 16]) as Hu16 by (rewrite (Nat.add_comm i), <- !ix_drop; by rewrite Hud).
    pose proof (limbs_in_ix _ _ t i Ht ltac:(lia)) as Hti.
    pose proof (limbs_in_ix _ _ t (i + 16) Ht ltac:(lia)) as Ht16.
    rewrite Hu16, (Huk i) by lia. unfold prod_bound in HB.
    rewrite (i64_id (38 * _)), i64_id by lia. split; [by rewrite length_insert|].
    split; [by rewrite drop_insert_lt by lia|]. rewrite take_insert_lt by lia. split.
    { apply Forall_insert; [done|]. lia. }
    split; [intros k Hk; rewrite ix_insert_ne by lia; apply Huk; lia|].
    rewrite eval16_insert, Hue, (eval16_take_S (drop 16 t)) by (rewrite ?length_take, ?length_drop; lia).
    rewrite ix_take, ix_drop, (Huk i), (Nat.add_comm 16) by lia. ring.
  - change (0 + 15)%nat with 15%nat in *. rewrite (take_ge (drop 16 t)) in H5 by (rewrite length_drop; lia). by split_and!.
Qed.

(** Multiplication: reduced output, product modulo [p]. *)
Lemma gf_M_spec a b : loose a -> loose b ->
  tight (gf_M a b) /\ eval16 (gf_M a b) mod p25519 = (eval16 a * eval16 b) mod p25519.
Proof.
  intros Ha Hb. unfold gf_M. destruct (product_spec a b Ha Hb) as (Hl & Hr & He).
  set (t := for_loop 0 16 _ _) in *.
  destruct (fold38_spec t _ Hl Hr ltac:(unfold prod_bound; lia)) as (Hl2 & Hr2 & He2).
  set (t' := for_loop 0 15 _ _) in *.
  destruct (car2_spec (take 16 t')) as [Htt Hev].
  - rewrite length_take. lia.
  - eapply limbs_in_weaken; [..|exact Hr2]; unfold car_bound, prod_bound; lia.
  - split; [exact Htt|]. rewrite Hev, He2, <- He. rewrite <- (take_drop 16 t) at 3.
    rewrite eval16_app, length_take, Nat.min_l by lia. change (65536 ^ Z.of_nat 16) with (38 + 2 * p25519).
    generalize (eval16 (take 16 t)), (eval16 (drop 16 t)). intros x y.
    rewrite <- (Z.mod_add (x + 38 * y) (2 * y) p25519) by done. f_equal. lia.
Qed.

(** ** Selection and encoding *)

Lemma sel25519_spec p q (swap : bool) : length p = 16%nat -> length q = 16%nat ->
  sel25519 p q (if swap then 1 else 0) = if swap then (q, p) else (p, q).
Proof.
  intros Hp Hq. unfold sel25519. set (c := Z.lnot _).
  assert (forall x y, Z.lxor x (Z.land c (Z.lxor x y)) = if swap then y else x) as Hx.
  { intros x y. unfold c. destruct swap.
    - change (Z.lnot (1 - 1)) with (-1). by rewrite Z.land_m1_l, <- Z.lxor_assoc, Z.lxor_nilpotent, Z.lxor_0_l.
    - change (Z.lnot (0 - 1)) with 0. by rewrite Z.land_0_l, Z.lxor_0_r. }
  assert (forall x y, Z.lxor y (Z.land c (Z.lxor x y)) = if swap then x else y) as Hy.
  { intros x y. rewrite (Z.lxor_comm x y). by rewrite Hx. }
  destruct (for_loop_inv (fun n pq => length pq.1 = 16%nat /\ length pq.2 = 16%nat /\
      forall j, (j < 16)%nat -> pq.1.[j] = (if (swap && bool_decide (j < n)%nat) then q.[j] else p.[j]) /\
                 pq.2.[j] = (if (swap && bool_decide (j < n)%nat) then p.[j] else q.[j]))
    0 16 (sel_step c) (p, q)) as (H1 & H2 & H3).
  - split_and!; try done. intros j Hj. by rewrite bool_decide_eq_false_2, andb_false_r by lia.
  - intros i [p' q'] Hi (Hp' & Hq' & Hv). cbn [fst snd] in *. unfold sel_step. cbn [fst snd].
    rewrite !length_insert. split_and!; try done. intros j Hj.
    rewrite !ix_insert by lia. rewrite Hx, Hy. destruct (Hv i ltac:(lia)) as [-> ->].
    destruct (Hv j Hj) as [-> ->].
    rewrite (bool_decide_eq_false_2 (i < i)%nat), andb_false_r by lia.
    destruct (decide (i = j)) as [<-|Hne].
    + rewrite bool_decide_eq_true_2, andb_true_r by lia. done.
    + destruct (decide (j < i)%nat).
      * by rewrite !bool_decide_eq_true_2 by lia.
      * by rewrite !bool_decide_eq_false_2 by lia.
  - change (0 + 16)%nat with 16%nat in *.
    destruct (for_loop 0 16 (sel_step c) (p, q)) as [p' q']. cbn [fst snd] in *.
    assert (p' = (if swap then q else p) /\ q' = (if swap then p else q)) as [-> ->]; [|by destruct swap].
    split; apply ix_ext; try (by destruct swap; lia); intros j Hj; rewrite ?H1, ?H2 in Hj;
      destruct (H3 j Hj) as [G1 G2]; rewrite ?G1, ?G2, bool_decide_eq_true_2, andb_true_r by done;
      by destruct swap.
Qed.

(** Limbs and bytes. *)
Lemma eval16_bytes n l : length l = (2 * n)%nat ->
  eval16 (map (fun i => l.[2 * i] + 256 * l.[2 * i + 1]) (seq 0 n)) = le_val l.
Proof.
  revert l. induction n as [|n IH]; intros l Hl.
  - apply nil_length_inv in Hl as ->. done.
  - destruct l as [|x [|y l]]; try (cbn in Hl; lia).
    cbn [seq map eval16 le_val]. rewrite <- seq_shift, map_map.
    rewrite (map_ext _ (fun i => l.[2 * i] + 256 * l.[2 * i + 1])).
    + rewrite IH by (cbn in Hl; lia). change ((x :: y :: l).[2 * 0]) with x.
      change ((x :: y :: l).[2 * 0 + 1]) with y. lia.
    + intros i. replace (2 * S i)%nat with (S (S (2 * i))) by lia. done.
Qed.

Lemma unpack25519_spec n : wf_bytes n -> length n = 32%nat ->
  canonical (unpack25519 n) /\ eval16 (unpack25519 n) = le_val n mod 2 ^ 255.
Proof.
  intros Hn Hl. unfold unpack25519.
  assert (map (fun i => n.[2 * i] + Z.shiftl n.[2 * i + 1] 8) (seq 0 16) =
    map (fun i => n.[2 * i] + 256 * n.[2 * i + 1]) (seq 0 16)) as ->.
  { apply map_ext. intros i. rewrite Z.shiftl_mul_pow2 by lia. lia. }
  pose proof (eval16_bytes 16 n Hl) as He. set (o := map _ _) in *.
  assert (canonical o) as [Hol Hor].
  { split; [by unfold o; len|]. apply Forall_map, Forall_true. intros i.
    pose proof (ix_byte n (2 * i) Hn). pose proof (ix_byte n (2 * i + 1) Hn). unfold is_byte in *. cbn beta. lia. }
  pose proof (limbs_in_ix _ _ o 15 Hor ltac:(lia)) as H15.
  assert (Z.land o.[15] 0x7fff = o.[15] mod 32768) as Em by (apply (land_mask_mod _ 15); lia).
  rewrite Em. split.
  - split; [by rewrite length_insert|]. apply Forall_insert; [done|]. cbn. lia.
  - rewrite eval16_insert by lia. rewrite He.
    pose proof (le_val_bound n Hn) as Hb. rewrite Hl in Hb.
    assert (eval16 (take 15 o) + o.[15] * 65536 ^ Z.of_nat 15 = le_val n) as Hs.
    { rewrite <- eval16_take_S by lia. rewrite take_ge by lia. done. }
    pose proof (eval16_range (take 15 o) ltac:(by apply Forall_take)) as Hr.
    rewrite length_take, Nat.min_l in Hr by lia. change (65536 ^ Z.of_nat 15) with (2 ^ 240) in *.
    rewrite <- Hs. generalize dependent (eval16 (take 15 o)). intros x _ Hx.
    generalize dependent (o.[15]). intros y _ Hy. clear - Hx Hy.
    apply (Zmod_unique _ _ (y / 32768)); [|change (2 ^ 255) with (32768 * 2 ^ 240)]; lia.
Qed.

(** The limbs of [p]. *)
Definition p_limbs : list Z := 0xffed :: replicate 14 0xffff ++ [0x7fff].

Lemma borrow_bit x : -65536 <= x <= 65535 -> Z.land (Z.shiftr x 16) 1 = if decide (x < 0) then 1 else 0.
Proof.
  intros Hx. rewrite (land_mask_mod _ 1), Z.shiftr_div_pow2 by lia. case_decide; lia.
Qed.

Lemma low16 x : Z.land x 0xffff = x mod 65536.
Proof. apply (land_mask_mod x 16). lia. Qed.

Lemma p_limb i : (1 <= i < 15)%nat -> p_limbs.[i] = 0xffff.
Proof. intros Hi. do 15 (destruct i as [|i]; [try lia; reflexivity|]). lia. Qed.

(** The borrow chain: [m := t - p], limb by limb. *)
Lemma pack_chain t m : canonical t -> length m = 16%nat ->
  let m1 := for_loop 1 14 (pack_step t) (<[0%nat := i64 (t.[0] - 0xffed)]> m) in
  length m1 = 16%nat /\ limbs_in 0 65535 (take 14 m1) /\ -65536 <= m1.[14] <= 65535 /\
  eval16 (take 15 m1) = eval16 (take 15 t) - eval16 (take 15 p_limbs).
Proof.
  intros [Htl Htr] Hml m1.
  destruct (for_loop_inv (fun n m => length m = 16%nat /\ limbs_in 0 65535 (take (n - 1) m) /\
      -65536 <= m.[n - 1] <= 65535 /\ eval16 (take n m) = eval16 (take n t) - eval16 (take n p_limbs))
    1 14 (pack_step t) (<[0%nat := i64 (t.[0] - 0xffed)]> m)) as (H1 & H2 & H3 & H4).
  - pose proof (limbs_in_ix _ _ t 0 Htr ltac:(lia)) as Ht0. rewrite i64_id by lia.
    rewrite length_insert. change (1 - 1)%nat with 0%nat. rewrite ix_insert_eq, take_0 by lia.
    split_and!; try done; [constructor|lia|lia|].
    rewrite !(eval16_take_S _ 0), ix_insert_eq, !take_0 by (rewrite ?length_insert; try lia; cbn; lia).
    change (p_limbs.[0]) with 65517. cbn [eval16]. lia.
  - intros i u Hi (Hul & Hur & Hui & Hue).
    pose proof (limbs_in_ix _ _ t i Htr ltac:(lia)) as Hti.
    unfold pack_step. rewrite borrow_bit by done.
    set (bo := if decide (u.[i - 1] < 0) then 1 else 0).
    assert (u.[i - 1] mod 65536 = u.[i - 1] + 65536 * bo /\ 0 <= bo <= 1) as [Hmod Hbo]
      by (unfold bo; case_decide; lia).
    rewrite i64_id by lia. rewrite !length_insert. rewrite (ix_insert_ne u) by lia. rewrite low16, Hmod.
    change (S i - 1)%nat with (i - 0)%nat. rewrite Nat.sub_0_r.
    rewrite (ix_insert_ne (<[i := _]> u)), (ix_insert_eq u) by lia.
    split; [done|]. split; [|split; [lia|]].
    + destruct i as [|i]; [lia|]. rewrite Nat.sub_1_r in *. cbn [Nat.pred] in *.
      rewrite (take_S_r _ _ (u.[i] + 65536 * bo)).
      * apply Forall_app_2; [|apply Forall_cons_2; [lia|constructor]].
        by rewrite !take_insert_ge by lia.
      * apply list_lookup_insert_eq. rewrite length_insert. lia.
    + rewrite eval16_take_S, (take_insert_lt _ i (i - 1)), (take_insert_ge _ i i) by (rewrite ?length_insert; lia).
      rewrite (ix_insert_ne (<[i := _]> u)), (ix_insert_eq u) by lia.
      rewrite eval16_insert, ix_take by (rewrite ?length_take; lia).
      rewrite (eval16_take_S t), (eval16_take_S p_limbs), p_limb, Hue by (done || cbn; lia).
      replace (65536 ^ Z.of_nat i) with (65536 * 65536 ^ Z.of_nat (i - 1)).
      * lia.
      * rewrite <- Z.pow_succ_r by lia. f_equal. lia.
  - change (1 + 14)%nat with 15%nat in *. change (15 - 1)%nat with 14%nat in *. fold m1 in H1, H2, H3, H4. split_and!; try done; lia.
Qed.

Lemma p_limbs_low : eval16 (take 15 p_limbs) = p25519 - 0x7fff * 65536 ^ Z.of_nat 15.
Proof. vm_compute. reflexivity. Qed.
Lemma pow_15 : 65536 ^ Z.of_nat 15 = 65536 * 65536 ^ Z.of_nat 14.
Proof. vm_compute. reflexivity. Qed.

Lemma mask_borrow x (bo := if decide (x < 0) then 1 else 0) : -65536 <= x <= 65535 ->
  x mod 65536 = x + 65536 * bo /\ 0 <= bo <= 1.
Proof. intros. unfold bo. case_decide; lia. Qed.

(** [m] after the whole borrow chain: [t - p], its top limb left signed. *)
Lemma pack_difference t m1 (x := t.[15] - 0x7fff - (if decide (m1.[14] < 0) then 1 else 0)) :
  canonical t -> length m1 = 16%nat -> limbs_in 0 65535 (take 14 m1) -> -65536 <= m1.[14] <= 65535 ->
  eval16 (take 15 m1) = eval16 (take 15 t) - eval16 (take 15 p_limbs) ->
  exists low, length low = 15%nat /\ limbs_in 0 65535 low /\
    <[14%nat := Z.land m1.[14] 0xffff]> (<[15%nat := x]> m1) = low ++ [x] /\
    eval16 (low ++ [x]) = eval16 t - p25519.
Proof.
  intros [Htl Htr] Hl1 Hr1 H14 He1. unfold x. clear x.
  destruct (mask_borrow _ H14) as [Hmod Hbo]. set (bo := if decide (m1.[14] < 0) then 1 else 0) in *.
  set (x := t.[15] - 0x7fff - bo). rewrite low16, Hmod. clearbody bo.
  set (y := m1.[14] + 65536 * bo) in *. exists (take 14 m1 ++ [y]).
  assert (length (take 14 m1 ++ [y]) = 15%nat) as Hlow_len by (rewrite length_app, length_take, Hl1; reflexivity).
  split; [done|]. split; [apply Forall_app_2; [done|apply Forall_cons_2; [unfold y; lia|constructor]]|]. split.
  - apply ix_ext; [rewrite !length_insert, length_app, Hlow_len, Hl1; reflexivity|].
    rewrite !length_insert, Hl1. intros k Hk. rewrite <- app_assoc.
    rewrite (ix_insert (<[15%nat := x]> m1) 14 k), (ix_insert m1 15 k) by (rewrite ?length_insert; lia).
    destruct (decide (14%nat = k)) as [<-|]; [by rewrite ix_app_r by len; rewrite length_take, Hl1|].
    destruct (decide (15%nat = k)) as [<-|]; [by rewrite ix_app_r by len; rewrite length_take, Hl1|].
    rewrite ix_app_l, ix_take by (rewrite ?length_take; lia). done.
  - rewrite eval16_app, Hlow_len, eval16_app, length_take, Hl1. cbn [eval16]. rewrite !Z.mul_0_r, !Z.add_0_r.
    assert (eval16 t = eval16 (take 15 t) + t.[15] * 65536 ^ Z.of_nat 15) as ->
      by (rewrite <- eval16_take_S, take_ge by lia; reflexivity).
    rewrite p_limbs_low, (eval16_take_S m1 14) in He1 by lia. rewrite pow_15 in *.
    change (Nat.min 14 16) with 14%nat. generalize dependent (65536 ^ Z.of_nat 14). intros e. unfold x, y. lia.
Qed.

(** One round subtracts [p] when the value is at least [p]. *)
Lemma pack_round_spec t m j : canonical t -> length m = 16%nat ->
  canonical (pack_round (t, m) j).1 /\ length (pack_round (t, m) j).2 = 16%nat /\
  eval16 (pack_round (t, m) j).1 = if decide (p25519 <= eval16 t) then eval16 t - p25519 else eval16 t.
Proof.
  intros Ht Hml. pose proof Ht as [Htl Htr]. unfold pack_round.
  destruct (pack_chain t m Ht Hml) as (Hl1 & Hr1 & H14 & He1).
  generalize dependent (for_loop 1 14 (pack_step t) (<[0%nat := i64 (t.[0] - 0xffed)]> m)).
  intros m1 Hl1 Hr1 H14 He1.
  destruct (pack_difference t m1 Ht Hl1 Hr1 H14 He1) as (low & Hll & Hlr & Hm & Hev).
  rewrite borrow_bit by done.
  destruct (mask_borrow _ H14) as [_ Hbo]. set (bo := if decide (m1.[14] < 0) then 1 else 0) in *. clearbody bo.
  pose proof (limbs_in_ix _ _ t 15 Htr ltac:(lia)) as Ht15. rewrite i64_id by lia.
  set (x := t.[15] - 0x7fff - bo) in *.
  rewrite (ix_insert_eq m1), (ix_insert_ne m1), Hm, borrow_bit by lia.
  pose proof (eval16_range low Hlr) as Hlow. rewrite Hll in Hlow.
  assert (x < 0 <-> eval16 t < p25519) as Hx.
  { rewrite eval16_app, Hll in Hev. cbn [eval16] in Hev. clear - Hlow Hev.
    assert (0 < 65536 ^ Z.of_nat 15) by (apply Z.pow_pos_nonneg; lia).
    generalize dependent (65536 ^ Z.of_nat 15). intros e. split; intros; nia. }
  assert (length (low ++ [x]) = 16%nat) as Hl2 by (rewrite length_app, Hll; reflexivity).
  replace (1 - (if decide (x < 0) then 1 else 0)) with (if negb (bool_decide (x < 0)) then 1 else 0)
    by (destruct (decide (x < 0)); [by rewrite bool_decide_eq_true_2|by rewrite bool_decide_eq_false_2]).
  rewrite sel25519_spec by done. destruct (decide (x < 0)) as [Hneg|Hneg].
  - rewrite bool_decide_eq_true_2 by done. cbn [negb fst snd]. rewrite decide_False by lia. done.
  - rewrite bool_decide_eq_false_2 by done. cbn [negb fst snd]. rewrite decide_True by lia.
    split_and!; try done. split; [done|]. apply Forall_app_2; [done|].
    apply Forall_cons_2; [unfold x in *; lia|constructor].
Qed.

(** Two rounds bring any canonical limb list below [p]. *)
Lemma pack_rounds_spec t : canonical t ->
  let t' := (for_loop 0 2 pack_round (t, zeros 16)).1 in
  canonical t' /\ eval16 t' = eval16 t mod p25519.
Proof.
  intros Ht t'. unfold t'. rewrite !for_loop_S, for_loop_0.
  destruct (pack_round_spec t (zeros 16) (0 + 0) Ht eq_refl) as (Hc & Hm & He).
  destruct (pack_round (t, zeros 16) (0 + 0)) as [t1 m1]. cbn [fst snd] in *.
  destruct (pack_round_spec t1 m1 (0 + 1) Hc Hm) as (Hc2 & _ & He2).
  destruct (pack_round (t1, m1) (0 + 1)) as [t2 m2]. cbn [fst snd] in *.
  split; [done|]. rewrite He2, He. destruct Ht as [Hl Hr]. pose proof (eval16_range t Hr) as Hb. rewrite Hl in Hb.
  change (65536 ^ Z.of_nat 16) with (2 * p25519 + 38) in Hb. assert (38 < p25519) as Hp by done.
  generalize dependent (eval16 t). generalize dependent p25519. intros p _ Hp v Hv Hb. clear - Hp Hb.
  repeat case_decide; first [lia | apply (Zmod_unique _ _ 2); lia | apply (Zmod_unique _ _ 1); lia
    | apply (Zmod_unique _ _ 0); lia].
Qed.

Lemma pack_bytes t : canonical t ->
  for_loop 0 16 (fun o i =>
    let o := <[(2 * i)%nat := u8 (Z.land t.[i] 0xff)]> o in
    <[(2 * i + 1)%nat := u8 (Z.shiftr t.[i] 8)]> o) (zeros 32) = le_bytes 32 (eval16 t).
Proof.
  intros [Hl Hr].
  destruct (for_loop_inv (fun n o => length o = 32%nat /\ wf_bytes o /\
      forall k, (k < n)%nat -> o.[2 * k] = t.[k] mod 256 /\ o.[2 * k + 1] = t.[k] / 256)
    0 16 (fun o i => <[(2 * i + 1)%nat := u8 (Z.shiftr t.[i] 8)]> (<[(2 * i)%nat := u8 (Z.land t.[i] 0xff)]> o))
    (zeros 32)) as (H1 & H2 & H3).
  - split_and!; [done|apply zeros_wf|lia].
  - intros i o Hi (Hol & How & Hok). rewrite !length_insert.
    split; [done|]. split; [apply Forall_insert; [apply Forall_insert; [done|]|]; apply u8_is_byte|].
    pose proof (limbs_in_ix _ _ t i Hr ltac:(lia)) as Hti.
    assert (Z.land t.[i] 0xff = t.[i] mod 256) as -> by (apply (land_mask_mod _ 8); lia).
    rewrite Z.shiftr_div_pow2, !u8_id by (try lia; change (2 ^ 8) with 256; lia). change (2 ^ 8) with 256.
    intros k Hk. rewrite (ix_insert (<[_:=_]> o) _ (2 * k)), (ix_insert o _ (2 * k)),
      (ix_insert (<[_:=_]> o) _ (2 * k + 1)), (ix_insert o _ (2 * k + 1)) by (rewrite ?length_insert; lia).
    destruct (decide (k = i)) as [->|Hne].
    + rewrite !decide_False, !decide_True by lia. done.
    + rewrite !decide_False by lia. apply Hok. lia.
  - cbn zeta. set (o := for_loop _ _ _ _) in *. change (0 + 16)%nat with 16%nat in *.
    rewrite <- (le_bytes_le_val o) by done. rewrite H1. f_equal.
    rewrite <- (eval16_bytes 16) by done. f_equal.
    apply ix_ext; [by rewrite length_map, length_seq|]. rewrite length_map, length_seq. intros k Hk.
    rewrite (ix_map_seq (fun i => o.[2 * i] + 256 * o.[2 * i + 1])) by done.
    destruct (H3 k Hk) as [-> ->]. lia.
Qed.

(** Encoding gives the canonical little-endian residue. *)
Lemma pack25519_spec n : length n = 16%nat -> limbs_in (- car_bound + 2 ^ 46) (car_bound - 2 ^ 46) n ->
  pack25519 n = le_bytes 32 (eval16 n mod p25519).
Proof.
  intros Hl Hr. unfold pack25519. destruct (car3_spec n Hl Hr) as [Hc He].
  destruct (pack_rounds_spec _ Hc) as [Ht Hv]. rewrite <- He, <- Hv.
  destruct (for_loop 0 2 pack_round _) as [t m]. by apply pack_bytes.
Qed.

(** ** Inversion *)

Lemma p25519_pos : 0 < p25519.
Proof. vm_compute. reflexivity. Qed.
Lemma p25519_below : p25519 <= 256 ^ Z.of_nat 32.
Proof. vm_compute. discriminate. Qed.

#[local] Opaque gf_M p25519.

(** The exponent after [n] iterations of [inv25519]. *)
Definition inv_exponent (n : nat) : Z :=
  for_loop 0 n (fun e k => let a := (253 - k)%nat in
    if decide (a <> 2 /\ a <> 4)%nat then 2 * e + 1 else 2 * e) 1.

Lemma inv_exponent_254 : inv_exponent 254 = p25519 - 2.
Proof. with_strategy transparent [p25519] (vm_compute; reflexivity). Qed.

Lemma p25519_nonzero : p25519 <> 0.
Proof. with_strategy transparent [p25519] discriminate. Qed.

Lemma gf_M_mod a b x y : loose a -> loose b -> eval16 a mod p25519 = x mod p25519 ->
  eval16 b mod p25519 = y mod p25519 ->
  tight (gf_M a b) /\ eval16 (gf_M a b) mod p25519 = (x * y) mod p25519.
Proof.
  intros Ha Hb Hx Hy. destruct (gf_M_spec a b Ha Hb) as [Ht He]. split; [done|].
  rewrite He, Z.mul_mod, Hx, Hy, <- Z.mul_mod by apply p25519_nonzero. reflexivity.
Qed.

Lemma inv_exponent_nonneg n : 0 <= inv_exponent n.
Proof.
  unfold inv_exponent. apply (for_loop_inv (fun _ e => 0 <= e)); [lia|].
  intros k e _ He. cbn zeta. case_decide; lia.
Qed.

(** [inv25519] raises to the power [p - 2]. *)
Lemma inv25519_spec i : tight i ->
  tight (inv25519 i) /\ eval16 (inv25519 i) mod p25519 = eval16 i ^ (p25519 - 2) mod p25519.
Proof.
  intros Hi. rewrite <- inv_exponent_254. unfold inv25519.
  assert (forall n, tight (for_loop 0 n (inv_step i) i) /\
    eval16 (for_loop 0 n (inv_step i) i) mod p25519 = eval16 i ^ inv_exponent n mod p25519) as H; [|apply H].
  induction n as [|n [IHt IHe]].
  - split; [done|]. change (inv_exponent 0) with 1. by rewrite Z.pow_1_r.
  - rewrite for_loop_S. unfold inv_exponent. rewrite for_loop_S. fold (inv_exponent n).
    pose proof (inv_exponent_nonneg n) as Hn. rewrite Nat.add_0_l.
    unfold inv_step at 1 3. set (c := for_loop 0 n (inv_step i) i) in *.
    destruct (gf_M_mod c c _ _ (tight_loose _ IHt) (tight_loose _ IHt) IHe IHe) as [Hst Hse].
    rewrite <- Z.pow_add_r, Z.add_diag in Hse by assumption. fold (gf_S c) in Hst, Hse. cbn zeta.
    case_decide.
    + destruct (gf_M_mod (gf_S c) i _ _ (tight_loose _ Hst) (tight_loose _ Hi) Hse eq_refl) as [Hmt Hme].
      split; [assumption|]. rewrite Hme.
      rewrite Z.pow_add_r, Z.pow_1_r by (clear - Hn; lia). reflexivity.
    + by split.
Qed.

(** ** Properties *)

(** multiplication of unreduced elements (limbs up to 131200 in absolute
    value, what one addition or subtraction of reduced elements gives) returns
    a reduced element whose value is the product modulo [2^255 - 19]; in
    particular no [int64_t] wraps on the way. *)
Theorem gf_M_correct (a b : list Z) (Ha : loose a) (Hb : loose b) :
  tight (gf_M a b) /\ loose (gf_M a b) /\
  eval16 (gf_M a b) mod p25519 = (eval16 a * eval16 b) mod p25519.
Proof. destruct (gf_M_spec a b Ha Hb) as [Ht He]. split; [exact Ht|]. split; [by apply tight_loose|exact He]. Qed.

Lemma gf_M_correct_witness :
  tight (gf_M (replicate 16 (-131200)) (replicate 16 131200)) /\
  loose (gf_M (replicate 16 (-131200)) (replicate 16 131200)) /\
  eval16 (gf_M (replicate 16 (-131200)) (replicate 16 131200)) mod p25519 =
    (eval16 (replicate 16 (-131200)) * eval16 (replicate 16 131200)) mod p25519.
Proof.
  apply (gf_M_correct (replicate 16 (-131200)) (replicate 16 131200));
    (split; [reflexivity|apply Forall_replicate; lia]).
Defined.

(** encoding: for every limb list that fits the carry bounds (all values the
    code encodes), [pack25519] writes the unique canonical little-endian
    representative below [2^255 - 19]. *)
Theorem pack25519_correct (n : list Z) (Hl : length n = 16%nat)
    (Hb : limbs_in (- car_bound + 2 ^ 46) (car_bound - 2 ^ 46) n) :
  pack25519 n = le_bytes 32 (eval16 n mod p25519).
Proof. by apply pack25519_spec. Qed.

Lemma pack25519_correct_witness :
  pack25519 (replicate 16 (-70000)) = le_bytes 32 (eval16 (replicate 16 (-70000)) mod p25519).
Proof.
  apply (pack25519_correct (replicate 16 (-70000)) eq_refl). apply Forall_replicate. unfold car_bound. lia.
Defined.
