(* ===== verification/X25519.v ===== *)
(** * X25519

    [src/Modules/NekroEngine/NekroCore/crypto/x25519.c]: [nw_x25519] and
    [nw_x25519_base], refined to the Montgomery ladder of RFC 7748 on numbers. *)

From S2P Require Import Prelude Field25519.

(** ** The C code *)

(** The four ladder registers [a], [b], [c], [d]. *)
Record ladder := Ladder { L_a : list Z; L_b : list Z; L_c : list Z; L_d : list Z }.

(** One iteration of [for (i = 254; i >= 0; --i)]; [x] is the decoded point. *)
Definition ladder_step (x z : list Z) (s : ladder) (i : nat) : ladder :=
  let r := Z.land (Z.shiftr z.[Nat.div i 8] (Z.of_nat (Nat.modulo i 8))) 1 in
  let '(a, b) := sel25519 (L_a s) (L_b s) r in
  let '(c, d) := sel25519 (L_c s) (L_d s) r in
  let e := gf_A a c in let a := gf_Z a c in let c := gf_A b d in let b := gf_Z b d in
  let d := gf_S e in let f := gf_S a in let a := gf_M c a in let c := gf_M b e in
  let e := gf_A a c in let a := gf_Z a c in
  let b := gf_S a in let c := gf_Z d f in let a := gf_M c gf_121665 in let a := gf_A a d in
  let c := gf_M c a in let a := gf_M d f in
  let d := gf_M b x in let b := gf_S e in
  let '(a, b) := sel25519 a b r in
  let '(c, d) := sel25519 c d r in
  Ladder a b c d.

(** [z]: the clamped copy of the scalar [n]. *)
Definition clamped (n : list Z) : list Z :=
  let z := map (fun i => n.[i]) (seq 0 31) ++ [Z.lor (Z.land n.[31] 127) 64] in
  <[0%nat := Z.land z.[0] 248]> z.

Definition nw_x25519 (n p : list Z) : list Z :=
  let z := clamped n in
  let x := unpack25519 p in
  let b := map (fun i => x.[i]) (seq 0 16) in
  let s := Ladder (<[0%nat := 1]> (zeros 16)) b (zeros 16) (<[0%nat := 1]> (zeros 16)) in
  let s := for_loop 0 255 (fun s k => ladder_step x z s (254 - k)) s in
  let c := inv25519 (L_c s) in
  let a := gf_M (L_a s) c in
  pack25519 a.

Definition nw_x25519_base (n : list Z) : list Z := nw_x25519 n (9 :: zeros 31).

(** ** Specification: RFC 7748, section 5 *)

Definition fadd (a b : Z) : Z := (a + b) mod p25519.
Definition fsub (a b : Z) : Z := (a - b) mod p25519.
Definition fmul (a b : Z) : Z := (a * b) mod p25519.

Definition cswap (swap : bool) (x y : Z) : Z * Z := if swap then (y, x) else (x, y).

Record rfc_state := RfcState { x_2 : Z; z_2 : Z; x_3 : Z; z_3 : Z; rfc_swap : bool }.

Definition rfc_step (x_1 k : Z) (s : rfc_state) (t : nat) : rfc_state :=
  let k_t := Z.testbit k (Z.of_nat t) in
  let swap := xorb (rfc_swap s) k_t in
  let '(x2, x3) := cswap swap (x_2 s) (x_3 s) in
  let '(z2, z3) := cswap swap (z_2 s) (z_3 s) in
  let A := fadd x2 z2 in let AA := fmul A A in
  let B := fsub x2 z2 in let BB := fmul B B in
  let E := fsub AA BB in
  let C := fadd x3 z3 in let D := fsub x3 z3 in
  let DA := fmul D A in let CB := fmul C B in
  RfcState (fmul AA BB) (fmul E (fadd AA (fmul 121665 E)))
    (fmul (fadd DA CB) (fadd DA CB)) (fmul x_1 (fmul (fsub DA CB) (fsub DA CB))) k_t.

Definition rfc_ladder (k u : Z) : Z :=
  let s := for_loop 0 255 (fun s i => rfc_step u k s (254 - i)) (RfcState 1 0 u 1 false) in
  let '(x2, _) := cswap (rfc_swap s) (x_2 s) (x_3 s) in
  let '(z2, _) := cswap (rfc_swap s) (z_2 s) (z_3 s) in
  (x2 * z2 ^ (p25519 - 2)) mod p25519.

(** [decodeScalar25519]: clear the low three bits and bit 255, set bit 254. *)
Definition decode_scalar (n : list Z) : Z := le_val n mod 2 ^ 254 / 8 * 8 + 2 ^ 254.
(** [decodeUCoordinate]: bit 255 is masked. *)
Definition decode_u (p : list Z) : Z := le_val p mod 2 ^ 255.

Definition rfc_x25519 (n p : list Z) : list Z :=
  le_bytes 32 (rfc_ladder (decode_scalar n) (decode_u p)).

(** ** The scalar *)

Lemma le_val_testbit l i : wf_bytes l ->
  Z.testbit (le_val l) (Z.of_nat i) = Z.testbit l.[Nat.div i 8] (Z.of_nat (Nat.modulo i 8)).
Proof.
  intros Hl. revert i. induction Hl as [|b l Hb Hl IH]; intros i.
  - cbn [le_val]. rewrite Z.bits_0. unfold ix. rewrite nth_overflow by (cbn; lia). by rewrite Z.bits_0.
  - cbn [le_val]. rewrite Z.mul_comm. change 256 with (2 ^ 8). rewrite <- (lor_add_shift b) by (unfold is_byte in Hb; lia).
    rewrite Z.lor_spec. destruct (decide (i < 8)%nat) as [Hi|Hi].
    + rewrite Z.shiftl_spec_low, orb_false_r by lia. by rewrite Nat.div_small, Nat.mod_small by done.
    + rewrite (testbit_above b 8), Z.shiftl_spec by (unfold is_byte in Hb; lia). cbn [orb].
      replace (Z.of_nat i - 8) with (Z.of_nat (i - 8)) by lia. rewrite IH.
      replace i with (i - 8 + 1 * 8)%nat at 3 4 by lia.
      rewrite Nat.div_add, Nat.Div0.mod_add by lia. rewrite Nat.add_1_r. done.
Qed.

Lemma scalar_bit z i : wf_bytes z ->
  Z.land (Z.shiftr z.[Nat.div i 8] (Z.of_nat (Nat.modulo i 8))) 1 =
  if Z.testbit (le_val z) (Z.of_nat i) then 1 else 0.
Proof.
  intros Hz. rewrite le_val_testbit by done. change 1 with (Z.ones 1) at 1. rewrite Z.land_ones by lia.
  change (2 ^ 1) with 2. rewrite <- Z.bit0_mod, Z.shiftr_spec, Z.add_0_l by lia. by destruct (Z.testbit _ _).
Qed.

Lemma clamp_bytes b : is_byte b ->
  Z.land b 248 = b / 8 * 8 /\ Z.lor (Z.land b 127) 64 = b mod 64 + 64.
Proof.
  intros Hb. assert (Forall (fun b => Z.land (Z.of_nat b) 248 = Z.of_nat b / 8 * 8 /\
    Z.lor (Z.land (Z.of_nat b) 127) 64 = Z.of_nat b mod 64 + 64) (seq 0 256)) as H
    by (apply (bool_decide_unpack _); vm_compute; exact I).
  rewrite Forall_seq in H. unfold is_byte in Hb. specialize (H (Z.to_nat b) ltac:(lia)).
  by rewrite Z2Nat.id in H by lia.
Qed.

Lemma clamped_spec n : wf_bytes n -> length n = 32%nat ->
  wf_bytes (clamped n) /\ length (clamped n) = 32%nat /\ le_val (clamped n) = decode_scalar n.
Proof.
  intros Hn Hl. destruct n as [|n0 r]; [done|]. apply Forall_cons in Hn as [H0 Hr].
  destruct r as [|n31 mid _] using rev_ind; [done|]. apply Forall_app in Hr as [Hm H31].
  apply Forall_cons in H31 as [H31 _].
  assert (length mid = 30%nat) as Hml by (cbn [length] in Hl; rewrite length_app in Hl; cbn [length] in Hl; lia).
  assert (clamped (n0 :: mid ++ [n31]) = n0 / 8 * 8 :: mid ++ [n31 mod 64 + 64]) as ->.
  { unfold clamped. destruct (clamp_bytes n0 H0) as [E0 _], (clamp_bytes n31 H31) as [_ E31].
    assert (map (fun i => (n0 :: mid ++ [n31]).[i]) (seq 0 31) = n0 :: mid) as ->.
    { apply ix_ext; [rewrite length_map, length_seq; cbn; lia|]. rewrite length_map, length_seq. intros i Hi.
      rewrite (ix_map_seq (fun i => (n0 :: mid ++ [n31]).[i])) by done.
      change (n0 :: mid ++ [n31]) with ((n0 :: mid) ++ [n31]). apply ix_app_l. cbn. lia. }
    assert ((n0 :: mid ++ [n31]).[31] = n31) as ->.
    { apply (ix_mid (n0 :: mid)). cbn [length]. lia. }
    rewrite E31. change (((n0 :: mid) ++ [n31 mod 64 + 64]).[0]) with n0.
    rewrite E0. reflexivity. }
  unfold is_byte in *. split; [|split].
  - apply Forall_cons_2; [unfold is_byte; lia|]. apply Forall_app_2; [done|].
    apply Forall_cons_2; [unfold is_byte; lia|constructor].
  - cbn [length]. rewrite length_app. cbn [length]. lia.
  - unfold decode_scalar. cbn [le_val]. rewrite !le_val_app, Hml. cbn [le_val].
    pose proof (le_val_bound mid Hm) as Hb. rewrite Hml in Hb.
    change (256 ^ Z.of_nat 30) with (2 ^ 240) in *. generalize dependent (le_val mid). intros m Hb.
    clear - H0 H31 Hb.
    replace ((n0 + 256 * (m + 2 ^ 240 * (n31 + 256 * 0))) mod 2 ^ 254) with
      (n0 + 256 * (m + 2 ^ 240 * (n31 mod 64))) by (apply (Zmod_unique _ _ (n31 / 64)); lia).
    replace ((n0 + 256 * (m + 2 ^ 240 * (n31 mod 64))) / 8) with (n0 / 8 + 32 * (m + 2 ^ 240 * (n31 mod 64))) by lia.
    lia.
Qed.

(** ** Refinement *)

(** A reduced (resp. unreduced) limb list standing for a residue. *)
Definition elt (o : list Z) (v : Z) : Prop := tight o /\ eval16 o mod p25519 = v mod p25519.
Definition welt (o : list Z) (v : Z) : Prop := loose o /\ eval16 o mod p25519 = v mod p25519.

#[local] Opaque p25519 gf_M gf_A gf_Z inv25519 sel25519 pack25519 unpack25519.

Create HintDb elt.

Lemma elt_welt o v : elt o v -> welt o v.
Proof. intros [Ht He]. split; [by apply tight_loose|done]. Qed.
Lemma gf_A_elt a b x y : elt a x -> elt b y -> welt (gf_A a b) (fadd x y).
Proof.
  intros [Ha Hx] [Hb Hy]. destruct (gf_A_spec a b Ha Hb) as [Hl He]. split; [assumption|].
  unfold fadd. rewrite He, Z.add_mod, Hx, Hy, <- Z.add_mod, Z.mod_mod by apply p25519_nonzero. reflexivity.
Qed.
Lemma gf_Z_elt a b x y : elt a x -> elt b y -> welt (gf_Z a b) (fsub x y).
Proof.
  intros [Ha Hx] [Hb Hy]. destruct (gf_Z_spec a b Ha Hb) as [Hl He]. split; [assumption|].
  unfold fsub. rewrite He, Zminus_mod, Hx, Hy, <- Zminus_mod, Z.mod_mod by apply p25519_nonzero. reflexivity.
Qed.
Lemma gf_M_elt a b x y : welt a x -> welt b y -> elt (gf_M a b) (fmul x y).
Proof.
  intros [Ha Hx] [Hb Hy]. destruct (gf_M_mod a b x y Ha Hb Hx Hy) as [Hl He]. split; [assumption|].
  unfold fmul. rewrite He, Z.mod_mod by apply p25519_nonzero. reflexivity.
Qed.
Lemma gf_S_elt a x : welt a x -> elt (gf_S a) (fmul x x).
Proof. intros H. by apply gf_M_elt. Qed.
Lemma gf_121665_elt : elt gf_121665 121665.
Proof.
  split; [|reflexivity]. exists 0xDB41, [1; 0; 0; 0; 0; 0; 0; 0; 0; 0; 0; 0; 0; 0; 0].
  split; [reflexivity|]. split; [lia|]. split; [|reflexivity]. repeat (apply Forall_cons_2; [lia|]). constructor.
Qed.
#[local] Hint Resolve elt_welt gf_A_elt gf_Z_elt gf_M_elt gf_S_elt gf_121665_elt : elt.

Lemma elt_length o v : elt o v -> length o = 16%nat.
Proof. intros [Ht _]. apply (tight_loose _ Ht). Qed.

Lemma fadd_comm x y : fadd x y = fadd y x.
Proof. unfold fadd. by rewrite Z.add_comm. Qed.
Lemma fsub_square x y : fmul (fsub x y) (fsub x y) = fmul (fsub y x) (fsub y x).
Proof.
  unfold fmul, fsub. rewrite <- !Z.mul_mod by apply p25519_nonzero. f_equal. ring.
Qed.
Lemma fmul_comm x y : fmul x y = fmul y x.
Proof. unfold fmul. by rewrite Z.mul_comm. Qed.

(** Constant-time selection on represented pairs. *)
Lemma sel25519_elt (swap : bool) a b x y : elt a x -> elt b y ->
  exists a' b', sel25519 a b (if swap then 1 else 0) = (a', b') /\
    elt a' (cswap swap x y).1 /\ elt b' (cswap swap x y).2.
Proof.
  intros Ha Hb. rewrite sel25519_spec by (by eapply elt_length). by destruct swap; do 2 eexists.
Qed.

Lemma cswap_xor s r x y : cswap r (cswap s x y).1 (cswap s x y).2 = cswap (xorb s r) x y.
Proof. by destruct s, r. Qed.

(** The C registers hold the RFC's variables with the pending swap undone. *)
Definition ladder_rel (s : ladder) (t : rfc_state) : Prop :=
  elt (L_a s) (cswap (rfc_swap t) (x_2 t) (x_3 t)).1 /\ elt (L_b s) (cswap (rfc_swap t) (x_2 t) (x_3 t)).2 /\
  elt (L_c s) (cswap (rfc_swap t) (z_2 t) (z_3 t)).1 /\ elt (L_d s) (cswap (rfc_swap t) (z_2 t) (z_3 t)).2.

Lemma ladder_step_rel x u z s t i : elt x u -> wf_bytes z -> ladder_rel s t ->
  ladder_rel (ladder_step x z s i) (rfc_step u (le_val z) t i).
Proof.
  intros Hx Hz (Ha & Hb & Hc & Hd). unfold ladder_step, rfc_step. rewrite scalar_bit by done.
  set (r := Z.testbit (le_val z) (Z.of_nat i)).
  destruct (sel25519_elt r _ _ _ _ Ha Hb) as (a & b & -> & Ha1 & Hb1). clear Ha Hb.
  destruct (sel25519_elt r _ _ _ _ Hc Hd) as (c & d & -> & Hc1 & Hd1). clear Hc Hd.
  rewrite cswap_xor in *.
  destruct (cswap _ (x_2 t) (x_3 t)) as [x2 x3], (cswap _ (z_2 t) (z_3 t)) as [z2 z3]. cbn [fst snd] in *.
  set (va := fmul (fadd x3 z3) (fsub x2 z2)). set (vc := fmul (fsub x3 z3) (fadd x2 z2)).
  assert (elt (gf_M (gf_A b d) (gf_Z a c)) va) as Hva by (unfold va; eauto with elt).
  assert (elt (gf_M (gf_Z b d) (gf_A a c)) vc) as Hvc by (unfold vc; eauto with elt).
  set (AA := fmul (fadd x2 z2) (fadd x2 z2)). set (BB := fmul (fsub x2 z2) (fsub x2 z2)).
  assert (elt (gf_S (gf_A a c)) AA) as HAA by (unfold AA; eauto with elt).
  assert (elt (gf_S (gf_Z a c)) BB) as HBB by (unfold BB; eauto with elt).
  rewrite (fadd_comm vc va), (fsub_square vc va), (fmul_comm u), (fadd_comm AA).
  set (e3 := gf_M (gf_A b d) (gf_Z a c)) in *. set (e4 := gf_M (gf_Z b d) (gf_A a c)) in *.
  set (d1 := gf_S (gf_A a c)) in *. set (f1 := gf_S (gf_Z a c)) in *. clearbody e3 e4 d1 f1.
  destruct (sel25519_elt r (gf_M d1 f1) (gf_S (gf_A e3 e4)) (fmul AA BB) (fmul (fadd va vc) (fadd va vc)))
    as (a2 & b2 & -> & Ha2 & Hb2); [eauto with elt..|].
  destruct (sel25519_elt r
    (gf_M (gf_Z d1 f1) (gf_A (gf_M (gf_Z d1 f1) gf_121665) d1)) (gf_M (gf_S (gf_Z e3 e4)) x)
    (fmul (fsub AA BB) (fadd (fmul (fsub AA BB) 121665) AA)) (fmul (fmul (fsub va vc) (fsub va vc)) u))
    as (c2 & d2 & -> & Hc2 & Hd2); [eauto 8 with elt..|].
  rewrite (fmul_comm (fsub AA BB) 121665) in *. do 3 (split; [assumption|]). assumption.
Qed.

Lemma map_ix16 x : length x = 16%nat -> map (fun i => x.[i]) (seq 0 16) = x.
Proof.
  intros Hl. apply ix_ext; [by rewrite length_map, length_seq|]. rewrite length_map, length_seq. intros i Hi.
  by rewrite (ix_map_seq (fun i => x.[i])).
Qed.

Lemma elt_small o v : eval16 o = v -> canonical o -> elt o v.
Proof. intros <- Hc. split; [by apply canonical_tight|reflexivity]. Qed.

(** [nw_x25519] runs the RFC's ladder and encodes its result canonically. *)
Lemma nw_x25519_spec n p : wf_bytes n -> wf_bytes p -> length n = 32%nat -> length p = 32%nat ->
  nw_x25519 n p = rfc_x25519 n p.
Proof.
  intros Hn Hp Hnl Hpl. unfold nw_x25519, rfc_x25519, rfc_ladder.
  destruct (clamped_spec n Hn Hnl) as (Hz & _ & Hzv). rewrite <- Hzv.
  destruct (unpack25519_spec p Hp Hpl) as [Hxc Hxv]. fold (decode_u p) in Hxv.
  assert (elt (unpack25519 p) (decode_u p)) as Hx by (by apply elt_small).
  rewrite map_ix16 by apply Hxc. generalize dependent (unpack25519 p). intros x Hxc Hxv Hx.
  set (s0 := Ladder _ _ _ _). set (t0 := RfcState _ _ _ _ _).
  assert (ladder_rel s0 t0) as H0.
  { split; [|split; [assumption|split]].
    - apply elt_small; [reflexivity|]. split; [reflexivity|]. repeat (apply Forall_cons_2; [lia|]). constructor.
    - apply elt_small; [reflexivity|]. split; [reflexivity|]. repeat (apply Forall_cons_2; [lia|]). constructor.
    - apply elt_small; [reflexivity|]. split; [reflexivity|]. repeat (apply Forall_cons_2; [lia|]). constructor. }
  assert (forall k, ladder_rel (for_loop 0 k (fun s k => ladder_step x (clamped n) s (254 - k)) s0)
    (for_loop 0 k (fun s i => rfc_step (decode_u p) (le_val (clamped n)) s (254 - i)) t0)) as Hk.
  { induction k as [|k IH]; [exact H0|]. rewrite !for_loop_S. by apply ladder_step_rel. }
  specialize (Hk 255%nat). generalize dependent (for_loop 0 255 (fun s k => ladder_step x (clamped n) s (254 - k)) s0).
  generalize (for_loop 0 255 (fun s i => rfc_step (decode_u p) (le_val (clamped n)) s (254 - i)) t0).
  intros t s (Ha & _ & Hc & _).
  destruct (cswap _ (x_2 t) _) as [x2 ?], (cswap _ (z_2 t) _) as [z2 ?]. cbn [fst] in *.
  destruct Hc as [Hct Hce]. destruct (inv25519_spec _ Hct) as [Hit Hie].
  destruct (gf_M_elt (L_a s) (inv25519 (L_c s)) x2 (z2 ^ (p25519 - 2))) as [Hmt Hme].
  { by apply elt_welt. }
  { apply elt_welt. split; [assumption|]. rewrite Hie. apply pow_mod_cong. assumption. }
  pose proof (tight_loose _ Hmt) as Hmb. pose proof (proj1 Hmb) as Hml.
  rewrite pack25519_spec by (assumption || by apply loose_car_bounds).
  rewrite Hme. unfold fmul. rewrite Z.mod_mod by apply p25519_nonzero. reflexivity.
Qed.

Lemma rfc_x25519_wf n p : wf_bytes (rfc_x25519 n p).
Proof. apply le_bytes_wf. Qed.
Lemma length_rfc_x25519 n p : length (rfc_x25519 n p) = 32%nat.
Proof. apply length_le_bytes. Qed.
#[export] Hint Resolve rfc_x25519_wf : words.
#[export] Hint Rewrite length_rfc_x25519 : len.
Lemma rfc_ladder_range k u : 0 <= rfc_ladder k u < p25519.
Proof. unfold rfc_ladder. destruct (cswap _ _ _), (cswap _ _ _). apply Z.mod_pos_bound, p25519_pos. Qed.

Lemma rfc_x25519_bound n p : 0 <= le_val (rfc_x25519 n p) < p25519.
Proof.
  unfold rfc_x25519. rewrite le_val_le_bytes.
  pose proof (rfc_ladder_range (decode_scalar n) (decode_u p)) as Hr.
  rewrite Z.mod_small; [exact Hr|]. split; [apply Hr|].
  eapply Z.lt_le_trans; [apply Hr|apply p25519_below].
Qed.

(** The ladder of the point 0: [z_2] and [x_3] stay 0. *)
Lemma rfc_step_zero k s t : z_2 s = 0 -> x_3 s = 0 ->
  z_2 (rfc_step 0 k s t) = 0 /\ x_3 (rfc_step 0 k s t) = 0.
Proof.
  intros Hz Hx. unfold rfc_step. rewrite Hz, Hx.
  assert (forall x, fadd x 0 = fsub x 0) as E1 by (intros; unfold fadd, fsub; by rewrite Z.add_0_r, Z.sub_0_r).
  assert (forall x, fsub x x = 0) as E2 by (intros; unfold fsub; by rewrite Z.sub_diag).
  assert (forall x, fmul (fadd 0 x) (fadd 0 x) = fmul (fsub 0 x) (fsub 0 x)) as E3.
  { intros. unfold fadd, fmul, fsub. rewrite <- !Z.mul_mod by apply p25519_nonzero. f_equal. ring. }
  assert (forall x y, fadd (fmul (fsub 0 x) y) (fmul (fadd 0 x) y) = 0) as E4.
  { intros. unfold fadd, fmul, fsub. rewrite !Z.mul_mod_idemp_l, <- Z.add_mod by apply p25519_nonzero.
    replace ((0 - x) * y + (0 + x) * y) with 0 by ring. reflexivity. }
  assert (forall x, fmul 0 x = 0) as E5 by reflexivity.
  destruct (xorb _ _); cbn [cswap z_2 x_3]; rewrite ?E1, ?E3, E2, E5; (split; [reflexivity|]).
  - rewrite (fmul_comm _ (fadd 0 (z_3 s))), (fmul_comm _ (fsub 0 (z_3 s))), fadd_comm. by rewrite E4, E5.
  - by rewrite E4, E5.
Qed.

Lemma rfc_ladder_zero k : rfc_ladder k 0 = 0.
Proof.
  unfold rfc_ladder. set (s0 := RfcState 1 0 0 1 false).
  assert (forall n, z_2 (for_loop 0 n (fun s i => rfc_step 0 k s (254 - i)) s0) = 0 /\
    x_3 (for_loop 0 n (fun s i => rfc_step 0 k s (254 - i)) s0) = 0) as H.
  { induction n as [|n [IHz IHx]]; [done|]. rewrite for_loop_S. by apply rfc_step_zero. }
  specialize (H 255%nat). generalize dependent (for_loop 0 255 (fun s i => rfc_step 0 k s (254 - i)) s0).
  intros s [Hz Hx]. rewrite Hz, Hx.
  assert (0 ^ (p25519 - 2) = 0) as E by (apply Z.pow_0_l; pose proof p25519_pos; with_strategy transparent [p25519] reflexivity).
  destruct (rfc_swap s); cbn [cswap]; [by rewrite Z.mul_0_l|]. rewrite E, Z.mul_0_r. reflexivity.
Qed.

#[local] Opaque rfc_ladder.

(** ** Properties *)

(** C10: for every 32-byte scalar and point, [nw_x25519] returns the X25519 value
    of RFC 7748 in its canonical encoding: the sixteen-limb arithmetic never
    overflows an [int64_t], carrying, selection, inversion by the power
    [p - 2] and final reduction all agree with the ladder modulo [2^255 - 19]. *)
Theorem nw_x25519_rfc7748 (n p : list Z)
    (Hn : wf_bytes n) (Hp : wf_bytes p) (Hnl : length n = 32%nat) (Hpl : length p = 32%nat) :
  nw_x25519 n p = rfc_x25519 n p /\ length (nw_x25519 n p) = 32%nat /\
  0 <= le_val (nw_x25519 n p) < p25519.
Proof.
  rewrite nw_x25519_spec by assumption.
  split; [reflexivity|]. split; [apply length_rfc_x25519|apply rfc_x25519_bound].
Qed.

Lemma nw_x25519_rfc7748_witness :
  nw_x25519 (zeros 32) (9 :: zeros 31) = rfc_x25519 (zeros 32) (9 :: zeros 31) /\
  length (nw_x25519 (zeros 32) (9 :: zeros 31)) = 32%nat /\
  0 <= le_val (nw_x25519 (zeros 32) (9 :: zeros 31)) < p25519.
Proof.
  apply (nw_x25519_rfc7748 (zeros 32) (9 :: zeros 31));
    [apply zeros_wf|apply Forall_cons_2; [unfold is_byte; lia|apply zeros_wf]|apply length_zeros
    |cbn [length]; rewrite length_zeros; reflexivity].
Defined.

(** clamping: scalars that agree outside bits 0, 1, 2, 254 and 255, and points
    that agree outside bit 255, give the same shared value. *)
Theorem nw_x25519_clamp (n n' p p' : list Z)
    (Hn : wf_bytes n) (Hn' : wf_bytes n') (Hp : wf_bytes p) (Hp' : wf_bytes p')
    (Hnl : length n = 32%nat) (Hnl' : length n' = 32%nat) (Hpl : length p = 32%nat) (Hpl' : length p' = 32%nat)
    (Hs : le_val n mod 2 ^ 254 / 8 = le_val n' mod 2 ^ 254 / 8)
    (Hu : le_val p mod 2 ^ 255 = le_val p' mod 2 ^ 255) :
  nw_x25519 n p = nw_x25519 n' p'.
Proof.
  rewrite !nw_x25519_spec by assumption. unfold rfc_x25519, decode_scalar, decode_u. by rewrite Hs, Hu.
Qed.

Lemma nw_x25519_clamp_witness :
  nw_x25519 (7 :: zeros 31) (zeros 31 ++ [128]) = nw_x25519 (zeros 32) (zeros 32).
Proof.
  apply (nw_x25519_clamp (7 :: zeros 31) (zeros 32) (zeros 31 ++ [128]) (zeros 32));
    try (apply (bool_decide_unpack _); vm_compute; exact I); vm_compute; reflexivity.
Defined.

(** a peer that sends the point 0 forces an all-zero shared secret whatever
    our scalar is; the C function reports success (its only return value). *)
Theorem nw_x25519_zero_point (n : list Z) (Hn : wf_bytes n) (Hnl : length n = 32%nat) :
  nw_x25519 n (zeros 32) = zeros 32.
Proof.
  rewrite nw_x25519_spec by (assumption || apply zeros_wf || apply length_zeros).
  unfold rfc_x25519. replace (decode_u (zeros 32)) with 0 by (unfold decode_u; by rewrite le_val_zeros).
  rewrite rfc_ladder_zero. reflexivity.
Qed.

Lemma nw_x25519_zero_point_witness : nw_x25519 (replicate 32 77) (zeros 32) = zeros 32.
Proof. apply (nw_x25519_zero_point (replicate 32 77)); [|reflexivity]. apply Forall_replicate. unfold is_byte. lia. Defined.
