(* ===== verification/KeyExchange.v ===== *)
(** * The key-exchange interface

    What the handshake of wg.c expects from [nw_x25519] and [nw_x25519_base]:
    two functions on 32-byte keys. The handshake theorems are proved against
    this class; crypto/x25519.c is its instance. *)

From S2P Require Import Prelude X25519.

Definition is_key (k : list Z) : Prop := wf_bytes k /\ length k = 32%nat.

Class KeyExchange := {
  kx : list Z -> list Z -> list Z;
  kx_base : list Z -> list Z;
  kx_key n p : is_key n -> is_key p -> is_key (kx n p);
  kx_base_key n : is_key n -> is_key (kx_base n)
}.

(** Both ends compute the same secret from the private keys [a] and [b]. *)
Definition kx_agree `{KeyExchange} (a b : list Z) : Prop := kx a (kx_base b) = kx b (kx_base a).

Lemma is_key_wf k : is_key k -> wf_bytes k.
Proof. by intros []. Qed.
Lemma is_key_length k : is_key k -> length k = 32%nat.
Proof. by intros []. Qed.
Lemma zeros_key : is_key (zeros 32).
Proof. split; [apply zeros_wf|apply length_zeros]. Qed.
#[export] Hint Resolve is_key_wf zeros_key kx_key kx_base_key : words.

Lemma kx_agree_refl `{KeyExchange} a : kx_agree a a.
Proof. reflexivity. Qed.

Lemma nw_x25519_key n p : is_key n -> is_key p -> is_key (nw_x25519 n p).
Proof.
  intros [Hn Hnl] [Hp Hpl]. rewrite nw_x25519_spec by assumption.
  split; [apply rfc_x25519_wf|apply length_rfc_x25519].
Qed.

Lemma base_point_key : is_key (9 :: zeros 31).
Proof. split; [apply Forall_cons_2; [unfold is_byte; lia|apply zeros_wf]|cbn [length]; by rewrite length_zeros]. Qed.

(** X25519 implements the interface. *)
#[export, refine] Instance x25519_kx : KeyExchange := {| kx := nw_x25519; kx_base := nw_x25519_base |}.
Proof.
  - exact nw_x25519_key.
  - intros n Hn. exact (nw_x25519_key n (9 :: zeros 31) Hn base_point_key).
Defined.
