(* ===== verification/Wg.v ===== *)
(** * The WireGuard handshake and transport

    [src/Modules/NekroEngine/NekroCore/wg/wg.c]: Noise_IKpsk2 over the crypto
    components, both roles, the data messages and the in-process self-test. *)

From S2P Require Import Prelude Blake2s Kdf Aead KeyExchange.

(** ** The C code *)

Definition NW_WG_INIT_SIZE : nat := 148.
Definition NW_WG_RESP_SIZE : nat := 92.
Definition NW_WG_DATA_HDR : nat := 16.

Definition NW_CONSTRUCTION : list Z := str "Noise_IKpsk2_25519_ChaChaPoly_BLAKE2s".
Definition NW_IDENTIFIER : list Z := str "WireGuard v1 zx2c4 Jason@zx2c4.com".
Definition NW_LABEL_MAC1 : list Z := str "mac1----".

Definition ZERO_NONCE : list Z := zeros 12.

Definition st32le (v : Z) : list Z := store32 v.
Definition ld32le (p : list Z) (i : nat) : Z := load32 p i.
Definition st64le (v : Z) : list Z := map (fun i => u8 (Z.shiftr v (8 * Z.of_nat i))) (seq 0 8).
Definition ld64le (p : list Z) (off : nat) : Z :=
  for_loop 0 8 (fun v i => Z.lor v (u64 (Z.shiftl p.[off + i] (8 * Z.of_nat i)))) 0.

Record nw_handshake := Handshake {
  hs_static_private : list Z;
  hs_static_public : list Z;
  hs_peer_static_public : list Z;
  hs_psk : list Z;
  hs_hash : list Z;
  hs_chaining_key : list Z;
  hs_ephemeral_private : list Z;
  hs_ephemeral_public : list Z;
  hs_remote_ephemeral : list Z;
  hs_remote_static : list Z;
  hs_local_index : Z;
  hs_remote_index : Z;
  hs_reserved : list Z
}.

Record nw_transport := Transport {
  t_send_key : list Z;
  t_recv_key : list Z;
  t_send_counter : Z;
  t_recv_counter : Z;
  t_local_index : Z;
  t_remote_index : Z;
  t_reserved : list Z
}.

(** [/dev/urandom]: the descriptor [open] returns and the bytes the [i]-th [read]
    has ready ([None]: the call fails); a read returns at most what was asked. *)
Record urandom := Urandom { u_fd : Z; u_reads : nat -> option (list Z) }.

Fixpoint random_loop (fuel : nat) (u : urandom) (i : nat) (buf : list Z) (len got : nat) : Z * list Z :=
  match fuel with
  | O => (0, buf)
  | S fuel =>
      if decide (got < len)%nat then
        match u_reads u i with
        | None => (-1, buf)
        | Some ready =>
            let data := take (len - got) ready in
            let n := length data in
            if decide (n <= 0)%nat then (-1, buf)
            else random_loop fuel u (S i) (store buf got data) len (got + n)
        end
      else (0, buf)
  end.

(** The return code and the buffer; each successful read advances, so [len + 1]
    iterations suffice. *)
Definition nw_random (u : urandom) (buf : list Z) (len : nat) : Z * list Z :=
  if decide (u_fd u < 0) then (-1, buf) else random_loop (len + 1) u 0 buf len 0.

Definition mix_hash (h data : list Z) : list Z :=
  let S := hash32_init in
  let S := nw_blake2s_update S h in
  let S := nw_blake2s_update S data in
  hash32_final S.

Definition mix_chain (ck data : list Z) : list Z :=
  let '(out1, _, _) := nw_kdf true false false ck data in default ck out1.

Definition mac1_key (peer_pub : list Z) : list Z :=
  let S := hash32_init in
  let S := nw_blake2s_update S NW_LABEL_MAC1 in
  let S := nw_blake2s_update S peer_pub in
  hash32_final S.

(** [gettimeofday]: seconds and microseconds. *)
Record timeval := Timeval { tv_sec : Z; tv_usec : Z }.

Definition tai64n (tv : timeval) : list Z :=
  let secs := u64 (0x400000000000000a + u64 (tv_sec tv)) in
  let nanos := u32 (u32 (tv_usec tv) * 1000) in
  let out := zeros 12 in
  let out := for_loop 0 8 (fun out i => <[(7 - i)%nat := u8 (Z.shiftr secs (8 * Z.of_nat i))]> out) out in
  for_loop 0 4 (fun out i => <[(11 - i)%nat := u8 (Z.shiftr nanos (8 * Z.of_nat i))]> out) out.

(** [(ck, h)] *)
Definition init_state (remote_static : list Z) : list Z * list Z :=
  let ck := default (zeros 32) (nw_blake2s 32 NW_CONSTRUCTION []) in
  let h := ck in
  let h := mix_hash h NW_IDENTIFIER in
  let h := mix_hash h remote_static in
  (ck, h).

(** [nw_kdf(ck, k, NULL, ck, dh, 32)] *)
Definition kdf2 (ck dh : list Z) : list Z * list Z :=
  let '(out1, out2, _) := nw_kdf true true false ck dh in (default [] out1, default [] out2).
(** [nw_kdf(ck, tau, k, ck, psk, 32)] *)
Definition kdf3 (ck psk : list Z) : list Z * list Z * list Z :=
  let '(out1, out2, out3) := nw_kdf true true true ck psk in
  (default [] out1, default [] out2, default [] out3).

(** [nw_blake2s(mac, 16, msg, len msg, mk, 32)] *)
Definition mac16 (msg mk : list Z) : list Z := default (zeros 16) (nw_blake2s 16 msg mk).

Section Handshake.
Context {KX : KeyExchange}.

(** NULL arguments are [None]. *)
Definition nw_handshake_init (u : urandom) (static_private peer_static_public psk : option (list Z)) : nw_handshake :=
  let sp := match static_private with
            | Some sp => sp
            | None => (nw_random u (zeros 32) 32).2
            end in
  let pub := kx_base sp in
  let peer := default (zeros 32) peer_static_public in
  let psk := default (zeros 32) psk in
  Handshake sp pub peer psk (zeros 32) (zeros 32) (zeros 32) (zeros 32) (zeros 32) (zeros 32) 0 0 (zeros 3).

(** The fields the two [create] functions set before building the message. *)
Definition new_ephemeral (u : urandom) (hs : nw_handshake) (local_index : Z) : nw_handshake :=
  let priv := (nw_random u (hs_ephemeral_private hs) 32).2 in
  Handshake (hs_static_private hs) (hs_static_public hs) (hs_peer_static_public hs) (hs_psk hs)
    (hs_hash hs) (hs_chaining_key hs) priv (kx_base priv) (hs_remote_ephemeral hs) (hs_remote_static hs)
    local_index (hs_remote_index hs) (hs_reserved hs).

Definition set_chain (hs : nw_handshake) (ck h : list Z) (remote_index : Z) : nw_handshake :=
  Handshake (hs_static_private hs) (hs_static_public hs) (hs_peer_static_public hs) (hs_psk hs)
    h ck (hs_ephemeral_private hs) (hs_ephemeral_public hs) (hs_remote_ephemeral hs) (hs_remote_static hs)
    (hs_local_index hs) remote_index (hs_reserved hs).

Definition set_remote_ephemeral (hs : nw_handshake) (re : list Z) : nw_handshake :=
  Handshake (hs_static_private hs) (hs_static_public hs) (hs_peer_static_public hs) (hs_psk hs)
    (hs_hash hs) (hs_chaining_key hs) (hs_ephemeral_private hs) (hs_ephemeral_public hs) re
    (hs_remote_static hs) (hs_local_index hs) (hs_remote_index hs) (hs_reserved hs).

Definition set_remote_static (hs : nw_handshake) (rs : list Z) : nw_handshake :=
  Handshake (hs_static_private hs) (hs_static_public hs) (hs_peer_static_public hs) (hs_psk hs)
    (hs_hash hs) (hs_chaining_key hs) (hs_ephemeral_private hs) (hs_ephemeral_public hs)
    (hs_remote_ephemeral hs) rs (hs_local_index hs) (hs_remote_index hs) (hs_reserved hs).

(** The message [out] is written front to back; the return value is always 0. *)
Definition nw_wg_create_initiation (u : urandom) (tv : timeval) (hs : nw_handshake) (local_index : Z)
  : nw_handshake * list Z :=
  let '(ck, h) := init_state (hs_peer_static_public hs) in
  let hs := new_ephemeral u hs local_index in
  let out := [1] ++ hs_reserved hs ++ st32le local_index ++ hs_ephemeral_public hs in
  let ck := mix_chain ck (hs_ephemeral_public hs) in
  let h := mix_hash h (hs_ephemeral_public hs) in
  let dh := kx (hs_ephemeral_private hs) (hs_peer_static_public hs) in
  let '(ck, k) := kdf2 ck dh in
  let enc_static := nw_chacha20poly1305_encrypt (hs_static_public hs) h k ZERO_NONCE in
  let h := mix_hash h enc_static in
  let dh := kx (hs_static_private hs) (hs_peer_static_public hs) in
  let '(ck, k) := kdf2 ck dh in
  let ts := tai64n tv in
  let enc_ts := nw_chacha20poly1305_encrypt ts h k ZERO_NONCE in
  let h := mix_hash h enc_ts in
  let out := out ++ enc_static ++ enc_ts in
  let mk := mac1_key (hs_peer_static_public hs) in
  let mac1 := mac16 out mk in
  let out := out ++ mac1 ++ zeros 16 in
  (set_chain hs ck h (hs_remote_index hs), out).

Definition nw_wg_consume_initiation (hs : nw_handshake) (msg : list Z) : Z * nw_handshake :=
  if decide (msg.[0] <> 1) then (-1, hs) else
  let mk := mac1_key (hs_static_public hs) in
  let mac1 := mac16 (take 116 msg) mk in
  if decide (mac1 <> slice msg 116 16) then (-2, hs) else
  let '(ck, h) := init_state (hs_static_public hs) in
  let hs := set_remote_ephemeral hs (slice msg 8 32) in
  let ck := mix_chain ck (hs_remote_ephemeral hs) in
  let h := mix_hash h (hs_remote_ephemeral hs) in
  let dh := kx (hs_static_private hs) (hs_remote_ephemeral hs) in
  let '(ck, k) := kdf2 ck dh in
  match nw_chacha20poly1305_decrypt (slice msg 40 48) h k ZERO_NONCE with
  | None => (-3, hs)
  | Some rs =>
      let hs := set_remote_static hs rs in
      let h := mix_hash h (slice msg 40 48) in
      let dh := kx (hs_static_private hs) (hs_remote_static hs) in
      let '(ck, k) := kdf2 ck dh in
      match nw_chacha20poly1305_decrypt (slice msg 88 28) h k ZERO_NONCE with
      | None => (-4, hs)
      | Some ts =>
          let h := mix_hash h (slice msg 88 28) in
          (0, set_chain hs ck h (ld32le msg 4))
      end
  end.

Definition nw_wg_create_response (u : urandom) (hs : nw_handshake) (local_index : Z)
  : nw_handshake * list Z * nw_transport :=
  let ck := hs_chaining_key hs in
  let h := hs_hash hs in
  let hs := new_ephemeral u hs local_index in
  let out := [2] ++ hs_reserved hs ++ st32le local_index ++ st32le (hs_remote_index hs) ++
             hs_ephemeral_public hs in
  let ck := mix_chain ck (hs_ephemeral_public hs) in
  let h := mix_hash h (hs_ephemeral_public hs) in
  let dh := kx (hs_ephemeral_private hs) (hs_remote_ephemeral hs) in
  let ck := mix_chain ck dh in
  let dh := kx (hs_ephemeral_private hs) (hs_remote_static hs) in
  let ck := mix_chain ck dh in
  let '(ck, tau, k) := kdf3 ck (hs_psk hs) in
  let h := mix_hash h tau in
  let enc_empty := nw_chacha20poly1305_encrypt [] h k ZERO_NONCE in
  let h := mix_hash h enc_empty in
  let out := out ++ enc_empty in
  let mk := mac1_key (hs_remote_static hs) in
  let mac1 := mac16 out mk in
  let out := out ++ mac1 ++ zeros 16 in
  let '(recv, send) := kdf2 ck [] in
  (hs, out, Transport send recv 0 0 local_index (hs_remote_index hs) (hs_reserved hs)).

(** [t] is left alone on the error returns. *)
Definition nw_wg_consume_response (hs : nw_handshake) (msg : list Z) (t : nw_transport)
  : Z * nw_handshake * nw_transport :=
  if decide (msg.[0] <> 2) then (-1, hs, t) else
  let mk := mac1_key (hs_static_public hs) in
  let mac1 := mac16 (take 60 msg) mk in
  if decide (mac1 <> slice msg 60 16) then (-2, hs, t) else
  let ck := hs_chaining_key hs in
  let h := hs_hash hs in
  let er := slice msg 12 32 in
  let ck := mix_chain ck er in
  let h := mix_hash h er in
  let dh := kx (hs_ephemeral_private hs) er in
  let ck := mix_chain ck dh in
  let dh := kx (hs_static_private hs) er in
  let ck := mix_chain ck dh in
  let '(ck, tau, k) := kdf3 ck (hs_psk hs) in
  let h := mix_hash h tau in
  match nw_chacha20poly1305_decrypt (slice msg 44 16) h k ZERO_NONCE with
  | None => (-3, hs, t)
  | Some _ =>
      let hs := set_chain hs (hs_chaining_key hs) (hs_hash hs) (ld32le msg 4) in
      let '(send, recv) := kdf2 ck [] in
      (0, hs, Transport send recv 0 0 (hs_local_index hs) (hs_remote_index hs) (hs_reserved hs))
  end.

End Handshake.

(** The new transport state and the [*outlen] bytes of [out]. *)
Definition nw_wg_transport_encrypt (t : nw_transport) (plain : list Z) : nw_transport * list Z :=
  let c := t_send_counter t in
  let t := Transport (t_send_key t) (t_recv_key t) (u64 (c + 1)) (t_recv_counter t)
             (t_local_index t) (t_remote_index t) (t_reserved t) in
  let hdr := [4] ++ t_reserved t ++ st32le (t_remote_index t) ++ st64le c in
  let nonce := zeros 4 ++ st64le c in
  (t, hdr ++ nw_chacha20poly1305_encrypt plain [] (t_send_key t) nonce).

(** The return code and what is written to [out]; [t] is only read. *)
Definition nw_wg_transport_decrypt (t : nw_transport) (msg : list Z) : Z * list Z :=
  if decide (msg.[0] <> 4 \/ (length msg < NW_WG_DATA_HDR + 16)%nat) then (-1, []) else
  let c := ld64le msg 8 in
  let nonce := zeros 4 ++ st64le c in
  match nw_chacha20poly1305_decrypt (drop NW_WG_DATA_HDR msg) [] (t_recv_key t) nonce with
  | None => (-2, [])
  | Some out => (0, out)
  end.

Section Selftest.
Context {KX : KeyExchange}.

(** [nw_wg_selftest]. [u] gives the state of the random device at each call,
    [a0], [b0] and [t0] are the uninitialised locals; printing is left out. *)
Definition nw_wg_selftest (u : nat -> urandom) (tv : timeval) (a0 b0 : list Z) (t0 : nw_transport) : Z :=
  let fails := 0 in
  let a_priv := (nw_random (u 0%nat) a0 32).2 in
  let b_priv := (nw_random (u 1%nat) b0 32).2 in
  let a_pub := kx_base a_priv in
  let b_pub := kx_base b_priv in
  let A := nw_handshake_init (u 2%nat) (Some a_priv) (Some b_pub) None in
  let B := nw_handshake_init (u 3%nat) (Some b_priv) (Some a_pub) None in
  let '(A, init) := nw_wg_create_initiation (u 4%nat) tv A 0x11111111 in
  let '(rc, B) := nw_wg_consume_initiation B init in
  let fails := if decide (rc <> 0) then fails + 1 else fails in
  let learned := bool_decide (hs_remote_static B = a_pub) in
  let fails := if negb learned then fails + 1 else fails in
  let '(B, resp, tB) := nw_wg_create_response (u 5%nat) B 0x22222222 in
  let '(rc, A, tA) := nw_wg_consume_response A resp t0 in
  let fails := if decide (rc <> 0) then fails + 1 else fails in
  let keys_ok := bool_decide (t_send_key tA = t_recv_key tB) && bool_decide (t_recv_key tA = t_send_key tB) in
  let fails := if negb keys_ok then fails + 1 else fails in
  let pt := str "the quick brown fox over WireGuard" in
  let '(tA, pkt) := nw_wg_transport_encrypt tA pt in
  let '(rc, dec) := nw_wg_transport_decrypt tB pkt in
  let ok := bool_decide (rc = 0) && bool_decide (length dec = length pt) && bool_decide (dec = pt) in
  let fails := if negb ok then fails + 1 else fails in
  let pt := str "and the reply travels back" in
  let '(tB, pkt) := nw_wg_transport_encrypt tB pt in
  let '(rc, dec) := nw_wg_transport_decrypt tA pkt in
  let ok := bool_decide (rc = 0) && bool_decide (length dec = length pt) && bool_decide (dec = pt) in
  if negb ok then fails + 1 else fails.

End Selftest.

(** ** Randomness *)

(** A device that returns bytes. *)
Definition urandom_ok (u : urandom) : Prop := forall i b, u_reads u i = Some b -> wf_bytes b.

(** What the loop does: the buffer's bytes from [got] on are replaced by the
    device's bytes [d] in order; it reports success exactly when they reach the end. *)
Lemma random_loop_spec u len : forall fuel i buf got,
  length buf = len -> (got <= len)%nat -> (len - got < fuel)%nat ->
  exists d, random_loop fuel u i buf len got =
    (if decide (got + length d = len)%nat then 0 else -1, store buf got d) /\
    (got + length d <= len)%nat /\ (urandom_ok u -> wf_bytes d).
Proof.
  induction fuel as [|fuel IH]; intros i buf got Hl Hg Hf; [lia|]. cbn [random_loop].
  assert (store buf got [] = buf) as Hnil by (unfold store; cbn [length app]; by rewrite Nat.add_0_r, take_drop).
  case_decide as Hlt.
  - destruct (u_reads u i) as [ready|] eqn:Er.
    + case_decide as Hn.
      * exists []. cbn [length]. rewrite decide_False, Hnil by lia. split; [done|split; [lia|constructor]].
      * set (data := take (len - got) ready) in *.
        assert (length data <= len - got)%nat by (unfold data; rewrite length_take; lia).
        destruct (IH (S i) (store buf got data) (got + length data)%nat) as (d & -> & Hd & Hw);
          [by rewrite length_store by lia|lia|lia|].
        exists (data ++ d). rewrite length_app. split; [|split; [lia|]].
        -- f_equal; [repeat case_decide; done || lia|apply store_store; lia].
        -- intros Hu. apply Forall_app_2; [|by apply Hw]. apply Forall_take. by apply (Hu i).
    + exists []. cbn [length]. rewrite decide_False, Hnil by lia. split; [done|split; [lia|constructor]].
  - exists []. cbn [length]. rewrite decide_True, Hnil by lia. split; [done|split; [lia|constructor]].
Qed.

Lemma nw_random_spec u buf len : length buf = len ->
  exists d, nw_random u buf len =
    (if decide (u_fd u < 0) then -1 else if decide (length d = len)%nat then 0 else -1, store buf 0 d) /\
    (length d <= len)%nat /\ (u_fd u < 0 -> d = []) /\ (urandom_ok u -> wf_bytes d).
Proof.
  intros Hl. unfold nw_random. case_decide as Hf.
  - exists []. cbn [length]. split; [unfold store; by rewrite take_0|]. split; [lia|]. by split.
  - destruct (random_loop_spec u len (len + 1) 0 buf 0 Hl) as (d & -> & Hd & Hw); [lia..|].
    exists d. split; [done|]. split; [lia|]. by split; [lia|].
Qed.

Lemma nw_random_key u buf : urandom_ok u -> is_key buf -> is_key (nw_random u buf 32).2.
Proof.
  intros Hu [Hb Hl]. destruct (nw_random_spec u buf 32 Hl) as (d & -> & Hd & _ & Hw). cbn [snd].
  split; [apply Forall_store; auto|by rewrite length_store by lia].
Qed.

(** ** The symmetric helpers in terms of their specifications *)

Lemma mix_hash_spec h d : wf_bytes h -> wf_bytes d -> mix_hash h d = Hash (h ++ d).
Proof. intros. by apply hash32_two. Qed.
Lemma label_wf : wf_bytes NW_LABEL_MAC1.
Proof. apply str_wf. Qed.
Lemma mac1_key_spec p : wf_bytes p -> mac1_key p = Hash (NW_LABEL_MAC1 ++ p).
Proof. intros. by apply hash32_two; [apply label_wf|]. Qed.
Lemma mix_chain_spec ck d : wf_bytes ck -> wf_bytes d -> mix_chain ck d = hkdf ck d 1.
Proof. intros. unfold mix_chain. by rewrite nw_kdf_spec. Qed.
Lemma kdf2_spec ck d : wf_bytes ck -> wf_bytes d -> kdf2 ck d = (hkdf ck d 1, hkdf ck d 2).
Proof. intros. unfold kdf2. by rewrite nw_kdf_spec. Qed.
Lemma kdf3_spec ck d : wf_bytes ck -> wf_bytes d -> kdf3 ck d = (hkdf ck d 1, hkdf ck d 2, hkdf ck d 3).
Proof. intros. unfold kdf3. by rewrite nw_kdf_spec. Qed.
Lemma mac16_spec m k : wf_bytes m -> is_key k -> mac16 m k = rfc_blake2s 16 m k.
Proof. intros Hm [Hk Hl]. unfold mac16. by rewrite nw_blake2s_spec by (assumption || lia). Qed.

Lemma construction_wf : wf_bytes NW_CONSTRUCTION.
Proof. apply str_wf. Qed.
Lemma identifier_wf : wf_bytes NW_IDENTIFIER.
Proof. apply str_wf. Qed.
Lemma init_state_spec rs : wf_bytes rs ->
  init_state rs = (Hash NW_CONSTRUCTION, Hash (Hash (Hash NW_CONSTRUCTION ++ NW_IDENTIFIER) ++ rs)).
Proof.
  intros Hr. unfold init_state. rewrite nw_blake2s_spec by (first [apply construction_wf | apply Forall_nil_2 | cbn [length]; lia]).
  cbn [from_option id]. fold (Hash NW_CONSTRUCTION).
  rewrite (mix_hash_spec (Hash _)) by (apply H_wf || apply identifier_wf).
  by rewrite mix_hash_spec by (apply H_wf || assumption).
Qed.

Lemma H_key m : is_key (Hash m).
Proof. split; [apply H_wf|apply length_H]. Qed.
Lemma hkdf_key s m i : is_key (hkdf s m (S i)).
Proof. split; [apply hkdf_wf|apply length_hkdf]. Qed.
#[export] Hint Resolve H_key hkdf_key : words.

Lemma tai64n_wf tv : wf_bytes (tai64n tv) /\ length (tai64n tv) = 12%nat.
Proof.
  unfold tai64n. set (inner := for_loop 0 8 _ _).
  assert (wf_bytes inner /\ length inner = 12%nat) as Hi.
  { apply (for_loop_inv (fun _ o => wf_bytes o /\ length o = 12%nat)).
    - split; [apply zeros_wf|done].
    - intros i o _ [Hw Hl]. split; [apply Forall_insert; auto with words|by rewrite length_insert]. }
  apply (for_loop_inv (fun _ o => wf_bytes o /\ length o = 12%nat)); [done|].
  intros i o _ [Hw Hl]. split; [apply Forall_insert; auto with words|by rewrite length_insert].
Qed.

(** ** Specification: the messages of the WireGuard protocol

    The two handshake messages as functions of the public values and of the
    Diffie-Hellman results, so that both ends can be compared with them. *)

(** First message, chaining key and hash. *)
Definition wg_msg1 (S_i E_i S_r reserved : list Z) (index : Z) (ts dh_es dh_ss : list Z)
  : list Z * list Z * list Z :=
  let C0 := Hash NW_CONSTRUCTION in
  let H0 := Hash (Hash (C0 ++ NW_IDENTIFIER) ++ S_r) in
  let C1 := hkdf C0 E_i 1 in
  let H1 := Hash (H0 ++ E_i) in
  let enc_static := rfc_aead S_i H1 (hkdf C1 dh_es 2) ZERO_NONCE in
  let C2 := hkdf C1 dh_es 1 in
  let H2 := Hash (H1 ++ enc_static) in
  let enc_ts := rfc_aead ts H2 (hkdf C2 dh_ss 2) ZERO_NONCE in
  let C3 := hkdf C2 dh_ss 1 in
  let H3 := Hash (H2 ++ enc_ts) in
  let body := ([1] ++ reserved ++ le_bytes 4 index ++ E_i) ++ enc_static ++ enc_ts in
  (body ++ rfc_blake2s 16 body (Hash (NW_LABEL_MAC1 ++ S_r)) ++ zeros 16, C3, H3).

(** Second message and the two transport keys. *)
Definition wg_msg2 (E_r S_i reserved : list Z) (index index_i : Z) (psk C H0 dh_ee dh_se : list Z)
  : list Z * list Z * list Z :=
  let C1 := hkdf (hkdf (hkdf C E_r 1) dh_ee 1) dh_se 1 in
  let H1 := Hash (Hash (H0 ++ E_r) ++ hkdf C1 psk 2) in
  let C2 := hkdf C1 psk 1 in
  let body := ([2] ++ reserved ++ le_bytes 4 index ++ le_bytes 4 index_i ++ E_r) ++
              rfc_aead [] H1 (hkdf C1 psk 3) ZERO_NONCE in
  (body ++ rfc_blake2s 16 body (Hash (NW_LABEL_MAC1 ++ S_i)) ++ zeros 16, hkdf C2 [] 1, hkdf C2 [] 2).

Record wf_hs (hs : nw_handshake) : Prop := {
  wfh_static_private : is_key (hs_static_private hs);
  wfh_static_public : is_key (hs_static_public hs);
  wfh_peer : is_key (hs_peer_static_public hs);
  wfh_psk : is_key (hs_psk hs);
  wfh_hash : is_key (hs_hash hs);
  wfh_chain : is_key (hs_chaining_key hs);
  wfh_ephemeral_private : is_key (hs_ephemeral_private hs);
  wfh_ephemeral_public : is_key (hs_ephemeral_public hs);
  wfh_remote_ephemeral : is_key (hs_remote_ephemeral hs);
  wfh_remote_static : is_key (hs_remote_static hs);
  wfh_reserved : wf_bytes (hs_reserved hs) /\ length (hs_reserved hs) = 3%nat
}.

Lemma aead_params_key k : is_key k -> aead_params k ZERO_NONCE.
Proof. intros [Hw Hl]. split_and!; try assumption; [apply zeros_wf|reflexivity]. Qed.

Lemma aead_encrypt_key plain aad k : is_key k -> wf_bytes plain -> wf_bytes aad ->
  nw_chacha20poly1305_encrypt plain aad k ZERO_NONCE = rfc_aead plain aad k ZERO_NONCE.
Proof. intros. by apply aead_encrypt_spec; [apply aead_params_key| |]. Qed.

Lemma aead_decrypt_key plain aad k : is_key k -> wf_bytes plain -> wf_bytes aad ->
  nw_chacha20poly1305_decrypt (rfc_aead plain aad k ZERO_NONCE) aad k ZERO_NONCE = Some plain.
Proof. intros. rewrite <- aead_encrypt_key by assumption. by apply aead_roundtrip; [apply aead_params_key| |]. Qed.

Lemma rfc_aead_key_wf plain aad k : wf_bytes plain -> wf_bytes (rfc_aead plain aad k ZERO_NONCE).
Proof. apply rfc_aead_wf. Qed.
Lemma rfc_mac_wf n m k : wf_bytes (rfc_blake2s n m k).
Proof. apply rfc_blake2s_wf. Qed.
#[export] Hint Resolve rfc_aead_key_wf rfc_mac_wf identifier_wf construction_wf label_wf : words.

#[local] Opaque mix_hash mix_chain kdf2 kdf3 mac1_key mac16 init_state tai64n nw_random Hash hkdf rfc_aead
  rfc_blake2s nw_chacha20poly1305_encrypt nw_chacha20poly1305_decrypt.

#[export] Hint Resolve Forall_nil_2 : words.

Lemma length_rfc_aead_key p a k : length (rfc_aead p a k ZERO_NONCE) = (length p + 16)%nat.
Proof. apply length_rfc_aead. Qed.
#[local] Hint Rewrite length_rfc_aead_key : len.

(** The fields of a message [body ++ mac ++ zeros 16]. *)
Lemma mac_layout body mac : length mac = 16%nat ->
  take (length body) (body ++ mac ++ zeros 16) = body /\ slice (body ++ mac ++ zeros 16) (length body) 16 = mac.
Proof. intros Hm. split; [by rewrite take_app_length|]. rewrite slice_app_r by lia. by apply slice_head; lia. Qed.

Lemma load_index pre i post : is_u32 i -> wf_bytes pre -> wf_bytes post ->
  ld32le (pre ++ le_bytes 4 i ++ post) (length pre) = i.
Proof.
  intros Hi Hpre Hpost. unfold ld32le. rewrite load32_le by (wf; len).
  rewrite slice_app_r, Nat.sub_diag, slice_head, le_val_le_bytes by len. by apply Z.mod_small.
Qed.

Section Protocol.
Context {KX : KeyExchange}.

Lemma wf_new_ephemeral u hs i : urandom_ok u -> wf_hs hs -> wf_hs (new_ephemeral u hs i).
Proof.
  intros Hu Hw. pose proof (nw_random_key u _ Hu (wfh_ephemeral_private _ Hw)) as Hk.
  destruct Hw. constructor; cbn; auto with words.
Qed.

(** The initiator sends the first message. *)
Lemma create_initiation_msg1 u tv hs index : urandom_ok u -> wf_hs hs ->
  let hs1 := new_ephemeral u hs index in
  let '(msg, C, h) := wg_msg1 (hs_static_public hs) (hs_ephemeral_public hs1) (hs_peer_static_public hs)
    (hs_reserved hs) index (tai64n tv) (kx (hs_ephemeral_private hs1) (hs_peer_static_public hs))
    (kx (hs_static_private hs) (hs_peer_static_public hs)) in
  nw_wg_create_initiation u tv hs index = (set_chain hs1 C h (hs_remote_index hs), msg).
Proof.
  intros Hu Hw hs1. pose proof (wf_new_ephemeral u hs index Hu Hw) as Hw1. fold hs1 in Hw1.
  unfold nw_wg_create_initiation, wg_msg1. fold hs1.
  destruct (tai64n_wf tv) as [Htw Htl].
  pose proof (wfh_static_private _ Hw) as K1. pose proof (wfh_static_public _ Hw) as K2.
  pose proof (wfh_peer _ Hw) as K3. pose proof (wfh_ephemeral_private _ Hw1) as K4.
  pose proof (wfh_ephemeral_public _ Hw1) as K5.
  destruct (wfh_reserved _ Hw) as [Hrw Hrl].
  change (hs_static_private hs1) with (hs_static_private hs). change (hs_static_public hs1) with (hs_static_public hs).
  change (hs_peer_static_public hs1) with (hs_peer_static_public hs). change (hs_reserved hs1) with (hs_reserved hs).
  change (hs_remote_index hs1) with (hs_remote_index hs).
  clearbody hs1.
  rewrite init_state_spec by auto with words. unfold st32le. rewrite store32_le.
  rewrite mix_chain_spec, (mix_hash_spec (Hash _) (hs_ephemeral_public hs1)) by auto with words.
  rewrite kdf2_spec by auto with words. rewrite (aead_encrypt_key (hs_static_public hs)) by auto with words.
  rewrite (mix_hash_spec _ (rfc_aead _ _ _ _)) by auto with words.
  rewrite kdf2_spec by auto with words. rewrite (aead_encrypt_key (tai64n tv)) by auto with words.
  rewrite (mix_hash_spec _ (rfc_aead (tai64n tv) _ _ _)) by auto with words.
  rewrite mac1_key_spec by auto with words.
  rewrite mac16_spec by (auto 12 with words; wf). reflexivity.
Qed.

(** The responder accepts the first message when its Diffie-Hellman results are
    the sender's, and learns the sender's static key and index. *)
Lemma consume_initiation_msg1 hs S_i E_i reserved index ts :
  wf_hs hs -> is_key S_i -> is_key E_i -> wf_bytes reserved -> length reserved = 3%nat -> is_u32 index ->
  wf_bytes ts -> length ts = 12%nat ->
  let '(msg, C, h) := wg_msg1 S_i E_i (hs_static_public hs) reserved index ts
    (kx (hs_static_private hs) E_i) (kx (hs_static_private hs) S_i) in
  nw_wg_consume_initiation hs msg =
    (0, set_chain (set_remote_static (set_remote_ephemeral hs E_i) S_i) C h index) /\ length msg = 148%nat.
Proof.
  intros Hw KS KE Hrw Hrl Hi Htw Htl. unfold wg_msg1.
  set (C0 := Hash NW_CONSTRUCTION). set (H0 := Hash (Hash (C0 ++ _) ++ _)). set (C1 := hkdf C0 E_i 1). set (H1 := Hash (H0 ++ E_i)).
  set (es := rfc_aead S_i _ _ _). set (C2 := hkdf C1 _ 1). set (H2 := Hash (H1 ++ es)).
  set (ets := rfc_aead ts _ _ _). set (body := (_ ++ _ ++ _ ++ E_i) ++ es ++ ets).
  set (mac := rfc_blake2s 16 body _).
  pose proof (wfh_static_private _ Hw) as K1. pose proof (wfh_static_public _ Hw) as K2.
  pose proof (is_key_length _ KS) as LS. pose proof (is_key_length _ KE) as LE.
  assert (length es = 48%nat) as Les by (unfold es; rewrite length_rfc_aead_key; lia).
  assert (length ets = 28%nat) as Lets by (unfold ets; rewrite length_rfc_aead_key; lia).
  assert (wf_bytes es) as Wes by (unfold es; auto with words).
  assert (wf_bytes ets) as Wets by (unfold ets; auto with words).
  assert (length body = 116%nat) as Lb by (unfold body; len).
  assert (wf_bytes body) as Wb by (unfold body; wf).
  assert (length mac = 16%nat) as Lm by (apply rfc_blake2s_length; lia).
  destruct (mac_layout body mac Lm) as [Ht Hm]. rewrite Lb in Ht, Hm.
  set (msg := body ++ mac ++ zeros 16) in *.
  assert (msg.[0] = 1) as Ety by reflexivity.
  assert (slice msg 8 32 = E_i) as EE by (unfold msg, body; slices).
  assert (slice msg 40 48 = es) as Ees by (unfold msg, body; slices).
  assert (slice msg 88 28 = ets) as Eets by (unfold msg, body; slices).
  assert (ld32le msg 4 = index) as Eix.
  { pose proof (load_index ([1] ++ reserved) index (E_i ++ es ++ ets ++ mac ++ zeros 16) Hi) as Hix.
    replace (length ([1] ++ reserved)) with 4%nat in Hix by len.
    unfold msg, body. rewrite <- !app_assoc. rewrite <- app_assoc in Hix. apply Hix; [wf|unfold mac; wf]. }
  split; [|unfold msg; rewrite !length_app, Lb, Lm; reflexivity]. unfold nw_wg_consume_initiation. rewrite Ety, Ht, Hm, EE, Ees, Eets, Eix.
  clearbody msg. rewrite decide_False by lia. rewrite mac1_key_spec by auto with words.
  rewrite mac16_spec by auto with words. fold mac. rewrite decide_False by (intros Hn; by apply Hn).
  rewrite init_state_spec by auto with words. fold C0 H0. cbn [hs_remote_ephemeral set_remote_ephemeral hs_static_private].
  rewrite mix_chain_spec, (mix_hash_spec H0) by (unfold C0, H0; auto with words). fold C1 H1.
  rewrite kdf2_spec by (unfold C1; auto with words). fold C2. unfold es at 1.
  rewrite aead_decrypt_key by (unfold H1; auto with words).
  rewrite mix_hash_spec by (unfold H1; auto with words). fold H2.
  cbn [hs_remote_static set_remote_static hs_static_private set_remote_ephemeral].
  rewrite kdf2_spec by (unfold C2; auto with words). unfold ets at 1.
  rewrite aead_decrypt_key by (unfold H2; auto with words).
  rewrite mix_hash_spec by (unfold H2; auto with words). reflexivity.
Qed.

(** The responder sends the second message. *)
Lemma create_response_msg2 u hs index : urandom_ok u -> wf_hs hs ->
  let hs1 := new_ephemeral u hs index in
  let '(msg, k1, k2) := wg_msg2 (hs_ephemeral_public hs1) (hs_remote_static hs) (hs_reserved hs) index
    (hs_remote_index hs) (hs_psk hs) (hs_chaining_key hs) (hs_hash hs)
    (kx (hs_ephemeral_private hs1) (hs_remote_ephemeral hs))
    (kx (hs_ephemeral_private hs1) (hs_remote_static hs)) in
  nw_wg_create_response u hs index =
    (hs1, msg, Transport k2 k1 0 0 index (hs_remote_index hs) (hs_reserved hs)).
Proof.
  intros Hu Hw hs1. pose proof (wf_new_ephemeral u hs index Hu Hw) as Hw1. fold hs1 in Hw1.
  unfold nw_wg_create_response, wg_msg2. fold hs1.
  pose proof (wfh_chain _ Hw) as K1. pose proof (wfh_hash _ Hw) as K2. pose proof (wfh_psk _ Hw) as K3.
  pose proof (wfh_remote_ephemeral _ Hw) as K4. pose proof (wfh_remote_static _ Hw) as K5.
  pose proof (wfh_ephemeral_private _ Hw1) as K6. pose proof (wfh_ephemeral_public _ Hw1) as K7.
  destruct (wfh_reserved _ Hw) as [Hrw Hrl].
  change (hs_psk hs1) with (hs_psk hs). change (hs_remote_ephemeral hs1) with (hs_remote_ephemeral hs).
  change (hs_remote_static hs1) with (hs_remote_static hs). change (hs_reserved hs1) with (hs_reserved hs).
  change (hs_remote_index hs1) with (hs_remote_index hs). clearbody hs1.
  unfold st32le. rewrite !store32_le.
  rewrite (mix_chain_spec (hs_chaining_key hs)), (mix_hash_spec (hs_hash hs)) by auto with words.
  rewrite (mix_chain_spec (hkdf _ (hs_ephemeral_public hs1) _)) by auto with words.
  rewrite (mix_chain_spec (hkdf (hkdf _ _ _) _ _)) by auto with words.
  rewrite kdf3_spec by auto with words. rewrite mix_hash_spec by auto with words.
  rewrite aead_encrypt_key by auto with words.
  rewrite mac1_key_spec by auto with words. rewrite mac16_spec by (auto 12 with words; wf).
  rewrite kdf2_spec by auto with words. reflexivity.
Qed.

(** The initiator accepts the second message when its Diffie-Hellman results
    and its chaining state are the sender's, with the keys swapped. *)
Lemma consume_response_msg2 hs t E_r reserved index index_i :
  wf_hs hs -> is_key E_r -> wf_bytes reserved -> length reserved = 3%nat -> is_u32 index -> is_u32 index_i ->
  let '(msg, k1, k2) := wg_msg2 E_r (hs_static_public hs) reserved index index_i (hs_psk hs)
    (hs_chaining_key hs) (hs_hash hs) (kx (hs_ephemeral_private hs) E_r) (kx (hs_static_private hs) E_r) in
  nw_wg_consume_response hs msg t =
    (0, set_chain hs (hs_chaining_key hs) (hs_hash hs) index,
     Transport k1 k2 0 0 (hs_local_index hs) index (hs_reserved hs)) /\ length msg = 92%nat.
Proof.
  intros Hw KE Hrw Hrl Hi Hii. unfold wg_msg2.
  set (C1 := hkdf (hkdf (hkdf _ _ _) _ _) _ _). set (H1 := Hash (Hash (_ ++ E_r) ++ _)).
  set (ee := rfc_aead [] _ _ _). set (body := (_ ++ _ ++ _ ++ _ ++ E_r) ++ ee). set (mac := rfc_blake2s 16 body _).
  pose proof (wfh_static_private _ Hw) as K1. pose proof (wfh_static_public _ Hw) as K2.
  pose proof (wfh_ephemeral_private _ Hw) as K3. pose proof (wfh_chain _ Hw) as K4.
  pose proof (wfh_hash _ Hw) as K5. pose proof (wfh_psk _ Hw) as K6.
  pose proof (is_key_length _ KE) as LE.
  assert (length ee = 16%nat) as Lee by (unfold ee; rewrite length_rfc_aead_key; reflexivity).
  assert (wf_bytes ee) as Wee by (unfold ee; auto with words).
  assert (length body = 60%nat) as Lb by (unfold body; len).
  assert (wf_bytes body) as Wb by (unfold body; wf).
  assert (length mac = 16%nat) as Lm by (apply rfc_blake2s_length; lia).
  destruct (mac_layout body mac Lm) as [Ht Hm]. rewrite Lb in Ht, Hm.
  set (msg := body ++ mac ++ zeros 16) in *.
  assert (msg.[0] = 2) as Ety by reflexivity.
  assert (slice msg 12 32 = E_r) as EE by (unfold msg, body; slices).
  assert (slice msg 44 16 = ee) as Eee by (unfold msg, body; slices).
  assert (ld32le msg 4 = index) as Eix.
  { pose proof (load_index ([2] ++ reserved) index (le_bytes 4 index_i ++ E_r ++ ee ++ mac ++ zeros 16) Hi) as Hix.
    replace (length ([2] ++ reserved)) with 4%nat in Hix by len.
    unfold msg, body. rewrite <- !app_assoc. rewrite <- app_assoc in Hix. apply Hix; [wf|unfold mac; wf]. }
  split; [|unfold msg; rewrite !length_app, Lb, Lm; reflexivity]. unfold nw_wg_consume_response.
  rewrite Ety, Ht, Hm, EE, Eee, Eix. clearbody msg. rewrite decide_False by lia.
  rewrite mac1_key_spec by auto with words.
  rewrite mac16_spec by auto with words. fold mac. rewrite decide_False by (intros Hn; by apply Hn).
  rewrite (mix_chain_spec (hs_chaining_key hs)), (mix_hash_spec (hs_hash hs)) by auto with words.
  rewrite (mix_chain_spec (hkdf _ E_r _)) by auto with words.
  rewrite (mix_chain_spec (hkdf (hkdf _ _ _) _ _)) by auto with words. fold C1.
  rewrite kdf3_spec by (unfold C1; auto with words). rewrite mix_hash_spec by (unfold C1; auto with words).
  fold H1. unfold ee. rewrite aead_decrypt_key by (unfold H1, C1; auto with words).
  rewrite kdf2_spec by (unfold C1; auto with words). reflexivity.
Qed.

Lemma wf_set_chain hs C h i : wf_hs hs -> is_key C -> is_key h -> wf_hs (set_chain hs C h i).
Proof. intros [] ? ?. by constructor. Qed.
Lemma wf_set_remote hs re rs : wf_hs hs -> is_key re -> is_key rs ->
  wf_hs (set_remote_static (set_remote_ephemeral hs re) rs).
Proof. intros [] ? ?. by constructor. Qed.

(** Two parties who know each other: the initiator holds the responder's static
    public key, the public keys belong to the private ones, the psk is shared. *)
Record peers (A B : nw_handshake) : Prop := {
  peers_A : wf_hs A;
  peers_B : wf_hs B;
  peers_A_public : hs_static_public A = kx_base (hs_static_private A);
  peers_B_public : hs_static_public B = kx_base (hs_static_private B);
  peers_known : hs_peer_static_public A = hs_static_public B;
  peers_psk : hs_psk A = hs_psk B
}.

Lemma wg_msg1_length S_i E_i S_r reserved index ts dh_es dh_ss :
  length S_i = 32%nat -> length E_i = 32%nat -> length reserved = 3%nat -> length ts = 12%nat ->
  let '(msg, _, _) := wg_msg1 S_i E_i S_r reserved index ts dh_es dh_ss in length msg = 148%nat.
Proof.
  intros H1 H2 H3 H4. unfold wg_msg1. rewrite !length_app, !length_rfc_aead_key, length_le_bytes, length_zeros.
  rewrite rfc_blake2s_length by lia. cbn [length]. lia.
Qed.
Lemma create_response_static u hs i hs' m t :
  nw_wg_create_response u hs i = (hs', m, t) -> hs_remote_static hs' = hs_remote_static hs.
Proof.
  unfold nw_wg_create_response. destruct (kdf3 _ _) as [[ck tau] k], (kdf2 _ _) as [r s].
  intros [= <- _ _]. reflexivity.
Qed.
Lemma wg_msg1_keys S_i E_i S_r reserved index ts dh_es dh_ss :
  let '(_, C, h) := wg_msg1 S_i E_i S_r reserved index ts dh_es dh_ss in is_key C /\ is_key h.
Proof. unfold wg_msg1. split; auto with words. Qed.
Lemma wg_msg2_keys E_r S_i reserved index index_i psk C h dh_ee dh_se :
  let '(_, k1, k2) := wg_msg2 E_r S_i reserved index index_i psk C h dh_ee dh_se in is_key k1 /\ is_key k2.
Proof. unfold wg_msg2. split; auto with words. Qed.

(** The whole exchange, in the order the two processes run it. *)
Definition run_handshake (uA uB : urandom) (tv : timeval) (A B : nw_handshake) (iA iB : Z) (t : nw_transport)
  : Z * Z * nw_handshake * nw_handshake * nw_transport * nw_transport :=
  let '(A, init) := nw_wg_create_initiation uA tv A iA in
  let '(rc1, B) := nw_wg_consume_initiation B init in
  let '(B, resp, tB) := nw_wg_create_response uB B iB in
  let '(rc2, A, tA) := nw_wg_consume_response A resp t in
  (rc1, rc2, A, B, tA, tB).

Lemma run_handshake_spec uA uB tv A B iA iB t :
  urandom_ok uA -> urandom_ok uB -> peers A B -> is_u32 iA -> is_u32 iB ->
  let eA := hs_ephemeral_private (new_ephemeral uA A iA) in
  let eB := hs_ephemeral_private (new_ephemeral uB B iB) in
  kx_agree eA (hs_static_private B) -> kx_agree (hs_static_private A) (hs_static_private B) ->
  kx_agree eA eB -> kx_agree (hs_static_private A) eB ->
  exists A' B' k1 k2, is_key k1 /\ is_key k2 /\
    run_handshake uA uB tv A B iA iB t =
      (0, 0, A', B', Transport k1 k2 0 0 iA iB (hs_reserved A), Transport k2 k1 0 0 iB iA (hs_reserved B)) /\
    hs_remote_static B' = hs_static_public A.
Proof.
  intros HuA HuB HP HiA HiB eA eB Ges Gss Gee Gse. destruct HP as [WA WB PA PB Hk Hpsk].
  pose proof (wf_new_ephemeral uA A iA HuA WA) as WA1.
  pose proof (create_initiation_msg1 uA tv A iA HuA WA) as H1. cbn zeta in H1.
  pose proof (wfh_reserved _ WA) as [RA1 RA2]. pose proof (wfh_reserved _ WB) as [RB1 RB2].
  destruct (tai64n_wf tv) as [Htw Htl].
  pose proof (consume_initiation_msg1 B (hs_static_public A) (hs_ephemeral_public (new_ephemeral uA A iA))
    (hs_reserved A) iA (tai64n tv) WB (wfh_static_public _ WA) (wfh_ephemeral_public _ WA1) RA1 RA2 HiA Htw Htl) as H2.
  set (A1 := new_ephemeral uA A iA) in *. set (E_i := hs_ephemeral_public A1) in *.
  assert (kx eA (hs_peer_static_public A) = kx (hs_static_private B) E_i) as Q1 by (rewrite Hk, PB; exact Ges).
  assert (kx (hs_static_private A) (hs_peer_static_public A) = kx (hs_static_private B) (hs_static_public A)) as Q2
    by (rewrite Hk, PB, PA; exact Gss).
  fold eA in H1. rewrite Q1, Q2, Hk in H1.
  pose proof (wg_msg1_keys (hs_static_public A) E_i (hs_static_public B) (hs_reserved A) iA (tai64n tv)
    (kx (hs_static_private B) E_i) (kx (hs_static_private B) (hs_static_public A))) as HC.
  destruct (wg_msg1 _ _ _ _ _ _ _ _) as [[msg1 C] h]. destruct HC as [KC Kh], H2 as [H2 _].
  set (B1 := set_chain _ C h iA) in H2.
  assert (wf_hs B1) as WB1.
  { apply wf_set_chain; [|assumption..]. apply wf_set_remote; [assumption|apply WA1|apply WA]. }
  set (A2 := set_chain A1 C h _) in H1. assert (wf_hs A2) as WA2 by (by apply wf_set_chain).
  pose proof (wf_new_ephemeral uB B1 iB HuB WB1) as WB2.
  pose proof (create_response_msg2 uB B1 iB HuB WB1) as H3. cbn zeta in H3.
  pose proof (consume_response_msg2 A2 t (hs_ephemeral_public (new_ephemeral uB B1 iB)) (hs_reserved B) iB iA
    WA2 (wfh_ephemeral_public _ WB2) RB1 RB2 HiB HiA) as H4.
  set (E_r := hs_ephemeral_public (new_ephemeral uB B1 iB)) in *.
  change (hs_ephemeral_private (new_ephemeral uB B1 iB)) with eB in H3.
  change (hs_remote_ephemeral B1) with E_i in H3. change (hs_remote_static B1) with (hs_static_public A) in H3.
  change (hs_psk B1) with (hs_psk B) in H3. change (hs_chaining_key B1) with C in H3.
  change (hs_hash B1) with h in H3. change (hs_remote_index B1) with iA in H3.
  change (hs_reserved B1) with (hs_reserved B) in H3.
  change (hs_static_public A2) with (hs_static_public A) in H4. change (hs_psk A2) with (hs_psk A) in H4.
  change (hs_chaining_key A2) with C in H4. change (hs_hash A2) with h in H4.
  change (hs_ephemeral_private A2) with eA in H4. change (hs_static_private A2) with (hs_static_private A) in H4.
  assert (kx eA E_r = kx eB E_i) as Q3 by exact Gee.
  assert (kx (hs_static_private A) E_r = kx eB (hs_static_public A)) as Q4 by (rewrite PA; exact Gse).
  rewrite Q3, Q4, Hpsk in H4.
  pose proof (wg_msg2_keys E_r (hs_static_public A) (hs_reserved B) iB iA (hs_psk B) C h (kx eB E_i)
    (kx eB (hs_static_public A))) as HK.
  destruct (wg_msg2 _ _ _ _ _ _ _ _ _ _) as [[msg2 k1] k2]. destruct HK as [Kk1 Kk2], H4 as [H4 _].
  eexists _, _, k1, k2. split; [assumption|]. split; [assumption|]. unfold run_handshake.
  rewrite H1, H2, H3, H4. split; reflexivity.
Qed.

End Protocol.

(** ** Transport *)

Lemma st64le_le v : st64le v = le_bytes 8 v.
Proof. unfold st64le. cbn [seq map le_bytes]. rewrite !Z.shiftr_shiftr by lia. by rewrite Z.shiftr_0_r. Qed.

Lemma ld64le_loop p off n : wf_bytes p -> (off + n <= length p)%nat -> (n <= 8)%nat ->
  for_loop 0 n (fun v i => Z.lor v (u64 (Z.shiftl p.[off + i] (8 * Z.of_nat i)))) 0 = le_val (slice p off n).
Proof.
  intros Hp Hl. induction n as [|n IH]; intros Hn; [done|].
  rewrite for_loop_S, IH, Nat.add_0_l by lia. rewrite <- (Nat.add_1_r n), slice_split, le_val_app, length_slice by lia.
  pose proof (le_val_bound (slice p off n) ltac:(auto with words)) as Hb. rewrite length_slice in Hb by lia.
  assert (slice p (off + n) 1 = [p.[off + n]]) as ->.
  { apply ix_ext; [rewrite length_slice by lia; reflexivity|]. rewrite length_slice by lia. intros i Hi.
    rewrite ix_slice by lia. replace i with 0%nat by lia. by rewrite Nat.add_0_r. }
  pose proof (ix_byte p (off + n) Hp) as Hx. unfold is_byte in Hx.
  change 256 with (2 ^ 8) in *. rewrite <- Z.pow_mul_r in * by lia.
  set (k := 8 * Z.of_nat n) in *. assert (0 <= k <= 56) as Hk by lia.
  assert (0 < 2 ^ k <= 2 ^ 56) as Hpow by (split; [apply Z.pow_pos_nonneg; lia|apply Z.pow_le_mono_r; lia]).
  rewrite u64_id by (rewrite Z.shiftl_mul_pow2 by lia; change (2 ^ 56) with 72057594037927936 in Hpow;
    change (2 ^ 8) with 256 in Hx; nia).
  rewrite lor_add_shift by lia. cbn [le_val]. lia.
Qed.

Lemma ld64le_spec p off : wf_bytes p -> (off + 8 <= length p)%nat -> ld64le p off = le_val (slice p off 8).
Proof. intros. by apply ld64le_loop. Qed.

(** Every counter below [2^64] gives its own nonce. *)
Definition nonce_of (c : Z) : list Z := zeros 4 ++ le_bytes 8 c.

Lemma nonce_params k c : is_key k -> aead_params k (nonce_of c).
Proof. intros [Hw Hl]. split_and!; try assumption; [unfold nonce_of; wf|unfold nonce_of; len]. Qed.

Record wf_transport (t : nw_transport) : Prop := {
  wft_send : is_key (t_send_key t);
  wft_recv : is_key (t_recv_key t);
  wft_counter : is_u64 (t_send_counter t);
  wft_reserved : wf_bytes (t_reserved t) /\ length (t_reserved t) = 3%nat
}.

(** The data message of a counter value. *)
Definition wg_data (t : nw_transport) (c : Z) (plain : list Z) : list Z :=
  ([4] ++ t_reserved t ++ le_bytes 4 (t_remote_index t) ++ le_bytes 8 c) ++
  rfc_aead plain [] (t_send_key t) (nonce_of c).

Lemma transport_encrypt_spec t plain : wf_transport t -> wf_bytes plain ->
  nw_wg_transport_encrypt t plain =
    (Transport (t_send_key t) (t_recv_key t) (u64 (t_send_counter t + 1)) (t_recv_counter t)
       (t_local_index t) (t_remote_index t) (t_reserved t),
     wg_data t (t_send_counter t) plain).
Proof.
  intros Hw Hp. unfold nw_wg_transport_encrypt, wg_data. cbn [t_reserved t_remote_index t_send_key].
  rewrite st64le_le. unfold st32le. rewrite store32_le. fold (nonce_of (t_send_counter t)).
  by rewrite aead_encrypt_spec by (auto with words; apply nonce_params, Hw).
Qed.

Lemma wg_data_layout t c plain : wf_transport t -> wf_bytes plain -> is_u64 c ->
  wf_bytes (wg_data t c plain) /\ length (wg_data t c plain) = (32 + length plain)%nat /\
  ld64le (wg_data t c plain) 8 = c /\
  drop 16 (wg_data t c plain) = rfc_aead plain [] (t_send_key t) (nonce_of c).
Proof.
  intros Hw Hp Hc. destruct (wft_reserved _ Hw) as [Hrw Hrl]. unfold wg_data.
  set (hdr := [4] ++ _). assert (length hdr = 16%nat) as Lh by (unfold hdr; len).
  assert (wf_bytes hdr) as Wh by (unfold hdr; wf).
  set (ct := rfc_aead _ _ _ _). assert (length ct = (length plain + 16)%nat) as Lc by apply length_rfc_aead.
  assert (wf_bytes ct) as Wc by (by apply rfc_aead_wf).
  split; [auto with words|]. split; [rewrite length_app; lia|]. split; [|by apply drop_app_length'].
  rewrite ld64le_spec by (wf; len). rewrite slice_app_l by lia.
  assert (slice hdr 8 8 = le_bytes 8 c) as -> by (unfold hdr; slices).
  rewrite le_val_le_bytes. by apply Z.mod_small.
Qed.

(** Decryption in terms of the AEAD. *)
Lemma transport_decrypt_spec t msg : is_key (t_recv_key t) -> wf_bytes msg ->
  forall plain, nw_wg_transport_decrypt t msg = (0, plain) <->
    msg.[0] = 4 /\ (32 <= length msg)%nat /\ wf_bytes plain /\
    drop 16 msg = rfc_aead plain [] (t_recv_key t) (nonce_of (ld64le msg 8)).
Proof.
  intros Hk Hm plain. unfold nw_wg_transport_decrypt, NW_WG_DATA_HDR. rewrite st64le_le.
  fold (nonce_of (ld64le msg 8)). case_decide as Hd.
  - split; [discriminate|]. intros (H4 & Hl & _). lia.
  - pose proof (aead_decrypt_authentic_iff (drop 16 msg) plain [] (t_recv_key t) (nonce_of (ld64le msg 8))
      (nonce_params _ _ Hk) ltac:(auto with words) ltac:(constructor)) as Ha.
    destruct (nw_chacha20poly1305_decrypt _ _ _ _) as [out|].
    + split.
      * intros [= ->]. destruct (proj1 Ha eq_refl). split; [lia|]. by split; [lia|].
      * intros (_ & _ & Hp & He). injection (proj2 Ha (conj Hp He)) as ->. reflexivity.
    + split; [discriminate|]. intros (_ & _ & Hp & He). discriminate (proj2 Ha (conj Hp He)).
Qed.

Lemma transport_decrypt_data tA tB c plain :
  wf_transport tA -> t_recv_key tB = t_send_key tA -> wf_bytes plain -> is_u64 c ->
  nw_wg_transport_decrypt tB (wg_data tA c plain) = (0, plain).
Proof.
  intros Hw Hk Hp Hc. destruct (wg_data_layout tA c plain Hw Hp Hc) as (Hmw & Hml & H8 & H16).
  apply transport_decrypt_spec; [rewrite Hk; apply Hw|assumption|].
  split; [reflexivity|]. split; [lia|]. split; [assumption|]. by rewrite H16, H8, Hk.
Qed.

(** A burst of packets from one sender. *)
Fixpoint encrypt_all (t : nw_transport) (plains : list (list Z)) : nw_transport * list (list Z) :=
  match plains with
  | [] => (t, [])
  | p :: ps => let '(t, m) := nw_wg_transport_encrypt t p in
               let '(t, ms) := encrypt_all t ps in (t, m :: ms)
  end.

Lemma encrypt_all_spec plains : forall t, wf_transport t -> Forall (fun p => wf_bytes p) plains ->
  t_send_counter t + Z.of_nat (length plains) <= 2 ^ 64 ->
  forall i p, plains !! i = Some p ->
  exists m, (encrypt_all t plains).2 !! i = Some m /\ m = wg_data t (t_send_counter t + Z.of_nat i) p.
Proof.
  induction plains as [|p ps IH]; intros t Hw Hps Hc i q Hq; [done|].
  apply Forall_cons in Hps as [Hp Hps]. cbn [encrypt_all length] in *.
  rewrite transport_encrypt_spec by assumption. set (t' := Transport _ _ _ _ _ _ _).
  pose proof (wft_counter _ Hw) as Hcw. unfold is_u64 in Hcw.
  specialize (IH t'). destruct (encrypt_all t' ps) as [t'' ms]. cbn [snd] in *.
  destruct i as [|i]; cbn in Hq.
  - injection Hq as <-. exists (wg_data t (t_send_counter t) p). by rewrite Z.add_0_r.
  - assert (0 < length ps)%nat as Hlen by (apply lookup_lt_Some in Hq; lia).
    assert (t_send_counter t' = t_send_counter t + 1) as Hc' by (apply u64_id; lia).
    destruct (IH) with (i := i) (p := q) as (m & Hm & ->); try assumption; [|lia|].
    { constructor; try apply Hw. rewrite Hc'. unfold is_u64. lia. }
    exists (wg_data t' (t_send_counter t' + Z.of_nat i) q). split; [exact Hm|].
    rewrite Hc'. unfold wg_data. subst t'. cbn [t_reserved t_remote_index t_send_key].
    by replace (t_send_counter t + 1 + Z.of_nat i) with (t_send_counter t + Z.of_nat (S i)) by lia.
Qed.

(** ** Set-up *)

Section Setup.
Context {KX : KeyExchange}.

Lemma nw_handshake_init_wf u sp peer psk : urandom_ok u ->
  match sp with Some k => is_key k | None => True end ->
  match peer with Some k => is_key k | None => True end ->
  match psk with Some k => is_key k | None => True end ->
  wf_hs (nw_handshake_init u sp peer psk).
Proof.
  intros Hu Hs Hp Hk. pose proof (nw_random_key u (zeros 32) Hu zeros_key) as Hr.
  unfold nw_handshake_init. constructor; cbn; auto with words.
  - by destruct sp.
  - destruct sp; by apply kx_base_key.
  - destruct peer; [done|apply zeros_key].
  - destruct psk; [done|apply zeros_key].
  - split; [apply (zeros_wf 3)|reflexivity].
Qed.

Lemma peers_init u u' a b psk : urandom_ok u -> urandom_ok u' -> is_key a -> is_key b ->
  match psk with Some k => is_key k | None => True end ->
  peers (nw_handshake_init u (Some a) (Some (kx_base b)) psk)
        (nw_handshake_init u' (Some b) (Some (kx_base a)) psk).
Proof.
  intros Hu Hu' Ha Hb Hp.
  constructor; try reflexivity; apply nw_handshake_init_wf; auto with words.
Qed.

Lemma transport_both k1 k2 i j r r' : is_key k1 -> is_key k2 ->
  wf_bytes r -> length r = 3%nat -> wf_bytes r' -> length r' = 3%nat ->
  let tA := Transport k1 k2 0 0 i j r in let tB := Transport k2 k1 0 0 j i r' in
  (forall p, wf_bytes p -> nw_wg_transport_decrypt tB (nw_wg_transport_encrypt tA p).2 = (0, p)).
Proof.
  intros H1 H2 Hr Hrl Hr' Hrl' tA tB p Hp.
  assert (wf_transport tA) as Hw by (constructor; try done; unfold is_u64; cbn; lia).
  rewrite transport_encrypt_spec by done. cbn [snd].
  by apply transport_decrypt_data; try done; unfold is_u64; cbn.
Qed.

End Setup.

(** Sending leaves the receive key alone, and decryption reads nothing else. *)
Lemma transport_send_only t p : t_recv_key (nw_wg_transport_encrypt t p).1 = t_recv_key t.
Proof. reflexivity. Qed.
Lemma transport_decrypt_key t t' msg : t_recv_key t = t_recv_key t' ->
  nw_wg_transport_decrypt t msg = nw_wg_transport_decrypt t' msg.
Proof. intros Hk. unfold nw_wg_transport_decrypt. by rewrite Hk. Qed.

(** A device that has 32 zero bytes ready. *)
Definition zero_device : urandom := Urandom 3 (fun _ => Some (zeros 32)).
Lemma zero_device_ok : urandom_ok zero_device.
Proof. intros i b [= <-]. apply zeros_wf. Qed.

(** ** Properties *)

(** C1: the handshake of the protocol succeeds and both ends agree. For any two
    parties who know each other and whatever the random device returns, if the
    four Diffie-Hellman pairs agree, the responder accepts the initiator's first
    message and learns its static key, the initiator accepts the answer, and
    the two transports hold the same two keys crosswise, each other's index
    and zero counters. *)
Theorem handshake_agreement {KX : KeyExchange} (uA uB : urandom) (tv : timeval) (A B : nw_handshake)
    (iA iB : Z) (t : nw_transport)
    (HuA : urandom_ok uA) (HuB : urandom_ok uB) (HP : peers A B) (HiA : is_u32 iA) (HiB : is_u32 iB)
    (Hes : kx_agree (hs_ephemeral_private (new_ephemeral uA A iA)) (hs_static_private B))
    (Hss : kx_agree (hs_static_private A) (hs_static_private B))
    (Hee : kx_agree (hs_ephemeral_private (new_ephemeral uA A iA)) (hs_ephemeral_private (new_ephemeral uB B iB)))
    (Hse : kx_agree (hs_static_private A) (hs_ephemeral_private (new_ephemeral uB B iB))) :
  exists A' B' k1 k2, is_key k1 /\ is_key k2 /\
    run_handshake uA uB tv A B iA iB t =
      (0, 0, A', B', Transport k1 k2 0 0 iA iB (hs_reserved A), Transport k2 k1 0 0 iB iA (hs_reserved B)) /\
    hs_remote_static B' = hs_static_public A.
Proof. by apply run_handshake_spec. Qed.

(** Both ends run with the same zero private key, so that every pair agrees. *)
Definition demo_party : nw_handshake :=
  nw_handshake_init zero_device (Some (zeros 32)) (Some (kx_base (zeros 32))) None.

Lemma demo_peers : peers demo_party demo_party.
Proof.
  exact (peers_init zero_device zero_device (zeros 32) (zeros 32) None zero_device_ok zero_device_ok
    zeros_key zeros_key I).
Defined.

Lemma handshake_agreement_witness :
  exists A' B' k1 k2, is_key k1 /\ is_key k2 /\
    run_handshake zero_device zero_device (Timeval 1700000000 5) demo_party demo_party 1 2 (Transport [] [] 0 0 0 0 []) =
      (0, 0, A', B', Transport k1 k2 0 0 1 2 (hs_reserved demo_party), Transport k2 k1 0 0 2 1 (hs_reserved demo_party)) /\
    hs_remote_static B' = hs_static_public demo_party.
Proof.
  apply (handshake_agreement zero_device zero_device (Timeval 1700000000 5) demo_party demo_party
    1 2 (Transport [] [] 0 0 0 0 []) zero_device_ok zero_device_ok demo_peers); unfold is_u32; try lia.
  - exact (kx_agree_refl (zeros 32)).
  - exact (kx_agree_refl (zeros 32)).
  - exact (kx_agree_refl (zeros 32)).
  - exact (kx_agree_refl (zeros 32)).
Defined.

(** the first message is exactly the protocol's: 148 bytes, type 1, the
    reserved bytes, our index, the ephemeral key, the sealed static key and
    timestamp, mac1 under the responder's key and a zero mac2; the state keeps
    the chaining key and hash of the same derivation. *)
Theorem nw_wg_create_initiation_spec {KX : KeyExchange} (u : urandom) (tv : timeval) (hs : nw_handshake)
    (index : Z) (Hu : urandom_ok u) (Hw : wf_hs hs) :
  let hs1 := new_ephemeral u hs index in
  let '(msg, C, h) := wg_msg1 (hs_static_public hs) (hs_ephemeral_public hs1) (hs_peer_static_public hs)
    (hs_reserved hs) index (tai64n tv) (kx (hs_ephemeral_private hs1) (hs_peer_static_public hs))
    (kx (hs_static_private hs) (hs_peer_static_public hs)) in
  nw_wg_create_initiation u tv hs index = (set_chain hs1 C h (hs_remote_index hs), msg) /\
  length msg = NW_WG_INIT_SIZE.
Proof.
  pose proof (create_initiation_msg1 u tv hs index Hu Hw) as H1. cbn zeta in *.
  pose proof (wf_new_ephemeral u hs index Hu Hw) as Hw1. destruct (wfh_reserved _ Hw) as [_ Hrl].
  destruct (tai64n_wf tv) as [_ Htl].
  pose proof (is_key_length _ (wfh_static_public _ Hw)) as L1.
  pose proof (is_key_length _ (wfh_ephemeral_public _ Hw1)) as L2.
  pose proof (wg_msg1_length (hs_static_public hs) (hs_ephemeral_public (new_ephemeral u hs index))
    (hs_peer_static_public hs) (hs_reserved hs) index (tai64n tv)
    (kx (hs_ephemeral_private (new_ephemeral u hs index)) (hs_peer_static_public hs))
    (kx (hs_static_private hs) (hs_peer_static_public hs)) L1 L2 Hrl Htl) as Hl.
  destruct (wg_msg1 _ _ _ _ _ _ _ _) as [[msg C] h]. by split.
Qed.

Lemma nw_wg_create_initiation_spec_witness :
  let hs1 := new_ephemeral zero_device demo_party 7 in
  let '(msg, C, h) := wg_msg1 (hs_static_public demo_party) (hs_ephemeral_public hs1)
    (hs_peer_static_public demo_party) (hs_reserved demo_party) 7 (tai64n (Timeval 0 0))
    (kx (hs_ephemeral_private hs1) (hs_peer_static_public demo_party))
    (kx (hs_static_private demo_party) (hs_peer_static_public demo_party)) in
  nw_wg_create_initiation zero_device (Timeval 0 0) demo_party 7 =
    (set_chain hs1 C h (hs_remote_index demo_party), msg) /\ length msg = NW_WG_INIT_SIZE.
Proof.
  exact (nw_wg_create_initiation_spec zero_device (Timeval 0 0) demo_party 7 zero_device_ok (peers_A _ _ demo_peers)).
Defined.

(** error behaviour of the two [consume] functions: the code -1 means exactly
    a wrong type byte, -2 exactly a wrong mac1 on the right type; a rejected
    initiation never touches the chaining state, the indices or our keys (only
    -3 and -4 may have stored the remote ephemeral and static keys), and a
    rejected response touches nothing. *)
Theorem handshake_errors {KX : KeyExchange} (hs : nw_handshake) (msg : list Z) (t : nw_transport) :
  (let '(rc, hs') := nw_wg_consume_initiation hs msg in
   (rc = 0 \/ rc = -1 \/ rc = -2 \/ rc = -3 \/ rc = -4) /\
   (rc = -1 <-> msg.[0] <> 1) /\
   (rc = -2 <-> msg.[0] = 1 /\ mac16 (take 116 msg) (mac1_key (hs_static_public hs)) <> slice msg 116 16) /\
   (rc = -1 \/ rc = -2 -> hs' = hs) /\
   (rc <> 0 -> hs' = set_remote_static (set_remote_ephemeral hs (hs_remote_ephemeral hs')) (hs_remote_static hs')) /\
   (rc <> 0 -> rc <> -4 -> hs_remote_static hs' = hs_remote_static hs)) /\
  (let '(rc, hs', t') := nw_wg_consume_response hs msg t in
   (rc = 0 \/ rc = -1 \/ rc = -2 \/ rc = -3) /\
   (rc = -1 <-> msg.[0] <> 2) /\
   (rc = -2 <-> msg.[0] = 2 /\ mac16 (take 60 msg) (mac1_key (hs_static_public hs)) <> slice msg 60 16) /\
   (rc <> 0 -> hs' = hs /\ t' = t) /\
   (rc = 0 -> t_send_counter t' = 0 /\ t_recv_counter t' = 0 /\ t_remote_index t' = ld32le msg 4)).
Proof.
  assert (hs = set_remote_static (set_remote_ephemeral hs (hs_remote_ephemeral hs)) (hs_remote_static hs)) as Hid
    by (by destruct hs).
  split.
  - unfold nw_wg_consume_initiation. case_decide as H1; [split_and!; naive_solver lia|].
    case_decide as H2; [split_and!; naive_solver lia|].
    destruct (init_state _) as [ck h]. destruct (kdf2 _ _) as [ck2 k2].
    destruct (nw_chacha20poly1305_decrypt _ _ _ _) as [rs|]; [|cbn; split_and!; naive_solver lia].
    destruct (kdf2 _ _) as [ck3 k3].
    destruct (nw_chacha20poly1305_decrypt _ _ _ _) as [ts|]; cbn; split_and!; naive_solver lia.
  - unfold nw_wg_consume_response. case_decide as H1; [split_and!; naive_solver lia|].
    case_decide as H2; [split_and!; naive_solver lia|].
    destruct (kdf3 _ _) as [[ck tau] k].
    destruct (nw_chacha20poly1305_decrypt _ _ _ _) as [rs|]; [|cbn; split_and!; naive_solver lia].
    destruct (kdf2 _ _) as [send recv]. cbn. split_and!; naive_solver lia.
Qed.

(** C14: a burst of data messages from one transport carries the counters
    [c, c+1, ...] as pairwise different nonces, and the peer decrypts each of
    them to its plaintext in whatever order they arrive, as long as the 64-bit
    counter does not wrap. *)
Theorem transport_stream (tA tB : nw_transport) (plains : list (list Z))
    (Hw : wf_transport tA) (Hk : t_recv_key tB = t_send_key tA) (Hp : Forall (fun p => wf_bytes p) plains)
    (Hc : t_send_counter tA + Z.of_nat (length plains) <= 2 ^ 64) :
  forall i p, plains !! i = Some p -> exists m, (encrypt_all tA plains).2 !! i = Some m /\
    ld64le m 8 = t_send_counter tA + Z.of_nat i /\ length m = (32 + length p)%nat /\
    nw_wg_transport_decrypt tB m = (0, p).
Proof.
  intros i p Hi. destruct (encrypt_all_spec plains tA Hw Hp Hc i p Hi) as (m & Hm & ->).
  pose proof (Forall_lookup_1 _ _ _ _ Hp Hi) as Hpw. cbn beta in Hpw.
  pose proof (wft_counter _ Hw) as Hcw. unfold is_u64 in Hcw. apply lookup_lt_Some in Hi as Hlt.
  assert (is_u64 (t_send_counter tA + Z.of_nat i)) as Hci by (unfold is_u64; lia).
  destruct (wg_data_layout tA _ p Hw Hpw Hci) as (_ & Hl & H8 & _).
  eexists. split; [exact Hm|]. split; [exact H8|]. split; [exact Hl|]. by apply transport_decrypt_data.
Qed.

Lemma transport_stream_witness :
  exists m, (encrypt_all (Transport (zeros 32) (zeros 32) 5 0 1 2 (zeros 3)) [[1; 2]; [3]]).2 !! 1%nat = Some m /\
    ld64le m 8 = 6 /\ length m = 33%nat /\
    nw_wg_transport_decrypt (Transport (zeros 32) (zeros 32) 0 0 2 1 (zeros 3)) m = (0, [3]).
Proof.
  refine (transport_stream (Transport (zeros 32) (zeros 32) 5 0 1 2 (zeros 3))
    (Transport (zeros 32) (zeros 32) 0 0 2 1 (zeros 3)) [[1; 2]; [3]] _ eq_refl _ _ 1%nat [3] eq_refl).
  - constructor; [apply zeros_key|apply zeros_key|unfold is_u64; cbn; lia|split; [apply (zeros_wf 3)|reflexivity]].
  - repeat constructor; lia.
  - cbn. lia.
Defined.

(** the transport accepts a message exactly when it has type 4, at least 32
    bytes, and its body is the AEAD of the result under the receive key and
    the nonce made of the message's own counter field. *)
Theorem transport_decrypt_authentic (t : nw_transport) (msg plain : list Z)
    (Hk : is_key (t_recv_key t)) (Hm : wf_bytes msg) :
  nw_wg_transport_decrypt t msg = (0, plain) <->
  msg.[0] = 4 /\ (32 <= length msg)%nat /\ wf_bytes plain /\
  drop 16 msg = rfc_aead plain [] (t_recv_key t) (nonce_of (ld64le msg 8)).
Proof. by apply transport_decrypt_spec. Qed.

Lemma transport_decrypt_authentic_witness :
  nw_wg_transport_decrypt (Transport (zeros 32) (zeros 32) 0 0 2 1 (zeros 3)) (zeros 40) = (0, []) <->
  (zeros 40).[0] = 4 /\ (32 <= 40)%nat /\ Forall is_byte [] /\
  drop 16 (zeros 40) = rfc_aead [] [] (zeros 32) (nonce_of (ld64le (zeros 40) 8)).
Proof.
  exact (transport_decrypt_authentic (Transport (zeros 32) (zeros 32) 0 0 2 1 (zeros 3)) (zeros 40) []
    zeros_key (zeros_wf 40)).
Defined.

(** [nw_random] terminates within one read per byte; it returns 0 exactly when
    the device delivered the whole buffer, and otherwise leaves everything past
    the delivered prefix as it was: nothing at all is written when the device
    does not open. *)
Theorem nw_random_correct (u : urandom) (buf : list Z) :
  exists d, (length d <= length buf)%nat /\
    nw_random u buf (length buf) =
      (if decide (0 <= u_fd u /\ length d = length buf) then 0 else -1, d ++ drop (length d) buf) /\
    (u_fd u < 0 -> d = []).
Proof.
  destruct (nw_random_spec u buf (length buf) eq_refl) as (d & He & Hl & Hn & _).
  exists d. split; [exact Hl|]. split; [|exact Hn]. rewrite He. unfold store. rewrite take_0. cbn [app].
  f_equal. repeat case_decide; lia || reflexivity.
Qed.

(** When the random device does not open, [nw_wg_create_initiation] still reports
    success and sends the old ephemeral key; on a fresh state that private key is
    all zeros. *)
Theorem ephemeral_reuse {KX : KeyExchange} (u : urandom) (tv : timeval) (hs : nw_handshake) (index : Z)
    (Hu : u_fd u < 0) :
  hs_ephemeral_private (nw_wg_create_initiation u tv hs index).1 = hs_ephemeral_private hs.
Proof.
  assert (nw_random u (hs_ephemeral_private hs) 32 = (-1, hs_ephemeral_private hs)) as Hr.
  { with_strategy transparent [nw_random] unfold nw_random. by rewrite decide_True. }
  unfold nw_wg_create_initiation. destruct (init_state _) as [ck h]. destruct (kdf2 _ _) as [c1 k1].
  destruct (kdf2 _ _) as [c2 k2]. cbn [fst set_chain hs_ephemeral_private new_ephemeral]. by rewrite Hr.
Qed.

Lemma ephemeral_reuse_witness :
  hs_ephemeral_private (nw_wg_create_initiation (Urandom (-1) (fun _ => None)) (Timeval 0 0) demo_party 1).1 =
  hs_ephemeral_private demo_party.
Proof. apply (ephemeral_reuse (Urandom (-1) (fun _ => None)) (Timeval 0 0) demo_party 1). reflexivity. Defined.

(** the self-test counts no failure when the key exchange works: handshake,
    learned key, crosswise keys and both data round trips pass for every content
    of the random device. *)
Theorem nw_wg_selftest_passes {KX : KeyExchange} (u : nat -> urandom) (tv : timeval) (a0 b0 : list Z)
    (t0 : nw_transport) (Hu : forall i, urandom_ok (u i)) (Ha : is_key a0) (Hb : is_key b0)
    (a := (nw_random (u 0%nat) a0 32).2) (b := (nw_random (u 1%nat) b0 32).2)
    (eA := (nw_random (u 4%nat) (zeros 32) 32).2) (eB := (nw_random (u 5%nat) (zeros 32) 32).2)
    (Hes : kx_agree eA b) (Hss : kx_agree a b) (Hee : kx_agree eA eB) (Hse : kx_agree a eB) :
  nw_wg_selftest u tv a0 b0 t0 = 0.
Proof.
  assert (is_key a) as Ka by (by apply nw_random_key). assert (is_key b) as Kb by (by apply nw_random_key).
  pose proof (peers_init (u 2%nat) (u 3%nat) a b None (Hu _) (Hu _) Ka Kb I) as HP.
  unfold nw_wg_selftest. fold a b. set (A := nw_handshake_init _ _ _ _) in *.
  set (B := nw_handshake_init (u 3%nat) _ _ _) in *.
  destruct (run_handshake_spec (u 4%nat) (u 5%nat) tv A B 0x11111111 0x22222222 t0) as
    (A' & B' & k1 & k2 & K1 & K2 & Hrun & Hrs); try assumption; try apply Hu; try (unfold is_u32; lia).
  unfold run_handshake in Hrun.
  destruct (nw_wg_create_initiation _ _ _ _) as [A1 init].
  destruct (nw_wg_consume_initiation _ _) as [rc1 B1] eqn:EB1.
  destruct (nw_wg_create_response _ _ _) as [[B2 resp] tB] eqn:EB2.
  destruct (nw_wg_consume_response _ _ _) as [[rc2 A2] tA].
  injection Hrun as -> -> <- <- -> ->.
  assert (hs_remote_static B1 = kx_base a) as -> by (rewrite <- (create_response_static _ _ _ _ _ _ EB2); exact Hrs).
  rewrite !decide_False by lia. rewrite !bool_decide_eq_true_2 by reflexivity. cbn [negb andb].
  pose proof (transport_both k1 k2 0x11111111 0x22222222 (hs_reserved A) (hs_reserved B) K1 K2
    (zeros_wf 3) eq_refl (zeros_wf 3) eq_refl (str "the quick brown fox over WireGuard") (str_wf _)) as HAB.
  pose proof (transport_both k2 k1 0x22222222 0x11111111 (hs_reserved B) (hs_reserved A) K2 K1
    (zeros_wf 3) eq_refl (zeros_wf 3) eq_refl (str "and the reply travels back") (str_wf _)) as HBA.
  cbn zeta in HAB, HBA. set (ptA := str "the quick brown fox over WireGuard") in *.
  set (ptB := str "and the reply travels back") in *. set (tA := Transport k1 k2 _ _ _ _ _) in *.
  set (tB := Transport k2 k1 _ _ _ _ _) in *.
  pose proof (transport_send_only tA ptA) as Hs.
  destruct (nw_wg_transport_encrypt tA ptA) as [tA' pktA]. cbn [fst snd] in *. rewrite HAB.
  rewrite !bool_decide_eq_true_2 by reflexivity. cbn [negb andb].
  destruct (nw_wg_transport_encrypt tB ptB) as [tB' pktB]. cbn [snd] in *.
  rewrite (transport_decrypt_key tA' tA) by exact Hs. rewrite HBA.
  rewrite !bool_decide_eq_true_2 by reflexivity. reflexivity.
Qed.

Lemma nw_wg_selftest_passes_witness :
  nw_wg_selftest (fun _ => zero_device) (Timeval 0 0) (zeros 32) (zeros 32) (Transport [] [] 0 0 0 0 []) = 0.
Proof.
  apply (nw_wg_selftest_passes (fun _ => zero_device) (Timeval 0 0) (zeros 32) (zeros 32)
    (Transport [] [] 0 0 0 0 []) (fun _ => zero_device_ok) zeros_key zeros_key);
    exact (kx_agree_refl (zeros 32)).
Defined.
