(* ===== verification/Awg.v ===== *)
(** * AmneziaWG obfuscation

    [src/Modules/NekroEngine/NekroCore/wg/awg.c]: the parameter record, the
    signature-packet language and the junk datagrams. C strings are byte lists
    without the terminator, so that reading a cell past the end ([ix]) gives the
    NUL; the environment (random device, clock, socket) is an oracle indexed by
    the number of calls made so far. *)

From S2P Require Import Prelude Wg.

(** ** The C code *)

Record nw_awg := Awg {
  jc : Z; jmin : Z; jmax : Z;
  s1 : Z; s2 : Z; s3 : Z; s4 : Z;
  h1 : Z; h2 : Z; h3 : Z; h4 : Z;
  ipkt : list (list Z)
}.

Definition nw_awg_defaults : nw_awg := Awg 0 0 0 0 0 0 0 1 2 3 4 [[]; []; []; []; []].

Definition nw_awg_active (a : nw_awg) : Z :=
  if decide (0 < jc a) then 1 else
  if decide (s1 a <> 0 \/ s2 a <> 0 \/ s3 a <> 0 \/ s4 a <> 0) then 1 else
  if decide (h1 a <> 1 \/ h2 a <> 2 \/ h3 a <> 3 \/ h4 a <> 4) then 1 else
  if existsb (fun i => negb ((nth i (ipkt a) []).[0] =? 0)) (seq 0 5) then 1 else 0.

(** [tolower] in the C locale, [strcasecmp(a, b) == 0]. *)
Definition tolower (c : Z) : Z := if decide (65 <= c <= 90) then c + 32 else c.
Definition strcaseeq (a b : list Z) : bool := bool_decide (map tolower a = map tolower b).

(** [isspace] in the C locale; [atoi] is [(int)strtol(s, NULL, 10)] with a 64-bit
    [long], which saturates. *)
Definition isspace (c : Z) : bool := bool_decide (c = 32 \/ 9 <= c <= 13).
Fixpoint skip_space (s : list Z) : list Z :=
  match s with c :: r => if isspace c then skip_space r else s | [] => [] end.
Fixpoint digits (acc : Z) (s : list Z) : Z :=
  match s with
  | c :: r => if decide (48 <= c <= 57) then digits (acc * 10 + (c - 48)) r else acc
  | [] => acc
  end.
Definition atoi (s : list Z) : Z :=
  let s := skip_space s in
  let v := if decide (s.[0] = 45) then - digits 0 (tail s)
           else if decide (s.[0] = 43) then digits 0 (tail s) else digits 0 s in
  i32 (Z.max (-0x8000000000000000) (Z.min v 0x7fffffffffffffff)).

Definition set_ipkt (a : nw_awg) (idx : nat) (v : list Z) : nw_awg :=
  Awg (jc a) (jmin a) (jmax a) (s1 a) (s2 a) (s3 a) (s4 a) (h1 a) (h2 a) (h3 a) (h4 a) (<[idx := v]> (ipkt a)).

(** The return value and the updated record; NULL is [None]. *)
Definition nw_awg_set (a : nw_awg) (key val : option (list Z)) : Z * nw_awg :=
  match key, val with
  | Some key, Some val =>
      let '(Awg jc jmin jmax s1 s2 s3 s4 h1 h2 h3 h4 ipkt) := a in
      if strcaseeq key (str "jc") then (1, Awg (atoi val) jmin jmax s1 s2 s3 s4 h1 h2 h3 h4 ipkt) else
      if strcaseeq key (str "jmin") then (1, Awg jc (atoi val) jmax s1 s2 s3 s4 h1 h2 h3 h4 ipkt) else
      if strcaseeq key (str "jmax") then (1, Awg jc jmin (atoi val) s1 s2 s3 s4 h1 h2 h3 h4 ipkt) else
      if strcaseeq key (str "s1") then (1, Awg jc jmin jmax (atoi val) s2 s3 s4 h1 h2 h3 h4 ipkt) else
      if strcaseeq key (str "s2") then (1, Awg jc jmin jmax s1 (atoi val) s3 s4 h1 h2 h3 h4 ipkt) else
      if strcaseeq key (str "s3") then (1, Awg jc jmin jmax s1 s2 (atoi val) s4 h1 h2 h3 h4 ipkt) else
      if strcaseeq key (str "s4") then (1, Awg jc jmin jmax s1 s2 s3 (atoi val) h1 h2 h3 h4 ipkt) else
      if strcaseeq key (str "h1") then (1, Awg jc jmin jmax s1 s2 s3 s4 (atoi val) h2 h3 h4 ipkt) else
      if strcaseeq key (str "h2") then (1, Awg jc jmin jmax s1 s2 s3 s4 h1 (atoi val) h3 h4 ipkt) else
      if strcaseeq key (str "h3") then (1, Awg jc jmin jmax s1 s2 s3 s4 h1 h2 (atoi val) h4 ipkt) else
      if strcaseeq key (str "h4") then (1, Awg jc jmin jmax s1 s2 s3 s4 h1 h2 h3 (atoi val) ipkt) else
      if decide ((key.[0] = 105 \/ key.[0] = 73) /\ 49 <= key.[1] /\ key.[1] <= 53 /\ key.[2] = 0) then
        let idx := Z.to_nat (key.[1] - 49) in
        if bool_decide (val.[0] = 0) || strcaseeq val (str "<b 0x1A2B3C>")
        then (1, set_ipkt a idx []) else
        (1, set_ipkt a idx (take 4095 val))
      else (0, a)
  | _, _ => (0, a)
  end.

Definition hexval (c : Z) : Z :=
  if decide (48 <= c <= 57) then c - 48 else
  if decide (97 <= c <= 102) then c - 97 + 10 else
  if decide (65 <= c <= 70) then c - 65 + 10 else -1.

(** The same loop as [nw_random], on an [int] length. *)
Definition fill_random (u : urandom) (buf : list Z) (n : nat) : Z * list Z :=
  if decide (u_fd u < 0) then (-1, buf) else random_loop (n + 1) u 0 buf n 0.

(** The environment, and what the functions keep: the static tag counter, the
    numbers of calls, and the datagrams [sendto] accepted. *)
Record awg_world := World {
  w_random : nat -> urandom;
  w_time : nat -> Z;
  w_send : nat -> bool
}.
Record awg_state := AState {
  a_counter : Z;
  a_randoms : nat;
  a_times : nat;
  a_sends : nat;
  a_wire : list (list Z)
}.

Definition call_random (w : awg_world) (st : awg_state) (buf : list Z) (n : nat) : awg_state * (Z * list Z) :=
  (AState (a_counter st) (S (a_randoms st)) (a_times st) (a_sends st) (a_wire st),
   fill_random (w_random w (a_randoms st)) buf n).
(** [sendto(...) >= 0] *)
Definition call_send (w : awg_world) (st : awg_state) (data : list Z) : awg_state * bool :=
  let ok := w_send w (a_sends st) in
  (AState (a_counter st) (a_randoms st) (a_times st) (S (a_sends st))
     (if ok then a_wire st ++ [data] else a_wire st), ok).

(** [while ( *p == ' ') p++], [while ( *p && *p != '>') p++] *)
Fixpoint skip_blank (p : list Z) : list Z :=
  match p with c :: r => if decide (c = 32) then skip_blank r else p | [] => [] end.
Fixpoint skip_to_gt (p : list Z) : list Z :=
  match p with c :: r => if decide (c = 62) then p else skip_to_gt r | [] => [] end.

(** The bytes of [out] written so far are a list; its length is [len]. *)
Definition put (cap : nat) (out : list Z) (b : Z) : list Z :=
  if decide (length out < cap)%nat then out ++ [u8 b] else out.

(** The hex loop of a [<b>] tag. *)
Fixpoint hex_loop (cap : nat) (out p : list Z) : list Z * list Z :=
  match p with
  | [] => (out, p)
  | c :: r =>
      if decide (c = 62) then (out, p) else
      let hi := hexval c in
      if decide (hi < 0) then hex_loop cap out r else
      match r with
      | [] => (out, r)
      | d :: r' =>
          let lo := hexval d in
          if decide (lo < 0) then (out, r) else
          hex_loop cap (put cap out (Z.lor (Z.shiftl hi 4) lo)) r'
      end
  end.

(** [for (int i = 0; i < 4 && len < cap; i++) out[len++] = (uint8_t)(v >> (8 * i));] *)
Definition put32 (cap : nat) (out : list Z) (v : Z) : list Z :=
  for_loop 0 4 (fun out i => put cap out (Z.shiftr v (8 * Z.of_nat i))) out.

(** The body of the outer loop once ['<'] has been seen; [p] is past it. *)
Definition build_tag (w : awg_world) (cap : nat) (st : awg_state) (out p : list Z)
  : awg_state * list Z * list Z :=
  let p := skip_blank p in
  let kind := p.[0] in
  let p := skip_blank (tail p) in
  let '(st, out, p) :=
    if decide (kind = 98 \/ kind = 66) then
      let p := if decide (p.[0] = 48 /\ (p.[1] = 120 \/ p.[1] = 88)) then drop 2 p else p in
      let '(out, p) := hex_loop cap out p in (st, out, p)
    else if decide (kind = 114 \/ kind = 82) then
      let n := atoi p in
      let p := skip_to_gt p in
      let n := if decide (n < 0) then 0 else n in
      let room := Z.of_nat cap - Z.of_nat (length out) in
      let n := if decide (room < n) then room else n in
      if decide (0 < n) then
        let '(st, (rc, data)) := call_random w st (zeros (Z.to_nat n)) (Z.to_nat n) in
        (st, if decide (rc = 0) then out ++ data else out, p)
      else (st, out, p)
    else if decide (kind = 99 \/ kind = 67) then
      let v := a_counter st in
      let st := AState (u32 (v + 1)) (a_randoms st) (a_times st) (a_sends st) (a_wire st) in
      (st, put32 cap out v, p)
    else if decide (kind = 116 \/ kind = 84) then
      let v := u32 (w_time w (a_times st)) in
      let st := AState (a_counter st) (a_randoms st) (S (a_times st)) (a_sends st) (a_wire st) in
      (st, put32 cap out v, p)
    else (st, out, p) in
  let p := skip_to_gt p in
  (st, out, if decide (p.[0] = 62) then tail p else p).

(** [while ( *p)]: every iteration consumes a character, so the length of the
    string is fuel enough ([build_loop_fuel]). *)
Fixpoint build_loop (fuel : nat) (w : awg_world) (cap : nat) (st : awg_state) (out p : list Z)
  : awg_state * list Z :=
  match fuel with
  | O => (st, out)
  | S fuel =>
      match p with
      | [] => (st, out)
      | c :: r =>
          if decide (c <> 60) then build_loop fuel w cap st out r else
          let '(st, out, p) := build_tag w cap st out r in
          build_loop fuel w cap st out p
      end
  end.

(** The return value and the bytes written to [out]. *)
Definition nw_awg_build_packet (w : awg_world) (st : awg_state) (tags : option (list Z)) (cap : nat)
  : awg_state * Z * list Z :=
  match tags with
  | None | Some [] => (st, -1, [])
  | Some tags =>
      let '(st, out) := build_loop (length tags) w cap st [] tags in
      (st, Z.of_nat (length out), out)
  end.

Definition signature_step (w : awg_world) (a : nw_awg) (s : awg_state * Z) (i : nat) : awg_state * Z :=
  let '(st, sent) := s in
  let tags := nth i (ipkt a) [] in
  if decide (tags.[0] = 0) then (st, sent) else
  let '(st, n, buf) := nw_awg_build_packet w st (Some tags) 4096 in
  if decide (0 < n) then
    let '(st, ok) := call_send w st (take (Z.to_nat n) buf) in
    (st, if (ok : bool) then sent + 1 else sent)
  else (st, sent).

Definition nw_awg_send_signature (w : awg_world) (st : awg_state) (a : nw_awg) : awg_state * Z :=
  for_loop 0 5 (signature_step w a) (st, 0).

(** One iteration of the junk loop; [r] is overwritten in place, byte order of
    the little-endian targets. *)
Definition junk_step (w : awg_world) (lo hi : Z) (s : awg_state * Z) (_ : nat) : awg_state * Z :=
  let '(st, sent) := s in
  let span := i32 (hi - lo) in
  let '(st, r) := if decide (0 < span)
                  then let '(st, (_, data)) := call_random w st (zeros 4) 4 in (st, le_val data)
                  else (st, 0) in
  let n := i32 (lo + (if decide (0 < span) then i32 (r mod u32 (i32 (span + 1))) else 0)) in
  let n := if decide (n <= 0) then (if decide (0 < lo) then lo else 64) else n in
  let n := if decide (2048 < n) then 2048 else n in
  let '(st, (rc, buf)) := call_random w st (zeros (Z.to_nat n)) (Z.to_nat n) in
  if decide (rc <> 0) then (st, sent) else
  let '(st, ok) := call_send w st buf in
  (st, if (ok : bool) then sent + 1 else sent).

Definition junk_range (a : nw_awg) : Z * Z :=
  let lo := if decide (0 < jmin a) then jmin a else 0 in
  let hi := if decide (lo < jmax a) then jmax a else lo in
  if decide (hi <= 0) then (64, 64) else (lo, hi).

Definition nw_awg_send_junk (w : awg_world) (st : awg_state) (a : nw_awg) : awg_state * Z :=
  if decide (jc a <= 0) then (st, 0) else
  let '(lo, hi) := junk_range a in
  for_loop 0 (Z.to_nat (jc a)) (junk_step w lo hi) (st, 0).

(** ** Devices and buffers *)

Definition world_ok (w : awg_world) : Prop := forall i, urandom_ok (w_random w i).

Lemma fill_random_spec u buf n : length buf = n ->
  exists d, fill_random u buf n =
    (if decide (u_fd u < 0) then -1 else if decide (length d = n)%nat then 0 else -1, store buf 0 d) /\
    (length d <= n)%nat /\ (u_fd u < 0 -> d = []) /\ (urandom_ok u -> wf_bytes d).
Proof. apply nw_random_spec. Qed.

Lemma fill_random_keep u n : urandom_ok u ->
  wf_bytes (fill_random u (zeros n) n).2 /\ length (fill_random u (zeros n) n).2 = n.
Proof.
  intros Hu. destruct (fill_random_spec u (zeros n) n (length_zeros n)) as (d & -> & Hd & _ & Hw).
  cbn [snd]. split; [auto with words|]. rewrite length_store; len.
Qed.

(** The output list never outgrows the capacity, and holds bytes. *)
Definition fits (cap : nat) (out : list Z) : Prop := (length out <= cap)%nat /\ wf_bytes out.

Lemma put_fits cap out b : fits cap out -> fits cap (put cap out b).
Proof.
  intros [Hl Hw]. unfold put. case_decide; [|done]. split; [len|].
  apply Forall_app_2; [done|]. apply Forall_cons_2; auto with words.
Qed.

Lemma put_take cap out b : (length out <= cap)%nat -> is_byte b -> put cap out b = take cap (out ++ [b]).
Proof.
  intros Hl Hb. unfold put. rewrite u8_id by done. case_decide.
  - rewrite take_ge; [done|]. len.
  - rewrite take_app_le, take_ge by lia. done.
Qed.

Lemma put32_fits cap out v : fits cap out -> fits cap (put32 cap out v).
Proof.
  intros H. unfold put32. apply (for_loop_inv (fun _ => fits cap)); [done|].
  intros. by apply put_fits.
Qed.

Lemma put_take_app cap out l b : (length out <= cap)%nat -> is_byte b ->
  put cap (take cap (out ++ l)) b = take cap (out ++ l ++ [b]).
Proof.
  intros Hl Hb. rewrite put_take by (rewrite ?length_take; lia || done).
  rewrite app_assoc. destruct (decide (length (out ++ l) <= cap)%nat).
  - by rewrite (take_ge (out ++ l)).
  - rewrite take_app_le by (rewrite length_take; lia). rewrite take_take, Nat.min_id.
    rewrite (take_app_le (out ++ l)); [done|lia].
Qed.

Lemma put32_take cap out v : (length out <= cap)%nat -> put32 cap out v = take cap (out ++ le_bytes 4 v).
Proof.
  intros Hl. unfold put32, for_loop. cbn [seq foldl le_bytes].
  assert (forall l i, put cap l (Z.shiftr v i) = put cap l (u8 (Z.shiftr v i))) as Hp.
  { intros. unfold put. rewrite (u8_id (u8 _)) by apply u8_is_byte. done. }
  rewrite !Hp. rewrite (put_take cap out) by auto with words.
  rewrite !put_take_app by auto with words. cbn [app].
  change (8 * Z.of_nat 0) with 0. change (8 * Z.of_nat 1) with 8.
  change (8 * Z.of_nat 2) with 16. change (8 * Z.of_nat 3) with 24.
  rewrite Z.shiftr_0_r, !Z.shiftr_shiftr by lia. done.
Qed.

(** ** Tag strings *)

Lemma skip_blank_length p : (length (skip_blank p) <= length p)%nat.
Proof. induction p; cbn [skip_blank]; [done|]. case_decide; cbn [length] in *; lia. Qed.
Lemma skip_to_gt_length p : (length (skip_to_gt p) <= length p)%nat.
Proof. induction p; cbn [skip_to_gt]; [done|]. case_decide; cbn [length] in *; lia. Qed.

(** The hex loop takes one or two characters at a time. *)
Lemma hex_loop_spec cap n : forall p out, (length p <= n)%nat ->
  (length (hex_loop cap out p).2 <= length p)%nat /\
  (fits cap out -> fits cap (hex_loop cap out p).1).
Proof.
  induction n as [|n IH]; intros [|c r] out Hn; cbn [length] in Hn; try lia; try done.
  cbn [hex_loop]. case_decide; [done|]. case_decide.
  - destruct (IH r out) as [Hi1 Hi2]; [lia|]. cbn [length]. split; [lia|done].
  - destruct r as [|d r]; [by split; [cbn; lia|]|]. cbn [length] in Hn.
    case_decide; [by split; [cbn [snd length]; lia|]|].
    destruct (IH r (put cap out (Z.lor (Z.shiftl (hexval c) 4) (hexval d)))) as [Hi1 Hi2]; [lia|].
    cbn [length]. split; [lia|]. intros. by apply Hi2, put_fits.
Qed.

(** What a tag may do to the state: the wire stays as it is. *)
Lemma build_tag_spec w cap st out p : world_ok w ->
  let '(st', out', p') := build_tag w cap st out p in
  (length p' <= length p)%nat /\ (fits cap out -> fits cap out') /\ a_wire st' = a_wire st.
Proof.
  intros Hw. unfold build_tag.
  set (q := skip_blank (tail (skip_blank p))).
  assert (length q <= length p)%nat as Hq.
  { unfold q. etransitivity; [apply skip_blank_length|]. pose proof (skip_blank_length p).
    destruct (skip_blank p); cbn [tail length] in *; lia. }
  assert (forall st1 out1 q1, (length q1 <= length q)%nat -> (fits cap out -> fits cap out1) ->
    a_wire st1 = a_wire st ->
    let '(st', out', p') := (st1, out1, if decide ((skip_to_gt q1).[0] = 62) then tail (skip_to_gt q1) else skip_to_gt q1) in
    (length p' <= length p)%nat /\ (fits cap out -> fits cap out') /\ a_wire st' = a_wire st) as Hend.
  { intros st1 out1 q1 Hl Ho Hs. split; [|done]. pose proof (skip_to_gt_length q1).
    case_decide; [|lia]. destruct (skip_to_gt q1); cbn [tail length] in *; lia. }
  case_decide as Hk1.
  { set (q' := if decide _ then drop 2 q else q).
    assert (length q' <= length q)%nat by (unfold q'; case_decide; [rewrite length_drop|]; lia).
    destruct (hex_loop_spec cap (length q') q' out) as [Hi1 Hi2]; [done|].
    destruct (hex_loop cap out q') as [out1 q1]. apply Hend; [cbn in *; lia|done..]. }
  case_decide as Hk2.
  { pose proof (skip_to_gt_length q). case_decide as Hn; [|by apply Hend].
    unfold call_random. revert Hn. set (n := if decide _ then _ - _ else _). intros Hn.
    destruct (fill_random_spec (w_random w (a_randoms st)) (zeros (Z.to_nat n)) (Z.to_nat n)) as (d & -> & Hd & Hf & Hwf);
      [len|]. apply Hend; [lia| |done].
    intros [Ho Hb]. case_decide as Hrc; [|done].
    assert (length d = Z.to_nat n) by (repeat case_decide; lia).
    rewrite store_all by len. split; [|apply Forall_app_2; [done|by apply Hwf]].
    rewrite length_app. unfold n in *. repeat case_decide; lia. }
  case_decide as Hk3; [apply Hend; [done|apply put32_fits|done]|].
  case_decide as Hk4; [apply Hend; [done|apply put32_fits|done]|].
  by apply Hend.
Qed.

(** Any fuel from the length of the string on gives the same result: the loop ends. *)
Lemma build_loop_fuel w cap k : forall n st out p, world_ok w -> (length p <= n)%nat -> (length p <= k)%nat ->
  build_loop n w cap st out p = build_loop k w cap st out p.
Proof.
  induction k as [|k IH]; intros n st out p Hw Hn Hk.
  - destruct p; [|cbn in Hk; lia]. by destruct n.
  - destruct p as [|c r]; [by destruct n|]. destruct n as [|n]; [cbn in Hn; lia|].
    cbn [length] in *. cbn [build_loop]. case_decide; [apply IH; [done|lia..]|].
    pose proof (build_tag_spec w cap st out r Hw) as Ht.
    destruct (build_tag w cap st out r) as [[st' out'] p']. destruct Ht as [Hl _].
    apply IH; [done|lia..].
Qed.

Lemma build_loop_spec w cap n : forall st out p, world_ok w -> fits cap out ->
  let '(st', out') := build_loop n w cap st out p in fits cap out' /\ a_wire st' = a_wire st.
Proof.
  induction n as [|n IH]; intros st out p Hw Ho; cbn [build_loop]; [done|].
  destruct p as [|c r]; [done|]. case_decide; [by apply IH|].
  pose proof (build_tag_spec w cap st out r Hw) as Ht.
  destruct (build_tag w cap st out r) as [[st' out'] p']. destruct Ht as (_ & Hf & Hs).
  specialize (IH st' out' p' Hw (Hf Ho)). destruct (build_loop n w cap st' out' p') as [st2 out2].
  by rewrite Hs in IH.
Qed.

(** ** The tag language

    An abstract syntax of the signature packets, its printer and its meaning. *)

Inductive tag := TBytes (l : list Z) | TRandom (n : Z) | TCounter | TTime.

Definition hexdigit (d : Z) : Z := (str "0123456789abcdef").[Z.to_nat d].
Definition hex (l : list Z) : list Z := concat (map (fun b => [hexdigit (b / 16); hexdigit (b mod 16)]) l).
Definition print_tag (t : tag) : list Z :=
  match t with
  | TBytes l => str "<b 0x" ++ hex l ++ str ">"
  | TRandom n => str "<r " ++ dec n ++ str ">"
  | TCounter => str "<c>"
  | TTime => str "<t>"
  end.
(** Anything but ['<'] may separate the tags. *)
Definition print_tags (ts : list (list Z * tag)) : list Z := concat (map (fun '(sep, t) => sep ++ print_tag t) ts).

Definition tag_ok (t : tag) : Prop :=
  match t with TBytes l => wf_bytes l | TRandom n => 0 <= n < 0x80000000 | _ => True end.

(** What a tag appends: everything is cut at the capacity, and random bytes
    come all or not at all. *)
Definition tag_meaning (w : awg_world) (cap : nat) (s : awg_state * list Z) (t : tag) : awg_state * list Z :=
  let '(st, out) := s in
  match t with
  | TBytes l => (st, take cap (out ++ l))
  | TRandom n =>
      let n := Nat.min (Z.to_nat n) (cap - length out) in
      if decide (n = 0)%nat then s else
      let '(st, (rc, data)) := call_random w st (zeros n) n in
      (st, if decide (rc = 0) then out ++ data else out)
  | TCounter => (AState (u32 (a_counter st + 1)) (a_randoms st) (a_times st) (a_sends st) (a_wire st),
                 take cap (out ++ le_bytes 4 (a_counter st)))
  | TTime => (AState (a_counter st) (a_randoms st) (S (a_times st)) (a_sends st) (a_wire st),
              take cap (out ++ le_bytes 4 (w_time w (a_times st))))
  end.

Lemma hexdigit_spec d : 0 <= d < 16 -> hexval (hexdigit d) = d /\ 48 <= hexdigit d /\ hexdigit d <> 62.
Proof.
  intros Hd. assert (exists k, d = Z.of_nat k /\ (k < 16)%nat) as (k & -> & Hk) by (exists (Z.to_nat d); lia).
  do 16 (destruct k as [|k]; [by vm_compute|]). lia.
Qed.

Lemma hex_loop_hex cap out0 r l : (length out0 <= cap)%nat -> wf_bytes l -> forall done,
  hex_loop cap (take cap (out0 ++ done)) (hex l ++ 62 :: r) = (take cap (out0 ++ done ++ l), 62 :: r).
Proof.
  intros Ho. induction 1 as [|b l Hb Hl IH]; intros acc; [by rewrite app_nil_r|].
  unfold is_byte in Hb.
  destruct (hexdigit_spec (b / 16)) as (E1 & _ & N1); [lia|].
  destruct (hexdigit_spec (b mod 16)) as (E2 & _ & N2); [lia|].
  unfold hex. cbn [map concat app hex_loop]. fold (hex l).
  rewrite decide_False by done. rewrite decide_False by lia. rewrite decide_False by lia.
  rewrite E1, E2, Z.lor_comm, (lor_add_shift _ _ 4) by lia.
  replace (b mod 16 + b / 16 * 2 ^ 4) with b by lia.
  rewrite put_take_app by (unfold is_byte; lia).
  rewrite IH. by rewrite <- app_assoc.
Qed.

Lemma digits_app ds r : Forall is_digit ds -> forall acc,
  digits acc (ds ++ r) = digits (foldl (fun a c => a * 10 + (c - 48)) acc ds) r.
Proof.
  induction 1 as [|c ds Hc Hd IH]; intros acc; [done|]. cbn [app digits foldl].
  rewrite decide_True by done. apply IH.
Qed.
(** A digit string is not a blank, a sign or ['>']. *)
Lemma digits_head ds r : Forall is_digit ds ->
  skip_blank (ds ++ 62 :: r) = ds ++ 62 :: r /\ skip_to_gt (ds ++ 62 :: r) = 62 :: r /\
  skip_space (ds ++ 62 :: r) = ds ++ 62 :: r /\ ((ds ++ 62 :: r).[0] <> 45 /\ (ds ++ 62 :: r).[0] <> 43).
Proof.
  unfold is_digit. intros Hd. split_and!; [..|destruct Hd; cbn; lia|destruct Hd; cbn; lia].
  - destruct Hd; [done|]. cbn [app skip_blank]. by rewrite decide_False by lia.
  - induction Hd; [done|]. cbn [app skip_to_gt]. by rewrite decide_False by lia.
  - destruct Hd; [done|]. cbn [app skip_space]. unfold isspace. by rewrite bool_decide_eq_false_2 by lia.
Qed.

Lemma atoi_dec n r : 0 <= n < 0x80000000 -> atoi (dec n ++ 62 :: r) = n.
Proof.
  intros Hn. unfold dec. destruct (dec_digits_spec 10 n) as [Hd Hv]; [cbn; lia|].
  destruct (digits_head _ r Hd) as (_ & _ & Hs & H45 & H43).
  unfold atoi. rewrite Hs. rewrite decide_False by done. rewrite decide_False by done.
  rewrite digits_app, Hv by done. cbn [digits]. rewrite decide_False by lia.
  rewrite i32_id; lia.
Qed.

(** Step through the scanner on known characters. *)
Ltac scan_step :=
  match goal with
  | |- context [if decide ?P then _ else _] =>
      first [rewrite (decide_True (P := P)) by (cbn; lia) | rewrite (decide_False (P := P)) by (cbn; lia)]
  end.
Ltac scan :=
  repeat (cbn [tail skip_blank skip_to_gt ix nth app drop fst snd]; scan_step);
  cbn [tail skip_blank skip_to_gt ix nth app drop fst snd]; try reflexivity.

(** ['<'] has been read: the rest of the tag is consumed and means what it says. *)
Lemma build_tag_print w cap st out t r : (length out <= cap)%nat -> tag_ok t ->
  build_tag w cap st out (tail (print_tag t) ++ r) = (tag_meaning w cap (st, out) t, r).
Proof.
  intros Ho Ht. destruct t as [l|n| |]; cbn [print_tag tag_meaning tag_ok] in *.
  - change (str "<b 0x") with [60; 98; 32; 48; 120]. change (str ">") with [62].
    cbn [tail app]. rewrite <- app_assoc. cbn [app].
    pose proof (hex_loop_hex cap out r l Ho Ht []) as Hh. rewrite app_nil_r, take_ge in Hh by done.
    remember (hex l ++ 62 :: r) as p eqn:Ep. clear Ep.
    unfold build_tag. scan.
    by rewrite drop_0, Hh; scan.
  - destruct (dec_digits_spec 10 n) as [Hd _]; [cbn; lia|].
    destruct (digits_head _ r Hd) as (Hb & Hg & _). pose proof (atoi_dec n r Ht) as Ha. unfold dec in *.
    change (str "<r ") with [60; 114; 32]. change (str ">") with [62].
    cbn [tail app]. rewrite <- app_assoc. cbn [app].
    remember (dec_digits 10 n ++ 62 :: r) as p eqn:Ep. clear Ep.
    unfold build_tag. scan. rewrite Hb, Ha, Hg, (decide_False (P := n < 0)) by lia.
    set (m := Nat.min _ _). assert ((if decide (Z.of_nat cap - Z.of_nat (length out) < n)
      then Z.of_nat cap - Z.of_nat (length out) else n) = Z.of_nat m) as -> by (unfold m; case_decide; lia).
    rewrite Nat2Z.id.
    destruct (decide (m = 0%nat)) as [E|E].
    + scan.
    + scan. destruct (call_random _ _ _ _) as [st' [rc data]]. scan.
  - unfold build_tag. change (str "<c>") with [60; 99; 62]. scan. by rewrite put32_take.
  - unfold build_tag. change (str "<t>") with [60; 116; 62]. scan. rewrite put32_take by done. rewrite (le_bytes_mod 4 (u32 _)), u32_mod.
    change (256 ^ Z.of_nat 4) with 4294967296. rewrite Z.mod_mod by lia.
    by rewrite (le_bytes_mod 4 (w_time _ _)).
Qed.

Lemma skip_sep w cap st out sep r n : Forall (fun c => c <> 60) sep -> (length sep + length r <= n)%nat -> world_ok w ->
  build_loop n w cap st out (sep ++ r) = build_loop n w cap st out r.
Proof.
  intros Hs. revert n. induction Hs as [|c sep Hc Hs IH]; intros n Hn Hw; [done|].
  cbn [length] in Hn. destruct n as [|n]; [lia|].
  transitivity (build_loop n w cap st out (sep ++ r));
    [cbn [app build_loop]; by rewrite decide_True by done|].
  rewrite IH by (lia || done). apply build_loop_fuel; [done|lia..].
Qed.

Lemma print_tag_head t : exists q, print_tag t = 60 :: q.
Proof. destruct t; eexists; reflexivity. Qed.

Lemma tag_meaning_wf w cap st out t : world_ok w -> (length out <= cap)%nat ->
  (length (tag_meaning w cap (st, out) t).2 <= cap)%nat.
Proof.
  intros Hw Ho. destruct t; cbn [tag_meaning snd]; try (rewrite length_take; lia).
  set (m := Nat.min _ _). case_decide; [done|]. unfold call_random.
  pose proof (fill_random_keep (w_random w (a_randoms st)) m (Hw _)) as [_ Hl].
  destruct (fill_random _ _ _) as [rc data]. cbn [snd] in *. case_decide; [|done].
  rewrite length_app, Hl. unfold m. lia.
Qed.

Lemma build_loop_print w cap : world_ok w -> forall ts st out n,
  Forall (fun '(sep, t) => Forall (fun c => c <> 60) sep /\ tag_ok t) ts -> (length out <= cap)%nat ->
  (length (print_tags ts) <= n)%nat ->
  build_loop n w cap st out (print_tags ts) = foldl (tag_meaning w cap) (st, out) (map snd ts).
Proof.
  intros Hw. induction ts as [|[sep t] ts IH]; intros st out n Hts Ho Hn.
  - by destruct n.
  - apply Forall_cons in Hts as [Hst Hts']. destruct Hst as [Hsep Ht]. cbn [map foldl snd].
    assert (print_tags ((sep, t) :: ts) = sep ++ print_tag t ++ print_tags ts) as E
      by (unfold print_tags; cbn [map concat]; by rewrite <- app_assoc).
    rewrite E in *. rewrite !length_app in Hn.
    rewrite skip_sep by (rewrite ?length_app; lia || done).
    destruct (print_tag_head t) as [q Eq]. rewrite Eq in *. cbn [length] in Hn.
    destruct n as [|n]; [lia|]. cbn [app build_loop]. rewrite decide_False by (intros HH; by apply HH).
    change q with (tail (60 :: q)). rewrite <- Eq, build_tag_print by done.
    pose proof (tag_meaning_wf w cap st out t Hw Ho) as Hl.
    destruct (tag_meaning w cap (st, out) t) as [st' out']. cbn [snd] in Hl.
    apply IH; [done|done|lia].
Qed.

(** ** Sending *)

Lemma signature_step_inv w a k st sent : world_ok w ->
  let '(st', sent') := signature_step w a (st, sent) k in
  exists sent_here, a_wire st' = a_wire st ++ sent_here /\ sent' = sent + Z.of_nat (length sent_here) /\
    (length sent_here <= 1)%nat /\ Forall (fun d => 0 < length d <= 4096)%nat sent_here /\ Forall (fun d => wf_bytes d) sent_here /\
    (nth k (ipkt a) [] = [] -> sent_here = []).
Proof.
  intros Hw. unfold signature_step.
  assert (forall st0 : awg_state, a_wire st0 = a_wire st -> exists h, a_wire st0 = a_wire st ++ h /\
    sent = sent + Z.of_nat (length h) /\ (length h <= 1)%nat /\ Forall (fun d => 0 < length d <= 4096)%nat h /\
    Forall (fun d => wf_bytes d) h /\ (nth k (ipkt a) [] = [] -> h = [])) as Hnone.
  { intros st0 H0. exists []. cbn [length]. rewrite app_nil_r.
    split_and!; [done|lia|lia|constructor|constructor|done]. }
  case_decide as Hk; [by apply Hnone|].
  destruct (nth k (ipkt a) []) as [|c p] eqn:Ep; [done|].
  unfold nw_awg_build_packet.
  pose proof (build_loop_spec w 4096 (length (c :: p)) st [] (c :: p) Hw ltac:(split; [cbn; lia|constructor])) as Hb.
  destruct (build_loop _ _ _ _ _ _) as [st' out]. destruct Hb as [[Hl Hwf] Hs].
  case_decide as Hn; [|by apply Hnone].
  rewrite Nat2Z.id, take_ge by lia. unfold call_send. destruct (w_send w (a_sends st')); cbn [a_wire]; [|by apply Hnone].
  exists [out]. rewrite Hs. cbn [length].
  split_and!; [done|lia|lia|apply Forall_cons_2; [lia|constructor]|by apply Forall_cons_2|done].
Qed.

Definition int_range (x : Z) : Prop := -0x80000000 <= x < 0x80000000.

(** The size of a junk datagram. *)
Definition junk_size (lo hi : Z) (d : list Z) : Prop :=
  1 <= Z.of_nat (length d) /\
  Z.min lo 2048 <= Z.of_nat (length d) <= Z.min (Z.max hi 64) 2048.

Lemma junk_step_inv w lo hi k st sent : world_ok w -> 0 <= lo <= hi -> 0 < hi -> hi - lo < 0x7fffffff -> hi < 0x80000000 ->
  let '(st', sent') := junk_step w lo hi (st, sent) k in
  exists sent_here, a_wire st' = a_wire st ++ sent_here /\ sent' = sent + Z.of_nat (length sent_here) /\
    (length sent_here <= 1)%nat /\
    Forall (junk_size lo hi) sent_here /\
    Forall (fun d => wf_bytes d) sent_here.
Proof.
  intros Hw Hlo Hhi Hspan Hmax. unfold junk_step. rewrite (i32_id (hi - lo)) by lia.
  set (first := if decide (0 < hi - lo) then _ else _).
  assert (a_wire first.1 = a_wire st) as Hf by (unfold first, call_random; case_decide; [by destruct (fill_random _ _ _)|done]).
  destruct first as [st1 r] eqn:Ef. cbn [fst] in Hf.
  set (x := if decide (0 < hi - lo) then i32 (r mod u32 (i32 (hi - lo + 1))) else 0).
  assert (0 <= x <= hi - lo) as Hx.
  { unfold x. case_decide; [|lia]. rewrite (i32_id (hi - lo + 1)), u32_id by lia.
    pose proof (Z.mod_pos_bound r (hi - lo + 1) ltac:(lia)) as Hm. revert Hm. generalize (r mod (hi - lo + 1)).
    intros y Hy. rewrite i32_id; lia. }
  clearbody x. rewrite (i32_id (lo + x)) by lia.
  set (n := if decide (2048 < _) then _ else _).
  assert (Z.min lo 2048 <= n <= Z.min (Z.max hi 64) 2048 /\ 0 < n) as [Hn Hpos].
  { unfold n. repeat case_decide; lia. }
  clearbody n. unfold call_random.
  pose proof (fill_random_keep (w_random w (a_randoms st1)) (Z.to_nat n) (Hw _)) as [Hb Hl].
  destruct (fill_random _ _ _) as [rc buf]. cbn [snd] in *.
  assert (forall st0 : awg_state, a_wire st0 = a_wire st -> exists h, a_wire st0 = a_wire st ++ h /\ sent = sent + Z.of_nat (length h) /\
    (length h <= 1)%nat /\ Forall (junk_size lo hi) h /\
    Forall (fun d => wf_bytes d) h) as Hnone.
  { intros st0 H0. exists []. cbn [length]. rewrite app_nil_r. split_and!; [done|lia|lia|constructor|constructor]. }
  case_decide; [by apply Hnone|]. unfold call_send.
  destruct (w_send w _); cbn [a_wire]; [|by apply Hnone].
  exists [buf]. rewrite Hf. cbn [length].
  split_and!; [done|lia|lia|apply Forall_cons_2; [unfold junk_size; rewrite Hl; lia|constructor]|by apply Forall_cons_2].
Qed.

(** The loops: what every step adds to the wire is counted and has [P]. *)
Lemma send_loop_inv (P : list Z -> Prop) (f : awg_state * Z -> nat -> awg_state * Z) st n :
  (forall st' sent k, (k < n)%nat -> let '(st2, sent2) := f (st', sent) k in
     exists h, a_wire st2 = a_wire st' ++ h /\ sent2 = sent + Z.of_nat (length h) /\ (length h <= 1)%nat /\ Forall P h) ->
  let '(st', sent) := for_loop 0 n f (st, 0) in
  exists h, a_wire st' = a_wire st ++ h /\ sent = Z.of_nat (length h) /\ (length h <= n)%nat /\ Forall P h.
Proof.
  intros Hf. apply (for_loop_inv (fun i '(st', sent) => exists h, a_wire st' = a_wire st ++ h /\
    sent = Z.of_nat (length h) /\ (length h <= i)%nat /\ Forall P h) 0 n).
  - exists []. by rewrite app_nil_r.
  - intros i [st1 s1'] Hi (h & E & -> & Hl & HP). specialize (Hf st1 (Z.of_nat (length h)) i ltac:(lia)).
    destruct (f _ i) as [st2 s2']. destruct Hf as (h' & E2 & -> & Hl' & HP'). exists (h ++ h').
    rewrite E2, E, <- app_assoc, length_app. split_and!; [done|lia|lia|by apply Forall_app_2].
Qed.

(** ** Parameters *)

Definition wf_awg (a : nw_awg) : Prop :=
  length (ipkt a) = 5%nat /\ Forall (fun p => (length p <= 4095)%nat) (ipkt a).

(** The integer keys of a profile and the fields they name. *)
Definition awg_fields : list (list Z * (nw_awg -> Z)) :=
  [(str "jc", jc); (str "jmin", jmin); (str "jmax", jmax); (str "s1", s1); (str "s2", s2); (str "s3", s3);
   (str "s4", s4); (str "h1", h1); (str "h2", h2); (str "h3", h3); (str "h4", h4)].
Definition ipkt_key (i : nat) : list Z := [105; 49 + Z.of_nat i].
Definition awg_keys : list (list Z) := map fst awg_fields ++ map ipkt_key (seq 0 5).

Lemma tolower_lower k s : tolower k = s -> 97 <= s <= 122 -> k = s \/ k = s - 32.
Proof. unfold tolower. case_decide; lia. Qed.
Lemma tolower_idemp c : tolower (tolower c) = tolower c.
Proof. unfold tolower. repeat case_decide; lia. Qed.
Lemma strcaseeq_lower k s : strcaseeq (map tolower k) s = strcaseeq k s.
Proof.
  unfold strcaseeq. rewrite map_map. by rewrite (map_ext _ tolower) by apply tolower_idemp.
Qed.

(** A key of C characters other than NUL. *)
Definition c_string (s : list Z) : Prop := Forall (fun c => 1 <= c < 256) s.

Lemma c_string_nul s i : c_string s -> s.[i] = 0 <-> (length s <= i)%nat.
Proof.
  intros Hs. unfold ix. rewrite nth_lookup. destruct (s !! i) as [c|] eqn:E; cbn [default].
  - pose proof (Forall_lookup_1 _ _ _ _ Hs E). apply lookup_lt_Some in E. cbn in *. lia.
  - apply lookup_ge_None in E. done.
Qed.

(** [key[0] == 'i'], a digit from 1 to 5, the end. *)
Definition is_ipkt_key (k : list Z) : Prop :=
  (k.[0] = 105 \/ k.[0] = 73) /\ 49 <= k.[1] /\ k.[1] <= 53 /\ k.[2] = 0.
#[export] Instance is_ipkt_key_dec k : Decision (is_ipkt_key k).
Proof. unfold is_ipkt_key. apply _. Defined.

Lemma ipkt_key_lower k : c_string k -> is_ipkt_key k <-> exists d, 49 <= d <= 53 /\ map tolower k = [105; d].
Proof.
  intros Hk. unfold is_ipkt_key. split.
  - intros (H0 & H1 & H2 & H3). apply c_string_nul in H3; [|done].
    destruct k as [|x [|y [|]]]; cbn in *; try lia. exists y. split; [lia|].
    f_equal; [unfold tolower; case_decide; lia|]. unfold tolower. rewrite decide_False by lia. done.
  - intros (d & Hd & E). destruct k as [|x [|y [|]]]; try discriminate E. injection E as Ex Ey.
    apply tolower_lower in Ex; [|lia]. assert (y = d) by (revert Ey; unfold tolower; case_decide; lia). cbn. lia.
Qed.

Lemma lower_ix k i : (map tolower k).[i] = tolower k.[i].
Proof.
  unfold ix. rewrite !nth_lookup, list_lookup_fmap. by destruct (k !! i).
Qed.

(** The value an [i]-key stores: the empty string and the placeholder unset it. *)
Definition ipkt_value (val : list Z) : list Z :=
  if bool_decide (val.[0] = 0) || strcaseeq val (str "<b 0x1A2B3C>") then [] else take 4095 val.

Definition awg_set_spec (a : nw_awg) (key val : list Z) (r : Z * nw_awg) : Prop :=
  r.1 = (if decide (map tolower key ∈ awg_keys) then 1 else 0) /\
  Forall (fun '(name, get) => get r.2 = if decide (map tolower key = name) then atoi val else get a) awg_fields /\
  ipkt r.2 = map (fun i => if decide (map tolower key = ipkt_key i) then ipkt_value val else nth i (ipkt a) []) (seq 0 5).

Lemma nw_awg_set_int a key val name : map tolower key = name -> name ∈ map fst awg_fields -> length (ipkt a) = 5%nat ->
  awg_set_spec a key val (nw_awg_set a (Some key) (Some val)).
Proof.
  intros E Hin Hl. destruct a as [? ? ? ? ? ? ? ? ? ? ? p]. cbn in Hl.
  do 5 (destruct p as [|? p]; [discriminate|]). destruct p; [|discriminate].
  unfold awg_set_spec. unfold nw_awg_set, strcaseeq. rewrite E. generalize (atoi val). intros v.
  cbn in Hin. repeat (apply elem_of_cons in Hin as [->|Hin]); [..|by apply not_elem_of_nil in Hin];
    vm_compute; repeat constructor.
Qed.

(** Below the integer keys, [nw_awg_set] is its last two branches. *)
Lemma nw_awg_set_other a key val : map tolower key ∉ map fst awg_fields ->
  nw_awg_set a (Some key) (Some val) =
  if decide (is_ipkt_key key) then (1, set_ipkt a (Z.to_nat (key.[1] - 49)) (ipkt_value val)) else (0, a).
Proof.
  intros Hn. destruct a as [? ? ? ? ? ? ? ? ? ? ? p]. unfold nw_awg_set, strcaseeq.
  repeat (rewrite bool_decide_eq_false_2; [|intros E; apply Hn; rewrite E;
    apply (bool_decide_unpack _); vm_compute; exact I]).
  case_decide as Hk; destruct (decide (is_ipkt_key key)) as [Hi|Hi]; try (exfalso; by apply Hi); [|done].
  unfold ipkt_value, strcaseeq. by destruct (_ || _).
Qed.

Lemma nw_awg_set_ok a key val : c_string key -> length (ipkt a) = 5%nat ->
  awg_set_spec a key val (nw_awg_set a (Some key) (Some val)).
Proof.
  intros Hk Hl. destruct (decide (map tolower key ∈ map fst awg_fields)) as [Hin|Hn]; [by eapply nw_awg_set_int|].
  rewrite nw_awg_set_other by done. unfold awg_set_spec, awg_keys.
  assert (forall x, Forall (fun '(name, get) => get (set_ipkt a x (ipkt_value val)) =
    (if decide (map tolower key = name) then atoi val else get a) /\ get a =
    (if decide (map tolower key = name) then atoi val else get a)) awg_fields) as Hf.
  { intros x. cbn in Hn. repeat (apply not_elem_of_cons in Hn as [? Hn]).
    unfold awg_fields. repeat (apply Forall_cons_2; [by rewrite !decide_False by done|]). constructor. }
  destruct (decide (is_ipkt_key key)) as [Hi|Hi]; cbn [fst snd].
  - pose proof Hi as [d [Hd E]]%ipkt_key_lower; [|done].
    assert (key.[1] = d) as Hkd.
    { pose proof (f_equal (fun l => l.[1]) E) as E1. cbn beta in E1. rewrite lower_ix in E1.
      destruct Hi as (_ & H1 & H2 & _). unfold tolower in E1. rewrite decide_False in E1 by lia. done. }
    split; [|split].
    + rewrite decide_True; [done|]. apply elem_of_app. right. rewrite E.
      apply list_elem_of_fmap. exists (Z.to_nat (d - 49)). unfold ipkt_key. split; [f_equal; f_equal; lia|].
      apply elem_of_seq. lia.
    + eapply Forall_impl; [apply (Hf (Z.to_nat (key.[1] - 49)))|]. intros [name get] H. apply H.
    + cbn [set_ipkt ipkt]. rewrite Hkd, E. clear -Hd Hl.
      apply list_eq_same_length with 5%nat; [by len|by len|]. intros i x y Hi Hx Hy.
      rewrite list_lookup_fmap, lookup_seq_lt in Hy by done. cbn in Hy. injection Hy as <-.
      unfold ipkt_key. destruct (decide (i = Z.to_nat (d - 49))) as [->|Hne].
      * rewrite decide_True by (f_equal; f_equal; lia). rewrite list_lookup_insert_eq in Hx by lia. congruence.
      * rewrite decide_False by (injection; lia). rewrite list_lookup_insert_ne in Hx by done.
        rewrite nth_lookup, Hx. done.
  - assert (forall i, (i < 5)%nat -> map tolower key <> ipkt_key i) as Hne.
    { intros i Hi5 E. apply Hi. apply ipkt_key_lower; [done|]. exists (49 + Z.of_nat i). split; [lia|done]. }
    split; [|split].
    + rewrite decide_False; [done|]. intros [?|(i & E & Hi5)%list_elem_of_fmap]%elem_of_app; [done|].
      apply elem_of_seq in Hi5. apply (Hne i); [lia|done].
    + eapply Forall_impl; [apply (Hf 0%nat)|]. intros [name get] H. apply H.
    + apply list_eq_same_length with 5%nat; [by len|by len|]. intros i x y Hi5 Hx Hy.
      rewrite list_lookup_fmap, lookup_seq_lt in Hy by done. cbn in Hy. injection Hy as <-.
      rewrite decide_False by (by apply Hne). by rewrite nth_lookup, Hx.
Qed.

(** ** Properties *)

Definition demo_world : awg_world := World (fun _ => zero_device) (fun _ => 1700000000) (fun _ => true).
Definition demo_astate : awg_state := AState 7 0 0 0 [].
Lemma demo_world_ok : world_ok demo_world.
Proof. intros i. apply zero_device_ok. Qed.

(** A tag string in the documented syntax, whatever separates its tags, is
    turned into exactly the bytes its tags stand for, in order and cut at the
    capacity; the scanner consumes the string within its length. *)
Theorem build_packet_tags (w : awg_world) (st : awg_state) (cap : nat) (ts : list (list Z * tag))
    (Hw : world_ok w) (Hts : Forall (fun '(sep, t) => Forall (fun c => c <> 60) sep /\ tag_ok t) ts)
    (Hne : ts <> []) :
  nw_awg_build_packet w st (Some (print_tags ts)) cap =
  let '(st', out) := foldl (tag_meaning w cap) (st, []) (map snd ts) in (st', Z.of_nat (length out), out).
Proof.
  pose proof (build_loop_print w cap Hw ts st [] (length (print_tags ts)) Hts ltac:(cbn; lia) (le_n _)) as H.
  unfold nw_awg_build_packet. destruct (print_tags ts) as [|c p] eqn:E; [exfalso|by rewrite H].
  destruct ts as [|[sep t] ts]; [done|]. unfold print_tags in E. cbn [map concat] in E.
  destruct (print_tag_head t) as [q Eq]. rewrite Eq in E. by destruct sep.
Qed.

Lemma build_packet_tags_witness :
  nw_awg_build_packet demo_world demo_astate (Some (str "<b 0xc0ff> <c> <r 3><t>")) 10 =
    (AState 8 1 1 0 [], 10, [0xc0; 0xff; 7; 0; 0; 0; 0; 0; 0; 0]) /\
  nw_awg_build_packet demo_world demo_astate
    (Some (print_tags [([], TBytes [0xc0; 0xff]); ([32], TCounter); ([32], TRandom 3); ([], TTime)])) 10 =
    (AState 8 1 1 0 [], 10, [0xc0; 0xff; 7; 0; 0; 0; 0; 0; 0; 0]).
Proof.
  split; [vm_compute; reflexivity|].
  rewrite (build_packet_tags demo_world demo_astate 10
    [([], TBytes [0xc0; 0xff]); ([32], TCounter); ([32], TRandom 3); ([], TTime)] demo_world_ok).
  - vm_compute. reflexivity.
  - repeat apply Forall_cons_2; try apply Forall_nil_2; (split; [repeat constructor; discriminate|]);
      cbn [tag_ok]; wf; lia.
  - discriminate.
Defined.

(** Any string: the result is [-1] exactly when there is no string, the length
    never exceeds the capacity, only bytes are produced, nothing is sent, and any
    larger number of iterations gives the same result. *)
Theorem build_packet_bounds (w : awg_world) (st : awg_state) (tags : option (list Z)) (cap : nat) (Hw : world_ok w) :
  let '(st', n, out) := nw_awg_build_packet w st tags cap in
  (n = -1 <-> tags = None \/ tags = Some []) /\
  (n <> -1 -> n = Z.of_nat (length out) /\ 0 <= n <= Z.of_nat cap) /\
  wf_bytes out /\ a_wire st' = a_wire st /\
  (forall p fuel, tags = Some p -> p <> [] -> (length p <= fuel)%nat -> build_loop fuel w cap st [] p = (st', out)).
Proof.
  destruct tags as [[|c p]|]; cbn [nw_awg_build_packet].
  1, 3: split; [tauto|split; [done|split; [constructor|split; [done|congruence]]]].
  pose proof (build_loop_spec w cap (length (c :: p)) st [] (c :: p) Hw ltac:(split; [cbn; lia|constructor])) as Hb.
  destruct (build_loop _ _ _ _ _ _) as [st' out] eqn:E. destruct Hb as [[Hl Hwf] Hs].
  split; [split; [lia|intros [|]; discriminate]|]. split; [lia|]. split; [done|]. split; [done|].
  intros p' fuel Hp _ Hf. injection Hp as <-. rewrite <- E. by apply build_loop_fuel.
Qed.

Lemma build_packet_bounds_witness :
  let '(st', n, out) := nw_awg_build_packet demo_world demo_astate (Some (str "<b 0x1")) 4096 in n <> -1 /\ wf_bytes out.
Proof.
  pose proof (build_packet_bounds demo_world demo_astate (Some (str "<b 0x1")) 4096 demo_world_ok) as H.
  destruct (nw_awg_build_packet _ _ _ _) as [[st' n] out]. split; [|apply H].
  intros E. apply H in E as [E|E]; discriminate.
Defined.

(** A recognised key, in any letter case, changes the field it names and no
    other; an unrecognised one changes nothing. The stored strings stay within
    their 4095 characters. *)
Theorem nw_awg_set_correct (a : nw_awg) (key val : list Z) (Hk : c_string key) (Ha : wf_awg a) :
  let '(rc, a') := nw_awg_set a (Some key) (Some val) in
  awg_set_spec a key val (rc, a') /\ wf_awg a' /\ (rc = 0 -> a' = a).
Proof.
  destruct Ha as [Hl Hp]. pose proof (nw_awg_set_ok a key val Hk Hl) as Hs.
  destruct (nw_awg_set _ _ _) as [rc a'] eqn:E. split; [done|]. destruct Hs as (Hrc & Hf & Hi). cbn [fst snd] in *.
  split.
  - split; [rewrite Hi; by len|]. rewrite Hi. apply Forall_map, Forall_true. intros i. cbn beta.
    destruct (decide (map tolower key = ipkt_key i)); [unfold ipkt_value; destruct (_ || _); [apply Nat.le_0_l|rewrite length_take; lia]|].
    destruct (decide (i < length (ipkt a))%nat) as [Hlt|Hge]; [|rewrite nth_overflow by lia; apply Nat.le_0_l].
    rewrite Forall_nth in Hp. by apply Hp.
  - intros ->. destruct (decide (map tolower key ∈ map fst awg_fields)) as [Hin|Hn].
    + rewrite decide_True in Hrc; [done|]. apply elem_of_app. by left.
    + rewrite nw_awg_set_other in E by done. case_decide; by injection E.
Qed.

Lemma nw_awg_set_correct_witness :
  jc (nw_awg_set nw_awg_defaults (Some (str "Jc")) (Some (str "4"))).2 = 4 /\
  wf_awg (nw_awg_set nw_awg_defaults (Some (str "Jc")) (Some (str "4"))).2.
Proof.
  pose proof (nw_awg_set_correct nw_awg_defaults (str "Jc") (str "4")) as H.
  destruct (nw_awg_set nw_awg_defaults (Some (str "Jc")) (Some (str "4"))) as [rc a'] eqn:E.
  split; [injection E as _ <-; vm_compute; reflexivity|].
  apply H; [change (c_string [74; 99]); unfold c_string; apply Forall_cons_2; [cbn; lia|apply Forall_cons_2; [cbn; lia|constructor]]|].
  split; [reflexivity|]. repeat (apply Forall_cons_2; [apply Nat.le_0_l|]). constructor.
Defined.

(** Signature packets: at most one per slot, in bounds, counted exactly. *)
Theorem send_signature_correct (w : awg_world) (st : awg_state) (a : nw_awg) (Hw : world_ok w) :
  let '(st', sent) := nw_awg_send_signature w st a in
  exists h, a_wire st' = a_wire st ++ h /\ sent = Z.of_nat (length h) /\ (length h <= 5)%nat /\
    Forall (fun d => (0 < length d <= 4096)%nat /\ wf_bytes d) h.
Proof.
  apply send_loop_inv. intros st1 sent k _. pose proof (signature_step_inv w a k st1 sent Hw) as H.
  destruct (signature_step w a (st1, sent) k) as [st2 sent2].
  destruct H as (h & H1 & H2 & H3 & H4 & H5 & _). exists h. split_and!; [done..|].
  apply Forall_and. by split.
Qed.

Lemma send_signature_correct_witness :
  let '(st', sent) := nw_awg_send_signature demo_world demo_astate nw_awg_defaults in
  exists h, a_wire st' = a_wire demo_astate ++ h /\ sent = Z.of_nat (length h) /\ (length h <= 5)%nat /\
    Forall (fun d => (0 < length d <= 4096)%nat /\ wf_bytes d) h.
Proof. exact (send_signature_correct demo_world demo_astate nw_awg_defaults demo_world_ok). Defined.

(** Junk datagrams: never more than [jc], counted exactly, of a size within the
    configured range and the buffer, and never empty. *)
Theorem send_junk_correct (w : awg_world) (st : awg_state) (a : nw_awg) (Hw : world_ok w)
    (Hmin : int_range (jmin a)) (Hmax : jmax a < 0x7fffffff) :
  let '(st', sent) := nw_awg_send_junk w st a in
  exists h, a_wire st' = a_wire st ++ h /\ sent = Z.of_nat (length h) /\ sent <= Z.max 0 (jc a) /\
    Forall (fun d => junk_size (junk_range a).1 (junk_range a).2 d /\ wf_bytes d) h /\
    (0 < jmin a <= jmax a -> jmax a <= 2048 -> 64 <= jmax a ->
       Forall (fun d => jmin a <= Z.of_nat (length d) <= jmax a) h).
Proof.
  unfold int_range in Hmin. unfold nw_awg_send_junk. case_decide as Hjc.
  { exists []. rewrite app_nil_r. cbn [length]. split_and!; [done|lia|lia|constructor|constructor]. }
  destruct (junk_range a) as [lo hi] eqn:Er. cbn [fst snd].
  assert (0 <= lo <= hi /\ 0 < hi /\ hi - lo < 0x7fffffff /\ hi < 0x80000000 /\
    (0 < jmin a <= jmax a -> lo = jmin a /\ hi = jmax a)) as (H1 & H2 & H3 & H4 & H5).
  { revert Er. unfold junk_range. repeat case_decide; intros E; injection E; intros; subst; lia. }
  assert (forall st' sent k, (k < Z.to_nat (jc a))%nat -> let '(st2, sent2) := junk_step w lo hi (st', sent) k in
     exists h, a_wire st2 = a_wire st' ++ h /\ sent2 = sent + Z.of_nat (length h) /\ (length h <= 1)%nat /\
       Forall (fun d => junk_size lo hi d /\ wf_bytes d) h) as Hstep.
  { intros st1 sent k _. pose proof (junk_step_inv w lo hi k st1 sent Hw ltac:(lia) ltac:(lia) ltac:(lia) ltac:(lia)) as H.
    destruct (junk_step w lo hi (st1, sent) k) as [st2 sent2].
    destruct H as (h & E1 & E2 & E3 & E4 & E5). exists h. split_and!; [done..|]. apply Forall_and. by split. }
  pose proof (send_loop_inv _ _ st _ Hstep) as H. destruct (for_loop _ _ _ _) as [st' sent].
  destruct H as (h & E1 & E2 & E3 & E4). exists h. split_and!; [done|done|lia|done|].
  intros Hj Hb H64. destruct (H5 Hj) as [-> ->]. eapply Forall_impl; [exact E4|].
  intros d [[] _]. lia.
Qed.

Definition demo_awg : nw_awg := Awg 3 64 128 0 0 0 0 1 2 3 4 [[]; []; []; []; []].
Lemma send_junk_correct_witness :
  let '(st', sent) := nw_awg_send_junk demo_world demo_astate demo_awg in
  exists h, a_wire st' = a_wire demo_astate ++ h /\ sent = Z.of_nat (length h) /\
    Forall (fun d => 64 <= Z.of_nat (length d) <= 128) h.
Proof.
  pose proof (send_junk_correct demo_world demo_astate demo_awg demo_world_ok
    ltac:(unfold int_range; cbn; lia) ltac:(cbn; lia)) as H.
  destruct (nw_awg_send_junk _ _ _) as [st' sent]. destruct H as (h & H1 & H2 & _ & _ & H5).
  exists h. split; [exact H1|split; [exact H2|apply H5; cbn; lia]].
Defined.

(** Parameters that report no obfuscation send nothing at all, and the defaults
    are such. *)
Theorem awg_inactive_silent (w : awg_world) (st : awg_state) (a : nw_awg) (Hi : nw_awg_active a = 0) :
  nw_awg_send_signature w st a = (st, 0) /\ nw_awg_send_junk w st a = (st, 0) /\ nw_awg_active nw_awg_defaults = 0.
Proof.
  unfold nw_awg_active in Hi. repeat (case_decide; [discriminate|]).
  destruct (existsb _ _) eqn:E; [discriminate|]. split_and!; [|unfold nw_awg_send_junk; by rewrite decide_True by lia|done].
  assert (forall i, (i < 5)%nat -> (nth i (ipkt a) []).[0] = 0) as Hz.
  { intros i Hlt. destruct (decide ((nth i (ipkt a) []).[0] = 0)) as [|Hne]; [done|].
    exfalso. eapply eq_true_false_abs; [|exact E]. apply existsb_exists. exists i. split; [apply in_seq; lia|].
    by apply negb_true_iff, Z.eqb_neq. }
  unfold nw_awg_send_signature.
  apply (for_loop_inv (fun _ s => s = (st, 0)) 0 5); [done|]. intros i t Hlt ->.
  unfold signature_step. rewrite decide_True; [done|]. apply Hz. lia.
Qed.

Lemma awg_inactive_silent_witness :
  nw_awg_send_junk demo_world demo_astate nw_awg_defaults = (demo_astate, 0).
Proof.
  apply (awg_inactive_silent demo_world demo_astate nw_awg_defaults). reflexivity.
Defined.
