(* ===== verification/Inet.v ===== *)
(** * IPv4 addresses as text

    The C library's [inet_pton] and [inet_ntop] for [AF_INET], which the TURN
    client uses on every host name, and [std::string::c_str]. An address is its
    four bytes in network order. *)

From S2P Require Import Prelude.

(** A C++ string passed as a C string ends at its first NUL. *)
Fixpoint c_str (s : list Z) : list Z :=
  match s with c :: r => if decide (c = 0) then [] else c :: c_str r | [] => [] end.

(** The scanner of [inet_pton]: the octets finished so far and the one being
    read, [None] before its first digit. *)
Fixpoint pton_loop (done : list Z) (cur : option Z) (s : list Z) : option (list Z) :=
  match s with
  | [] =>
      match cur with
      | Some c => if decide (length done = 3)%nat then Some (done ++ [c]) else None
      | None => None
      end
  | ch :: r =>
      if decide (is_digit ch) then
        match cur with
        | Some c =>
            let n := c * 10 + (ch - 48) in
            if decide (c = 0 \/ 255 < n) then None else pton_loop done (Some n) r
        | None => pton_loop done (Some (ch - 48)) r
        end
      else if decide (ch = 46) then
        match cur with
        | Some c => if decide (length done = 3)%nat then None else pton_loop (done ++ [c]) None r
        | None => None
        end
      else None
  end.
Definition inet_pton (s : list Z) : option (list Z) := pton_loop [] None (c_str s).

(** ["%u.%u.%u.%u"] *)
Definition inet_ntop (a : list Z) : list Z :=
  dec a.[0] ++ [46] ++ dec a.[1] ++ [46] ++ dec a.[2] ++ [46] ++ dec a.[3].

Definition is_addr (a : list Z) : Prop := wf_bytes a /\ length a = 4%nat.

Lemma pton_digits ds r : Forall is_digit ds -> forall done c,
  0 < c -> foldl (fun a d => a * 10 + (d - 48)) c ds <= 255 ->
  pton_loop done (Some c) (ds ++ r) = pton_loop done (Some (foldl (fun a d => a * 10 + (d - 48)) c ds)) r.
Proof.
  unfold is_digit. induction 1 as [|d ds Hd Hds IH]; intros acc c Hc Hle; [done|]. cbn [app pton_loop foldl] in *.
  assert (forall l e, Forall is_digit l -> 0 <= e -> e <= foldl (fun a d => a * 10 + (d - 48)) e l) as Hmono.
  { unfold is_digit. intros l e Hl. revert e. induction Hl as [|x l Hx Hl IHl]; intros e He; [done|]. cbn [foldl].
    etransitivity; [|apply IHl; lia]. lia. }
  pose proof (Hmono ds (c * 10 + (d - 48)) Hds ltac:(lia)).
  rewrite decide_True by (unfold is_digit; lia). rewrite decide_False by lia. apply IH; lia.
Qed.

Lemma pton_dec acc n r : is_byte n -> pton_loop acc None (dec n ++ r) = pton_loop acc (Some n) r.
Proof.
  intros Hn. unfold is_byte in Hn. unfold dec.
  destruct (dec_digits_spec 10 n) as [Hd Hv]; [cbn; lia|].
  destruct (dec_digits_head 10 n) as (c & ds & E & Hc & H0); [cbn; lia|lia|].
  rewrite E in *. apply Forall_cons in Hd as [_ Hd]. cbn [foldl] in Hv. cbn [app pton_loop].
  rewrite decide_True by done. destruct (decide (c = 48)) as [->|Hne].
  - destruct (H0 eq_refl) as [-> ->]. done.
  - unfold is_digit in Hc. replace (0 * 10 + (c - 48)) with (c - 48) in Hv by lia.
    rewrite pton_digits, Hv by (done || lia). done.
Qed.

Lemma dec_no_nul n : is_byte n -> Forall (fun c => c <> 0) (dec n).
Proof.
  intros Hn. unfold is_byte in Hn. destruct (dec_digits_spec 10 n) as [Hd _]; [cbn; lia|].
  eapply Forall_impl; [exact Hd|]. unfold is_digit. intros. cbn in *. lia.
Qed.
Lemma c_str_id s : Forall (fun c => c <> 0) s -> c_str s = s.
Proof. induction 1 as [|c s Hc Hs IH]; [done|]. cbn [c_str]. rewrite decide_False by done. by rewrite IH. Qed.

Lemma addr_bytes a : is_addr a -> exists w x y z, a = [w; x; y; z] /\ is_byte w /\ is_byte x /\ is_byte y /\ is_byte z.
Proof.
  intros [Hw Hl]. destruct a as [|w [|x [|y [|z [|]]]]]; try discriminate Hl.
  repeat (apply Forall_cons in Hw as [? Hw]). by exists w, x, y, z.
Qed.

Lemma inet_ntop_no_nul a : is_addr a -> Forall (fun c => c <> 0) (inet_ntop a).
Proof.
  intros (w & x & y & z & -> & Hw & Hx & Hy & Hz)%addr_bytes. unfold inet_ntop. cbn [ix nth].
  repeat (apply Forall_app_2); try (by apply dec_no_nul); by apply Forall_cons_2.
Qed.

Lemma inet_pton_ntop a : is_addr a -> inet_pton (inet_ntop a) = Some a.
Proof.
  intros Ha. unfold inet_pton. rewrite c_str_id by by apply inet_ntop_no_nul.
  apply addr_bytes in Ha as (w & x & y & z & -> & Hw & Hx & Hy & Hz). unfold inet_ntop. cbn [ix nth].
  rewrite <- (app_nil_r (dec z)), pton_dec by done. cbn [app]. cbn [pton_loop].
  do 3 (rewrite (decide_False (P := is_digit 46)) by (unfold is_digit; lia); rewrite (decide_True (P := 46 = 46)) by done;
    rewrite decide_False by (cbn; lia); rewrite pton_dec by done; cbn [pton_loop app]).
  done.
Qed.

Lemma dec_not_nil n : is_byte n -> dec n <> [].
Proof.
  unfold is_byte. intros Hn. destruct (dec_digits_head 10 n) as (c & ds & E & _); [cbn; lia|lia|].
  unfold dec. by rewrite E.
Qed.

Lemma inet_ntop_inj a b : is_addr a -> is_addr b -> inet_ntop a = inet_ntop b -> a = b.
Proof.
  intros Ha Hb E. apply inet_pton_ntop in Ha, Hb. rewrite E in Ha. congruence.
Qed.

(** What [inet_pton] accepts is four bytes. *)
Lemma pton_loop_addr s : forall done cur a, wf_bytes done -> (length done <= 3)%nat ->
  (forall c, cur = Some c -> is_byte c) -> pton_loop done cur s = Some a -> is_addr a.
Proof.
  unfold is_byte. induction s as [|ch s IH]; intros done cur a Hd Hl Hc; cbn [pton_loop].
  - destruct cur as [c|]; [|done]. case_decide as H3; [|done]. intros [= <-].
    split; [apply Forall_app_2; [done|apply Forall_cons_2; [by apply Hc|constructor]]|len].
  - case_decide as Hdig; unfold is_digit in Hdig.
    + destruct cur as [c|].
      * case_decide; [done|]. specialize (Hc c eq_refl). apply IH; [done|done|]. intros ? [= <-]. lia.
      * apply IH; [done|done|]. intros ? [= <-]. lia.
    + case_decide; [|done]. destruct cur as [c|]; [|done]. case_decide; [done|].
      apply IH; [apply Forall_app_2; [done|apply Forall_cons_2; [by apply Hc|constructor]]|len|done].
Qed.
Lemma inet_pton_addr s a : inet_pton s = Some a -> is_addr a.
Proof. apply pton_loop_addr; [constructor|cbn; lia|done]. Qed.
