(* ===== verification/Stun.v ===== *)
(** * STUN and TURN messages

    The codec half of [tgcalls/Ios6TurnClient.cpp]: both of its families of
    routines (the TURN client's, on vectors, and the [Ios6] ones of the ICE
    checks, on pointer and length), translated first, and then specified against
    one abstract message: a type, a transaction id and a list of attributes. *)

From Stdlib Require Import ZifyNat.
From S2P Require Import Prelude Inet.

(** The CommonCrypto digests are not part of the repository: the code relies on
    [CC_MD5] returning 16 bytes and [CCHmac(kCCHmacAlgSHA1, ...)] 20. *)
Class CommonCrypto := {
  CC_MD5 : list Z -> list Z;
  CCHmac_SHA1 : list Z -> list Z -> list Z;
  CC_MD5_size : forall m, wf_bytes (CC_MD5 m) /\ length (CC_MD5 m) = 16%nat;
  CCHmac_SHA1_size : forall k m, wf_bytes (CCHmac_SHA1 k m) /\ length (CCHmac_SHA1 k m) = 20%nat
}.
Definition CC_SHA1_DIGEST_LENGTH : nat := 20.

(** ** The C++ code: TURN client *)

Definition kStunMagicCookie : Z := 0x2112A442.
Definition kTurnAllocateRequest : Z := 0x0003.
Definition kTurnAllocateSuccess : Z := 0x0103.
Definition kTurnAllocateError : Z := 0x0113.
Definition kTurnRefreshRequest : Z := 0x0004.
Definition kTurnCreatePermissionRequest : Z := 0x0008.
Definition kTurnCreatePermissionSuccess : Z := 0x0108.
Definition kTurnCreatePermissionError : Z := 0x0118.
Definition kAttrXorPeerAddress : Z := 0x0012.
Definition kAttrUsername : Z := 0x0006.
Definition kAttrMessageIntegrity : Z := 0x0008.
Definition kAttrErrorCode : Z := 0x0009.
Definition kAttrLifetime : Z := 0x000D.
Definition kAttrRealm : Z := 0x0014.
Definition kAttrNonce : Z := 0x0015.
Definition kAttrXorRelayedAddress : Z := 0x0016.
Definition kAttrRequestedTransport : Z := 0x0019.

(** [ReadU16(&m[i])] *)
Definition ReadU16 (m : list Z) (i : nat) : Z := u16 (Z.lor (Z.shiftl m.[i] 8) m.[i + 1]).
Definition ReadU32 (m : list Z) (i : nat) : Z :=
  Z.lor (Z.lor (Z.lor (u32 (Z.shiftl m.[i] 24)) (u32 (Z.shiftl m.[i + 1] 16)))
               (u32 (Z.shiftl m.[i + 2] 8))) m.[i + 3].

Definition AppendU16 (out : list Z) (value : Z) : list Z := out ++ [u8 (Z.shiftr value 8); u8 value].
Definition AppendU32 (out : list Z) (value : Z) : list Z :=
  out ++ [u8 (Z.shiftr value 24); u8 (Z.shiftr value 16); u8 (Z.shiftr value 8); u8 value].
Definition SetU16 (out : list Z) (offset : nat) (value : Z) : list Z :=
  if decide (length out <= offset + 1)%nat then out
  else <[(offset + 1)%nat := u8 value]> (<[offset := u8 (Z.shiftr value 8)]> out).

Definition MakeMessage (type : Z) (txid : list Z) : list Z :=
  AppendU32 (AppendU16 (AppendU16 [] type) 0) kStunMagicCookie ++ txid.

Definition UpdateMessageLength (message : list Z) : list Z :=
  if decide (length message < 20)%nat then message
  else SetU16 message 2 (u16 (Z.of_nat (length message - 20))).

(** [while ((message.size() & 3) != 0) message.push_back(0);] *)
Fixpoint pad_loop (fuel : nat) (message : list Z) : list Z :=
  match fuel with
  | O => message
  | S fuel => if decide (Z.land (Z.of_nat (length message)) 3 <> 0) then pad_loop fuel (message ++ [0]) else message
  end.

Definition AddAttribute (message : list Z) (type : Z) (data : list Z) : list Z :=
  let message := AppendU16 message type in
  let message := AppendU16 message (u16 (Z.of_nat (length data))) in
  pad_loop 3 (message ++ data).
Definition AddStringAttribute (message : list Z) (type : Z) (value : list Z) : list Z :=
  AddAttribute message type value.

(** The value of the first attribute of the wanted type. Each iteration advances
    by at least four bytes, so the size of the message is fuel enough. *)
Fixpoint find_loop (fuel : nat) (message : list Z) (wantedType : Z) (end_ offset : nat) : option (list Z) :=
  match fuel with
  | O => None
  | S fuel =>
      if decide (offset + 4 <= end_)%nat then
        let type := ReadU16 message offset in
        let length_ := Z.to_nat (ReadU16 message (offset + 2)) in
        let offset := (offset + 4)%nat in
        if decide (end_ < offset + length_)%nat then None else
        if decide (type = wantedType) then Some (slice message offset length_) else
        let offset := (offset + length_)%nat in
        find_loop fuel message wantedType end_ ((offset + 3) / 4 * 4)%nat
      else None
  end.
Definition FindAttribute (message : list Z) (wantedType : Z) : option (list Z) :=
  if decide (length message < 20)%nat then None else
  let declaredLength := Z.to_nat (ReadU16 message 2) in
  if decide (length message < 20 + declaredLength)%nat then None else
  find_loop (length message) message wantedType (20 + declaredLength) 20.

(** [ParseErrorCode]; 0 when there is none. *)
Definition ParseErrorCode (message : list Z) : Z :=
  match FindAttribute message kAttrErrorCode with
  | Some value =>
      if decide (length value < 4)%nat then 0 else Z.land value.[2] 7 * 100 + value.[3]
  | None => 0
  end.
Definition ParseLifetimeSeconds (message : list Z) : Z :=
  match FindAttribute message kAttrLifetime with
  | Some value => if decide (length value < 4)%nat then 0 else ReadU32 value 0
  | None => 0
  end.

(** The address bytes of [htonl(a)] in memory. *)
Definition addr_of_u32 (a : Z) : list Z :=
  [u8 (Z.shiftr a 24); u8 (Z.shiftr a 16); u8 (Z.shiftr a 8); u8 a].
(** [inet_ntop] cannot fail for an [AF_INET] address and a buffer of
    [INET_ADDRSTRLEN]. *)
Definition ParseXorRelayedAddress (message : list Z) : option (list Z * Z) :=
  match FindAttribute message kAttrXorRelayedAddress with
  | Some value =>
      if decide (length value < 8)%nat then None else
      if decide (value.[1] <> 1) then None else
      let decodedPort := u16 (Z.lxor (ReadU16 value 2) 0x2112) in
      let decodedAddress := Z.lxor (ReadU32 value 4) kStunMagicCookie in
      Some (inet_ntop (addr_of_u32 decodedAddress), decodedPort)
  | None => None
  end.

Definition requestedTransport : list Z := [17; 0; 0; 0].
Definition MakeAllocateRequest (txid : list Z) : list Z :=
  UpdateMessageLength (AddAttribute (MakeMessage kTurnAllocateRequest txid) kAttrRequestedTransport requestedTransport).

Section turn.
Context `{CommonCrypto}.

Definition MakeLongTermKey (username realm password : list Z) : list Z :=
  CC_MD5 (username ++ str ":" ++ realm ++ str ":" ++ password).

Definition MakeAuthenticatedAllocateRequest (txid username password realm nonce : list Z) : list Z :=
  let message := MakeMessage kTurnAllocateRequest txid in
  let message := AddStringAttribute message kAttrUsername username in
  let message := AddStringAttribute message kAttrRealm realm in
  let message := AddStringAttribute message kAttrNonce nonce in
  let message := AddAttribute message kAttrRequestedTransport requestedTransport in
  let lengthWithIntegrity := (length message - 20 + 24)%nat in
  let message := SetU16 message 2 (u16 (Z.of_nat lengthWithIntegrity)) in
  let digest := CCHmac_SHA1 (MakeLongTermKey username realm password) message in
  UpdateMessageLength (AddAttribute message kAttrMessageIntegrity digest).

(** [ntohl] of the address bytes [inet_pton] stored. *)
Definition MakeXorPeerAddress (host : list Z) (port : Z) : option (list Z) :=
  match inet_pton host with
  | None => None
  | Some address =>
      let xorPort := u16 (Z.lxor port (u16 (Z.shiftr kStunMagicCookie 16))) in
      let xorIp := Z.lxor (ReadU32 address 0) kStunMagicCookie in
      Some [0; 1; u8 (Z.shiftr xorPort 8); u8 xorPort;
            u8 (Z.shiftr xorIp 24); u8 (Z.shiftr xorIp 16); u8 (Z.shiftr xorIp 8); u8 xorIp]
  end.

Definition AddLongTermMessageIntegrity (message username password realm : list Z) : list Z :=
  let key := CC_MD5 (username ++ str ":" ++ realm ++ str ":" ++ password) in
  let payloadWithIntegrity := (length message - 20 + 4 + CC_SHA1_DIGEST_LENGTH)%nat in
  let hmacInput := SetU16 message 2 (u16 (Z.of_nat payloadWithIntegrity)) in
  let digest := CCHmac_SHA1 key hmacInput in
  UpdateMessageLength (AddAttribute message kAttrMessageIntegrity digest).

Record RtcServer := Server {
  rs_host : list Z; rs_port : Z; rs_login : list Z; rs_password : list Z;
  rs_isTurn : bool; rs_isTcp : bool
}.

Definition MakeRefreshRequest (txid : list Z) (server : RtcServer) (realm nonce : list Z)
    (requestedLifetimeSeconds : Z) : list Z :=
  let request := MakeMessage kTurnRefreshRequest txid in
  let request := AddStringAttribute request kAttrUsername (rs_login server) in
  let request := AddStringAttribute request kAttrRealm realm in
  let request := AddStringAttribute request kAttrNonce nonce in
  let lifetime := [u8 (Z.shiftr requestedLifetimeSeconds 24); u8 (Z.shiftr requestedLifetimeSeconds 16);
                   u8 (Z.shiftr requestedLifetimeSeconds 8); u8 requestedLifetimeSeconds] in
  let request := AddAttribute request kAttrLifetime lifetime in
  AddLongTermMessageIntegrity request (rs_login server) (rs_password server) realm.

Definition MakeCreatePermissionRequest (txid : list Z) (server : RtcServer) (realm nonce peerHost : list Z)
    (peerPort : Z) : list Z :=
  let request := MakeMessage kTurnCreatePermissionRequest txid in
  let request := AddStringAttribute request kAttrUsername (rs_login server) in
  let request := AddStringAttribute request kAttrRealm realm in
  let request := AddStringAttribute request kAttrNonce nonce in
  let request :=
    match MakeXorPeerAddress peerHost peerPort with
    | Some peerAddress => AddAttribute request kAttrXorPeerAddress peerAddress
    | None => request
    end in
  AddLongTermMessageIntegrity request (rs_login server) (rs_password server) realm.

End turn.

(** ** The C++ code: ICE checks *)

Definition kIos6StunBindingRequest : Z := 0x0001.
Definition kIos6StunBindingSuccess : Z := 0x0101.
Definition kIos6StunBindingError : Z := 0x0111.
Definition kIos6TurnSendIndication : Z := 0x0016.
Definition kIos6TurnDataIndication : Z := 0x0017.
Definition kIos6AttrUsername : Z := 0x0006.
Definition kIos6AttrMessageIntegrity : Z := 0x0008.
Definition kIos6AttrErrorCode : Z := 0x0009.
Definition kIos6AttrXorPeerAddress : Z := 0x0012.
Definition kIos6AttrData : Z := 0x0013.
Definition kIos6AttrXorMappedAddress : Z := 0x0020.
Definition kIos6AttrPriority : Z := 0x0024.
Definition kIos6AttrUseCandidate : Z := 0x0025.
Definition kIos6AttrFingerprint : Z := 0x8028.
Definition kIos6AttrIceControlled : Z := 0x8029.
Definition kIos6AttrIceControlling : Z := 0x802A.
Definition kIos6StunCookie : Z := 0x2112A442.

Definition Ios6Read16 (p : list Z) (i : nat) : Z := u16 (Z.lor (Z.shiftl p.[i] 8) p.[i + 1]).
Definition Ios6Read32 (p : list Z) (i : nat) : Z :=
  Z.lor (Z.lor (Z.lor (u32 (Z.shiftl p.[i] 24)) (u32 (Z.shiftl p.[i + 1] 16)))
               (u32 (Z.shiftl p.[i + 2] 8))) p.[i + 3].

Definition Ios6Write16 (message : list Z) (offset : nat) (value : Z) : list Z :=
  <[(offset + 1)%nat := u8 value]> (<[offset := u8 (Z.shiftr value 8)]> message).
Definition Ios6Write32 (message : list Z) (offset : nat) (value : Z) : list Z :=
  <[(offset + 3)%nat := u8 value]> (<[(offset + 2)%nat := u8 (Z.shiftr value 8)]>
    (<[(offset + 1)%nat := u8 (Z.shiftr value 16)]> (<[offset := u8 (Z.shiftr value 24)]> message))).
Definition Ios6SetStunLength (message : list Z) (bodySize : nat) : list Z :=
  Ios6Write16 message 2 (u16 (Z.of_nat bodySize)).

Definition Ios6MakeStunHeader (type : Z) (txid : list Z) : list Z :=
  store (Ios6Write32 (Ios6Write16 (zeros 20) 0 type) 4 kIos6StunCookie) 8 txid.

Definition Ios6AppendAttribute (message : list Z) (type : Z) (value : list Z) : list Z :=
  let valueSize := Z.of_nat (length value) in
  pad_loop 3 (message ++ [u8 (Z.shiftr type 8)] ++ [u8 type] ++ [u8 (Z.shiftr valueSize 8)] ++ [u8 valueSize] ++ value).

Definition Ios6MakeXorPeerAddressValue (peerHost : list Z) (peerPort : Z) : option (list Z) :=
  match inet_pton peerHost with
  | None => None
  | Some addressBytes =>
      let xorPort := u16 (Z.lxor peerPort (u16 (Z.shiftr kIos6StunCookie 16))) in
      Some [0; 1; u8 (Z.shiftr xorPort 8); u8 xorPort;
            Z.lxor addressBytes.[0] 0x21; Z.lxor addressBytes.[1] 0x12;
            Z.lxor addressBytes.[2] 0xa4; Z.lxor addressBytes.[3] 0x42]
  end.

Definition crc_bit (crc : Z) : Z :=
  if decide (Z.land crc 1 <> 0) then Z.lxor (Z.shiftr crc 1) 0xedb88320 else Z.shiftr crc 1.
Definition crc_byte (crc b : Z) : Z := for_loop 0 8 (fun crc _ => crc_bit crc) (Z.lxor crc b).
Definition Ios6Crc32 (data : list Z) : Z := Z.lxor (foldl crc_byte 0xffffffff data) 0xffffffff.

(** The offset and the size of the value. *)
Fixpoint ios6_find_loop (fuel : nat) (message : list Z) (wantedType : Z) (end_ offset : nat) : option (nat * nat) :=
  match fuel with
  | O => None
  | S fuel =>
      if decide (offset + 4 <= end_)%nat then
        let type := Ios6Read16 message offset in
        let length_ := Z.to_nat (Ios6Read16 message (offset + 2)) in
        let offset := (offset + 4)%nat in
        if decide (end_ < offset + length_)%nat then None else
        if decide (type = wantedType) then Some (offset, length_) else
        let offset := (offset + length_)%nat in
        ios6_find_loop fuel message wantedType end_ ((offset + 3) / 4 * 4)%nat
      else None
  end.
Definition Ios6FindAttribute (message : list Z) (wantedType : Z) : option (nat * nat) :=
  if decide (length message < 20)%nat then None else
  let declared := Z.to_nat (Ios6Read16 message 2) in
  let end_ := (20 + declared)%nat in
  let end_ := if decide (length message < end_)%nat then length message else end_ in
  ios6_find_loop (length message) message wantedType end_ 20.
(** The bytes [value, value + valueSize). *)
Definition attr_value (message : list Z) (wantedType : Z) : option (list Z) :=
  match Ios6FindAttribute message wantedType with
  | Some (offset, size) => Some (slice message offset size)
  | None => None
  end.

Definition Ios6ParseStunErrorCode (message : list Z) : Z :=
  match attr_value message kIos6AttrErrorCode with
  | Some value =>
      if decide (length value < 4)%nat then 0 else Z.land value.[2] 7 * 100 + value.[3]
  | None => 0
  end.

Definition Ios6ParseXorAddressValue (value : list Z) : option (list Z * Z) :=
  if decide ((length value < 8)%nat \/ value.[1] <> 1) then None else
  let decodedPort := u16 (Z.lxor (Ios6Read16 value 2) (u16 (Z.shiftr kIos6StunCookie 16))) in
  let addressBytes := [Z.lxor value.[4] 0x21; Z.lxor value.[5] 0x12;
                       Z.lxor value.[6] 0xa4; Z.lxor value.[7] 0x42] in
  Some (inet_ntop addressBytes, decodedPort).

Section ice.
Context `{CommonCrypto}.

(** MESSAGE-INTEGRITY and FINGERPRINT, the same statements at the end of the
    binding request and of the binding response. *)
Definition add_integrity (message key : list Z) : list Z :=
  let lengthThroughMi := (length message - 20 + 4 + CC_SHA1_DIGEST_LENGTH)%nat in
  let message := Ios6SetStunLength message lengthThroughMi in
  Ios6AppendAttribute message kIos6AttrMessageIntegrity (CCHmac_SHA1 key message).
Definition add_fingerprint (message : list Z) : list Z :=
  let finalBodyLength := (length message - 20 + 8)%nat in
  let message := Ios6SetStunLength message finalBodyLength in
  let fingerprint := Z.lxor (Ios6Crc32 message) 0x5354554e in
  let fingerprintBytes := [u8 (Z.shiftr fingerprint 24); u8 (Z.shiftr fingerprint 16);
                           u8 (Z.shiftr fingerprint 8); u8 fingerprint] in
  let message := Ios6AppendAttribute message kIos6AttrFingerprint fingerprintBytes in
  Ios6SetStunLength message (length message - 20).

Definition Ios6MakeIceBindingRequest (txid localUfrag remoteUfrag remotePassword : list Z)
    (tieBreakerValue : Z) (controlling useCandidate : bool) : list Z :=
  let message := Ios6MakeStunHeader kIos6StunBindingRequest txid in
  let username := remoteUfrag ++ str ":" ++ localUfrag in
  let message := Ios6AppendAttribute message kIos6AttrUsername username in
  let priority := 1862270975 in
  let priorityBytes := [u8 (Z.shiftr priority 24); u8 (Z.shiftr priority 16); u8 (Z.shiftr priority 8); u8 priority] in
  let message := Ios6AppendAttribute message kIos6AttrPriority priorityBytes in
  let tieBreaker := map (fun i => u8 (Z.shiftr tieBreakerValue ((7 - Z.of_nat i) * 8))) (seq 0 8) in
  let message := Ios6AppendAttribute message
    (if controlling then kIos6AttrIceControlling else kIos6AttrIceControlled) tieBreaker in
  let message := if useCandidate then Ios6AppendAttribute message kIos6AttrUseCandidate [] else message in
  add_fingerprint (add_integrity message remotePassword).

(** The empty message when the host is not numeric. *)
Definition Ios6MakeTurnSendIndication (txid peerHost : list Z) (peerPort : Z) (payload : list Z) : list Z :=
  let message := Ios6MakeStunHeader kIos6TurnSendIndication txid in
  match Ios6MakeXorPeerAddressValue peerHost peerPort with
  | None => []
  | Some peerValue =>
      let message := Ios6AppendAttribute message kIos6AttrXorPeerAddress peerValue in
      let message := Ios6AppendAttribute message kIos6AttrData payload in
      Ios6SetStunLength message (length message - 20)
  end.

Definition Ios6VerifyShortTermIntegrity (message password : list Z) : bool :=
  match Ios6FindAttribute message kIos6AttrMessageIntegrity with
  | None => false
  | Some (valueOffset, integritySize) =>
      if decide (integritySize <> CC_SHA1_DIGEST_LENGTH) then false else
      if decide (valueOffset < 24 \/ length message < valueOffset)%nat then false else
      let attributeOffset := (valueOffset - 4)%nat in
      if decide (attributeOffset < 20)%nat then false else
      let authenticatedPart := take attributeOffset message in
      let lengthThroughIntegrity := (attributeOffset - 20 + 4 + CC_SHA1_DIGEST_LENGTH)%nat in
      if decide (65535 < Z.of_nat lengthThroughIntegrity) then false else
      let authenticatedPart := Ios6SetStunLength authenticatedPart lengthThroughIntegrity in
      let calculated := CCHmac_SHA1 password authenticatedPart in
      bool_decide (calculated = slice message valueOffset CC_SHA1_DIGEST_LENGTH)
  end.

Definition Ios6MakeIceBindingSuccessResponse (txid mappedHost : list Z) (mappedPort : Z) (localPassword : list Z) : list Z :=
  let message := Ios6MakeStunHeader kIos6StunBindingSuccess txid in
  match Ios6MakeXorPeerAddressValue mappedHost mappedPort with
  | None => []
  | Some mappedValue =>
      let message := Ios6AppendAttribute message kIos6AttrXorMappedAddress mappedValue in
      add_fingerprint (add_integrity message localPassword)
  end.

End ice.

(** ** Abstract messages *)

Definition be16 (v : Z) : list Z := [u8 (Z.shiftr v 8); u8 v].
Definition be32 (v : Z) : list Z := [u8 (Z.shiftr v 24); u8 (Z.shiftr v 16); u8 (Z.shiftr v 8); u8 v].
Definition padding (n : nat) : list Z := zeros ((4 - n mod 4) mod 4)%nat.
Definition encode_attr (a : Z * list Z) : list Z :=
  be16 a.1 ++ be16 (Z.of_nat (length a.2)) ++ a.2 ++ padding (length a.2).
Definition encode_attrs (attrs : list (Z * list Z)) : list Z := concat (map encode_attr attrs).
(** A message with an arbitrary length field, and with its own length. *)
Definition stun_with (len type : Z) (txid : list Z) (attrs : list (Z * list Z)) : list Z :=
  (be16 type ++ be16 len ++ be32 kStunMagicCookie ++ txid) ++ encode_attrs attrs.
Definition body (attrs : list (Z * list Z)) : Z := Z.of_nat (length (encode_attrs attrs)).
Definition stun (type : Z) (txid : list Z) (attrs : list (Z * list Z)) : list Z := stun_with (body attrs) type txid attrs.

(** The first attribute of a type. *)
Fixpoint attr_get (type : Z) (attrs : list (Z * list Z)) : option (list Z) :=
  match attrs with
  | [] => None
  | (t, v) :: attrs => if decide (t = type) then Some v else attr_get type attrs
  end.

Definition attr_ok (a : Z * list Z) : Prop :=
  0 <= a.1 < 65536 /\ Z.of_nat (length a.2) < 65536 /\ wf_bytes a.2.

Lemma be16_wf v : wf_bytes (be16 v).
Proof. unfold be16. repeat apply Forall_cons_2; auto with words. Qed.
Lemma be32_wf v : wf_bytes (be32 v).
Proof. unfold be32. repeat apply Forall_cons_2; auto with words. Qed.
#[export] Hint Resolve be16_wf be32_wf : words.

Lemma be16_u16 v : be16 (u16 v) = be16 v.
Proof.
  unfold be16. rewrite !u8_mod, u16_mod, !Z.shiftr_div_pow2 by lia. f_equal; [|f_equal]; lia.
Qed.

Lemma ReadU16_val m i : wf_bytes m -> ReadU16 m i = m.[i] * 256 + m.[i + 1].
Proof.
  intros Hm. pose proof (ix_byte m i Hm) as H1. pose proof (ix_byte m (i + 1) Hm) as H2. unfold is_byte in *.
  unfold ReadU16. rewrite Z.lor_comm, (lor_add_shift _ _ 8) by lia. rewrite u16_mod. lia.
Qed.
Lemma ReadU32_val m i : wf_bytes m ->
  ReadU32 m i = m.[i] * 16777216 + m.[i + 1] * 65536 + m.[i + 2] * 256 + m.[i + 3].
Proof.
  intros Hm. pose proof (ix_byte m i Hm) as H1. pose proof (ix_byte m (i + 1) Hm) as H2.
  pose proof (ix_byte m (i + 2) Hm) as H3. pose proof (ix_byte m (i + 3) Hm) as H4. unfold is_byte in *.
  unfold ReadU32. rewrite !u32_id by (rewrite Z.shiftl_mul_pow2; lia).
  rewrite <- !Z.lor_assoc, (Z.lor_comm (Z.shiftl _ 24)).
  rewrite <- !Z.lor_assoc.
  rewrite (Z.lor_comm (Z.shiftl m.[i + 1] 16)), <- !Z.lor_assoc.
  rewrite (Z.lor_assoc (Z.shiftl m.[i + 2] 8)), (Z.lor_comm (Z.shiftl m.[i + 2] 8) m.[i + 3]).
  rewrite (lor_add_shift _ _ 8) by lia. rewrite (Z.lor_comm (Z.shiftl m.[i] 24)).
  rewrite Z.lor_assoc, (lor_add_shift _ _ 16) by lia. rewrite (lor_add_shift _ _ 24) by lia. lia.
Qed.

(** The two families read the same way. *)
Lemma Ios6Read16_ReadU16 m i : Ios6Read16 m i = ReadU16 m i.
Proof. done. Qed.
Lemma Ios6Read32_ReadU32 m i : Ios6Read32 m i = ReadU32 m i.
Proof. done. Qed.

Lemma ReadU16_range m i : wf_bytes m -> 0 <= ReadU16 m i < 65536.
Proof.
  intros Hm. rewrite ReadU16_val by done. pose proof (ix_byte m i Hm). pose proof (ix_byte m (i + 1) Hm).
  unfold is_byte in *. lia.
Qed.

Lemma ReadU16_at pre v post : wf_bytes pre -> wf_bytes post -> 0 <= v < 65536 ->
  ReadU16 (pre ++ be16 v ++ post) (length pre) = v.
Proof.
  intros Hpre Hpost Hv. rewrite ReadU16_val by wf.
  rewrite !(ix_app_r pre) by lia. rewrite Nat.sub_diag. replace (length pre + 1 - length pre)%nat with 1%nat by lia.
  cbn [be16 be32 ix nth app]. rewrite !u8_mod, Z.shiftr_div_pow2 by lia. lia.
Qed.
Lemma ReadU32_at pre v post : wf_bytes pre -> wf_bytes post -> is_u32 v ->
  ReadU32 (pre ++ be32 v ++ post) (length pre) = v.
Proof.
  unfold is_u32. intros Hpre Hpost Hv. rewrite ReadU32_val by wf.
  rewrite !(ix_app_r pre) by lia. rewrite Nat.sub_diag. replace (length pre + 1 - length pre)%nat with 1%nat by lia.
  replace (length pre + 2 - length pre)%nat with 2%nat by lia. replace (length pre + 3 - length pre)%nat with 3%nat by lia.
  cbn [be16 be32 ix nth app]. rewrite !u8_mod, !Z.shiftr_div_pow2 by lia. lia.
Qed.

Lemma land3_mod4 n : Z.land (Z.of_nat n) 3 = Z.of_nat (n mod 4).
Proof. change 3 with (Z.ones 2). rewrite Z.land_ones by lia. rewrite Nat2Z.inj_mod. done. Qed.

Lemma pad_loop_padding m : pad_loop 3 m = m ++ padding (length m).
Proof.
  assert (forall k f m, (4 - length m mod 4) mod 4 = k -> (k <= f)%nat -> pad_loop f m = m ++ zeros k)%nat as Hk.
  { clear m. induction k as [|k IH]; intros f m Hm Hf.
    - rewrite app_nil_r. destruct f; cbn [pad_loop]; [done|]. rewrite land3_mod4, decide_False; [done|].
      intros Hne. apply Hne. pose proof (Nat.mod_upper_bound (length m) 4). destruct (length m mod 4)%nat as [|[|[|[|]]]]; cbn in *; lia.
    - destruct f as [|f]; [lia|]. cbn [pad_loop]. rewrite land3_mod4, decide_True.
      + rewrite (IH f (m ++ [0])); [by rewrite <- app_assoc| |lia]. len.
      + intros E. assert (length m mod 4 = 0)%nat as E' by lia. rewrite E' in Hm. done. }
  apply Hk; [done|]. pose proof (Nat.mod_upper_bound (4 - length m mod 4) 4). lia.
Qed.

Lemma length_padding n : ((n + length (padding n)) mod 4 = 0)%nat.
Proof. unfold padding. rewrite length_zeros. lia. Qed.
Lemma padding_mod a n : (a mod 4 = 0)%nat -> padding (a + n) = padding n.
Proof. intros Ha. unfold padding. f_equal. lia. Qed.
Lemma padding_wf n : wf_bytes (padding n).
Proof. apply zeros_wf. Qed.
#[export] Hint Resolve padding_wf : words.

Lemma encode_attr_mod a : (length (encode_attr a) mod 4 = 0)%nat.
Proof.
  unfold encode_attr. rewrite !length_app. cbn [be16 length]. pose proof (length_padding (length a.2)). lia.
Qed.
Lemma encode_attrs_mod attrs : (length (encode_attrs attrs) mod 4 = 0)%nat.
Proof.
  induction attrs as [|a attrs IH]; [done|]. unfold encode_attrs. cbn [map concat]. rewrite length_app.
  fold (encode_attrs attrs). pose proof (encode_attr_mod a). lia.
Qed.
Lemma encode_attrs_app l k : encode_attrs (l ++ k) = encode_attrs l ++ encode_attrs k.
Proof. unfold encode_attrs. by rewrite map_app, concat_app. Qed.
Lemma encode_attrs_one a : encode_attrs [a] = encode_attr a.
Proof. unfold encode_attrs. cbn [map concat]. apply app_nil_r. Qed.
Lemma encode_attr_wf a : attr_ok a -> wf_bytes (encode_attr a).
Proof. intros (_ & _ & Hw). unfold encode_attr. wf. Qed.
Lemma encode_attrs_wf attrs : Forall attr_ok attrs -> wf_bytes (encode_attrs attrs).
Proof.
  induction 1 as [|a attrs Ha Hs IH]; [constructor|]. unfold encode_attrs. cbn [map concat].
  apply Forall_app_2; [by apply encode_attr_wf|done].
Qed.

Definition is_txid (x : list Z) : Prop := wf_bytes x /\ length x = 12%nat.

Lemma stun_with_length len type txid attrs : is_txid txid ->
  length (stun_with len type txid attrs) = (20 + length (encode_attrs attrs))%nat.
Proof. intros [_ Hx]. unfold stun_with. rewrite !length_app, Hx. cbn [be16 be32 length]. lia. Qed.
Lemma stun_with_wf len type txid attrs : is_txid txid -> Forall attr_ok attrs -> wf_bytes (stun_with len type txid attrs).
Proof. intros [Hw _] Ha. unfold stun_with. pose proof (encode_attrs_wf attrs Ha). wf. Qed.

(** *** The builders produce them *)

Lemma MakeMessage_stun type txid : MakeMessage type txid = stun_with 0 type txid [].
Proof. unfold stun_with. rewrite app_nil_r. done. Qed.

Lemma AddAttribute_stun len type txid attrs t v : is_txid txid ->
  AddAttribute (stun_with len type txid attrs) t v = stun_with len type txid (attrs ++ [(t, v)]).
Proof.
  intros Hx. unfold AddAttribute, AppendU16. rewrite pad_loop_padding.
  fold (be16 t). fold (be16 (u16 (Z.of_nat (length v)))). rewrite be16_u16.
  rewrite !length_app, stun_with_length by done. cbn [be16 length].
  replace (20 + length (encode_attrs attrs) + 2 + 2 + length v)%nat
    with ((24 + length (encode_attrs attrs)) + length v)%nat by lia.
  rewrite padding_mod by (pose proof (encode_attrs_mod attrs); lia).
  unfold stun_with. rewrite encode_attrs_app, encode_attrs_one. unfold encode_attr. cbn [fst snd].
  by rewrite <- !app_assoc.
Qed.

Lemma Ios6AppendAttribute_stun len type txid attrs t v : is_txid txid ->
  Ios6AppendAttribute (stun_with len type txid attrs) t v = stun_with len type txid (attrs ++ [(t, v)]).
Proof.
  intros Hx. rewrite <- AddAttribute_stun by done. unfold Ios6AppendAttribute, AddAttribute, AppendU16.
  f_equal. fold (be16 (u16 (Z.of_nat (length v)))). rewrite be16_u16. by rewrite <- !app_assoc.
Qed.

Lemma SetU16_stun len len' type txid attrs : is_txid txid ->
  SetU16 (stun_with len type txid attrs) 2 (u16 len') = stun_with len' type txid attrs.
Proof.
  intros Hx. unfold SetU16. rewrite decide_False by (rewrite stun_with_length by done; lia).
  unfold stun_with. cbn [be16 app]. cbn [Nat.add insert list_insert]. f_equal. f_equal.
  pose proof (be16_u16 len') as E. unfold be16 in E. injection E as E1 E2. by rewrite E1, E2.
Qed.
Lemma Ios6SetStunLength_stun len n type txid attrs : is_txid txid ->
  Ios6SetStunLength (stun_with len type txid attrs) n = stun_with (Z.of_nat n) type txid attrs.
Proof.
  intros Hx. rewrite <- (SetU16_stun len (Z.of_nat n)) by done. unfold SetU16.
  rewrite decide_False by (rewrite stun_with_length by done; lia). done.
Qed.
Lemma UpdateMessageLength_stun len type txid attrs : is_txid txid ->
  UpdateMessageLength (stun_with len type txid attrs) = stun type txid attrs.
Proof.
  intros Hx. unfold UpdateMessageLength. rewrite stun_with_length by done. rewrite decide_False by lia.
  rewrite SetU16_stun by done. unfold stun, body. repeat f_equal. lia.
Qed.

Lemma Ios6MakeStunHeader_stun type txid : is_txid txid -> Ios6MakeStunHeader type txid = stun_with 0 type txid [].
Proof.
  intros [_ Hx]. unfold stun_with. cbn [encode_attrs map concat]. rewrite app_nil_r.
  unfold Ios6MakeStunHeader, store. rewrite Hx.
  assert (length (Ios6Write32 (Ios6Write16 (zeros 20) 0 type) 4 kIos6StunCookie) = 20%nat) as Hl.
  { unfold Ios6Write32, Ios6Write16. by rewrite !length_insert. }
  rewrite drop_ge by lia. rewrite app_nil_r, !app_assoc. f_equal.
Qed.

(** *** The parsers read them *)

Lemma attr_step len_pre t v rest pre : wf_bytes pre -> wf_bytes rest -> attr_ok (t, v) ->
  length pre = len_pre ->
  let m := pre ++ encode_attr (t, v) ++ rest in
  ReadU16 m len_pre = t /\ ReadU16 m (len_pre + 2) = Z.of_nat (length v) /\
  slice m (len_pre + 4) (length v) = v.
Proof.
  intros Hpre Hrest (Ht & Hl & Hv) <- m. cbn [fst snd] in *.
  unfold m, encode_attr. cbn [fst snd]. rewrite <- !app_assoc.
  split; [apply ReadU16_at; wf; done|]. split.
  - rewrite (app_assoc pre). replace (length pre + 2)%nat with (length (pre ++ be16 t)) by len.
    apply ReadU16_at; [wf|wf|lia].
  - rewrite !app_assoc, <- !app_assoc. unfold slice. rewrite (app_assoc pre), (app_assoc (pre ++ _)).
    rewrite drop_app_length' by len. apply take_app_length.
Qed.

(** Where the first attribute of a type lies, from offset [o] on. *)
Fixpoint attr_at (w : Z) (o : nat) (attrs : list (Z * list Z)) : option (nat * nat) :=
  match attrs with
  | [] => None
  | (t, v) :: attrs => if decide (t = w) then Some (o + 4, length v)%nat else attr_at w (o + length (encode_attr (t, v))) attrs
  end.

Lemma ios6_find_loop_attrs w attrs : Forall attr_ok attrs -> forall pre fuel,
  wf_bytes pre -> (length pre mod 4 = 0)%nat -> (length attrs < fuel)%nat ->
  ios6_find_loop fuel (pre ++ encode_attrs attrs) w (length pre + length (encode_attrs attrs)) (length pre) =
  attr_at w (length pre) attrs.
Proof.
  induction 1 as [|[t v] attrs Ha Hs IH]; intros pre fuel Hpre Hmod Hf;
    (destruct fuel as [|fuel]; [cbn [length] in Hf; lia|]); cbn [ios6_find_loop attr_at].
  - rewrite decide_False; [done|]. cbn. lia.
  - unfold encode_attrs. cbn [map concat]. fold (encode_attrs attrs). change Ios6Read16 with ReadU16.
    destruct (attr_step (length pre) t v (encode_attrs attrs) pre) as (E1 & E2 & _); [done|by apply encode_attrs_wf|done|done|].
    cbn [app] in E1, E2. rewrite E1, E2, Nat2Z.id. rewrite !length_app.
    assert (length (encode_attr (t, v)) = 4 + length v + length (padding (length v)))%nat as El
      by (unfold encode_attr; rewrite !length_app; cbn [be16 length fst snd]; lia).
    rewrite decide_True by lia. rewrite decide_False by lia. case_decide; [done|].
    rewrite <- length_app. replace ((length pre + 4 + length v + 3) / 4 * 4)%nat with (length (pre ++ encode_attr (t, v))).
    + rewrite app_assoc. replace (length pre + length (encode_attr (t, v) ++ encode_attrs attrs))%nat
        with (length (pre ++ encode_attr (t, v)) + length (encode_attrs attrs))%nat by (rewrite !length_app; lia).
      rewrite IH; [by rewrite length_app|apply Forall_app_2; [done|by apply encode_attr_wf]| |cbn [length] in Hf; lia].
      rewrite length_app. pose proof (encode_attr_mod (t, v)). lia.
    + rewrite length_app, El. pose proof (encode_attr_mod (t, v)) as Hm. rewrite El in Hm.
      unfold padding in *. rewrite length_zeros in *. lia.
Qed.

Lemma attr_at_get w attrs : Forall attr_ok attrs -> forall pre, wf_bytes pre ->
  option_map (fun '(off, n) => slice (pre ++ encode_attrs attrs) off n) (attr_at w (length pre) attrs) = attr_get w attrs.
Proof.
  induction 1 as [|[t v] attrs Ha Hs IH]; intros pre Hpre; cbn [attr_at attr_get option_map]; [done|].
  unfold encode_attrs. cbn [map concat]. fold (encode_attrs attrs).
  case_decide; cbn [option_map].
  - destruct (attr_step (length pre) t v (encode_attrs attrs) pre) as (_ & _ & E3); [done|by apply encode_attrs_wf|done|done|].
    by rewrite E3.
  - rewrite app_assoc, <- length_app. apply IH. apply Forall_app_2; [done|by apply encode_attr_wf].
Qed.

(** The attribute that follows attributes of other types. *)
Lemma attr_at_skip w attrs v rest : attr_get w attrs = None -> forall o,
  attr_at w o (attrs ++ (w, v) :: rest) = Some (o + length (encode_attrs attrs) + 4, length v)%nat.
Proof.
  induction attrs as [|[t u] attrs IH]; cbn [attr_get app attr_at]; intros Hn o.
  - rewrite decide_True by done. cbn. f_equal. f_equal. lia.
  - destruct (decide (t = w)); [done|]. rewrite IH by done. unfold encode_attrs. cbn [map concat].
    rewrite length_app. fold (encode_attrs attrs). f_equal. f_equal. lia.
Qed.

(** The first family's search is the second's, followed by the copy. *)
Lemma find_loop_ios6 fuel m w e : forall o,
  find_loop fuel m w e o = option_map (fun '(off, n) => slice m off n) (ios6_find_loop fuel m w e o).
Proof.
  induction fuel as [|fuel IH]; intros o; cbn [find_loop ios6_find_loop option_map]; [done|].
  case_decide; [|done]. change Ios6Read16 with ReadU16. case_decide; [done|]. case_decide; [done|]. apply IH.
Qed.

Lemma stun_length_field len type txid attrs : is_txid txid -> Forall attr_ok attrs -> 0 <= len < 65536 ->
  ReadU16 (stun_with len type txid attrs) 2 = len.
Proof.
  intros Hx Ha Hl. unfold stun_with. rewrite <- !app_assoc. apply (ReadU16_at (be16 type)); [auto with words| |done].
  pose proof (encode_attrs_wf attrs Ha). destruct Hx as [Hx _]. wf.
Qed.

Lemma length_attrs_le attrs : (4 * length attrs <= length (encode_attrs attrs))%nat.
Proof.
  induction attrs as [|a attrs IH]; [done|]. unfold encode_attrs. cbn [map concat length].
  rewrite length_app. fold (encode_attrs attrs). unfold encode_attr. rewrite !length_app. cbn [be16 length]. lia.
Qed.

Lemma Ios6FindAttribute_stun type txid attrs w : is_txid txid -> Forall attr_ok attrs -> body attrs < 65536 ->
  Ios6FindAttribute (stun type txid attrs) w = attr_at w 20 attrs.
Proof.
  intros Hx Ha Hb. unfold stun, Ios6FindAttribute, body in *. rewrite stun_with_length by done.
  rewrite decide_False by lia. change Ios6Read16 with ReadU16. rewrite stun_length_field by (done || lia).
  rewrite Nat2Z.id, decide_False by lia. unfold stun_with.
  set (pre := be16 type ++ _). assert (length pre = 20%nat) as Hp
    by (unfold pre; destruct Hx as [_ Hx]; rewrite !length_app, Hx; reflexivity).
  rewrite <- Hp. apply ios6_find_loop_attrs; [done| |by rewrite Hp|].
  - unfold pre. destruct Hx as [Hx _]. wf.
  - pose proof (length_attrs_le attrs). lia.
Qed.

Lemma attr_value_stun type txid attrs w : is_txid txid -> Forall attr_ok attrs -> body attrs < 65536 ->
  attr_value (stun type txid attrs) w = attr_get w attrs.
Proof.
  intros Hx Ha Hb. unfold attr_value. rewrite Ios6FindAttribute_stun by done.
  unfold stun, stun_with. set (pre := be16 type ++ _). assert (length pre = 20%nat) as Hp
    by (unfold pre; destruct Hx as [_ Hx]; rewrite !length_app, Hx; reflexivity).
  rewrite <- Hp, <- (attr_at_get w attrs Ha pre) by (unfold pre; destruct Hx as [Hx _]; wf).
  by destruct (attr_at w (length pre) attrs) as [[]|].
Qed.

(** On a message that is as long as it says, the families agree. *)
Lemma FindAttribute_ios6 m w : (20 + Z.to_nat (ReadU16 m 2) <= length m)%nat ->
  FindAttribute m w = attr_value m w.
Proof.
  intros Hl. unfold FindAttribute, attr_value, Ios6FindAttribute. change Ios6Read16 with ReadU16.
  rewrite !(decide_False (P := (length m < _)%nat)) by lia.
  rewrite find_loop_ios6. by destruct (ios6_find_loop _ _ _ _ _) as [[]|].
Qed.

Lemma FindAttribute_stun type txid attrs w : is_txid txid -> Forall attr_ok attrs -> body attrs < 65536 ->
  FindAttribute (stun type txid attrs) w = attr_get w attrs.
Proof.
  intros Hx Ha Hb. rewrite FindAttribute_ios6; [by apply attr_value_stun|].
  unfold stun, body in *. rewrite stun_length_field, stun_with_length by (done || lia). lia.
Qed.

(** What is found in an arbitrary message: an aligned value inside it, after a
    matching type and length; any more iterations find the same. *)
Lemma ios6_find_loop_sound fuel m w e : (e <= length m)%nat -> forall o off n,
  (20 <= o)%nat -> (o mod 4 = 0)%nat -> ios6_find_loop fuel m w e o = Some (off, n) ->
  (24 <= off)%nat /\ (off mod 4 = 0)%nat /\ (off + n <= e)%nat /\
  ReadU16 m (off - 4) = w /\ Z.to_nat (ReadU16 m (off - 2)) = n.
Proof.
  intros He. induction fuel as [|fuel IH]; intros o off n Ho Hm; cbn [ios6_find_loop]; [done|].
  case_decide; [|done]. case_decide; [done|]. case_decide as Hw.
  - intros [= <- <-]. change Ios6Read16 with ReadU16 in *. replace (o + 4 - 4)%nat with o by lia.
    replace (o + 4 - 2)%nat with (o + 2)%nat by lia. split_and!; [lia|lia|lia|done|done].
  - apply IH; lia.
Qed.

Lemma ios6_find_loop_fuel m w e fuel : forall k o, (e < o + fuel)%nat -> (e < o + k)%nat ->
  ios6_find_loop fuel m w e o = ios6_find_loop k m w e o.
Proof.
  induction fuel as [|fuel IH]; intros k o Hf Hk.
  - destruct k as [|k]; cbn [ios6_find_loop]; [done|]. by rewrite decide_False by lia.
  - destruct k as [|k]; cbn [ios6_find_loop]; [by rewrite decide_False by lia|].
    case_decide; [|done]. case_decide; [done|]. case_decide; [done|].
    apply IH; generalize (Z.to_nat (Ios6Read16 m (o + 2))); intros; lia.
Qed.

(** ** XOR-encoded addresses *)

(** Both directions of the encoding are this byte-wise exclusive or. *)
Definition xor_ip (a : list Z) : list Z :=
  [Z.lxor a.[0] 0x21; Z.lxor a.[1] 0x12; Z.lxor a.[2] 0xa4; Z.lxor a.[3] 0x42].
Definition xor_port (port : Z) : Z := Z.lxor port 0x2112.
Definition xor_address (a : list Z) (port : Z) : list Z := [0; 1] ++ be16 (xor_port port) ++ xor_ip a.

Lemma xor_ip_addr a : is_addr a -> is_addr (xor_ip a).
Proof.
  intros (w & x & y & z & -> & Hw & Hx & Hy & Hz)%addr_bytes. split; [|done]. unfold xor_ip. cbn [ix nth].
  repeat apply Forall_cons_2; try apply lxor_is_byte; auto; unfold is_byte; lia.
Qed.
Lemma xor_ip_invol a : is_addr a -> xor_ip (xor_ip a) = a.
Proof.
  intros (w & x & y & z & -> & _)%addr_bytes. unfold xor_ip. cbn [ix nth].
  by rewrite !Z.lxor_assoc, !Z.lxor_nilpotent, !Z.lxor_0_r.
Qed.
Lemma xor_port_range p : 0 <= p < 65536 -> 0 <= xor_port p < 65536.
Proof. intros. apply (lxor_bound _ _ 16); lia. Qed.
Lemma xor_port_invol p : xor_port (xor_port p) = p.
Proof. unfold xor_port. by rewrite Z.lxor_assoc, Z.lxor_nilpotent, Z.lxor_0_r. Qed.
Lemma u16_id x : 0 <= x < 65536 -> u16 x = x.
Proof. rewrite u16_mod. lia. Qed.

Lemma xor_address_wf a port : is_addr a -> wf_bytes (xor_address a port).
Proof. intros Ha. destruct (xor_ip_addr a Ha) as [Hw _]. unfold xor_address. wf. Qed.

Lemma u8_lxor x y : u8 (Z.lxor x y) = Z.lxor (u8 x) (u8 y).
Proof.
  unfold u8. apply Z.bits_inj'. intros i Hi. rewrite !Z.land_spec, !Z.lxor_spec, !Z.land_spec.
  destruct (Z.testbit 255 i); rewrite ?andb_true_r, ?andb_false_r; done.
Qed.

Lemma Ios6MakeXor_spec host port : 0 <= port < 65536 ->
  Ios6MakeXorPeerAddressValue host port = option_map (fun a => xor_address a port) (inet_pton host).
Proof.
  intros Hp. unfold Ios6MakeXorPeerAddressValue. destruct (inet_pton host) as [a|]; [|done].
  change (u16 (Z.shiftr kIos6StunCookie 16)) with 0x2112. fold (xor_port port).
  rewrite u16_id by by apply xor_port_range. done.
Qed.

(** The TURN client's encoder, through 32-bit words, gives the same bytes. *)
Lemma MakeXor_spec host port : MakeXorPeerAddress host port = Ios6MakeXorPeerAddressValue host port.
Proof.
  unfold MakeXorPeerAddress, Ios6MakeXorPeerAddressValue. destruct (inet_pton host) as [a|] eqn:E; [|done].
  apply inet_pton_addr in E. destruct (addr_bytes a E) as (w & x & y & z & -> & Hw & Hx & Hy & Hz).
  rewrite ReadU32_val by apply E. cbn [ix nth Nat.add]. unfold is_byte in *.
  set (v := w * 16777216 + x * 65536 + y * 256 + z).
  assert (forall k, 0 <= k -> u8 (Z.shiftr (Z.lxor v kStunMagicCookie) k) =
    Z.lxor (u8 (Z.shiftr v k)) (u8 (Z.shiftr kStunMagicCookie k))) as Hs
    by (intros; by rewrite Z.shiftr_lxor, u8_lxor).
  assert (u8 (Z.lxor v kStunMagicCookie) = Z.lxor (u8 v) (u8 kStunMagicCookie)) as H0 by apply u8_lxor.
  rewrite !Hs, H0 by lia.
  assert (u8 (Z.shiftr v 24) = w /\ u8 (Z.shiftr v 16) = x /\ u8 (Z.shiftr v 8) = y /\ u8 v = z) as (-> & -> & -> & ->)
    by (rewrite !u8_mod, !Z.shiftr_div_pow2 by lia; unfold v; lia).
  done.
Qed.

Lemma Ios6ParseXor_spec a port rest : is_addr a -> 0 <= port < 65536 -> wf_bytes rest ->
  Ios6ParseXorAddressValue (xor_address a port ++ rest) = Some (inet_ntop a, port).
Proof.
  intros Ha Hp Hr. unfold Ios6ParseXorAddressValue.
  rewrite decide_False by (unfold xor_address; rewrite !length_app; cbn; lia).
  change Ios6Read16 with ReadU16.
  assert (ReadU16 (xor_address a port ++ rest) 2 = xor_port port) as ->.
  - unfold xor_address. rewrite <- !app_assoc. apply (ReadU16_at [0; 1]); [wf| |by apply xor_port_range]. destruct (xor_ip_addr a Ha) as [Hw _]. wf.
  - change (u16 (Z.shiftr kIos6StunCookie 16)) with 0x2112. fold (xor_port (xor_port port)).
    rewrite xor_port_invol, u16_id by done. do 3 f_equal.
    pose proof (xor_ip_invol a Ha) as E. revert E. unfold xor_address, be16. cbn [app ix nth]. done.
Qed.

(** The TURN client's decoder of the relayed address is the other family's. *)
Lemma ParseXorRelayed_spec m : wf_bytes m -> ParseXorRelayedAddress m =
  match FindAttribute m kAttrXorRelayedAddress with Some v => Ios6ParseXorAddressValue v | None => None end.
Proof.
  intros Hm. unfold ParseXorRelayedAddress, Ios6ParseXorAddressValue.
  destruct (FindAttribute m kAttrXorRelayedAddress) as [v|] eqn:E; [|done].
  assert (wf_bytes v) as Hv.
  { revert E. unfold FindAttribute. repeat case_decide; try done. rewrite find_loop_ios6.
    destruct (ios6_find_loop _ _ _ _ _) as [[]|]; [|done]. intros [= <-]. auto with words. }
  case_decide; [by rewrite decide_True by auto|]. case_decide; [by rewrite decide_True by auto|].
  rewrite decide_False by tauto. change Ios6Read16 with ReadU16.
  change (u16 (Z.shiftr kIos6StunCookie 16)) with 0x2112. do 3 f_equal.
  rewrite ReadU32_val by done. cbn [Nat.add].
  pose proof (ix_byte v 4 Hv) as B4. pose proof (ix_byte v 5 Hv) as B5.
  pose proof (ix_byte v 6 Hv) as B6. pose proof (ix_byte v 7 Hv) as B7. unfold is_byte in *.
  set (x := v.[4] * 16777216 + v.[5] * 65536 + v.[6] * 256 + v.[7]).
  assert (forall k, 0 <= k -> u8 (Z.shiftr (Z.lxor x kStunMagicCookie) k) =
    Z.lxor (u8 (Z.shiftr x k)) (u8 (Z.shiftr kStunMagicCookie k))) as Hs
    by (intros; by rewrite Z.shiftr_lxor, u8_lxor).
  unfold addr_of_u32. rewrite !Hs, u8_lxor by lia.
  assert (u8 (Z.shiftr x 24) = v.[4] /\ u8 (Z.shiftr x 16) = v.[5] /\ u8 (Z.shiftr x 8) = v.[6] /\ u8 x = v.[7])
    as (-> & -> & -> & ->) by (rewrite !u8_mod, !Z.shiftr_div_pow2 by lia; unfold x; lia).
  done.
Qed.

(** ** Integrity and fingerprint *)

Section integrity.
Context `{CommonCrypto}.

(** The attribute covers the message before it, with the length field already
    counting it. *)
Definition mac_attr (key : list Z) (type : Z) (txid : list Z) (attrs : list (Z * list Z)) : Z * list Z :=
  (kIos6AttrMessageIntegrity, CCHmac_SHA1 key (stun_with (body attrs + 24) type txid attrs)).
Definition fp_attr (type : Z) (txid : list Z) (attrs : list (Z * list Z)) : Z * list Z :=
  (kIos6AttrFingerprint, be32 (Z.lxor (Ios6Crc32 (stun_with (body attrs + 8) type txid attrs)) 0x5354554e)).
Definition with_mac key type txid attrs := attrs ++ [mac_attr key type txid attrs].
Definition with_fp type txid attrs := attrs ++ [fp_attr type txid attrs].

Lemma mac_attr_ok key type txid attrs : attr_ok (mac_attr key type txid attrs).
Proof.
  destruct (CCHmac_SHA1_size key (stun_with (body attrs + 24) type txid attrs)) as [Hw Hl].
  unfold attr_ok, mac_attr. cbn [fst snd]. rewrite Hl. unfold kIos6AttrMessageIntegrity. split_and!; [lia|lia|lia|done].
Qed.
Lemma fp_attr_ok type txid attrs : attr_ok (fp_attr type txid attrs).
Proof. unfold attr_ok, fp_attr. cbn [fst snd be32 length]. unfold kIos6AttrFingerprint. split_and!; [lia|lia|lia|apply be32_wf]. Qed.

Lemma add_integrity_stun len type txid attrs key : is_txid txid ->
  add_integrity (stun_with len type txid attrs) key = stun_with (body attrs + 24) type txid (with_mac key type txid attrs).
Proof.
  intros Hx. unfold add_integrity. rewrite stun_with_length, Ios6SetStunLength_stun by done.
  replace (Z.of_nat (20 + length (encode_attrs attrs) - 20 + 4 + CC_SHA1_DIGEST_LENGTH)) with (body attrs + 24)
    by (unfold body, CC_SHA1_DIGEST_LENGTH; lia).
  by rewrite Ios6AppendAttribute_stun by done.
Qed.

Lemma add_fingerprint_stun len type txid attrs : is_txid txid ->
  add_fingerprint (stun_with len type txid attrs) = stun type txid (with_fp type txid attrs).
Proof.
  intros Hx. unfold add_fingerprint. rewrite stun_with_length, Ios6SetStunLength_stun by done.
  replace (Z.of_nat (20 + length (encode_attrs attrs) - 20 + 8)) with (body attrs + 8) by (unfold body; lia).
  fold (be32 (Z.lxor (Ios6Crc32 (stun_with (body attrs + 8) type txid attrs)) 0x5354554e)).
  rewrite Ios6AppendAttribute_stun, stun_with_length, Ios6SetStunLength_stun by done.
  unfold stun, with_fp, fp_attr, body. do 2 f_equal. lia.
Qed.

Lemma AddLongTerm_stun len type txid attrs user pw realm : is_txid txid ->
  AddLongTermMessageIntegrity (stun_with len type txid attrs) user pw realm =
  stun type txid (with_mac (MakeLongTermKey user realm pw) type txid attrs).
Proof.
  intros Hx. unfold AddLongTermMessageIntegrity. fold (MakeLongTermKey user realm pw).
  rewrite stun_with_length, SetU16_stun by done.
  replace (Z.of_nat (20 + length (encode_attrs attrs) - 20 + 4 + CC_SHA1_DIGEST_LENGTH)) with (body attrs + 24)
    by (unfold body, CC_SHA1_DIGEST_LENGTH; lia).
  by rewrite AddAttribute_stun, UpdateMessageLength_stun by done.
Qed.

(** What verification computes on a message whose first MESSAGE-INTEGRITY
    follows [attrs]. *)
Lemma Verify_stun key type txid attrs mac rest : is_txid txid ->
  Forall attr_ok (attrs ++ (kIos6AttrMessageIntegrity, mac) :: rest) ->
  body (attrs ++ (kIos6AttrMessageIntegrity, mac) :: rest) < 65536 ->
  attr_get kIos6AttrMessageIntegrity attrs = None -> length mac = 20%nat ->
  Ios6VerifyShortTermIntegrity (stun type txid (attrs ++ (kIos6AttrMessageIntegrity, mac) :: rest)) key =
  bool_decide (CCHmac_SHA1 key (stun_with (body attrs + 24) type txid attrs) = mac).
Proof.
  intros Hx Ha Hb Hg Hl. unfold Ios6VerifyShortTermIntegrity. rewrite Ios6FindAttribute_stun by done.
  rewrite attr_at_skip by done. rewrite Hl. rewrite decide_False by (intros Hn; by apply Hn).
  assert (body (attrs ++ (kIos6AttrMessageIntegrity, mac) :: rest) =
    body attrs + 24 + body rest) as Eb.
  { unfold body. rewrite encode_attrs_app. change (?a :: rest) with ([a] ++ rest). rewrite encode_attrs_app, encode_attrs_one.
    unfold encode_attr. cbn [fst snd]. rewrite !length_app, Hl. cbn [be16 length]. change (length (padding 20)) with 0%nat. lia. }
  assert (length (stun type txid (attrs ++ (kIos6AttrMessageIntegrity, mac) :: rest)) =
    Z.to_nat (20 + body (attrs ++ (kIos6AttrMessageIntegrity, mac) :: rest))) as El
    by (unfold stun; rewrite stun_with_length by done; unfold body; lia).
  rewrite Eb in *. set (n := length (encode_attrs attrs)).
  assert (body attrs = Z.of_nat n) as En by done.
  rewrite decide_False by (rewrite El; unfold body in *; lia).
  replace (20 + n + 4 - 4)%nat with (20 + n)%nat by lia. rewrite decide_False by lia.
  rewrite decide_False by (unfold CC_SHA1_DIGEST_LENGTH, body in *; lia).
  pose proof (stun_with_length 0 type txid attrs Hx) as Hlen.
  assert (take (20 + n) (stun type txid (attrs ++ (kIos6AttrMessageIntegrity, mac) :: rest)) =
    stun_with (body (attrs ++ (kIos6AttrMessageIntegrity, mac) :: rest)) type txid attrs) as ->.
  { unfold stun, stun_with. rewrite encode_attrs_app, app_assoc. apply take_app_length'.
    unfold stun_with in Hlen. revert Hlen. rewrite !length_app. cbn [be16 length]. lia. }
  rewrite Ios6SetStunLength_stun by done.
  replace (Z.of_nat (20 + n - 20 + 4 + CC_SHA1_DIGEST_LENGTH)) with (body attrs + 24) by (unfold CC_SHA1_DIGEST_LENGTH; lia).
  assert (slice (stun type txid (attrs ++ (kIos6AttrMessageIntegrity, mac) :: rest)) (20 + n + 4) CC_SHA1_DIGEST_LENGTH = mac) as ->; [|done].
  apply Forall_app in Ha as [Ha Hm]. apply Forall_cons in Hm as [Hm Hr].
  destruct (attr_step (20 + n) kIos6AttrMessageIntegrity mac (encode_attrs rest)
    (stun_with (body attrs + 24 + body rest) type txid attrs)) as (_ & _ & E);
    [by apply stun_with_wf|by apply encode_attrs_wf|done|done|].
  rewrite Hl in E. unfold CC_SHA1_DIGEST_LENGTH. rewrite <- E at 2. f_equal.
  unfold stun, stun_with. rewrite Eb, encode_attrs_app.
  rewrite (app_assoc _ (encode_attrs attrs)). done.
Qed.

(** *** The requests *)

Definition is_tie_breaker (t : Z) : list Z := map (fun i => u8 (Z.shiftr t ((7 - Z.of_nat i) * 8))) (seq 0 8).

Definition ice_attrs (localUfrag remoteUfrag : list Z) (tie : Z) (controlling useCandidate : bool) : list (Z * list Z) :=
  [(kIos6AttrUsername, remoteUfrag ++ str ":" ++ localUfrag); (kIos6AttrPriority, be32 1862270975);
   (if controlling then kIos6AttrIceControlling else kIos6AttrIceControlled, is_tie_breaker tie)] ++
  (if useCandidate then [(kIos6AttrUseCandidate, [])] else []).

Lemma IceBindingRequest_stun txid lu ru pw tie c u : is_txid txid ->
  Ios6MakeIceBindingRequest txid lu ru pw tie c u =
  stun kIos6StunBindingRequest txid
    (with_fp kIos6StunBindingRequest txid (with_mac pw kIos6StunBindingRequest txid (ice_attrs lu ru tie c u))).
Proof.
  intros Hx. unfold Ios6MakeIceBindingRequest. rewrite Ios6MakeStunHeader_stun by done.
  rewrite !Ios6AppendAttribute_stun by done. fold (be32 1862270975). fold (is_tie_breaker tie).
  destruct u; rewrite add_integrity_stun, add_fingerprint_stun by done; done.
Qed.

Lemma SendIndication_stun txid host port payload a : is_txid txid -> 0 <= port < 65536 -> inet_pton host = Some a ->
  Ios6MakeTurnSendIndication txid host port payload =
  stun kIos6TurnSendIndication txid [(kIos6AttrXorPeerAddress, xor_address a port); (kIos6AttrData, payload)].
Proof.
  intros Hx Hp Ha. unfold Ios6MakeTurnSendIndication. rewrite Ios6MakeXor_spec, Ha by done. cbn [option_map].
  rewrite Ios6MakeStunHeader_stun, !Ios6AppendAttribute_stun by done.
  rewrite stun_with_length, Ios6SetStunLength_stun by done. unfold stun, body. f_equal; lia.
Qed.

Lemma BindingSuccess_stun txid host port pw a : is_txid txid -> 0 <= port < 65536 -> inet_pton host = Some a ->
  Ios6MakeIceBindingSuccessResponse txid host port pw =
  stun kIos6StunBindingSuccess txid
    (with_fp kIos6StunBindingSuccess txid (with_mac pw kIos6StunBindingSuccess txid [(kIos6AttrXorMappedAddress, xor_address a port)])).
Proof.
  intros Hx Hp Ha. unfold Ios6MakeIceBindingSuccessResponse. rewrite Ios6MakeXor_spec, Ha by done. cbn [option_map].
  rewrite Ios6MakeStunHeader_stun, Ios6AppendAttribute_stun by done.
  by rewrite add_integrity_stun, add_fingerprint_stun by done.
Qed.

Definition credentials (user realm nonce : list Z) : list (Z * list Z) :=
  [(kAttrUsername, user); (kAttrRealm, realm); (kAttrNonce, nonce)].

Lemma AllocateRequest_stun txid : is_txid txid ->
  MakeAllocateRequest txid = stun kTurnAllocateRequest txid [(kAttrRequestedTransport, requestedTransport)].
Proof.
  intros Hx. unfold MakeAllocateRequest. rewrite MakeMessage_stun, AddAttribute_stun by done.
  by rewrite UpdateMessageLength_stun.
Qed.

Lemma AuthenticatedAllocate_stun txid user pw realm nonce : is_txid txid ->
  MakeAuthenticatedAllocateRequest txid user pw realm nonce =
  stun kTurnAllocateRequest txid (with_mac (MakeLongTermKey user realm pw) kTurnAllocateRequest txid
    (credentials user realm nonce ++ [(kAttrRequestedTransport, requestedTransport)])).
Proof.
  intros Hx. unfold MakeAuthenticatedAllocateRequest, AddStringAttribute.
  rewrite MakeMessage_stun, !AddAttribute_stun by done. cbn [app].
  rewrite stun_with_length, SetU16_stun by done.
  rewrite AddAttribute_stun, UpdateMessageLength_stun by done.
  unfold with_mac, mac_attr, body. do 6 f_equal. cbn [credentials app]. do 2 f_equal. lia.
Qed.

Lemma RefreshRequest_stun txid server realm nonce life : is_txid txid ->
  MakeRefreshRequest txid server realm nonce life =
  stun kTurnRefreshRequest txid (with_mac (MakeLongTermKey (rs_login server) realm (rs_password server)) kTurnRefreshRequest txid
    (credentials (rs_login server) realm nonce ++ [(kAttrLifetime, be32 life)])).
Proof.
  intros Hx. unfold MakeRefreshRequest, AddStringAttribute.
  rewrite MakeMessage_stun, !AddAttribute_stun by done. by rewrite AddLongTerm_stun by done.
Qed.

Lemma CreatePermission_stun txid server realm nonce host port a : is_txid txid -> 0 <= port < 65536 ->
  inet_pton host = Some a ->
  MakeCreatePermissionRequest txid server realm nonce host port =
  stun kTurnCreatePermissionRequest txid
    (with_mac (MakeLongTermKey (rs_login server) realm (rs_password server)) kTurnCreatePermissionRequest txid
      (credentials (rs_login server) realm nonce ++ [(kAttrXorPeerAddress, xor_address a port)])).
Proof.
  intros Hx Hp Ha. unfold MakeCreatePermissionRequest, AddStringAttribute.
  rewrite MakeXor_spec, Ios6MakeXor_spec, Ha by done. cbn [option_map].
  rewrite MakeMessage_stun, !AddAttribute_stun by done. by rewrite AddLongTerm_stun by done.
Qed.

(** *** Sizes *)

Lemma body_app l k : body (l ++ k) = body l + body k.
Proof. unfold body. rewrite encode_attrs_app, length_app. lia. Qed.
Lemma body_cons t v l : body ((t, v) :: l) <= Z.of_nat (length v) + 7 + body l.
Proof.
  unfold body, encode_attrs. cbn [map concat]. rewrite length_app. unfold encode_attr. rewrite !length_app.
  cbn [be16 length fst snd]. unfold padding. rewrite length_zeros. lia.
Qed.
Lemma body_nonneg l : 0 <= body l.
Proof. unfold body. lia. Qed.
Lemma body_mac key type txid attrs : body [mac_attr key type txid attrs] = 24.
Proof.
  unfold body. rewrite encode_attrs_one. unfold encode_attr, mac_attr. cbn [fst snd].
  destruct (CCHmac_SHA1_size key (stun_with (body attrs + 24) type txid attrs)) as [_ Hl].
  rewrite !length_app, Hl. reflexivity.
Qed.
Lemma body_fp type txid attrs : body [fp_attr type txid attrs] = 8.
Proof. done. Qed.

(** A message closed by an integrity attribute under a key verifies under it. *)
Lemma with_mac_verifies key type txid attrs rest : is_txid txid -> Forall attr_ok attrs -> Forall attr_ok rest ->
  attr_get kIos6AttrMessageIntegrity attrs = None -> body attrs + 24 + body rest < 65536 ->
  Ios6VerifyShortTermIntegrity (stun type txid (with_mac key type txid attrs ++ rest)) key = true.
Proof.
  intros Hx Ha Hr Hg Hb. unfold with_mac, mac_attr. rewrite <- app_assoc. cbn [app].
  rewrite Verify_stun; [by apply bool_decide_eq_true_2|done| | |done|].
  - apply Forall_app_2; [done|]. apply Forall_cons_2; [apply mac_attr_ok|done].
  - rewrite body_app. pose proof (body_mac key type txid attrs) as Hm. unfold mac_attr in Hm.
    change (?a :: rest) with ([a] ++ rest). rewrite body_app, Hm. lia.
  - apply CCHmac_SHA1_size.
Qed.
End integrity.

Lemma Ios6FindAttribute_sound m w off n : Ios6FindAttribute m w = Some (off, n) ->
  exists e, (e <= length m)%nat /\ (e <= 20 + Z.to_nat (ReadU16 m 2))%nat /\ (20 <= length m)%nat /\
    e = (if decide (length m < 20 + Z.to_nat (ReadU16 m 2)) then length m else 20 + Z.to_nat (ReadU16 m 2))%nat /\
    ios6_find_loop (length m) m w e 20 = Some (off, n) /\
    (24 <= off)%nat /\ (off mod 4 = 0)%nat /\ (off + n <= e)%nat /\
    ReadU16 m (off - 4) = w /\ Z.to_nat (ReadU16 m (off - 2)) = n.
Proof.
  intros Hf. unfold Ios6FindAttribute in Hf. change Ios6Read16 with ReadU16 in Hf.
  case_decide as H20; [done|]. revert Hf. set (e := if decide _ then length m else _). intros Hf.
  assert (e <= length m /\ e <= 20 + Z.to_nat (ReadU16 m 2))%nat as [He He'] by (unfold e; case_decide; lia).
  destruct (ios6_find_loop_sound _ _ _ _ He 20 off n ltac:(lia) eq_refl Hf) as (S1 & S2 & S3 & S4 & S5).
  exists e. split_and!; try done. lia.
Qed.

(** *** Attributes of the ICE messages *)

Lemma tie_breaker_wf t : wf_bytes (is_tie_breaker t).
Proof. apply Forall_map, Forall_true. intros. apply u8_is_byte. Qed.

Lemma ice_attrs_ok lu ru tie c u : wf_bytes lu -> wf_bytes ru -> Z.of_nat (length lu + length ru) <= 30000 ->
  Forall attr_ok (ice_attrs lu ru tie c u) /\ body (ice_attrs lu ru tie c u) <= 40000 /\
  attr_get kIos6AttrMessageIntegrity (ice_attrs lu ru tie c u) = None.
Proof.
  intros Hlu Hru Hl. unfold ice_attrs.
  assert (forall t v, 0 <= t < 65536 -> Z.of_nat (length v) < 65536 -> wf_bytes v -> attr_ok (t, v)) as Hok by done.
  assert (wf_bytes (str ":")) as Hc by apply str_wf. assert (length (str ":") = 1%nat) as Hc1 by done.
  split_and!.
  - apply Forall_app_2; [|by destruct u; [apply Forall_cons_2; [apply Hok|]|]].
    apply Forall_cons_2; [apply Hok; [done|rewrite !length_app, Hc1; lia|wf]|].
    apply Forall_cons_2; [apply Hok; [done|done|apply be32_wf]|].
    apply Forall_cons_2; [apply Hok; [by destruct c|done|apply tie_breaker_wf]|constructor].
  - rewrite body_app. assert (body (if u then [(kIos6AttrUseCandidate, [])] else []) <= 4) by (by destruct u).
    pose proof (body_cons kIos6AttrUsername (ru ++ str ":" ++ lu) [(kIos6AttrPriority, be32 1862270975);
     (if c then kIos6AttrIceControlling else kIos6AttrIceControlled, is_tie_breaker tie)]) as Hb.
    rewrite !length_app, Hc1 in Hb.
    assert (body [(kIos6AttrPriority, be32 1862270975);
     (if c then kIos6AttrIceControlling else kIos6AttrIceControlled, is_tie_breaker tie)] <= 100) by (by destruct c). lia.
  - by destruct c, u.
Qed.

Lemma attr_get_app w l k : attr_get w (l ++ k) = match attr_get w l with Some v => Some v | None => attr_get w k end.
Proof. induction l as [|[t v] l IH]; cbn [app attr_get]; [done|]. by case_decide. Qed.

(** A message closed by integrity and fingerprint: its other attributes are the
    given ones, and it verifies. *)
Lemma closed_message {CC : CommonCrypto} type txid attrs key : is_txid txid -> Forall attr_ok attrs -> body attrs <= 60000 ->
  attr_get kIos6AttrMessageIntegrity attrs = None ->
  let m := stun type txid (with_fp type txid (with_mac key type txid attrs)) in
  Ios6VerifyShortTermIntegrity m key = true /\ wf_bytes m /\ length m = Z.to_nat (52 + body attrs) /\
  forall w, w <> kIos6AttrMessageIntegrity -> w <> kIos6AttrFingerprint -> attr_value m w = attr_get w attrs.
Proof.
  intros Hx Ha Hb Hg m. unfold m, with_fp, with_mac. rewrite <- app_assoc. cbn [app].
  set (fp := fp_attr type txid _). assert (attr_ok fp) as Hfp by apply fp_attr_ok.
  assert (body [fp] = 8) as Hf8 by done.
  pose proof (body_mac key type txid attrs) as Hm24. pose proof (mac_attr_ok key type txid attrs) as Hmac.
  assert (body (attrs ++ [mac_attr key type txid attrs; fp]) = body attrs + 32) as Hbody.
  { rewrite body_app. change [mac_attr key type txid attrs; fp] with ([mac_attr key type txid attrs] ++ [fp]). rewrite body_app. lia. }
  assert (Forall attr_ok (attrs ++ [mac_attr key type txid attrs; fp])) as Hok
    by (apply Forall_app_2; [done|repeat apply Forall_cons_2; [done|done|constructor]]).
  split_and!.
  - pose proof (with_mac_verifies key type txid attrs [fp] Hx Ha ltac:(by apply Forall_cons_2) Hg ltac:(lia)) as Hv.
    unfold with_mac in Hv. rewrite <- app_assoc in Hv. exact Hv.
  - unfold stun. apply stun_with_wf; assumption.
  - unfold stun. rewrite stun_with_length by done. pose proof (body_nonneg attrs). unfold body in *. lia.
  - intros w Hw1 Hw2. rewrite attr_value_stun by (done || lia). rewrite attr_get_app.
    destruct (attr_get w attrs); [done|]. unfold mac_attr, fp, fp_attr. cbn [attr_get].
    by rewrite !decide_False by done.
Qed.

Lemma stun_header type txid attrs : 0 <= type < 65536 -> is_txid txid -> wf_bytes (stun type txid attrs) ->
  ReadU16 (stun type txid attrs) 0 = type /\ ReadU32 (stun type txid attrs) 4 = kStunMagicCookie /\
  slice (stun type txid attrs) 8 12 = txid.
Proof.
  intros Ht [Hxw Hxl] Hw. unfold stun, stun_with in *. apply Forall_app in Hw as [_ Hw]. split_and!.
  - rewrite <- !app_assoc. apply (ReadU16_at []); [constructor|wf|done].
  - rewrite <- !app_assoc.
    pose proof (ReadU32_at (be16 type ++ be16 (body attrs)) kStunMagicCookie (txid ++ encode_attrs attrs)) as E.
    rewrite <- app_assoc in E. apply E; [wf|wf|done].
  - rewrite slice_app_l by (rewrite !length_app, Hxl; cbn; lia). slices.
Qed.

(** A Send indication (and the Data indication a server makes of it). *)
Lemma indication_attrs type txid a port payload : is_txid txid -> is_addr a -> 0 <= port < 65536 ->
  wf_bytes payload -> Z.of_nat (length payload) < 65000 ->
  let m := stun type txid [(kIos6AttrXorPeerAddress, xor_address a port); (kIos6AttrData, payload)] in
  attr_value m kIos6AttrData = Some payload /\
  attr_value m kIos6AttrXorPeerAddress = Some (xor_address a port) /\
  Ios6ParseXorAddressValue (xor_address a port) = Some (inet_ntop a, port).
Proof.
  intros Hx Ha Hp Hw Hl m.
  assert (Forall attr_ok [(kIos6AttrXorPeerAddress, xor_address a port); (kIos6AttrData, payload)]) as Hok.
  { repeat apply Forall_cons_2; [| |constructor]; unfold attr_ok; cbn [fst snd]; (split; [done|split; [|]]);
      [done|by apply xor_address_wf|lia|done]. }
  assert (body [(kIos6AttrXorPeerAddress, xor_address a port); (kIos6AttrData, payload)] < 65536) as Hb.
  { pose proof (body_cons kIos6AttrXorPeerAddress (xor_address a port) [(kIos6AttrData, payload)]).
    pose proof (body_cons kIos6AttrData payload []). change (body []) with 0 in *.
    change (length (xor_address a port)) with 8%nat in *. lia. }
  unfold m. rewrite !attr_value_stun by done. split_and!; [done|done|].
  rewrite <- (app_nil_r (xor_address a port)). by apply Ios6ParseXor_spec.
Qed.

(** ** Properties *)

(** A digest of the right size, for examples. *)
Definition toy_digest (n : nat) (m : list Z) : list Z :=
  map (fun i => u8 (foldl (fun a b => a * 31 + b + Z.of_nat i) 7 m)) (seq 0 n).
Lemma toy_digest_size n m : wf_bytes (toy_digest n m) /\ length (toy_digest n m) = n.
Proof.
  unfold toy_digest. split; [|by rewrite length_map, length_seq].
  apply Forall_map, Forall_true. intros. apply u8_is_byte.
Qed.
Definition toy_crypto : CommonCrypto :=
  Build_CommonCrypto (toy_digest 16) (fun k m => toy_digest 20 (k ++ m))
    (toy_digest_size 16) (fun k m => toy_digest_size 20 (k ++ m)).

Definition demo_txid : list Z := [1; 2; 3; 4; 5; 6; 7; 8; 9; 10; 11; 12].
Lemma demo_txid_ok : is_txid demo_txid.
Proof. split; [|done]. unfold demo_txid. repeat (apply Forall_cons_2; [unfold is_byte; lia|]). constructor. Qed.

(** A message built attribute by attribute, by either family of routines, is the
    same message; its header reads back and both searches return the first
    attribute of any type, whatever the types and values are. *)
Theorem attribute_roundtrip (type : Z) (txid : list Z) (attrs : list (Z * list Z)) (w : Z)
    (Htype : 0 <= type < 65536) (Hx : is_txid txid) (Ha : Forall attr_ok attrs) (Hb : body attrs < 65536) :
  let m := UpdateMessageLength (foldl (fun m a => AddAttribute m a.1 a.2) (MakeMessage type txid) attrs) in
  let built := foldl (fun m a => Ios6AppendAttribute m a.1 a.2) (Ios6MakeStunHeader type txid) attrs in
  Ios6SetStunLength built (length built - 20) = m /\
  ReadU16 m 0 = type /\ ReadU16 m 2 = body attrs /\ ReadU32 m 4 = kStunMagicCookie /\ slice m 8 12 = txid /\
  FindAttribute m w = attr_get w attrs /\ attr_value m w = attr_get w attrs.
Proof.
  assert (forall f, (forall len l t v, f (stun_with len type txid l) t v = stun_with len type txid (l ++ [(t, v)])) ->
    forall l l0, foldl (fun m a => f m a.1 a.2) (stun_with 0 type txid l0) l = stun_with 0 type txid (l0 ++ l)) as Hfold.
  { intros f Hf. induction l as [|[t v] l IH]; intros l0; [by rewrite app_nil_r|]. cbn [foldl fst snd].
    by rewrite Hf, IH, <- app_assoc. }
  rewrite MakeMessage_stun, Ios6MakeStunHeader_stun by done.
  rewrite (Hfold AddAttribute) by (intros; by apply AddAttribute_stun).
  rewrite (Hfold Ios6AppendAttribute) by (intros; by apply Ios6AppendAttribute_stun).
  rewrite UpdateMessageLength_stun by done. cbn zeta. cbn [app].
  rewrite stun_with_length, Ios6SetStunLength_stun by done.
  pose proof (encode_attrs_wf attrs Ha) as Hw. pose proof Hx as [Hxw Hxl].
  split_and!.
  - unfold stun, body. f_equal. lia.
  - unfold stun, stun_with. rewrite <- !app_assoc. apply (ReadU16_at []); [constructor|wf|done].
  - unfold stun, body. apply stun_length_field; [done|done|unfold body in *; lia].
  - unfold stun, stun_with. rewrite <- !app_assoc.
    pose proof (ReadU32_at (be16 type ++ be16 (body attrs)) kStunMagicCookie (txid ++ encode_attrs attrs)) as E.
    rewrite <- app_assoc in E. apply E; [wf|wf|done].
  - unfold stun, stun_with. rewrite slice_app_l by (rewrite !length_app, Hxl; cbn; lia). slices.
  - by apply FindAttribute_stun.
  - by apply attr_value_stun.
Qed.

Lemma attribute_roundtrip_witness :
  let m := UpdateMessageLength (foldl (fun m a => AddAttribute m a.1 a.2) (MakeMessage 0x0101 demo_txid)
    [(0x14, str "realm"); (0x15, str "n0nce"); (0x14, str "other")]) in
  length m = 56%nat /\ FindAttribute m 0x14 = Some (str "realm") /\ FindAttribute m 0x20 = None.
Proof.
  assert (forall w, FindAttribute (UpdateMessageLength (foldl (fun m a => AddAttribute m a.1 a.2) (MakeMessage 0x0101 demo_txid)
    [(0x14, str "realm"); (0x15, str "n0nce"); (0x14, str "other")])) w =
    attr_get w [(0x14, str "realm"); (0x15, str "n0nce"); (0x14, str "other")]) as Hf.
  { intros w. apply attribute_roundtrip; [lia|apply demo_txid_ok| |vm_compute; reflexivity].
    repeat apply Forall_cons_2; try apply Forall_nil_2; (unfold attr_ok; cbn [fst snd]; split_and!; [lia|lia|cbn; lia|apply str_wf]). }
  split; [vm_compute; reflexivity|]. split; rewrite Hf; reflexivity.
Defined.

(** On an arbitrary received message both searches stay inside it: the value found
    is aligned, lies within the message after a matching type and length, its
    length is what the family's other search copies, and the search has ended
    within the iterations allowed. *)
Theorem attribute_search_safe (m : list Z) (w : Z) (off n : nat) (Hf : Ios6FindAttribute m w = Some (off, n)) :
  (24 <= off)%nat /\ (off mod 4 = 0)%nat /\ (off + n <= length m)%nat /\
  ReadU16 m (off - 4) = w /\ Z.to_nat (ReadU16 m (off - 2)) = n /\
  (FindAttribute m w = None \/ FindAttribute m w = Some (slice m off n)) /\
  (forall fuel, (length m <= fuel)%nat -> exists e, (e <= length m)%nat /\ ios6_find_loop fuel m w e 20 = Some (off, n)).
Proof.
  destruct (Ios6FindAttribute_sound _ _ _ _ Hf) as (e & He & He' & H20 & Ee & Hl & S1 & S2 & S3 & S4 & S5).
  split_and!; [done|done|lia|done|done| |].
  - unfold FindAttribute. rewrite decide_False by lia.
    destruct (decide (length m < 20 + Z.to_nat (ReadU16 m 2))%nat); [by left|]. right.
    by rewrite find_loop_ios6, <- Ee, Hl.
  - intros fuel Hfuel. exists e. split; [done|]. rewrite <- Hl. apply ios6_find_loop_fuel; lia.
Qed.

Lemma attribute_search_safe_witness :
  (24 + 2 <= length (stun_with 8 1 demo_txid [(6, [97; 98])]%Z))%nat.
Proof.
  apply (attribute_search_safe (stun_with 8 1 demo_txid [(6, [97; 98])]) 6 24 2). reflexivity.
Defined.

(** XOR-PEER-ADDRESS and XOR-MAPPED-ADDRESS: both encoders write the same eight
    bytes, refuse the same hosts, and decoding gives back the host and the port. *)
Theorem xor_address_roundtrip (host : list Z) (port : Z) (Hp : 0 <= port < 65536) :
  MakeXorPeerAddress host port = Ios6MakeXorPeerAddressValue host port /\
  match inet_pton host with
  | None => Ios6MakeXorPeerAddressValue host port = None
  | Some a => exists v, Ios6MakeXorPeerAddressValue host port = Some v /\ length v = 8%nat /\ wf_bytes v /\
      Ios6ParseXorAddressValue v = Some (inet_ntop a, port)
  end.
Proof.
  split; [apply MakeXor_spec|]. rewrite Ios6MakeXor_spec by done. destruct (inet_pton host) as [a|] eqn:E; [|done].
  apply inet_pton_addr in E. exists (xor_address a port). split_and!; [done|done|by apply xor_address_wf|].
  rewrite <- (app_nil_r (xor_address a port)). by apply Ios6ParseXor_spec.
Qed.

Lemma xor_address_roundtrip_witness :
  MakeXorPeerAddress (str "149.154.167.51") 443 = Some [0; 1; 0x20; 0xa9; 0xb4; 0x88; 0x03; 0x71] /\
  MakeXorPeerAddress (str "149.154.167.51") 443 = Ios6MakeXorPeerAddressValue (str "149.154.167.51") 443.
Proof. split; [reflexivity|]. apply xor_address_roundtrip. lia. Defined.

(** Message integrity accepts exactly the messages whose first MESSAGE-INTEGRITY
    holds the HMAC of everything before it, the length field adjusted to end
    there. *)
Theorem verify_authentic {CC : CommonCrypto} (m key : list Z) :
  Ios6VerifyShortTermIntegrity m key = true <->
  exists off, Ios6FindAttribute m kIos6AttrMessageIntegrity = Some (off, 20%nat) /\
    slice m off 20 = CCHmac_SHA1 key (Ios6SetStunLength (take (off - 4) m) off).
Proof.
  unfold Ios6VerifyShortTermIntegrity, CC_SHA1_DIGEST_LENGTH.
  destruct (Ios6FindAttribute m kIos6AttrMessageIntegrity) as [[off n]|] eqn:E; [|split; [done|by intros (? & ? & _)]].
  destruct (Ios6FindAttribute_sound _ _ _ _ E) as (e & He & He' & _ & _ & _ & S1 & S2 & S3 & _).
  assert (Z.of_nat (Z.to_nat (ReadU16 m 2)) <= 65535) as Hmax
    by (unfold ReadU16; rewrite u16_mod; generalize (Z.lor (Z.shiftl m.[2] 8) m.[2 + 1]); intros; lia).
  case_decide as Hn; [split; [done|intros (? & [= -> ->] & _); done]|].
  assert (n = 20%nat) as -> by lia. clear Hn.
  rewrite decide_False by lia. rewrite decide_False by lia. rewrite decide_False by lia.
  replace (off - 4 - 20 + 4 + 20)%nat with off by lia.
  rewrite bool_decide_eq_true. split; [intros E'; exists off; by rewrite E'|]. intros (o & [= <-] & E'). by rewrite E'.
Qed.

(** C13: The checks each side runs accept what the other side builds: a binding
    request verifies under the password it was made with, names the two user
    fragments in the order the receiver expects, carries its role and the
    nomination flag; a success response verifies under the responder's password
    and maps back to the peer; both survive the trip inside a TURN Send
    indication, whose peer address and payload read back. *)
Theorem ice_messages_accepted {CC : CommonCrypto} (txid tx2 lu ru pw host : list Z) (tie port : Z) (a : list Z) (c u : bool)
    (Hx : is_txid txid) (Hx2 : is_txid tx2) (Hlu : wf_bytes lu) (Hru : wf_bytes ru)
    (Hlen : Z.of_nat (length lu + length ru) <= 30000) (Hport : 0 <= port < 65536) (Ha : inet_pton host = Some a) :
  let request := Ios6MakeIceBindingRequest txid lu ru pw tie c u in
  let response := Ios6MakeIceBindingSuccessResponse txid host port pw in
  let indication := Ios6MakeTurnSendIndication tx2 host port request in
  Ios6VerifyShortTermIntegrity request pw = true /\
  attr_value request kIos6AttrUsername = Some (ru ++ str ":" ++ lu) /\
  (attr_value request kIos6AttrUseCandidate <> None <-> u = true) /\
  (attr_value request kIos6AttrIceControlling <> None <-> c = true) /\
  ReadU16 request 0 = kIos6StunBindingRequest /\ slice request 8 12 = txid /\
  Ios6VerifyShortTermIntegrity response pw = true /\
  (exists v, attr_value response kIos6AttrXorMappedAddress = Some v /\ Ios6ParseXorAddressValue v = Some (inet_ntop a, port)) /\
  attr_value indication kIos6AttrData = Some request /\
  (exists v, attr_value indication kIos6AttrXorPeerAddress = Some v /\ Ios6ParseXorAddressValue v = Some (inet_ntop a, port)).
Proof.
  intros request response indication.
  destruct (ice_attrs_ok lu ru tie c u Hlu Hru Hlen) as (Hok & Hbody & Hg).
  destruct (closed_message kIos6StunBindingRequest txid (ice_attrs lu ru tie c u) pw Hx Hok ltac:(lia) Hg) as (R1 & R2 & R3 & R4).
  pose proof (stun_header kIos6StunBindingRequest txid _ ltac:(done) Hx R2) as (R5 & _ & R6).
  rewrite <- IceBindingRequest_stun in R1, R2, R3, R4, R5, R6 by done. fold request in R1, R2, R3, R4, R5, R6.
  pose proof (inet_pton_addr _ _ Ha) as Haddr.
  assert (Forall attr_ok [(kIos6AttrXorMappedAddress, xor_address a port)]) as Hok2
    by (apply Forall_cons_2; [unfold attr_ok; cbn [fst snd]; split; [done|split; [done|by apply xor_address_wf]]|constructor]).
  destruct (closed_message kIos6StunBindingSuccess txid [(kIos6AttrXorMappedAddress, xor_address a port)] pw Hx Hok2 ltac:(done) eq_refl)
    as (S1 & _ & _ & S4).
  rewrite <- (BindingSuccess_stun txid host port pw a Hx Hport Ha) in S1, S4. fold response in S1, S4.
  assert (Z.of_nat (length request) < 65000) as Hl by (rewrite R3; pose proof (body_nonneg (ice_attrs lu ru tie c u)); lia).
  destruct (indication_attrs kIos6TurnSendIndication tx2 a port request Hx2 Haddr Hport R2 Hl) as (I1 & I2 & I3).
  rewrite <- (SendIndication_stun tx2 host port request a Hx2 Hport Ha) in I1, I2. fold indication in I1, I2.
  split; [done|]. split; [by rewrite R4|]. split; [rewrite R4 by done; destruct c, u; split; (discriminate || done)|].
  split; [rewrite R4 by done; destruct c, u; split; (discriminate || done)|].
  split; [done|]. split; [done|]. split; [done|]. split; [exists (xor_address a port); by rewrite S4|].
  split; [done|]. by exists (xor_address a port).
Qed.

Lemma ice_messages_accepted_witness :
  let request := @Ios6MakeIceBindingRequest toy_crypto demo_txid (str "lU") (str "rU") (str "pw") 77 true true in
  @Ios6VerifyShortTermIntegrity toy_crypto request (str "pw") = true /\ attr_value request kIos6AttrUsername = Some (str "rU:lU").
Proof.
  pose proof (@ice_messages_accepted toy_crypto demo_txid demo_txid (str "lU") (str "rU") (str "pw") (str "10.0.0.1") 77 3478
    [10; 0; 0; 1] true true demo_txid_ok demo_txid_ok (str_wf _) (str_wf _) ltac:(cbn; lia) ltac:(lia) eq_refl) as H.
  split; apply H.
Defined.

(** A request with credentials, one more attribute and integrity. *)
Lemma credential_message {CC : CommonCrypto} key type txid user realm nonce t v :
  is_txid txid -> wf_bytes user -> wf_bytes realm -> wf_bytes nonce ->
  Z.of_nat (length user + length realm + length nonce) <= 30000 ->
  attr_ok (t, v) -> Z.of_nat (length v) <= 8 -> t <> kAttrMessageIntegrity ->
  t <> kAttrUsername -> t <> kAttrRealm -> t <> kAttrNonce ->
  let attrs := credentials user realm nonce ++ [(t, v)] in
  let m := stun type txid (with_mac key type txid attrs) in
  (Ios6VerifyShortTermIntegrity m key = true /\ FindAttribute m kAttrUsername = Some user /\
   FindAttribute m kAttrRealm = Some realm /\ FindAttribute m kAttrNonce = Some nonce) /\ FindAttribute m t = Some v.
Proof.
  intros Hx Hu Hr Hn Hlen Hok Hv Ht Ht1 Ht2 Ht3 attrs m.
  assert (Forall attr_ok attrs) as Hoks.
  { apply Forall_app_2; [|by apply Forall_cons_2]. unfold credentials.
    repeat apply Forall_cons_2; try apply Forall_nil_2; (split; [done|split; [cbn [snd]; lia|assumption]]). }
  assert (body attrs <= 50000) as Hb.
  { unfold attrs, credentials. cbn [app].
    pose proof (body_cons kAttrUsername user [(kAttrRealm, realm); (kAttrNonce, nonce); (t, v)]).
    pose proof (body_cons kAttrRealm realm [(kAttrNonce, nonce); (t, v)]).
    pose proof (body_cons kAttrNonce nonce [(t, v)]). pose proof (body_cons t v []). change (body []) with 0 in *. lia. }
  assert (attr_get kIos6AttrMessageIntegrity attrs = None) as Hg.
  { unfold attrs, credentials. cbn [app attr_get]. by rewrite (decide_False (P := t = _)) by done. }
  pose proof (with_mac_verifies key type txid attrs [] Hx Hoks ltac:(constructor) Hg ltac:(change (body []) with 0; lia)) as Hver.
  rewrite app_nil_r in Hver. fold m in Hver.
  assert (forall w, FindAttribute m w = attr_get w (with_mac key type txid attrs)) as Hf.
  { intros w. apply FindAttribute_stun; [assumption| |unfold with_mac; rewrite body_app, body_mac; lia].
    apply Forall_app_2; [assumption|apply Forall_cons_2; [apply mac_attr_ok|constructor]]. }
  rewrite !Hf. unfold with_mac, attrs, credentials. cbn [app attr_get].
  split; [split; [exact Hver|by repeat split]|]. rewrite !(decide_False (P := _ = t)) by congruence.
  by rewrite decide_True by done.
Qed.

(** Every authenticated request to the TURN server carries the credentials the
    server challenges for, and verifies under the long-term key of the user, the
    realm and the password; the refresh and permission requests carry their
    lifetime and peer. *)
Theorem turn_requests_authenticated {CC : CommonCrypto} (txid : list Z) (server : RtcServer) (realm nonce host a : list Z) (life port : Z)
    (Hx : is_txid txid) (Hu : wf_bytes (rs_login server)) (Hr : wf_bytes realm) (Hn : wf_bytes nonce)
    (Hlen : Z.of_nat (length (rs_login server) + length realm + length nonce) <= 30000)
    (Hport : 0 <= port < 65536) (Ha : inet_pton host = Some a) (Hlife : is_u32 life) :
  let key := MakeLongTermKey (rs_login server) realm (rs_password server) in
  let allocate := MakeAuthenticatedAllocateRequest txid (rs_login server) (rs_password server) realm nonce in
  let refresh := MakeRefreshRequest txid server realm nonce life in
  let permission := MakeCreatePermissionRequest txid server realm nonce host port in
  Forall (fun m => Ios6VerifyShortTermIntegrity m key = true /\ FindAttribute m kAttrUsername = Some (rs_login server) /\
    FindAttribute m kAttrRealm = Some realm /\ FindAttribute m kAttrNonce = Some nonce) [allocate; refresh; permission] /\
  ParseLifetimeSeconds refresh = life /\
  FindAttribute permission kAttrXorPeerAddress = Some (xor_address a port).
Proof.
  intros key allocate refresh permission. pose proof (inet_pton_addr _ _ Ha) as Haddr.
  assert (attr_ok (kAttrLifetime, be32 life)) as Hok1 by (split; [done|split; [done|apply be32_wf]]).
  destruct (credential_message key kTurnAllocateRequest txid _ realm nonce kAttrRequestedTransport requestedTransport Hx Hu Hr Hn Hlen) as [G1 _]; try done.
  { split; [done|split; [done|]]. unfold requestedTransport. repeat (apply Forall_cons_2; [cbn; unfold is_byte; lia|]). constructor. }
  destruct (credential_message key kTurnRefreshRequest txid _ realm nonce kAttrLifetime (be32 life) Hx Hu Hr Hn Hlen Hok1) as [G2 L]; try done.
  destruct (credential_message key kTurnCreatePermissionRequest txid _ realm nonce kAttrXorPeerAddress (xor_address a port) Hx Hu Hr Hn Hlen) as [G3 X]; try done.
  { split; [done|split; [done|by apply xor_address_wf]]. }
  unfold allocate, refresh, permission. rewrite AuthenticatedAllocate_stun, RefreshRequest_stun by done.
  rewrite (CreatePermission_stun _ _ _ _ _ _ a) by done.
  split; [|split; [|exact X]].
  - repeat apply Forall_cons_2; [exact G1|exact G2|exact G3|constructor].
  - unfold ParseLifetimeSeconds. unfold key in L. rewrite L. cbn [be32 length]. rewrite decide_False by lia.
    pose proof (ReadU32_at [] life []) as E. apply E; [constructor|constructor|done].
Qed.

Lemma turn_requests_authenticated_witness :
  let server := Server (str "turn.example") 3478 (str "user") (str "pass") true false in
  ParseLifetimeSeconds (@MakeRefreshRequest toy_crypto demo_txid server (str "realm") (str "nonce") 600) = 600.
Proof.
  apply (@turn_requests_authenticated toy_crypto demo_txid (Server (str "turn.example") 3478 (str "user") (str "pass") true false)
    (str "realm") (str "nonce") (str "10.0.0.1") [10; 0; 0; 1] 600 3478 demo_txid_ok (str_wf _) (str_wf _) (str_wf _));
    [cbn; lia|lia|reflexivity|unfold is_u32; lia].
Defined.
