(* ===== verification/Turn.v ===== *)
(** * The TURN client

    The socket half of [tgcalls/Ios6TurnClient.cpp]: allocation with the
    long-term credential challenge, permissions and refreshes, sending through
    the relay, and the reception of relayed packets. The kernel is a script of
    results; [syslog] is left out. *)

From S2P Require Import Prelude Inet Stun.

(** ** The environment

    Each list holds the results of the successive system calls, [None] standing
    for [EINTR]. When a script has ended, sending fails and receiving times out. *)

Inductive send_outcome := SSent (n : nat) | SFail (errno : Z).
Inductive recv_outcome := RData (d : list Z) | RAgain | RFail (errno : Z).

(** [getaddrinfo], [socket] and [connect]. *)
Record open_env := OpenEnv { o_gai : bool; o_socket : Z; o_connect : bool; o_errno : Z }.

Record net := Net {
  n_open : open_env;
  n_sends : list (option send_outcome);
  n_recvs : list (option recv_outcome);
  n_random : nat -> Z;
  n_draws : nat;
  n_wire : list (Z * list Z);
  n_closed : list Z
}.

(** What the system call says of an error number. *)
Class Platform := { strerror : Z -> list Z }.

(** ** The C++ code: the socket *)

(** [do { ... } while (r < 0 && errno == EINTR)] *)
Fixpoint skip_eintr {A} (default : A) (l : list (option A)) : A * list (option A) :=
  match l with
  | [] => (default, [])
  | Some r :: l => (r, l)
  | None :: l => skip_eintr default l
  end.

Definition ENETDOWN : Z := 50.

(** What reaches the wire is what [send] reports as sent. *)
Definition send_call (s : net) (fd : Z) (data : list Z) : net * send_outcome :=
  let '(r, rest) := skip_eintr (SFail ENETDOWN) (n_sends s) in
  let wire := match r with SSent n => n_wire s ++ [(fd, take n data)] | SFail _ => n_wire s end in
  (Net (n_open s) rest (n_recvs s) (n_random s) (n_draws s) wire (n_closed s), r).
(** [recv] into a buffer of 4096 bytes. *)
Definition recv_call (s : net) (fd : Z) : net * recv_outcome :=
  let '(r, rest) := skip_eintr RAgain (n_recvs s) in
  (Net (n_open s) (n_sends s) rest (n_random s) (n_draws s) (n_wire s) (n_closed s),
   match r with RData d => RData (take 4096 d) | r => r end).
Definition close_call (s : net) (fd : Z) : net :=
  Net (n_open s) (n_sends s) (n_recvs s) (n_random s) (n_draws s) (n_wire s) (n_closed s ++ [fd]).

(** Three words of [arc4random], copied as a little-endian machine stores them. *)
Definition MakeTransactionId (s : net) : net * list Z :=
  let a := n_random s (n_draws s) in
  let b := n_random s (S (n_draws s)) in
  let c := n_random s (S (S (n_draws s))) in
  (Net (n_open s) (n_sends s) (n_recvs s) (n_random s) (S (S (S (n_draws s)))) (n_wire s) (n_closed s),
   store32 a ++ store32 b ++ store32 c).

Section turn_client.
Context `{CommonCrypto} `{Platform}.

(** The socket or the error. *)
Definition OpenConnectedUdpSocket (s : net) (host : list Z) (port : Z) : net * (list Z + Z) :=
  let o := n_open s in
  if negb (o_gai o) then (s, inl (str "getaddrinfo failed")) else
  if decide (o_socket o < 0) then (s, inl (strerror (o_errno o))) else
  if negb (o_connect o) then (close_call s (o_socket o), inl (strerror (o_errno o))) else
  (s, inr (o_socket o)).

(** The eight receive attempts after a transmission: a matching response, the
    end of the attempts or a timeout, or an error. *)
Inductive receive_result := Received (response : list Z) | NotReceived | ReceiveError (errno : Z).

Fixpoint receive_attempts (n : nat) (s : net) (fd : Z) (expectedTxid : list Z) : net * receive_result :=
  match n with
  | O => (s, NotReceived)
  | S n =>
      let '(s, r) := recv_call s fd in
      match r with
      | RAgain => (s, NotReceived)
      | RFail errno => (s, ReceiveError errno)
      | RData buffer =>
          if decide (length buffer < 20)%nat then receive_attempts n s fd expectedTxid else
          if decide (ReadU32 buffer 4 <> kStunMagicCookie) then receive_attempts n s fd expectedTxid else
          if decide (slice buffer 8 12 <> expectedTxid) then receive_attempts n s fd expectedTxid else
          let declaredLength := Z.to_nat (ReadU16 buffer 2) in
          if decide (length buffer < 20 + declaredLength)%nat then receive_attempts n s fd expectedTxid else
          (s, Received buffer)
      end
  end.

(** The three transmissions; the error or the response. *)
Fixpoint send_attempts (n : nat) (s : net) (fd : Z) (request expectedTxid : list Z) : net * (list Z + list Z) :=
  match n with
  | O => (s, inl (str "TURN response timeout after retries"))
  | S n =>
      let '(s, sent) := send_call s fd request in
      match sent with
      | SFail errno => (s, inl (strerror errno))
      | SSent k =>
          if decide (k <> length request) then (s, inl (str "short TURN send")) else
          let '(s, r) := receive_attempts 8 s fd expectedTxid in
          match r with
          | Received response => (s, inr response)
          | ReceiveError errno => (s, inl (strerror errno))
          | NotReceived => send_attempts n s fd request expectedTxid
          end
      end
  end.
Definition SendAndReceive (s : net) (fd : Z) (request expectedTxid : list Z) : net * (list Z + list Z) :=
  send_attempts 3 s fd request expectedTxid.

(** ** The C++ code: allocation *)

Record Ios6TurnProbeResult := ProbeResult {
  ok : bool; errorCode : Z; error : list Z; realm : list Z; nonce : list Z;
  relayHost : list Z; relayPort : Z; lifetimeSeconds : Z
}.
Definition probe_result0 : Ios6TurnProbeResult := ProbeResult false 0 [] [] [] [] 0 0.
Definition with_error (r : Ios6TurnProbeResult) (e : list Z) : Ios6TurnProbeResult :=
  ProbeResult (ok r) (errorCode r) e (realm r) (nonce r) (relayHost r) (relayPort r) (lifetimeSeconds r).
Definition with_relay (r : Ios6TurnProbeResult) (host : list Z) (port life : Z) : Ios6TurnProbeResult :=
  ProbeResult true 0 [] (realm r) (nonce r) host port life.
Definition with_code (r : Ios6TurnProbeResult) (code : Z) : Ios6TurnProbeResult :=
  ProbeResult (ok r) code (error r) (realm r) (nonce r) (relayHost r) (relayPort r) (lifetimeSeconds r).
Definition with_challenge (r : Ios6TurnProbeResult) (realm nonce : list Z) : Ios6TurnProbeResult :=
  ProbeResult (ok r) (errorCode r) (error r) realm nonce (relayHost r) (relayPort r) (lifetimeSeconds r).

(** [*outSocketFd] when the pointer is not null. *)
Definition keep_fd (keepSocket hasOut : bool) (fd : Z) : option Z :=
  if hasOut then Some (if keepSocket then fd else -1) else None.
Definition no_fd (hasOut : bool) : option Z := if hasOut then Some (-1) else None.

(** The authenticated attempts; [n] of the two are left. *)
Fixpoint auth_attempts (n : nat) (s : net) (fd : Z) (server : RtcServer) (keepSocket hasOut : bool)
    (result : Ios6TurnProbeResult) : net * Ios6TurnProbeResult * option Z :=
  match n with
  | O => (close_call s fd, with_error result (str "TURN Allocate attempts exhausted"), no_fd hasOut)
  | S n' =>
      let '(s, tx2) := MakeTransactionId s in
      let request2 := MakeAuthenticatedAllocateRequest tx2 (rs_login server) (rs_password server) (realm result) (nonce result) in
      let '(s, r) := SendAndReceive s fd request2 tx2 in
      match r with
      | inl e => (close_call s fd, with_error result e, no_fd hasOut)
      | inr response2 =>
          let responseType2 := ReadU16 response2 0 in
          if decide (responseType2 = kTurnAllocateSuccess) then
            match ParseXorRelayedAddress response2 with
            | None => (close_call s fd, with_error result (str "Allocate success missing IPv4 XOR-RELAYED-ADDRESS"), no_fd hasOut)
            | Some (host, port) =>
                let result := with_relay result host port (ParseLifetimeSeconds response2) in
                if keepSocket then (s, result, keep_fd keepSocket hasOut fd)
                else (close_call s fd, result, no_fd hasOut)
            end
          else if decide (responseType2 <> kTurnAllocateError) then
            (close_call s fd, with_error result (str "unexpected authenticated TURN response"), no_fd hasOut)
          else
            let code := ParseErrorCode response2 in
            let result := with_code result code in
            match FindAttribute response2 kAttrNonce with
            | Some newNonce =>
                if decide (code = 438 /\ n = 2%nat)
                then auth_attempts n' s fd server keepSocket hasOut (with_challenge result (realm result) newNonce)
                else (close_call s fd, with_error result (str "authenticated Allocate rejected"), no_fd hasOut)
            | None => (close_call s fd, with_error result (str "authenticated Allocate rejected"), no_fd hasOut)
            end
      end
  end.

(** An Allocate Success without authentication. *)
Definition initial_success (s : net) (fd : Z) (keepSocket hasOut : bool) (result : Ios6TurnProbeResult) (response1 : list Z)
  : net * Ios6TurnProbeResult * option Z :=
  match ParseXorRelayedAddress response1 with
  | Some (host, port) =>
      let result := ProbeResult true (errorCode result) (error result) (realm result) (nonce result) host port
                      (ParseLifetimeSeconds response1) in
      if keepSocket then (s, result, keep_fd keepSocket hasOut fd) else (close_call s fd, result, no_fd hasOut)
  | None => (close_call s fd, with_error result (str "success without IPv4 XOR-RELAYED-ADDRESS"), no_fd hasOut)
  end.

(** The 401 challenge. *)
Definition initial_error (s : net) (fd : Z) (server : RtcServer) (keepSocket hasOut : bool)
    (result : Ios6TurnProbeResult) (response1 : list Z) : net * Ios6TurnProbeResult * option Z :=
  let result := with_code result (ParseErrorCode response1) in
  let realmBytes := default [] (FindAttribute response1 kAttrRealm) in
  let nonceBytes := default [] (FindAttribute response1 kAttrNonce) in
  let result := with_challenge result realmBytes nonceBytes in
  if decide (errorCode result <> 401) then
    (close_call s fd, with_error result (str "initial Allocate did not return 401"), no_fd hasOut) else
  if decide (realm result = [] \/ nonce result = []) then
    (close_call s fd, with_error result (str "401 missing REALM/NONCE"), no_fd hasOut) else
  auth_attempts 2 s fd server keepSocket hasOut result.

Definition Ios6TurnAllocateProbe (s : net) (server : RtcServer) (keepSocket hasOut : bool)
  : net * Ios6TurnProbeResult * option Z :=
  let result := probe_result0 in
  if negb (rs_isTurn server) then (s, with_error result (str "server is not TURN"), no_fd hasOut) else
  if rs_isTcp server then (s, with_error result (str "TCP TURN not supported by probe"), no_fd hasOut) else
  if decide (rs_login server = str "reflector") then (s, with_error result (str "custom reflector endpoint"), no_fd hasOut) else
  let '(s, opened) := OpenConnectedUdpSocket s (rs_host server) (rs_port server) in
  match opened with
  | inl e => (s, with_error result e, no_fd hasOut)
  | inr fd =>
      let '(s, tx1) := MakeTransactionId s in
      let request1 := MakeAllocateRequest tx1 in
      let '(s, r) := SendAndReceive s fd request1 tx1 in
      match r with
      | inl e => (close_call s fd, with_error result e, no_fd hasOut)
      | inr response1 =>
          let responseType1 := ReadU16 response1 0 in
          if decide (responseType1 = kTurnAllocateSuccess) then initial_success s fd keepSocket hasOut result response1 else
          if decide (responseType1 <> kTurnAllocateError) then
            (close_call s fd, with_error result (str "unexpected initial TURN response"), no_fd hasOut) else
          initial_error s fd server keepSocket hasOut result response1
      end
  end.

(** ** The C++ code: permissions and refreshes

    [*error] is the second component; it is empty exactly when cleared. *)

(** A single transmission without waiting for an answer. *)
Definition send_no_wait (s : net) (fd : Z) (request shortError : list Z) : net * (bool * list Z) :=
  let '(s, sent) := send_call s fd request in
  match sent with
  | SSent k => if decide (k = length request) then (s, (true, [])) else (s, (false, shortError))
  | SFail errno => (s, (false, strerror errno))
  end.

Definition Ios6TurnRefreshAllocationNoWait (s : net) (fd : Z) (server : RtcServer) (realm nonce : list Z)
    (requestedLifetimeSeconds : Z) : net * (bool * list Z) :=
  if decide (fd < 0 \/ realm = [] \/ nonce = []) then (s, (false, str "TURN refresh auth state missing")) else
  let '(s, txid) := MakeTransactionId s in
  let request := MakeRefreshRequest txid server realm nonce requestedLifetimeSeconds in
  send_no_wait s fd request (str "short TURN Refresh send").

Definition Ios6TurnRefreshPermissionNoWait (s : net) (fd : Z) (server : RtcServer) (realm nonce peerHost : list Z)
    (peerPort : Z) : net * (bool * list Z) :=
  if decide (fd < 0 \/ realm = [] \/ nonce = [] \/ peerHost = [] \/ peerPort = 0)
  then (s, (false, str "TURN permission refresh state missing")) else
  let '(s, txid) := MakeTransactionId s in
  let request := MakeCreatePermissionRequest txid server realm nonce peerHost peerPort in
  send_no_wait s fd request (str "short TURN permission refresh send").

(** The result, the error and the nonce as it is left. *)
Fixpoint permission_attempts (n : nat) (s : net) (fd : Z) (server : RtcServer) (realm nonce peerHost : list Z) (peerPort : Z)
  : net * (bool * list Z * list Z) :=
  match n with
  | O => (s, (false, str "CreatePermission attempts exhausted", nonce))
  | S n' =>
      let '(s, txid) := MakeTransactionId s in
      let request := MakeCreatePermissionRequest txid server realm nonce peerHost peerPort in
      let '(s, r) := SendAndReceive s fd request txid in
      match r with
      | inl receiveError => (s, (false, receiveError, nonce))
      | inr response =>
          let type := ReadU16 response 0 in
          if decide (type = kTurnCreatePermissionSuccess) then (s, (true, [], nonce)) else
          if decide (type <> kTurnCreatePermissionError) then
            (s, (false, str "unexpected CreatePermission response", nonce)) else
          let errorCode := ParseErrorCode response in
          let rejected := str "CreatePermission rejected: " ++ dec errorCode in
          match FindAttribute response kAttrNonce with
          | Some newNonce =>
              if decide (errorCode = 438 /\ n = 2%nat)
              then permission_attempts n' s fd server realm newNonce peerHost peerPort
              else (s, (false, rejected, nonce))
          | None => (s, (false, rejected, nonce))
          end
      end
  end.

Definition Ios6TurnCreatePermission (s : net) (fd : Z) (server : RtcServer) (realm nonce peerHost : list Z) (peerPort : Z)
  : net * (bool * list Z * list Z) :=
  if decide (fd < 0) then (s, (false, str "TURN socket is not open", nonce)) else
  if decide (nonce = [] \/ realm = []) then (s, (false, str "TURN auth state missing", nonce)) else
  match inet_pton peerHost with
  | None => (s, (false, str "peer is not numeric IPv4", nonce))
  | Some _ => permission_attempts 2 s fd server realm nonce peerHost peerPort
  end.
(** ** The C++ code: the relay *)

(** [Ios6MakeTurnSendIndication] with the transaction id it draws first. *)
Definition make_send_indication (s : net) (peerHost : list Z) (peerPort : Z) (payload : list Z) : net * list Z :=
  let '(s, txid) := MakeTransactionId s in
  (s, Ios6MakeTurnSendIndication txid peerHost peerPort payload).

(** [data] is [None] for a null pointer. *)
Definition Ios6TurnSendData (s : net) (fd : Z) (peerHost : list Z) (peerPort : Z) (data : option (list Z)) (size : nat)
  : net * (bool * list Z) :=
  if decide (fd < 0) then (s, (false, str "TURN socket is not open")) else
  if decide (peerHost = [] \/ peerPort = 0) then (s, (false, str "TURN peer missing")) else
  if decide (data = None /\ size <> 0%nat) then (s, (false, str "transport data is null")) else
  let payload := take size (default [] data) in
  let '(s, indication) := make_send_indication s peerHost peerPort payload in
  if decide (indication = []) then (s, (false, str "failed to build TURN transport Send Indication")) else
  let '(s, sent) := send_call s fd indication in
  match sent with
  | SFail errno => (s, (false, strerror errno))
  | SSent k => if decide (k <> length indication) then (s, (false, str "short TURN transport send")) else (s, (true, []))
  end.

Inductive Kind := KindNone | KindTransport | KindInnerStun | KindOther.
Record Ios6TurnReceiveResult := ReceiveResult {
  kind : Kind; timeout : bool; r_error : list Z; r_peerHost : list Z; r_peerPort : Z;
  innerStunType : Z; r_data : list Z
}.
Definition receive_result0 : Ios6TurnReceiveResult := ReceiveResult KindNone false [] [] 0 0 [].
Definition with_kind (r : Ios6TurnReceiveResult) (k : Kind) : Ios6TurnReceiveResult :=
  ReceiveResult k (timeout r) (r_error r) (r_peerHost r) (r_peerPort r) (innerStunType r) (r_data r).

(** The peer of a Data indication: its XOR-PEER-ADDRESS when it has a usable one. *)
Definition indication_peer (buffer defaultHost : list Z) (defaultPort : Z) : list Z * Z :=
  match attr_value buffer kIos6AttrXorPeerAddress with
  | Some peerValue => default (defaultHost, defaultPort) (Ios6ParseXorAddressValue peerValue)
  | None => (defaultHost, defaultPort)
  end.

(** [usernameOk && integrityOk] for a binding request inside [dataValue]. *)
Definition binding_request_ok (dataValue localUfrag localPassword remoteUfrag : list Z) : bool :=
  let expectedUsername := localUfrag ++ str ":" ++ remoteUfrag in
  let usernameOk :=
    match attr_value dataValue kIos6AttrUsername with
    | Some username => bool_decide (username = expectedUsername)
    | None => false
    end in
  let integrityOk := bool_decide (localPassword <> []) && Ios6VerifyShortTermIntegrity dataValue localPassword in
  usernameOk && integrityOk.

(** The answer to an authenticated binding request; whatever becomes of it the
    result of the reception is the same. *)
Definition answer_binding_request (s : net) (fd : Z) (peerHost : list Z) (peerPort : Z)
    (dataValue localUfrag localPassword remoteUfrag : list Z) : net :=
  if negb (binding_request_ok dataValue localUfrag localPassword remoteUfrag) then s else
  let response := Ios6MakeIceBindingSuccessResponse (slice dataValue 8 12) peerHost peerPort localPassword in
  if decide (response = []) then s else
  let '(s, indication) := make_send_indication s peerHost peerPort response in
  if decide (indication = []) then s else
  (send_call s fd indication).1.

Definition looks_like_stun (dataValue : list Z) : bool :=
  bool_decide (20 <= length dataValue)%nat && bool_decide (Z.land dataValue.[0] 0xC0 = 0) &&
  bool_decide (Ios6Read32 dataValue 4 = kIos6StunCookie).
Definition looks_like_dtls (dataValue : list Z) : bool :=
  bool_decide (13 <= length dataValue)%nat && bool_decide (20 <= dataValue.[0] <= 23) &&
  bool_decide (dataValue.[1] = 0xfe) && bool_decide (dataValue.[2] = 0xff \/ dataValue.[2] = 0xfd).

(** Application data: from the selected peer, or a DTLS record from another. *)
Definition receive_transport (result : Ios6TurnReceiveResult) (selectedPeerHost : list Z) (selectedPeerPort : Z)
    (dataValue : list Z) : Ios6TurnReceiveResult :=
  let alternatePeer := bool_decide (selectedPeerHost <> []) && bool_decide (selectedPeerPort <> 0) &&
    bool_decide (r_peerHost result <> selectedPeerHost \/ r_peerPort result <> selectedPeerPort) in
  if alternatePeer && negb (looks_like_dtls dataValue) then with_kind result KindOther else
  if decide (length dataValue = 0)%nat then with_kind result KindOther else
  ReceiveResult KindTransport (timeout result) (r_error result) (r_peerHost result) (r_peerPort result)
    (innerStunType result) dataValue.

(** A datagram of the TURN server. *)
Definition receive_outer (s : net) (fd : Z) (selectedPeerHost : list Z) (selectedPeerPort : Z)
    (localUfrag localPassword remoteUfrag buffer : list Z) : net * Ios6TurnReceiveResult :=
  let result := receive_result0 in
  if decide (length buffer < 20)%nat then (s, with_kind result KindOther) else
  if decide (Ios6Read32 buffer 4 <> kIos6StunCookie) then (s, with_kind result KindOther) else
  if decide (Ios6Read16 buffer 0 <> kIos6TurnDataIndication) then (s, with_kind result KindOther) else
  let '(peerHost, peerPort) := indication_peer buffer selectedPeerHost selectedPeerPort in
  let result := ReceiveResult KindNone false [] peerHost peerPort 0 [] in
  match attr_value buffer kIos6AttrData with
  | None => (s, with_kind result KindOther)
  | Some dataValue =>
      if looks_like_stun dataValue then
        let innerType := Ios6Read16 dataValue 0 in
        let result := ReceiveResult KindInnerStun false [] peerHost peerPort innerType [] in
        (if decide (innerType = kIos6StunBindingRequest)
         then answer_binding_request s fd peerHost peerPort dataValue localUfrag localPassword remoteUfrag
         else s, result)
      else (s, receive_transport result selectedPeerHost selectedPeerPort dataValue)
  end.

Definition Ios6TurnReceivePacket (s : net) (fd : Z) (selectedPeerHost : list Z) (selectedPeerPort : Z)
    (localUfrag localPassword remoteUfrag : list Z) : net * Ios6TurnReceiveResult :=
  let result := receive_result0 in
  if decide (fd < 0) then (s, ReceiveResult KindNone false (str "TURN socket is not open") [] 0 0 []) else
  let '(s, received) := recv_call s fd in
  match received with
  | RAgain => (s, ReceiveResult KindNone true [] [] 0 0 [])
  | RFail errno => (s, ReceiveResult KindNone false (strerror errno) [] 0 0 [])
  | RData buffer => receive_outer s fd selectedPeerHost selectedPeerPort localUfrag localPassword remoteUfrag buffer
  end.

End turn_client.

(** ** What the socket functions do to the environment *)

(** Nothing is opened or closed, the randomness is the same and is drawn forward,
    datagrams are taken off the socket in order, and at most [k] leave, all on [fd]. *)
Record sends_only (fd : Z) (k : nat) (s s' : net) : Prop := {
  so_closed : n_closed s' = n_closed s;
  so_open : n_open s' = n_open s;
  so_random : n_random s' = n_random s;
  so_draws : (n_draws s <= n_draws s')%nat;
  so_recvs : n_recvs s' `suffix_of` n_recvs s;
  so_wire : exists h, n_wire s' = n_wire s ++ h /\ (length h <= k)%nat /\ Forall (fun d => d.1 = fd) h
}.

Lemma wire_same {A} (P : A -> Prop) (l : list A) k : exists h, l = l ++ h /\ (length h <= k)%nat /\ Forall P h.
Proof. exists []. rewrite app_nil_r. split; [done|]. split; [cbn; lia|constructor]. Qed.
Lemma sends_refl fd s : sends_only fd 0 s s.
Proof. split; [done..|apply wire_same]. Qed.
Lemma sends_trans fd j k n s1 s2 s3 : sends_only fd j s1 s2 -> sends_only fd k s2 s3 -> (j + k <= n)%nat -> sends_only fd n s1 s3.
Proof.
  intros [C1 O1 R1 D1 V1 (h1 & W1 & L1 & F1)] [C2 O2 R2 D2 V2 (h2 & W2 & L2 & F2)] Hn. split; [congruence..|lia|by transitivity (n_recvs s2)|].
  exists (h1 ++ h2). rewrite W2, W1, app_assoc, length_app. split; [done|]. split; [lia|by apply Forall_app_2].
Qed.
Lemma sends_le fd j k s1 s2 : sends_only fd j s1 s2 -> (j <= k)%nat -> sends_only fd k s1 s2.
Proof. intros Hs Hj. apply (sends_trans fd j 0 k s1 s2 s2); [done|apply sends_refl|lia]. Qed.

(** The script of a call: interruptions, then a result, or the default at its end. *)
Lemma skip_eintr_spec {A} (d : A) l : let '(r, rest) := skip_eintr d l in
  (exists n, l = replicate n None ++ Some r :: rest) \/ (r = d /\ rest = [] /\ exists n, l = replicate n None).
Proof.
  induction l as [|[r|] l IH]; cbn [skip_eintr]; [right; split; [done|]; split; [done|]; by exists 0%nat|left; by exists 0%nat|].
  destruct (skip_eintr d l) as [r rest]. destruct IH as [(n & ->)|(-> & -> & n & ->)]; [left|right; split; [done|]; split; [done|]]; by exists (S n).
Qed.
Lemma skip_eintr_suffix {A} (d : A) l : (skip_eintr d l).2 `suffix_of` l.
Proof.
  pose proof (skip_eintr_spec d l) as H. destruct (skip_eintr d l) as [r rest]. cbn [snd]. destruct H as [(n & ->)|(_ & -> & _)].
  - exists (replicate n None ++ [Some r]). by rewrite <- app_assoc.
  - apply suffix_nil.
Qed.

Lemma send_call_sends s fd data : sends_only fd 1 s (send_call s fd data).1.
Proof.
  unfold send_call. destruct (skip_eintr _ _) as [[n|e] rest]; split; cbn; try done; [|apply wire_same].
  exists [(fd, take n data)]. split; [done|]. split; [done|]. by apply Forall_cons_2.
Qed.
(** The call to [recv] takes one datagram, after interruptions. *)
Definition received (s s' : net) (buffer : list Z) : Prop :=
  exists n raw, n_recvs s = replicate n None ++ Some (RData raw) :: n_recvs s' /\ buffer = take 4096 raw.
Lemma recv_call_spec s fd : let '(s', r) := recv_call s fd in
  sends_only fd 0 s s' /\ n_wire s' = n_wire s /\ n_draws s' = n_draws s /\ n_sends s' = n_sends s /\ (forall buffer, r = RData buffer -> received s s' buffer).
Proof.
  unfold recv_call. pose proof (skip_eintr_suffix RAgain (n_recvs s)) as Hx. pose proof (skip_eintr_spec RAgain (n_recvs s)) as Hr.
  destruct (skip_eintr _ _) as [r rest]. cbn [snd] in Hx. split; [split; cbn; try done; apply wire_same|]. do 3 (split; [done|]).
  intros buffer E. destruct r as [d| |e]; [|done|done]. injection E as <-. destruct Hr as [(n & Hr)|([=] & _)]. by exists n, d.
Qed.
Lemma recv_call_sends s fd : sends_only fd 0 s (recv_call s fd).1.
Proof. pose proof (recv_call_spec s fd) as H. destruct (recv_call s fd). apply H. Qed.
Lemma make_txid_sends s fd : sends_only fd 0 s (MakeTransactionId s).1.
Proof. split; cbn; try done; [lia|apply wire_same]. Qed.

(** The transaction id drawn at a position of the random stream. *)
Definition txid_at (random : nat -> Z) (k : nat) : list Z :=
  store32 (random k) ++ store32 (random (S k)) ++ store32 (random (S (S k))).
Lemma txid_at_ok random k : is_txid (txid_at random k).
Proof. split; [unfold txid_at; wf|done]. Qed.
Lemma make_txid s : (MakeTransactionId s).2 = txid_at (n_random s) (n_draws s).
Proof. done. Qed.

(** A response that belongs to the request: a STUN message with the cookie and
    the request's transaction id, as long as it declares. *)
Definition genuine (txid response : list Z) : Prop :=
  (20 <= length response)%nat /\ ReadU32 response 4 = kStunMagicCookie /\ slice response 8 12 = txid /\
  (20 + Z.to_nat (ReadU16 response 2) <= length response)%nat.

(** The last datagram taken off the socket on the way from [s] to [s']. *)
Definition last_received (s s' : net) (buffer : list Z) : Prop :=
  exists before raw, n_recvs s = before ++ Some (RData raw) :: n_recvs s' /\ buffer = take 4096 raw.
Lemma received_last s s' buffer : received s s' buffer -> last_received s s' buffer.
Proof. intros (n & raw & E & ->). by exists (replicate n None), raw. Qed.
Lemma last_received_after s s1 s' buffer : n_recvs s1 `suffix_of` n_recvs s -> last_received s1 s' buffer -> last_received s s' buffer.
Proof. intros (l & E) (before & raw & E1 & ->). exists (l ++ before), raw. split; [by rewrite E, E1, <- app_assoc|done]. Qed.
(** The request was the last datagram sent, it went whole, and the last datagram
    received is a response to it. *)
Definition answered (fd : Z) (s s' : net) (request txid response : list Z) : Prop :=
  genuine txid response /\ last_received s s' response /\ exists h, n_wire s' = n_wire s ++ h ++ [(fd, request)].
Lemma answered_after fd k s s1 s' request txid response : sends_only fd k s s1 ->
  answered fd s1 s' request txid response -> answered fd s s' request txid response.
Proof.
  intros [_ _ _ _ V (h & W & _)] (G & L & h' & E). split; [done|]. split; [by apply (last_received_after s s1)|].
  exists (h ++ h'). by rewrite E, W, <- !app_assoc.
Qed.

Lemma receive_attempts_spec n : forall s fd txid,
  let '(s', r) := receive_attempts n s fd txid in
  sends_only fd 0 s s' /\ n_wire s' = n_wire s /\ (forall response, r = Received response -> genuine txid response /\ last_received s s' response).
Proof.
  induction n as [|n IH]; intros s fd txid; cbn [receive_attempts]; [split; [apply sends_refl|done]|].
  pose proof (recv_call_spec s fd) as Hs. destruct (recv_call s fd) as [s1 r]. destruct Hs as (Hs & Hw & _ & _ & Hr).
  assert (let '(s', r) := receive_attempts n s1 fd txid in
    sends_only fd 0 s s' /\ n_wire s' = n_wire s /\ (forall response, r = Received response -> genuine txid response /\ last_received s s' response)) as Hnext.
  { specialize (IH s1 fd txid). destruct (receive_attempts n s1 fd txid) as [s' r']. destruct IH as (IH1 & IH2 & IH3).
    split; [by apply (sends_trans fd 0 0 0 s s1 s')|]. split; [congruence|]. intros response E. destruct (IH3 response E) as [G L].
    split; [done|]. apply (last_received_after s s1); [apply Hs|done]. }
  destruct r as [buffer| |errno]; [|by split|by split].
  repeat (case_decide; [exact Hnext|]). split; [done|]. split; [done|]. intros ? [= <-].
  split; [unfold genuine; split_and!; [lia|done|done|lia]|by apply received_last, Hr].
Qed.

Lemma send_attempts_spec `{Platform} n : forall s fd request txid,
  let '(s', r) := send_attempts n s fd request txid in
  sends_only fd n s s' /\ (forall response, r = inr response -> answered fd s s' request txid response).
Proof.
  induction n as [|n IH]; intros s fd request txid; cbn [send_attempts]; [split; [apply sends_refl|done]|].
  pose proof (send_call_sends s fd request) as Hs.
  assert (forall k, (send_call s fd request).2 = SSent k -> n_wire (send_call s fd request).1 = n_wire s ++ [(fd, take k request)]) as Hwire.
  { intros k. unfold send_call. destruct (skip_eintr _ _) as [r rest]. cbn. by intros ->. }
  destruct (send_call s fd request) as [s1 r]. cbn [fst snd] in Hs, Hwire.
  assert (sends_only fd (S n) s s1) as Hs1 by (apply (sends_le _ 1); [done|lia]).
  destruct r as [k|errno]; [|by split]. case_decide as Hk; [by split|]. specialize (Hwire k eq_refl). subst k.
  rewrite firstn_all in Hwire.
  pose proof (receive_attempts_spec 8 s1 fd txid) as Hr. destruct (receive_attempts 8 s1 fd txid) as [s2 r].
  destruct Hr as (Hr1 & Hr2 & Hr3). assert (sends_only fd 1 s s2) as Hs2 by by apply (sends_trans fd 1 0 1 s s1 s2).
  destruct r as [response| |errno].
  - split; [apply (sends_le _ 1); [done|lia]|]. intros ? [= <-]. destruct (Hr3 response eq_refl) as [G L].
    split; [done|]. split; [apply (last_received_after s s1); [apply Hs|done]|]. exists []. by rewrite Hr2, Hwire.
  - specialize (IH s2 fd request txid). destruct (send_attempts n s2 fd request txid) as [s3 r]. destruct IH as [IH1 IH2].
    split; [by apply (sends_trans fd 1 n _ s s2 s3)|]. intros response E. by apply (answered_after fd 1 s s2), IH2.
  - split; [apply (sends_le _ 1); [done|lia]|done].
Qed.

Lemma SendAndReceive_spec `{Platform} s fd request txid :
  let '(s', r) := SendAndReceive s fd request txid in
  sends_only fd 3 s s' /\ (forall response, r = inr response -> answered fd s s' request txid response).
Proof. apply send_attempts_spec. Qed.

(** ** Allocation *)

(** The request that an Allocate Success answers: the first one, or the authenticated
    one under the realm and the nonce of the challenge. *)
Definition allocate_request `{CommonCrypto} (server : RtcServer) (r : Ios6TurnProbeResult) (txid request : list Z) : Prop :=
  request = MakeAllocateRequest txid \/
  request = MakeAuthenticatedAllocateRequest txid (rs_login server) (rs_password server) (realm r) (nonce r).

(** How a probe that opened [fd] ends: the socket is handed to the caller, or it
    is closed, exactly once; success means that the last datagram received is an
    Allocate Success for the last request sent, under a transaction id drawn for it,
    whose relay address and lifetime are reported. *)
Definition finished `{CommonCrypto} (fd : Z) (server : RtcServer) (keep hasOut : bool) (n : nat) (s : net) (x : net * Ios6TurnProbeResult * option Z) : Prop :=
  let '(s', r, out) := x in
  n_random s' = n_random s /\
  (exists h, n_wire s' = n_wire s ++ h /\ (length h <= n)%nat /\ Forall (fun d => d.1 = fd) h) /\
  (if ok r && keep then n_closed s' = n_closed s /\ out = keep_fd true hasOut fd
   else n_closed s' = n_closed s ++ [fd] /\ out = no_fd hasOut) /\
  (ok r = true -> error r = [] /\ exists k request response, (n_draws s <= k < n_draws s')%nat /\
     allocate_request server r (txid_at (n_random s) k) request /\
     answered fd s s' request (txid_at (n_random s) k) response /\
     ReadU16 response 0 = kTurnAllocateSuccess /\
     ParseXorRelayedAddress response = Some (relayHost r, relayPort r) /\
     lifetimeSeconds r = ParseLifetimeSeconds response).

Section allocation.
Context `{CommonCrypto} `{Platform} (fd : Z) (server : RtcServer) (keep hasOut : bool).
Lemma finished_failed n s s1 r : sends_only fd n s s1 -> ok r = false ->
  finished fd server keep hasOut n s (close_call s1 fd, r, no_fd hasOut).
Proof.
  intros [C O R D V W] Hok. unfold finished. rewrite Hok. cbn [andb close_call n_random n_wire n_closed].
  rewrite C. by split_and!.
Qed.

Lemma finished_success n s s1 r k request response : sends_only fd n s s1 -> ok r = true -> error r = [] ->
  (n_draws s <= k < n_draws s1)%nat -> allocate_request server r (txid_at (n_random s) k) request ->
  answered fd s s1 request (txid_at (n_random s) k) response -> ReadU16 response 0 = kTurnAllocateSuccess ->
  ParseXorRelayedAddress response = Some (relayHost r, relayPort r) ->
  lifetimeSeconds r = ParseLifetimeSeconds response ->
  finished fd server keep hasOut n s (if keep then (s1, r, keep_fd keep hasOut fd) else (close_call s1 fd, r, no_fd hasOut)).
Proof.
  intros [C O R D V W] Hok He Hk Hq Hg Ht Hp Hl. destruct keep; unfold finished; rewrite Hok; cbn [andb close_call n_random n_wire n_closed n_draws];
    rewrite C; (split; [done|split; [done|split; [done|]]]); intros _; (split; [done|]); by exists k, request, response.
Qed.

Lemma finished_after j k n s s1 x : sends_only fd j s s1 -> finished fd server keep hasOut k s1 x -> (j + k <= n)%nat ->
  finished fd server keep hasOut n s x.
Proof.
  intros Hs Hx Hn. pose proof Hs as [C O R D V (h1 & W1 & L1 & F1)]. destruct x as [[s' r] out].
  destruct Hx as (R' & (h2 & W2 & L2 & F2) & Hc & Hk). unfold finished. rewrite R in *. rewrite C in Hc.
  split; [done|]. split; [|split; [done|]].
  - exists (h1 ++ h2). rewrite W2, W1, app_assoc, length_app. split; [done|]. split; [lia|by apply Forall_app_2].
  - intros Hok. destruct (Hk Hok) as (He & i & request & response & Hi & Hq & Ha & Hrest). split; [done|]. exists i, request, response.
    split; [lia|]. split; [done|]. split; [by apply (answered_after fd j s s1)|done].
Qed.

Lemma auth_attempts_spec n : forall s r, ok r = false ->
  finished fd server keep hasOut (3 * n) s (auth_attempts n s fd server keep hasOut r).
Proof.
  induction n as [|n IH]; intros s r Hok; cbn [auth_attempts].
  { apply finished_failed; [apply sends_refl|done]. }
  pose proof (make_txid_sends s fd) as Hm. destruct (MakeTransactionId s) as [s1 tx] eqn:Etx. cbn [fst] in Hm.
  assert (tx = txid_at (n_random s) (n_draws s)) as -> by (by rewrite <- make_txid, Etx).
  assert (n_draws s1 = 3 + n_draws s)%nat as Hd by (by injection Etx as <-).
  set (req := MakeAuthenticatedAllocateRequest _ _ _ _ _).
  pose proof (SendAndReceive_spec s1 fd req (txid_at (n_random s) (n_draws s))) as Hsr.
  destruct (SendAndReceive _ _ _ _) as [s2 [e|resp]]; destruct Hsr as [Hs2 Hg];
    assert (sends_only fd 3 s s2) as Hs by (by apply (sends_trans fd 0 3 3 s s1 s2));
    assert (sends_only fd (3 * S n) s s2) as Hs' by (apply (sends_le _ 3); [done|lia]).
  { by apply finished_failed. }
  case_decide as Ht.
  { destruct (ParseXorRelayedAddress resp) as [[host port]|] eqn:Ex; [|by apply finished_failed].
    pose proof (so_draws _ _ _ _ Hs2). apply (finished_success _ s s2 _ (n_draws s) req resp); try done; [lia|by right|].
    by apply (answered_after fd 0 s s1), Hg. }
  case_decide; [by apply finished_failed|].
  destruct (FindAttribute resp kAttrNonce) as [newNonce|]; [|by apply finished_failed].
  case_decide; [|by apply finished_failed].
  apply (finished_after 3 (3 * n) _ _ s2); [done|by apply IH|lia].
Qed.

Lemma initial_error_spec s r response : ok r = false ->
  finished fd server keep hasOut 6 s (initial_error s fd server keep hasOut r response).
Proof.
  intros Hok. unfold initial_error. case_decide; [apply finished_failed; [apply (sends_le _ 0); [apply sends_refl|lia]|done]|].
  case_decide; [apply finished_failed; [apply (sends_le _ 0); [apply sends_refl|lia]|done]|].
  by apply (auth_attempts_spec 2).
Qed.
End allocation.

(** What the checks before any I/O, and the opening of the socket, let through. *)
Definition probe_opens (s : net) (server : RtcServer) : Prop :=
  rs_isTurn server = true /\ rs_isTcp server = false /\ rs_login server <> str "reflector" /\
  o_gai (n_open s) = true /\ 0 <= o_socket (n_open s).
#[export] Instance probe_opens_dec s server : Decision (probe_opens s server).
Proof. unfold probe_opens. apply _. Defined.

(** ** A cooperative server *)

(** Interruptions and datagrams that answer something else. *)
Definition noise (txid : list Z) (r : option recv_outcome) : Prop :=
  r = None \/ exists d, r = Some (RData d) /\ ~ genuine txid (take 4096 d).
Definition datagrams (l : list (option recv_outcome)) : nat := length (filter (fun r => r <> None) l).

Definition after_recv (s : net) (rest : list (option recv_outcome)) : net :=
  Net (n_open s) (n_sends s) rest (n_random s) (n_draws s) (n_wire s) (n_closed s).

Lemma recv_call_data s fd d rest : n_recvs s = Some (RData d) :: rest ->
  recv_call s fd = (after_recv s rest, RData (take 4096 d)).
Proof. intros E. unfold recv_call. by rewrite E. Qed.

Lemma receive_attempts_S n s fd txid d rest : n_recvs s = Some (RData d) :: rest ->
  receive_attempts (S n) s fd txid =
  if decide (genuine txid (take 4096 d)) then (after_recv s rest, Received (take 4096 d))
  else receive_attempts n (after_recv s rest) fd txid.
Proof.
  intros E. cbn [receive_attempts]. rewrite (recv_call_data _ _ _ _ E). unfold genuine. set (b := take 4096 d).
  destruct (decide (length b < 20)%nat); [rewrite decide_False by lia; done|].
  destruct (decide (ReadU32 b 4 <> kStunMagicCookie)); [rewrite decide_False by tauto; done|].
  destruct (decide (slice b 8 12 <> txid)); [rewrite decide_False by tauto; done|].
  destruct (decide (length b < 20 + Z.to_nat (ReadU16 b 2))%nat); [rewrite decide_False by lia; done|].
  rewrite decide_True; [done|]. split_and!; [lia|by apply dec_stable|by apply dec_stable|lia].
Qed.

Lemma receive_attempts_noise txid d rest : genuine txid d -> (Z.of_nat (length d) <= 4096) -> forall l n s fd,
  Forall (noise txid) l -> (datagrams l < n)%nat -> n_recvs s = l ++ Some (RData d) :: rest ->
  receive_attempts n s fd txid = (after_recv s rest, Received d).
Proof.
  intros Hg Hd. induction l as [|r l IH]; intros n s fd Hl Hn E; (destruct n as [|n]; [lia|]).
  - rewrite (receive_attempts_S _ _ _ _ _ _ E). rewrite take_ge by lia. by rewrite decide_True.
  - cbn [app] in E. apply Forall_cons in Hl as [Hr Hl]. destruct Hr as [->|(d' & -> & Hng)].
    + assert (receive_attempts (S n) s fd txid = receive_attempts (S n) (after_recv s (l ++ Some (RData d) :: rest)) fd txid) as ->.
      { cbn [receive_attempts]. unfold recv_call. rewrite E. done. }
      rewrite (IH (S n) (after_recv s (l ++ Some (RData d) :: rest)) fd); [done|done| |done].
      revert Hn. unfold datagrams. rewrite filter_cons_False by congruence. done.
    + rewrite (receive_attempts_S _ _ _ _ _ _ E), decide_False by done.
      rewrite (IH n (after_recv s (l ++ Some (RData d) :: rest)) fd); [done|done| |done].
      revert Hn. unfold datagrams. rewrite filter_cons_True by done. cbn [length]. lia.
Qed.

(** One exchange: the request leaves whole, then the response arrives after some
    noise. *)
Definition after_exchange (s : net) (fd : Z) (request : list Z) (sends : list (option send_outcome))
    (recvs : list (option recv_outcome)) : net :=
  Net (n_open s) sends recvs (n_random s) (n_draws s) (n_wire s ++ [(fd, request)]) (n_closed s).

Lemma SendAndReceive_exchange `{Platform} s fd request txid l d sends recvs :
  n_sends s = Some (SSent (length request)) :: sends -> n_recvs s = l ++ Some (RData d) :: recvs ->
  Forall (noise txid) l -> (datagrams l <= 7)%nat -> genuine txid d -> Z.of_nat (length d) <= 4096 ->
  SendAndReceive s fd request txid = (after_exchange s fd request sends recvs, inr d).
Proof.
  intros Es Er Hl Hn Hg Hd. unfold SendAndReceive. cbn [send_attempts]. unfold send_call. rewrite Es. cbn [skip_eintr].
  rewrite decide_False by (intros Hne; by apply Hne). rewrite firstn_all.
  rewrite (receive_attempts_noise txid d recvs Hg Hd l); [done|done|lia|done].
Qed.

Lemma stun_genuine type txid attrs : 0 <= type < 65536 -> is_txid txid -> Forall attr_ok attrs -> body attrs < 65536 ->
  genuine txid (stun type txid attrs) /\ ReadU16 (stun type txid attrs) 0 = type.
Proof.
  intros Ht Hx Ha Hb. assert (wf_bytes (stun type txid attrs)) as Hw by (unfold stun; apply stun_with_wf; assumption).
  destruct (stun_header type txid attrs Ht Hx Hw) as (H1 & H2 & H3). split; [|done].
  pose proof (body_nonneg attrs) as H0.
  unfold genuine. rewrite H2, H3. unfold stun. rewrite stun_length_field, stun_with_length by (done || lia).
  unfold body in *. split_and!; [lia|done|done|lia].
Qed.

(** ** Properties *)

(** C11: Allocation never leaks and never closes twice: a probe that gets as far as a
    socket closes it exactly once unless it succeeds and was asked to keep it,
    one that does not touches nothing; it sends at most nine datagrams, all on
    that socket; and it reports success only when the last datagram it took off the
    socket is an Allocate Success with the cookie and the transaction id of the last
    request it sent, an id drawn during the probe: the address and the lifetime it
    reports are those of that datagram. *)
Theorem allocate_probe_safe `{CC : CommonCrypto} `{PL : Platform} (s : net) (server : RtcServer) (keep hasOut : bool) :
  let x := Ios6TurnAllocateProbe s server keep hasOut in
  if decide (probe_opens s server) then finished (o_socket (n_open s)) server keep hasOut 9 s x
  else x.1.1 = s /\ ok x.1.2 = false /\ x.2 = no_fd hasOut.
Proof.
  cbn zeta. unfold Ios6TurnAllocateProbe. case_decide as Ho.
  - destruct Ho as (H1 & H2 & H3 & H4 & H5). rewrite H1, H2, decide_False by done. cbn [negb].
    unfold OpenConnectedUdpSocket. rewrite H4, decide_False by lia. cbn [negb]. set (fd := o_socket (n_open s)).
    destruct (o_connect (n_open s)); cbn [negb];
      [|apply finished_failed; [apply (sends_le _ 0); [apply sends_refl|lia]|done]].
    pose proof (make_txid_sends s fd) as Hm. destruct (MakeTransactionId s) as [s1 tx] eqn:Etx. cbn [fst] in Hm.
    assert (tx = txid_at (n_random s) (n_draws s)) as -> by (by rewrite <- make_txid, Etx).
    pose proof (SendAndReceive_spec s1 fd (MakeAllocateRequest (txid_at (n_random s) (n_draws s))) (txid_at (n_random s) (n_draws s))) as Hsr.
    destruct (SendAndReceive _ _ _ _) as [s2 [e|resp]]; destruct Hsr as [Hs2 Hg];
      assert (sends_only fd 3 s s2) as Hs by (by apply (sends_trans fd 0 3 3 s s1 s2));
      assert (sends_only fd 9 s s2) as Hs' by (apply (sends_le _ 3); [done|lia]).
    { by apply finished_failed. }
    case_decide.
    { unfold initial_success. destruct (ParseXorRelayedAddress resp) as [[host port]|] eqn:Ex; [|by apply finished_failed].
      assert (n_draws s1 = 3 + n_draws s)%nat as Hd by (by injection Etx as <-). pose proof (so_draws _ _ _ _ Hs2).
      apply (finished_success fd server keep hasOut _ s s2 _ (n_draws s) (MakeAllocateRequest (txid_at (n_random s) (n_draws s))) resp); try done; [lia|by left|].
      by apply (answered_after fd 0 s s1), Hg. }
    case_decide; [by apply finished_failed|].
    apply (finished_after _ _ _ _ 3 6 _ _ s2); [done|by apply initial_error_spec|lia].
  - unfold probe_opens in Ho. destruct (rs_isTurn server); cbn [negb]; [|done].
    destruct (rs_isTcp server); [done|]. case_decide; [done|].
    unfold OpenConnectedUdpSocket. destruct (o_gai (n_open s)); cbn [negb]; [|done].
    rewrite decide_True; [done|]. apply Z.nle_gt. intros Hge. apply Ho. by split_and!.
Qed.

(** The challenge of a TURN server and its acceptance. *)
Definition challenge (txid realm nonce : list Z) : list Z :=
  stun kTurnAllocateError txid [(kAttrErrorCode, [0; 0; 4; 1]); (kAttrRealm, realm); (kAttrNonce, nonce)].
Definition acceptance (txid a : list Z) (port life : Z) : list Z :=
  stun kTurnAllocateSuccess txid [(kAttrXorRelayedAddress, xor_address a port); (kAttrLifetime, be32 life)].

Lemma challenge_spec txid realm nonce : is_txid txid -> wf_bytes realm -> wf_bytes nonce ->
  Z.of_nat (length realm + length nonce) <= 3000 ->
  let m := challenge txid realm nonce in
  genuine txid m /\ ReadU16 m 0 = kTurnAllocateError /\ ParseErrorCode m = 401 /\
  FindAttribute m kAttrRealm = Some realm /\ FindAttribute m kAttrNonce = Some nonce /\ Z.of_nat (length m) <= 4096.
Proof.
  intros Hx Hr Hn Hl m. unfold m, challenge. set (attrs := [_; _; _]).
  assert (Forall attr_ok attrs) as Ha.
  { unfold attrs. repeat apply Forall_cons_2; try apply Forall_nil_2; (split; [done|split; [cbn [snd length]; lia|]]); [|done|done].
    cbn [snd]. repeat (apply Forall_cons_2; [unfold is_byte; lia|]). constructor. }
  assert (body attrs <= 3100) as Hb.
  { unfold attrs. pose proof (body_cons kAttrErrorCode [0; 0; 4; 1] [(kAttrRealm, realm); (kAttrNonce, nonce)]).
    pose proof (body_cons kAttrRealm realm [(kAttrNonce, nonce)]). pose proof (body_cons kAttrNonce nonce []).
    change (body []) with 0 in *. cbn [length] in *. lia. }
  destruct (stun_genuine kTurnAllocateError txid attrs) as [Hg Ht]; [done|done|done|lia|].
  split; [done|]. split; [done|].
  unfold ParseErrorCode. rewrite !FindAttribute_stun by (assumption || lia).
  split_and!; [done|done|done|]. unfold stun. rewrite stun_with_length by done. unfold body in *. lia.
Qed.

Lemma acceptance_spec txid a port life : is_txid txid -> is_addr a -> 0 <= port < 65536 -> is_u32 life ->
  let m := acceptance txid a port life in
  genuine txid m /\ ReadU16 m 0 = kTurnAllocateSuccess /\
  ParseXorRelayedAddress m = Some (inet_ntop a, port) /\ ParseLifetimeSeconds m = life /\ Z.of_nat (length m) <= 4096.
Proof.
  intros Hx Haddr Hp Hl m. unfold m, acceptance. set (attrs := [_; _]).
  assert (Forall attr_ok attrs) as Ha.
  { unfold attrs. repeat apply Forall_cons_2; try apply Forall_nil_2; (split; [done|split; [done|]]);
      [by apply xor_address_wf|apply be32_wf]. }
  assert (body attrs = 20) as Hb by done.
  destruct (stun_genuine kTurnAllocateSuccess txid attrs) as [Hg Ht]; [done|done|done|lia|].
  split; [done|]. split; [done|].
  rewrite ParseXorRelayed_spec by (unfold stun; apply stun_with_wf; assumption).
  unfold ParseLifetimeSeconds. rewrite !FindAttribute_stun by (assumption || lia). unfold attrs. cbn [attr_get].
  rewrite decide_True by done. rewrite decide_False by done. rewrite decide_True by done.
  split; [rewrite <- (app_nil_r (xor_address a port)); by apply Ios6ParseXor_spec|].
  split; [|unfold stun; rewrite stun_with_length by done; fold attrs; unfold body in Hb; lia].
  cbn [be32 length]. rewrite decide_False by lia.
  pose proof (ReadU32_at [] life []) as E. apply E; [constructor|constructor|done].
Qed.

(** C19: Against a server that challenges and then accepts, whatever stray datagrams
    and interruptions come before each answer (up to seven), the allocation
    succeeds with the relay address and lifetime the server gave; the second
    request is the authenticated one, under a new transaction id. *)
Theorem allocate_succeeds `{CC : CommonCrypto} `{PL : Platform} (s : net) (server : RtcServer) (keep hasOut : bool)
    (realm nonce a : list Z) (port life : Z) (l1 l2 : list (option recv_outcome)) sends recvs
    (Ho : probe_opens s server) (Hc : o_connect (n_open s) = true)
    (Hr : wf_bytes realm) (Hn : wf_bytes nonce) (Hl : Z.of_nat (length realm + length nonce) <= 3000)
    (Hrne : realm <> []) (Hnne : nonce <> []) (Ha : is_addr a) (Hp : 0 <= port < 65536) (Hlife : is_u32 life) :
  let tx1 := txid_at (n_random s) (n_draws s) in
  let tx2 := txid_at (n_random s) (3 + n_draws s) in
  let req1 := MakeAllocateRequest tx1 in
  let req2 := MakeAuthenticatedAllocateRequest tx2 (rs_login server) (rs_password server) realm nonce in
  Forall (noise tx1) l1 -> (datagrams l1 <= 7)%nat -> Forall (noise tx2) l2 -> (datagrams l2 <= 7)%nat ->
  n_sends s = Some (SSent (length req1)) :: Some (SSent (length req2)) :: sends ->
  n_recvs s = l1 ++ Some (RData (challenge tx1 realm nonce)) :: l2 ++ Some (RData (acceptance tx2 a port life)) :: recvs ->
  let '(s', r, out) := Ios6TurnAllocateProbe s server keep hasOut in
  r = ProbeResult true 0 [] realm nonce (inet_ntop a) port life /\
  n_wire s' = n_wire s ++ [(o_socket (n_open s), req1); (o_socket (n_open s), req2)].
Proof.
  intros tx1 tx2 req1 req2 Hn1 Hd1 Hn2 Hd2 Es Er.
  destruct Ho as (H1 & H2 & H3 & H4 & H5). unfold Ios6TurnAllocateProbe. rewrite H1, H2, decide_False by done. cbn [negb].
  unfold OpenConnectedUdpSocket. rewrite H4, Hc, decide_False by lia. cbn [negb]. set (fd := o_socket (n_open s)).
  cbn [MakeTransactionId]. fold (txid_at (n_random s) (n_draws s)). fold tx1. fold req1.
  destruct (challenge_spec tx1 realm nonce (txid_at_ok _ _) Hr Hn Hl) as (C1 & C2 & C3 & C4 & C5 & C6).
  rewrite (SendAndReceive_exchange (Net _ _ _ _ _ _ _) fd req1 tx1 l1 _ _ _ Es Er Hn1 Hd1 C1 C6).
  rewrite C2. rewrite decide_False by done. rewrite decide_False by (intros Hne; by apply Hne).
  unfold initial_error. rewrite C3, C4, C5.
  cbn [default with_code with_challenge errorCode Turn.realm Turn.nonce].
  rewrite decide_False by (intros Hne; by apply Hne). rewrite decide_False by (intros [?|?]; contradiction).
  destruct (acceptance_spec tx2 a port life (txid_at_ok _ _) Ha Hp Hlife) as (A1 & A2 & A3 & A4 & A5).
  cbn [auth_attempts MakeTransactionId after_exchange n_open n_sends n_recvs n_random n_draws n_wire n_closed
    Turn.realm Turn.nonce]. fold (txid_at (n_random s) (3 + n_draws s)). fold tx2. fold req2.
  rewrite (SendAndReceive_exchange (Net _ _ _ _ _ _ _) fd req2 tx2 l2 (acceptance tx2 a port life) sends recvs);
    [|reflexivity|reflexivity|done..].
  rewrite A2, decide_True by done. rewrite A3, A4.
  unfold after_exchange. cbn [n_open n_sends n_recvs n_random n_draws n_wire n_closed].
  destruct keep; cbn [close_call n_wire]; rewrite <- app_assoc; done.
Qed.

Definition toy_platform : Platform := Build_Platform (fun _ => str "error").
Definition demo_server : RtcServer := Server (str "turn.example") 3478 (str "user") (str "pass") true false.
Definition demo_net : net :=
  let tx k := txid_at (fun i => Z.of_nat i) k in
  Net (OpenEnv true 5 true 0)
    [Some (SSent 28); Some (SSent (length (@MakeAuthenticatedAllocateRequest toy_crypto (tx 3%nat) (str "user") (str "pass") (str "r") (str "n"))))]
    [None; Some (RData (zeros 3)); Some (RData (challenge (tx 0%nat) (str "r") (str "n")));
     Some (RData (acceptance (tx 3%nat) [10; 0; 0; 1] 4000 600))]
    (fun i => Z.of_nat i) 0 [] [].
Lemma short_noise txid : noise txid (Some (RData (zeros 3))).
Proof. right. exists (zeros 3). split; [done|]. intros [Hl _]. cbn in Hl. lia. Qed.

Lemma allocate_succeeds_witness :
  let '(_, r, out) := @Ios6TurnAllocateProbe toy_crypto toy_platform demo_net demo_server true true in
  r = ProbeResult true 0 [] (str "r") (str "n") (inet_ntop [10; 0; 0; 1]) 4000 600.
Proof.
  pose proof (@allocate_succeeds toy_crypto toy_platform demo_net demo_server true true (str "r") (str "n") [10; 0; 0; 1] 4000 600
    [None; Some (RData (zeros 3))] [] [] []) as H.
  destruct (@Ios6TurnAllocateProbe toy_crypto toy_platform demo_net demo_server true true) as [[s' r] out].
  refine (proj1 (H _ _ _ _ _ _ _ _ _ _ _ _ _ _ _ _)).
  - repeat split; discriminate.
  - reflexivity.
  - apply str_wf.
  - apply str_wf.
  - cbn. lia.
  - discriminate.
  - discriminate.
  - split; [|reflexivity]. repeat (apply Forall_cons_2; [unfold is_byte; lia|]). constructor.
  - lia.
  - unfold is_u32. lia.
  - apply Forall_cons_2; [left; reflexivity|apply Forall_cons_2; [apply short_noise|constructor]].
  - vm_compute. lia.
  - constructor.
  - vm_compute. lia.
  - reflexivity.
  - reflexivity.
Defined.

(** ** Permissions *)

(** How an attempt to create a permission ends. *)
Definition permission_done (s : net) (nonce : list Z) (n : nat) (fd : Z) (x : net * (bool * list Z * list Z)) : Prop :=
  let '(s', (done, error, nonce')) := x in
  sends_only fd n s s' /\
  (done = true -> error = [] /\ exists k request response, answered fd s s' request (txid_at (n_random s) k) response /\
     ReadU16 response 0 = kTurnCreatePermissionSuccess) /\
  (nonce' <> nonce -> exists k response, genuine (txid_at (n_random s) k) response /\
     ReadU16 response 0 = kTurnCreatePermissionError /\ ParseErrorCode response = 438 /\
     FindAttribute response kAttrNonce = Some nonce').

Lemma permission_failed s s' nonce n fd e : sends_only fd n s s' -> permission_done s nonce n fd (s', (false, e, nonce)).
Proof. intros Hs. by split_and!. Qed.

Lemma permission_attempts_spec `{CommonCrypto} `{Platform} n : forall s fd server realm nonce host port,
  permission_done s nonce (3 * n) fd (permission_attempts n s fd server realm nonce host port).
Proof.
  induction n as [|n IH]; intros s fd server realm nonce host port; cbn [permission_attempts];
    [apply permission_failed, sends_refl|].
  pose proof (make_txid_sends s fd) as Hm.
  destruct (MakeTransactionId s) as [s1 tx] eqn:Etx. cbn [fst] in Hm.
  assert (tx = txid_at (n_random s) (n_draws s)) as -> by (by rewrite <- make_txid, Etx).
  pose proof (SendAndReceive_spec s1 fd (MakeCreatePermissionRequest (txid_at (n_random s) (n_draws s)) server realm nonce host port)
    (txid_at (n_random s) (n_draws s))) as Hsr.
  destruct (SendAndReceive _ _ _ _) as [s2 [e|resp]]; destruct Hsr as [Hs2 Hg];
    assert (sends_only fd 3 s s2) as Hs by (by apply (sends_trans fd 0 3 3 s s1 s2));
    assert (sends_only fd (3 * S n) s s2) as Hs' by (apply (sends_le _ 3); [done|lia]); [by apply permission_failed|].
  case_decide as Ht.
  { split; [done|]. split; [|done]. intros _. split; [done|]. eexists (n_draws s), _, resp. split; [by apply (answered_after fd 0 s s1), Hg|done]. }
  case_decide as Hte; [by apply permission_failed|].
  destruct (FindAttribute resp kAttrNonce) as [newNonce|] eqn:En; [|by apply permission_failed].
  case_decide as H438; [|by apply permission_failed].
  specialize (IH s2 fd server realm newNonce host port).
  destruct (permission_attempts n s2 fd server realm newNonce host port) as [s3 [[done3 e3] nonce3]].
  destruct IH as (I1 & I2 & I3). rewrite (so_random _ _ _ _ Hs) in I2, I3.
  split; [by apply (sends_trans fd 3 (3 * n) _ s s2 s3); [..|lia]|].
  split; [intros Hd3; destruct (I2 Hd3) as (? & k & q & a & Ha & ?); split; [done|]; exists k, q, a; split; [by apply (answered_after fd 3 s s2)|done]|]. intros Hne.
  destruct (decide (nonce3 = newNonce)) as [->|Hd]; [|by apply I3].
  exists (n_draws s), resp. split_and!; [by apply Hg|done|apply H438|done].
Qed.

(** A permission is reported only for a genuine CreatePermission Success; the
    nonce is replaced only by the one of a genuine 438 answer; at most six
    datagrams are sent, and the socket stays open. *)
Theorem create_permission_safe `{CC : CommonCrypto} `{PL : Platform} (s : net) (fd : Z) (server : RtcServer)
    (realm nonce host : list Z) (port : Z) :
  permission_done s nonce 6 fd (Ios6TurnCreatePermission s fd server realm nonce host port).
Proof.
  assert (forall e, permission_done s nonce 6 fd (s, (false, e, nonce))) as Hs0
    by (intros; apply permission_failed, (sends_le _ 0); [apply sends_refl|lia]).
  unfold Ios6TurnCreatePermission. case_decide; [apply Hs0|]. case_decide; [apply Hs0|].
  destruct (inet_pton host); [|apply Hs0]. apply (permission_attempts_spec 2).
Qed.

(** ** The relay *)

Lemma make_send_indication_sends s fd host port payload :
  sends_only fd 0 s (make_send_indication s host port payload).1.
Proof. apply (make_txid_sends s fd). Qed.

Lemma answer_binding_request_spec `{CommonCrypto} s fd host port data lu lp ru :
  let s' := answer_binding_request s fd host port data lu lp ru in
  sends_only fd 1 s s' /\
  (n_wire s' <> n_wire s -> n_recvs s' = n_recvs s /\
     attr_value data kIos6AttrUsername = Some (lu ++ str ":" ++ ru) /\ lp <> [] /\
     Ios6VerifyShortTermIntegrity data lp = true /\
     exists n, n_wire s' = n_wire s ++ [(fd, take n (Ios6MakeTurnSendIndication (txid_at (n_random s) (n_draws s)) host port
       (Ios6MakeIceBindingSuccessResponse (slice data 8 12) host port lp)))]).
Proof.
  cbn zeta. unfold answer_binding_request, binding_request_ok.
  assert (sends_only fd 1 s s) as Hs0 by (apply (sends_le _ 0); [apply sends_refl|lia]).
  destruct (attr_value data kIos6AttrUsername) as [username|]; [|by split].
  destruct (bool_decide (username = _)) eqn:Eu; [apply bool_decide_eq_true in Eu|by split].
  destruct (bool_decide (lp <> [])) eqn:El; [apply bool_decide_eq_true in El|by split].
  destruct (Ios6VerifyShortTermIntegrity data lp) eqn:Ev; [|by split]. cbn [andb negb].
  case_decide; [by split|].
  set (response := Ios6MakeIceBindingSuccessResponse _ _ _ _).
  unfold make_send_indication. cbn [MakeTransactionId]. fold (txid_at (n_random s) (n_draws s)).
  set (s1 := Net _ _ _ _ _ _ _). set (ind := Ios6MakeTurnSendIndication _ _ _ _).
  assert (sends_only fd 0 s s1) as Hm by apply (make_txid_sends s fd).
  case_decide; [split; [by apply (sends_le _ 0); [|lia]|done]|].
  pose proof (send_call_sends s1 fd ind) as Hc.
  split; [by apply (sends_trans fd 0 1 1 s s1)|]. intros Hne.
  assert (n_recvs (send_call s1 fd ind).1 = n_recvs s) as Hv by (unfold send_call; by destruct (skip_eintr _ _)).
  split_and!; [exact Hv|congruence|done|done|].
  revert Hne. unfold send_call. destruct (skip_eintr _ _) as [[n|e] rest]; cbn; [|done]. intros _. by exists n.
Qed.

Lemma receive_transport_spec host port ph pp data : looks_like_stun data = false ->
  let r := receive_transport (ReceiveResult KindNone false [] ph pp 0 []) host port data in
  (kind r = KindTransport -> data <> [] /\
     (host = [] \/ port = 0 \/ (ph = host /\ pp = port) \/ looks_like_dtls data = true) /\
     r_peerHost r = ph /\ r_peerPort r = pp /\ r_data r = data) /\
  (kind r <> KindTransport -> r_data r = []).
Proof.
  intros El. unfold receive_transport. cbn [r_peerHost r_peerPort].
  set (alt := bool_decide (host <> []) && bool_decide (port <> 0) && bool_decide (ph <> host \/ pp <> port)).
  destruct (alt && negb (looks_like_dtls data)) eqn:Ea; [by split|].
  destruct (decide (length data = 0)%nat) as [Hd|Hd]; [by split|].
  cbn [kind r_data r_peerHost r_peerPort]. split; [|done]. intros _. split; [by destruct data|]. split; [|done].
  destruct (looks_like_dtls data); [tauto|]. rewrite andb_true_r in Ea. unfold alt in Ea.
  apply andb_false_iff in Ea as [Ea|Ea]; [apply andb_false_iff in Ea as [Ea|Ea]|]; apply bool_decide_eq_false in Ea.
  - left. by apply dec_stable.
  - right; left. by apply dec_stable.
  - right; right; left. split; apply dec_stable; tauto.
Qed.

(** The Data attribute of a Data indication. *)
Definition data_indication (buffer data : list Z) : Prop :=
  (20 <= length buffer)%nat /\ Ios6Read32 buffer 4 = kIos6StunCookie /\ Ios6Read16 buffer 0 = kIos6TurnDataIndication /\
  attr_value buffer kIos6AttrData = Some data.

(** C9: What comes up from the relay. Application data is the Data attribute of the
    Data indication just taken off the socket, with the peer that indication names;
    it is not empty, is not a STUN message, and is from the selected peer unless none
    is selected or it is a DTLS record. A packet makes this client send at most one
    datagram, and only for a binding request in the indication just received that
    names both user fragments and verifies under the local password: the success
    response to its transaction, relayed to the peer the indication names under the
    next transaction id. *)
Theorem receive_packet_safe `{CC : CommonCrypto} `{PL : Platform} (s : net) (fd : Z) (host : list Z) (port : Z)
    (lu lp ru : list Z) :
  let '(s', r) := Ios6TurnReceivePacket s fd host port lu lp ru in
  sends_only fd 1 s s' /\
  (kind r = KindTransport -> r_data r <> [] /\ looks_like_stun (r_data r) = false /\ n_wire s' = n_wire s /\
     (host = [] \/ port = 0 \/ (r_peerHost r = host /\ r_peerPort r = port) \/ looks_like_dtls (r_data r) = true) /\
     exists buffer, received s s' buffer /\ data_indication buffer (r_data r) /\
       indication_peer buffer host port = (r_peerHost r, r_peerPort r)) /\
  (kind r <> KindTransport -> r_data r = []) /\
  (n_wire s' <> n_wire s -> kind r = KindInnerStun /\ innerStunType r = kIos6StunBindingRequest /\
     exists buffer data n, received s s' buffer /\ data_indication buffer data /\
       indication_peer buffer host port = (r_peerHost r, r_peerPort r) /\
       looks_like_stun data = true /\ Ios6Read16 data 0 = kIos6StunBindingRequest /\
       attr_value data kIos6AttrUsername = Some (lu ++ str ":" ++ ru) /\ lp <> [] /\
       Ios6VerifyShortTermIntegrity data lp = true /\
       n_wire s' = n_wire s ++ [(fd, take n (Ios6MakeTurnSendIndication (txid_at (n_random s) (n_draws s)) (r_peerHost r) (r_peerPort r)
         (Ios6MakeIceBindingSuccessResponse (slice data 8 12) (r_peerHost r) (r_peerPort r) lp)))]).
Proof.
  unfold Ios6TurnReceivePacket. case_decide.
  { cbn. split_and!; [apply (sends_le _ 0); [apply sends_refl|lia]|done..]. }
  pose proof (recv_call_spec s fd) as Hrecv. destruct (recv_call s fd) as [s1 rcv]. destruct Hrecv as (Hs & Hw & Hd & _ & Hb).
  assert (sends_only fd 1 s s1) as Hs1 by (apply (sends_le _ 0); [done|lia]).
  destruct rcv as [buffer| |errno]; [|by split_and!|by split_and!]. specialize (Hb buffer eq_refl).
  unfold receive_outer. case_decide; [by split_and!|]. case_decide as Hck; [by split_and!|]. case_decide as Hty; [by split_and!|].
  destruct (indication_peer buffer host port) as [ph pp] eqn:Ep. destruct (attr_value buffer kIos6AttrData) as [data|] eqn:Ea; [|by split_and!].
  assert (data_indication buffer data) as Hdi by (split_and!; [lia|done|done|done]).
  destruct (looks_like_stun data) eqn:El.
  - case_decide as Hbr; [|cbn; by split_and!]. pose proof (answer_binding_request_spec s1 fd ph pp data lu lp ru) as [A1 A2].
    cbn [kind r_data innerStunType r_peerHost r_peerPort]. split_and!; [by apply (sends_trans fd 0 1 1 s s1)|done|done|].
    rewrite <- Hw. intros Hne. destruct (A2 Hne) as (A0 & B1 & B2 & B3 & n & B4). split_and!; [done|done|].
    exists buffer, data, n. rewrite (so_random _ _ _ _ Hs), Hd in B4. unfold received in *. rewrite A0. by split_and!.
  - destruct (receive_transport_spec host port ph pp data El) as [T1 T2].
    set (r := receive_transport _ _ _ _) in *. cbn [fst snd]. split_and!; [done| |exact T2|congruence].
    intros Hk. destruct (T1 Hk) as (U1 & U2 & U3 & U4 & U5). rewrite U3, U4, U5. split_and!; try done. exists buffer. by split_and!.
Qed.

(** A payload handed to the relay reaches the wire as a Send indication for the
    peer, and what the server makes of such an indication (the same attributes in
    a Data indication) comes up at the other end as the same payload, from the
    peer it names. *)
Theorem relay_roundtrip `{CC : CommonCrypto} `{PL : Platform} (s : net) (fd : Z) (host payload a tx : list Z) (port : Z)
    (lu lp ru : list Z) sends recvs
    (Hfd : 0 <= fd) (Ha : inet_pton host = Some a) (Hp : 0 < port < 65536) (Hw : wf_bytes payload)
    (Hne : payload <> []) (Hl : Z.of_nat (length payload) <= 4000) (Hstun : looks_like_stun payload = false) (Hx : is_txid tx) :
  let ind := stun kIos6TurnSendIndication (txid_at (n_random s) (n_draws s))
    [(kIos6AttrXorPeerAddress, xor_address a port); (kIos6AttrData, payload)] in
  let data_ind := stun kIos6TurnDataIndication tx [(kIos6AttrXorPeerAddress, xor_address a port); (kIos6AttrData, payload)] in
  n_sends s = Some (SSent (length ind)) :: sends -> n_recvs s = Some (RData data_ind) :: recvs ->
  (let '(s', (sent, e)) := Ios6TurnSendData s fd host port (Some payload) (length payload) in
   sent = true /\ e = [] /\ n_wire s' = n_wire s ++ [(fd, ind)]) /\
  (let '(s', r) := Ios6TurnReceivePacket s fd (inet_ntop a) port lu lp ru in
   r = ReceiveResult KindTransport false [] (inet_ntop a) port 0 payload /\ n_wire s' = n_wire s).
Proof.
  intros ind data_ind Es Er. pose proof (inet_pton_addr _ _ Ha) as Haddr.
  split.
  - unfold Ios6TurnSendData. rewrite decide_False by lia.
    rewrite decide_False by (intros [->|]; [done|lia]). rewrite decide_False by (by intros []).
    cbn [default]. rewrite firstn_all. unfold make_send_indication. cbn [MakeTransactionId].
    fold (txid_at (n_random s) (n_draws s)).
    rewrite (SendIndication_stun _ _ _ _ a) by (apply txid_at_ok || lia || done). fold ind.
    rewrite decide_False by done. unfold send_call. cbn [n_sends]. rewrite Es. cbn [skip_eintr].
    rewrite decide_False by (intros Hn; by apply Hn). by rewrite firstn_all.
  - unfold Ios6TurnReceivePacket. rewrite decide_False by lia. rewrite (recv_call_data _ _ _ _ Er).
    destruct (indication_attrs kIos6TurnDataIndication tx a port payload Hx Haddr ltac:(lia) Hw ltac:(lia)) as (I1 & I2 & I3).
    fold data_ind in I1, I2.
    set (attrs := [(kIos6AttrXorPeerAddress, xor_address a port); (kIos6AttrData, payload)]) in *.
    assert (wf_bytes data_ind) as Hwd.
    { unfold data_ind, stun. apply stun_with_wf; [assumption|]. unfold attrs.
      repeat apply Forall_cons_2; [| |constructor]; (split; [done|split; [cbn [snd]; try done; lia|]]); [by apply xor_address_wf|done]. }
    destruct (stun_header kIos6TurnDataIndication tx attrs ltac:(done) Hx Hwd) as (T1 & T2 & _).
    fold data_ind in T1, T2.
    assert (Z.of_nat (length data_ind) <= 4096 /\ (20 <= length data_ind)%nat) as [L1 L2].
    { unfold data_ind, stun. rewrite stun_with_length by done.
      assert (body attrs <= 4030) as Hb.
      { unfold attrs. pose proof (body_cons kIos6AttrXorPeerAddress (xor_address a port) [(kIos6AttrData, payload)]).
        pose proof (body_cons kIos6AttrData payload []). change (body []) with 0 in *.
        change (length (xor_address a port)) with 8%nat in *. lia. }
      unfold body in Hb. lia. }
    rewrite take_ge by lia. unfold receive_outer. rewrite decide_False by lia.
    change Ios6Read32 with ReadU32. change Ios6Read16 with ReadU16. change kIos6StunCookie with kStunMagicCookie.
    rewrite T1, T2. rewrite decide_False by (intros Hn; by apply Hn). rewrite decide_False by (intros Hn; by apply Hn).
    unfold indication_peer. rewrite I2, I3. cbn [default id]. rewrite I1, Hstun.
    unfold receive_transport. cbn [r_peerHost r_peerPort].
    rewrite (bool_decide_eq_false_2 (inet_ntop a <> inet_ntop a \/ port <> port)) by (intros [Hn|Hn]; by apply Hn).
    rewrite andb_false_r. cbn [andb]. rewrite decide_False by (by destruct payload). done.
Qed.

Definition demo_relay_net : net :=
  let attrs := [(kIos6AttrXorPeerAddress, xor_address [10; 0; 0; 1] 4000); (kIos6AttrData, [1; 2; 3])] in
  Net (OpenEnv true 5 true 0) [Some (SSent (length (stun kIos6TurnSendIndication (txid_at (fun i => Z.of_nat i) 0) attrs)))]
    [Some (RData (stun kIos6TurnDataIndication demo_txid attrs))] (fun i => Z.of_nat i) 0 [] [].

Lemma relay_roundtrip_witness :
  let '(s', r) := @Ios6TurnReceivePacket toy_crypto toy_platform demo_relay_net 5 (str "10.0.0.1") 4000 [] [] [] in
  r_data r = [1; 2; 3].
Proof.
  pose proof (@relay_roundtrip toy_crypto toy_platform demo_relay_net 5 (str "10.0.0.1") [1; 2; 3] [10; 0; 0; 1] demo_txid 4000
    [] [] [] [] [] ltac:(lia) eq_refl ltac:(lia)) as H.
  assert (wf_bytes [1; 2; 3]) as Hw by (repeat (apply Forall_cons_2; [unfold is_byte; lia|]); constructor).
  destruct (H Hw ltac:(discriminate) ltac:(cbn; lia) eq_refl demo_txid_ok eq_refl eq_refl) as [_ Hr].
  change (inet_ntop [10; 0; 0; 1]) with (str "10.0.0.1") in Hr.
  destruct (@Ios6TurnReceivePacket toy_crypto toy_platform demo_relay_net 5 (str "10.0.0.1") 4000 [] [] []) as [s' r].
  destruct Hr as [-> _]. reflexivity.
Defined.
