(* ===== verification/Ice.v ===== *)
(** * ICE connectivity checks through the relay

    [Ios6TurnIceBindingProbe] of [tgcalls/Ios6TurnClient.cpp]: the loop that
    sends binding requests through the TURN relay, answers the peer's, adds a
    triggered check for every new peer address, and ends with a nomination, an
    error or a timeout. Times are in microseconds (the code keeps milliseconds in
    a [double]). *)

From stdpp Require Import relations.
From S2P Require Import Prelude Inet Stun Turn.

(** ** The environment

    The socket of Turn.v, the clock ([gettimeofday], by the number of readings)
    and the script of [select] results, [None] standing for [EINTR]; the timeouts
    [select] was given are recorded. *)

Inductive select_outcome := SelReady | SelTimeout | SelFail (errno : Z).
Record ice_env := IceEnv {
  i_net : net;
  i_clock : nat -> Z;
  i_ticks : nat;
  i_selects : list (option select_outcome);
  i_waits : list Z
}.

Definition with_net (s : ice_env) (n : net) : ice_env := IceEnv n (i_clock s) (i_ticks s) (i_selects s) (i_waits s).
Definition gettimeofday (s : ice_env) : ice_env * Z :=
  (IceEnv (i_net s) (i_clock s) (S (i_ticks s)) (i_selects s) (i_waits s), i_clock s (i_ticks s)).
Definition select_call (s : ice_env) (wait : Z) : ice_env * select_outcome :=
  let '(r, rest) := skip_eintr SelTimeout (i_selects s) in
  (IceEnv (i_net s) (i_clock s) (i_ticks s) rest (i_waits s ++ [wait]), r).

(** ** The C++ code *)

Record Ios6IceProbeTransaction := Transaction {
  host : list Z; port : Z; txid : list Z; binding : list Z; indication : list Z;
  nextSend : Z; retransmit : Z; sendAttempt : Z; succeeded : bool
}.

(** The parameters of a probe. *)
Record probe_config := Config {
  fd : Z; peerHost : list Z; peerPort : Z; localUfrag : list Z; localPassword : list Z;
  remoteUfrag : list Z; remotePassword : list Z; tieBreaker : Z; controlling : bool; useCandidate : bool
}.
(** The result, [*selectedPeerHost], [*selectedPeerPort] and [*error]. *)
Record probe_outcome := Outcome { o_ok : bool; o_host : list Z; o_port : Z; o_error : list Z }.
Definition failed (e : list Z) : probe_outcome := Outcome false [] 0 e.

Record probe_state := PState { p_env : ice_env; p_transactions : list Ios6IceProbeTransaction; p_ownCheck : bool }.
(** A round of the loop ends with [continue] or [return]. *)
Inductive round_result := Continue (p : probe_state) | Return (s : ice_env) (r : probe_outcome).

Section probe.
Context `{CommonCrypto} `{Platform}.

(** A check of a peer; the time of its first transmission is set by the caller. *)
Definition make_transaction (s : net) (c : probe_config) (peer : list Z) (p : Z) (at_ : Z) : net * Ios6IceProbeTransaction :=
  let '(s, tx) := MakeTransactionId s in
  let request := Ios6MakeIceBindingRequest tx (localUfrag c) (remoteUfrag c) (remotePassword c) (tieBreaker c)
                   (controlling c) (useCandidate c) in
  let '(s, ind) := make_send_indication s peer p request in
  (s, Transaction peer p tx request ind at_ 500000 0 false).

(** The due transmissions, in order. *)
Fixpoint send_due (s : net) (c : probe_config) (now : Z) (ts : list Ios6IceProbeTransaction)
  : net * (list Z + list Ios6IceProbeTransaction) :=
  match ts with
  | [] => (s, inr [])
  | t :: ts =>
      if decide (succeeded t = true \/ 5 <= sendAttempt t \/ now < nextSend t) then
        let '(s, r) := send_due s c now ts in
        (s, match r with inl e => inl e | inr ts => inr (t :: ts) end)
      else
        let '(s, sent) := send_call s (fd c) (indication t) in
        match sent with
        | SFail errno => (s, inl (strerror errno))
        | SSent k =>
            if decide (k <> length (indication t)) then (s, inl (str "short TURN Send Indication send")) else
            let doubled := retransmit t * 2 in
            let t := Transaction (host t) (port t) (txid t) (binding t) (indication t)
                       (now + retransmit t) (if decide (1600000 < doubled) then 1600000 else doubled)
                       (sendAttempt t + 1) (succeeded t) in
            let '(s, r) := send_due s c now ts in
            (s, match r with inl e => inl e | inr ts => inr (t :: ts) end)
        end
  end.

(** When to wake up: the next transmission or the deadline. *)
Definition wake_time (deadline : Z) (ts : list Ios6IceProbeTransaction) : Z :=
  foldl (fun wake t =>
    if decide (succeeded t = false /\ sendAttempt t < 5 /\ nextSend t < wake) then nextSend t else wake) deadline ts.

Fixpoint find_index (f : Ios6IceProbeTransaction -> bool) (ts : list Ios6IceProbeTransaction) : option nat :=
  match ts with
  | [] => None
  | t :: ts => if f t then Some 0%nat else option_map S (find_index f ts)
  end.

(** [usernameOk && integrityOk] *)
Definition incoming_ok (c : probe_config) (dataValue : list Z) : bool :=
  let incomingUsername := default [] (attr_value dataValue kIos6AttrUsername) in
  let expectedUsername := localUfrag c ++ str ":" ++ remoteUfrag c in
  let usernameOk := bool_decide (incomingUsername = expectedUsername) in
  usernameOk && Ios6VerifyShortTermIntegrity dataValue (localPassword c).

(** After the answer, when it does not end the probe: send to that peer at once,
    or add a check of it. *)
Definition trigger_check (p : probe_state) (c : probe_config) (peer : list Z) (pport : Z) : probe_state :=
  let s := p_env p in
  let ts := p_transactions p in
  match find_index (fun t => bool_decide (host t = peer /\ port t = pport)) ts with
  | Some i =>
      match ts !! i with
      | Some t =>
          if succeeded t then p else
          let '(s, now) := gettimeofday s in
          PState s (<[i := Transaction (host t) (port t) (txid t) (binding t) (indication t) now (retransmit t)
                             (sendAttempt t) (succeeded t)]> ts) (p_ownCheck p)
      | None => p
      end
  | None =>
      match inet_pton peer with
      | None => p
      | Some _ =>
          if decide (pport = 0) then p else
          let '(n, triggered) := make_transaction (i_net s) c peer pport 0 in
          let '(s, now) := gettimeofday (with_net s n) in
          let triggered := Transaction (host triggered) (port triggered) (txid triggered) (binding triggered)
            (indication triggered) now (retransmit triggered) (sendAttempt triggered) (succeeded triggered) in
          PState s (if decide (indication triggered <> []) then ts ++ [triggered] else ts) (p_ownCheck p)
      end
  end.

(** A binding request of the peer. *)
Definition incoming_request (p : probe_state) (c : probe_config) (peer : list Z) (pport : Z) (dataValue : list Z) : round_result :=
  if negb (incoming_ok c dataValue) then Continue p else
  let bindingResponse := Ios6MakeIceBindingSuccessResponse (slice dataValue 8 12) peer pport (localPassword c) in
  if decide (bindingResponse = []) then Continue p else
  let '(n, turnResponse) := make_send_indication (i_net (p_env p)) peer pport bindingResponse in
  let p := PState (with_net (p_env p) n) (p_transactions p) (p_ownCheck p) in
  if decide (turnResponse = []) then Continue p else
  let '(n, sent) := send_call n (fd c) turnResponse in
  let p := PState (with_net (p_env p) n) (p_transactions p) (p_ownCheck p) in
  let complete := match sent with SSent k => bool_decide (k = length turnResponse) | SFail _ => false end in
  if negb complete then Continue p else
  let hasUseCandidate := bool_decide (Ios6FindAttribute dataValue kIos6AttrUseCandidate <> None) in
  let peerControlling := bool_decide (Ios6FindAttribute dataValue kIos6AttrIceControlling <> None) in
  if negb (controlling c) && peerControlling && hasUseCandidate
  then Return (p_env p) (Outcome true peer pport [])
  else Continue (trigger_check p c peer pport).

(** An answer to one of the transactions. *)
Definition incoming_response (p : probe_state) (c : probe_config) (peer : list Z) (pport : Z) (dataValue : list Z)
    (innerType : Z) (i : nat) (matching : Ios6IceProbeTransaction) : round_result :=
  if decide (peer <> host matching \/ pport <> port matching) then Continue p else
  if decide (innerType = kIos6StunBindingSuccess) then
    if negb (Ios6VerifyShortTermIntegrity dataValue (remotePassword c)) then Continue p else
    let done := Transaction (host matching) (port matching) (txid matching) (binding matching) (indication matching)
                  (nextSend matching) (retransmit matching) (sendAttempt matching) true in
    let p := PState (p_env p) (<[i := done]> (p_transactions p)) true in
    if controlling c then Return (p_env p) (Outcome true (host matching) (port matching) []) else Continue p
  else if decide (innerType = kIos6StunBindingError) then
    Return (p_env p) (failed (str "ICE Binding error " ++ dec (Ios6ParseStunErrorCode dataValue)))
  else Continue p.

(** A received datagram. *)
Definition handle_datagram (p : probe_state) (c : probe_config) (buffer : list Z) : round_result :=
  if decide (length buffer < 20)%nat then Continue p else
  if decide (Ios6Read32 buffer 4 <> kIos6StunCookie) then Continue p else
  if decide (Ios6Read16 buffer 0 <> kIos6TurnDataIndication) then Continue p else
  let '(peer, pport) := indication_peer buffer (peerHost c) (peerPort c) in
  match attr_value buffer kIos6AttrData with
  | None => Continue p
  | Some dataValue =>
      if decide (length dataValue < 20)%nat then Continue p else
      if decide (Ios6Read32 dataValue 4 <> kIos6StunCookie) then Continue p else
      let innerType := Ios6Read16 dataValue 0 in
      let matchingIndex := find_index (fun t => bool_decide (slice dataValue 8 12 = txid t)) (p_transactions p) in
      if decide (innerType = kIos6StunBindingRequest) then incoming_request p c peer pport dataValue else
      match matchingIndex with
      | None => Continue p
      | Some i =>
          match p_transactions p !! i with
          | Some matching => incoming_response p c peer pport dataValue innerType i matching
          | None => Continue p
          end
      end
  end.

(** One turn of the loop; [None] is the break at the deadline. *)
Definition probe_round (p : probe_state) (c : probe_config) (deadline : Z) : option round_result :=
  let '(s, now) := gettimeofday (p_env p) in
  if decide (deadline <= now) then None else Some (
  let '(n, r) := send_due (i_net s) c now (p_transactions p) in
  let s := with_net s n in
  match r with
  | inl e => Return s (failed e)
  | inr ts =>
      let '(s, beforeWait) := gettimeofday s in
      let wait := wake_time deadline ts - beforeWait in
      let wait := if decide (wait < 0) then 0 else wait in
      let '(s, ready) := select_call s wait in
      match ready with
      | SelFail errno => Return s (failed (strerror errno))
      | SelTimeout => Continue (PState s ts (p_ownCheck p))
      | SelReady =>
          let '(n, received) := recv_call (i_net s) (fd c) in
          let p := PState (with_net s n) ts (p_ownCheck p) in
          match received with
          | RAgain => Continue p
          | RFail errno => Return (p_env p) (failed (strerror errno))
          | RData buffer => handle_datagram p c buffer
          end
      end
  end).

(** [while (true)]; [None] when the fuel runs out. *)
Fixpoint probe_loop (fuel : nat) (p : probe_state) (c : probe_config) (deadline : Z) : option (ice_env * probe_outcome) :=
  match fuel with
  | O => None
  | S fuel =>
      match probe_round p c deadline with
      | None =>
          Some (p_env p, failed (if negb (controlling c) && p_ownCheck p
            then str "ICE connectivity succeeded but nomination timed out"
            else str "ICE Binding transaction timed out"))
      | Some (Return s r) => Some (s, r)
      | Some (Continue p) => probe_loop fuel p c deadline
      end
  end.

Definition Ios6TurnIceBindingProbe (fuel : nat) (s : ice_env) (c : probe_config) : option (ice_env * probe_outcome) :=
  if decide (fd c < 0) then Some (s, failed (str "TURN socket is not open")) else
  if decide (peerHost c = [] \/ peerPort c = 0) then Some (s, failed (str "peer address missing")) else
  if decide (localUfrag c = [] \/ localPassword c = [] \/ remoteUfrag c = [] \/ remotePassword c = [])
  then Some (s, failed (str "ICE credentials missing")) else
  match inet_pton (peerHost c) with
  | None => Some (s, failed (str "ICE peer is not numeric IPv4"))
  | Some _ =>
      let '(s, started) := gettimeofday s in
      let deadline := started + 7000000 in
      let '(n, initial) := make_transaction (i_net s) c (peerHost c) (peerPort c) started in
      let s := with_net s n in
      if decide (indication initial = []) then Some (s, failed (str "failed to build TURN Send Indication")) else
      probe_loop fuel (PState s [initial] false) c deadline
  end.

End probe.

(** ** The invariant of the loop *)

(** The loop's states, reachable from the start of a probe. *)
Definition probe_step `{CommonCrypto} `{Platform} (c : probe_config) (deadline : Z) (p p' : probe_state) : Prop :=
  probe_round p c deadline = Some (Continue p').
Definition probe_start `{CommonCrypto} (s : ice_env) (c : probe_config) : probe_state * Z :=
  let '(s, started) := gettimeofday s in
  let '(n, initial) := make_transaction (i_net s) c (peerHost c) (peerPort c) started in
  (PState (with_net s n) [initial] false, started + 7000000).

(** The datagrams among some results of [recv]. *)
Definition is_data (r : option recv_outcome) : bool := match r with Some (RData _) => true | _ => false end.
Definition arrivals (l : list (option recv_outcome)) : nat := length (filter (fun r => is_data r = true) l).
Lemma arrivals_app l l' : arrivals (l ++ l') = (arrivals l + arrivals l')%nat.
Proof. unfold arrivals. by rewrite filter_app, length_app. Qed.

Lemma send_call_spec s f data : let '(s', r) := send_call s f data in
  n_recvs s' = n_recvs s /\ n_wire s' = n_wire s ++ match r with SSent k => [(f, take k data)] | SFail _ => [] end.
Proof. unfold send_call. destruct (skip_eintr _ _) as [[k|e] rest]; cbn; [done|]. by rewrite app_nil_r. Qed.

Section invariant.
Context `{CommonCrypto} `{Platform}.
(** The parameters and the socket at the start of the probe. *)
Variables (c : probe_config) (n0 : net).
Abbreviation random := (n_random n0).

Definition net_ok (n : net) : Prop := n_random n = random /\ n_closed n = n_closed n0.

Lemma sends_ok f k n n' : sends_only f k n n' -> net_ok n -> net_ok n'.
Proof. intros [C _ R _ _ _] [Hr Hc]. split; congruence. Qed.

(** A check: a binding request of ours wrapped for its peer, at most five
    transmissions, the interval between half a second and 1.6 seconds. *)
Record transaction_ok (t : Ios6IceProbeTransaction) : Prop := {
  t_attempts : 0 <= sendAttempt t <= 5;
  t_interval : 500000 <= retransmit t <= 1600000;
  t_txid : exists k, txid t = txid_at random k;
  t_binding : binding t = Ios6MakeIceBindingRequest (txid t) (localUfrag c) (remoteUfrag c) (remotePassword c)
    (tieBreaker c) (controlling c) (useCandidate c);
  t_indication : exists k, indication t = Ios6MakeTurnSendIndication (txid_at random k) (host t) (port t) (binding t);
  t_peer : inet_pton (host t) <> None /\ port t <> 0
}.

Definition key (t : Ios6IceProbeTransaction) : list Z * Z := (host t, port t).
(** What identifies a check, and never changes. *)
Definition identity (t : Ios6IceProbeTransaction) : list Z * Z * list Z * list Z := (key t, txid t, indication t).

(** The transmissions of some checks, in the order of the checks: every check whole,
    as often as it counts. *)
Definition repeats (t : Ios6IceProbeTransaction) : list (Z * list Z) := replicate (Z.to_nat (sendAttempt t)) (fd c, indication t).
Definition transmissions (ts : list Ios6IceProbeTransaction) : list (Z * list Z) := concat (map repeats ts).
(** The answer to a binding request, as far as it went. *)
Definition answer (d : Z * list Z) : Prop :=
  exists j k id peer pport, d = (fd c, take j (Ios6MakeTurnSendIndication (txid_at random k) peer pport
    (Ios6MakeIceBindingSuccessResponse id peer pport (localPassword c)))).
(** What the probe has put on the wire, in some order: the transmissions of its checks
    and answers, [k] fewer than the datagrams it has received. *)
Definition wire_ok (k : nat) (n : net) (ts : list Ios6IceProbeTransaction) : Prop :=
  exists h answers taken, n_wire n = n_wire n0 ++ h /\ h ≡ₚ transmissions ts ++ answers /\ Forall answer answers /\
    n_recvs n0 = taken ++ n_recvs n /\ (length answers + k <= arrivals taken)%nat.

(** One check per peer address, and nothing on the wire but the transmissions they
    count and answers to datagrams received, [k] fewer than those. *)
Record probe_ok (k : nat) (p : probe_state) : Prop := {
  p_net : net_ok (i_net (p_env p));
  p_checks : Forall transaction_ok (p_transactions p);
  p_peers : NoDup (map key (p_transactions p));
  p_wire : wire_ok k (i_net (p_env p)) (p_transactions p)
}.

Lemma wire_ok_le k j n ts : wire_ok k n ts -> (j <= k)%nat -> wire_ok j n ts.
Proof. intros (h & a & taken & W & P & A & R & L) Hj. exists h, a, taken. split_and!; try done. lia. Qed.
Lemma wire_ok_same k n n' ts ts' : wire_ok k n ts -> n_wire n' = n_wire n -> n_recvs n' = n_recvs n -> transmissions ts' = transmissions ts -> wire_ok k n' ts'.
Proof. intros (h & a & taken & W & P & A & R & L) Ew Er Et. exists h, a, taken. rewrite Ew, Er, Et. by split_and!. Qed.
Lemma wire_ok_sent k n n' ts ts' h : wire_ok k n ts -> n_wire n' = n_wire n ++ h -> n_recvs n' = n_recvs n ->
  transmissions ts' ≡ₚ transmissions ts ++ h -> wire_ok k n' ts'.
Proof.
  intros (h0 & a & taken & W & P & A & R & L) Ew Er Et. exists (h0 ++ h), a, taken. rewrite Ew, W, <- app_assoc, Er. split; [done|].
  split; [|by split_and!]. rewrite P, Et, <- !app_assoc. by rewrite (Permutation_app_comm a h).
Qed.
Lemma wire_ok_answered k n n' ts l : wire_ok (S k) n ts -> n_wire n' = n_wire n ++ l -> n_recvs n' = n_recvs n -> (length l <= 1)%nat ->
  Forall answer l -> wire_ok k n' ts.
Proof.
  intros (h0 & a & taken & W & P & A & R & L) Ew Er Hl Ha. exists (h0 ++ l), (a ++ l), taken. rewrite Ew, W, <- app_assoc, Er. split; [done|].
  split; [by rewrite P, <- app_assoc|]. split; [by apply Forall_app|]. split; [done|]. rewrite length_app. lia.
Qed.
Lemma wire_ok_received k n n' ts buffer : wire_ok k n ts -> n_wire n' = n_wire n -> received n n' buffer -> wire_ok (S k) n' ts.
Proof.
  intros (h & a & taken & W & P & A & R & L) Ew (j & raw & Er & _). exists h, a, (taken ++ replicate j None ++ [Some (RData raw)]).
  rewrite Ew. split; [done|]. split; [done|]. split; [done|]. split; [by rewrite R, Er, <- !app_assoc|].
  rewrite !arrivals_app. change (arrivals [Some (RData raw)]) with 1%nat. lia.
Qed.
Lemma wire_ok_drop k n n' ts : wire_ok k n ts -> n_wire n' = n_wire n -> n_recvs n' `suffix_of` n_recvs n -> wire_ok k n' ts.
Proof.
  intros (h & a & taken & W & P & A & R & L) Ew (l & Er). exists h, a, (taken ++ l). rewrite Ew. split; [done|]. split; [done|].
  split; [done|]. split; [by rewrite R, Er, <- app_assoc|]. rewrite arrivals_app. lia.
Qed.
Lemma probe_ok_le k j p : probe_ok k p -> (j <= k)%nat -> probe_ok j p.
Proof. intros [P1 P2 P3 P4] Hj. split; [done..|by apply (wire_ok_le k)]. Qed.

Lemma transmissions_app ts ts' : transmissions (ts ++ ts') = transmissions ts ++ transmissions ts'.
Proof. unfold transmissions. by rewrite map_app, concat_app. Qed.
Lemma transmissions_insert ts i t t' : ts !! i = Some t -> repeats t' = repeats t -> transmissions (<[i := t']> ts) = transmissions ts.
Proof.
  intros Hi Hr. unfold transmissions. f_equal. change (map repeats) with (fmap (M := list) repeats). rewrite list_fmap_insert, Hr.
  rewrite list_insert_id; [done|]. by rewrite list_lookup_fmap, Hi.
Qed.

Lemma make_transaction_ok n peer pt at_ : net_ok n -> inet_pton peer <> None -> pt <> 0 ->
  let '(n', t) := make_transaction n c peer pt at_ in
  net_ok n' /\ n_wire n' = n_wire n /\ n_recvs n' = n_recvs n /\ transaction_ok t /\ key t = (peer, pt) /\ sendAttempt t = 0.
Proof.
  intros [Hr Hc] Hp Hpt. unfold make_transaction, make_send_indication. cbn [MakeTransactionId].
  split; [split; assumption|]. split; [done|]. split; [done|]. split; [|split; reflexivity].
  split; cbn [host port txid binding indication sendAttempt retransmit].
  - lia.
  - lia.
  - exists (n_draws n). rewrite <- Hr. reflexivity.
  - reflexivity.
  - exists (S (S (S (n_draws n)))). rewrite <- Hr. reflexivity.
  - split; assumption.
Qed.

(** The due checks leave whole, and are counted. *)
Lemma send_due_ok now ts : forall n, net_ok n -> Forall transaction_ok ts ->
  let '(n', r) := send_due n c now ts in
  net_ok n' /\ n_recvs n' = n_recvs n /\ forall ts', r = inr ts' -> Forall transaction_ok ts' /\ map identity ts' = map identity ts /\
    exists h, n_wire n' = n_wire n ++ h /\ transmissions ts' ≡ₚ transmissions ts ++ h.
Proof.
  induction ts as [|t ts IH]; intros n Hn Hts; cbn [send_due].
  { split; [done|]. split; [done|]. intros ? [= <-]. split; [done|]. split; [done|]. exists []. by rewrite app_nil_r. }
  apply Forall_cons in Hts as [Ht Hts].
  assert (forall n1 t1 h1, net_ok n1 -> n_recvs n1 = n_recvs n -> n_wire n1 = n_wire n ++ h1 -> transaction_ok t1 -> identity t1 = identity t ->
    repeats t1 ≡ₚ repeats t ++ h1 ->
    let '(s, r) := (let '(s, r) := send_due n1 c now ts in (s, match r with inl e => inl e | inr ts => inr (t1 :: ts) end)) in
    net_ok s /\ n_recvs s = n_recvs n /\ forall ts', r = inr ts' -> Forall transaction_ok ts' /\ map identity ts' = map identity (t :: ts) /\
      exists h, n_wire s = n_wire n ++ h /\ transmissions ts' ≡ₚ transmissions (t :: ts) ++ h) as Hnext.
  { intros n1 t1 h1 Hn1 Hv1 Hw1 Ht1 Hk Hr1. specialize (IH n1 Hn1 Hts). destruct (send_due n1 c now ts) as [n2 [e|ts2]]; destruct IH as (I1 & I2 & I3).
    - split; [done|]. by split; [congruence|].
    - split; [done|]. split; [congruence|]. intros ? [= <-]. destruct (I3 ts2 eq_refl) as (J1 & J2 & h & J3 & J4). split; [by apply Forall_cons_2|].
      split; [cbn [map]; by rewrite Hk, J2|]. exists (h1 ++ h). split; [by rewrite J3, Hw1, <- app_assoc|].
      unfold transmissions in *. cbn [map concat]. rewrite Hr1, J4, <- !app_assoc. apply Permutation_app_head.
      rewrite !app_assoc. apply Permutation_app_tail, Permutation_app_comm. }
  destruct (decide (succeeded t = true \/ 5 <= sendAttempt t \/ now < nextSend t)) as [Hskip|Hdue];
    [by apply (Hnext n t []); rewrite ?app_nil_r|].
  pose proof (sends_ok _ _ _ _ (send_call_sends n (fd c) (indication t)) Hn) as Hn1. pose proof (send_call_spec n (fd c) (indication t)) as Hs.
  destruct (send_call n (fd c) (indication t)) as [n1 [k|errno]]; destruct Hs as [Hv Hw]; [|by split].
  case_decide as Hk; [by split|]. subst k. rewrite firstn_all in Hw. apply (Hnext n1 _ [(fd c, indication t)]); [done|done|done| |done|].
  - destruct Ht as [T1 T2 T3 T4 T5 T6].
    split; cbn [host port txid binding indication sendAttempt retransmit]; try assumption; [lia|case_decide; lia].
  - unfold repeats. cbn [sendAttempt indication]. pose proof (t_attempts t Ht). rewrite Z2Nat.inj_add, Nat.add_1_r by lia.
    rewrite <- replicate_S_end. done.
Qed.

(** Why a probe may report success, given the socket before the last datagram, the
    checks there are and where the probe ended: the datagram is a Data indication of
    the TURN server that names the peer, and its data is a STUN message. For a
    controlling agent that is a success response that verifies under the remote
    password and answers a check of that peer; for a controlled one a request that
    verifies under the local password, names both user fragments and nominates, and
    that has just been answered. *)
Definition evidence (before : net) (ts : list Ios6IceProbeTransaction) (s : ice_env) (r : probe_outcome) : Prop :=
  exists buffer data, received before (i_net s) buffer /\ data_indication buffer data /\
  indication_peer buffer (peerHost c) (peerPort c) = (o_host r, o_port r) /\
  (20 <= length data)%nat /\ Ios6Read32 data 4 = kIos6StunCookie /\
  if controlling c then
    Ios6Read16 data 0 = kIos6StunBindingSuccess /\ Ios6VerifyShortTermIntegrity data (remotePassword c) = true /\
    (exists t, t ∈ ts /\ transaction_ok t /\ key t = (o_host r, o_port r) /\ slice data 8 12 = txid t)
  else
    Ios6Read16 data 0 = kIos6StunBindingRequest /\ Ios6VerifyShortTermIntegrity data (localPassword c) = true /\
    attr_value data kIos6AttrUsername = Some (localUfrag c ++ str ":" ++ remoteUfrag c) /\
    Ios6FindAttribute data kIos6AttrUseCandidate <> None /\ Ios6FindAttribute data kIos6AttrIceControlling <> None /\
    (exists h k, n_wire (i_net s) = h ++ [(fd c, Ios6MakeTurnSendIndication (txid_at random k) (o_host r) (o_port r)
       (Ios6MakeIceBindingSuccessResponse (slice data 8 12) (o_host r) (o_port r) (localPassword c)))]).

Definition outcome_ok (before : net) (ts : list Ios6IceProbeTransaction) (s : ice_env) (r : probe_outcome) : Prop :=
  if o_ok r then o_error r = [] /\ evidence before ts s r else o_host r = [] /\ o_port r = 0.

(** What a round may do: keep the invariant and let time pass, or return. *)
Definition round_ok (before : net) (ts : list Ios6IceProbeTransaction) (ticks : nat) (x : round_result) : Prop :=
  match x with
  | Continue p => probe_ok 0 p /\ (ticks <= i_ticks (p_env p))%nat
  | Return s r => net_ok (i_net s) /\ outcome_ok before ts s r
  end.

Lemma find_index_some f ts : forall i, find_index f ts = Some i -> exists t, ts !! i = Some t /\ f t = true.
Proof.
  induction ts as [|t ts IH]; intros i; cbn [find_index]; [done|]. destruct (f t) eqn:E.
  - intros [= <-]. by exists t.
  - destruct (find_index f ts) as [j|]; [|done]. intros [= <-]. destruct (IH j eq_refl) as (u & Hu & Hf). by exists u.
Qed.
Lemma find_index_none f ts : find_index f ts = None -> Forall (fun t => f t = false) ts.
Proof.
  induction ts as [|t ts IH]; cbn [find_index]; [constructor|]. destruct (f t) eqn:E; [done|].
  destruct (find_index f ts); [done|]. intros _. apply Forall_cons_2; [done|by apply IH].
Qed.

(** Replacing a check by one of the same peer that was sent as often. *)
Lemma replace_check k env ts own i t t' : probe_ok k (PState env ts own) -> ts !! i = Some t -> transaction_ok t' -> key t' = key t ->
  repeats t' = repeats t -> forall env' own', i_net env' = i_net env -> probe_ok k (PState env' (<[i:=t']> ts) own').
Proof.
  intros [P1 P2 P3 P4] Hi Ht Hk Hr env' own' En. cbn in *. split; cbn; rewrite ?En; [done|by apply Forall_insert| |].
  - change (map key) with (fmap (M := list) key). rewrite list_fmap_insert, Hk.
    rewrite list_insert_id; [done|]. by rewrite list_lookup_fmap, Hi.
  - eapply wire_ok_same; [exact P4|done|done|]. by apply (transmissions_insert _ _ t).
Qed.

Lemma trigger_check_ok k p peer pt : probe_ok k p ->
  probe_ok k (trigger_check p c peer pt) /\ (i_ticks (p_env p) <= i_ticks (p_env (trigger_check p c peer pt)))%nat.
Proof.
  intros Hp. destruct p as [env ts own]. unfold trigger_check. cbn [p_env p_transactions p_ownCheck].
  pose proof Hp as [P1 P2 P3 P4]. cbn in P1, P2, P3, P4.
  destruct (find_index _ ts) as [i|] eqn:Ei.
  - destruct (find_index_some _ _ _ Ei) as (t & Ht & _). rewrite Ht. destruct (succeeded t); [done|].
    cbn [gettimeofday p_env i_ticks]. split; [|lia]. eapply replace_check; [exact Hp|exact Ht| |done|done|done].
    destruct (Forall_lookup_1 _ _ _ _ P2 Ht) as [T1 T2 T3 T4 T5 T6]. split; assumption.
  - destruct (inet_pton peer) eqn:Ea; [|done]. case_decide as Hpt; [done|].
    pose proof (make_transaction_ok (i_net env) peer pt 0 P1 ltac:(congruence) Hpt) as Hm.
    destruct (make_transaction (i_net env) c peer pt 0) as [n t]. destruct Hm as (M1 & Mw & Mr & M2 & M3 & M4).
    cbn [gettimeofday with_net p_env i_ticks i_net i_clock i_selects i_waits]. split; [|cbn; lia].
    split; cbn; [done|..]; (case_decide; [|try done; by apply (wire_ok_same k (i_net env) _ ts)]).
    + apply Forall_app_2; [done|]. apply Forall_cons_2; [|constructor]. destruct M2 as [T1 T2 T3 T4 T5 T6]. split; assumption.
    + rewrite map_app. apply NoDup_app. split; [done|]. split; [|apply NoDup_singleton].
      intros x Hx Hin. cbn [map] in Hin. apply list_elem_of_singleton in Hin as ->.
      apply find_index_none in Ei. apply list_elem_of_fmap in Hx as (u & Hu & Hin).
      rewrite Forall_forall in Ei. specialize (Ei u Hin). apply bool_decide_eq_false in Ei. apply Ei.
      unfold key in Hu, M3. cbn in Hu. injection Hu as <- <-. by injection M3.
    + apply (wire_ok_same k (i_net env) _ ts); [done|done|done|]. rewrite transmissions_app. unfold transmissions at 2, repeats. cbn.
      rewrite M4. by rewrite app_nil_r.
Qed.

Lemma continue_ok before ts k p : probe_ok k p -> round_ok before ts (i_ticks (p_env p)) (Continue p).
Proof. intros Hp. split; [by apply (probe_ok_le k); [|lia]|done]. Qed.

Lemma incoming_request_ok before p peer pt buffer data : probe_ok 1 p -> received before (i_net (p_env p)) buffer -> data_indication buffer data ->
  indication_peer buffer (peerHost c) (peerPort c) = (peer, pt) -> (20 <= length data)%nat -> Ios6Read32 data 4 = kIos6StunCookie ->
  Ios6Read16 data 0 = kIos6StunBindingRequest ->
  round_ok before (p_transactions p) (i_ticks (p_env p)) (incoming_request p c peer pt data).
Proof.
  intros Hp Hrecv Hdi Hpeer Hlen Hck Htype. unfold incoming_request. destruct (incoming_ok c data) eqn:Eok; cbn [negb]; [|by apply (continue_ok _ _ 1)].
  set (response := Ios6MakeIceBindingSuccessResponse _ _ _ _). case_decide; [by apply (continue_ok _ _ 1)|].
  destruct p as [env ts own]. pose proof Hp as [P1 P2 P3 P4]. cbn [p_env p_transactions p_ownCheck] in *.
  unfold make_send_indication. cbn [MakeTransactionId]. fold (txid_at (n_random (i_net env)) (n_draws (i_net env))).
  set (n1 := Net _ _ _ _ _ _ _). rewrite (proj1 P1). set (ind := Ios6MakeTurnSendIndication _ _ _ _).
  assert (net_ok n1) as Hn1 by exact P1.
  assert (wire_ok 1 n1 ts) as Hw1 by (by apply (wire_ok_same 1 (i_net env) _ ts)).
  case_decide; [refine (continue_ok _ _ 1 (PState (with_net env n1) ts own) _); by split|].
  pose proof (sends_ok _ _ _ _ (send_call_sends n1 (fd c) ind) Hn1) as Hn2. pose proof (send_call_spec n1 (fd c) ind) as Hs.
  destruct (send_call n1 (fd c) ind) as [n2 sent]. cbn [fst] in Hn2. destruct Hs as [Hv2 Hw2].
  assert (wire_ok 0 n2 ts) as Hok2.
  { eapply (wire_ok_answered 0 n1); [exact Hw1|exact Hw2|exact Hv2|by destruct sent; cbn; lia|].
    destruct sent as [j|]; [|constructor]. apply Forall_cons_2; [|constructor]. by exists j, (n_draws (i_net env)), (slice data 8 12), peer, pt. }
  assert (probe_ok 0 (PState (with_net (with_net env n1) n2) ts own)) as Hp2 by (by split).
  destruct sent as [j|errno]; [|exact (continue_ok _ _ 0 _ Hp2)]. destruct (bool_decide (j = length ind)) eqn:Ej; cbn [negb]; [|exact (continue_ok _ _ 0 _ Hp2)].
  apply bool_decide_eq_true in Ej as ->. rewrite firstn_all in Hw2.
  destruct (negb (controlling c) && _ && _) eqn:Ed; [|exact (trigger_check_ok 0 _ peer pt Hp2)].
  apply andb_true_iff in Ed as [Ed Huc]. apply andb_true_iff in Ed as [Hc Hpc].
  apply bool_decide_eq_true in Huc, Hpc. apply negb_true_iff in Hc.
  split; [done|]. unfold outcome_ok. cbn [o_ok o_error]. split; [done|]. exists buffer, data. rewrite Hc. cbn [o_host o_port].
  split; [destruct Hrecv as (m & raw & E1 & E2); exists m, raw; split; [|exact E2]; cbn; rewrite Hv2; exact E1|].
  unfold incoming_ok in Eok. apply andb_true_iff in Eok as [Eu Ev]. apply bool_decide_eq_true in Eu.
  split_and!; try assumption.
  - revert Eu. destruct (attr_value data kIos6AttrUsername) as [u|]; cbn [default id]; [by intros ->|]. by destruct (localUfrag c).
  - exists (n_wire n1), (n_draws (i_net env)). exact Hw2.
Qed.

Lemma incoming_response_ok before p peer pt buffer data i t : probe_ok 1 p -> received before (i_net (p_env p)) buffer -> data_indication buffer data ->
  indication_peer buffer (peerHost c) (peerPort c) = (peer, pt) -> (20 <= length data)%nat -> Ios6Read32 data 4 = kIos6StunCookie ->
  p_transactions p !! i = Some t -> slice data 8 12 = txid t ->
  round_ok before (p_transactions p) (i_ticks (p_env p)) (incoming_response p c peer pt data (Ios6Read16 data 0) i t).
Proof.
  intros Hp Hrecv Hdi Hpeer Hlen Hck Hi Hx. unfold incoming_response. case_decide as Hsame; [by apply (continue_ok _ _ 1)|].
  case_decide as Ht.
  - destruct (Ios6VerifyShortTermIntegrity data (remotePassword c)) eqn:Ev; cbn [negb]; [|by apply (continue_ok _ _ 1)].
    pose proof (Forall_lookup_1 _ _ _ _ (p_checks _ _ Hp) Hi) as Htr. pose proof Htr as [T1 T2 T3 T4 T5 T6].
    set (t' := Transaction _ _ _ _ _ _ _ _ _).
    assert (probe_ok 1 (PState (p_env p) (<[i:=t']> (p_transactions p)) true)) as Hp'.
    { destruct p as [env ts own]. eapply (replace_check 1 env ts own); [exact Hp|exact Hi|split; assumption|done|done|done]. }
    destruct (controlling c) eqn:Ec; [|exact (continue_ok _ _ 1 _ Hp')].
    split; [apply Hp|]. unfold outcome_ok. cbn [o_ok o_error o_host o_port]. split; [done|]. exists buffer, data. rewrite Ec.
    cbn [o_host o_port p_env]. assert (peer = host t /\ pt = port t) as [-> ->] by (split; apply dec_stable; tauto).
    split_and!; try assumption. exists t. split; [by eapply list_elem_of_lookup_2|]. by split_and!.
  - case_decide; [|by apply (continue_ok _ _ 1)]. split; [apply Hp|done].
Qed.

Lemma handle_datagram_ok before p buffer : probe_ok 1 p -> received before (i_net (p_env p)) buffer ->
  round_ok before (p_transactions p) (i_ticks (p_env p)) (handle_datagram p c buffer).
Proof.
  intros Hp Hrecv. unfold handle_datagram. case_decide as Hl0; [by apply (continue_ok _ _ 1)|]. case_decide as Hck0; [by apply (continue_ok _ _ 1)|].
  case_decide as Hty0; [by apply (continue_ok _ _ 1)|].
  destruct (indication_peer _ _ _) as [peer pt] eqn:Ep. destruct (attr_value buffer kIos6AttrData) as [data|] eqn:Ea; [|by apply (continue_ok _ _ 1)].
  assert (data_indication buffer data) as Hdi by (split_and!; [lia|done|done|done]).
  case_decide as Hl; [by apply (continue_ok _ _ 1)|]. case_decide as Hck; [by apply (continue_ok _ _ 1)|].
  case_decide as Ht.
  - eapply incoming_request_ok; [done|done|exact Hdi|done|lia|done|done].
  - destruct (find_index _ (p_transactions p)) as [i|] eqn:Ei; [|by apply (continue_ok _ _ 1)].
    destruct (find_index_some _ _ _ Ei) as (t & Hi & Hx). rewrite Hi. apply bool_decide_eq_true in Hx.
    eapply incoming_response_ok; [done|done|exact Hdi|done|lia|done|done|done].
Qed.

(** The evidence holds of the checks as they were before the transmissions. *)
Lemma outcome_before before before' ts ts' s r : Forall transaction_ok ts -> map identity ts' = map identity ts -> n_recvs before = n_recvs before' ->
  outcome_ok before ts' s r -> outcome_ok before' ts s r.
Proof.
  intros Hts Hm Eb. unfold outcome_ok. destruct (o_ok r); [|done]. intros [He (buffer & data & Hv & Hrest)]. split; [done|].
  exists buffer, data. split; [unfold received in *; by rewrite <- Eb|]. destruct (controlling c); [|exact Hrest].
  destruct Hrest as (A & B & C & D & E & F & t & Ht & _ & Hk & Hx). split_and!; try done.
  assert (identity t ∈ map identity ts) as Hin by (rewrite <- Hm; by apply list_elem_of_fmap_2).
  apply list_elem_of_fmap in Hin as (t0 & E0 & Hin). exists t0. split; [done|]. rewrite Forall_forall in Hts.
  split; [by apply Hts|]. unfold identity in E0. injection E0 as K1 K2 K3 K4. unfold key in *. split; congruence.
Qed.
Lemma map_identity_key ts ts' : map identity ts' = map identity ts -> map key ts' = map key ts.
Proof. intros E. apply (f_equal (map (fun x => x.1.1))) in E. by rewrite !map_map in E. Qed.

(** Every round that does not end at the deadline takes the invariant to the
    invariant, with at least one more reading of the clock. *)
Lemma probe_round_ok p deadline : probe_ok 0 p ->
  match probe_round p c deadline with
  | None => deadline <= i_clock (p_env p) (i_ticks (p_env p))
  | Some x => i_clock (p_env p) (i_ticks (p_env p)) < deadline /\ round_ok (i_net (p_env p)) (p_transactions p) (S (i_ticks (p_env p))) x
  end.
Proof.
  intros [P1 P2 P3 P4]. unfold probe_round. cbn [gettimeofday]. case_decide as Hd; [done|]. split; [lia|].
  cbn [i_net i_clock i_ticks i_selects i_waits]. set (now := i_clock _ _).
  pose proof (send_due_ok now (p_transactions p) (i_net (p_env p)) P1 P2) as Hs.
  destruct (send_due _ c now (p_transactions p)) as [n [e|ts]]; destruct Hs as (Hn & Hv & Hts); [by split|].
  destruct (Hts ts eq_refl) as (Hok & Hids & h & Hw & Hp).
  pose proof (wire_ok_sent 0 _ n _ ts h P4 Hw Hv Hp) as Hwire.
  assert (NoDup (map key ts)) as Hkeys by (by rewrite (map_identity_key _ _ Hids)).
  cbn [with_net i_net i_clock i_ticks i_selects i_waits]. unfold select_call. cbn [i_net i_clock i_ticks i_selects i_waits].
  destruct (skip_eintr SelTimeout (i_selects (p_env p))) as [[| |errno] rest]; cbn [i_net i_clock i_ticks i_selects i_waits].
  - pose proof (recv_call_spec n (fd c)) as Hr. destruct (recv_call n (fd c)) as [n2 r]. destruct Hr as (Hs2 & Hw2 & _ & _ & Hr).
    pose proof (sends_ok _ _ _ _ Hs2 Hn) as Hn2.
    set (p' := PState _ ts _).
    assert (probe_ok 0 p') as Hp' by (split; [exact Hn2|exact Hok|exact Hkeys|exact (wire_ok_drop 0 n n2 ts Hwire Hw2 (so_recvs _ _ _ _ Hs2))]).
    destruct r as [buffer| |errno]; [|destruct (continue_ok n ts 0 p' Hp') as [? ?]; split; [done|cbn in *; lia]|by split].
    specialize (Hr buffer eq_refl).
    assert (probe_ok 1 p') as Hp1 by (split; [exact Hn2|exact Hok|exact Hkeys|exact (wire_ok_received 0 n n2 ts buffer Hwire Hw2 Hr)]).
    pose proof (handle_datagram_ok n p' buffer Hp1 Hr) as Hx. revert Hx. destruct (handle_datagram p' c buffer) as [q|s' r]; cbn [round_ok].
    + intros [Hq Ht]. split; [done|]. cbn in Ht. lia.
    + intros [Hq Ho]. split; [done|]. by apply (outcome_before n _ _ ts).
  - split; [split; [exact Hn|exact Hok|exact Hkeys|exact Hwire]|cbn; lia].
  - by split.
Qed.

(** The state the loop returns from, and how. *)
Lemma probe_loop_ok deadline fuel : forall p s r, probe_ok 0 p -> probe_loop fuel p c deadline = Some (s, r) ->
  net_ok (i_net s) /\ exists q, rtc (probe_step c deadline) p q /\ outcome_ok (i_net (p_env q)) (p_transactions q) s r.
Proof.
  induction fuel as [|fuel IH]; intros p s r Hp; cbn [probe_loop]; [done|].
  pose proof (probe_round_ok p deadline Hp) as Hr. destruct (probe_round p c deadline) as [[p'|s' r']|] eqn:E.
  - intros Hl. destruct (IH p' s r (proj1 (proj2 Hr)) Hl) as (Hn & q & Hq & Ho). split; [done|]. exists q. split; [|done]. by apply (rtc_l _ _ p').
  - intros [= <- <-]. split; [apply Hr|]. exists p. split; [done|apply Hr].
  - intros [= <- <-]. split; [apply Hp|]. exists p. split; [done|]. by destruct (_ && _).
Qed.
End invariant.

(** The clock is not touched by a round. *)
Lemma round_clock `{CommonCrypto} `{Platform} p c deadline p' : probe_round p c deadline = Some (Continue p') ->
  i_clock (p_env p') = i_clock (p_env p).
Proof.
  unfold probe_round. cbn [gettimeofday]. case_decide; [done|]. cbn [i_net i_clock i_ticks i_selects i_waits].
  destruct (send_due _ _ _ _) as [n [e|ts]]; [done|].
  cbn [with_net i_net i_clock i_ticks i_selects i_waits]. unfold select_call. cbn [i_net i_clock i_ticks i_selects i_waits].
  destruct (skip_eintr SelTimeout (i_selects (p_env p))) as [[| |errno] rest]; cbn [i_net i_clock i_ticks i_selects i_waits];
    [|by intros [= <-]|done].
  destruct (recv_call _ _) as [n2 [buffer| |errno]]; [|by intros [= <-]|done].
  set (q := PState _ ts _). intros E.
  assert (forall x, Some (Continue x) = Some (Continue p') -> i_clock (p_env x) = i_clock (p_env p) -> i_clock (p_env p') = i_clock (p_env p)) as Hx
    by (intros x [= ->]; done).
  assert (i_clock (p_env q) = i_clock (p_env p)) as Hq by done. clearbody q.
  revert E. unfold handle_datagram, incoming_request, incoming_response, trigger_check, make_transaction.
  repeat case_match; intros E; try discriminate E; injection E as <-; try exact Hq;
    repeat match goal with H : gettimeofday _ = _ |- _ => injection H as <- _ end; cbn; exact Hq.
Qed.

Lemma probe_loop_terminates `{CommonCrypto} `{Platform} c n0 deadline (clock : nat -> Z) N :
  (forall j, (N <= j)%nat -> deadline <= clock j) -> forall fuel p,
  probe_ok c n0 0 p -> i_clock (p_env p) = clock -> (N - i_ticks (p_env p) < fuel)%nat ->
  probe_loop fuel p c deadline <> None.
Proof.
  intros HN. induction fuel as [|fuel IH]; intros p Hp Hc Hf; [lia|]. cbn [probe_loop].
  pose proof (probe_round_ok c n0 p deadline Hp) as Hr.
  destruct (probe_round p c deadline) as [[p'|s r]|] eqn:E; [|done|done].
  destruct Hr as [Hlt [Hp' Ht]]. rewrite Hc in Hlt. apply IH; [done|by rewrite (round_clock _ _ _ _ E)|].
  destruct (decide (N <= i_ticks (p_env p))%nat) as [Hle|]; [specialize (HN _ Hle); lia|lia].
Qed.

(** The checks before any I/O let the parameters through. *)
Definition probe_ready (c : probe_config) : Prop :=
  0 <= fd c /\ peerHost c <> [] /\ peerPort c <> 0 /\ localUfrag c <> [] /\ localPassword c <> [] /\
  remoteUfrag c <> [] /\ remotePassword c <> [] /\ inet_pton (peerHost c) <> None.

Lemma probe_start_ok `{CommonCrypto} s c : peerPort c <> 0 -> inet_pton (peerHost c) <> None ->
  probe_ok c (i_net s) 0 (probe_start s c).1.
Proof.
  intros Hp Hh. unfold probe_start. cbn [gettimeofday]. cbn [i_net].
  pose proof (make_transaction_ok c (i_net s) (i_net s) (peerHost c) (peerPort c)
    (i_clock s (i_ticks s)) ltac:(done) Hh Hp) as Hm.
  destruct (make_transaction _ _ _ _ _) as [n t]. destruct Hm as (M1 & Mw & Mr & M2 & M3 & M4).
  cbn [fst]. split; [exact M1|apply Forall_cons_2; [exact M2|constructor]|apply NoDup_singleton|].
  exists [], [], []. cbn [p_env p_transactions with_net i_net]. rewrite Mw, Mr. unfold transmissions, repeats. cbn [map concat]. rewrite M4.
  split; [by rewrite app_nil_r|]. split; [done|]. split; [constructor|]. split; [done|cbn; lia].
Qed.
Lemma probe_reachable_ok `{CommonCrypto} `{Platform} c n0 deadline p q : probe_ok c n0 0 p -> rtc (probe_step c deadline) p q -> probe_ok c n0 0 q.
Proof.
  intros Hp Hreach. induction Hreach as [|p1 p2 p3 Hstep _ IH]; [done|]. apply IH.
  pose proof (probe_round_ok c n0 p1 deadline Hp) as Hx. unfold probe_step in Hstep. rewrite Hstep in Hx. apply Hx.
Qed.

Lemma probe_unfold `{CommonCrypto} `{Platform} fuel s c : probe_ready c ->
  Ios6TurnIceBindingProbe fuel s c =
  let '(p, deadline) := probe_start s c in
  if decide (map indication (p_transactions p) = [[]]) then Some (p_env p, failed (str "failed to build TURN Send Indication"))
  else probe_loop fuel p c deadline.
Proof.
  intros (H1 & H2 & H3 & H4 & H5 & H6 & H7 & H8). unfold Ios6TurnIceBindingProbe, probe_start.
  rewrite decide_False by lia. rewrite decide_False by tauto. rewrite decide_False by tauto.
  destruct (inet_pton (peerHost c)); [|done]. cbn [gettimeofday].
  destruct (make_transaction _ _ _ _ _) as [n t]. cbn [p_transactions map p_env].
  case_decide as Hi; [by rewrite Hi|]. rewrite decide_False; [done|]. congruence.
Qed.

(** ** Properties *)

(** C20: In every state the loop reaches there is exactly one check per peer address;
    each is our own binding request wrapped for that peer, under a transaction id
    from the random source, with an interval between 0.5 and 1.6 seconds; what the
    probe has put on the wire is, up to order, every check exactly as many times as it
    counts, at most five, and answers to binding requests, no more than the
    datagrams received; no socket is closed. *)
Theorem probe_invariant `{CC : CommonCrypto} `{PL : Platform} (s : ice_env) (c : probe_config) (p : probe_state)
    (Hr : probe_ready c) (Hreach : rtc (probe_step c (probe_start s c).2) (probe_start s c).1 p) :
  let ts := p_transactions p in let n := i_net (p_env p) in
  NoDup (map key ts) /\ Forall (transaction_ok c (i_net s)) ts /\
  n_random n = n_random (i_net s) /\ n_closed n = n_closed (i_net s) /\
  (exists h answers taken, n_wire n = n_wire (i_net s) ++ h /\
     h ≡ₚ concat (map (fun t => replicate (Z.to_nat (sendAttempt t)) (fd c, indication t)) ts) ++ answers /\
     Forall (answer c (i_net s)) answers /\
     n_recvs (i_net s) = taken ++ n_recvs n /\ (length answers <= arrivals taken)%nat /\
     (length h <= 5 * length ts + arrivals taken)%nat).
Proof.
  assert (probe_ok c (i_net s) 0 p) as [[P1 P1'] P2 P3 (h & a & taken & W & P & A & R & L)]
    by (eapply probe_reachable_ok; [|exact Hreach]; apply probe_start_ok; apply Hr).
  cbn zeta. split_and!; try assumption. exists h, a, taken. split_and!; try assumption; [lia|].
  rewrite P, length_app. enough (length (transmissions c (p_transactions p)) <= 5 * length (p_transactions p))%nat by lia.
  clear -P2. unfold transmissions. induction P2 as [|t ts Ht _ IH]; [done|]. cbn [map concat length]. rewrite length_app. unfold repeats at 1.
  rewrite length_replicate. pose proof (t_attempts _ _ t Ht). lia.
Qed.

(** C7: The verdict of a probe. Success is decided by the last datagram received, in a
    state the loop reached: a Data indication of the TURN server that names the
    reported peer. A controlling agent reports a peer only when the indication holds
    a success response that verifies under the remote password and carries the
    transaction id of its own check of that peer; a controlled agent only when it
    holds a request of the other agent, verified under the local password, that
    names both user fragments and nominates the pair, and whose answer was the last
    datagram it sent. Otherwise nothing is selected. *)
Theorem probe_verdict `{CC : CommonCrypto} `{PL : Platform} (fuel : nat) (s s' : ice_env) (c : probe_config) (r : probe_outcome)
    (Hrun : Ios6TurnIceBindingProbe fuel s c = Some (s', r)) :
  n_closed (i_net s') = n_closed (i_net s) /\
  if o_ok r then o_error r = [] /\
    exists p, rtc (probe_step c (probe_start s c).2) (probe_start s c).1 p /\
      evidence c (i_net s) (i_net (p_env p)) (p_transactions p) s' r
  else o_host r = [] /\ o_port r = 0.
Proof.
  unfold Ios6TurnIceBindingProbe in Hrun.
  case_decide; [by injection Hrun as <- <-|]. case_decide as Hp; [by injection Hrun as <- <-|].
  case_decide; [by injection Hrun as <- <-|].
  destruct (inet_pton (peerHost c)) eqn:Ea; [|by injection Hrun as <- <-].
  pose proof (probe_start_ok s c ltac:(tauto) ltac:(congruence)) as Hst. unfold probe_start in *.
  cbn [gettimeofday] in *. destruct (make_transaction _ _ _ _ _) as [n t]. cbn [fst snd] in *.
  case_decide.
  - injection Hrun as <- <-. split; [|done]. apply (p_net _ _ _ _ Hst).
  - apply (probe_loop_ok c (i_net s)) in Hrun; [|exact Hst].
    destruct Hrun as ([_ Hc] & q & Hq & Ho). split; [done|]. unfold outcome_ok in Ho. destruct (o_ok r); [|done].
    destruct Ho as [He Ho]. split; [done|]. by exists q.
Qed.

(** C21: A probe always returns: once the clock has passed the deadline for good, a
    round for each reading of the clock until then is fuel enough. *)
Theorem probe_terminates `{CC : CommonCrypto} `{PL : Platform} (s : ice_env) (c : probe_config) (N fuel : nat)
    (HN : forall j, (N <= j)%nat -> i_clock s (i_ticks s) + 7000000 <= i_clock s j) (Hf : (N < fuel)%nat) :
  Ios6TurnIceBindingProbe fuel s c <> None.
Proof.
  unfold Ios6TurnIceBindingProbe. case_decide; [done|]. case_decide as Hp; [done|]. case_decide; [done|].
  destruct (inet_pton (peerHost c)) eqn:Ea; [|done].
  pose proof (probe_start_ok s c ltac:(tauto) ltac:(congruence)) as Hst. unfold probe_start in Hst.
  cbn [gettimeofday] in *. destruct (make_transaction _ _ _ _ _) as [n t]. cbn [fst] in Hst.
  case_decide; [done|].
  apply (probe_loop_terminates c (i_net s) _ (i_clock s) N HN); [exact Hst|done|].
  cbn. lia.
Qed.

(** *** A run

    A controlling probe against a peer that answers the first check. *)
Definition demo_config : probe_config :=
  Config 5 (str "10.0.0.1") 4000 (str "lU") (str "lP") (str "rU") (str "rP") 77 true true.
Definition demo_answer : list Z :=
  let random := fun i => Z.of_nat i in
  stun kIos6TurnDataIndication demo_txid [(kIos6AttrXorPeerAddress, xor_address [10; 0; 0; 1] 4000);
    (kIos6AttrData, @Ios6MakeIceBindingSuccessResponse toy_crypto (txid_at random 0) (str "10.0.0.2") 5000 (str "rP"))].
Definition demo_env : ice_env :=
  IceEnv (Net (OpenEnv true 5 true 0) [None; Some (SSent 124)] [Some (RData demo_answer)] (fun i => Z.of_nat i) 0 [] [])
    (fun i => Z.of_nat i * 1000000) 0 [Some SelReady] [].
Abbreviation demo_run := (@Ios6TurnIceBindingProbe toy_crypto toy_platform 9 demo_env demo_config).
Lemma demo_run_ok : option_map (fun x => (o_ok x.2, o_host x.2)) demo_run = Some (true, str "10.0.0.1").
Proof. vm_compute. reflexivity. Qed.

Lemma probe_verdict_witness : exists s r, demo_run = Some (s, r) /\ o_ok r = true /\ o_host r = str "10.0.0.1" /\
  exists p, @evidence toy_crypto demo_config (i_net demo_env) (i_net (p_env p)) (p_transactions p) s r.
Proof.
  pose proof demo_run_ok as Er. destruct demo_run as [[s r]|] eqn:E; [|discriminate Er].
  exists s, r. injection Er as E1 E2. split; [reflexivity|]. split; [exact E1|]. split; [exact E2|].
  pose proof (proj2 (@probe_verdict toy_crypto toy_platform 9 demo_env s demo_config r E)) as H. rewrite E1 in H.
  destruct H as (_ & p & _ & H). exists p. exact H.
Defined.

Lemma demo_ready : probe_ready demo_config.
Proof. unfold probe_ready. repeat split; discriminate. Qed.
(** Two rounds in which the peer is silent: the check is sent twice. *)
Definition silent_env : ice_env :=
  IceEnv (Net (OpenEnv true 5 true 0) [None; Some (SSent 124); Some (SSent 124)] [] (fun i => Z.of_nat i) 0 [] [])
    (fun i => Z.of_nat i * 1000000) 0 [Some SelTimeout; None; Some SelTimeout] [].
Abbreviation silent_start := (@probe_start toy_crypto silent_env demo_config).
Definition silent_round (p : probe_state) : probe_state :=
  match @probe_round toy_crypto toy_platform p demo_config silent_start.2 with Some (Continue p') => p' | _ => p end.
Abbreviation silent_end := (silent_round (silent_round silent_start.1)).
Lemma silent_reachable : rtc (@probe_step toy_crypto toy_platform demo_config silent_start.2) silent_start.1 silent_end.
Proof.
  apply (rtc_l _ _ (silent_round silent_start.1)); [unfold probe_step; vm_compute; reflexivity|].
  apply rtc_once. unfold probe_step. vm_compute. reflexivity.
Qed.
Lemma probe_invariant_witness :
  map sendAttempt (p_transactions silent_end) = [2] /\ length (n_wire (i_net (p_env silent_end))) = 2%nat /\
  Forall (@transaction_ok toy_crypto demo_config (i_net silent_env)) (p_transactions silent_end).
Proof.
  split; [vm_compute; reflexivity|]. split; [vm_compute; reflexivity|].
  exact (proj1 (proj2 (@probe_invariant toy_crypto toy_platform silent_env demo_config silent_end demo_ready silent_reachable))).
Defined.

Lemma probe_terminates_witness : @Ios6TurnIceBindingProbe toy_crypto toy_platform 9 demo_env demo_config <> None.
Proof.
  apply (@probe_terminates toy_crypto toy_platform demo_env demo_config 7 9); [|lia].
  intros j Hj. change (0 * 1000000 + 7000000 <= Z.of_nat j * 1000000). lia.
Defined.
