(* ===== verification/Bridge.v ===== *)
(** * The privileged bridge daemon

    [src/Modules/NekroEngine/NekroCore/fuckdpi_bridge.c]: the root daemon that
    reads a request from a loopback connection, checks its verb against a fixed
    list and runs the helper. The connection, the allocator and the helper process
    are scripts of results; the process environment is a map from names to
    values; what is spawned is logged. *)

From stdpp Require Import gmap.
From S2P Require Import Prelude Inet.

Definition FDPI_MAGIC : Z := 0x46445049.
Definition FDPI_VERSION : Z := 1.
Definition FDPI_FLAG_ALLOW_UNSUPPORTED : Z := 1.
Definition FDPI_MAX_ARGS : Z := 64.
Definition FDPI_MAX_ARG : Z := 16384.
Definition FDPI_MAX_OUTPUT : Z := 512 * 1024.

(** ** Environment *)

(** A stream socket: what arrives, in pieces. *)
Inductive recv_event := REintr | RFail | RData (d : list Z).
Inductive send_event := SEintr | SFail | SSent (n : nat).

Abbreviation environ := (gmap (list Z) (list Z)).

(** What becomes of the helper: [posix_spawn] fails, or its output arrives in
    pieces ([None] is [EINTR]) and it ends with a status. *)
Inductive wait_status := Exited (code : Z) | Signaled (sig : Z) | WaitFailed.
Inductive spawn_outcome := SpawnFailed (errno : Z) | Spawned (reads : list (option (list Z))) (status : wait_status).

Record spawn := Spawn { sp_argv : list (list Z); sp_env : environ }.

Record daemon := Daemon {
  d_in : list recv_event;
  d_sends : list send_event;
  d_out : list Z;
  d_env : environ;
  d_pipe_ok : bool;
  d_realloc : nat -> bool;
  d_helper : spawn -> spawn_outcome;
  d_spawned : list spawn
}.

(** ** The C code *)

(** [None] is the return value -1; on success, the bytes of the buffer. *)
Fixpoint read_full (l : list recv_event) (length_ : nat) : option (list Z) * list recv_event :=
  match length_ with
  | O => (Some [], l)
  | _ =>
      match l with
      | [] => (None, [])
      | REintr :: l => read_full l length_
      | RFail :: l => (None, l)
      | RData d :: l =>
          if decide (length d = 0)%nat then (None, l) else
          if decide (length_ <= length d)%nat
          then (Some (take length_ d), if decide (length_ < length d)%nat then RData (drop length_ d) :: l else l)
          else let '(r, rest) := read_full l (length_ - length d) in (option_map (app d) r, rest)
      end
  end.

(** The result, the rest of the script, and the bytes that went out. *)
Fixpoint write_full (l : list send_event) (buffer : list Z) : bool * list send_event * list Z :=
  match buffer with
  | [] => (true, l, [])
  | _ =>
      match l with
      | [] => (false, [], [])
      | SEintr :: l => write_full l buffer
      | SFail :: l => (false, l, [])
      | SSent n :: l =>
          let '(r, rest, out) := write_full l (drop n buffer) in
          (r, rest, take n buffer ++ out)
      end
  end.

Definition allowed : list (list Z) :=
  [str "probe"; str "tun-up"; str "scope-test"; str "selftest"; str "hs-selftest";
   str "hs-connect"; str "hs-listen"; str "warp-connect"; str "warp-tunnel";
   str "stop"; str "status"; str "netcheck"; str "register"; str "import-conf";
   str "sysctl-int"; str "resolve"; str "httpsprobe"; str "kpatch-probe";
   str "kpatch-scopedroute"; str "sysctlr"; str "sysctlw"; str "route-dump";
   str "scope-probe"; str "scope-set"; str "scope-unset"; str "bench"].
(** [command] is the buffer, compared as a C string. *)
Definition allowed_command (command : list Z) : bool :=
  if decide (c_str command = []) then false else
  existsb (fun a => bool_decide (c_str command = a)) allowed.

(** The collected output: its bytes and the capacity of the allocation. *)
Record output := Output { o_data : list Z; o_capacity : Z }.

Fixpoint grow (fuel : nat) (cap need : Z) : Z :=
  match fuel with
  | O => cap
  | S fuel => if decide (cap < need) then grow fuel (cap * 2) need else cap
  end.

(** [realloc_ok] is whether [realloc] succeeds. *)
Definition append_output (realloc_ok : bool) (o : output) (src : list Z) : output :=
  let length_ := Z.of_nat (length (o_data o)) in
  let count := Z.of_nat (length src) in
  if decide (FDPI_MAX_OUTPUT <= length_ \/ count = 0) then o else
  let count := if decide (FDPI_MAX_OUTPUT - length_ < count) then FDPI_MAX_OUTPUT - length_ else count in
  let need := length_ + count in
  let next :=
    if decide (o_capacity o < need) then
      let cap := grow 8 (if decide (o_capacity o = 0) then 4096 else o_capacity o) need in
      let cap := if decide (FDPI_MAX_OUTPUT < cap) then FDPI_MAX_OUTPUT else cap in
      if realloc_ok then Some cap else None
    else Some (o_capacity o) in
  match next with
  | None => o
  | Some cap => Output (o_data o ++ take (Z.to_nat count) src) cap
  end.

(** The drain loop; a piece is at most the buffer of 4096 bytes, an empty one is
    the end of the file. [k] counts the calls to [realloc]'s oracle. *)
Fixpoint drain (reads : list (option (list Z))) (realloc : nat -> bool) (k : nat) (o : output) : output :=
  match reads with
  | [] => o
  | None :: reads => drain reads realloc k o
  | Some d :: reads =>
      if decide (d = []) then o else
      drain reads realloc (S k) (append_output (realloc k) o (take 4096 d))
  end.

Definition HELPER : list Z := str "/usr/libexec/fuckdpid".

Section bridge.
(** The text of an error number. *)
Context (strerror : Z -> list Z).

(** The process environment of the helper. *)
Definition helper_env (env : environ) (allow_unsupported : bool) : environ :=
  let env := if allow_unsupported then <[str "NW_ALLOW_UNSUPPORTED_OS" := str "1"]> env
             else delete (str "NW_ALLOW_UNSUPPORTED_OS") env in
  let env := <[str "_MSSafeMode" := str "1"]> env in
  delete (str "DYLD_INSERT_LIBRARIES") env.

(** The line that [snprintf] writes. The code appends as many bytes as [snprintf]
    reports, so this is what it appends while the text fits its 256-byte array;
    a longer [strerror] would make it read past the array. *)
Definition spawn_message (errno : Z) : list Z :=
  str "FuckDPIBridgeD: posix_spawn failed: " ++ strerror errno ++ str " (" ++ dec errno ++ str ")" ++ [10].

(** The exit status and the collected output. *)
Definition run_helper (d : daemon) (argv : list (list Z)) (allow_unsupported : bool) : daemon * Z * list Z :=
  if negb (d_pipe_ok d) then (d, 120, []) else
  let env := helper_env (d_env d) allow_unsupported in
  let sp := Spawn argv env in
  let spawn_result := d_helper d sp in
  match spawn_result with
  | SpawnFailed errno =>
      let collected := append_output (d_realloc d 0) (Output [] 0) (spawn_message errno) in
      (Daemon (d_in d) (d_sends d) (d_out d) env (d_pipe_ok d) (d_realloc d) (d_helper d) (d_spawned d),
       errno, o_data collected)
  | Spawned reads status =>
      let collected := drain reads (d_realloc d) 0 (Output [] 0) in
      let result :=
        match status with
        | Exited code => code
        | Signaled sig => 128 + sig
        | WaitFailed => 121
        end in
      (Daemon (d_in d) (d_sends d) (d_out d) env (d_pipe_ok d) (d_realloc d) (d_helper d) (d_spawned d ++ [sp]),
       result, o_data collected)
  end.

(** [htonl] *)
Definition net32 (v : Z) : list Z := [u8 (Z.shiftr v 24); u8 (Z.shiftr v 16); u8 (Z.shiftr v 8); u8 v].
Definition ntohl (b : list Z) : Z := b.[0] * 16777216 + b.[1] * 65536 + b.[2] * 256 + b.[3].

Definition send_response (d : daemon) (status : Z) (output : list Z) : daemon :=
  let header := net32 FDPI_MAGIC ++ net32 (u32 status) ++ net32 (u32 (Z.of_nat (length output))) in
  let '(ok, sends, out) := write_full (d_sends d) header in
  let d := Daemon (d_in d) sends (d_out d ++ out) (d_env d) (d_pipe_ok d) (d_realloc d) (d_helper d) (d_spawned d) in
  if negb ok then d else
  if decide (length output <> 0%nat) then
    let '(_, sends, out) := write_full (d_sends d) output in
    Daemon (d_in d) sends (d_out d ++ out) (d_env d) (d_pipe_ok d) (d_realloc d) (d_helper d) (d_spawned d)
  else d.

(** The arguments; [None] when one cannot be read or is too long. *)
Fixpoint read_args (argc : nat) (l : list recv_event) : option (list (list Z)) * list recv_event :=
  match argc with
  | O => (Some [], l)
  | S argc =>
      let '(wire_len, l) := read_full l 4 in
      match wire_len with
      | None => (None, l)
      | Some wire_len =>
          let len := ntohl wire_len in
          if decide (FDPI_MAX_ARG < len) then (None, l) else
          let '(arg, l) := read_full l (Z.to_nat len) in
          match arg with
          | None => (None, l)
          | Some arg =>
              let '(args, l) := read_args argc l in
              (option_map (cons arg) args, l)
          end
      end
  end.

Definition with_in (d : daemon) (l : list recv_event) : daemon :=
  Daemon l (d_sends d) (d_out d) (d_env d) (d_pipe_ok d) (d_realloc d) (d_helper d) (d_spawned d).

(** The allocations of the argument vector are taken to succeed. *)
Definition handle_client (d : daemon) : daemon :=
  let '(header, l) := read_full (d_in d) 16 in
  let d := with_in d l in
  match header with
  | None => d
  | Some header =>
      let magic := ntohl (slice header 0 4) in
      let version := ntohl (slice header 4 4) in
      let flags := ntohl (slice header 8 4) in
      let argc := ntohl (slice header 12 4) in
      if decide (magic <> FDPI_MAGIC \/ version <> FDPI_VERSION \/ argc = 0 \/ FDPI_MAX_ARGS < argc)
      then send_response d 122 (str "FuckDPIBridgeD: invalid request" ++ [10]) else
      let '(args, l) := read_args (Z.to_nat argc) (d_in d) in
      let d := with_in d l in
      let denied := send_response d 123 (str "FuckDPIBridgeD: command denied" ++ [10]) in
      match args with
      | Some (command :: rest) =>
          if negb (allowed_command command) then denied else
          let argv := HELPER :: map c_str (command :: rest) in
          let '(d, result, output) := run_helper d argv (bool_decide (Z.land flags FDPI_FLAG_ALLOW_UNSUPPORTED <> 0)) in
          send_response d result output
      | _ => denied
      end
  end.

End bridge.

(** ** Reading and writing whole buffers *)

(** A connection that delivers bytes, in any pieces and with interruptions. *)
Definition clean (e : recv_event) : Prop := match e with REintr => True | RFail => False | RData d => d <> [] end.
Definition payload (l : list recv_event) : list Z := concat (map (fun e => match e with RData d => d | _ => [] end) l).

Lemma read_full_clean l : Forall clean l -> forall a b, payload l = a ++ b ->
  exists rest, read_full l (length a) = (Some a, rest) /\ Forall clean rest /\ payload rest = b.
Proof.
  induction 1 as [|e l He Hl IH]; intros a b E.
  - symmetry in E. apply app_eq_nil in E as [-> ->]. by exists [].
  - destruct a as [|x a]; [exists (e :: l); split; [done|split; [by apply Forall_cons_2|done]]|].
    cbn [read_full length]. destruct e as [| |d]; cbn in He; [|done|].
    + destruct (IH (x :: a) b E) as (rest & R1 & R2). by exists rest.
    + rewrite decide_False by (by destruct d). unfold payload in E. cbn [map concat] in E. fold (payload l) in E.
      case_decide as Hle.
      * assert (take (length (x :: a)) d = x :: a) as Et.
        { apply (f_equal (take (length (x :: a)))) in E. rewrite take_app_le, take_app_length in E by (cbn [length] in *; lia). done. }
        assert (drop (length (x :: a)) d ++ payload l = b) as Ed.
        { apply (f_equal (drop (length (x :: a)))) in E. rewrite drop_app_le, drop_app_length in E by (cbn [length] in *; lia). done. }
        change (S (length a)) with (length (x :: a)). rewrite Et. case_decide as Hlt.
        -- exists (RData (drop (length (x :: a)) d) :: l). split; [done|]. split; [|done].
           apply Forall_cons_2; [|done]. cbn. intros Hn. apply (f_equal length) in Hn. rewrite length_drop in Hn. cbn in *. lia.
        -- exists l. split; [done|]. split; [done|]. rewrite drop_ge in Ed by (cbn [length] in *; lia). done.
      * assert (take (length d) (x :: a) = d) as Et.
        { apply (f_equal (take (length d))) in E. rewrite take_app_length, take_app_le in E by (cbn [length] in *; lia). done. }
        assert (payload l = drop (length d) (x :: a) ++ b) as Ed.
        { apply (f_equal (drop (length d))) in E. rewrite drop_app_length, drop_app_le in E by (cbn [length] in *; lia). done. }
        destruct (IH _ _ Ed) as (rest & R1 & R2). exists rest. rewrite length_drop in R1. cbn [length] in R1. rewrite R1.
        cbn [option_map]. split; [|done]. f_equal. f_equal. rewrite <- Et at 1. apply take_drop.
Qed.

(** What is written is a prefix of the buffer, the whole of it on success. *)
Lemma write_full_prefix l : forall buffer, let '(ok, _, out) := write_full l buffer in
  out `prefix_of` buffer /\ (ok = true -> out = buffer).
Proof.
  induction l as [|e l IH]; intros [|x buffer]; cbn [write_full]; try (split; [apply prefix_nil|done]).
  destruct e as [| |n]; [apply IH|split; [apply prefix_nil|done]|].
  specialize (IH (drop n (x :: buffer))). destruct (write_full l (drop n (x :: buffer))) as [[ok rest] out].
  destruct IH as [[k Hk] Hok]. split.
  - exists k. rewrite <- app_assoc, <- Hk. by rewrite take_drop.
  - intros E. rewrite (Hok E). apply take_drop.
Qed.

(** A peer that keeps accepting at least a byte at a time. *)
Definition accepting (e : send_event) : Prop := match e with SEintr => True | SFail => False | SSent n => (0 < n)%nat end.
Definition sends (l : list send_event) : nat :=
  foldr (fun e n => match e with SSent _ => S n | _ => n end) 0%nat l.

Lemma write_full_accepting l : Forall accepting l -> forall buffer, (length buffer <= sends l)%nat ->
  exists rest, write_full l buffer = (true, rest, buffer) /\ Forall accepting rest /\ (sends l <= sends rest + length buffer)%nat.
Proof.
  induction 1 as [|e l He Hl IH]; intros [|x buffer] Hn.
  - by exists [].
  - cbn in Hn. lia.
  - exists (e :: l). split; [done|]. split; [by apply Forall_cons_2|lia].
  - cbn [write_full]. destruct e as [| |n]; cbn in He; [|done|].
    + destruct (IH (x :: buffer)) as (rest & R1 & R2 & R3); [exact Hn|]. by exists rest.
    + cbn [sends foldr] in Hn |- *. fold (sends l) in *.
      destruct (IH (drop n (x :: buffer))) as (rest & R1 & R2 & R3); [rewrite length_drop; cbn [length] in *; lia|].
      exists rest. rewrite R1, take_drop. split; [done|]. split; [done|]. rewrite length_drop in R3. cbn [length] in *. lia.
Qed.

(** ** The output buffer *)

(** The data fits the allocation, which is at most the limit and is either empty
    or at least the first size. *)
Definition output_ok (o : output) : Prop :=
  Z.of_nat (length (o_data o)) <= o_capacity o <= FDPI_MAX_OUTPUT /\ (o_capacity o = 0 \/ 4096 <= o_capacity o).

Lemma grow_spec f : forall cap need, 0 < cap -> need <= cap * 2 ^ Z.of_nat f ->
  need <= grow f cap need /\ cap <= grow f cap need.
Proof.
  induction f as [|f IH]; intros cap need Hc Hn; cbn [grow]; [rewrite Z.mul_1_r in Hn; lia|].
  rewrite Nat2Z.inj_succ, Z.pow_succ_r in Hn by lia.
  case_decide; [|lia]. destruct (IH (cap * 2) need) as [G1 G2]; [lia|lia|]. lia.
Qed.

Lemma append_output_ok r o src : output_ok o -> output_ok (append_output r o src) /\
  (r = true -> o_data (append_output r o src) = take (Z.to_nat FDPI_MAX_OUTPUT) (o_data o ++ src)).
Proof.
  unfold output_ok, append_output. intros [[H1 H2] H3]. set (n := Z.of_nat (length (o_data o))) in *.
  change FDPI_MAX_OUTPUT with 524288 in *.
  destruct (decide (524288 <= n \/ Z.of_nat (length src) = 0)) as [Hd|Hd].
  { split; [split; [lia|done]|]. intros _. destruct Hd as [Hd|Hd].
    - assert (Z.to_nat 524288 = length (o_data o)) as -> by (unfold n in *; lia). by rewrite take_app_length.
    - destruct src; [|cbn in Hd; lia]. rewrite app_nil_r, take_ge; [done|unfold n in *; lia]. }
  set (count := if decide (524288 - n < Z.of_nat (length src)) then 524288 - n else Z.of_nat (length src)).
  assert (0 < count <= 524288 - n /\ count <= Z.of_nat (length src)) as [Hc1 Hc2]
    by (unfold count; destruct (decide (524288 - n < Z.of_nat (length src))); lia).
  assert (o_data o ++ take (Z.to_nat count) src = take (Z.to_nat 524288) (o_data o ++ src)) as Hdata.
  { rewrite take_app. f_equal; [rewrite take_ge; [done|unfold n in *; lia]|].
    unfold count. destruct (decide (524288 - n < Z.of_nat (length src))); [f_equal; unfold n; lia|].
    rewrite !take_ge; [done|unfold n in *; lia|lia]. }
  assert (forall cap, n + count <= cap <= 524288 -> 4096 <= cap ->
    (Z.of_nat (length (o_data (Output (o_data o ++ take (Z.to_nat count) src) cap))) <= cap <= 524288 /\ (cap = 0 \/ 4096 <= cap))) as Hok.
  { intros cap Hcap H4. cbn [o_data]. rewrite length_app, length_take. unfold n in *. lia. }
  destruct (decide (o_capacity o < n + count)) as [Hg|Hg].
  - set (c0 := if decide (o_capacity o = 0) then 4096 else o_capacity o).
    assert (4096 <= c0) by (unfold c0; destruct (decide (o_capacity o = 0)); lia).
    destruct (grow_spec 8 c0 (n + count)) as [G1 G2]; [lia|change (2 ^ Z.of_nat 8) with 256; lia|].
    destruct r; [|split; [split; [lia|done]|done]].
    split; [|by rewrite <- Hdata]. cbn [o_capacity].
    destruct (decide (524288 < grow 8 c0 (n + count))); apply Hok; lia.
  - assert (4096 <= o_capacity o) by lia.
    split; [|by rewrite <- Hdata]. cbn [o_capacity]. apply Hok; lia.
Qed.

(** With every allocation succeeding the pieces are concatenated up to the limit. *)
Definition pieces (reads : list (option (list Z))) : list Z :=
  concat (map (fun r => match r with Some d => take 4096 d | None => [] end) reads).
Lemma drain_ok realloc reads : forall k o, output_ok o -> output_ok (drain reads realloc k o) /\
  ((forall i, realloc i = true) -> Forall (fun r => r <> Some []) reads ->
   o_data (drain reads realloc k o) = take (Z.to_nat FDPI_MAX_OUTPUT) (o_data o ++ pieces reads)).
Proof.
  induction reads as [|[d|] reads IH]; intros k o Ho; cbn [drain].
  - split; [done|]. intros _ _. unfold pieces. cbn [map concat]. rewrite app_nil_r, take_ge; [done|].
    destruct Ho as [[H1 H2] _]. change FDPI_MAX_OUTPUT with 524288 in *. lia.
  - case_decide as Hd; [split; [done|]; intros _ Hf; by apply Forall_cons in Hf as [Hf _]; rewrite Hd in Hf|].
    destruct (append_output_ok (realloc k) o (take 4096 d) Ho) as [A1 A2].
    destruct (IH (S k) _ A1) as [I1 I2]. split; [done|]. intros Hr Hf. apply Forall_cons in Hf as [_ Hf].
    rewrite (I2 Hr Hf), (A2 (Hr k)). unfold pieces at 2. cbn [map concat]. fold (pieces reads).
    rewrite (app_assoc (o_data o)). set (l := o_data o ++ take 4096 d).
    rewrite !take_app, take_take, Nat.min_id. f_equal.
    rewrite length_take. destruct (decide (Z.to_nat FDPI_MAX_OUTPUT <= length l)%nat).
    + f_equal. lia.
    + f_equal. lia.
  - destruct (IH k o Ho) as [I1 I2]. split; [done|]. intros Hr Hf. apply Forall_cons in Hf as [_ Hf]. by apply I2.
Qed.

(** ** The specification *)

(** What goes over the wire. *)
Definition response (status : Z) (out : list Z) : list Z :=
  net32 FDPI_MAGIC ++ net32 (u32 status) ++ net32 (u32 (Z.of_nat (length out))) ++ out.
Definition request (flags : Z) (args : list (list Z)) : list Z :=
  net32 FDPI_MAGIC ++ net32 FDPI_VERSION ++ net32 flags ++ net32 (Z.of_nat (length args)) ++
  concat (map (fun a => net32 (Z.of_nat (length a)) ++ a) args).

(** A program the daemon may start, and an environment it may start it in. *)
Definition argument_ok (a : list Z) : Prop := Forall (fun b => b <> 0) a /\ Z.of_nat (length a) <= FDPI_MAX_ARG.
Definition spawn_ok (sp : spawn) : Prop :=
  exists command rest, sp_argv sp = HELPER :: command :: rest /\ In command allowed /\
    Z.of_nat (length (command :: rest)) <= FDPI_MAX_ARGS /\ Forall argument_ok (command :: rest) /\
    sp_env sp !! str "_MSSafeMode" = Some (str "1") /\ sp_env sp !! str "DYLD_INSERT_LIBRARIES" = None /\
    (sp_env sp !! str "NW_ALLOW_UNSUPPORTED_OS" = None \/ sp_env sp !! str "NW_ALLOW_UNSUPPORTED_OS" = Some (str "1")).

(** ** The protocol *)

Lemma ntohl_net32 v : 0 <= v < 2 ^ 32 -> ntohl (net32 v) = v.
Proof.
  intros Hv. unfold ntohl, net32. cbn [ix nth]. rewrite !u8_mod, !Z.shiftr_div_pow2 by lia.
  change (2 ^ 24) with 16777216. change (2 ^ 16) with 65536. change (2 ^ 8) with 256. change (2 ^ 32) with 4294967296 in Hv.
  Z.div_mod_to_equations. lia.
Qed.
Lemma length_net32 v : length (net32 v) = 4%nat.
Proof. reflexivity. Qed.
#[export] Hint Rewrite length_net32 : len.

Lemma read_full_length l : forall n a rest, read_full l n = (Some a, rest) -> length a = n.
Proof.
  induction l as [|e l IH]; intros [|n] a rest; cbn [read_full]; [by intros [= <- <-]|done|by intros [= <- <-]|].
  destruct e as [| |d]; [apply IH|done|]. case_decide as Hd; [done|]. case_decide as Hn.
  - intros [= <- <-]. rewrite length_take. lia.
  - destruct (read_full l (S n - length d)) as [[b|] r] eqn:E; cbn [option_map]; [|done].
    intros [= <- <-]. apply IH in E. rewrite length_app. lia.
Qed.

Lemma read_args_ok n : forall l args rest, read_args n l = (Some args, rest) ->
  length args = n /\ Forall (fun a => Z.of_nat (length a) <= FDPI_MAX_ARG) args.
Proof.
  induction n as [|n IH]; intros l args rest; cbn [read_args]; [by intros [= <- <-]|].
  destruct (read_full l 4) as [[w|] l1]; [|done]. case_decide as Hn; [done|].
  destruct (read_full l1 (Z.to_nat (ntohl w))) as [[a|] l2] eqn:Ea; [|done].
  destruct (read_args n l2) as [[args'|] l3] eqn:Er; cbn [option_map]; [|done].
  intros [= <- <-]. apply IH in Er as [E1 E2]. apply read_full_length in Ea.
  split; [cbn [length]; lia|]. apply Forall_cons_2; [|done]. change FDPI_MAX_ARG with 16384 in *. lia.
Qed.

Lemma read_args_clean args : Forall (fun a => Z.of_nat (length a) <= FDPI_MAX_ARG) args -> forall l b, Forall clean l ->
  payload l = concat (map (fun a => net32 (Z.of_nat (length a)) ++ a) args) ++ b ->
  exists rest, read_args (length args) l = (Some args, rest) /\ Forall clean rest /\ payload rest = b.
Proof.
  induction 1 as [|a args Ha Hargs IH]; intros l b Hl E; [by exists l|].
  cbn [map concat] in E. rewrite <- !app_assoc in E. change FDPI_MAX_ARG with 16384 in Ha.
  destruct (read_full_clean l Hl _ _ E) as (l1 & R1 & Hl1 & E1).
  destruct (read_full_clean l1 Hl1 _ _ E1) as (l2 & R2 & Hl2 & E2).
  destruct (IH l2 b Hl2 E2) as (l3 & R3 & Hl3 & E3). exists l3. split; [|done].
  cbn [read_args length]. rewrite length_net32 in R1. rewrite R1, ntohl_net32 by lia.
  rewrite decide_False by (change FDPI_MAX_ARG with 16384; lia). by rewrite Nat2Z.id, R2, R3.
Qed.

Lemma allowed_command_in c : allowed_command c = true <-> In (c_str c) allowed.
Proof.
  unfold allowed_command. case_decide as Hc.
  - rewrite Hc. split; [done|]. cbn. intuition discriminate.
  - rewrite existsb_exists. split; [intros (a & Ha & ->%bool_decide_eq_true_1); exact Ha|].
    intros Ha. exists (c_str c). split; [exact Ha|]. by apply bool_decide_eq_true_2.
Qed.
Lemma c_str_argument a : Z.of_nat (length a) <= FDPI_MAX_ARG -> argument_ok (c_str a).
Proof.
  intros Ha. assert (Forall (fun b => b <> 0) (c_str a) /\ (length (c_str a) <= length a)%nat) as [H1 H2].
  { induction a as [|c a IH]; [by split|]. cbn [c_str]. destruct IH as [I1 I2]; [cbn [length] in *; lia|].
    case_decide as Hc; (split; [|cbn [length]; lia]); [constructor|by apply Forall_cons_2]. }
  split; [exact H1|lia].
Qed.

(** ** Running the helper *)

Lemma helper_env_ok env b : let e := helper_env env b in
  e !! str "_MSSafeMode" = Some (str "1") /\ e !! str "DYLD_INSERT_LIBRARIES" = None /\
  e !! str "NW_ALLOW_UNSUPPORTED_OS" = if b then Some (str "1") else None.
Proof.
  unfold helper_env. split; [|split].
  - rewrite lookup_delete_ne by discriminate. apply lookup_insert_eq.
  - apply lookup_delete_eq.
  - rewrite lookup_delete_ne by discriminate. rewrite lookup_insert_ne by discriminate.
    destruct b; [apply lookup_insert_eq|apply lookup_delete_eq].
Qed.

Lemma output_empty : output_ok (Output [] 0).
Proof. unfold output_ok. change FDPI_MAX_OUTPUT with 524288. cbn. lia. Qed.
Lemma output_bound o : output_ok o -> Z.of_nat (length (o_data o)) <= FDPI_MAX_OUTPUT.
Proof. intros [H _]. lia. Qed.

Section theorems.
Context (strerror : Z -> list Z).

(** Everything the helper can be asked to do, and what comes back. *)
Lemma run_helper_ok d argv b : let '(d', status, out) := run_helper strerror d argv b in
  d_in d' = d_in d /\ d_sends d' = d_sends d /\ d_out d' = d_out d /\ Z.of_nat (length out) <= FDPI_MAX_OUTPUT /\
  (d_spawned d' = d_spawned d \/ d_spawned d' = d_spawned d ++ [Spawn argv (helper_env (d_env d) b)]).
Proof.
  assert (Z.of_nat (length (@nil Z)) <= FDPI_MAX_OUTPUT) as Hnil by (change FDPI_MAX_OUTPUT with 524288; cbn; lia).
  unfold run_helper. destruct (d_pipe_ok d); cbn [negb]; [|by eauto 10].
  destruct (d_helper d _) as [errno|reads status]; cbn [d_in d_sends d_out d_spawned].
  - do 3 (split; [reflexivity|]). split; [|by left].
    apply output_bound, append_output_ok, output_empty.
  - do 3 (split; [reflexivity|]). split; [|by right].
    apply output_bound, drain_ok, output_empty.
Qed.

(** The exit code reported for a helper that ran. *)
Definition exit_code (st : wait_status) : Z :=
  match st with Exited code => code | Signaled sig => 128 + sig | WaitFailed => 121 end.
Lemma run_helper_spawned d argv b reads st : d_pipe_ok d = true ->
  let sp := Spawn argv (helper_env (d_env d) b) in
  d_helper d sp = Spawned reads st -> (forall i, d_realloc d i = true) -> Forall (fun r => r <> Some []) reads ->
  exists d', run_helper strerror d argv b = (d', exit_code st, take (Z.to_nat FDPI_MAX_OUTPUT) (pieces reads)) /\
    d_sends d' = d_sends d /\ d_out d' = d_out d /\ d_spawned d' = d_spawned d ++ [sp].
Proof.
  intros Hp sp Hs Hr Hf. unfold run_helper. rewrite Hp. cbn [negb]. fold sp. rewrite Hs.
  eexists. split; [apply f_equal2; [reflexivity|]|by cbn].
  apply (drain_ok (d_realloc d) reads 0 (Output [] 0) output_empty); assumption.
Qed.

(** ** Answering *)

(** A possibly truncated response. *)
Definition responded (d d' : daemon) (status : Z) (out : list Z) : Prop :=
  exists sent, d_out d' = d_out d ++ sent /\ sent `prefix_of` response status out.

Lemma send_response_ok d status out : let d' := send_response d status out in
  d_spawned d' = d_spawned d /\ d_env d' = d_env d /\ responded d d' status out.
Proof.
  unfold send_response, responded, response. set (header := net32 FDPI_MAGIC ++ _ ++ _).
  pose proof (write_full_prefix (d_sends d) header) as W.
  destruct (write_full (d_sends d) header) as [[ok l] o1]. destruct W as [W1 W2].
  assert (response status out = header ++ out) as R by (unfold response, header; by rewrite <- !app_assoc).
  unfold response in R. rewrite R.
  destruct ok; cbn [negb d_spawned d_env d_out d_sends].
  - pose proof (write_full_prefix l out) as V. case_decide as Hl.
    + destruct (write_full l out) as [[ok2 l2] o2]. destruct V as [V1 V2]. cbn [d_spawned d_env d_out].
      do 2 (split; [reflexivity|]). exists (header ++ o2). rewrite (W2 eq_refl). split; [by rewrite app_assoc|].
      by apply prefix_app.
    + do 2 (split; [reflexivity|]). exists header. rewrite (W2 eq_refl). split; [reflexivity|]. by exists out.
  - do 2 (split; [reflexivity|]). exists o1. split; [reflexivity|]. by apply prefix_app_r.
Qed.

Lemma send_response_full d status out : Forall accepting (d_sends d) -> (12 + length out <= sends (d_sends d))%nat ->
  d_out (send_response d status out) = d_out d ++ response status out.
Proof.
  intros Ha Hn. unfold send_response, response.
  set (header := net32 FDPI_MAGIC ++ _ ++ _). assert (length header = 12%nat) as Hh by reflexivity.
  destruct (write_full_accepting _ Ha header) as (l & -> & Hl & Hs); [lia|]. cbn [negb d_sends d_out].
  case_decide as Hlen.
  - destruct (write_full_accepting _ Hl out) as (l' & -> & _); [lia|]. cbn [d_out]. unfold header. by rewrite <- !app_assoc.
  - destruct out; [|done]. cbn [d_out]. unfold header. by rewrite app_nil_r.
Qed.

(** The verb and the arguments of an accepted request. *)
Lemma accepted_ok command rest n l rest' b env : read_args n l = (Some (command :: rest), rest') ->
  Z.of_nat n <= FDPI_MAX_ARGS -> allowed_command command = true ->
  spawn_ok (Spawn (HELPER :: map c_str (command :: rest)) (helper_env env b)).
Proof.
  intros Hr Hn Ha. apply read_args_ok in Hr as [<- Hr]. exists (c_str command), (map c_str rest). cbn [sp_argv sp_env].
  destruct (helper_env_ok env b) as (E1 & E2 & E3).
  split; [reflexivity|]. split; [by apply allowed_command_in|]. split; [cbn [length] in *; by rewrite length_map|].
  split; [|split; [exact E1|split; [exact E2|rewrite E3; destruct b; auto]]].
  apply (proj2 (List.Forall_map c_str argument_ok (command :: rest))). eapply Forall_impl; [exact Hr|]. exact c_str_argument.
Qed.

(** C8: whatever a client sends, in whatever pieces and with whatever failures, the
    privileged daemon starts at most one program, and that program is the helper
    at its fixed path with 1 to 64 arguments of at most 16384 bytes without a
    NUL, the first of them from the fixed list of verbs, in an environment that
    has the Substrate opt-out, no injected library and the override flag set or
    absent; and whatever reaches the client is a prefix of one well-formed
    response with at most 512 KiB of output. *)
Theorem bridge_guard (d : daemon) : let d' := handle_client strerror d in
  (d_spawned d' = d_spawned d \/ exists sp, spawn_ok sp /\ d_spawned d' = d_spawned d ++ [sp]) /\
  (d_out d' = d_out d \/
   exists status out, Z.of_nat (length out) <= FDPI_MAX_OUTPUT /\ responded d d' status out).
Proof.
  unfold handle_client. cbv zeta.
  destruct (read_full (d_in d) 16) as [[header|] l]; [|split; by left].
  assert (forall l' status msg, Z.of_nat (length msg) <= FDPI_MAX_OUTPUT ->
    let d' := send_response (with_in (with_in d l) l') status msg in
    (d_spawned d' = d_spawned d \/ exists sp, spawn_ok sp /\ d_spawned d' = d_spawned d ++ [sp]) /\
    (d_out d' = d_out d \/ exists status out, Z.of_nat (length out) <= FDPI_MAX_OUTPUT /\ responded d d' status out)) as Hno.
  { intros l' status msg Hm. destruct (send_response_ok (with_in (with_in d l) l') status msg) as (S1 & _ & S2).
    split; [left; exact S1|]. right. by exists status, msg. }
  case_decide as Hbad; [apply (Hno l); vm_compute; discriminate|].
  destruct (read_args _ (d_in (with_in d l))) as [args l'] eqn:Er.
  assert (Z.of_nat (length (str "FuckDPIBridgeD: command denied" ++ [10])) <= FDPI_MAX_OUTPUT) as Hden by (vm_compute; discriminate).
  destruct args as [[|command rest]|]; [by apply Hno| |by apply Hno].
  destruct (allowed_command command) eqn:Ha; cbn [negb]; [|by apply Hno].
  set (argv := HELPER :: _). set (b := bool_decide _).
  pose proof (run_helper_ok (with_in (with_in d l) l') argv b) as R.
  destruct (run_helper _ _ argv b) as [[d1 status] out]. destruct R as (_ & _ & R3 & R4 & R5).
  destruct (send_response_ok d1 status out) as (S1 & _ & sent & S2 & S3). split.
  - rewrite S1. destruct R5 as [->| ->]; [by left|right]. eexists. split; [|reflexivity].
    apply (accepted_ok _ _ _ _ _ _ _ Er); [|exact Ha]. change FDPI_MAX_ARGS with 64 in *. lia.
  - right. exists status, out. split; [exact R4|]. exists sent. rewrite S2, R3. by split.
Qed.

(** A request from a connection that loses nothing. *)
Definition connected (d : daemon) (req : list Z) (need : nat) : Prop :=
  Forall clean (d_in d) /\ (exists extra, payload (d_in d) = req ++ extra) /\
  Forall accepting (d_sends d) /\ (need <= sends (d_sends d))%nat.

Lemma request_header d flags args need : connected d (request flags args) need -> 0 <= flags < 2 ^ 32 ->
  exists header rest extra, read_full (d_in d) 16 = (Some header, rest) /\ Forall clean rest /\
    payload rest = concat (map (fun a => net32 (Z.of_nat (length a)) ++ a) args) ++ extra /\
    header = net32 FDPI_MAGIC ++ net32 FDPI_VERSION ++ net32 flags ++ net32 (Z.of_nat (length args)).
Proof.
  intros (Hc & (extra & E) & _) Hf. unfold request in E.
  set (body := concat _) in *. rewrite !(app_assoc (net32 _)), <- !app_assoc in E.
  destruct (read_full_clean _ Hc (net32 FDPI_MAGIC ++ net32 FDPI_VERSION ++ net32 flags ++ net32 (Z.of_nat (length args))) (body ++ extra))
    as (rest & R1 & R2 & R3); [by rewrite E, <- !app_assoc|].
  by exists (net32 FDPI_MAGIC ++ net32 FDPI_VERSION ++ net32 flags ++ net32 (Z.of_nat (length args))), rest, extra.
Qed.

(** The four words of the header. *)
Lemma header_fields a b c e : 0 <= a < 2 ^ 32 -> 0 <= b < 2 ^ 32 -> 0 <= c < 2 ^ 32 -> 0 <= e < 2 ^ 32 ->
  let h := net32 a ++ net32 b ++ net32 c ++ net32 e in
  ntohl (slice h 0 4) = a /\ ntohl (slice h 4 4) = b /\ ntohl (slice h 8 4) = c /\ ntohl (slice h 12 4) = e.
Proof.
  intros Ha Hb Hc He h. split; [exact (ntohl_net32 a Ha)|]. split; [exact (ntohl_net32 b Hb)|].
  split; [exact (ntohl_net32 c Hc)|exact (ntohl_net32 e He)].
Qed.

(** The daemon's answer to a request, as a function of the request. *)
Definition refusal (status : Z) (msg : list Z) : list Z := response status (msg ++ [10]).

(** a request encoded as the protocol says, delivered in any pieces, is parsed
    back to the arguments it was built from: with an allowed verb the helper is
    started with exactly those arguments (as C strings) and the client receives
    its exit status and the first 512 KiB of its output; a verb that is not on
    the list is answered with status 123 and nothing is started, and a request
    with no argument or more than 64 with status 122. *)
Theorem bridge_serves (d : daemon) (flags : Z) (args : list (list Z)) (Hflags : 0 <= flags < 2 ^ 32)
  (Hlen : Z.of_nat (length args) < 2 ^ 32) (Hargs : Forall (fun a => Z.of_nat (length a) <= FDPI_MAX_ARG) args)
  (Hd : connected d (request flags args) (Z.to_nat (12 + FDPI_MAX_OUTPUT))) (Hpipe : d_pipe_ok d = true)
  (Hmem : forall i, d_realloc d i = true) :
  let d' := handle_client strerror d in
  match args with
  | command :: _ =>
      if decide (FDPI_MAX_ARGS < Z.of_nat (length args)) then
        d_spawned d' = d_spawned d /\ d_out d' = d_out d ++ refusal 122 (str "FuckDPIBridgeD: invalid request")
      else if decide (In (c_str command) allowed) then
        let sp := Spawn (HELPER :: map c_str args)
          (helper_env (d_env d) (bool_decide (Z.land flags FDPI_FLAG_ALLOW_UNSUPPORTED <> 0))) in
        forall reads st, d_helper d sp = Spawned reads st -> Forall (fun r => r <> Some []) reads ->
        d_spawned d' = d_spawned d ++ [sp] /\
        d_out d' = d_out d ++ response (exit_code st) (take (Z.to_nat FDPI_MAX_OUTPUT) (pieces reads))
      else d_spawned d' = d_spawned d /\ d_out d' = d_out d ++ refusal 123 (str "FuckDPIBridgeD: command denied")
  | [] => d_spawned d' = d_spawned d /\ d_out d' = d_out d ++ refusal 122 (str "FuckDPIBridgeD: invalid request")
  end.
Proof.
  cbv zeta. destruct (request_header _ _ _ _ Hd Hflags) as (header & rest & extra & R & Hc & E & ->).
  destruct Hd as (_ & _ & Ha & Hn). change FDPI_MAX_OUTPUT with 524288 in Hn.
  change FDPI_MAX_ARG with 16384 in *.
  assert (forall l status msg, (length msg <= 1000)%nat ->
    let d' := send_response (with_in (with_in d rest) l) status msg in
    d_spawned d' = d_spawned d /\ d_out d' = d_out d ++ response status msg) as Hno.
  { intros l status msg Hm. split; [exact (proj1 (send_response_ok (with_in (with_in d rest) l) status msg))|].
    apply (send_response_full (with_in (with_in d rest) l)); cbn [with_in d_sends]; [exact Ha|lia]. }
  unfold handle_client. rewrite R.
  destruct (header_fields FDPI_MAGIC FDPI_VERSION flags (Z.of_nat (length args))) as (E1 & E2 & E3 & E4);
    [vm_compute; split; congruence|vm_compute; split; congruence|exact Hflags|lia|].
  rewrite E1, E2, E3, E4. change FDPI_MAX_ARGS with 64.
  destruct args as [|command args].
  { rewrite (decide_True (P := FDPI_MAGIC <> FDPI_MAGIC \/ _)) by (right; right; by left). apply (Hno rest). cbn. lia. }
  destruct (decide (64 < Z.of_nat (length (command :: args)))) as [H64|H64].
  { rewrite (decide_True (P := FDPI_MAGIC <> FDPI_MAGIC \/ _)) by (do 3 right; exact H64). apply (Hno rest). cbn. lia. }
  rewrite (decide_False (P := FDPI_MAGIC <> FDPI_MAGIC \/ _)) by (intros [N|[N|[N|N]]]; [by apply N|by apply N|cbn [length] in *; lia|exact (H64 N)]).
  rewrite Nat2Z.id. cbn [with_in d_in].
  destruct (read_args_clean _ Hargs _ _ Hc E) as (rest2 & R2 & _). rewrite R2.
  destruct (decide (In (c_str command) allowed)) as [Hin|Hin].
  - apply allowed_command_in in Hin as ->. cbn [negb]. intros reads st Hs Hf.
    destruct (run_helper_spawned (with_in (with_in d rest) rest2) _ _ reads st Hpipe Hs Hmem Hf) as (d1 & R1 & D1 & D2 & D3).
    cbn [with_in d_env] in R1. unfold with_in in R1 |- *. cbn [d_in d_sends d_out d_env d_pipe_ok d_realloc d_helper d_spawned] in R1 |- *.
    rewrite R1. cbn [with_in d_sends d_out d_spawned] in D1, D2, D3. split.
    + exact (eq_trans (proj1 (send_response_ok d1 _ _)) D3).
    + rewrite <- D2. apply send_response_full; rewrite D1; [exact Ha|]. rewrite length_take.
      change FDPI_MAX_OUTPUT with 524288. lia.
  - destruct (allowed_command command) eqn:Hal; [by apply allowed_command_in in Hal|]. cbn [negb].
    apply (Hno rest2). cbn. lia.
Qed.

End theorems.

(** A client that asks for the status, byte by byte, with the override flag. *)
Lemma bridge_serves_witness : exists d,
  let d' := handle_client (fun _ => []) d in
  d_spawned d' = [Spawn [HELPER; str "status"] (helper_env (d_env d) true)] /\
  d_out d' = response 3 (str "up").
Proof.
  set (req := request 1 [str "status"]).
  exists (Daemon (REintr :: map (fun b => RData [b]) req) (replicate (Z.to_nat (12 + FDPI_MAX_OUTPUT)) (SSent 1%nat)) []
    {[str "DYLD_INSERT_LIBRARIES" := str "x"]} true (fun _ => true)
    (fun _ => Spawned [Some (str "u"); None; Some (str "p")] (Exited 3)) []).
  set (d := Daemon _ _ _ _ _ _ _ _). cbv zeta.
  assert (forall n, Forall accepting (replicate n (SSent 1%nat)) /\ sends (replicate n (SSent 1%nat)) = n) as Hrep.
  { intros n. induction n as [|n [I1 I2]]; [by split|]. split; [apply Forall_cons_2; [cbn; lia|exact I1]|].
    cbn [replicate sends foldr]. fold (sends (replicate n (SSent 1%nat))). by rewrite I2. }
  destruct (Hrep (Z.to_nat (12 + FDPI_MAX_OUTPUT))) as [Hr1 Hr2].
  assert (connected d req (Z.to_nat (12 + FDPI_MAX_OUTPUT))) as Hc.
  { split; [|split; [exists []; vm_compute; reflexivity|split; [exact Hr1|cbn [d d_sends]; rewrite Hr2; exact (le_n _)]]].
    cbn [d d_in]. apply Forall_cons_2; [exact I|]. apply List.Forall_map, List.Forall_forall. intros b _. discriminate. }
  refine (bridge_serves (fun _ => []) d 1 [str "status"] _ _ _ Hc eq_refl (fun _ => eq_refl)
    [Some (str "u"); None; Some (str "p")] (Exited 3) eq_refl _).
  - split; [discriminate|reflexivity].
  - vm_compute. reflexivity.
  - apply Forall_cons_2; [vm_compute; discriminate|constructor].
  - repeat (apply Forall_cons_2; [discriminate|]). constructor.
Defined.
