(* ===== verification/Exn.v ===== *)
(** * State and C++ exceptions

    A monad for code that mutates a state and may throw: an exception keeps the
    mutations made before it, and a failed [assert] or [abort()] is a result of
    its own. *)

From S2P Require Import Prelude.

Inductive outcome (A : Type) := Value (a : A) | Thrown | Aborted.
Arguments Value {A} a.
Arguments Thrown {A}.
Arguments Aborted {A}.

Definition M (S A : Type) : Type := S -> outcome A * S.
(** A function of the state as a computation. *)
Abbreviation act f := (f : M _ _).

#[export] Instance M_ret S : MRet (M S) := fun A a s => (Value a, s).
#[export] Instance M_bind S : MBind (M S) := fun A B f m s =>
  match m s with
  | (Value a, s) => f a s
  | (Thrown, s) => (Thrown, s)
  | (Aborted, s) => (Aborted, s)
  end.
Definition throw {S A} : M S A := fun s => (Thrown, s).
Definition abort {S A} : M S A := fun s => (Aborted, s).
Definition get {S} : M S S := fun s => (Value s, s).
Definition put {S} (s : S) : M S unit := fun _ => (Value tt, s).
Definition modify {S} (f : S -> S) : M S unit := fun s => (Value tt, f s).
Definition gets {S A} (f : S -> A) : M S A := fun s => (Value (f s), s).
Definition when {S} (b : bool) (m : M S unit) : M S unit := if b then m else mret tt.

(** Run on one component of a larger state. *)
Definition zoom {S T A} (proj : S -> T) (inj : T -> S -> S) (m : M T A) : M S A := fun s =>
  let '(o, t) := m (proj s) in (o, inj t s).

Fixpoint iterate {S} (n : nat) (m : M S unit) : M S unit :=
  match n with O => mret tt | S n => m ;; iterate n m end.
Fixpoint iterate_list {S A} (f : A -> M S unit) (l : list A) : M S unit :=
  match l with [] => mret tt | a :: l => f a ;; iterate_list f l end.

(** A loop with an accumulator. *)
Fixpoint fold_list {S A B} (f : B -> A -> M S B) (b : B) (l : list A) : M S B :=
  match l with [] => mret b | a :: l => b ← f b a; fold_list f b l end.

Lemma run_bind {S A B} (m : M S A) (f : A -> M S B) s a t : m s = (Value a, t) -> (m ≫= f) s = f a t.
Proof. intros E. unfold mbind, M_bind. by rewrite E. Qed.

(** ** Invariants

    [safe b I m]: from a state with the invariant, [m] neither fails an assertion nor
    aborts, it throws nothing unless [b] allows exceptions, and the invariant holds
    again however it ends. *)

Definition safe {S A} (b : bool) (I : S -> Prop) (m : M S A) : Prop := forall s, I s ->
  match m s with (Value _, t) => I t | (Thrown, t) => b = true /\ I t | (Aborted, _) => False end.
(** No assertion fails, whatever the state. *)
Definition no_abort {S A} (m : M S A) : Prop := forall s, (m s).1 <> Aborted.

(** With a precondition, a postcondition, and what holds after an exception. *)
Definition triple {S A} (P : S -> Prop) (m : M S A) (Q : A -> S -> Prop) (L : S -> Prop) : Prop := forall s, P s ->
  match m s with (Value a, t) => Q a t | (Thrown, t) => L t | (Aborted, _) => False end.
Lemma triple_bind {S A B} P (m : M S A) Q (f : A -> M S B) R L :
  triple P m Q L -> (forall a, triple (Q a) (f a) R L) -> triple P (m ≫= f) R L.
Proof. intros Hm Hf s Hs. unfold mbind, M_bind. specialize (Hm s Hs). destruct (m s) as [[a| |] t]; [by apply Hf|done|done]. Qed.
Lemma triple_bind_get {S B} P (f : S -> M S B) R L : (forall s, P s -> triple P (f s) R L) -> triple P (get ≫= f) R L.
Proof. intros Hf s Hs. by apply Hf. Qed.
Lemma triple_ret {S A} (P : A -> S -> Prop) L a : triple (P a) (mret a) P L.
Proof. by intros s Hs. Qed.
Lemma triple_weaken {S A} (P P' : S -> Prop) (m : M S A) (Q Q' : A -> S -> Prop) (L L' : S -> Prop) :
  triple P m Q L -> (forall s, P' s -> P s) -> (forall a s, Q a s -> Q' a s) -> (forall s, L s -> L' s) -> triple P' m Q' L'.
Proof. intros Hm HP HQ HL s Hs. specialize (Hm s (HP s Hs)). destruct (m s) as [[a| |] t]; [by apply HQ|by apply HL|done]. Qed.
(** A safe computation, where exceptions are allowed and where they are not. *)
Lemma triple_safe {S A} (I : S -> Prop) (m : M S A) : triple I m (fun _ => I) I <-> safe true I m.
Proof. split; intros H s Hs; specialize (H s Hs); destruct (m s) as [[a| |] t]; [done|done|done|done|by destruct H|done]. Qed.
Lemma triple_sure {S A} (I : S -> Prop) (m : M S A) : triple I m (fun _ => I) (fun _ => False) <-> safe false I m.
Proof. split; intros H s Hs; specialize (H s Hs); destruct (m s) as [[a| |] t]; [done|done|done|done|by destruct H|done]. Qed.
Lemma safe_result {S A} (I : S -> Prop) (m : M S A) s : safe true I m -> I s -> (m s).1 <> Aborted /\ I (m s).2.
Proof. intros Hm Hs. specialize (Hm s Hs). destruct (m s) as [[a| |] t]; [done|by destruct Hm|done]. Qed.
Lemma sure_result {S} (I : S -> Prop) (m : M S unit) s : safe false I m -> I s -> (m s).1 = Value tt /\ I (m s).2.
Proof. intros Hm Hs. specialize (Hm s Hs). destruct (m s) as [[[]| |] t]; [done|by destruct Hm|done]. Qed.
Lemma safe_any {S A} b (I : S -> Prop) (m : M S A) : safe false I m -> safe b I m.
Proof. intros Hm s Hs. specialize (Hm s Hs). destruct (m s) as [[a| |] t]; [done|by destruct Hm|done]. Qed.

Section safe.
Context {S : Type} (b : bool) (I : S -> Prop).

Lemma safe_ret {A} (a : A) : safe b I (mret a).
Proof. by intros s Hs. Qed.
Lemma safe_throw {A} : safe true I (@throw S A).
Proof. by intros s Hs. Qed.
Lemma safe_gets {A} (f : S -> A) : safe b I (gets f).
Proof. by intros s Hs. Qed.
Lemma safe_bind {A B} (m : M S A) (f : A -> M S B) : safe b I m -> (forall a, safe b I (f a)) -> safe b I (m ≫= f).
Proof. intros Hm Hf s Hs. unfold mbind, M_bind. specialize (Hm s Hs). destruct (m s) as [[a| |] t]; [by apply Hf|done|done]. Qed.
(** What is read from the state satisfies the invariant. *)
Lemma safe_bind_get {B} (f : S -> M S B) : (forall s, I s -> safe b I (f s)) -> safe b I (get ≫= f).
Proof. intros Hf s Hs. by apply Hf. Qed.
Lemma safe_bind_gets {A B} (g : S -> A) (f : A -> M S B) : (forall s, I s -> safe b I (f (g s))) -> safe b I (gets g ≫= f).
Proof. intros Hf s Hs. by apply Hf. Qed.
Lemma safe_modify f : (forall s, I s -> I (f s)) -> safe b I (modify f).
Proof. intros H s Hs. by apply H. Qed.
Lemma safe_when c (m : M S unit) : (c = true -> safe b I m) -> safe b I (when c m).
Proof. destruct c; [by auto|]. by intros _ s Hs. Qed.
Lemma safe_iterate n (m : M S unit) : safe b I m -> safe b I (iterate n m).
Proof. intros H. induction n as [|n IH]; [by intros s Hs|]. by apply safe_bind. Qed.
Lemma safe_iterate_list {A} (f : A -> M S unit) l : (forall a, safe b I (f a)) -> safe b I (iterate_list f l).
Proof. intros H. induction l as [|a l IH]; [by intros s Hs|]. by apply safe_bind. Qed.
Lemma safe_fold_list {A B} (f : B -> A -> M S B) l : (forall x a, safe b I (f x a)) -> forall x, safe b I (fold_list f x l).
Proof. intros H. induction l as [|a l IH]; intros x; [by intros s Hs|]. by apply safe_bind. Qed.
End safe.

(** A computation on a part of the state. *)
Lemma safe_zoom {S T A} b (I : S -> Prop) (J : T -> Prop) (proj : S -> T) (inj : T -> S -> S) (m : M T A) :
  safe b J m -> (forall s, I s -> J (proj s)) -> (forall s t, I s -> J t -> I (inj t s)) -> safe b I (zoom proj inj m).
Proof.
  intros Hm Hp Hi s Hs. unfold zoom. specialize (Hm (proj s) (Hp s Hs)).
  destruct (m (proj s)) as [[a| |] t]; [by apply Hi| |done]. destruct Hm as [-> Ht]. split; [done|by apply Hi].
Qed.

Lemma no_abort_ret {S A} (a : A) : no_abort (S := S) (mret a).
Proof. by intros s. Qed.
Lemma no_abort_bind {S A B} (m : M S A) (f : A -> M S B) : no_abort m -> (forall a, no_abort (f a)) -> no_abort (m ≫= f).
Proof. intros Hm Hf s. unfold mbind, M_bind. specialize (Hm s). destruct (m s) as [[a| |] t]; [by apply Hf|done|done]. Qed.
Lemma no_abort_when {S} b (m : M S unit) : (b = true -> no_abort m) -> no_abort (when b m).
Proof. destruct b; [by auto|]. by intros _ s. Qed.
Lemma no_abort_iterate_list {S A} (f : A -> M S unit) l : (forall a, no_abort (f a)) -> no_abort (iterate_list f l).
Proof. intros H. induction l as [|a l IH]; [by intros s|]. by apply no_abort_bind. Qed.

Create HintDb safe.
#[export] Hint Resolve safe_ret safe_throw safe_gets no_abort_ret : safe.
(** Down the structure of a computation, to the operations the hints know. *)
Ltac safe_step :=
  lazymatch goal with
  | |- safe _ _ (mbind _ get) => apply safe_bind_get; intros ? ?
  | |- safe _ _ (mbind _ (gets _)) => apply safe_bind_gets; intros ? ?
  | |- safe _ _ (mbind _ _) => apply safe_bind; [|intros ?]
  | |- safe _ _ (when _ _) => apply safe_when; intros ?
  | |- safe _ _ (iterate _ _) => apply safe_iterate
  | |- safe _ _ (iterate_list _ _) => apply safe_iterate_list; intros ?
  | |- safe _ _ (fold_list _ _ _) => apply safe_fold_list; intros ? ?
  | |- no_abort (mbind _ _) => apply no_abort_bind; [|intros ?]
  | |- no_abort (when _ _) => apply no_abort_when; intros ?
  | |- no_abort (iterate_list _ _) => apply no_abort_iterate_list; intros ?
  | |- safe _ _ (if ?b then _ else _) => destruct b eqn:?
  | |- safe _ _ (match ?x with _ => _ end) => destruct x eqn:?
  | |- no_abort (if ?b then _ else _) => destruct b eqn:?
  | |- no_abort (match ?x with _ => _ end) => destruct x eqn:?
  end.
Ltac safe_go := repeat (first [solve [eauto with safe nocore] | progress cbv zeta | safe_step]).
