(* ===== verification/VoipBuffers.v ===== *)
(** * libtgvoip: byte streams and the buffer pool

    [src/submodules/libtgvoip/Buffers.cpp] and [Buffers.h]: [BufferInputStream],
    [BufferOutputStream] and [BufferPool]. A pool buffer is its index in the
    pool. [std::out_of_range] is [Thrown]; allocations are taken to succeed. *)

From S2P Require Import Prelude Exn.

(** ** [BufferInputStream] *)

Record in_stream := InStream { i_buffer : list Z; i_offset : nat }.
Definition new_input (data : list Z) : in_stream := InStream data 0.

Definition Seek (offset : nat) : M in_stream unit := fun s =>
  if decide (length (i_buffer s) < offset)%nat then (Thrown, s) else (Value tt, InStream (i_buffer s) offset).
Definition GetOffset : M in_stream nat := fun s => (Value (i_offset s), s).
Definition Remaining : M in_stream nat := fun s => (Value (length (i_buffer s) - i_offset s)%nat, s).

Definition EnsureEnoughRemaining (need : nat) : M in_stream unit := fun s =>
  if decide (length (i_buffer s) - i_offset s < need)%nat then (Thrown, s) else (Value tt, s).

(** [buffer[offset + i]], and [offset += n]. *)
Definition at_offset (i : nat) : M in_stream Z := fun s => (Value (i_buffer s).[i_offset s + i], s).
Definition skip (n : nat) : M in_stream unit := fun s => (Value tt, InStream (i_buffer s) (i_offset s + n)).

Definition ReadByte : M in_stream Z :=
  EnsureEnoughRemaining 1 ;; b ← at_offset 0; skip 1 ;; mret b.

Definition ReadInt32 : M in_stream Z :=
  EnsureEnoughRemaining 4 ;;
  b0 ← at_offset 0; b1 ← at_offset 1; b2 ← at_offset 2; b3 ← at_offset 3;
  skip 4 ;;
  mret (i32 (Z.lor (Z.lor (Z.lor (Z.land b0 0xFF) (Z.shiftl (Z.land b1 0xFF) 8))
                          (Z.shiftl (Z.land b2 0xFF) 16)) (Z.shiftl (Z.land b3 0xFF) 24))).

Definition ReadInt64 : M in_stream Z :=
  EnsureEnoughRemaining 8 ;;
  b0 ← at_offset 0; b1 ← at_offset 1; b2 ← at_offset 2; b3 ← at_offset 3;
  b4 ← at_offset 4; b5 ← at_offset 5; b6 ← at_offset 6; b7 ← at_offset 7;
  skip 8 ;;
  mret (i64 (Z.lor (Z.lor (Z.lor (Z.lor (Z.lor (Z.lor (Z.lor (Z.land b0 0xFF) (Z.shiftl (Z.land b1 0xFF) 8))
    (Z.shiftl (Z.land b2 0xFF) 16)) (Z.shiftl (Z.land b3 0xFF) 24)) (Z.shiftl (Z.land b4 0xFF) 32))
    (Z.shiftl (Z.land b5 0xFF) 40)) (Z.shiftl (Z.land b6 0xFF) 48)) (Z.shiftl (Z.land b7 0xFF) 56))).

Definition i16 (x : Z) : Z := u16 (x + 0x8000) - 0x8000.
Definition ReadInt16 : M in_stream Z :=
  EnsureEnoughRemaining 2 ;;
  b0 ← at_offset 0; b1 ← at_offset 1;
  skip 2 ;;
  mret (i16 (Z.lor b0 (Z.shiftl b1 8))).

(** [NDEBUG]: whether the assertion is compiled out. *)
Definition ReadTlLength (NDEBUG : bool) : M in_stream Z :=
  l ← ReadByte;
  if decide (l < 254) then mret l else
  rest ← Remaining;
  (if negb NDEBUG && bool_decide (rest < 3)%nat then abort else mret tt) ;;
  EnsureEnoughRemaining 3 ;;
  b0 ← at_offset 0; b1 ← at_offset 1; b2 ← at_offset 2;
  skip 3 ;;
  mret (Z.lor (Z.lor (Z.land b0 0xFF) (Z.shiftl (Z.land b1 0xFF) 8)) (Z.shiftl (Z.land b2 0xFF) 16)).

Definition ReadBytes (count : nat) : M in_stream (list Z) := fun s =>
  (EnsureEnoughRemaining count ;;
   skip count ;;
   mret (slice (i_buffer s) (i_offset s) count)) s.

Definition GetPartBuffer (length : nat) (advance : bool) : M in_stream in_stream := fun s =>
  (EnsureEnoughRemaining length ;;
   when advance (skip length) ;;
   mret (new_input (slice (i_buffer s) (i_offset s) length))) s.

(** ** [BufferOutputStream]

    [o_buffer] is the whole allocation, [o_provided] whether the caller owns it.
    Cells a [realloc] adds are indeterminate; they are zeros here. *)

Record out_stream := OutStream { o_buffer : list Z; o_offset : nat; o_provided : bool }.
Definition new_output (size : nat) : out_stream := OutStream (zeros size) 0 false.
Definition output_on (buffer : list Z) : out_stream := OutStream buffer 0 true.

Definition ExpandBufferIfNeeded (need : nat) : M out_stream unit := fun s =>
  let size := length (o_buffer s) in
  if decide (size < o_offset s + need)%nat then
    if o_provided s then (Thrown, s) else
    let grow := if decide (need < 1024)%nat then 1024%nat else need in
    (Value tt, OutStream (o_buffer s ++ zeros grow) (o_offset s) (o_provided s))
  else (Value tt, s).

(** The stores at [buffer + offset], then [offset += length bytes]. *)
Definition emit (bytes : list Z) : M out_stream unit := fun s =>
  (Value tt, OutStream (store (o_buffer s) (o_offset s) bytes) (o_offset s + length bytes) (o_provided s)).

Definition WriteByte (byte : Z) : M out_stream unit := ExpandBufferIfNeeded 1 ;; emit [byte].
Definition WriteInt32 (i : Z) : M out_stream unit :=
  ExpandBufferIfNeeded 4 ;; emit [u8 i; u8 (Z.shiftr i 8); u8 (Z.shiftr i 16); u8 (Z.shiftr i 24)].
Definition WriteInt64 (i : Z) : M out_stream unit :=
  ExpandBufferIfNeeded 8 ;;
  emit [u8 i; u8 (Z.shiftr i 8); u8 (Z.shiftr i 16); u8 (Z.shiftr i 24);
        u8 (Z.shiftr i 32); u8 (Z.shiftr i 40); u8 (Z.shiftr i 48); u8 (Z.shiftr i 56)].
Definition WriteInt16 (i : Z) : M out_stream unit := ExpandBufferIfNeeded 2 ;; emit [u8 i; u8 (Z.shiftr i 8)].
Definition WriteBytes (bytes : list Z) : M out_stream unit := ExpandBufferIfNeeded (length bytes) ;; emit bytes.

(** The bytes written so far: [GetBuffer()] up to [GetLength()]. *)
Definition written (s : out_stream) : list Z := take (o_offset s) (o_buffer s).
Definition Reset : M out_stream unit := modify (fun s => OutStream (o_buffer s) 0 (o_provided s)).
Definition Rewind (numBytes : nat) : M out_stream unit := fun s =>
  if decide (o_offset s < numBytes)%nat then (Thrown, s)
  else (Value tt, OutStream (o_buffer s) (o_offset s - numBytes) (o_provided s)).

(** ** [BufferPool] *)

Record buffer_pool := Pool { usedBuffers : Z; bufferCount : nat; p_size : nat; p_mem : list (list Z) }.
Definition new_pool (NDEBUG : bool) (size count : nat) (mem : list (list Z)) : outcome buffer_pool :=
  if negb NDEBUG && bool_decide (64 < count)%nat then Aborted else Value (Pool 0 count size mem).

Fixpoint first_free (n i : nat) (used : Z) : option nat :=
  match n with
  | O => None
  | S n => if decide (Z.land (Z.shiftr used (Z.of_nat i)) 1 = 0) then Some i else first_free n (S i) used
  end.
(** [None] is [NULL]. *)
Definition Get : M buffer_pool (option nat) := fun p =>
  match first_free (bufferCount p) 0 (usedBuffers p) with
  | Some i => (Value (Some i), Pool (u64 (Z.lor (usedBuffers p) (Z.shiftl 1 (Z.of_nat i)))) (bufferCount p) (p_size p) (p_mem p))
  | None => (Value None, p)
  end.
(** A pointer that is not a buffer of the pool aborts. *)
Definition Reuse (buffer : nat) : M buffer_pool unit := fun p =>
  if decide (buffer < bufferCount p)%nat then
    (Value tt, Pool (u64 (Z.land (usedBuffers p) (Z.lnot (Z.shiftl 1 (Z.of_nat buffer))))) (bufferCount p) (p_size p) (p_mem p))
  else (Aborted, p).
(** [memcpy] to and from a pool buffer. *)
Definition pool_write (b : nat) (data : list Z) (p : buffer_pool) : buffer_pool :=
  Pool (usedBuffers p) (bufferCount p) (p_size p) (<[b := store (nth b (p_mem p) []) 0 data]> (p_mem p)).
Definition pool_read (b n : nat) (p : buffer_pool) : list Z := take n (nth b (p_mem p) []).

(** ** Reading *)

(** What is left to read, and the stream after [n] bytes. *)
Definition rest (s : in_stream) : list Z := drop (i_offset s) (i_buffer s).
Definition advance (n : nat) (s : in_stream) : in_stream := InStream (i_buffer s) (i_offset s + n).

Lemma rest_advance n s : rest (advance n s) = drop n (rest s).
Proof. unfold rest, advance. cbn. by rewrite drop_drop. Qed.
Lemma rest_new l : rest (new_input l) = l.
Proof. done. Qed.
Lemma rest_advance_app n s a k : rest s = a ++ k -> length a = n -> rest (advance n s) = k.
Proof. intros E <-. rewrite rest_advance, E. apply drop_app_length. Qed.
Lemma rest_length s a k : rest s = a ++ k -> (length (i_buffer s) - i_offset s = length a + length k)%nat.
Proof. intros E. apply (f_equal length) in E. unfold rest in E. rewrite length_drop, length_app in E. lia. Qed.

Lemma ensure_ok s a k n : rest s = a ++ k -> length a = n -> EnsureEnoughRemaining n s = (Value tt, s).
Proof. intros E <-. apply rest_length in E. unfold EnsureEnoughRemaining. rewrite decide_False; [done|lia]. Qed.
Lemma ensure_short s n : (length (rest s) < n)%nat -> EnsureEnoughRemaining n s = (Thrown, s).
Proof. intros H. unfold rest in H. rewrite length_drop in H. unfold EnsureEnoughRemaining. by rewrite decide_True. Qed.
Lemma at_rest s l i : rest s = l -> (i_buffer s).[i_offset s + i] = l.[i].
Proof. intros <-. unfold rest. by rewrite ix_drop. Qed.

(** Bytes shifted into place are the little-endian value. *)
Lemma or_snoc l b n : wf_bytes l -> n = 8 * Z.of_nat (length l) -> Z.lor (le_val l) (Z.shiftl b n) = le_val (l ++ [b]).
Proof.
  intros Hl ->. pose proof (le_val_bound l Hl) as Hb.
  assert (256 ^ Z.of_nat (length l) = 2 ^ (8 * Z.of_nat (length l))) as E by (by rewrite Z.pow_mul_r by lia).
  rewrite lor_add_shift by lia. rewrite le_val_app, E. cbn [le_val]. lia.
Qed.
Lemma le_val_1 b : b = le_val [b].
Proof. cbn. lia. Qed.
(** Rewrite a chain of shifted bytes, all of them known to be bytes. *)
Ltac or_bytes b := rewrite (le_val_1 b); rewrite !or_snoc by (first [reflexivity | wf]); cbn [app].

Lemma i32_mod x : i32 (x mod 2 ^ 32) = i32 x.
Proof. unfold i32. rewrite !u32_mod. change (2 ^ 32) with 4294967296. Z.div_mod_to_equations. lia. Qed.
Lemma i64_mod x : i64 (x mod 2 ^ 64) = i64 x.
Proof. unfold i64. rewrite !u64_mod. change (2 ^ 64) with 18446744073709551616. Z.div_mod_to_equations. lia. Qed.
Lemma i16_mod x : i16 (x mod 2 ^ 16) = i16 x.
Proof. unfold i16. rewrite !u16_mod. change (2 ^ 16) with 65536. Z.div_mod_to_equations. lia. Qed.
Lemma i16_id x : - 2 ^ 15 <= x < 2 ^ 15 -> i16 x = x.
Proof. unfold i16. rewrite u16_mod. change (2 ^ 15) with 32768. lia. Qed.
Lemma u32_i32 x : u32 (i32 x) = u32 x.
Proof. unfold i32. rewrite !u32_mod. Z.div_mod_to_equations. lia. Qed.
Lemma u16_i16 x : u16 (i16 x) = u16 x.
Proof. unfold i16. rewrite !u16_mod. Z.div_mod_to_equations. lia. Qed.
Lemma land_ff b : is_byte b -> Z.land b 0xFF = b.
Proof. intros Hb. by apply u8_id. Qed.

Lemma ReadByte_ok s b k : rest s = b :: k -> ReadByte s = (Value b, advance 1 s).
Proof.
  intros E. unfold ReadByte, mbind, M_bind. rewrite (ensure_ok s [b] k 1 E eq_refl). cbn.
  by rewrite (at_rest _ _ 0 E).
Qed.

Ltac reads E := unfold mbind, M_bind, at_offset, skip, mret, M_ret; rewrite !(at_rest _ _ _ E); cbn [app ix nth].

Lemma ReadInt32_ok s v k : rest s = le_bytes 4 v ++ k -> ReadInt32 s = (Value (i32 v), advance 4 s).
Proof.
  intros E. unfold ReadInt32. unfold mbind at 1, M_bind at 1. rewrite (ensure_ok s _ k 4 E) by len.
  reads E. unfold advance. f_equal. f_equal. cbn [le_bytes app]. unfold ix. cbn [nth]. rewrite !land_ff by apply u8_is_byte.
  or_bytes (u8 v). change [_; _; _; _] with (le_bytes 4 v). rewrite le_val_le_bytes. apply (i32_mod v).
Qed.
Lemma ReadInt16_ok s v k : rest s = le_bytes 2 v ++ k -> ReadInt16 s = (Value (i16 v), advance 2 s).
Proof.
  intros E. unfold ReadInt16. unfold mbind at 1, M_bind at 1. rewrite (ensure_ok s _ k 2 E) by len.
  reads E. unfold advance. f_equal. f_equal. cbn [le_bytes app]. unfold ix. cbn [nth].
  or_bytes (u8 v). change [_; _] with (le_bytes 2 v). rewrite le_val_le_bytes. apply (i16_mod v).
Qed.
Lemma ReadInt64_ok s v k : rest s = le_bytes 8 v ++ k -> ReadInt64 s = (Value (i64 v), advance 8 s).
Proof.
  intros E. unfold ReadInt64. unfold mbind at 1, M_bind at 1. rewrite (ensure_ok s _ k 8 E) by len.
  reads E. unfold advance. f_equal. f_equal. cbn [le_bytes app]. unfold ix. cbn [nth]. rewrite !land_ff by apply u8_is_byte.
  or_bytes (u8 v). change [_; _; _; _; _; _; _; _] with (le_bytes 8 v). rewrite le_val_le_bytes. apply (i64_mod v).
Qed.
Lemma ReadBytes_ok s a k n : rest s = a ++ k -> length a = n -> ReadBytes n s = (Value a, advance n s).
Proof.
  intros E Hn. unfold ReadBytes, mbind, M_bind. rewrite (ensure_ok s a k n E Hn). cbn.
  unfold slice. unfold rest in E. by rewrite E, <- Hn, take_app_length.
Qed.
Lemma Seek_ok s o : (o <= length (i_buffer s))%nat -> Seek o s = (Value tt, InStream (i_buffer s) o).
Proof. intros H. unfold Seek. rewrite decide_False; [done|lia]. Qed.

(** A length as the packet header writes it: one byte, or [254] and three. *)
Definition tl_length (n : Z) : list Z := if decide (n <= 253) then [u8 n] else 254 :: le_bytes 3 n.
Lemma ReadTlLength_ok nd s n k : 0 <= n < 2 ^ 24 -> rest s = tl_length n ++ k ->
  ReadTlLength nd s = (Value n, advance (length (tl_length n)) s).
Proof.
  intros Hn E. unfold ReadTlLength, tl_length in *. unfold mbind at 1, M_bind at 1. case_decide as Hd.
  - rewrite (ReadByte_ok s (u8 n) k E). rewrite (u8_id n) in * by lia. by rewrite decide_True by lia.
  - cbn [app] in E. rewrite (ReadByte_ok s 254 _ E). rewrite decide_False by lia.
    set (s1 := advance 1 s). assert (rest s1 = le_bytes 3 n ++ k) as E1 by (by apply (rest_advance_app 1 s [254] _ E)).
    pose proof (rest_length s1 _ _ E1) as L. rewrite length_le_bytes in L.
    unfold mbind at 1, M_bind at 1, Remaining. rewrite bool_decide_eq_false_2 by lia. rewrite andb_false_r.
    unfold mbind at 1, M_bind at 1. cbn [mret M_ret]. unfold mbind at 1, M_bind at 1.
    rewrite (ensure_ok s1 _ k 3 E1) by len. reads E1. unfold advance. cbn [length le_bytes]. f_equal; [|cbn; f_equal; lia].
    f_equal. cbn [le_bytes app]. unfold ix. cbn [nth]. rewrite !land_ff by apply u8_is_byte. or_bytes (u8 n).
    change [_; _; _] with (le_bytes 3 n). rewrite le_val_le_bytes. apply Z.mod_small. change (256 ^ Z.of_nat 3) with (2 ^ 24). lia.
Qed.

(** ** Writing *)

Definition out_ok (s : out_stream) : Prop := (o_offset s <= length (o_buffer s))%nat.
(** There is room for [n] bytes in a buffer of the caller. *)
Definition room (n : nat) (s : out_stream) : Prop :=
  o_provided s = true -> (o_offset s + n <= length (o_buffer s))%nat.
(** [bytes] have been appended. *)
Definition appended (bytes : list Z) (s s' : out_stream) : Prop :=
  out_ok s' /\ written s' = written s ++ bytes /\ o_provided s' = o_provided s /\
  o_offset s' = (o_offset s + length bytes)%nat /\
  (o_provided s = true -> length (o_buffer s') = length (o_buffer s)).

Lemma emit_ok s bytes : (o_offset s + length bytes <= length (o_buffer s))%nat ->
  exists s', emit bytes s = (Value tt, s') /\ appended bytes s s'.
Proof.
  intros H. eexists. split; [reflexivity|]. unfold appended, out_ok, written. cbn [o_offset o_buffer o_provided].
  rewrite length_store by lia. split; [lia|]. split; [|by split]. by apply take_store.
Qed.
Lemma write_ok s bytes n : out_ok s -> length bytes = n -> room n s ->
  exists s', (ExpandBufferIfNeeded n ;; emit bytes) s = (Value tt, s') /\ appended bytes s s'.
Proof.
  intros Hs <- Hr. unfold mbind, M_bind, ExpandBufferIfNeeded. case_decide as Hd; [|apply emit_ok; lia].
  destruct (o_provided s) eqn:Hp; [specialize (Hr Hp); lia|].
  set (g := if decide _ then 1024%nat else _).
  destruct (emit_ok (OutStream (o_buffer s ++ zeros g) (o_offset s) false) bytes) as (s' & E & A1 & A2 & A3 & A4 & A5).
  { cbn [o_buffer o_offset]. unfold out_ok in Hs. len. unfold g. case_decide; lia. }
  exists s'. split; [exact E|]. split; [exact A1|]. unfold written in A2 at 2. cbn [o_offset o_buffer] in A2, A4.
  rewrite take_app_le in A2 by exact Hs. split; [exact A2|].
  split; [by rewrite A3, Hp|]. split; [exact A4|congruence].
Qed.
Lemma write_full s bytes n : length bytes = n -> o_provided s = true -> (length (o_buffer s) < o_offset s + n)%nat ->
  (ExpandBufferIfNeeded n ;; emit bytes) s = (Thrown, s).
Proof. intros <- Hp Hn. unfold mbind, M_bind, ExpandBufferIfNeeded. by rewrite decide_True, Hp. Qed.

(** The fields of a message, and how the streams write and read each. *)
Inductive field := FByte (b : Z) | FInt16 (v : Z) | FInt32 (v : Z) | FInt64 (v : Z) | FBytes (l : list Z).
Definition field_ok (f : field) : Prop :=
  match f with
  | FByte b => is_byte b
  | FInt16 v => - 2 ^ 15 <= v < 2 ^ 15
  | FInt32 v => - 2 ^ 31 <= v < 2 ^ 31
  | FInt64 v => - 2 ^ 63 <= v < 2 ^ 63
  | FBytes l => wf_bytes l
  end.
Definition field_bytes (f : field) : list Z :=
  match f with
  | FByte b => [b] | FInt16 v => le_bytes 2 v | FInt32 v => le_bytes 4 v | FInt64 v => le_bytes 8 v | FBytes l => l
  end.
Definition write_field (f : field) : M out_stream unit :=
  match f with
  | FByte b => WriteByte b | FInt16 v => WriteInt16 v | FInt32 v => WriteInt32 v | FInt64 v => WriteInt64 v
  | FBytes l => WriteBytes l
  end.
(** Read a field of the same shape. *)
Definition read_field (f : field) : M in_stream field :=
  match f with
  | FByte _ => b ← ReadByte; mret (FByte b)
  | FInt16 _ => v ← ReadInt16; mret (FInt16 v)
  | FInt32 _ => v ← ReadInt32; mret (FInt32 v)
  | FInt64 _ => v ← ReadInt64; mret (FInt64 v)
  | FBytes l => b ← ReadBytes (length l); mret (FBytes b)
  end.
Fixpoint read_fields (fs : list field) : M in_stream (list field) :=
  match fs with [] => mret [] | f :: fs => x ← read_field f; xs ← read_fields fs; mret (x :: xs) end.

Lemma shiftr_shiftr8 v a b : 0 <= a -> 0 <= b -> Z.shiftr (Z.shiftr v a) b = Z.shiftr v (a + b).
Proof. intros. apply Z.shiftr_shiftr. lia. Qed.

Lemma write_field_ok f s : out_ok s -> room (length (field_bytes f)) s ->
  exists s', write_field f s = (Value tt, s') /\ appended (field_bytes f) s s'.
Proof.
  intros Hs Hr. destruct f; cbn [write_field field_bytes le_bytes] in *; try rewrite !shiftr_shiftr8 by done;
    (apply write_ok; [exact Hs|reflexivity|exact Hr]).
Qed.
Lemma write_field_full f s : o_provided s = true -> (length (o_buffer s) < o_offset s + length (field_bytes f))%nat ->
  write_field f s = (Thrown, s).
Proof. intros Hp Hn. destruct f; cbn [write_field field_bytes] in *; (apply write_full; [reflexivity|exact Hp|exact Hn]). Qed.

Lemma read_field_ok f s k : field_ok f -> rest s = field_bytes f ++ k ->
  read_field f s = (Value f, advance (length (field_bytes f)) s).
Proof.
  intros Hf E. destruct f; cbn [read_field field_bytes field_ok] in *; unfold mbind, M_bind.
  - by rewrite (ReadByte_ok _ _ _ E).
  - rewrite (ReadInt16_ok _ _ _ E), length_le_bytes. cbn. by rewrite i16_id.
  - rewrite (ReadInt32_ok _ _ _ E), length_le_bytes. cbn. by rewrite i32_id.
  - rewrite (ReadInt64_ok _ _ _ E), length_le_bytes. cbn. by rewrite i64_id.
  - by rewrite (ReadBytes_ok _ _ _ _ E eq_refl).
Qed.

Lemma appended_trans a b s t u : appended a s t -> appended b t u -> appended (a ++ b) s u.
Proof.
  intros (A1 & A2 & A3 & A4 & A5) (B1 & B2 & B3 & B4 & B5). split; [exact B1|]. rewrite B2, A2, app_assoc, B3, A3, length_app.
  split; [done|]. split; [done|]. split; [lia|]. intros Hp. rewrite B5, A5; [done|done|congruence].
Qed.
Lemma appended_nil s : out_ok s -> appended [] s s.
Proof. intros H. split; [exact H|]. rewrite app_nil_r. cbn. repeat split; lia. Qed.
Lemma room_appended n a s s' : appended a s s' -> room (length a + n) s -> room n s'.
Proof. intros (_ & _ & A3 & A4 & A5) Hr Hp. rewrite A3 in Hp. rewrite A4, A5 by done. specialize (Hr Hp). lia. Qed.

Definition message_bytes (fs : list field) : list Z := concat (map field_bytes fs).
Lemma write_fields_ok fs : forall s, out_ok s -> room (length (message_bytes fs)) s ->
  exists s', iterate_list write_field fs s = (Value tt, s') /\ appended (message_bytes fs) s s'.
Proof.
  induction fs as [|f fs IH]; intros s Hs Hr; [exists s; split; [reflexivity|by apply appended_nil]|].
  unfold message_bytes in Hr. cbn [map concat] in Hr. fold (message_bytes fs) in Hr. rewrite length_app in Hr.
  destruct (write_field_ok f s Hs) as (t & Et & At); [intros Hp; specialize (Hr Hp); lia|].
  destruct (IH t) as (u & Eu & Au); [apply At|by apply (room_appended _ _ _ _ At)|].
  exists u. cbn [iterate_list]. unfold mbind, M_bind. rewrite Et. split; [exact Eu|]. by apply (appended_trans _ _ _ t).
Qed.
(** The same, keeping only the bytes; this is how messages are assembled. *)
Lemma read_fields_ok fs : Forall field_ok fs -> forall s k, rest s = message_bytes fs ++ k ->
  read_fields fs s = (Value fs, advance (length (message_bytes fs)) s).
Proof.
  induction 1 as [|f fs Hf Hfs IH]; intros s k E.
  - cbn. unfold advance. rewrite Nat.add_0_r. by destruct s.
  - unfold message_bytes in E |- *. cbn [map concat read_fields] in *. fold (message_bytes fs) in *. rewrite <- app_assoc in E.
    unfold mbind, M_bind. rewrite (read_field_ok f s _ Hf E).
    rewrite (IH (advance (length (field_bytes f)) s) k) by (by apply (rest_advance_app _ _ _ _ E)).
    cbn. f_equal. unfold advance. cbn. f_equal. rewrite length_app. lia.
Qed.

(** any sequence of fields written to a stream is read back unchanged, with
    whatever follows it left unread. A stream that owns its buffer grows and never
    fails; on a buffer of the caller the writes succeed exactly when the fields
    fit, and a write that does not fit throws and changes nothing. *)
Theorem stream_roundtrip (s : out_stream) (fs : list field) (Hs : out_ok s) (Hfs : Forall field_ok fs) :
  (room (length (message_bytes fs)) s ->
   exists s', iterate_list write_field fs s = (Value tt, s') /\ appended (message_bytes fs) s s' /\
     forall before after, before = written s ->
       read_fields fs (InStream (written s' ++ after) (length before)) =
       (Value fs, InStream (written s' ++ after) (length (written s')))) /\
  (forall f, o_provided s = true -> (length (o_buffer s) < o_offset s + length (field_bytes f))%nat ->
   write_field f s = (Thrown, s)).
Proof.
  split; [|intros f; apply write_field_full]. intros Hr.
  destruct (write_fields_ok fs s Hs Hr) as (s' & E & A). exists s'. split; [exact E|]. split; [exact A|].
  destruct A as (_ & A & _). intros before after ->. rewrite (read_fields_ok fs Hfs _ after).
  - unfold advance. cbn [i_buffer i_offset]. do 2 f_equal. by rewrite A, length_app.
  - unfold rest. cbn [i_buffer i_offset]. rewrite A, <- app_assoc. apply drop_app_length.
Qed.

Lemma stream_roundtrip_witness :
  let fs := [FByte 7; FInt16 (-2); FInt32 (-5); FInt64 123456789012; FBytes [1; 2; 3]] in
  exists s', iterate_list write_field fs (new_output 4) = (Value tt, s') /\
    read_fields fs (InStream (written s' ++ [9]) 0) = (Value fs, InStream (written s' ++ [9]) 18).
Proof.
  intros fs. destruct (stream_roundtrip (new_output 4) fs) as [H _].
  - unfold out_ok. cbn. lia.
  - repeat (apply Forall_cons_2; [cbn; unfold is_byte; try lia|]); [|constructor]. repeat (apply Forall_cons_2; [unfold is_byte; lia|]). constructor.
  - destruct H as (s' & E & A & R); [discriminate|]. exists s'. split; [exact E|].
    destruct A as (_ & A & _). refine (eq_trans (R [] [9] eq_refl) _). by rewrite A.
Defined.

(** ** Grammars

    [takes m bytes a]: wherever [bytes] come next, [m] consumes exactly them and
    returns [a]. *)

Definition takes {A} (m : M in_stream A) (bytes : list Z) (a : A) : Prop :=
  forall s k, rest s = bytes ++ k -> m s = (Value a, advance (length bytes) s).

Lemma advance_advance m n s : advance n (advance m s) = advance (m + n) s.
Proof. unfold advance. cbn. f_equal. lia. Qed.
Lemma advance_0 s : advance 0 s = s.
Proof. destruct s. unfold advance. cbn. f_equal. lia. Qed.
Lemma takes_ret {A} (a : A) : takes (mret a) [] a.
Proof. intros s k E. by rewrite advance_0. Qed.
Lemma takes_bind {A B} (m : M in_stream A) (f : A -> M in_stream B) bs cs a b :
  takes m bs a -> takes (f a) cs b -> takes (m ≫= f) (bs ++ cs) b.
Proof.
  intros Hm Hf s k E. rewrite <- app_assoc in E. erewrite run_bind by (by apply (Hm s _ E)).
  rewrite (Hf _ k) by (by apply (rest_advance_app _ _ bs)). by rewrite advance_advance, length_app.
Qed.
Lemma takes_when (b : bool) (m : M in_stream unit) bs : (b = true -> takes m bs tt) -> takes (when b m) (if b then bs else []) tt.
Proof. destruct b; intros H; [by apply H|apply takes_ret]. Qed.
Lemma takes_byte b : takes ReadByte [b] b.
Proof. intros s k E. by rewrite (ReadByte_ok s b k E). Qed.
Lemma takes_int32 v : takes ReadInt32 (le_bytes 4 v) (i32 v).
Proof. intros s k E. by rewrite (ReadInt32_ok s v k E), length_le_bytes. Qed.
Lemma takes_int64 v : takes ReadInt64 (le_bytes 8 v) (i64 v).
Proof. intros s k E. by rewrite (ReadInt64_ok s v k E), length_le_bytes. Qed.
Lemma takes_bytes l n : length l = n -> takes (ReadBytes n) l l.
Proof. intros Hl s k E. by rewrite (ReadBytes_ok s l k n E Hl), Hl. Qed.
Lemma takes_tl nd n : 0 <= n < 2 ^ 24 -> takes (ReadTlLength nd) (tl_length n) n.
Proof. intros Hn s k E. by apply ReadTlLength_ok with k. Qed.

(** [emits m t bytes t']: with room for them [m] appends [bytes] to the stream, and
    takes the rest of the state from [t] to [t']. *)
Definition emits {T} (m : M (T * out_stream) unit) (t : T) (bytes : list Z) (t' : T) : Prop :=
  forall o, out_ok o -> room (length bytes) o -> exists o', m (t, o) = (Value tt, (t', o')) /\ appended bytes o o'.
(** An operation on the stream alone. *)
Definition output {T A} (m : M out_stream A) : M (T * out_stream) A := zoom snd (fun o s => (fst s, o)) m.

Lemma emits_ret {T} (t : T) : emits (mret tt) t [] t.
Proof. intros o Ho _. exists o. split; [done|by apply appended_nil]. Qed.
Lemma emits_bind {T} (m n : M (T * out_stream) unit) t bs u cs v : emits m t bs u -> emits n u cs v -> emits (m ;; n) t (bs ++ cs) v.
Proof.
  intros Hm Hn o Ho Hr. rewrite length_app in Hr. destruct (Hm o Ho) as (o1 & E1 & A1); [intros Hp; specialize (Hr Hp); lia|].
  destruct (Hn o1) as (o2 & E2 & A2); [apply A1|by apply (room_appended _ _ _ _ A1)|].
  exists o2. split; [by rewrite (run_bind _ _ _ _ _ E1)|by apply (appended_trans _ _ _ o1)].
Qed.
Lemma emits_get {T} (k : T -> M (T * out_stream) unit) t bs t' : emits (k t) t bs t' -> emits ('(t, _) ← get; k t) t bs t'.
Proof. intros H o Ho Hr. exact (H o Ho Hr). Qed.
Lemma emits_when {T} (b : bool) (m : M (T * out_stream) unit) t bs : (b = true -> emits m t bs t) -> emits (when b m) t (if b then bs else []) t.
Proof. destruct b; intros H; [by apply H|apply emits_ret]. Qed.
Lemma emits_field {T} f (t : T) : emits (output (write_field f)) t (field_bytes f) t.
Proof. intros o Ho Hr. destruct (write_field_ok f o Ho Hr) as (o' & E & A). exists o'. split; [|exact A]. unfold output, zoom. cbn. by rewrite E. Qed.
Lemma emits_byte {T} b (t : T) : emits (output (WriteByte b)) t [b] t.
Proof. apply (emits_field (FByte b)). Qed.
Lemma emits_int32 {T} v (t : T) : emits (output (WriteInt32 v)) t (le_bytes 4 v) t.
Proof. apply (emits_field (FInt32 v)). Qed.
Lemma emits_int64 {T} v (t : T) : emits (output (WriteInt64 v)) t (le_bytes 8 v) t.
Proof. apply (emits_field (FInt64 v)). Qed.
Lemma emits_bytes {T} l (t : T) : emits (output (WriteBytes l)) t l t.
Proof. apply (emits_field (FBytes l)). Qed.
Lemma emits_output_bind {T} (m n : M out_stream unit) (t : T) bs cs :
  emits (output m) t bs t -> emits (output n) t cs t -> emits (output (m ;; n)) t (bs ++ cs) t.
Proof.
  intros Hm Hn o Ho Hr. destruct (emits_bind _ _ t bs t cs t Hm Hn o Ho Hr) as (o' & E & A). exists o'. split; [|exact A].
  revert E. unfold output, zoom, mbind, M_bind. cbn. destruct (m o) as [[[]| |] o1]; cbn; [|done|done].
  destruct (n o1) as [[[]| |] o2]; cbn; done.
Qed.
Ltac emit1 :=
  lazymatch goal with
  | |- emits (output (WriteByte _)) _ _ _ => apply emits_byte
  | |- emits (output (WriteInt32 _)) _ _ _ => apply emits_int32
  | |- emits (output (WriteInt64 _)) _ _ _ => apply emits_int64
  | |- emits (output (WriteBytes _)) _ _ _ => apply emits_bytes
  | |- emits (mret tt) _ _ _ => apply emits_ret
  end.
(** One field after the other, in the order of the bytes. *)
Ltac emits_fields := repeat (lazymatch goal with |- emits (mbind _ _) ?t (_ ++ _) _ => apply emits_bind with t; [solve [emit1]|] end).

(** ** The pool *)

Definition pool_ok (p : buffer_pool) : Prop :=
  is_u64 (usedBuffers p) /\ (bufferCount p <= 64)%nat /\ length (p_mem p) = bufferCount p /\
  Forall (fun b => length b = p_size p) (p_mem p).
Definition in_use (p : buffer_pool) (i : nat) : bool := Z.testbit (usedBuffers p) (Z.of_nat i).

Lemma bit_clear used i : Z.land (Z.shiftr used (Z.of_nat i)) 1 = 0 <-> Z.testbit used (Z.of_nat i) = false.
Proof.
  change 1 with (Z.ones 1). rewrite Z.land_ones by lia. change (2 ^ 1) with 2.
  rewrite <- Z.bit0_mod, Z.shiftr_spec by lia. change (0 + Z.of_nat i) with (Z.of_nat i).
  destruct (Z.testbit used (Z.of_nat i)); cbn; split; intros H; first [discriminate|reflexivity].
Qed.
Lemma first_free_spec n : forall i used,
  match first_free n i used with
  | Some k => (i <= k < i + n)%nat /\ Z.testbit used (Z.of_nat k) = false /\
              forall j, (i <= j < k)%nat -> Z.testbit used (Z.of_nat j) = true
  | None => forall j, (i <= j < i + n)%nat -> Z.testbit used (Z.of_nat j) = true
  end.
Proof.
  induction n as [|n IH]; intros i used; cbn [first_free]; [lia|]. case_decide as Hd.
  - apply bit_clear in Hd. split; [lia|]. split; [exact Hd|]. lia.
  - assert (Z.testbit used (Z.of_nat i) = true) as Hi.
    { destruct (Z.testbit used (Z.of_nat i)) eqn:E; [done|]. by apply bit_clear in E. }
    specialize (IH (S i) used). destruct (first_free n (S i) used) as [k|].
    + destruct IH as (I1 & I2 & I3). split; [lia|]. split; [exact I2|]. intros j Hj.
      destruct (decide (j = i)) as [->|]; [exact Hi|apply I3; lia].
    + intros j Hj. destruct (decide (j = i)) as [->|]; [exact Hi|apply IH; lia].
Qed.

Lemma testbit_u64 x i : (i < 64)%nat -> Z.testbit (u64 x) (Z.of_nat i) = Z.testbit x (Z.of_nat i).
Proof.
  intros Hi. unfold u64. change 0xffffffffffffffff with (Z.ones 64). rewrite Z.land_spec, Z.ones_spec_low by lia.
  apply andb_true_r.
Qed.
Lemma testbit_one i j : Z.testbit (Z.shiftl 1 (Z.of_nat i)) (Z.of_nat j) = bool_decide (j = i).
Proof.
  rewrite Z.shiftl_spec by lia. case_bool_decide as H; [by rewrite H, Z.sub_diag|].
  destruct (decide (j < i)%nat); [by rewrite Z.testbit_neg_r by lia|].
  change 1 with (2 ^ 0). rewrite Z.pow2_bits_eqb by lia. lia.
Qed.
Lemma u64_is_u64 x : is_u64 (u64 x).
Proof. unfold is_u64. rewrite u64_mod. lia. Qed.

(** [Get] hands out the first free buffer and marks it. *)
Lemma Get_spec p : pool_ok p ->
  match Get p with
  | (Value (Some i), p') => pool_ok p' /\ (i < bufferCount p)%nat /\ in_use p i = false /\
      bufferCount p' = bufferCount p /\ p_size p' = p_size p /\ p_mem p' = p_mem p /\
      forall j, (j < bufferCount p)%nat -> in_use p' j = in_use p j || bool_decide (j = i)
  | (Value None, p') => p' = p /\ forall j, (j < bufferCount p)%nat -> in_use p j = true
  | _ => False
  end.
Proof.
  intros (P1 & P2 & P3 & P4). unfold Get. pose proof (first_free_spec (bufferCount p) 0 (usedBuffers p)) as F.
  destruct (first_free (bufferCount p) 0 (usedBuffers p)) as [i|].
  - destruct F as (F1 & F2 & _). unfold pool_ok, in_use. cbn [usedBuffers bufferCount p_size p_mem].
    split; [split; [apply u64_is_u64|done]|]. split; [lia|]. split; [exact F2|].
    split; [done|]. split; [done|]. split; [done|]. intros j Hj.
    by rewrite testbit_u64, Z.lor_spec, testbit_one by lia.
  - split; [done|]. intros j Hj. apply F. lia.
Qed.
Lemma Reuse_spec p b : pool_ok p -> (b < bufferCount p)%nat ->
  exists p', Reuse b p = (Value tt, p') /\ pool_ok p' /\
    bufferCount p' = bufferCount p /\ p_size p' = p_size p /\ p_mem p' = p_mem p /\
    forall j, (j < bufferCount p)%nat -> in_use p' j = in_use p j && negb (bool_decide (j = b)).
Proof.
  intros (P1 & P2 & P3 & P4) Hb. unfold Reuse. rewrite decide_True by done. eexists. split; [reflexivity|].
  unfold pool_ok, in_use. cbn [usedBuffers bufferCount p_size p_mem]. split; [split; [apply u64_is_u64|done]|].
  do 3 (split; [done|]). intros j Hj.
  by rewrite testbit_u64, Z.land_spec, Z.lnot_spec, testbit_one by lia.
Qed.
Lemma pool_write_ok p b data : pool_ok p -> (length data <= p_size p)%nat -> pool_ok (pool_write b data p).
Proof.
  intros (P1 & P2 & P3 & P4) Hd. unfold pool_ok, pool_write. cbn [usedBuffers bufferCount p_size p_mem].
  split; [done|]. split; [done|]. split; [by rewrite length_insert|].
  destruct (decide (b < length (p_mem p))%nat) as [Hb|Hb]; [|by rewrite list_insert_ge by lia].
  apply Forall_insert; [done|]. rewrite length_store; [|rewrite (proj1 (Forall_nth _ [] _) P4 b Hb); lia].
  apply (proj1 (Forall_nth _ [] _) P4 b Hb).
Qed.

(** ** What a writer writes *)

Definition writes (m : M out_stream unit) (bytes : list Z) : Prop := forall s, out_ok s -> room (length bytes) s ->
  exists s', m s = (Value tt, s') /\ appended bytes s s'.
Lemma writes_ret : writes (mret tt) [].
Proof. intros s Hs _. exists s. split; [done|by apply appended_nil]. Qed.
Lemma writes_bind m n bs cs : writes m bs -> writes n cs -> writes (m ;; n) (bs ++ cs).
Proof.
  intros Hm Hn s Hs Hr. rewrite length_app in Hr. destruct (Hm s Hs) as (t & Et & At); [intros Hp; specialize (Hr Hp); lia|].
  destruct (Hn t) as (u & Eu & Au); [apply At|by apply (room_appended _ _ _ _ At)|].
  exists u. rewrite (run_bind _ _ _ _ _ Et). split; [exact Eu|]. by apply (appended_trans _ _ _ t).
Qed.
Lemma writes_field f : writes (write_field f) (field_bytes f).
Proof. intros s Hs Hr. by apply write_field_ok. Qed.
Lemma writes_byte b : writes (WriteByte b) [b].
Proof. exact (writes_field (FByte b)). Qed.
Lemma writes_int16 v : writes (WriteInt16 v) (le_bytes 2 v).
Proof. exact (writes_field (FInt16 v)). Qed.
Lemma writes_int32 v : writes (WriteInt32 v) (le_bytes 4 v).
Proof. exact (writes_field (FInt32 v)). Qed.
Lemma writes_int64 v : writes (WriteInt64 v) (le_bytes 8 v).
Proof. exact (writes_field (FInt64 v)). Qed.
Lemma writes_bytes l : writes (WriteBytes l) l.
Proof. exact (writes_field (FBytes l)). Qed.
Lemma writes_iterate {A} (f : A -> M out_stream unit) (g : A -> list Z) l : (forall a, writes (f a) (g a)) -> writes (iterate_list f l) (concat (map g l)).
Proof. intros H. induction l as [|a l IH]; [exact writes_ret|]. by apply writes_bind. Qed.
Create HintDb writes.
#[export] Hint Resolve writes_ret writes_byte writes_int16 writes_int32 writes_int64 writes_bytes : writes.
(** The bytes may be unknown: they are collected from the writer. *)
Ltac writes_go := repeat (first [solve [eauto with writes nocore] | eapply writes_bind]).
(** A stream of its own has room, and a buffer of the caller as much as its size. *)
Lemma writes_new m bytes n : writes m bytes -> exists o, m (new_output n) = (Value tt, o) /\ written o = bytes.
Proof.
  intros Hm. destruct (Hm (new_output n)) as (o & E & A); [unfold out_ok; cbn; lia|done|]. exists o. split; [exact E|].
  destruct A as (_ & -> & _). done.
Qed.
Lemma writes_on m bytes buffer : writes m bytes -> (length bytes <= length buffer)%nat ->
  exists o, m (output_on buffer) = (Value tt, o) /\ written o = bytes /\ o_offset o = length bytes /\ length (o_buffer o) = length buffer.
Proof.
  intros Hm Hl. destruct (Hm (output_on buffer)) as (o & E & A); [unfold out_ok; cbn; lia|intros _; cbn; lia|]. exists o. split; [exact E|].
  destruct A as (_ & -> & _ & A3 & A4). split; [done|]. split; [exact A3|]. by apply A4.
Qed.

(** ** Failing cleanly

    Readers and writers throw; only a debug build aborts, on a truncated length. *)

Lemma no_abort_ensure n : no_abort (EnsureEnoughRemaining n).
Proof. intros s. unfold EnsureEnoughRemaining. by case_decide. Qed.
Lemma no_abort_at i : no_abort (at_offset i).
Proof. by intros s. Qed.
Lemma no_abort_skip n : no_abort (skip n).
Proof. by intros s. Qed.
Lemma no_abort_remaining : no_abort Remaining.
Proof. by intros s. Qed.
Lemma no_abort_offset : no_abort GetOffset.
Proof. by intros s. Qed.
Lemma no_abort_seek o : no_abort (Seek o).
Proof. intros s. unfold Seek. by case_decide. Qed.
#[export] Hint Resolve no_abort_ensure no_abort_at no_abort_skip no_abort_remaining no_abort_offset no_abort_seek : safe.
Lemma no_abort_byte : no_abort ReadByte.
Proof. unfold ReadByte. safe_go. Qed.
Lemma no_abort_int16 : no_abort ReadInt16.
Proof. unfold ReadInt16. safe_go. Qed.
Lemma no_abort_int32 : no_abort ReadInt32.
Proof. unfold ReadInt32. safe_go. Qed.
Lemma no_abort_int64 : no_abort ReadInt64.
Proof. unfold ReadInt64. safe_go. Qed.
Lemma no_abort_bytes n : no_abort (ReadBytes n).
Proof. intros s. unfold ReadBytes, mbind, M_bind, EnsureEnoughRemaining. by case_decide. Qed.
#[export] Hint Resolve no_abort_byte no_abort_int16 no_abort_int32 no_abort_int64 no_abort_bytes : safe.
Lemma no_abort_tl : no_abort (ReadTlLength true).
Proof. unfold ReadTlLength. cbn [negb andb]. safe_go. Qed.
#[export] Hint Resolve no_abort_tl : safe.

(** A writer of at most [n] bytes. *)
Definition fits (n : nat) (m : M out_stream unit) : Prop := exists bytes, writes m bytes /\ (length bytes <= n)%nat.
Lemma fits_writes n m bytes : writes m bytes -> (length bytes <= n)%nat -> fits n m.
Proof. by exists bytes. Qed.
Lemma fits_le n k m : fits n m -> (n <= k)%nat -> fits k m.
Proof. intros (bytes & Hm & Hl) Hk. exists bytes. split; [done|lia]. Qed.
Lemma fits_ret : fits 0 (mret tt).
Proof. apply (fits_writes _ _ []); [apply writes_ret|done]. Qed.
Lemma fits_bind n k (m1 m2 : M out_stream unit) : fits n m1 -> fits k m2 -> fits (n + k) (m1 ;; m2).
Proof.
  intros (bs & H1 & L1) (cs & H2 & L2). exists (bs ++ cs). split; [by apply writes_bind|]. rewrite length_app. lia.
Qed.
Lemma fits_byte v : fits 1 (WriteByte v).
Proof. by eapply fits_writes; [apply writes_byte|]. Qed.
Lemma fits_int16 v : fits 2 (WriteInt16 v).
Proof. by eapply fits_writes; [apply writes_int16|]. Qed.
Lemma fits_int32 v : fits 4 (WriteInt32 v).
Proof. by eapply fits_writes; [apply writes_int32|]. Qed.
Lemma fits_int64 v : fits 8 (WriteInt64 v).
Proof. by eapply fits_writes; [apply writes_int64|]. Qed.
Lemma fits_bytes l : fits (length l) (WriteBytes l).
Proof. by eapply fits_writes; [apply writes_bytes|]. Qed.
Lemma fits_iterate {A} (f : A -> M out_stream unit) k l : (forall a, a ∈ l -> fits k (f a)) -> fits (k * length l) (iterate_list f l).
Proof.
  intros H. induction l as [|a l IH]; [rewrite Nat.mul_0_r; exact fits_ret|]. cbn [length iterate_list]. rewrite Nat.mul_succ_r, Nat.add_comm.
  apply fits_bind; [apply H; left|apply IH]. intros x Hx. apply H. by right.
Qed.
Create HintDb fits.
#[export] Hint Resolve fits_ret fits_byte fits_int16 fits_int32 fits_int64 fits_bytes : fits.
(** The sizes of the parts are found, and their sum is compared at the end. *)
Ltac fits_go := eapply fits_le; [repeat (first [solve [eauto with fits nocore] | eapply fits_bind])|].
(** Into a buffer of the caller that is large enough nothing is thrown. *)
Lemma fits_on n m buffer : fits n m -> (n <= length buffer)%nat ->
  exists o, m (output_on buffer) = (Value tt, o) /\ (o_offset o <= n)%nat /\ length (o_buffer o) = length buffer.
Proof.
  intros (bytes & Hm & Hl) Hn. destruct (writes_on m bytes buffer Hm) as (o & E & _ & Ho & Hb); [lia|].
  exists o. split; [exact E|]. split; [lia|exact Hb].
Qed.
(** Into a stream of its own nothing is thrown. *)
Lemma no_abort_expand n : no_abort (ExpandBufferIfNeeded n).
Proof. intros s. unfold ExpandBufferIfNeeded. case_decide; [by destruct (o_provided s)|done]. Qed.
Lemma no_abort_emit l : no_abort (emit l).
Proof. by intros s. Qed.
#[export] Hint Resolve no_abort_expand no_abort_emit : safe.
Lemma no_abort_write_byte b : no_abort (WriteByte b).
Proof. unfold WriteByte. safe_go. Qed.
Lemma no_abort_write_int16 v : no_abort (WriteInt16 v).
Proof. unfold WriteInt16. safe_go. Qed.
Lemma no_abort_write_int32 v : no_abort (WriteInt32 v).
Proof. unfold WriteInt32. safe_go. Qed.
Lemma no_abort_write_int64 v : no_abort (WriteInt64 v).
Proof. unfold WriteInt64. safe_go. Qed.
Lemma no_abort_write_bytes l : no_abort (WriteBytes l).
Proof. unfold WriteBytes. safe_go. Qed.
#[export] Hint Resolve no_abort_write_byte no_abort_write_int16 no_abort_write_int32 no_abort_write_int64 no_abort_write_bytes : safe.
