(* ===== verification/Double.v ===== *)
(** * Double-precision arithmetic and record update

    IEEE 754 binary64 with round-to-nearest-even, the [double] of the targets,
    from the Standard Library's executable [SpecFloat]; and the notation
    [r <| field := v |>] for the assignments to the fields of an object. *)

From Stdlib Require Import SpecFloat.
From S2P Require Import Prelude.

Abbreviation double := spec_float.
Definition dadd : double -> double -> double := SFadd 53 1024.
Definition dsub : double -> double -> double := SFsub 53 1024.
Definition dmul : double -> double -> double := SFmul 53 1024.
Definition ddiv : double -> double -> double := SFdiv 53 1024.
Definition dsqrt : double -> double := SFsqrt 53 1024.
Definition dltb : double -> double -> bool := SFltb.
Definition dleb : double -> double -> bool := SFleb.
Definition deqb : double -> double -> bool := SFeqb.
Definition d0 : double := S754_zero false.
Definition dinf : double := S754_infinity false.

(** [(double) z], and the literal [n/10^k] as a correctly rounded quotient. *)
Definition of_Z (z : Z) : double := binary_normalize 53 1024 z 0 false.
Definition literal (n d : Z) : double := ddiv (of_Z n) (of_Z d).

(** The conversion to an integer type truncates; it is undefined outside of the
    range of the type and on infinities and NaN, taken as 0 here. *)
Definition to_Z (x : double) : Z :=
  match x with
  | S754_finite s m e => let v := if decide (0 <= e) then Z.shiftl (Zpos m) e else Z.shiftr (Zpos m) (- e) in if s then - v else v
  | _ => 0
  end.
Definition dceil (x : double) : double :=
  match x with
  | S754_finite s m e =>
      if decide (0 <= e) then x else
      let floor := Z.shiftr (if s then Zneg m else Zpos m) (- e) in
      let exact := bool_decide (Z.shiftl floor (- e) = if s then Zneg m else Zpos m) in
      let c := if exact then floor else floor + 1 in
      if decide (c = 0) then S754_zero s else of_Z c
  | _ => x
  end.

#[export] Instance double_eq_dec : EqDecision double.
Proof. solve_decision. Defined.

Example literal_3_10 : literal 3 10 = S754_finite false 5404319552844595 (-54).
Proof. vm_compute. reflexivity. Qed.
Example dceil_examples : map (fun x => to_Z (dceil x)) [literal 3 10; literal 25 10; literal (-25) 10; of_Z 7] = [1; 3; -2; 7].
Proof. vm_compute. reflexivity. Qed.

(** ** Integers are exact *)

Lemma digits2_size m : digits2_pos m = Pos.size m.
Proof. induction m as [m IH|m IH|]; cbn; by rewrite ?IH. Qed.
Lemma digits2_bounds m : 2 ^ (Zpos (digits2_pos m) - 1) <= Zpos m < 2 ^ Zpos (digits2_pos m).
Proof.
  rewrite digits2_size. pose proof (Pos.size_gt m) as H1. pose proof (Pos.size_le m) as H2. apply Pos2Z.pos_lt_pos in H1. apply Pos2Z.pos_le_pos in H2. rewrite Pos2Z.inj_pow in H1, H2.
  split; [|lia]. change (Zpos (xO m)) with (2 * Zpos m) in H2. rewrite <- (Z.succ_pred (Zpos (Pos.size m))) in H2. rewrite Z.pow_succ_r in H2 by lia. rewrite <- Z.sub_1_r in H2. lia.
Qed.
Lemma digits2_shift k m : digits2_pos (Pos.iter xO m k) = (digits2_pos m + k)%positive.
Proof. induction k as [|k IH] using Pos.peano_ind; [cbn; lia|]. rewrite Pos.iter_succ. cbn [digits2_pos]. rewrite IH. lia. Qed.
Lemma iter_xO k m : Zpos (Pos.iter xO m k) = Zpos m * 2 ^ Zpos k.
Proof. induction k as [|k IH] using Pos.peano_ind; [cbn; lia|]. rewrite Pos.iter_succ, Pos2Z.inj_succ, Z.pow_succ_r by lia. rewrite Pos2Z.inj_xO, IH. lia. Qed.
(** A mantissa of 53 digits is not changed. *)
Lemma round_exact s m e : digits2_pos m = 53%positive -> -53 <= e <= 0 -> binary_round_aux 53 1024 s (Zpos m) e loc_Exact = S754_finite s m e.
Proof.
  intros Hm He. unfold binary_round_aux, shr_fexp. assert (fexp 53 1024 (Zdigits2 (Zpos m) + e) - e = 0) as E by (unfold fexp, emin; cbn [Zdigits2]; rewrite Hm; lia).
  rewrite E. cbn [shr shr_record_of_loc loc_of_shr_record shr_m round_nearest_even]. rewrite E. cbn [shr shr_m shr_record_of_loc]. rewrite (proj2 (Z.leb_le e (1024 - 53))) by lia. done.
Qed.
Lemma binary_round_spec s m : Zpos m < 2 ^ 53 -> exists m' k, binary_round 53 1024 s m 0 = S754_finite s m' (- k) /\ 0 <= k <= 53 /\ Zpos m' = Zpos m * 2 ^ k.
Proof.
  intros Hm. destruct (digits2_bounds m) as [H1 H2]. assert (Zpos (digits2_pos m) <= 53) as Hd.
  { destruct (decide (Zpos (digits2_pos m) <= 53)) as [|Hgt]; [done|]. assert (2 ^ 53 <= 2 ^ (Zpos (digits2_pos m) - 1)) by (apply Z.pow_le_mono_r; lia). lia. }
  unfold binary_round. rewrite Z.add_0_r. assert (fexp 53 1024 (Zpos (digits2_pos m)) = Zpos (digits2_pos m) - 53) as -> by (unfold fexp, emin; lia).
  unfold shl_align. rewrite Z.sub_0_r. destruct (Zpos (digits2_pos m) - 53) as [|d|d] eqn:E; [|lia|].
  - exists m, 0. rewrite round_exact by lia. split; [done|]. lia.
  - exists (Pos.iter xO m d), (Zpos d). rewrite round_exact by (rewrite ?digits2_shift; lia). split; [done|]. split; [lia|apply iter_xO].
Qed.
(** An integer below 2^53 is a double. *)
Lemma of_Z_exact n : - 2 ^ 53 < n < 2 ^ 53 -> to_Z (of_Z n) = n /\ match of_Z n with S754_infinity _ | S754_nan => False | _ => True end.
Proof.
  intros Hn. unfold of_Z, binary_normalize. assert (forall m s, Zpos m < 2 ^ 53 -> to_Z (binary_round 53 1024 s m 0) = (if s then - Zpos m else Zpos m) /\ match binary_round 53 1024 s m 0 with S754_infinity _ | S754_nan => False | _ => True end) as H.
  { intros m s Hm. destruct (binary_round_spec s m Hm) as (m' & k & -> & Hk & E). split; [|done]. unfold to_Z. cbv zeta.
    assert ((if decide (0 <= - k) then Z.shiftl (Zpos m') (- k) else Z.shiftr (Zpos m') (- - k)) = Zpos m) as ->; [|done].
    case_decide as Hk0; [replace (- k) with 0 by lia; rewrite Z.shiftl_0_r; assert (k = 0) as -> by lia; lia|].
    rewrite Z.shiftr_div_pow2 by lia. rewrite Z.opp_involutive, E. apply Z.div_mul. lia. }
  destruct n as [|m|m]; [done|apply (H m false); lia|apply (H m true); lia].
Qed.

(** ** Record update

    [Eta R] gives the record as a function of its fields; the setter of a field
    replaces that field in it. *)

Class Eta (R : Type) := eta : R -> R.
Class Setter {R T} (proj : R -> T) := set : (T -> T) -> R -> R.
Arguments set {R T} proj {_} f r.

Ltac solve_setter :=
  match goal with
  | |- @Setter ?R ?T ?proj =>
      let i := constr:(_ : Eta R) in
      let e := eval cbv beta delta [eta] in (@eta R i) in
      let e := match e with ?c => let b := eval cbv delta [c] in c in constr:(b) end in
      match eval pattern proj in e with
      | ?body _ => let t := eval cbv beta in (fun (f : T -> T) => body (fun r => f (proj r))) in exact t
      end
  end.
#[export] Hint Extern 1 (Setter _) => solve_setter : typeclass_instances.

Notation "r <| proj := v |>" := (set proj (fun _ => v) r)
  (at level 1, left associativity, proj at level 1, v at level 200).

Module SetterTest.
Record pt := Pt { px : Z; py : Z }.
#[local] Instance pt_eta : Eta pt := fun r => Pt (px r) (py r).
Example set_py r : r <| py := 3 |> = Pt (px r) 3.
Proof. reflexivity. Qed.
End SetterTest.
