(* ===== verification/Jitter.v ===== *)
(** * libtgvoip: the jitter buffer

    [src/submodules/libtgvoip/JitterBuffer.cpp] and [JitterBuffer.h]. The pool of
    packet buffers is the one of [Buffers.cpp]; a slot points into it. Reading
    past the slot array is undefined in the code and [Aborted] here. The clock
    is an argument of the operations that read it, the server configuration an
    argument of the constructor; logging is left out. *)

From S2P Require Import Prelude Exn VoipBuffers Double.

Definition JITTER_SLOT_COUNT : nat := 64.
Definition JITTER_SLOT_SIZE : nat := 1024.
Inductive jr := JR_OK | JR_MISSING | JR_BUFFERING.

(** [j_buffer] is [None] for a null pointer. *)
Record jitter_packet_t := JPacket {
  j_buffer : option nat; j_size : nat; j_timestamp : Z; j_isEC : bool; j_recvTimeDiff : double
}.

Record jitter := Jitter {
  bufferPool : buffer_pool; slots : list jitter_packet_t;
  nextTimestamp : Z; step : Z; minDelay : double; minMinDelay : Z; maxMinDelay : Z; maxUsedSlots : Z;
  lastPutTimestamp : Z; lossesToReset : Z; resyncThreshold : double;
  lostCount : Z; lostSinceReset : Z; gotSinceReset : Z; wasReset : bool; needBuffering : bool;
  delayHistory : list Z; lateHistory : list Z; adjustingDelay : bool; tickCount : Z; latePacketCount : Z;
  dontIncMinDelay : Z; dontDecMinDelay : Z; lostPackets : Z; prevRecvTime : double; expectNextAtTime : double;
  deviationHistory : list double; deviationPtr : nat; lastMeasuredJitter : double; lastMeasuredDelay : double;
  outstandingDelayChange : Z; dontChangeDelay : Z; avgDelay : double
}.
#[export] Instance jitter_eta : Eta jitter := fun j => Jitter
  (bufferPool j) (slots j) (nextTimestamp j) (step j) (minDelay j) (minMinDelay j) (maxMinDelay j) (maxUsedSlots j)
  (lastPutTimestamp j) (lossesToReset j) (resyncThreshold j) (lostCount j) (lostSinceReset j) (gotSinceReset j)
  (wasReset j) (needBuffering j) (delayHistory j) (lateHistory j) (adjustingDelay j) (tickCount j) (latePacketCount j)
  (dontIncMinDelay j) (dontDecMinDelay j) (lostPackets j) (prevRecvTime j) (expectNextAtTime j) (deviationHistory j)
  (deviationPtr j) (lastMeasuredJitter j) (lastMeasuredDelay j) (outstandingDelayChange j) (dontChangeDelay j) (avgDelay j).

Definition is_full (s : jitter_packet_t) : bool := bool_decide (j_buffer s <> None).
Definition GetCurrentDelay (j : jitter) : Z := Z.of_nat (length (filter (fun s => is_full s = true) (slots j))).

Definition Advance (j : jitter) : jitter := j <| nextTimestamp := i64 (nextTimestamp j + step j) |>.

(** [bufferPool.Reuse(slots[i].buffer); slots[i].buffer = NULL;] *)
Definition reuse_slot (i : nat) : M jitter unit := fun j =>
  match slots j !! i with
  | Some (JPacket (Some b) size ts ec diff) =>
      match Reuse b (bufferPool j) with
      | (Value _, pool) => (Value tt, j <| bufferPool := pool |> <| slots := <[i := JPacket None size ts ec diff]> (slots j) |>)
      | (Thrown, pool) => (Thrown, j <| bufferPool := pool |>)
      | (Aborted, pool) => (Aborted, j <| bufferPool := pool |>)
      end
  | _ => (Aborted, j)
  end.
(** [for (i = 0; i < n; i++) if (slots[i].buffer && drop(slots[i])) ...] *)
Definition reuse_step (drop : jitter -> jitter_packet_t -> bool) (i : nat) : M jitter unit := fun j =>
  match slots j !! i with
  | Some s => if is_full s && drop j s then reuse_slot i j else (Value tt, j)
  | None => (Aborted, j)
  end.
Definition reuse_where (drop : jitter -> jitter_packet_t -> bool) : M jitter unit :=
  iterate_list (reuse_step drop) (seq 0 JITTER_SLOT_COUNT).

Definition ResetBuffer : M jitter unit :=
  modify (fun j => j <| wasReset := true |> <| needBuffering := true |> <| lastPutTimestamp := 0 |>) ;;
  reuse_where (fun _ _ => true) ;;
  modify (fun j => j <| delayHistory := zeros 64 |> <| lateHistory := zeros 64 |> <| adjustingDelay := false |>
    <| lostSinceReset := 0 |> <| gotSinceReset := 0 |> <| expectNextAtTime := d0 |>
    <| deviationHistory := replicate 64 d0 |> <| deviationPtr := 0%nat |> <| outstandingDelayChange := 0 |>
    <| dontChangeDelay := 0 |>).

(** The index of the first slot with the property, [JITTER_SLOT_COUNT] if none. *)
Definition find_slot (f : jitter_packet_t -> bool) (j : jitter) : nat :=
  default JITTER_SLOT_COUNT (fst <$> list_find (fun s => f s = true) (slots j)).

(** [ServerConfig::GetInt] and [GetDouble] with their defaults. The fields the
    constructor does not set keep what the memory held. *)
Definition new_jitter (GetInt : list Z -> Z -> Z) (GetDouble : list Z -> double -> double)
    (mem : list (list Z)) (step_ : Z) : M jitter unit :=
  modify (fun j =>
    let '(min_, max_, used) :=
      if decide (step_ < 30) then
        (GetInt (str "jitter_min_delay_20") 6, GetInt (str "jitter_max_delay_20") 25, GetInt (str "jitter_max_slots_20") 50)
      else if decide (step_ < 50) then
        (GetInt (str "jitter_min_delay_40") 4, GetInt (str "jitter_max_delay_40") 15, GetInt (str "jitter_max_slots_40") 30)
      else (GetInt (str "jitter_min_delay_60") 1, GetInt (str "jitter_max_delay_60") 10, GetInt (str "jitter_max_slots_60") 20) in
    j <| bufferPool := Pool 0 JITTER_SLOT_COUNT JITTER_SLOT_SIZE mem |> <| step := step_ |>
      <| slots := replicate JITTER_SLOT_COUNT (JPacket None 0 0 false d0) |>
      <| minDelay := of_Z 6 |> <| lostCount := 0 |> <| needBuffering := true |> <| tickCount := 0 |>
      <| dontIncMinDelay := 0 |> <| dontDecMinDelay := 0 |> <| lostPackets := 0 |> <| outstandingDelayChange := 0 |>
      <| minMinDelay := u32 min_ |> <| maxMinDelay := u32 max_ |> <| maxUsedSlots := u32 used |>
      <| lossesToReset := u32 (GetInt (str "jitter_losses_to_reset") 20) |>
      <| resyncThreshold := GetDouble (str "jitter_resync_threshold") (of_Z 1) |>) ;;
  ResetBuffer.

Definition SetMinPacketCount (count : Z) (j : jitter) : jitter :=
  if deqb (minDelay j) (of_Z count) then j else j <| minDelay := of_Z count |>.

(** The packet a slot holds, as [HandleInput] hands it over. *)
Record in_packet := InPacket { k_data : list Z; k_timestamp : Z; k_isEC : bool }.

(** [dev] and [expectNextAtTime]. *)
Definition note_arrival (time : double) (j : jitter) : jitter :=
  let interval := ddiv (of_Z (step j)) (of_Z 1000) in
  if deqb (expectNextAtTime j) d0 then j <| expectNextAtTime := dadd time interval |>
  else
    let dev := dsub (expectNextAtTime j) time in
    let j := j <| deviationHistory := <[deviationPtr j := dev]> (deviationHistory j) |>
               <| deviationPtr := Nat.modulo (deviationPtr j + 1) 64 |> in
    j <| expectNextAtTime := dadd (expectNextAtTime j) interval |>.

(** The oldest packet: the first slot with the least timestamp below [0xFFFFFFFF]. *)
Definition oldest_body (j : jitter) (acc : nat * Z) (i : nat) : nat * Z :=
  match slots j !! i with
  | Some s => if is_full s && bool_decide (j_timestamp s < snd acc) then (i, j_timestamp s) else acc
  | None => acc
  end.
Definition oldest_slot (j : jitter) : nat :=
  fst (for_loop 0 JITTER_SLOT_COUNT (oldest_body j) (JITTER_SLOT_COUNT, 0xFFFFFFFF)).

(** Store a packet in slot [i]. *)
Definition fill_slot (i : nat) (pkt : in_packet) (time : double) : M jitter unit := fun j =>
  match Get (bufferPool j) with
  | (Value buffer, pool) =>
      let s := JPacket buffer (length (k_data pkt)) (k_timestamp pkt) (k_isEC pkt) (dsub time (prevRecvTime j)) in
      let pool := match buffer with Some b => pool_write b (k_data pkt) pool | None => pool end in
      if decide (i < length (slots j))%nat
      then (Value tt, j <| bufferPool := pool |> <| slots := <[i := s]> (slots j) |> <| prevRecvTime := time |>)
      else (Aborted, j)
  | (_, pool) => (Aborted, j)
  end.

(** Overwrite the packet of slot [i], which has the same timestamp. *)
Definition overwrite_slot (i : nat) (pkt : in_packet) (j : jitter) : jitter :=
  match slots j !! i with
  | Some (JPacket (Some b) size ts ec diff) =>
      j <| bufferPool := pool_write b (k_data pkt) (bufferPool j) |>
        <| slots := <[i := JPacket (Some b) (length (k_data pkt)) ts (k_isEC pkt) diff]> (slots j) |>
  | _ => j
  end.

(** Resynchronise on the first packet after a reset. *)
Definition resync (timestamp : Z) (j : jitter) : jitter :=
  if wasReset j then
    j <| wasReset := false |> <| outstandingDelayChange := 0 |>
      <| nextTimestamp := to_Z (dsub (of_Z timestamp) (dmul (of_Z (step j)) (minDelay j))) |>
  else j.

(** The part of [PutInternal] after the late packets have been counted. *)
Definition put_packet (pkt : in_packet) (time : double) : M jitter unit := fun j =>
  let j := if decide (lastPutTimestamp j < k_timestamp pkt) then j <| lastPutTimestamp := k_timestamp pkt |> else j in
  let i := find_slot (fun s => negb (is_full s)) j in
  if decide (i = JITTER_SLOT_COUNT \/ maxUsedSlots j <= GetCurrentDelay j) then
    let toRemove := oldest_slot j in
    (modify Advance ;; reuse_slot toRemove ;; fill_slot toRemove pkt time) j
  else fill_slot i pkt time j.

Definition PutInternal (pkt : in_packet) (overwriteExisting : bool) (time : double) : M jitter unit := fun j =>
  if decide (JITTER_SLOT_SIZE < length (k_data pkt))%nat then (Value tt, j) else
  let i := find_slot (fun s => is_full s && bool_decide (j_timestamp s = k_timestamp pkt)) j in
  if decide (i <> JITTER_SLOT_COUNT) then (Value tt, if overwriteExisting then overwrite_slot i pkt j else j) else
  (modify (fun j => resync (k_timestamp pkt) (j <| gotSinceReset := u32 (gotSinceReset j + 1) |>)) ;;
   reuse_where (fun j s => bool_decide (j_timestamp s < nextTimestamp j - 1)) ;;
   modify (note_arrival time) ;;
   act (fun j =>
      if decide (k_timestamp pkt < nextTimestamp j) then
        put_packet pkt time (j <| latePacketCount := u32 (latePacketCount j + 1) |> <| lostPackets := i32 (lostPackets j - 1) |>)
      else if decide (k_timestamp pkt < nextTimestamp j - 1) then
        (Value tt, j <| latePacketCount := u32 (latePacketCount j + 1) |>)
      else put_packet pkt time j)) j.

Definition HandleInput (data : list Z) (timestamp : Z) (isEC : bool) (time : double) : M jitter unit :=
  PutInternal (InPacket data timestamp isEC) (negb isEC) time.

(** The result and, when a packet was found, its contents; [None] when it does
    not fit into [size] bytes. *)
Definition GetInternal (size : nat) (offset : Z) (advance_ : bool) : M jitter (jr * option in_packet) := fun j =>
  let timestampToGet := i64 (nextTimestamp j + i32 (offset * i32 (step j))) in
  let i := find_slot (fun s => is_full s && bool_decide (j_timestamp s = timestampToGet)) j in
  match slots j !! i with
  | Some s =>
      let found :=
        match j_buffer s with
        | Some b => if decide (size < j_size s)%nat then None
                    else Some (InPacket (pool_read b (j_size s) (bufferPool j)) (j_timestamp s) (j_isEC s))
        | None => None
        end in
      (reuse_slot i ;;
       modify (fun j => (if decide (offset = 0) then Advance j else j) <| lostCount := 0 |> <| needBuffering := false |>) ;;
       mret (JR_OK, found)) j
  | None =>
      let j := if advance_ then Advance j else j in
      if needBuffering j then (Value (JR_BUFFERING, None), j) else
      let j := j <| lostCount := u32 (lostCount j + 1) |> in
      let j := if decide (offset = 0)
               then j <| lostPackets := i32 (lostPackets j + 1) |> <| lostSinceReset := u32 (lostSinceReset j + 1) |> else j in
      if bool_decide (lossesToReset j <= lostCount j) ||
         (dltb (dmul (minDelay j) (of_Z 25)) (of_Z (gotSinceReset j)) && bool_decide (gotSinceReset j / 2 < lostSinceReset j))
      then
        (modify (fun j =>
           let j := j <| dontIncMinDelay := 16 |> <| dontDecMinDelay := u32 (dontDecMinDelay j + 128) |> in
           let j := if dltb (of_Z (GetCurrentDelay j)) (minDelay j)
                    then j <| nextTimestamp := to_Z (dsub (of_Z (nextTimestamp j)) (dsub (minDelay j) (of_Z (GetCurrentDelay j)))) |>
                    else j in
           j <| lostCount := 0 |>) ;;
         ResetBuffer ;; mret (JR_MISSING, None)) j
      else (Value (JR_MISSING, None), j)
  end.

(** The size, the packet when it was copied out, and [playbackScaledDuration]. A
    packet that does not fit is reported with the size of the caller's buffer. *)
Definition HandleOutput (size : nat) (offsetInSteps : Z) (advance_ : bool) : M jitter (nat * option in_packet * Z) :=
  '(result, found) ← GetInternal size offsetInSteps advance_;
  scaled ← act (fun j =>
    if decide (outstandingDelayChange j <> 0) then
      if decide (outstandingDelayChange j < 0)
      then (Value 40, j <| outstandingDelayChange := i32 (outstandingDelayChange j + 20) |>)
      else (Value 80, j <| outstandingDelayChange := i32 (outstandingDelayChange j - 20) |>)
    else if advance_ && bool_decide (GetCurrentDelay j = 0) then (Value 80, j) else (Value 60, j));
  mret (match result, found with
        | JR_OK, Some p => length (k_data p)
        | JR_OK, None => size
        | _, _ => 0%nat
        end, found, scaled).

(** [memmove(&h[1], h, 63 elements); h[0] = x;] *)
Definition push {A} (x : A) (h : list A) : list A := x :: take 63 h.
Definition dsum (l : list Z) : double := foldl (fun acc x => dadd acc (of_Z x)) d0 l.

(** The spread of the arrival times, in packets; the conversion of an
    out-of-range value is undefined. *)
Definition stddev (j : jitter) : double :=
  let avgdev := ddiv (foldl dadd d0 (deviationHistory j)) (of_Z 64) in
  let sum := foldl (fun acc x => let d := dsub x avgdev in dadd acc (dmul d d)) d0 (deviationHistory j) in
  dsqrt (ddiv sum (of_Z 64)).
Definition stddev_delay (j : jitter) : Z :=
  let d := u32 (to_Z (dceil (ddiv (dmul (dmul (stddev j) (of_Z 2)) (of_Z 1000)) (of_Z (step j))))) in
  let d := if decide (d < minMinDelay j) then minMinDelay j else d in
  if decide (maxMinDelay j < d) then maxMinDelay j else d.

(** Move [minDelay] one packet towards the measured spread. *)
Definition adjust_min_delay (stddevDelay : Z) (j : jitter) : jitter :=
  if deqb (of_Z stddevDelay) (minDelay j) then j else
  let diff := to_Z (dsub (of_Z stddevDelay) (minDelay j)) in
  let j := if decide (0 < diff) then j <| dontDecMinDelay := 100 |> else j in
  let diff := if decide (diff < -1) then -1 else diff in
  let diff := if decide (1 < diff) then 1 else diff in
  if decide ((0 < diff /\ dontIncMinDelay j = 0) \/ (diff < 0 /\ dontDecMinDelay j = 0)) then
    let j := j <| minDelay := dadd (minDelay j) (of_Z diff) |>
               <| outstandingDelayChange := i32 (outstandingDelayChange j + diff * 60) |>
               <| dontChangeDelay := u32 (dontChangeDelay j + 32) |> in
    let j := if decide (diff < 0) then j <| dontDecMinDelay := u32 (dontDecMinDelay j + 25) |> else j in
    if decide (0 < diff) then j <| dontIncMinDelay := 25 |> else j
  else j.

(** Speed up or slow down towards the target delay. *)
Definition adjust_playback (j : jitter) : jitter :=
  let j :=
    if decide (dontChangeDelay j = 0) then
      if dltb (dadd (minDelay j) (literal 5 10)) (avgDelay j) then
        j <| outstandingDelayChange := i32 (outstandingDelayChange j - if dltb (dadd (minDelay j) (of_Z 2)) (avgDelay j) then 60 else 20) |>
          <| dontChangeDelay := u32 (dontChangeDelay j + 10) |>
      else if dltb (avgDelay j) (dsub (minDelay j) (literal 3 10)) then
        j <| outstandingDelayChange := i32 (outstandingDelayChange j + 20) |>
          <| dontChangeDelay := u32 (dontChangeDelay j + 10) |>
      else j
    else j in
  if decide (0 < dontChangeDelay j) then j <| dontChangeDelay := dontChangeDelay j - 1 |> else j.

Definition Tick (j : jitter) : jitter :=
  let j := j <| lateHistory := push (i32 (latePacketCount j)) (lateHistory j) |> <| latePacketCount := 0 |> in
  let absolutelyNoLatePackets := forallb (fun x => negb (bool_decide (0 < x))) (lateHistory j) in
  let avgLate16 := ddiv (dsum (take 16 (lateHistory j))) (of_Z 16) in
  let j := if dleb (resyncThreshold j) avgLate16 then j <| wasReset := true |> else j in
  let j := if absolutelyNoLatePackets && bool_decide (0 < dontDecMinDelay j)
           then j <| dontDecMinDelay := dontDecMinDelay j - 1 |> else j in
  let j := j <| delayHistory := push (GetCurrentDelay j) (delayHistory j) |> in
  let j := j <| avgDelay := ddiv (dsum (take 32 (delayHistory j))) (of_Z 32) |> in
  let stddevDelay := stddev_delay j in
  let j := adjust_min_delay stddevDelay j in
  let j := j <| lastMeasuredJitter := stddev j |> <| lastMeasuredDelay := of_Z stddevDelay |> in
  let j := adjust_playback j in
  j <| tickCount := u32 (tickCount j + 1) |>.

Definition GetAverageLateCount (j : jitter) : list double :=
  map (fun n => ddiv (dsum (take n (lateHistory j))) (of_Z (Z.of_nat n))) [16; 32; 64]%nat.
Definition GetAndResetLostPacketCount : M jitter Z := fun j => (Value (lostPackets j), j <| lostPackets := 0 |>).

(** ** Ownership of the pool

    The buffers the slots point to are distinct and are exactly the buffers the
    pool has handed out, so [Get] never runs out and [Reuse] never aborts. *)

Abbreviation owned := (@omap list _ jitter_packet_t nat j_buffer) (only parsing).
Abbreviation full := (filter (fun s => is_full s = true)) (only parsing).

Record buf_ok (pool : buffer_pool) (sl : list jitter_packet_t) : Prop := {
  bo_pool : pool_ok pool;
  bo_count : bufferCount pool = JITTER_SLOT_COUNT;
  bo_psize : p_size pool = JITTER_SLOT_SIZE;
  bo_length : length sl = JITTER_SLOT_COUNT;
  bo_nodup : NoDup (owned sl);
  bo_own : forall b, b ∈ owned sl <-> (b < JITTER_SLOT_COUNT)%nat /\ in_use pool b = true;
  bo_size : Forall (fun s => (j_size s <= JITTER_SLOT_SIZE)%nat /\ is_u32 (j_timestamp s)) sl;
  bo_ts : NoDup (map j_timestamp (full sl))
}.

(** What the buffer holds: the timestamp, the data and the error-correction flag
    of the packets. *)
Definition stored (pool : buffer_pool) (sl : list jitter_packet_t) (t : Z) (d : list Z) (e : bool) : Prop :=
  exists s b, s ∈ sl /\ j_buffer s = Some b /\ j_timestamp s = t /\ j_isEC s = e /\ pool_read b (j_size s) pool = d.

Definition emptied (s : jitter_packet_t) : jitter_packet_t := JPacket None (j_size s) (j_timestamp s) (j_isEC s) (j_recvTimeDiff s).

Lemma buf_ok_perm pool sl sl' : sl ≡ₚ sl' -> buf_ok pool sl -> buf_ok pool sl'.
Proof.
  intros E [B1 B2 B3 B4 B5 B6 B7 B8]. split; [done|done|done|..].
  - by rewrite <- E.
  - by rewrite <- E.
  - intros b. by rewrite <- E.
  - by rewrite <- E.
  - by rewrite <- E.
Qed.
Lemma stored_perm pool sl sl' t d e : sl ≡ₚ sl' -> stored pool sl t d e -> stored pool sl' t d e.
Proof. intros E (s & b & Hs & R). exists s, b. by rewrite <- E. Qed.
Lemma stored_cons pool s sl t d e : stored pool (s :: sl) t d e <->
  (exists b, j_buffer s = Some b /\ j_timestamp s = t /\ j_isEC s = e /\ pool_read b (j_size s) pool = d) \/ stored pool sl t d e.
Proof.
  unfold stored. split.
  - intros (x & b & Hx & R). apply elem_of_cons in Hx as [->|Hx]; [left; by exists b|right; by exists x, b].
  - intros [(b & R)|(x & b & Hx & R)]; [exists s, b|exists x, b]; (split; [|exact R]); apply elem_of_cons; [by left|by right].
Qed.
Lemma slot_split (sl : list jitter_packet_t) i s : sl !! i = Some s ->
  exists others, sl ≡ₚ s :: others /\ forall s', <[i := s']> sl ≡ₚ s' :: others.
Proof.
  intros Hi. exists (take i sl ++ drop (S i) sl). split.
  - rewrite <- (take_drop_middle sl i s Hi) at 1. by rewrite Permutation_middle.
  - intros s'. rewrite insert_take_drop by (by apply lookup_lt_is_Some; exists s). by rewrite Permutation_middle.
Qed.

Lemma pool_read_mem b n p q : p_mem p = p_mem q -> pool_read b n p = pool_read b n q.
Proof. unfold pool_read. by intros ->. Qed.
Lemma stored_mem p q sl t d e : p_mem p = p_mem q -> stored p sl t d e <-> stored q sl t d e.
Proof. intros E. unfold stored. by setoid_rewrite (fun b n => pool_read_mem b n p q E). Qed.

(** Giving a buffer back. *)
Lemma give_back pool s b sl : buf_ok pool (s :: sl) -> j_buffer s = Some b ->
  exists pool', Reuse b pool = (Value tt, pool') /\ p_mem pool' = p_mem pool /\ buf_ok pool' (emptied s :: sl) /\
    forall t d e, stored pool' (emptied s :: sl) t d e <-> stored pool sl t d e.
Proof.
  intros [B1 B2 B3 B4 B5 B6 B7 B8] Hb.
  assert (is_full s = true) as Hfull by (unfold is_full; apply bool_decide_eq_true_2; by rewrite Hb).
  cbn [omap list_omap] in B5, B6. rewrite Hb in B5, B6. apply NoDup_cons in B5 as [Hni B5].
  assert (b < bufferCount pool)%nat as Hlt by (rewrite B2; apply B6, elem_of_cons; by left).
  destruct (Reuse_spec pool b B1 Hlt) as (pool' & R & P1 & P2 & P3 & P4 & P5). exists pool'.
  split; [exact R|]. split; [exact P4|]. split.
  - split; [done|by rewrite P2|by rewrite P3|done|..]; cbn [omap list_omap emptied j_buffer].
    + exact B5.
    + intros c. rewrite B2 in P5. split.
      * intros Hc. destruct (proj1 (B6 c)) as [C1 C2]; [by apply elem_of_cons; right|]. split; [exact C1|]. rewrite P5, C2 by exact C1.
        rewrite bool_decide_eq_false_2; [done|]. intros ->. by apply Hni.
      * intros [C1 C2]. rewrite P5 in C2 by exact C1. apply andb_true_iff in C2 as [C2 C3].
        apply negb_true_iff, bool_decide_eq_false_1 in C3. assert (c ∈ b :: owned sl) as Hc by (by apply B6). by apply elem_of_cons in Hc as [->|Hc].
    + apply Forall_cons in B7 as [B7a B7b]. by apply Forall_cons_2.
    + rewrite filter_cons_True in B8 by exact Hfull. cbn [map] in B8. apply NoDup_cons in B8 as [_ B8].
      by rewrite filter_cons_False by (by cbn).
  - intros t d e. rewrite stored_cons, (stored_mem pool' pool) by exact P4. cbn [emptied j_buffer].
    split; [intros [(? & ? & _)|H]; [done|exact H]|by right].
Qed.

(** Taking a buffer for an empty slot: one is always free. *)
Lemma length_owned (sl : list jitter_packet_t) : length (owned sl) = length (full sl).
Proof.
  induction sl as [|s sl IH]; [done|]. cbn [omap list_omap]. destruct (j_buffer s) as [b|] eqn:E.
  - rewrite filter_cons_True by (unfold is_full; apply bool_decide_eq_true_2; by rewrite E). cbn. by rewrite IH.
  - rewrite filter_cons_False by (unfold is_full; rewrite bool_decide_eq_true, E; naive_solver). exact IH.
Qed.
Lemma owned_not_full (sl : list jitter_packet_t) b : b ∉ owned sl -> forall s, s ∈ sl -> j_buffer s <> Some b.
Proof. intros Hb s Hs E. apply Hb. apply list_elem_of_omap. by exists s. Qed.
Lemma free_buffer pool s sl : buf_ok pool (s :: sl) -> j_buffer s = None ->
  exists b, (b < bufferCount pool)%nat /\ in_use pool b = false.
Proof.
  intros [B1 B2 B3 B4 B5 B6 B7 B8] Hs. destruct (decide (Exists (fun b => in_use pool b = false) (seq 0 JITTER_SLOT_COUNT))) as [He|He].
  - apply Exists_exists in He as (b & Hb & Hf). apply elem_of_seq in Hb. exists b. rewrite B2. split; [lia|exact Hf].
  - exfalso. cbn [omap list_omap] in B5, B6. rewrite Hs in B5, B6.
    assert (length (seq 0 JITTER_SLOT_COUNT) <= length (owned sl))%nat as Hle.
    { apply submseteq_length, NoDup_submseteq; [apply NoDup_seq|]. intros b Hb. apply B6. apply elem_of_seq in Hb as [_ Hb].
      split; [exact Hb|]. destruct (in_use pool b) eqn:E; [done|]. exfalso. apply He, Exists_exists. exists b.
      split; [apply elem_of_seq; lia|exact E]. }
    rewrite length_seq, length_owned in Hle. pose proof (length_filter (fun s => is_full s = true) sl) as Hlf.
    cbn [length] in B4. lia.
Qed.

(** Writing a buffer changes what is read from it and from no other. *)
Lemma read_write pool b data : pool_ok pool -> (b < bufferCount pool)%nat -> (length data <= p_size pool)%nat ->
  pool_read b (length data) (pool_write b data pool) = data.
Proof.
  intros (_ & _ & P3 & P4) Hb Hd. unfold pool_read, pool_write. cbn [p_mem].
  assert (length (nth b (p_mem pool) []) = p_size pool) as Hl by (apply (proj1 (Forall_nth _ [] _) P4 b); lia).
  rewrite (nth_lookup_Some _ _ _ (store (nth b (p_mem pool) []) 0 data)) by (apply list_lookup_insert_eq; lia).
  by rewrite (take_store _ 0) by (rewrite ?Hl; lia).
Qed.
Lemma stored_write pool b data sl t d e : b ∉ owned sl -> stored (pool_write b data pool) sl t d e <-> stored pool sl t d e.
Proof.
  intros Hni. unfold stored.
  assert (forall x c, x ∈ sl -> j_buffer x = Some c -> pool_read c (j_size x) (pool_write b data pool) = pool_read c (j_size x) pool) as Hr.
  { intros x c Hx Hc. unfold pool_read, pool_write. cbn [p_mem].
    assert (c <> b) as Hcb by (intros ->; by apply (owned_not_full sl b Hni x Hx)).
    by rewrite !nth_lookup, list_lookup_insert_ne by done. }
  split; intros (x & c & Hx & Hc & R1 & R2 & R3); exists x, c; do 4 (split; [done|]); [by rewrite <- Hr|by rewrite Hr].
Qed.

Definition timestamps (sl : list jitter_packet_t) : list Z := map j_timestamp (full sl).

Lemma take_buffer pool s sl pkt diff : buf_ok pool (s :: sl) -> j_buffer s = None ->
  (length (k_data pkt) <= JITTER_SLOT_SIZE)%nat -> is_u32 (k_timestamp pkt) -> k_timestamp pkt ∉ timestamps sl ->
  exists b pool', Get pool = (Value (Some b), pool') /\
    let new := JPacket (Some b) (length (k_data pkt)) (k_timestamp pkt) (k_isEC pkt) diff in
    let pool'' := pool_write b (k_data pkt) pool' in
    buf_ok pool'' (new :: sl) /\
    forall t d e, stored pool'' (new :: sl) t d e <->
      (t = k_timestamp pkt /\ d = k_data pkt /\ e = k_isEC pkt) \/ stored pool sl t d e.
Proof.
  intros B Hs Hd Hu Ht. pose proof (free_buffer _ _ _ B Hs) as (b0 & Hb0 & Hf0).
  destruct B as [B1 B2 B3 B4 B5 B6 B7 B8]. pose proof (Get_spec pool B1) as G.
  destruct (Get pool) as [[[b|]| |] pool'] eqn:EG; [|destruct G as [_ G]; rewrite (G b0 Hb0) in Hf0; done|done|done].
  destruct G as (G1 & G2 & G3 & G4 & G5 & G6 & G7). exists b, pool'. split; [reflexivity|]. cbv zeta.
  cbn [omap list_omap] in B5, B6. rewrite Hs in B5, B6.
  assert (b ∉ owned sl) as Hni. { intros Hb. apply B6 in Hb as [_ Hb]. by rewrite G3 in Hb. }
  assert (pool_read b (length (k_data pkt)) (pool_write b (k_data pkt) pool') = k_data pkt) as Hrd
    by (apply read_write; [done|by rewrite G4|by rewrite G5, B3]).
  split.
  - split; [by apply pool_write_ok; [|rewrite G5, B3]|cbn; by rewrite G4|cbn; by rewrite G5|exact B4|..];
      cbn [omap list_omap j_buffer].
    + by apply NoDup_cons.
    + intros c. rewrite elem_of_cons, B6. unfold pool_write, in_use in *. cbn [usedBuffers]. rewrite B2 in *.
      split.
      * intros [->|[C1 C2]]; (split; [assumption|]); rewrite G7 by assumption; [by rewrite bool_decide_eq_true_2, orb_true_r|by rewrite C2].
      * intros [C1 C2]. rewrite G7 in C2 by exact C1. apply orb_true_iff in C2 as [C2|C2]; [by right|].
        left. by apply bool_decide_eq_true_1 in C2.
    + apply Forall_cons in B7 as [_ B7]. by apply Forall_cons_2.
    + rewrite filter_cons_True by done. cbn [map j_timestamp]. apply NoDup_cons. split; [exact Ht|].
      rewrite filter_cons_False in B8 by (unfold is_full; rewrite bool_decide_eq_true, Hs; naive_solver). exact B8.
  - intros t d e. rewrite stored_cons, stored_write, (stored_mem pool' pool) by assumption.
    cbn [j_buffer j_timestamp j_isEC j_size]. split.
    + intros [(c & [= <-] & <- & <- & <-)|H]; [left; by rewrite Hrd|by right].
    + intros [(-> & -> & ->)|H]; [left; by exists b|by right].
Qed.

(** ** The operations *)

Definition jitter_ok (j : jitter) : Prop := buf_ok (bufferPool j) (slots j).
Definition held (j : jitter) : Z -> list Z -> bool -> Prop := stored (bufferPool j) (slots j).

Lemma reuse_slot_ok j i s : jitter_ok j -> slots j !! i = Some s -> is_full s = true ->
  exists pool, reuse_slot i j = (Value tt, j <| bufferPool := pool |> <| slots := <[i := emptied s]> (slots j) |>) /\
    p_mem pool = p_mem (bufferPool j) /\ buf_ok pool (<[i := emptied s]> (slots j)).
Proof.
  intros B Hi Hf. destruct (slot_split _ _ _ Hi) as (others & E1 & E2).
  unfold is_full in Hf. apply bool_decide_eq_true_1 in Hf. destruct (j_buffer s) as [b|] eqn:Hb; [|done].
  destruct (give_back (bufferPool j) s b others) as (pool & R & P1 & P2 & _); [by apply (buf_ok_perm _ _ _ E1)|exact Hb|].
  exists pool. unfold reuse_slot. rewrite Hi. destruct s as [buf size ts ec diff]. cbn in Hb. subst buf. rewrite R.
  split; [reflexivity|]. split; [exact P1|]. apply (buf_ok_perm _ _ _ (symmetry (E2 _))). exact P2.
Qed.

Definition clear (f : Z -> bool) (s : jitter_packet_t) : jitter_packet_t :=
  if is_full s && f (j_timestamp s) then emptied s else s.

Lemma reuse_step_ok drop f j i s : jitter_ok j -> slots j !! i = Some s -> drop j s = f (j_timestamp s) ->
  exists pool, reuse_step drop i j = (Value tt, j <| bufferPool := pool |> <| slots := <[i := clear f s]> (slots j) |>) /\
    p_mem pool = p_mem (bufferPool j) /\ buf_ok pool (<[i := clear f s]> (slots j)).
Proof.
  intros B Hi Hd. unfold reuse_step, clear. rewrite Hi, Hd. destruct (is_full s && f (j_timestamp s)) eqn:Hc.
  - apply andb_true_iff in Hc as [Hf _]. by apply reuse_slot_ok.
  - exists (bufferPool j). rewrite list_insert_id by exact Hi. split; [by destruct j|by split].
Qed.

Lemma reuse_loop (drop : jitter -> jitter_packet_t -> bool) (f : Z -> bool) post : forall pre j,
  jitter_ok j -> slots j = pre ++ post ->
  (forall pool sl s, drop (j <| bufferPool := pool |> <| slots := sl |>) s = f (j_timestamp s)) ->
  exists pool, iterate_list (reuse_step drop) (seq (length pre) (length post)) j =
    (Value tt, j <| bufferPool := pool |> <| slots := pre ++ map (clear f) post |>) /\
    p_mem pool = p_mem (bufferPool j) /\ buf_ok pool (pre ++ map (clear f) post).
Proof.
  induction post as [|s post IH]; intros pre j Hj E Hd.
  { exists (bufferPool j). unfold jitter_ok in Hj. cbn [map]. rewrite <- E. split; [by destruct j|by split]. }
  assert (slots j !! length pre = Some s) as Hs by (rewrite E; apply list_lookup_middle; done).
  assert (drop j s = f (j_timestamp s)) as Hdj by (rewrite <- (Hd (bufferPool j) (slots j)); by destruct j).
  destruct (reuse_step_ok drop f j _ s Hj Hs Hdj) as (pool & R & P1 & P2).
  set (j1 := _ <| slots := _ |>) in R. assert (slots j1 = (pre ++ [clear f s]) ++ post) as E1.
  { cbn. rewrite E, insert_app_r_alt, Nat.sub_diag by lia. by rewrite <- app_assoc. }
  destruct (IH (pre ++ [clear f s]) j1 P2 E1) as (pool' & R' & P1' & P2'); [intros p sl t; apply (Hd p sl t)|].
  exists pool'. cbn [length seq iterate_list map]. unfold mbind at 1, M_bind at 1. rewrite R.
  rewrite length_app, Nat.add_1_r in R'. rewrite <- app_assoc in R', P2'. split; [exact R'|]. by rewrite P1'.
Qed.

(** Emptying the slots whose timestamp satisfies [f]. *)
Lemma reuse_where_ok drop f j : jitter_ok j ->
  (forall pool sl s, drop (j <| bufferPool := pool |> <| slots := sl |>) s = f (j_timestamp s)) ->
  exists pool, let sl := map (clear f) (slots j) in
    reuse_where drop j = (Value tt, j <| bufferPool := pool |> <| slots := sl |>) /\ buf_ok pool sl /\
    forall t d e, stored pool sl t d e <-> held j t d e /\ f t = false.
Proof.
  intros Hj Hd. destruct (reuse_loop drop f (slots j) [] j Hj eq_refl Hd) as (pool & R & P1 & P2).
  exists pool. cbv zeta. unfold reuse_where. destruct Hj as [_ _ _ B4 _ _ _ _]. rewrite B4 in R. split; [exact R|]. split; [exact P2|].
  intros t d e. rewrite (stored_mem pool (bufferPool j)) by exact P1. unfold held, stored. split.
  - intros (s & b & Hs & Hb & <- & <- & <-). apply list_elem_of_fmap in Hs as (s' & -> & Hs'). unfold clear in *.
    destruct (is_full s' && f (j_timestamp s')) eqn:Hc; [done|]. split; [by exists s', b|].
    apply andb_false_iff in Hc as [Hc|Hc]; [|exact Hc]. unfold is_full in Hc. apply bool_decide_eq_false_1 in Hc.
    exfalso. apply Hc. by rewrite Hb.
  - intros [(s & b & Hs & Hb & <- & <- & <-) Hf]. exists s, b. split; [|done].
    apply list_elem_of_fmap. exists s. split; [|exact Hs]. unfold clear. by rewrite Hf, andb_false_r.
Qed.

Lemma ResetBuffer_ok j : jitter_ok j -> exists j', ResetBuffer j = (Value tt, j') /\ jitter_ok j' /\
  (forall t d e, ~ held j' t d e) /\ maxUsedSlots j' = maxUsedSlots j /\ wasReset j' = true.
Proof.
  intros Hj. unfold ResetBuffer. unfold mbind at 1, M_bind at 1. unfold modify at 1.
  set (j1 := _ <| lastPutTimestamp := _ |>). unfold mbind at 1, M_bind at 1.
  destruct (reuse_where_ok (fun _ _ => true) (fun _ => true) j1 Hj) as (pool & R & P1 & P2); [done|].
  rewrite R. unfold modify. eexists. split; [reflexivity|]. split; [exact P1|]. split; [|split; reflexivity].
  intros t d e H. apply P2 in H as [_ H]. discriminate H.
Qed.

Lemma find_slot_spec f j : length (slots j) = JITTER_SLOT_COUNT ->
  (exists s, slots j !! find_slot f j = Some s /\ f s = true /\ (find_slot f j < JITTER_SLOT_COUNT)%nat) \/
  (find_slot f j = JITTER_SLOT_COUNT /\ forall s, s ∈ slots j -> f s = false).
Proof.
  intros Hl. unfold find_slot. destruct (list_find _ _) as [[i s]|] eqn:E; cbn [fmap option_fmap option_map default fst].
  - left. apply list_find_Some in E as (E1 & E2 & _). exists s. split; [exact E1|]. split; [exact E2|].
    rewrite <- Hl. apply lookup_lt_is_Some. by exists s.
  - right. split; [reflexivity|]. apply list_find_None in E. intros s Hs. rewrite Forall_forall in E. specialize (E s Hs).
    by destruct (f s).
Qed.
Lemma full_buffer s : is_full s = true <-> exists b, j_buffer s = Some b.
Proof.
  unfold is_full. rewrite bool_decide_eq_true. destruct (j_buffer s) as [b|]; split; try done; [by exists b|].
  by intros [b Hb].
Qed.
Lemma empty_buffer s : is_full s = false <-> j_buffer s = None.
Proof. unfold is_full. rewrite bool_decide_eq_false. split; [apply dec_stable|intros E H; exact (H E)]. Qed.

Lemma held_timestamp j t d e : held j t d e -> t ∈ timestamps (slots j).
Proof.
  intros (s & b & Hs & Hb & <- & _). apply list_elem_of_fmap. exists s. split; [done|]. apply list_elem_of_filter.
  split; [by apply full_buffer; exists b|exact Hs].
Qed.
Lemma timestamp_held j t : t ∈ timestamps (slots j) -> exists d e, held j t d e.
Proof.
  intros Ht. apply list_elem_of_fmap in Ht as (s & -> & Hs). apply list_elem_of_filter in Hs as [Hf Hs].
  apply full_buffer in Hf as [b Hb]. by exists (pool_read b (j_size s) (bufferPool j)), (j_isEC s), s, b.
Qed.
Lemma timestamps_split sl s others : sl ≡ₚ s :: others -> is_full s = false -> timestamps others ≡ₚ timestamps sl.
Proof. intros E Hs. unfold timestamps. rewrite E, filter_cons_False; [done|by rewrite Hs]. Qed.

(** Filling an empty slot. *)
Lemma fill_slot_ok i s pkt time j : jitter_ok j -> slots j !! i = Some s -> is_full s = false ->
  (length (k_data pkt) <= JITTER_SLOT_SIZE)%nat -> is_u32 (k_timestamp pkt) -> k_timestamp pkt ∉ timestamps (slots j) ->
  exists pool sl, fill_slot i pkt time j =
      (Value tt, j <| bufferPool := pool |> <| slots := sl |> <| prevRecvTime := time |>) /\ buf_ok pool sl /\
    forall t d e, stored pool sl t d e <-> (t = k_timestamp pkt /\ d = k_data pkt /\ e = k_isEC pkt) \/ held j t d e.
Proof.
  intros B Hi Hs Hd Hu Ht. destruct (slot_split _ _ _ Hi) as (others & E1 & E2).
  apply empty_buffer in Hs as Hb. pose proof (timestamps_split _ _ _ E1 Hs) as Et.
  destruct (take_buffer (bufferPool j) s others pkt (dsub time (prevRecvTime j))) as (b & pool' & G & P1 & P2);
    [by apply (buf_ok_perm _ _ _ E1)|exact Hb|exact Hd|exact Hu|by rewrite Et|].
  set (new := JPacket (Some b) _ _ _ _) in *. set (pool'' := pool_write _ _ _) in *.
  exists pool'', (<[i := new]> (slots j)). unfold fill_slot. rewrite G, decide_True by (apply lookup_lt_is_Some; by exists s).
  split; [reflexivity|]. split; [by apply (buf_ok_perm _ _ _ (symmetry (E2 _)))|].
  intros t d e. split.
  - intros H. apply (stored_perm _ _ _ _ _ _ (E2 new)), P2 in H as [H|H]; [by left|right].
    apply (stored_perm _ _ _ _ _ _ (symmetry E1)). apply stored_cons. by right.
  - intros H. apply (stored_perm _ _ _ _ _ _ (symmetry (E2 new))), P2. destruct H as [H|H]; [by left|right].
    apply (stored_perm _ _ _ _ _ _ E1), stored_cons in H as [(c & Hc & _)|H]; [by rewrite Hb in Hc|exact H].
Qed.

(** The oldest packet, when there is one that can be chosen. *)
Lemma oldest_slot_spec j : length (slots j) = JITTER_SLOT_COUNT ->
  (exists s, s ∈ slots j /\ is_full s = true /\ j_timestamp s < 0xFFFFFFFF) ->
  exists s, slots j !! oldest_slot j = Some s /\ is_full s = true /\
    forall s', s' ∈ slots j -> is_full s' = true -> j_timestamp s <= j_timestamp s'.
Proof.
  intros Hl (s0 & Hs0 & Hf0 & Ht0). unfold oldest_slot.
  assert (let acc := for_loop 0 JITTER_SLOT_COUNT (oldest_body j) (JITTER_SLOT_COUNT, 0xFFFFFFFF) in
    (snd acc <= 0xFFFFFFFF) /\
    (snd acc < 0xFFFFFFFF -> exists s, slots j !! fst acc = Some s /\ is_full s = true /\ j_timestamp s = snd acc) /\
    forall k s, (k < 0 + JITTER_SLOT_COUNT)%nat -> slots j !! k = Some s -> is_full s = true -> snd acc <= j_timestamp s \/ 0xFFFFFFFF <= j_timestamp s) as H.
  { apply (for_loop_inv (fun n acc => (snd acc <= 0xFFFFFFFF) /\
      (snd acc < 0xFFFFFFFF -> exists s, slots j !! fst acc = Some s /\ is_full s = true /\ j_timestamp s = snd acc) /\
      forall k s, (k < n)%nat -> slots j !! k = Some s -> is_full s = true -> snd acc <= j_timestamp s \/ 0xFFFFFFFF <= j_timestamp s)).
    - cbn [fst snd]. split; [lia|]. split; [lia|]. intros. lia.
    - intros i acc Hi (I1 & I2 & I3). unfold oldest_body. destruct (slots j !! i) as [s|] eqn:E.
      + destruct (is_full s && bool_decide (j_timestamp s < snd acc)) eqn:Hc; cbn [fst snd].
        * apply andb_true_iff in Hc as [C1 C2]. apply bool_decide_eq_true_1 in C2. split; [lia|]. split; [by exists s|].
          intros k s' Hk Hs' Hf'. destruct (decide (k = i)) as [->|]; [left; rewrite E in Hs'; injection Hs' as <-; lia|].
          destruct (I3 k s') as [?|?]; [lia|done|done|left; lia|by right].
        * split; [exact I1|]. split; [exact I2|]. intros k s' Hk Hs' Hf'.
          destruct (decide (k = i)) as [->|]; [|apply (I3 k s'); [lia|done|done]].
          rewrite E in Hs'. injection Hs' as <-. rewrite Hf' in Hc. cbn in Hc. apply bool_decide_eq_false_1 in Hc. left. lia.
      + split; [exact I1|]. split; [exact I2|]. intros k s' Hk Hs' Hf'.
        destruct (decide (k = i)) as [->|]; [congruence|]. apply (I3 k s'); [lia|done|done]. }
  destruct H as (I1 & I2 & I3). set (acc := for_loop _ _ _ _) in *.
  assert (forall s', s' ∈ slots j -> is_full s' = true -> snd acc <= j_timestamp s' \/ 0xFFFFFFFF <= j_timestamp s') as Hall.
  { intros s' Hs' Hf'. apply list_elem_of_lookup in Hs' as [k Hk]. apply (I3 k); [|done|done].
    pose proof (lookup_lt_Some _ _ _ Hk). lia. }
  destruct I2 as (s & E1 & E2 & E3); [destruct (Hall s0 Hs0 Hf0); lia|].
  exists s. split; [exact E1|]. split; [exact E2|]. intros s' Hs' Hf'. destruct (Hall s' Hs' Hf'); lia.
Qed.

(** With two packets one of them has a timestamp below [0xFFFFFFFF]. *)
Lemma choosable j : jitter_ok j -> 2 <= GetCurrentDelay j ->
  exists s, s ∈ slots j /\ is_full s = true /\ j_timestamp s < 0xFFFFFFFF.
Proof.
  intros [_ _ _ _ _ _ B7 B8] H. unfold GetCurrentDelay in H.
  assert (forall s, s ∈ full (slots j) -> s ∈ slots j /\ is_full s = true /\ is_u32 (j_timestamp s)) as Hin.
  { intros s Hs. apply list_elem_of_filter in Hs as [Hf Hs]. rewrite Forall_forall in B7. specialize (B7 s Hs). tauto. }
  destruct (full (slots j)) as [|a [|b l]]; [cbn in H; lia|cbn in H; lia|].
  destruct (Hin a) as (A1 & A2 & A3); [by apply elem_of_cons; left|].
  destruct (Hin b) as (C1 & C2 & C3); [apply elem_of_cons; right; by apply elem_of_cons; left|].
  cbn [map] in B8. apply NoDup_cons in B8 as [B8 _]. unfold is_u32 in *.
  destruct (decide (j_timestamp a < 0xFFFFFFFF)); [by exists a|]. exists b. split; [done|]. split; [done|].
  destruct (decide (j_timestamp b < 0xFFFFFFFF)); [done|]. exfalso. apply B8. apply elem_of_cons. left. lia.
Qed.

(** What storing a packet does to the contents: the packet is there, nothing else
    is new, and what is gone is the oldest. *)
Definition put_effect (pkt : in_packet) (j j' : jitter) : Prop :=
  jitter_ok j' /\ maxUsedSlots j' = maxUsedSlots j /\
  held j' (k_timestamp pkt) (k_data pkt) (k_isEC pkt) /\
  (forall t d e, held j' t d e -> (t = k_timestamp pkt /\ d = k_data pkt /\ e = k_isEC pkt) \/ held j t d e) /\
  (forall t d e, held j t d e -> held j' t d e \/
     (Z.min (maxUsedSlots j) (Z.of_nat JITTER_SLOT_COUNT) <= GetCurrentDelay j /\ forall t' d' e', held j t' d' e' -> t <= t')).

Lemma stored_unique pool sl t d e d' e' : buf_ok pool sl -> stored pool sl t d e -> stored pool sl t d' e' -> d = d' /\ e = e'.
Proof.
  intros B (s & b & Hs & Hb & <- & <- & <-) (s' & b' & Hs' & Hb' & E1 & <- & <-).
  apply list_elem_of_lookup in Hs as [i Hi]. destruct (slot_split _ _ _ Hi) as (others & P & _).
  apply (buf_ok_perm _ _ _ P) in B. destruct B as [_ _ _ _ _ _ _ B8]. rewrite P in Hs'.
  apply elem_of_cons in Hs' as [->|Hs']; [rewrite Hb in Hb'; by injection Hb' as <-|].
  rewrite filter_cons_True in B8 by (by apply full_buffer; exists b). cbn [map] in B8. apply NoDup_cons in B8 as [B8 _].
  exfalso. apply B8. rewrite <- E1. apply list_elem_of_fmap. exists s'. split; [done|]. apply list_elem_of_filter.
  split; [by apply full_buffer; exists b'|exact Hs'].
Qed.

Lemma stored_emptied pool pool' sl i s t d e : buf_ok pool sl -> sl !! i = Some s -> is_full s = true ->
  p_mem pool' = p_mem pool ->
  stored pool' (<[i := emptied s]> sl) t d e <-> stored pool sl t d e /\ t <> j_timestamp s.
Proof.
  intros B Hi Hf Em. rewrite (stored_mem pool' pool) by exact Em. destruct (slot_split _ _ _ Hi) as (others & P1 & P2).
  apply (buf_ok_perm _ _ _ P1) in B. destruct B as [_ _ _ _ _ _ _ B8].
  rewrite filter_cons_True in B8 by exact Hf. cbn [map] in B8. apply NoDup_cons in B8 as [B8 _]. split.
  - intros H. apply (stored_perm _ _ _ _ _ _ (P2 _)), stored_cons in H as [(b & Hb & _)|H]; [done|].
    split; [apply (stored_perm _ _ _ _ _ _ (symmetry P1)), stored_cons; by right|].
    intros ->. apply B8. destruct H as (x & b & Hx & Hb & <- & _). apply list_elem_of_fmap. exists x. split; [done|].
    apply list_elem_of_filter. split; [by apply full_buffer; exists b|exact Hx].
  - intros [H Hne]. apply (stored_perm _ _ _ _ _ _ P1), stored_cons in H as [(b & _ & <- & _)|H]; [done|].
    apply (stored_perm _ _ _ _ _ _ (symmetry (P2 _))), stored_cons. by right.
Qed.
Lemma full_all sl : (forall s, s ∈ sl -> is_full s = true) -> length (full sl) = length sl.
Proof.
  induction sl as [|s sl IH]; [done|]. intros H. rewrite filter_cons_True by (apply H, elem_of_cons; by left).
  cbn [length]. f_equal. apply IH. intros x Hx. apply H, elem_of_cons. by right.
Qed.

Lemma put_packet_ok pkt time j : jitter_ok j -> 2 <= maxUsedSlots j ->
  (length (k_data pkt) <= JITTER_SLOT_SIZE)%nat -> is_u32 (k_timestamp pkt) -> k_timestamp pkt ∉ timestamps (slots j) ->
  exists j', put_packet pkt time j = (Value tt, j') /\ put_effect pkt j j'.
Proof.
  intros B Hmax Hd Hu Ht. pose proof (bo_length _ _ B) as Hl. unfold put_packet.
  set (j1 := if decide (lastPutTimestamp j < k_timestamp pkt) then _ else j).
  assert (bufferPool j1 = bufferPool j /\ slots j1 = slots j /\ maxUsedSlots j1 = maxUsedSlots j) as (F1 & F2 & F3)
    by (unfold j1; case_decide; by split).
  assert (jitter_ok j1) as B1 by (unfold jitter_ok; by rewrite F1, F2).
  assert (forall t d e, held j1 t d e <-> held j t d e) as Hh by (intros; unfold held; by rewrite F1, F2).
  assert (GetCurrentDelay j1 = GetCurrentDelay j) as Hdel by (unfold GetCurrentDelay; by rewrite F2).
  rewrite <- F2 in Hl, Ht. clearbody j1. cbv zeta.
  destruct (decide (_ \/ _)) as [Hfull|Hfree].
  - assert (Z.min (maxUsedSlots j) (Z.of_nat JITTER_SLOT_COUNT) <= GetCurrentDelay j) as Hcap.
    { destruct Hfull as [Hfull|Hfull]; [|lia].
      destruct (find_slot_spec (fun s => negb (is_full s)) j1 Hl) as [(s & _ & _ & Hs)|[_ Hall]]; [lia|].
      rewrite <- Hdel. unfold GetCurrentDelay. rewrite full_all; [lia|].
      intros x Hx. specialize (Hall x Hx). by destruct (is_full x). }
    assert (2 <= GetCurrentDelay j1) as H2 by (rewrite Hdel; change (Z.of_nat JITTER_SLOT_COUNT) with 64 in Hcap; lia).
    destruct (oldest_slot_spec j1 Hl (choosable j1 B1 H2)) as (s & O1 & O2 & O3).
    set (i := oldest_slot j1) in *. unfold mbind at 1, M_bind at 1, modify. unfold mbind at 1, M_bind at 1.
    destruct (reuse_slot_ok (Advance j1) i s B1 O1 O2) as (pool & R & P1 & P2).
    rewrite R. set (j2 := _ <| slots := _ |>). change (slots (Advance j1)) with (slots j1) in *. change (bufferPool (Advance j1)) with (bufferPool j1) in *.
    assert (forall t d e, held j2 t d e <-> held j1 t d e /\ t <> j_timestamp s) as H2'
      by (intros; by apply (stored_emptied (bufferPool j1))).
    destruct (fill_slot_ok i (emptied s) pkt time j2) as (pool' & sl' & R' & Q1 & Q2); [exact P2| |done|exact Hd|exact Hu| |].
    { cbn [slots j2]. apply list_lookup_insert_eq, lookup_lt_is_Some. by exists s. }
    { intros H. apply timestamp_held in H as (d & e & H). apply H2' in H as [H _]. by apply Ht, (held_timestamp j1 _ d e). }
    eexists. split; [exact R'|]. split; [exact Q1|]. split; [exact F3|]. split; [apply Q2; by left|]. split.
    + intros t d e H. apply Q2 in H as [H|H]; [by left|right]. apply Hh. by apply H2'.
    + intros t d e H. apply Hh in H. destruct (decide (t = j_timestamp s)) as [->|Hne].
      * right. split; [exact Hcap|]. intros t' d' e' H'. apply Hh in H'. destruct H' as (x & b & Hx & Hb & <- & _).
        apply O3; [exact Hx|]. apply full_buffer. by exists b.
      * left. apply Q2. right. by apply H2'.
  - destruct (find_slot_spec (fun s => negb (is_full s)) j1 Hl) as [(s & Hs & Hns & Hlt)|[He _]]; [|exfalso; apply Hfree; by left].
    apply negb_true_iff in Hns.
    destruct (fill_slot_ok _ s pkt time j1 B1 Hs Hns Hd Hu Ht) as (pool & sl & R & P1 & P2).
    eexists. split; [exact R|]. split; [exact P1|]. split; [exact F3|]. split; [apply P2; by left|]. split.
    + intros t d e H. apply P2 in H as [H|H]; [by left|right]. by apply Hh.
    + intros t d e H. left. apply P2. right. by apply Hh.
Qed.

(** Overwriting a packet in place. *)
Lemma overwrite_slot_ok i s pkt j : jitter_ok j -> slots j !! i = Some s -> is_full s = true ->
  (length (k_data pkt) <= JITTER_SLOT_SIZE)%nat -> j_timestamp s = k_timestamp pkt ->
  let j' := overwrite_slot i pkt j in
  jitter_ok j' /\ maxUsedSlots j' = maxUsedSlots j /\
  forall t d e, held j' t d e <->
    (t = k_timestamp pkt /\ d = k_data pkt /\ e = k_isEC pkt) \/ (t <> k_timestamp pkt /\ held j t d e).
Proof.
  intros B Hi Hf Hd Hts. destruct (slot_split _ _ _ Hi) as (others & E1 & E2).
  apply full_buffer in Hf as [b Hb]. unfold overwrite_slot. rewrite Hi.
  destruct s as [buf size ts ec diff]. cbn in Hb, Hts. subst buf ts.
  set (s := JPacket _ _ _ _ _) in *. set (s' := JPacket (Some b) (length (k_data pkt)) _ _ _). cbv zeta.
  unfold jitter_ok, held. cbn [bufferPool slots maxUsedSlots set].
  pose proof (buf_ok_perm _ _ _ E1 B) as B'. destruct B' as [B1 B2 B3 B4 B5 B6 B7 B8].
  assert (b ∉ owned others) as Hni by (cbn in B5; by apply NoDup_cons in B5 as [? _]).
  assert (b < bufferCount (bufferPool j))%nat as Hlt by (rewrite B2; apply B6; cbn; apply elem_of_cons; by left).
  assert (k_timestamp pkt ∉ timestamps others) as Ht.
  { rewrite filter_cons_True in B8 by done. cbn [map] in B8. by apply NoDup_cons in B8 as [? _]. }
  assert (pool_read b (length (k_data pkt)) (pool_write b (k_data pkt) (bufferPool j)) = k_data pkt) as Hrd
    by (apply read_write; [done|done|by rewrite B3]).
  split; [|split; [reflexivity|]].
  - apply (buf_ok_perm _ _ _ (symmetry (E2 s'))). split; [by apply pool_write_ok; [|rewrite B3]|done|done|done|done|done|..].
    + apply Forall_cons in B7 as [B7 B7']. apply Forall_cons_2; [|exact B7']. split; [exact Hd|exact (proj2 B7)].
    + rewrite filter_cons_True in B8 |- * by done. exact B8.
  - intros t d e. split.
    + intros H. apply (stored_perm _ _ _ _ _ _ (E2 s')), stored_cons in H as [(c & [= <-] & <- & <- & <-)|H].
      * left. by rewrite <- Hrd at 2.
      * right. apply stored_write in H; [|exact Hni]. split.
        -- intros ->. apply Ht. destruct H as (x & c & Hx & Hc & <- & _). apply list_elem_of_fmap. exists x. split; [done|].
           apply list_elem_of_filter. split; [by apply full_buffer; exists c|exact Hx].
        -- apply (stored_perm _ _ _ _ _ _ (symmetry E1)), stored_cons. by right.
    + intros H. apply (stored_perm _ _ _ _ _ _ (symmetry (E2 s'))), stored_cons. destruct H as [(-> & -> & ->)|[Hne H]].
      * left. by exists b.
      * right. apply stored_write; [exact Hni|]. apply (stored_perm _ _ _ _ _ _ E1), stored_cons in H as [(c & _ & <- & _)|H]; [done|exact H].
Qed.

Lemma find_timestamp j t : jitter_ok j ->
  let i := find_slot (fun s => is_full s && bool_decide (j_timestamp s = t)) j in
  (exists s, slots j !! i = Some s /\ is_full s = true /\ j_timestamp s = t /\ i <> JITTER_SLOT_COUNT) \/
  (i = JITTER_SLOT_COUNT /\ slots j !! i = None /\ t ∉ timestamps (slots j)).
Proof.
  intros B i. pose proof (bo_length _ _ B) as Hl.
  destruct (find_slot_spec (fun s => is_full s && bool_decide (j_timestamp s = t)) j Hl) as [(s & Hs & Hf & Hlt)|[He Hall]].
  - left. exists s. apply andb_true_iff in Hf as [Hf Ht]. apply bool_decide_eq_true_1 in Ht.
    split; [exact Hs|]. split; [exact Hf|]. split; [exact Ht|]. unfold i. lia.
  - right. split; [exact He|]. split; [apply lookup_ge_None; unfold i; lia|]. intros H.
    apply list_elem_of_fmap in H as (s & -> & H). apply list_elem_of_filter in H as [Hf H].
    specialize (Hall s H). by rewrite Hf, bool_decide_eq_true_2 in Hall.
Qed.

(** [nextTimestamp] when a new packet arrives. *)
Definition next_at (timestamp : Z) (j : jitter) : Z := nextTimestamp (resync timestamp (j <| gotSinceReset := u32 (gotSinceReset j + 1) |>)).

Definition handle_effect (pkt : in_packet) (j j' : jitter) : Prop :=
  let t0 := k_timestamp pkt in
  if decide (t0 ∈ timestamps (slots j)) then
    if k_isEC pkt then j' = j
    else jitter_ok j' /\ forall t d e, held j' t d e <->
      (t = t0 /\ d = k_data pkt /\ e = false) \/ (t <> t0 /\ held j t d e)
  else
    jitter_ok j' /\ held j' t0 (k_data pkt) (k_isEC pkt) /\
    (forall t d e, held j' t d e -> (t = t0 /\ d = k_data pkt /\ e = k_isEC pkt) \/ held j t d e) /\
    (forall t d e, held j t d e -> held j' t d e \/ t < next_at t0 j - 1 \/
       forall t' d' e', held j t' d' e' -> next_at t0 j - 1 <= t' -> t <= t').

Lemma put_new pkt time j : jitter_ok j -> 2 <= maxUsedSlots j ->
  (length (k_data pkt) <= JITTER_SLOT_SIZE)%nat -> is_u32 (k_timestamp pkt) -> k_timestamp pkt ∉ timestamps (slots j) ->
  exists j', PutInternal pkt (negb (k_isEC pkt)) time j = (Value tt, j') /\ handle_effect pkt j j' /\ jitter_ok j' /\
    maxUsedSlots j' = maxUsedSlots j.
Proof.
  intros B Hmax Hd Hu Ht. unfold PutInternal. rewrite decide_False by lia. cbv zeta.
  destruct (find_timestamp j (k_timestamp pkt) B) as [(s & Hs & Hf & Hts & _)|(-> & _ & _)].
  { exfalso. apply Ht. apply list_elem_of_fmap. exists s. split; [done|]. apply list_elem_of_filter.
    split; [exact Hf|]. by apply list_elem_of_lookup_2 in Hs. }
  rewrite decide_False by (intros H; by apply H).
  unfold mbind at 1, M_bind at 1, modify at 1. set (j1 := resync _ _).
  assert (bufferPool j1 = bufferPool j /\ slots j1 = slots j /\ maxUsedSlots j1 = maxUsedSlots j) as (F1 & F2 & F3)
    by (unfold j1, resync; destruct (wasReset _); by split).
  assert (jitter_ok j1) as B1 by (unfold jitter_ok; by rewrite F1, F2).
  destruct (reuse_where_ok (fun j s => bool_decide (j_timestamp s < nextTimestamp j - 1))
    (fun t => bool_decide (t < nextTimestamp j1 - 1)) j1 B1) as (pool & R & P1 & P2); [done|].
  unfold mbind at 1, M_bind at 1. rewrite R. set (j2 := _ <| slots := _ |>).
  unfold mbind at 1, M_bind at 1, modify at 1. set (j3 := note_arrival time j2).
  assert (bufferPool j3 = bufferPool j2 /\ slots j3 = slots j2 /\ maxUsedSlots j3 = maxUsedSlots j1) as (G1 & G2 & G3)
    by (unfold j3, note_arrival; destruct (deqb _ _); by split).
  assert (forall t d e, held j3 t d e <-> held j t d e /\ next_at (k_timestamp pkt) j - 1 <= t) as H3.
  { intros t d e. unfold held at 1. rewrite G1, G2. etransitivity; [apply P2|]. unfold held. rewrite F1, F2.
    rewrite bool_decide_eq_false. unfold next_at. fold j1. split; intros [? ?]; (split; [assumption|lia]). }
  assert (forall j4, bufferPool j4 = bufferPool j3 -> slots j4 = slots j3 -> maxUsedSlots j4 = maxUsedSlots j3 ->
    exists j', put_packet pkt time j4 = (Value tt, j') /\ handle_effect pkt j j' /\ jitter_ok j' /\ maxUsedSlots j' = maxUsedSlots j) as Hput.
  { intros j4 E1 E2 E3. assert (forall t d e, held j4 t d e <-> held j3 t d e) as H4 by (intros; unfold held; by rewrite E1, E2).
    destruct (put_packet_ok pkt time j4) as (j' & R' & Q1 & Q2 & Q3 & Q4 & Q5).
    - unfold jitter_ok. rewrite E1, E2, G1, G2. exact P1.
    - by rewrite E3, G3, F3.
    - exact Hd.
    - exact Hu.
    - intros H. apply timestamp_held in H as (d & e & H). apply H4, H3 in H as [H _]. by apply Ht, (held_timestamp j _ d e).
    - exists j'. split; [exact R'|]. split; [|split; [exact Q1|by rewrite Q2, E3, G3, F3]].
      unfold handle_effect. rewrite decide_False by exact Ht. split; [exact Q1|]. split; [exact Q3|]. split.
      + intros t d e H. apply Q4 in H as [H|H]; [by left|right]. by apply H4, H3 in H as [H _].
      + intros t d e H. destruct (decide (t < next_at (k_timestamp pkt) j - 1)) as [|Hge]; [right; by left|].
        assert (held j4 t d e) as H' by (apply H4, H3; split; [exact H|lia]).
        apply Q5 in H' as [H'|[_ H']]; [by left|right; right]. intros t' d' e' Hh Hge'.
        apply (H' t' d' e'). apply H4, H3. by split. }
  destruct (decide (k_timestamp pkt < nextTimestamp j3)); [by apply Hput|].
  rewrite decide_False by lia. by apply Hput.
Qed.

Lemma HandleInput_ok (j : jitter) (data : list Z) (timestamp : Z) (isEC : bool) (time : double)
  (Hj : jitter_ok j) (Hmax : 2 <= maxUsedSlots j) (Hts : is_u32 timestamp) :
  exists j', HandleInput data timestamp isEC time j = (Value tt, j') /\ jitter_ok j' /\ maxUsedSlots j' = maxUsedSlots j /\
    (if decide (JITTER_SLOT_SIZE < length data)%nat then j' = j else handle_effect (InPacket data timestamp isEC) j j').
Proof.
  unfold HandleInput. set (pkt := InPacket data timestamp isEC).
  destruct (decide (JITTER_SLOT_SIZE < length data)%nat) as [Hd|Hd].
  { exists j. unfold PutInternal. rewrite decide_True by exact Hd. by split. }
  destruct (decide (timestamp ∈ timestamps (slots j))) as [Ht|Ht].
  - destruct (find_timestamp j timestamp Hj) as [(s & Hs & Hf & Hst & Hne)|(_ & _ & Hni)]; [|done].
    destruct (overwrite_slot_ok _ s pkt j Hj Hs Hf) as (O1 & O2 & O3); [cbn; lia|exact Hst|].
    set (i := find_slot _ j) in *. unfold PutInternal. rewrite decide_False by exact Hd. cbv zeta. fold i.
    rewrite decide_True by exact Hne. eexists. split; [reflexivity|]. unfold handle_effect. rewrite decide_True by exact Ht.
    cbn [k_isEC pkt]. destruct isEC; cbn [negb]; [done|]. split; [exact O1|]. split; [exact O2|]. by split.
  - destruct (put_new pkt time j Hj Hmax) as (j' & R & E1 & E2 & E3); [cbn; lia|exact Hts|exact Ht|].
    exists j'. by split.
Qed.

(** C23: [HandleInput] never aborts, whatever arrives: a packet too big for a slot is
    ignored; one whose timestamp is already held replaces it in place unless it is
    a correction packet, which is then ignored; any other packet is stored, where
    nothing else is added and what goes away is late or the oldest packet. The
    slots keep owning exactly the pool's buffers in use. *)
Theorem jitter_put (j : jitter) (data : list Z) (timestamp : Z) (isEC : bool) (time : double)
  (Hj : jitter_ok j) (Hmax : 2 <= maxUsedSlots j) (Hts : is_u32 timestamp) :
  exists j', HandleInput data timestamp isEC time j = (Value tt, j') /\ jitter_ok j' /\ maxUsedSlots j' = maxUsedSlots j /\
    (if decide (JITTER_SLOT_SIZE < length data)%nat then j' = j else handle_effect (InPacket data timestamp isEC) j j').
Proof. by apply HandleInput_ok. Qed.

(** a packet leaves the buffer with the data it entered with: [GetInternal] with
    the timestamp it is asked for returns exactly the packet held under that
    timestamp, if it fits into the caller's buffer, and removes it and nothing
    else; when there is none it reports a missing packet, or that it is buffering,
    and the contents are unchanged or, after too many losses, dropped entirely.
    It never aborts. *)
Theorem jitter_get (j : jitter) (size : nat) (offset : Z) (advance_ : bool) (Hj : jitter_ok j) :
  let want := i64 (nextTimestamp j + i32 (offset * i32 (step j))) in
  exists r found j', GetInternal size offset advance_ j = (Value (r, found), j') /\ jitter_ok j' /\
    maxUsedSlots j' = maxUsedSlots j /\
    match r with
    | JR_OK => exists d e, held j want d e /\
        found = (if decide (size < length d)%nat then None else Some (InPacket d want e)) /\
        (forall t d' e', held j' t d' e' <-> held j t d' e' /\ t <> want) /\
        nextTimestamp j' = (if decide (offset = 0) then i64 (nextTimestamp j + step j) else nextTimestamp j)
    | _ => found = None /\ (forall d e, ~ held j want d e) /\
        ((forall t d e, held j' t d e <-> held j t d e) \/
         (r = JR_MISSING /\ wasReset j' = true /\ forall t d e, ~ held j' t d e))
    end.
Proof.
  intros want. unfold GetInternal. cbv zeta. fold want. destruct (find_timestamp j want Hj) as [(s & Hs & Hf & Hst & _)|(_ & Hi & Hni)].
  - set (i := find_slot _ j) in *. rewrite Hs. destruct (reuse_slot_ok j i s Hj Hs Hf) as (pool & R & P1 & P2).
    apply full_buffer in Hf as Hb. destruct Hb as [b Hb]. rewrite Hb.
    unfold mbind at 1, M_bind at 1. rewrite R. unfold mbind, M_bind, modify, mret, M_ret. set (j1 := _ <| slots := _ |>).
    set (j2 := _ <| needBuffering := _ |>).
    assert (bufferPool j2 = pool /\ slots j2 = <[i := emptied s]> (slots j) /\ maxUsedSlots j2 = maxUsedSlots j /\
      nextTimestamp j2 = if decide (offset = 0) then i64 (nextTimestamp j + step j) else nextTimestamp j) as (F1 & F2 & F3 & F4)
      by (unfold j2; case_decide; done).
    eexists JR_OK, _, j2. split; [reflexivity|]. split; [unfold jitter_ok; by rewrite F1, F2|]. split; [exact F3|].
    pose proof (list_elem_of_lookup_2 _ _ _ Hs) as Hin.
    assert (length (pool_read b (j_size s) (bufferPool j)) = j_size s) as Hlen.
    { destruct Hj as [(_ & _ & Q3 & Q4) B2 B3 _ _ B6 B7 _]. unfold pool_read. rewrite length_take.
      assert (b < bufferCount (bufferPool j))%nat as Hlt by (rewrite B2; apply B6, list_elem_of_omap; by exists s).
      rewrite (proj1 (Forall_nth _ [] _) Q4 b) by lia. rewrite Forall_forall in B7. destruct (B7 s Hin). lia. }
    exists (pool_read b (j_size s) (bufferPool j)), (j_isEC s). split; [by exists s, b|]. split; [by rewrite Hlen, Hst|].
    split; [|exact F4]. intros t d' e'. unfold held at 1. rewrite F1, F2, <- Hst.
    exact (stored_emptied (bufferPool j) pool (slots j) i s t d' e' Hj Hs Hf P1).
  - rewrite Hi. set (j1 := if advance_ then Advance j else j).
    assert (bufferPool j1 = bufferPool j /\ slots j1 = slots j /\ maxUsedSlots j1 = maxUsedSlots j) as (F1 & F2 & F3)
      by (unfold j1; by destruct advance_).
    assert (forall d e, ~ held j want d e) as Hno by (intros d e H; by apply Hni, (held_timestamp j want d e)).
    clearbody j1. destruct (needBuffering j1).
    { eexists JR_BUFFERING, None, j1. split; [reflexivity|]. split; [unfold jitter_ok; by rewrite F1, F2|]. split; [exact F3|].
      split; [done|]. split; [exact Hno|]. left. intros. unfold held. by rewrite F1, F2. }
    set (j2 := if decide (offset = 0) then _ else _).
    assert (bufferPool j2 = bufferPool j /\ slots j2 = slots j /\ maxUsedSlots j2 = maxUsedSlots j) as (G1 & G2 & G3)
      by (unfold j2; by case_decide).
    clearbody j2. destruct (bool_decide (lossesToReset j2 <= lostCount j2) || _).
    + unfold mbind at 1, M_bind at 1, modify. set (j3 := _ <| lostCount := 0 |>).
      assert (bufferPool j3 = bufferPool j /\ slots j3 = slots j /\ maxUsedSlots j3 = maxUsedSlots j) as (K1 & K2 & K3)
        by (unfold j3; by destruct (dltb _ _)).
      assert (jitter_ok j3) as B3 by (unfold jitter_ok; by rewrite K1, K2).
      unfold mbind, M_bind. destruct (ResetBuffer_ok j3 B3) as (j4 & R & L1 & L2 & L3 & L4). rewrite R. cbn [mret M_ret].
      eexists JR_MISSING, None, j4. split; [reflexivity|]. split; [exact L1|]. split; [by rewrite L3|].
      split; [done|]. split; [exact Hno|]. right. split; [done|]. split; [exact L4|exact L2].
    + eexists JR_MISSING, None, j2. split; [reflexivity|]. split; [unfold jitter_ok; by rewrite G1, G2|]. split; [exact G3|].
      split; [done|]. split; [exact Hno|]. left. intros. unfold held. by rewrite G1, G2.
Qed.

(** At least two slots are configured to be used. *)
Definition slots_config (GetInt : list Z -> Z -> Z) : Prop :=
  2 <= u32 (GetInt (str "jitter_max_slots_20") 50) /\ 2 <= u32 (GetInt (str "jitter_max_slots_40") 30) /\
  2 <= u32 (GetInt (str "jitter_max_slots_60") 20).

(** The constructor starts from an empty buffer. *)
Lemma new_jitter_ok GetInt GetDouble mem step_ junk : length mem = JITTER_SLOT_COUNT ->
  Forall (fun b => length b = JITTER_SLOT_SIZE) mem ->
  exists j, new_jitter GetInt GetDouble mem step_ junk = (Value tt, j) /\ jitter_ok j /\ (forall t d e, ~ held j t d e) /\
    ((forall k d, GetInt k d = d) -> 2 <= maxUsedSlots j) /\ (slots_config GetInt -> 2 <= maxUsedSlots j).
Proof.
  intros Hm Hb. unfold new_jitter, mbind, M_bind, modify.
  destruct (if decide (step_ < 30) then _ else _) as [[min_ max_] used] eqn:Ec.
  set (j := _ <| resyncThreshold := _ |>).
  destruct (ResetBuffer_ok j) as (j' & R & R1 & R2 & R3 & _).
  2:{ exists j'. split; [exact R|]. split; [exact R1|]. split; [exact R2|]. rewrite R3. cbn [maxUsedSlots j set].
      split; [intros HG; rewrite !HG in Ec|intros (HG1 & HG2 & HG3)];
        (destruct (decide (step_ < 30)); [|destruct (decide (step_ < 50))]); injection Ec as _ _ <-; try assumption; vm_compute; discriminate. }
  assert (owned (replicate JITTER_SLOT_COUNT (JPacket None 0 0 false d0)) = []) as Eo by reflexivity.
  unfold jitter_ok. cbn [bufferPool slots j set]. split; rewrite ?Eo.
  - split; [unfold is_u64; cbn; lia|]. by split.
  - done.
  - done.
  - done.
  - constructor.
  - intros b. split; [by intros H%elem_of_nil|]. intros [_ H]. unfold in_use in H. cbn in H. by rewrite Z.bits_0 in H.
  - apply Forall_replicate. unfold is_u32. cbn. lia.
  - constructor.
Qed.

(** ** The target delay *)

(** A tick leaves the packets alone. *)
Definition same_packets (j j' : jitter) : Prop :=
  bufferPool j' = bufferPool j /\ slots j' = slots j /\ maxUsedSlots j' = maxUsedSlots j.
Lemma same_packets_ok j j' : same_packets j j' -> jitter_ok j -> jitter_ok j'.
Proof. intros (E1 & E2 & _) J. unfold jitter_ok. by rewrite E1, E2. Qed.
Lemma same_packets_trans j j' j'' : same_packets j j' -> same_packets j' j'' -> same_packets j j''.
Proof. intros (A1 & A2 & A3) (B1 & B2 & B3). split; [by rewrite B1|]. split; [by rewrite B2|by rewrite B3]. Qed.
Lemma adjust_min_delay_same d j : same_packets j (adjust_min_delay d j).
Proof. unfold adjust_min_delay. cbv zeta. repeat case_match; done. Qed.
Lemma adjust_playback_same j : same_packets j (adjust_playback j).
Proof. unfold adjust_playback. cbv zeta. repeat case_match; done. Qed.
Lemma Tick_same j : same_packets j (Tick j).
Proof.
  unfold Tick. cbv zeta. set (j1 := _ <| latePacketCount := 0 |>).
  set (j2 := if dleb _ _ then _ else j1). set (j3 := if _ && _ then _ else j2). set (j4 := _ <| avgDelay := _ |>).
  assert (same_packets j j4) as H1 by (unfold j4, j3, j2; destruct (dleb _ _); destruct (_ && _); done).
  generalize (stddev_delay j4). intros d. clearbody j4. clear j1 j2 j3.
  eapply same_packets_trans; [exact H1|]. eapply same_packets_trans; [apply (adjust_min_delay_same d)|].
  set (j5 := adjust_min_delay d j4). clearbody j5. generalize (stddev j5). intros sd.
  eapply same_packets_trans; [|].
  - instantiate (1 := j5 <| lastMeasuredJitter := sd |> <| lastMeasuredDelay := of_Z d |>). done.
  - set (j6 := _ <| lastMeasuredDelay := _ |>). clearbody j6. exact (adjust_playback_same j6).
Qed.

Definition small (n : Z) : Prop := 0 <= n <= 100.
Definition small_pairs : list (Z * Z) :=
  concat (map (fun n => map (fun m => (Z.of_nat n, Z.of_nat m)) (seq 0 101)) (seq 0 101)).
Definition double_exact (p : Z * Z) : bool :=
  let '(n, d) := p in
  bool_decide (deqb (of_Z d) (of_Z n) = bool_decide (d = n)) &&
  bool_decide (to_Z (dsub (of_Z d) (of_Z n)) = d - n) &&
  bool_decide (dadd (of_Z n) (of_Z (d - n)) = of_Z d).
Lemma small_pairs_in n d : small n -> small d -> In (n, d) small_pairs.
Proof.
  unfold small. intros Hn Hd. unfold small_pairs. apply in_concat.
  exists (map (fun m => (Z.of_nat (Z.to_nat n), Z.of_nat m)) (seq 0 101)). split.
  - apply in_map_iff. exists (Z.to_nat n). split; [done|]. apply in_seq. lia.
  - apply in_map_iff. exists (Z.to_nat d). split; [f_equal; lia|]. apply in_seq. lia.
Qed.
(** On small integers the double arithmetic is exact. *)
Lemma small_exact n d : small n -> small d ->
  deqb (of_Z d) (of_Z n) = bool_decide (d = n) /\ to_Z (dsub (of_Z d) (of_Z n)) = d - n /\
  dadd (of_Z n) (of_Z (d - n)) = of_Z d.
Proof.
  intros Hn Hd. assert (forallb double_exact small_pairs = true) as H by (vm_compute; reflexivity).
  rewrite forallb_forall in H. specialize (H _ (small_pairs_in n d Hn Hd)). cbn [double_exact] in H.
  apply andb_true_iff in H as [H H3]. apply andb_true_iff in H as [H1 H2].
  exact (conj (bool_decide_eq_true_1 _ H1) (conj (bool_decide_eq_true_1 _ H2) (bool_decide_eq_true_1 _ H3))).
Qed.

Lemma adjust_min_delay_ok d n j : small n -> small d -> minDelay j = of_Z n ->
  let j' := adjust_min_delay d j in
  exists n', minDelay j' = of_Z n' /\ Z.abs (n' - n) <= 1 /\ (n <= n' <= d \/ d <= n' <= n) /\
    bufferPool j' = bufferPool j /\ slots j' = slots j /\ nextTimestamp j' = nextTimestamp j.
Proof.
  intros Hn Hd E. cbv zeta. unfold adjust_min_delay. destruct (small_exact n d Hn Hd) as (E1 & E2 & _). rewrite E, E1, E2.
  case_bool_decide as He; [exists n; split; [exact E|]; split; [lia|]; split; [lia|by split]|].
  set (j1 := if decide (0 < d - n) then _ else j).
  assert (minDelay j1 = of_Z n /\ bufferPool j1 = bufferPool j /\ slots j1 = slots j /\ nextTimestamp j1 = nextTimestamp j)
    as (F1 & F2 & F3 & F4) by (unfold j1; case_decide; done).
  clearbody j1. set (diff := if decide (d - n < -1) then -1 else d - n).
  set (diff' := if decide (1 < diff) then 1 else diff).
  assert ((diff' = 1 /\ n < d) \/ (diff' = -1 /\ d < n)) as Hdiff by (unfold diff', diff; repeat case_decide; lia).
  clearbody diff'. clear diff.
  destruct (decide (_ \/ _)) as [Hc|Hc]; [|exists n; split; [exact F1|]; split; [lia|]; split; [lia|by split]].
  exists (n + diff'). assert (dadd (of_Z n) (of_Z diff') = of_Z (n + diff')) as Hadd.
  { destruct (small_exact n (n + diff') Hn) as (_ & _ & H); [unfold small in *; lia|].
    rewrite <- H. do 2 f_equal. lia. }
  split; [|split; [lia|split; [lia|by repeat case_decide]]].
  rewrite <- Hadd, <- F1. by repeat case_decide.
Qed.

(** C24: each tick moves the target delay by at most one packet and keeps it inside
    the limits of the configuration once it is there, whatever the arrival times
    were; the packets are left alone. *)
Theorem jitter_tick (j : jitter) (n : Z) (Hlim : 0 <= minMinDelay j <= maxMinDelay j) (H100 : maxMinDelay j <= 100)
  (Hn : minMinDelay j <= n <= maxMinDelay j) (Hmin : minDelay j = of_Z n) :
  exists n', minDelay (Tick j) = of_Z n' /\ Z.abs (n' - n) <= 1 /\ minMinDelay j <= n' <= maxMinDelay j /\
    bufferPool (Tick j) = bufferPool j /\ slots (Tick j) = slots j /\ nextTimestamp (Tick j) = nextTimestamp j.
Proof.
  unfold Tick. cbv zeta. set (j1 := _ <| latePacketCount := 0 |>).
  set (j2 := if dleb _ _ then _ else j1). set (j3 := if _ && _ then _ else j2).
  set (j4 := _ <| avgDelay := _ |>). set (sd := stddev_delay j4).
  assert (minDelay j4 = of_Z n /\ bufferPool j4 = bufferPool j /\ slots j4 = slots j /\ nextTimestamp j4 = nextTimestamp j /\
    minMinDelay j4 = minMinDelay j /\ maxMinDelay j4 = maxMinDelay j) as (F1 & F2 & F3 & F4 & F5 & F6).
  { unfold j4, j3, j2. destruct (dleb _ _); destruct (_ && _); done. }
  assert (minMinDelay j <= sd <= maxMinDelay j) as Hsd.
  { unfold sd, stddev_delay. rewrite F5, F6. repeat case_decide; lia. }
  clearbody sd j4. clear j1 j2 j3.
  destruct (adjust_min_delay_ok sd n j4) as (n' & A1 & A2 & A3 & A4 & A5 & A6); [unfold small; lia|unfold small; lia|exact F1|].
  exists n'. set (j5 := adjust_min_delay sd j4) in *. set (j6 := _ <| lastMeasuredDelay := _ |>).
  assert (forall k, minDelay (adjust_playback k) = minDelay k /\ bufferPool (adjust_playback k) = bufferPool k /\
    slots (adjust_playback k) = slots k /\ nextTimestamp (adjust_playback k) = nextTimestamp k) as Hp.
  { intros k. unfold adjust_playback. set (k1 := if decide (dontChangeDelay k = 0) then _ else k).
    assert (minDelay k1 = minDelay k /\ bufferPool k1 = bufferPool k /\ slots k1 = slots k /\ nextTimestamp k1 = nextTimestamp k)
      as (K1 & K2 & K3 & K4) by (unfold k1; case_decide; [destruct (dltb _ _); [|destruct (dltb _ _)]|]; done).
    cbv zeta. case_decide; by rewrite <- K1, <- K2, <- K3, <- K4. }
  destruct (Hp j6) as (P1 & P2 & P3 & P4). clearbody j5.
  split; [etransitivity; [exact P1|exact A1]|]. split; [exact A2|]. split; [lia|].
  split; [etransitivity; [exact P2|etransitivity; [exact A4|exact F2]]|].
  split; [etransitivity; [exact P3|etransitivity; [exact A5|exact F3]]|].
  etransitivity; [exact P4|etransitivity; [exact A6|exact F4]].
Qed.

(** ** Concrete buffers *)

Definition blank_jitter : jitter :=
  Jitter (Pool 0 0 0 []) [] 0 0 d0 0 0 0 0 0 d0 0 0 0 false false [] [] false 0 0 0 0 0 d0 d0 [] 0 d0 d0 0 0 d0.
Definition default_config {A} (_ : list Z) (x : A) : A := x.
Definition blank_memory : list (list Z) := replicate JITTER_SLOT_COUNT (zeros JITTER_SLOT_SIZE).

Lemma blank_memory_ok : length blank_memory = JITTER_SLOT_COUNT /\ Forall (fun b => length b = JITTER_SLOT_SIZE) blank_memory.
Proof.
  unfold blank_memory. generalize JITTER_SLOT_COUNT, JITTER_SLOT_SIZE. intros n m. split; [apply length_replicate|].
  apply Forall_replicate. apply length_zeros.
Qed.

Lemma jitter_put_witness : exists j j', jitter_ok j /\
  HandleInput [1; 2; 3] 600 false (of_Z 5) j = (Value tt, j') /\ jitter_ok j'.
Proof.
  destruct (new_jitter_ok default_config default_config blank_memory 60 blank_jitter
    (proj1 blank_memory_ok) (proj2 blank_memory_ok)) as (j & _ & Hj & _ & Hmax & _).
  destruct (jitter_put j [1; 2; 3] 600 false (of_Z 5) Hj (Hmax (fun _ _ => eq_refl))) as (j' & R & Hj' & _).
  - unfold is_u32. lia.
  - exists j, j'. split; [exact Hj|]. split; [exact R|exact Hj'].
Defined.

Lemma jitter_get_witness : exists j r found j', jitter_ok j /\
  GetInternal 1024 0 true j = (Value (r, found), j') /\ jitter_ok j'.
Proof.
  destruct (new_jitter_ok default_config default_config blank_memory 20 blank_jitter
    (proj1 blank_memory_ok) (proj2 blank_memory_ok)) as (j & _ & Hj & _).
  destruct (jitter_get j 1024 0 true Hj) as (r & found & j' & R & Hj' & _).
  exists j, r, found, j'. split; [exact Hj|]. split; [exact R|exact Hj'].
Defined.

Lemma jitter_tick_witness : exists n',
  minDelay (Tick (blank_jitter <| minDelay := of_Z 6 |> <| minMinDelay := 4 |> <| maxMinDelay := 15 |>)) = of_Z n' /\ 4 <= n' <= 15.
Proof.
  destruct (jitter_tick (blank_jitter <| minDelay := of_Z 6 |> <| minMinDelay := 4 |> <| maxMinDelay := 15 |>) 6) as (n' & H1 & _ & H2 & _).
  - split; [discriminate|discriminate].
  - discriminate.
  - split; discriminate.
  - reflexivity.
  - exists n'. split; [exact H1|exact H2].
Defined.

(** A packet stored and played back. *)
Example jitter_demo :
  let j := snd (new_jitter default_config default_config blank_memory 60 blank_jitter) in
  let j := j <| minDelay := of_Z 0 |> in
  let j := snd (HandleInput [1; 2; 3] 600 false (of_Z 5) j) in
  fst (HandleOutput 1024 0 true j) = Value (3%nat, Some (InPacket [1; 2; 3] 600 false), 80).
Proof. vm_compute. reflexivity. Qed.
