(* ===== verification/VoipDefs.v ===== *)
(** * libtgvoip: protocol constants and sequence numbers

    [src/submodules/libtgvoip/PrivateDefines.h], and [pad4] of
    [VoIPController.cpp]. *)

From S2P Require Import Prelude.

Definition PKT_INIT : Z := 1.
Definition PKT_INIT_ACK : Z := 2.
Definition PKT_STREAM_STATE : Z := 3.
Definition PKT_STREAM_DATA : Z := 4.
Definition PKT_PING : Z := 6.
Definition PKT_PONG : Z := 7.
Definition PKT_STREAM_DATA_X2 : Z := 8.
Definition PKT_STREAM_DATA_X3 : Z := 9.
Definition PKT_LAN_ENDPOINT : Z := 10.
Definition PKT_NETWORK_CHANGED : Z := 11.
Definition PKT_NOP : Z := 14.
Definition PKT_STREAM_EC : Z := 17.

Definition PROTOCOL_NAME : Z := 0x50567247.
Definition PROTOCOL_VERSION : Z := 9.
Definition MIN_PROTOCOL_VERSION : Z := 3.

Definition STREAM_DATA_FLAG_LEN16 : Z := 0x40.
Definition STREAM_TYPE_AUDIO : Z := 1.
Definition STREAM_TYPE_VIDEO : Z := 2.

Definition FOURCC (a b c d : Z) : Z :=
  Z.lor (Z.lor (Z.lor d (Z.shiftl c 8)) (Z.shiftl b 16)) (Z.shiftl a 24).
Definition CODEC_OPUS_OLD : Z := 1.
Definition CODEC_OPUS : Z := FOURCC 79 80 85 83.

Definition PFLAG_HAS_DATA : Z := 1.
Definition PFLAG_HAS_EXTRA : Z := 2.
Definition PFLAG_HAS_CALL_ID : Z := 4.
Definition PFLAG_HAS_PROTO : Z := 8.
Definition PFLAG_HAS_SEQ : Z := 16.
Definition PFLAG_HAS_RECENT_RECV : Z := 32.
Definition XPFLAG_HAS_EXTRA : Z := 1.

Definition EXTRA_TYPE_STREAM_FLAGS : Z := 1.
Definition EXTRA_TYPE_STREAM_CSD : Z := 2.
Definition EXTRA_TYPE_LAN_ENDPOINT : Z := 3.
Definition EXTRA_TYPE_NETWORK_CHANGED : Z := 4.
Definition EXTRA_TYPE_GROUP_CALL_KEY : Z := 5.
Definition EXTRA_TYPE_REQUEST_GROUP : Z := 6.
Definition EXTRA_TYPE_IPV6_ENDPOINT : Z := 7.

Definition STREAM_FLAG_ENABLED : Z := 1.
Definition STREAM_FLAG_DTX : Z := 2.
Definition STREAM_FLAG_EXTRA_EC : Z := 4.

Definition INIT_FLAG_DATA_SAVING_ENABLED : Z := 1.
Definition INIT_FLAG_GROUP_CALLS_SUPPORTED : Z := 2.

Definition TLID_DECRYPTED_AUDIO_BLOCK : Z := 0xDBF948C1.
Definition TLID_SIMPLE_AUDIO_BLOCK : Z := 0xCC0D0E76.
Definition TLID_UDP_REFLECTOR_PEER_INFO : Z := 0x27D9371C.
Definition TLID_UDP_REFLECTOR_SELF_INFO : Z := 0xc01572c7.

Definition MAX_RECENT_PACKETS : nat := 64.
Definition SHA1_LENGTH : nat := 20.
Definition SHA256_LENGTH : nat := 32.
Definition SEQ_MAX : Z := 0xFFFFFFFF.

Definition PAD4 (x : Z) : Z := 4 - Z.rem (x + if decide (x <= 253) then 1 else 0) 4.
Definition pad4 (x : Z) : Z := let r := PAD4 x in if decide (r = 4) then 0 else r.

Definition seqgt (s1 s2 : Z) : bool :=
  (bool_decide (s2 < s1) && bool_decide (s1 - s2 <= SEQ_MAX / 2)) ||
  (bool_decide (s1 < s2) && bool_decide (SEQ_MAX / 2 < s2 - s1)).

(** [pad4] completes a string and its length byte to a multiple of four. *)
Lemma pad4_spec x : 0 <= x -> 0 <= pad4 x <= 3 /\ (x + (if decide (x <= 253) then 1 else 0) + pad4 x) mod 4 = 0.
Proof.
  intros Hx. unfold pad4, PAD4. set (y := x + if decide (x <= 253) then 1 else 0).
  assert (0 <= y) by (unfold y; case_decide; lia). rewrite Z.rem_mod_nonneg by lia. cbv zeta.
  case_decide; Z.div_mod_to_equations; lia.
Qed.

(** [seqgt] is comparison modulo [2^32]: [s1] is less than half a turn ahead, or
    exactly half a turn ahead and smaller as a number. *)
Lemma seqgt_spec s1 s2 : is_u32 s1 -> is_u32 s2 ->
  seqgt s1 s2 = true <->
  let d := (s1 - s2) mod 2 ^ 32 in 0 < d < 2 ^ 31 \/ (d = 2 ^ 31 /\ s1 < s2).
Proof.
  unfold is_u32, seqgt. intros H1 H2. change (SEQ_MAX / 2) with 2147483647. change (2 ^ 32) with 4294967296. change (2 ^ 31) with 2147483648.
  rewrite orb_true_iff, !andb_true_iff, !bool_decide_eq_true. cbv zeta. Z.div_mod_to_equations. lia.
Qed.
Lemma seqgt_irrefl s : seqgt s s = false.
Proof. unfold seqgt. rewrite !bool_decide_eq_false_2 by lia. done. Qed.
Lemma seqgt_asym s1 s2 : is_u32 s1 -> is_u32 s2 -> seqgt s1 s2 = true -> seqgt s2 s1 = false.
Proof.
  intros H1 H2 H. apply seqgt_spec in H; [|done|done]. destruct (seqgt s2 s1) eqn:E; [|done].
  apply seqgt_spec in E; [|done|done]. unfold is_u32 in *. change (2 ^ 32) with 4294967296 in *. change (2 ^ 31) with 2147483648 in *.
  cbv zeta in *. Z.div_mod_to_equations. lia.
Qed.
(** Of two different sequence numbers one is later. *)
Lemma seqgt_total s1 s2 : is_u32 s1 -> is_u32 s2 -> s1 <> s2 -> seqgt s1 s2 = negb (seqgt s2 s1).
Proof.
  intros H1 H2 Hne. destruct (seqgt s2 s1) eqn:E; cbn; [by apply seqgt_asym|].
  destruct (seqgt s1 s2) eqn:F; [done|]. exfalso. unfold seqgt, is_u32 in *. change (SEQ_MAX / 2) with 2147483647 in *.
  apply orb_false_iff in E as [E1 E2], F as [F1 F2]. apply andb_false_iff in E1, E2, F1, F2.
  rewrite !bool_decide_eq_false in *. lia.
Qed.
