(* ===== verification/Congestion.v ===== *)
(** * libtgvoip: congestion control

    [src/submodules/libtgvoip/CongestionControl.cpp] and [CongestionControl.h]:
    the packets in flight, their round-trip times and the bandwidth advice. Each
    reading of the clock is an argument; locking and logging are left out. *)

From S2P Require Import Prelude Exn Double VoipDefs.

Record cc_packet := CPacket { c_seq : Z; c_sendTime : double; c_size : Z }.
Record congestion := Congestion {
  rttHistory : list double; inflightPackets : list cc_packet; inflightHistory : list Z; cc_state : Z; lossCount : Z;
  tmpRtt : double; lastActionTime : double; lastActionRtt : double; stateTransitionTime : double; tmpRttCount : Z;
  rttHistorySize : Z; rttHistoryTop : Z; inflightHistoryTop : nat; cc_lastSentSeq : Z; cc_tickCount : Z;
  inflightDataSize : Z; cwnd : Z
}.
#[export] Instance congestion_eta : Eta congestion := fun c => Congestion
  (rttHistory c) (inflightPackets c) (inflightHistory c) (cc_state c) (lossCount c) (tmpRtt c) (lastActionTime c)
  (lastActionRtt c) (stateTransitionTime c) (tmpRttCount c) (rttHistorySize c) (rttHistoryTop c) (inflightHistoryTop c)
  (cc_lastSentSeq c) (cc_tickCount c) (inflightDataSize c) (cwnd c).

(** [tickCount] keeps what the memory held; [window] is the configured
    [audio_congestion_window]. *)
Definition new_congestion (window junk : Z) : congestion :=
  Congestion (replicate 100 d0) (replicate 100 (CPacket 0 d0 0)) (zeros 30) 0 0 d0 d0 d0 d0 0 0 0 0 0 junk 0 (u64 window).

(** [(rttHistoryTop - i - 1) % 100], computed in [unsigned int]. *)
Definition rtt_index (top i : Z) : Z := u32 (top - i - 1) mod 100.
Definition GetAverageRTT (c : congestion) : double :=
  if decide (rttHistorySize c = 0) then d0 else
  let n := Z.to_nat (Z.min 30 (rttHistorySize c)) in
  let avg := for_loop 0 n (fun avg i =>
    let x := rtt_index (rttHistoryTop c) (Z.of_nat i) in
    dadd avg (nth (Z.to_nat x) (rttHistory c) d0)) d0 in
  ddiv avg (of_Z (Z.of_nat n)).
Definition GetInflightDataSize (c : congestion) : Z := foldl (fun avg x => u64 (avg + x)) 0 (inflightHistory c) / 30.
Definition GetMinimumRTT (c : congestion) : double :=
  foldl (fun min x => if dltb d0 x && dltb x min then x else min) dinf (rttHistory c).

Definition find_packet (f : cc_packet -> bool) (l : list cc_packet) : option (nat * cc_packet) :=
  list_find (fun p => f p = true) l.
(** [inflightPackets[i].sendTime = 0; inflightDataSize -= inflightPackets[i].size;] *)
Definition drop_packet (i : nat) (p : cc_packet) (c : congestion) : congestion :=
  c <| inflightPackets := <[i := CPacket (c_seq p) d0 (c_size p)]> (inflightPackets c) |>
    <| inflightDataSize := u64 (inflightDataSize c - c_size p) |>.

Definition PacketAcknowledged (seq : Z) (time : double) (c : congestion) : congestion :=
  match find_packet (fun p => bool_decide (c_seq p = seq) && dltb d0 (c_sendTime p)) (inflightPackets c) with
  | Some (i, p) =>
      drop_packet i p (c <| tmpRtt := dadd (tmpRtt c) (dsub time (c_sendTime p)) |> <| tmpRttCount := tmpRttCount c + 1 |>)
  | None => c
  end.

(** The slot to use: the first free one, else the one sent first. *)
Definition slot_body (l : list cc_packet) (acc : option nat * double * bool) (i : nat) : option nat * double * bool :=
  let '(slot, smallest, found) := acc in
  if found then acc else
  match l !! i with
  | Some p =>
      if deqb (c_sendTime p) d0 then (Some i, smallest, true)
      else if dltb (c_sendTime p) smallest then (Some i, c_sendTime p, false) else acc
  | None => acc
  end.
Definition choose_slot (l : list cc_packet) : option nat := fst (fst (for_loop 0 100 (slot_body l) (None, dinf, false))).

(** A null slot is a failed assertion, or undefined when they are compiled out. *)
Definition PacketSent (seq size : Z) (time : double) : M congestion unit := fun c =>
  if negb (seqgt seq (cc_lastSentSeq c)) || bool_decide (seq = cc_lastSentSeq c) then (Value tt, c) else
  let c := c <| cc_lastSentSeq := seq |> in
  match choose_slot (inflightPackets c) with
  | None => (Aborted, c)
  | Some i =>
      match inflightPackets c !! i with
      | None => (Aborted, c)
      | Some slot =>
          let c := if dltb d0 (c_sendTime slot)
                   then c <| inflightDataSize := u64 (inflightDataSize c - c_size slot) |> <| lossCount := u32 (lossCount c + 1) |> else c in
          (Value tt, c <| inflightPackets := <[i := CPacket seq time size]> (inflightPackets c) |>
                       <| inflightDataSize := u64 (inflightDataSize c + size) |>)
      end
  end.

Definition tick_body (now : nat -> double) (c : congestion) (i : nat) : congestion :=
  match inflightPackets c !! i with
  | Some p =>
      if negb (deqb (c_sendTime p) d0) && dltb (of_Z 2) (dsub (now i) (c_sendTime p))
      then (drop_packet i p c) <| lossCount := u32 (lossCount c + 1) |> else c
  | None => c
  end.
(** The round-trip times of the last tick are averaged into the ring. *)
Definition tick_rtt (c : congestion) : congestion :=
  if decide (0 < tmpRttCount c) then
    let c := c <| rttHistory := <[Z.to_nat (rttHistoryTop c) := ddiv (tmpRtt c) (of_Z (tmpRttCount c))]> (rttHistory c) |>
               <| rttHistoryTop := (rttHistoryTop c + 1) mod 100 |> in
    let c := if decide (rttHistorySize c < 100) then c <| rttHistorySize := rttHistorySize c + 1 |> else c in
    c <| tmpRtt := d0 |> <| tmpRttCount := 0 |>
  else c.
(** Packets older than two seconds are lost. *)
Definition tick_flight (now : nat -> double) (c : congestion) : congestion := for_loop 0 100 (tick_body now) c.
Definition tick_history (c : congestion) : congestion :=
  c <| inflightHistory := <[inflightHistoryTop c := inflightDataSize c]> (inflightHistory c) |>
    <| inflightHistoryTop := Nat.modulo (inflightHistoryTop c + 1) 30 |>.
Definition CCTick (now : nat -> double) (c : congestion) : congestion :=
  tick_history (tick_flight now (tick_rtt (c <| cc_tickCount := u32 (cc_tickCount c + 1) |>))).

Inductive cc_action := ACT_NONE | ACT_INCREASE | ACT_DECREASE.
Definition GetBandwidthControlAction (time time2 : double) (c : congestion) : cc_action * congestion :=
  if dltb (dsub time (lastActionTime c)) (of_Z 1) then (ACT_NONE, c) else
  let inflightAvg := GetInflightDataSize c in
  let max := u64 (cwnd c + cwnd c / 10) in
  let min := u64 (cwnd c - cwnd c / 10) in
  if decide (inflightAvg < min) then (ACT_INCREASE, c <| lastActionTime := time2 |>)
  else if decide (max < inflightAvg) then (ACT_DECREASE, c <| lastActionTime := time2 |>)
  else (ACT_NONE, c).

(** ** The invariant

    [inflightDataSize] is the total size of the packets in flight, those with a
    send time; a time is never negative. *)

Definition in_flight (p : cc_packet) : bool := negb (deqb (c_sendTime p) d0).
Definition flight_size (l : list cc_packet) : Z := foldr (fun p n => (if in_flight p then c_size p else 0) + n) 0 l.
(** A reading of the clock: positive and finite. *)
Definition good_time (t : double) : Prop := dltb d0 t = true /\ dltb t dinf = true.
Definition packet_ok (p : cc_packet) : Prop := c_sendTime p = d0 \/ good_time (c_sendTime p).
Definition congestion_ok (c : congestion) : Prop :=
  length (inflightPackets c) = 100%nat /\ Forall packet_ok (inflightPackets c) /\
  inflightDataSize c = u64 (flight_size (inflightPackets c)).

Lemma good_time_not_zero t : good_time t -> deqb t d0 = false.
Proof.
  intros [H _]. destruct t as [s|s| |s m e]; try discriminate H; [destruct s|destruct s]; try discriminate H; reflexivity.
Qed.
Lemma packet_flight p : packet_ok p -> in_flight p = dltb d0 (c_sendTime p).
Proof.
  unfold in_flight. intros [->|H]; [reflexivity|]. rewrite good_time_not_zero by done. by destruct H as [-> _].
Qed.
Lemma flight_size_app l k : flight_size (l ++ k) = flight_size l + flight_size k.
Proof. induction l as [|p l IH]; [done|]. cbn [app flight_size foldr]. fold (flight_size (l ++ k)) (flight_size l). rewrite IH. lia. Qed.
Lemma flight_size_insert l i p q : l !! i = Some p ->
  flight_size (<[i := q]> l) = flight_size l - (if in_flight p then c_size p else 0) + (if in_flight q then c_size q else 0).
Proof.
  intros Hi. rewrite insert_take_drop by (by apply lookup_lt_is_Some; exists p).
  rewrite <- (take_drop_middle l i p Hi) at 3. rewrite !flight_size_app. cbn [flight_size foldr]. fold (flight_size (drop (S i) l)). lia.
Qed.

Lemma u64_sub_add a b : u64 (u64 a - b) = u64 (a - b).
Proof. rewrite !u64_mod. Z.div_mod_to_equations. lia. Qed.
Lemma u64_add_l a b : u64 (u64 a + b) = u64 (a + b).
Proof. rewrite !u64_mod. Z.div_mod_to_equations. lia. Qed.

(** Replacing slot [i] and accounting for the difference. *)
Lemma replace_ok c l i p q : congestion_ok c -> inflightPackets c = l -> l !! i = Some p -> packet_ok q ->
  forall c', inflightPackets c' = <[i := q]> l ->
  inflightDataSize c' = u64 (flight_size l - (if in_flight p then c_size p else 0) + (if in_flight q then c_size q else 0)) ->
  congestion_ok c'.
Proof.
  intros (C1 & C2 & _) <- Hi Hq c' E1 E2. unfold congestion_ok. rewrite E1, E2. split; [by rewrite length_insert|].
  split; [by apply Forall_insert|]. by rewrite (flight_size_insert _ _ _ _ Hi).
Qed.
Lemma drop_packet_ok c i p : congestion_ok c -> inflightPackets c !! i = Some p -> in_flight p = true -> congestion_ok (drop_packet i p c).
Proof.
  intros C Hi Hp. eapply (replace_ok c _ i p _ C eq_refl Hi); [|reflexivity|]; [by left|].
  destruct C as (_ & _ & C3). cbn [inflightDataSize drop_packet set]. rewrite C3, u64_sub_add, Hp. cbn. f_equal. lia.
Qed.
Lemma find_packet_Some f l i p : find_packet f l = Some (i, p) -> l !! i = Some p /\ f p = true.
Proof. intros H. apply list_find_Some in H as (H1 & H2 & _). by split. Qed.
Lemma congestion_ok_ext c c' : congestion_ok c -> inflightPackets c' = inflightPackets c -> inflightDataSize c' = inflightDataSize c -> congestion_ok c'.
Proof. intros C E1 E2. unfold congestion_ok. by rewrite E1, E2. Qed.

Lemma acknowledged_ok seq time c : congestion_ok c -> congestion_ok (PacketAcknowledged seq time c).
Proof.
  intros C. unfold PacketAcknowledged. destruct (find_packet _ _) as [[i p]|] eqn:E; [|exact C].
  apply find_packet_Some in E as [Hi Hf]. apply andb_true_iff in Hf as [_ Hf].
  assert (packet_ok p) as Hp by (destruct C as (_ & C2 & _); apply (Forall_lookup_1 _ _ _ _ C2 Hi)).
  apply drop_packet_ok; [by apply (congestion_ok_ext c)|exact Hi|by rewrite packet_flight].
Qed.

Lemma choose_slot_spec l : length l = 100%nat -> Forall packet_ok l ->
  exists i p, choose_slot l = Some i /\ l !! i = Some p /\ (in_flight p = true -> forall q, q ∈ l -> in_flight q = true).
Proof.
  intros Hl Hok. unfold choose_slot.
  assert (let '(slot, smallest, found) := for_loop 0 100 (slot_body l) (None, dinf, false) in
    (found = true -> exists i p, slot = Some i /\ l !! i = Some p /\ in_flight p = false) /\
    (found = false -> exists i p, slot = Some i /\ l !! i = Some p /\
       forall k q, (k < 0 + 100)%nat -> l !! k = Some q -> in_flight q = true)) as H.
  { assert (let '(slot, smallest, found) := for_loop 0 100 (slot_body l) (None, dinf, false) in
      (found = true -> exists i p, slot = Some i /\ l !! i = Some p /\ in_flight p = false) /\
      (found = false -> ((0 + 100 = 0)%nat /\ smallest = dinf \/ exists i p, slot = Some i /\ l !! i = Some p) /\
         forall k q, (k < 0 + 100)%nat -> l !! k = Some q -> in_flight q = true)) as H.
    { apply (for_loop_inv (fun n acc => let '(slot, smallest, found) := acc in
        (found = true -> exists i p, slot = Some i /\ l !! i = Some p /\ in_flight p = false) /\
        (found = false -> (n = 0%nat /\ smallest = dinf \/ exists i p, slot = Some i /\ l !! i = Some p) /\
           forall k q, (k < n)%nat -> l !! k = Some q -> in_flight q = true))).
      - split; [done|]. intros _. split; [by left|]. intros. lia.
      - intros i [[slot smallest] found] Hi [I1 I2]. unfold slot_body. destruct found; [by split|].
        destruct (I2 eq_refl) as [I3 I4]. destruct (lookup_lt_is_Some_2 l i) as [p Hp]; [lia|]. rewrite Hp.
        assert (packet_ok p) as Hpk by (apply (Forall_lookup_1 _ _ _ _ Hok Hp)).
        destruct (deqb (c_sendTime p) d0) eqn:Hz.
        + split; [|done]. intros _. exists i, p. split; [done|]. split; [exact Hp|]. unfold in_flight. by rewrite Hz.
        + assert (forall k q, (k < S i)%nat -> l !! k = Some q -> in_flight q = true) as Hall.
          { intros k q Hk Hq. destruct (decide (k = i)) as [->|]; [|by apply (I4 k); [lia|]].
            rewrite Hp in Hq. injection Hq as <-. unfold in_flight. by rewrite Hz. }
          destruct (dltb (c_sendTime p) smallest) eqn:Hlt; (split; [done|]); intros _; (split; [|exact Hall]); right.
          * by exists i, p.
          * destruct I3 as [[-> ->]|I3]; [|exact I3]. exfalso. destruct Hpk as [E|[_ E]].
            -- by rewrite E in Hz.
            -- by rewrite E in Hlt. }
    destruct (for_loop 0 100 (slot_body l) (None, dinf, false)) as [[slot smallest] found]. destruct H as [H1 H2].
    split; [exact H1|]. intros Hf. destruct (H2 Hf) as [[[H3 _]|(i & p & H3)] H4]; [discriminate H3|]. exists i, p. by destruct H3 as [-> ->]. }
  destruct (for_loop 0 100 (slot_body l) (None, dinf, false)) as [[slot smallest] found]. destruct H as [H1 H2]. cbn [fst].
  destruct found.
  - destruct (H1 eq_refl) as (i & p & -> & Hp & Hf). exists i, p. split; [done|]. split; [exact Hp|]. by rewrite Hf.
  - destruct (H2 eq_refl) as (i & p & -> & Hp & Hall). exists i, p. split; [done|]. split; [exact Hp|]. intros _ q Hq.
    apply list_elem_of_lookup in Hq as [k Hk]. apply (Hall k); [|done]. apply lookup_lt_Some in Hk. lia.
Qed.

Lemma good_time_flight s t n : good_time t -> in_flight (CPacket s t n) = true.
Proof. intros H. unfold in_flight. cbn. by rewrite good_time_not_zero. Qed.

(** Sending: a stale sequence number changes nothing; otherwise the packet is in
    flight, and one is given up for lost exactly when no slot was free. *)
Lemma sent_ok seq size time c : congestion_ok c -> good_time time ->
  exists c', PacketSent seq size time c = (Value tt, c') /\ congestion_ok c' /\
    (if negb (seqgt seq (cc_lastSentSeq c)) then c' = c else
     cc_lastSentSeq c' = seq /\ CPacket seq time size ∈ inflightPackets c' /\
     lossCount c' = if forallb in_flight (inflightPackets c) then u32 (lossCount c + 1) else lossCount c).
Proof.
  intros C Ht. unfold PacketSent. destruct (seqgt seq (cc_lastSentSeq c)) eqn:Hs; cbn [negb orb]; [|by exists c].
  rewrite bool_decide_eq_false_2 by (intros ->; by rewrite seqgt_irrefl in Hs). cbv zeta.
  cbn [inflightPackets set]. destruct C as (C1 & C2 & C3).
  destruct (choose_slot_spec (inflightPackets c) C1 C2) as (i & p & -> & Hp & Hall). rewrite Hp.
  assert (packet_ok p) as Hpk by (apply (Forall_lookup_1 _ _ _ _ C2 Hp)).
  rewrite <- (packet_flight p Hpk).
  assert (forallb in_flight (inflightPackets c) = in_flight p) as Hfa.
  { destruct (in_flight p) eqn:E.
    - apply forallb_forall. intros q Hq. apply Hall; [done|]. by apply list_elem_of_In.
    - apply not_true_iff_false. intros H. rewrite forallb_forall in H. specialize (H p). rewrite E in H.
      discriminate H. apply list_elem_of_In. by apply list_elem_of_lookup_2 in Hp. }
  eexists. split; [reflexivity|]. split; [|split; [|split]].
  - eapply (replace_ok c _ i p (CPacket seq time size)); [by split|reflexivity|exact Hp|by right|by destruct (in_flight p)|].
    rewrite good_time_flight by done. cbn [inflightDataSize set c_size].
    destruct (in_flight p); cbn [inflightDataSize set]; rewrite C3, ?u64_sub_add, u64_add_l; f_equal; lia.
  - by destruct (in_flight p).
  - destruct (in_flight p); cbn [inflightPackets set];
      (eapply list_elem_of_lookup_2; apply list_lookup_insert_eq, lookup_lt_is_Some; by exists p).
  - rewrite Hfa. by destruct (in_flight p).
Qed.

Lemma tick_rtt_ok c : congestion_ok c -> congestion_ok (tick_rtt c).
Proof. intros C. apply (congestion_ok_ext c _ C); unfold tick_rtt; case_decide; [by case_decide|done|by case_decide|done]. Qed.
Lemma tick_body_ok now c i : congestion_ok c -> congestion_ok (tick_body now c i).
Proof.
  intros C. unfold tick_body. destruct (inflightPackets c !! i) as [p|] eqn:Hp; [|exact C].
  destruct (negb (deqb (c_sendTime p) d0) && _) eqn:Hc; [|exact C]. apply andb_true_iff in Hc as [Hc _].
  pose proof (drop_packet_ok c i p C Hp Hc) as D. clear C. generalize dependent (drop_packet i p c). intros d D. exact D.
Qed.
Lemma tick_flight_ok now c : congestion_ok c -> congestion_ok (tick_flight now c).
Proof.
  intros C. unfold tick_flight. generalize 100%nat at 1. intros n. induction n as [|n IH]; [exact C|].
  rewrite for_loop_S. by apply tick_body_ok.
Qed.
Lemma tick_history_ok c : congestion_ok c -> congestion_ok (tick_history c).
Proof. intros C. by apply (congestion_ok_ext c). Qed.
Lemma tick_count_ok c n : congestion_ok c -> congestion_ok (c <| cc_tickCount := n |>).
Proof. intros C. by apply (congestion_ok_ext c). Qed.
Lemma tick_ok now c : congestion_ok c -> congestion_ok (CCTick now c).
Proof. intros C. exact (tick_history_ok _ (tick_flight_ok now _ (tick_rtt_ok _ (tick_count_ok _ _ C)))). Qed.

Inductive cc_op := OpSent (seq size : Z) (time : double) | OpAcknowledged (seq : Z) (time : double) | OpTick (now : nat -> double).
Definition run_op (op : cc_op) : M congestion unit :=
  match op with
  | OpSent seq size time => PacketSent seq size time
  | OpAcknowledged seq time => modify (PacketAcknowledged seq time)
  | OpTick now => modify (CCTick now)
  end.
Definition op_ok (op : cc_op) : Prop := match op with OpSent _ _ time => good_time time | _ => True end.

Lemma new_congestion_ok window junk : congestion_ok (new_congestion window junk).
Proof.
  split; [apply length_replicate|]. split; [apply Forall_replicate; by left|]. vm_compute. reflexivity.
Qed.

(** through any sequence of sent packets, acknowledgements and ticks the count of
    unacknowledged bytes is the total size of the packets in flight, a slot for
    the next packet is always found, and a packet that is sent is in flight
    afterwards and pushes out another, counted as lost, only when all hundred
    slots were in use. *)
Theorem congestion_accounting (window junk : Z) (ops : list cc_op) (Hops : Forall op_ok ops) :
  exists c, iterate_list run_op ops (new_congestion window junk) = (Value tt, c) /\
    length (inflightPackets c) = 100%nat /\ inflightDataSize c = u64 (flight_size (inflightPackets c)) /\
    forall seq size time, good_time time -> seqgt seq (cc_lastSentSeq c) = true ->
      exists c', PacketSent seq size time c = (Value tt, c') /\ CPacket seq time size ∈ inflightPackets c' /\
        lossCount c' = if forallb in_flight (inflightPackets c) then u32 (lossCount c + 1) else lossCount c.
Proof.
  assert (forall c, congestion_ok c -> exists c', iterate_list run_op ops c = (Value tt, c') /\ congestion_ok c') as H.
  { induction Hops as [|op ops Hop Hops IH]; intros c C; [by exists c|]. cbn [iterate_list]. unfold mbind, M_bind.
    destruct op as [seq size time|seq time|now]; cbn [run_op op_ok] in *.
    - destruct (sent_ok seq size time c C Hop) as (c' & -> & C' & _). by apply IH.
    - unfold modify. by apply IH, acknowledged_ok.
    - unfold modify. by apply IH, tick_ok. }
  destruct (H _ (new_congestion_ok window junk)) as (c & E & C). exists c. split; [exact E|].
  destruct C as (C1 & C2 & C3). split; [exact C1|]. split; [exact C3|]. intros seq size time Ht Hs.
  destruct (sent_ok seq size time c) as (c' & R & _ & R'); [by split|exact Ht|]. rewrite Hs in R'. cbn [negb] in R'.
  exists c'. split; [exact R|exact (proj2 R')].
Qed.

Lemma congestion_accounting_witness : exists c,
  iterate_list run_op [OpSent 1 100 (of_Z 5); OpSent 2 50 (of_Z 6); OpAcknowledged 1 (of_Z 7)] (new_congestion 1024 0) = (Value tt, c) /\
  inflightDataSize c = u64 (flight_size (inflightPackets c)).
Proof.
  destruct (congestion_accounting 1024 0 [OpSent 1 100 (of_Z 5); OpSent 2 50 (of_Z 6); OpAcknowledged 1 (of_Z 7)]) as (c & E & _ & H & _).
  - repeat (apply Forall_cons_2; [first [exact I | split; vm_compute; reflexivity]|]). constructor.
  - exists c. split; [exact E|exact H].
Defined.

(** The average is meant to be over the last entries of a ring of 100. The index
    is computed modulo [2^32] first, and [2^32] is 96 modulo 100: once the ring
    has wrapped, the entries before its start are taken four places too early. *)
Lemma rtt_index_wraps top i : 0 <= top < 100 -> 0 <= i < 30 ->
  rtt_index top i = if decide (i < top) then top - i - 1 else (top - i - 1) mod 100 - 4.
Proof.
  intros Ht Hi. unfold rtt_index. rewrite u32_mod. case_decide; Z.div_mod_to_equations; lia.
Qed.
