(* ===== verification/VoipCrypto.v ===== *)
(** * libtgvoip: packet encryption

    The key derivations and the three packet formats of
    [src/submodules/libtgvoip/VoIPController.cpp]: MTProto 1, MTProto 2 and the
    short form of MTProto 2, as [SendPacket] builds them and
    [ProcessIncomingPacket] opens them. The primitives are the table of function
    pointers [CryptoFunctions]; a stream that owns its buffer is the list of the
    bytes written to it. *)

From S2P Require Import Prelude Exn VoipBuffers VoipDefs.

(** [CryptoFunctions] without the random source, with what the code relies on. *)
Class CryptoFunctions := {
  sha1 : list Z -> list Z;
  sha256 : list Z -> list Z;
  aes_ige_encrypt : list Z -> list Z -> list Z -> list Z;
  aes_ige_decrypt : list Z -> list Z -> list Z -> list Z;
  length_sha1 m : length (sha1 m) = SHA1_LENGTH;
  length_sha256 m : length (sha256 m) = SHA256_LENGTH;
  length_ige_encrypt m key iv : length (aes_ige_encrypt m key iv) = length m;
  length_ige_decrypt m key iv : length (aes_ige_decrypt m key iv) = length m;
  ige_roundtrip m key iv : (length m mod 16 = 0)%nat -> aes_ige_decrypt (aes_ige_encrypt m key iv) key iv = m
}.
#[export] Hint Rewrite @length_sha1 @length_sha256 @length_ige_encrypt @length_ige_decrypt : len.

(** The part of the controller that encryption uses. *)
Record call_keys := CallKeys {
  encryptionKey : list Z; keyFingerprint : list Z; callID : list Z; isOutgoing : bool;
  useMTProto2 : bool; peerVersion : Z; connectionMaxLayer : Z
}.

Section crypto.
Context `{CryptoFunctions}.

Definition SetEncryptionKey (key : list Z) (outgoing : bool) (c : call_keys) : call_keys :=
  CallKeys key (slice (sha1 key) (SHA1_LENGTH - 8) 8) (slice (sha256 key) (SHA256_LENGTH - 16) 16) outgoing
    (useMTProto2 c) (peerVersion c) (connectionMaxLayer c).

(** The key and the initialisation vector. *)
Definition KDF (c : call_keys) (msgKey : list Z) (x : nat) : list Z * list Z :=
  let k := encryptionKey c in
  let sA := sha1 (msgKey ++ slice k x 32) in
  let sB := sha1 (slice k (32 + x) 16 ++ msgKey ++ slice k (48 + x) 16) in
  let sC := sha1 (slice k (64 + x) 32 ++ msgKey) in
  let sD := sha1 (msgKey ++ slice k (96 + x) 32) in
  (slice sA 0 8 ++ slice sB 8 12 ++ slice sC 4 12,
   slice sA 8 12 ++ slice sB 0 8 ++ slice sC 16 4 ++ slice sD 0 8).
Definition KDF2 (c : call_keys) (msgKey : list Z) (x : nat) : list Z * list Z :=
  let k := encryptionKey c in
  let sA := sha256 (msgKey ++ slice k x 36) in
  let sB := sha256 (slice k (40 + x) 36 ++ msgKey) in
  (slice sA 0 8 ++ slice sB 8 16 ++ slice sA 24 8,
   slice sB 0 8 ++ slice sA 8 16 ++ slice sB 24 8).

Definition shortFormat (c : call_keys) : bool :=
  bool_decide (8 <= peerVersion c) || (bool_decide (peerVersion c = 0) && bool_decide (92 <= connectionMaxLayer c)).

(** What [SendPacket] appends to the tag. [rand n] is [n] random bytes. *)
Definition seal_v2 (c : call_keys) (rand : nat -> list Z) (data : list Z) : list Z :=
  let short := shortFormat c in
  let inner := (if short then le_bytes 2 (Z.of_nat (length data)) else le_bytes 4 (Z.of_nat (length data))) ++ data in
  let sizeSize := if short then 0%nat else 4%nat in
  let padLen := (16 - length inner mod 16)%nat in
  let padLen := if decide (padLen < if short then 16 else 12)%nat then (padLen + 16)%nat else padLen in
  let inner := inner ++ rand padLen in
  let x := if isOutgoing c then 0%nat else 8%nat in
  let msgKeyLarge := sha256 (slice (encryptionKey c) (88 + x) 32 ++ drop sizeSize inner) in
  let msgKey := slice msgKeyLarge 8 16 in
  let '(key, iv) := KDF2 c msgKey x in
  (if short then [] else keyFingerprint c) ++ msgKey ++ aes_ige_encrypt inner key iv.
Definition seal_v1 (c : call_keys) (rand : nat -> list Z) (data : list Z) : list Z :=
  let inner := le_bytes 4 (Z.of_nat (length data)) ++ data in
  let inner := if decide (length inner mod 16 <> 0)%nat then inner ++ rand (16 - length inner mod 16)%nat else inner in
  let msgHash := sha1 (take (length data + 4) inner) in
  let '(key, iv) := KDF c (slice msgHash (SHA1_LENGTH - 16) 16) (if isOutgoing c then 0%nat else 8%nat) in
  keyFingerprint c ++ slice msgHash (SHA1_LENGTH - 16) 16 ++ aes_ige_encrypt inner key iv.
Definition seal (c : call_keys) (rand : nat -> list Z) (tag data : list Z) : list Z :=
  tag ++ (if decide (0 < length data)%nat
          then if useMTProto2 c then seal_v2 c rand data else seal_v1 c rand data else []).

(** What becomes of a received packet: it is dropped, or the buffer after
    decryption and the stream that reads it; [upgrade] is set when the packet was
    opened as MTProto 2 although that was not enabled. *)
Inductive opened := Dropped | Opened (buffer : list Z) (stream : in_stream) (upgrade : bool).

(** The MTProto 1 attempt: [inl retry] when it failed. The stream is positioned
    after the tag. *)
Definition open_v1 (c : call_keys) (waiting : bool) (buffer : list Z) : M in_stream (bool + list Z * in_stream) :=
  fingerprint ← ReadBytes 8;
  msgHash ← ReadBytes 16;
  if decide (fingerprint <> keyFingerprint c) then mret (inl false) else
  let '(key, iv) := KDF c msgHash (if isOutgoing c then 8%nat else 0%nat) in
  offset ← GetOffset;
  remaining ← Remaining;
  let aesOut := aes_ige_decrypt (slice buffer offset remaining) key iv in
  '(len, remaining1) ← act (fun s =>
    match (ReadInt32 (new_input aesOut)) with
    | (Value len, s1) => (Value (u32 len, (length (i_buffer s1) - i_offset s1)%nat), s)
    | (Thrown, _) => (Thrown, s)
    | (Aborted, _) => (Aborted, s)
    end);
  let len := if decide (Z.of_nat remaining1 < len) then Z.of_nat remaining1 else len in
  let sha := sha1 (take (Z.to_nat len + 4) aesOut) in
  if decide (msgHash <> slice sha (SHA1_LENGTH - 16) 16) then mret (inl waiting) else
  let buffer := store buffer offset aesOut in
  act (fun s => (Value tt, InStream (take (length (i_buffer s)) buffer) (i_offset s))) ;;
  ReadInt32 ;;
  act (fun s => (Value (inr (buffer, s)), s)).

Definition open_v2 (c : call_keys) (buffer : list Z) (upgrade : bool) : M in_stream opened :=
  Seek 16 ;;
  let short := shortFormat c in
  fingerprint ← (if short then mret (keyFingerprint c) else ReadBytes 8);
  if decide (fingerprint <> keyFingerprint c) then mret Dropped else
  msgKey ← ReadBytes 16;
  let x := if isOutgoing c then 8%nat else 0%nat in
  let '(aesKey, aesIv) := KDF2 c msgKey x in
  decryptedLen ← Remaining;
  if decide (1500 < decryptedLen)%nat then mret Dropped else
  offset ← GetOffset;
  let decrypted := aes_ige_decrypt (slice buffer offset decryptedLen) aesKey aesIv in
  let sizeSize := if short then 0%nat else 4%nat in
  let msgKeyLarge := sha256 (slice (encryptionKey c) (88 + x) 32 ++ drop sizeSize decrypted) in
  if decide (msgKey <> slice msgKeyLarge 8 16) then mret Dropped else
  act (fun _ => (Value tt, new_input decrypted)) ;;
  innerLen ← (if short then ReadInt16 else ReadInt32);
  let innerLen := u32 innerLen in
  if decide (Z.of_nat (decryptedLen - sizeSize) < innerLen) then mret Dropped else
  let innerLen := Z.to_nat innerLen in
  if decide (decryptedLen - innerLen < if short then 16 else 12)%nat then mret Dropped else
  let inner := slice decrypted (if short then 2 else 4) innerLen in
  mret (Opened (store buffer 0 inner) (new_input inner) upgrade).

(** The decryption stage of [ProcessIncomingPacket], for a packet whose tag has
    been checked. [waiting]: the state is [STATE_WAIT_INIT] or [STATE_WAIT_INIT_ACK]. *)
Definition open_packet (c : call_keys) (waiting : bool) (buffer : list Z) : M in_stream opened :=
  Seek 16 ;;
  remaining ← Remaining;
  if decide (remaining < 40)%nat then mret Dropped else
  if useMTProto2 c then open_v2 c buffer false else
  r ← open_v1 c waiting buffer;
  match r with
  | inr (buffer, s) => mret (Opened buffer s false)
  | inl true => open_v2 c buffer true
  | inl false => mret Dropped
  end.

End crypto.

(** ** Opening what the peer sealed *)

From Stdlib Require Import ZifyNat.

Definition rand_ok (rand : nat -> list Z) : Prop := forall n, length (rand n) = n.
Definition keys_ok (c : call_keys) : Prop := length (encryptionKey c) = 256%nat /\ length (keyFingerprint c) = 8%nat.
(** The two ends of a call: the same key, opposite directions, the same format. *)
Definition peers (a b : call_keys) : Prop :=
  keys_ok a /\ encryptionKey b = encryptionKey a /\ keyFingerprint b = keyFingerprint a /\
  isOutgoing b = negb (isOutgoing a) /\ useMTProto2 b = useMTProto2 a /\ shortFormat b = shortFormat a.

Lemma KDF2_key `{CryptoFunctions} a b m x : encryptionKey b = encryptionKey a -> KDF2 b m x = KDF2 a m x.
Proof. intros E. unfold KDF2. by rewrite E. Qed.
Lemma KDF_key `{CryptoFunctions} a b m x : encryptionKey b = encryptionKey a -> KDF b m x = KDF a m x.
Proof. intros E. unfold KDF. by rewrite E. Qed.

Lemma rest_seek b o : rest (InStream b o) = drop o b.
Proof. done. Qed.

(** The plaintext of MTProto 2 before encryption. *)
Definition inner_v2 (short : bool) (rand : nat -> list Z) (data : list Z) : list Z :=
  let inner := (if short then le_bytes 2 (Z.of_nat (length data)) else le_bytes 4 (Z.of_nat (length data))) ++ data in
  let padLen := (16 - length inner mod 16)%nat in
  let padLen := if decide (padLen < if short then 16 else 12)%nat then (padLen + 16)%nat else padLen in
  inner ++ rand padLen.
Lemma inner_v2_length short rand data : rand_ok rand ->
  let n := length (inner_v2 short rand data) in
  (n mod 16 = 0)%nat /\ (length data + (if short then 2 + 16 else 4 + 12) <= n <= length data + 36)%nat.
Proof.
  intros Hr. unfold inner_v2. cbv zeta. rewrite !length_app, Hr.
  destruct short; rewrite length_le_bytes; case_decide; split; lia.
Qed.

Lemma inner_v2_split short rand data : rand_ok rand ->
  exists pad, inner_v2 short rand data =
    (if short then le_bytes 2 (Z.of_nat (length data)) else le_bytes 4 (Z.of_nat (length data))) ++ data ++ pad /\
    (length pad >= if short then 16 else 12)%nat.
Proof.
  intros Hr. unfold inner_v2. cbv zeta. eexists. split; [by rewrite <- app_assoc|]. rewrite Hr.
  destruct short; case_decide; lia.
Qed.

Lemma open_seal_v2 `{CryptoFunctions} a b rand tag data stale upgrade : peers a b -> rand_ok rand -> length tag = 16%nat ->
  (0 < length data <= 1400)%nat ->
  let pkt := tag ++ seal_v2 a rand data in
  exists t, open_v2 b (pkt ++ stale) upgrade (new_input pkt) = (Value (Opened (store (pkt ++ stale) 0 data) (new_input data) upgrade), t).
Proof.
  intros (Ka & Ek & Ef & Eo & _ & Es) Hr Ht Hd. cbv zeta.
  pose proof (inner_v2_length (shortFormat a) rand data Hr) as [Hn1 Hn2]. cbv zeta in Hn1, Hn2.
  destruct Ka as [_ Kf].
  set (inner := inner_v2 (shortFormat a) rand data) in *.
  set (x := if isOutgoing a then 0%nat else 8%nat).
  set (sizeSize := if shortFormat a then 0%nat else 4%nat).
  set (large := sha256 (slice (encryptionKey a) (88 + x) 32 ++ drop sizeSize inner)).
  set (msgKey := slice large 8 16). assert (length msgKey = 16%nat) as Hmk by (apply length_slice; unfold large; rewrite length_sha256; unfold SHA256_LENGTH; lia).
  assert (exists key iv, KDF2 a msgKey x = (key, iv)) as (key & iv & EK) by (destruct (KDF2 a msgKey x) as [key iv]; by exists key, iv).
  set (cipher := aes_ige_encrypt inner key iv). assert (length cipher = length inner) as Hc by (unfold cipher; len).
  set (fp := if shortFormat a then [] else keyFingerprint a).
  assert (seal_v2 a rand data = fp ++ msgKey ++ cipher) as Eseal.
  { unfold seal_v2. fold (inner_v2 (shortFormat a) rand data). fold inner sizeSize x large msgKey. by rewrite EK. }
  rewrite Eseal. set (pkt := tag ++ fp ++ msgKey ++ cipher).
  assert (length fp = if shortFormat a then 0%nat else 8%nat) as Hfp by (unfold fp; by destruct (shortFormat a)).
  assert (length pkt = 16 + length fp + 16 + length inner)%nat as Hpkt by (unfold pkt; rewrite !length_app; lia).
  unfold open_v2. rewrite Es.
  erewrite run_bind by (apply Seek_ok; cbn [i_buffer new_input]; lia). cbn [i_buffer new_input].
  set (s1 := InStream pkt 16). assert (rest s1 = fp ++ msgKey ++ cipher) as R1
    by (unfold s1; rewrite rest_seek; unfold pkt; rewrite <- Ht; apply drop_app_length).
  set (s2 := advance (length fp) s1).
  assert (rest s2 = msgKey ++ cipher) as R2 by (by apply (rest_advance_app _ _ fp)).
  erewrite (run_bind _ _ s1 (keyFingerprint b) s2).
  2:{ unfold s2. destruct (shortFormat a); [unfold advance; rewrite Hfp; reflexivity|].
      rewrite Hfp. rewrite (ReadBytes_ok s1 fp _ 8 R1 Hfp). unfold fp. by rewrite Ef. }
  rewrite decide_False by (intros N; by apply N). erewrite run_bind by (apply (ReadBytes_ok s2 msgKey cipher 16 R2 Hmk)).
  assert ((if isOutgoing b then 8%nat else 0%nat) = x) as Ex by (rewrite Eo; unfold x; by destruct (isOutgoing a)).
  rewrite Ex, (KDF2_key a b msgKey x Ek), EK.
  set (s3 := advance 16 s2). assert (rest s3 = cipher) as R3 by (apply (rest_advance_app _ _ msgKey); [by rewrite R2|exact Hmk]).
  assert (i_buffer s3 = pkt /\ i_offset s3 = (16 + length fp + 16)%nat) as [B3 O3] by done.
  erewrite run_bind by (unfold Remaining; reflexivity). rewrite B3, O3.
  replace (length pkt - (16 + length fp + 16))%nat with (length inner) by lia.
  rewrite decide_False by lia. erewrite run_bind by (unfold GetOffset; reflexivity). rewrite O3.
  assert (slice (pkt ++ stale) (16 + length fp + 16) (length inner) = cipher) as Ecut.
  { unfold pkt. rewrite <- !app_assoc. slices. }
  assert (aes_ige_decrypt (slice (pkt ++ stale) (16 + length fp + 16) (length inner)) key iv = inner) as Edec
    by (rewrite Ecut; by apply ige_roundtrip).
  rewrite Edec. fold sizeSize. rewrite Ek.
  fold large. fold msgKey. rewrite decide_False by (intros N; by apply N).
  erewrite (run_bind _ _ _ tt (new_input inner)) by reflexivity.
  destruct (inner_v2_split (shortFormat a) rand data Hr) as (pad & Ein & Hpad). fold inner in Ein.
  set (head := if shortFormat a then le_bytes 2 (Z.of_nat (length data)) else le_bytes 4 (Z.of_nat (length data))) in *.
  assert (length head = if shortFormat a then 2%nat else 4%nat) as Hhead by (unfold head; by destruct (shortFormat a)).
  assert (length inner = length head + length data + length pad)%nat as Hin by (rewrite Ein, !length_app; lia).
  erewrite (run_bind _ _ _ (Z.of_nat (length data)) (advance (length head) (new_input inner))).
  2:{ unfold head in *. destruct (shortFormat a).
      - rewrite (ReadInt16_ok _ (Z.of_nat (length data)) (data ++ pad)) by exact Ein. rewrite i16_id by lia. by rewrite length_le_bytes.
      - rewrite (ReadInt32_ok _ (Z.of_nat (length data)) (data ++ pad)) by exact Ein. rewrite i32_id by lia. by rewrite length_le_bytes. }
  rewrite u32_id by lia. rewrite decide_False by (unfold sizeSize; destruct (shortFormat a); lia).
  rewrite Nat2Z.id, decide_False by (destruct (shortFormat a); lia).
  assert (slice inner (if shortFormat a then 2 else 4) (length data) = data) as Edata.
  { rewrite Ein, <- Hhead. slices. }
  rewrite Edata. eexists. reflexivity.
Qed.

(** The plaintext of MTProto 1 before encryption. *)
Definition inner_v1 (rand : nat -> list Z) (data : list Z) : list Z :=
  let inner := le_bytes 4 (Z.of_nat (length data)) ++ data in
  if decide (length inner mod 16 <> 0)%nat then inner ++ rand (16 - length inner mod 16)%nat else inner.
Lemma inner_v1_split rand data : rand_ok rand ->
  exists pad, inner_v1 rand data = le_bytes 4 (Z.of_nat (length data)) ++ data ++ pad /\ (length pad < 16)%nat /\
    (length (inner_v1 rand data) mod 16 = 0)%nat.
Proof.
  intros Hr. unfold inner_v1. cbv zeta. rewrite length_app, length_le_bytes. case_decide as Hd.
  - eexists. split; [by rewrite <- app_assoc|]. rewrite !length_app, length_le_bytes, !Hr. split; lia.
  - exists []. rewrite app_nil_r, length_app, length_le_bytes. cbn [length]. split; [done|]. split; lia.
Qed.

(** After MTProto 1 the stream still holds the padding. *)
Lemma open_seal_v1 `{CryptoFunctions} a b rand tag data stale waiting : peers a b -> rand_ok rand -> length tag = 16%nat ->
  (0 < length data <= 1400)%nat ->
  let pkt := tag ++ seal_v1 a rand data in
  exists t buffer s pad, open_v1 b waiting (pkt ++ stale) (InStream pkt 16) = (Value (inr (buffer, s)), t) /\
    rest s = data ++ pad /\ (length pad < 16)%nat /\ i_buffer s = take (length pkt) buffer.
Proof.
  intros (Ka & Ek & Ef & Eo & _ & _) Hr Ht Hd. cbv zeta. destruct Ka as [_ Kf].
  destruct (inner_v1_split rand data Hr) as (pad & Ein & Hpad & Hmod).
  set (inner := inner_v1 rand data) in *.
  set (x := if isOutgoing a then 0%nat else 8%nat).
  set (msgHash := slice (sha1 (take (length data + 4) inner)) (SHA1_LENGTH - 16) 16).
  assert (length msgHash = 16%nat) as Hmh by (apply length_slice; rewrite length_sha1; unfold SHA1_LENGTH; lia).
  assert (exists key iv, KDF a msgHash x = (key, iv)) as (key & iv & EK) by (destruct (KDF a msgHash x) as [key iv]; by exists key, iv).
  set (cipher := aes_ige_encrypt inner key iv). assert (length cipher = length inner) as Hc by (unfold cipher; len).
  set (fp := keyFingerprint a) in *.
  assert (seal_v1 a rand data = fp ++ msgHash ++ cipher) as Eseal.
  { unfold seal_v1. fold (inner_v1 rand data). fold inner x msgHash. by rewrite EK. }
  rewrite Eseal. set (pkt := tag ++ fp ++ msgHash ++ cipher).
  assert (length inner = 4 + length data + length pad)%nat as Hin by (rewrite Ein, !length_app, length_le_bytes; lia).
  assert (length pkt = 40 + length inner)%nat as Hpkt by (unfold pkt; rewrite !length_app; lia).
  unfold open_v1. set (s1 := InStream pkt 16).
  assert (rest s1 = fp ++ msgHash ++ cipher) as R1 by (unfold s1; rewrite rest_seek; unfold pkt; rewrite <- Ht; apply drop_app_length).
  erewrite run_bind by (apply (ReadBytes_ok s1 fp _ 8 R1 Kf)).
  set (s2 := advance 8 s1). assert (rest s2 = msgHash ++ cipher) as R2 by (by apply (rest_advance_app _ _ fp)).
  erewrite run_bind by (apply (ReadBytes_ok s2 msgHash _ 16 R2 Hmh)).
  rewrite decide_False by (intros N; by rewrite Ef in N).
  assert ((if isOutgoing b then 8%nat else 0%nat) = x) as Ex by (rewrite Eo; unfold x; by destruct (isOutgoing a)).
  rewrite Ex, (KDF_key a b msgHash x Ek), EK.
  set (s3 := advance 16 s2). assert (i_buffer s3 = pkt /\ i_offset s3 = 40%nat) as [B3 O3] by done.
  erewrite run_bind by (unfold GetOffset; reflexivity). erewrite run_bind by (unfold Remaining; reflexivity). rewrite B3, O3.
  replace (length pkt - 40)%nat with (length inner) by lia.
  assert (aes_ige_decrypt (slice (pkt ++ stale) 40 (length inner)) key iv = inner) as Edec.
  { assert (slice (pkt ++ stale) 40 (length inner) = cipher) as -> by (unfold pkt; rewrite <- !app_assoc; slices). by apply ige_roundtrip. }
  rewrite Edec.
  erewrite (run_bind _ _ s3 (Z.of_nat (length data), (length inner - 4)%nat) s3).
  2:{ rewrite (ReadInt32_ok (new_input inner) (Z.of_nat (length data)) (data ++ pad)) by exact Ein.
      rewrite i32_id by lia. rewrite u32_id by lia. reflexivity. }
  rewrite (decide_False (P := Z.of_nat (length inner - 4) < Z.of_nat (length data))) by lia.
  rewrite Nat2Z.id. fold msgHash. rewrite decide_False by (intros N; by apply N).
  set (buffer := store (pkt ++ stale) 40 inner).
  assert (take (length pkt) buffer = take 40 pkt ++ inner) as Ebuf.
  { unfold buffer. rewrite (take_store _ 40) by (rewrite ?length_app; lia). f_equal. rewrite take_app_le by lia. done. }
  assert (length (take 40 pkt) = 40%nat) as H40 by (rewrite length_take; lia).
  set (s4 := InStream (take (length pkt) buffer) 40).
  erewrite (run_bind _ _ s3 tt s4) by (rewrite B3, O3; reflexivity).
  assert (rest s4 = le_bytes 4 (Z.of_nat (length data)) ++ data ++ pad) as R4.
  { unfold s4. rewrite rest_seek, Ebuf, drop_app_length' by (symmetry; exact H40). exact Ein. }
  erewrite run_bind by (apply (ReadInt32_ok s4 _ _ R4)).
  eexists _, buffer, (advance 4 s4), pad. split; [reflexivity|]. split; [by apply (rest_advance_app _ _ (le_bytes 4 (Z.of_nat (length data))))|].
  split; [exact Hpad|reflexivity].
Qed.

Lemma seal_v2_length `{CryptoFunctions} a rand data : keys_ok a -> rand_ok rand -> (0 < length data)%nat ->
  (length (seal_v2 a rand data) >= 40)%nat /\ (length (seal_v2 a rand data) >= length data)%nat.
Proof.
  intros [_ Kf] Hr Hd. pose proof (inner_v2_length (shortFormat a) rand data Hr) as [Hn1 Hn2]. unfold seal_v2. fold (inner_v2 (shortFormat a) rand data).
  destruct (KDF2 a _ _) as [key iv]. rewrite !length_app, length_ige_encrypt, length_slice by (rewrite length_sha256; unfold SHA256_LENGTH; lia).
  destruct (shortFormat a); cbn [length]; lia.
Qed.
Lemma seal_v1_length `{CryptoFunctions} a rand data : keys_ok a -> rand_ok rand -> (0 < length data)%nat -> (length (seal_v1 a rand data) >= 40)%nat.
Proof.
  intros [_ Kf] Hr Hd. destruct (inner_v1_split rand data Hr) as (pad & Ein & _ & Hmod). unfold seal_v1. fold (inner_v1 rand data).
  assert (length (inner_v1 rand data) >= 4 + length data)%nat as Hl by (rewrite Ein, !length_app, length_le_bytes; lia).
  destruct (KDF a _ _) as [key iv]. rewrite !length_app, length_ige_encrypt, length_slice by (rewrite length_sha1; unfold SHA1_LENGTH; lia). lia.
Qed.
(** The stream of an opened packet reads the buffer it came in. *)
Lemma open_seal_ok `{CryptoFunctions} (a b : call_keys) (rand : nat -> list Z) (tag data stale : list Z) (waiting : bool)
  (Hab : peers a b) (Hr : rand_ok rand) (Htag : length tag = 16%nat) (Hd : (0 < length data <= 1400)%nat) :
  let pkt := seal a rand tag data in
  exists t buffer s, open_packet b waiting (pkt ++ stale) (new_input pkt) = (Value (Opened buffer s false), t) /\ (exists n, (n <= length pkt)%nat /\ i_buffer s = take n buffer) /\
    if useMTProto2 a then s = new_input data /\ buffer = store (pkt ++ stale) 0 data
    else exists pad, rest s = data ++ pad /\ (length pad < 16)%nat.
Proof.
  cbv zeta. unfold seal. rewrite decide_True by lia. pose proof Hab as (Ka & _ & _ & _ & Eu & _). pose proof Ka as [_ Kf].
  unfold open_packet. rewrite Eu. destruct (useMTProto2 a) eqn:Ev.
  - destruct (open_seal_v2 a b rand tag data stale false Hab Hr Htag Hd) as (t & E).
    destruct (seal_v2_length a rand data Ka Hr) as [Hlen Hlen']; [lia|].
    set (pkt := tag ++ seal_v2 a rand data) in *. assert (length pkt >= 56)%nat as Hp by (unfold pkt; rewrite length_app; lia).
    erewrite run_bind by (apply Seek_ok; cbn [i_buffer new_input]; lia).
    erewrite run_bind by (unfold Remaining; reflexivity). cbn [i_buffer i_offset new_input]. rewrite decide_False by lia.
    exists t, (store (pkt ++ stale) 0 data), (new_input data).
    split; [|split; [exists (length data); split; [unfold pkt; rewrite length_app; lia|symmetry; by apply (take_app_length data)]|done]]. rewrite <- E. unfold open_v2.
    erewrite run_bind by (apply Seek_ok; cbn [i_buffer]; lia). symmetry.
    erewrite run_bind by (apply Seek_ok; cbn [i_buffer new_input]; lia). reflexivity.
  - destruct (open_seal_v1 a b rand tag data stale waiting Hab Hr Htag Hd) as (t & buffer & s & pad & E & Hs & Hpad & Hbuf).
    pose proof (seal_v1_length a rand data Ka Hr ltac:(lia)) as Hlen.
    set (pkt := tag ++ seal_v1 a rand data) in *. assert (length pkt >= 56)%nat as Hp by (unfold pkt; rewrite length_app; lia).
    erewrite run_bind by (apply Seek_ok; cbn [i_buffer new_input]; lia).
    erewrite run_bind by (unfold Remaining; reflexivity). cbn [i_buffer i_offset new_input]. rewrite decide_False by lia.
    erewrite run_bind by exact E. exists t, buffer, s. split; [reflexivity|]. split; [|by exists pad]. exists (length pkt). split; [lia|exact Hbuf].
Qed.

(** C25: a packet sealed at one end of a call is opened at the other, in every format:
    MTProto 2 in the long and the short form yields exactly the data, MTProto 1 the
    data followed by less than a block of padding. *)
Theorem open_seal `{CryptoFunctions} (a b : call_keys) (rand : nat -> list Z) (tag data stale : list Z) (waiting : bool)
  (Hab : peers a b) (Hr : rand_ok rand) (Htag : length tag = 16%nat) (Hd : (0 < length data <= 1400)%nat) :
  let pkt := seal a rand tag data in
  exists t buffer s, open_packet b waiting (pkt ++ stale) (new_input pkt) = (Value (Opened buffer s false), t) /\
    if useMTProto2 a then s = new_input data /\ buffer = store (pkt ++ stale) 0 data
    else exists pad, rest s = data ++ pad /\ (length pad < 16)%nat.
Proof.
  cbv zeta. destruct (open_seal_ok a b rand tag data stale waiting Hab Hr Htag Hd) as (t & buffer & s & E & _ & R). by exists t, buffer, s.
Qed.

(** ** A concrete table of primitives *)

Definition pad_to (n : nat) (m : list Z) : list Z := take n (m ++ zeros n).
Lemma length_pad_to n m : length (pad_to n m) = n.
Proof. unfold pad_to. rewrite length_take, length_app, length_zeros. lia. Qed.
Definition flip_bytes (m : list Z) : list Z := map (fun b => Z.lxor b 0x5a) m.
Lemma flip_bytes_involutive m : flip_bytes (flip_bytes m) = m.
Proof.
  unfold flip_bytes. rewrite map_map. rewrite <- (map_id m) at 2. apply map_ext. intros b.
  by rewrite Z.lxor_assoc, Z.lxor_nilpotent, Z.lxor_0_r.
Qed.
Definition toy_crypto : CryptoFunctions := {|
  sha1 := pad_to SHA1_LENGTH; sha256 := pad_to SHA256_LENGTH;
  aes_ige_encrypt m _ _ := flip_bytes m; aes_ige_decrypt m _ _ := flip_bytes m;
  length_sha1 := length_pad_to _; length_sha256 := length_pad_to _;
  length_ige_encrypt m _ _ := length_map _ m; length_ige_decrypt m _ _ := length_map _ m;
  ige_roundtrip m _ _ _ := flip_bytes_involutive m |}.
Definition toy_keys (outgoing v2 : bool) (version : Z) : call_keys :=
  CallKeys (map Z.of_nat (seq 0 256)) (repeat 7 8) (repeat 9 16) outgoing v2 version 92.

Lemma open_seal_witness :
  let pkt := @seal toy_crypto (toy_keys true true 9) zeros (repeat 3 16) [1; 2; 3; 4; 5] in
  (exists t, @open_packet toy_crypto (toy_keys false true 9) false (pkt ++ []) (new_input pkt) =
     (Value (Opened (store (pkt ++ []) 0 [1; 2; 3; 4; 5]) (new_input [1; 2; 3; 4; 5]) false), t)).
Proof.
  intros pkt. destruct (@open_seal toy_crypto (toy_keys true true 9) (toy_keys false true 9) zeros (repeat 3 16) [1; 2; 3; 4; 5] [] false)
    as (t & buffer & s & E & R).
  - repeat split.
  - intros n. apply length_zeros.
  - reflexivity.
  - cbn [length]. lia.
  - cbn [useMTProto2 toy_keys] in R. destruct R as [-> ->]. exists t. exact E.
Defined.

(** ** What an opened packet proves *)

Lemma ReadInt32_value s : (4 <= length (rest s))%nat -> exists v, ReadInt32 s = (Value v, advance 4 s).
Proof.
  intros H. unfold ReadInt32, mbind, M_bind, EnsureEnoughRemaining. unfold rest in H. rewrite length_drop in H.
  rewrite decide_False by lia. cbn. by eexists.
Qed.
Lemma ReadInt16_value s : (2 <= length (rest s))%nat -> exists v, ReadInt16 s = (Value v, advance 2 s).
Proof.
  intros H. unfold ReadInt16, mbind, M_bind, EnsureEnoughRemaining. unfold rest in H. rewrite length_drop in H.
  rewrite decide_False by lia. cbn. by eexists.
Qed.
Lemma ReadBytes_value s n : (n <= length (rest s))%nat ->
  ReadBytes n s = (Value (slice (i_buffer s) (i_offset s) n), advance n s).
Proof.
  intros H. unfold ReadBytes, mbind, M_bind, EnsureEnoughRemaining. unfold rest in H. rewrite length_drop in H.
  rewrite decide_False by lia. done.
Qed.
Lemma slice_prefix (buffer : list Z) n off len : (off + len <= n)%nat -> slice buffer off len = slice (take n buffer) off len.
Proof. intros H. unfold slice. rewrite skipn_firstn_comm, take_take. f_equal. lia. Qed.

Section opened.
Context `{CryptoFunctions}.

(** [pkt] carries [plain] in MTProto 2: its message key is the hash of the plain
    text under the key of the other direction, and [data] is a part of it. *)
Definition carries_v2 (c : call_keys) (pkt data : list Z) : Prop :=
  let short := shortFormat c in
  let hdr := if short then 16%nat else 24%nat in
  let x := if isOutgoing c then 8%nat else 0%nat in
  let msgKey := slice pkt hdr 16 in
  let plain := aes_ige_decrypt (drop (hdr + 16) pkt) (KDF2 c msgKey x).1 (KDF2 c msgKey x).2 in
  (short = false -> slice pkt 16 8 = keyFingerprint c) /\
  msgKey = slice (sha256 (slice (encryptionKey c) (88 + x) 32 ++ drop (if short then 0 else 4)%nat plain)) 8 16 /\
  exists v, ((if short then ReadInt16 else ReadInt32) (new_input plain)).1 = Value v /\
    (Z.of_nat (length data) = u32 v /\ data = slice plain (if short then 2 else 4)%nat (length data)) /\
    (length data + (if short then 16 else 12) <= length plain <= 1500)%nat.
Definition carries_v1 (c : call_keys) (pkt data : list Z) : Prop :=
  let msgHash := slice pkt 24 16 in
  let k := KDF c msgHash (if isOutgoing c then 8%nat else 0%nat) in
  let plain := aes_ige_decrypt (drop 40 pkt) k.1 k.2 in
  slice pkt 16 8 = keyFingerprint c /\ data = drop 4 plain /\
  exists n, (n <= length data)%nat /\ msgHash = slice (sha1 (take (n + 4) plain)) (SHA1_LENGTH - 16) 16.

Lemma open_v2_sound c buffer pkt upgrade s : take (length pkt) buffer = pkt -> (56 <= length pkt)%nat -> i_buffer s = pkt ->
  match (open_v2 c buffer upgrade s).1 with
  | Value Dropped => True
  | Value (Opened buf s' up) => up = upgrade /\ i_offset s' = 0%nat /\ carries_v2 c pkt (i_buffer s')
  | _ => False
  end.
Proof.
  intros Hb Hl Es. unfold open_v2. erewrite run_bind by (apply Seek_ok; rewrite Es; lia). rewrite Es.
  set (short := shortFormat c). set (hdr := if short then 16%nat else 24%nat).
  set (s1 := InStream pkt 16). set (s2 := InStream pkt hdr).
  erewrite (run_bind _ _ s1 (if short then keyFingerprint c else slice pkt 16 8) s2).
  2:{ unfold s1, s2, hdr. destruct short; [done|]. rewrite ReadBytes_value; [done|]. rewrite rest_seek, length_drop. lia. }
  case_decide as Hf; [done|].
  assert (hdr <= 24)%nat as Hh by (unfold hdr; destruct short; lia).
  erewrite run_bind by (apply ReadBytes_value; unfold s2; rewrite rest_seek, length_drop; lia). cbn [i_buffer i_offset s2].
  set (msgKey := slice pkt hdr 16). set (x := if isOutgoing c then 8%nat else 0%nat).
  destruct (KDF2 c msgKey x) as [key iv] eqn:EK.
  erewrite run_bind by (unfold Remaining; reflexivity). cbn [advance i_buffer i_offset s2].
  case_decide as Hn; [done|]. erewrite run_bind by (unfold GetOffset; reflexivity). cbn [advance i_buffer i_offset s2].
  assert (slice buffer (hdr + 16) (length pkt - (hdr + 16)) = drop (hdr + 16) pkt) as ->.
  { rewrite (slice_prefix buffer (length pkt)) by lia. rewrite Hb. unfold slice. rewrite take_ge; [done|]. rewrite length_drop. lia. }
  set (plain := aes_ige_decrypt (drop (hdr + 16) pkt) key iv).
  assert (length plain = length pkt - (hdr + 16))%nat as Hp by (unfold plain; rewrite length_ige_decrypt, length_drop; lia).
  set (ss := if short then 0%nat else 4%nat).
  case_decide as Hk; [done|].
  erewrite (run_bind _ _ _ tt (new_input plain)) by reflexivity.
  assert (exists v t, (if short then ReadInt16 else ReadInt32) (new_input plain) = (Value v, t)) as (v & t & Ev).
  { destruct short; [destruct (ReadInt16_value (new_input plain)) as [v Ev]|destruct (ReadInt32_value (new_input plain)) as [v Ev]];
      rewrite ?rest_new; try lia; by eexists _, _. }
  erewrite run_bind by exact Ev. case_decide as Hi; [done|]. case_decide as Hpad; [done|].
  assert (0 <= u32 v) as Hv by (rewrite u32_mod; lia).
  assert (length (slice plain (if short then 2 else 4)%nat (Z.to_nat (u32 v))) = Z.to_nat (u32 v)) as Hd.
  { apply length_slice. destruct short; unfold ss in Hi; lia. }
  cbn [fst mret M_ret new_input i_offset i_buffer]. split; [done|]. split; [done|]. unfold carries_v2. cbv zeta. cbn [new_input i_buffer].
  fold short hdr x msgKey. rewrite EK. cbn [fst snd]. fold plain ss. split; [intros E0; by rewrite E0 in Hf|]. split; [exact Hk|].
  exists v. rewrite Ev. split; [done|]. rewrite Hd. split; [split; [lia|done]|]. destruct short; lia.
Qed.

(** The MTProto 1 attempt reads nothing past the packet, fails without an
    exception, and leaves the data in the stream when the hash agrees. *)
Lemma open_v1_sound c waiting buffer pkt : take (length pkt) buffer = pkt -> (56 <= length pkt)%nat ->
  match open_v1 c waiting buffer (InStream pkt 16) with
  | (Value (inl retry), s') => i_buffer s' = pkt /\ (retry = true -> waiting = true)
  | (Value (inr (buf, s')), _) => carries_v1 c pkt (rest s')
  | _ => False
  end.
Proof.
  intros Hb Hl. unfold open_v1. set (s1 := InStream pkt 16). set (s2 := InStream pkt 24). set (s3 := InStream pkt 40).
  erewrite (run_bind _ _ s1 _ s2) by (apply ReadBytes_value; unfold s1; rewrite rest_seek, length_drop; lia).
  erewrite (run_bind _ _ s2 _ s3) by (apply ReadBytes_value; unfold s2; rewrite rest_seek, length_drop; lia).
  cbn [i_buffer i_offset s1 s2]. case_decide as Hf; [done|].
  set (msgHash := slice pkt 24 16). destruct (KDF c msgHash _) as [key iv] eqn:EK.
  erewrite run_bind by (unfold GetOffset; reflexivity). erewrite run_bind by (unfold Remaining; reflexivity). cbn [i_buffer i_offset s3].
  assert (slice buffer 40 (length pkt - 40) = drop 40 pkt) as ->.
  { rewrite (slice_prefix buffer (length pkt)) by lia. rewrite Hb. unfold slice. rewrite take_ge; [done|]. rewrite length_drop. lia. }
  set (plain := aes_ige_decrypt (drop 40 pkt) key iv).
  assert (length plain = length pkt - 40)%nat as Hp by (unfold plain; rewrite length_ige_decrypt, length_drop; lia).
  destruct (ReadInt32_value (new_input plain)) as [v Ev]; [rewrite rest_new; lia|].
  erewrite (run_bind _ _ s3 (u32 v, (length plain - 4)%nat) s3) by (rewrite Ev; reflexivity).
  assert (0 <= u32 v) as Hv by (rewrite u32_mod; lia).
  set (len := if decide (Z.of_nat (length plain - 4) < u32 v) then _ else u32 v).
  assert (0 <= len <= Z.of_nat (length plain - 4)) as Hlen by (unfold len; case_decide; lia).
  case_decide as Hk; [done|].
  erewrite (run_bind _ _ s3 tt (InStream (take (length pkt) (store buffer 40 plain)) 40)) by reflexivity.
  assert (length buffer >= length pkt)%nat as Hbl by (apply (f_equal length) in Hb; rewrite length_take in Hb; lia).
  rewrite (take_store buffer 40 plain) by lia.
  assert (rest (InStream (take 40 buffer ++ plain) 40) = plain) as Hr.
  { rewrite rest_seek. apply drop_app_length'. rewrite length_take. lia. }
  destruct (ReadInt32_value (InStream (take 40 buffer ++ plain) 40)) as [v' Ev']; [rewrite Hr; lia|].
  erewrite run_bind by exact Ev'. cbv beta. unfold carries_v1. cbv zeta. fold msgHash. rewrite EK. cbn [fst snd]. fold plain.
  split; [done|]. rewrite rest_advance, Hr. split; [done|]. exists (Z.to_nat len).
  split; [rewrite length_drop; lia|exact Hk].
Qed.

Lemma open_sound (c : call_keys) (waiting : bool) (pkt stale : list Z) (Hl : (16 <= length pkt)%nat) :
  match (open_packet c waiting (pkt ++ stale) (new_input pkt)).1 with
  | Value Dropped => True
  | Value (Opened buf s upgrade) =>
      (56 <= length pkt)%nat /\ (upgrade = true -> useMTProto2 c = false /\ waiting = true) /\
      (if useMTProto2 c || upgrade then carries_v2 c pkt (i_buffer s) /\ i_offset s = 0%nat else carries_v1 c pkt (rest s))
  | _ => False
  end.
Proof.
  assert (take (length pkt) (pkt ++ stale) = pkt) as Hb by apply take_app_length.
  unfold open_packet. erewrite run_bind by (apply Seek_ok; cbn [i_buffer new_input]; lia). cbn [i_buffer new_input].
  erewrite run_bind by (unfold Remaining; reflexivity). cbn [i_buffer i_offset]. case_decide as H40; [done|].
  assert (56 <= length pkt)%nat as H56 by lia. destruct (useMTProto2 c) eqn:Ev2; cbn [orb].
  - pose proof (open_v2_sound c _ pkt false (InStream pkt 16) Hb H56 eq_refl) as S.
    destruct (open_v2 _ _ _ _) as [[[|buf s up]| |] t]; cbn [fst] in *; [done| |done|done].
    destruct S as (-> & S1 & S2). done.
  - pose proof (open_v1_sound c waiting _ pkt Hb H56) as S. unfold mbind, M_bind.
    destruct (open_v1 _ _ _ _) as [[[[|]|[buf s']]| |] t]; cbn [fst mret M_ret] in *; [|done| |done|done].
    + destruct S as [S Hw]. pose proof (open_v2_sound c _ pkt true t Hb H56 S) as S2.
      destruct (open_v2 _ _ _ _) as [[[|buf s up]| |] t']; cbn [fst] in *; [done| |done|done].
      destruct S2 as (-> & S1 & S2). split; [done|]. split; [by rewrite Hw|]. done.
    + done.
Qed.

(** C26: whatever bytes arrive, opening a packet with a complete tag neither throws nor
    reads past the packet: it is dropped, or its message key is the hash of its
    plain text under the key of this call, the data lie inside that plain text, and
    the length field and the padding are in range. *)
Theorem open_authentic (c : call_keys) (waiting : bool) (pkt stale : list Z) (Hl : (16 <= length pkt)%nat) :
  match (open_packet c waiting (pkt ++ stale) (new_input pkt)).1 with
  | Value Dropped => True
  | Value (Opened buf s upgrade) =>
      (56 <= length pkt)%nat /\ (upgrade = true -> useMTProto2 c = false /\ waiting = true) /\
      (if useMTProto2 c || upgrade then carries_v2 c pkt (i_buffer s) /\ i_offset s = 0%nat else carries_v1 c pkt (rest s))
  | _ => False
  end.
Proof. by apply open_sound. Qed.
End opened.

Lemma open_authentic_witness :
  let pkt := @seal toy_crypto (toy_keys true false 5) zeros (repeat 3 16) [1; 2; 3; 4; 5] in
  match (@open_packet toy_crypto (toy_keys false false 5) true (pkt ++ [0]) (new_input pkt)).1 with
  | Value (Opened _ s false) => @carries_v1 toy_crypto (toy_keys false false 5) pkt (rest s)
  | _ => False
  end.
Proof.
  intros pkt. assert (16 <= length pkt)%nat as Hl by (apply (bool_decide_unpack _); vm_compute; exact I).
  pose proof (@open_authentic toy_crypto (toy_keys false false 5) true pkt [0] Hl) as R.
  assert (match (@open_packet toy_crypto (toy_keys false false 5) true (pkt ++ [0]) (new_input pkt)).1 with
          | Value (Opened _ _ false) => true | _ => false end = true) as E by (vm_compute; reflexivity).
  destruct (@open_packet _ _ _ _ _) as [[[|buf s [|]]| |] t]; cbn [fst] in *; try discriminate. apply R.
Defined.
