(* ===== verification/VoipPacket.v ===== *)
(** * libtgvoip: packet headers, sequence numbers and acknowledgements

    The reliability layer of [src/submodules/libtgvoip/VoIPController.cpp]: the
    header [WritePacketHeader] writes and [ProcessIncomingPacket] parses, the window
    of received sequence numbers, the acknowledgements of sent packets, the packets
    sent reliably and the extras that ride on headers. The clock is read once per
    call; locking and logging are left out. *)

From stdpp Require Import relations.
From S2P Require Import Prelude Exn VoipBuffers Double VoipDefs Congestion.

(** ** State *)

Inductive call_state := STATE_WAIT_INIT | STATE_WAIT_INIT_ACK | STATE_ESTABLISHED | STATE_FAILED | STATE_RECONNECTING.
#[export] Instance call_state_eq_dec : EqDecision call_state.
Proof. solve_decision. Defined.

Record RecentOutgoingPacket := Recent { rp_seq : Z; rp_sendTime : double; rp_ackTime : double }.
Record QueuedPacket := Queued {
  q_data : list Z; q_type : Z; q_seqs : list Z; q_firstSentTime : double; q_lastSentTime : double;
  q_retryInterval : double; q_timeout : double
}.
Record UnacknowledgedExtraData := Extra { x_type : Z; x_data : list Z; x_first : Z }.

(** The part of the controller this layer works on; [keySent] counts the calls of
    the [groupCallKeySent] callback. *)
Record link := Link {
  callState : call_state; linkCallID : list Z; linkPeerVersion : Z; outSeq : Z;
  lastRemoteSeq : Z; lastRemoteAckSeq : Z; lastSentSeq : Z;
  recentOutgoingPackets : list RecentOutgoingPacket; recvPacketTimes : list double;
  queuedPackets : list QueuedPacket; currentExtras : list UnacknowledgedExtraData; conctl : congestion;
  packetsReceived : Z; firstSentPing : Z; linkRttHistory : list double; waitingForAcks : bool; dontSendPackets : Z;
  didReceiveGroupCallKeyAck : bool; keySent : nat
}.
#[export] Instance link_eta : Eta link := fun l => Link
  (callState l) (linkCallID l) (linkPeerVersion l) (outSeq l) (lastRemoteSeq l) (lastRemoteAckSeq l) (lastSentSeq l)
  (recentOutgoingPackets l) (recvPacketTimes l) (queuedPackets l) (currentExtras l) (conctl l)
  (packetsReceived l) (firstSentPing l) (linkRttHistory l) (waitingForAcks l) (dontSendPackets l)
  (didReceiveGroupCallKeyAck l) (keySent l).

Definition waiting (l : link) : bool := bool_decide (callState l = STATE_WAIT_INIT) || bool_decide (callState l = STATE_WAIT_INIT_ACK).

(** ** Sending *)

Definition GenerateOutSeq : M link Z := fun l => (Value (outSeq l), l <| outSeq := u32 (outSeq l + 1) |>).

(** The acknowledgement mask: bit [31 - i] for the packet [lastRemoteSeq - i]. *)
Definition mask_body (times : list double) (acks : Z) (i : nat) : Z :=
  let acks := if dltb d0 (nth i times d0) then Z.lor acks 1 else acks in
  if decide (i < 31)%nat then u32 (Z.shiftl acks 1) else acks.
Definition ack_mask (times : list double) : Z := for_loop 0 32 (mask_body times) 0.

(** A length of up to 253 in one byte, else in three after [254]. *)
Definition WriteTlLength (n : Z) : M out_stream unit :=
  if decide (n <= 253) then WriteByte (u8 n)
  else WriteByte 254 ;; WriteByte (Z.land n 0xFF) ;; WriteByte (Z.land (Z.shiftr n 8) 0xFF) ;; WriteByte (Z.land (Z.shiftr n 16) 0xFF).

Definition on_link {A T} (m : M link A) : M (link * T) A := zoom fst (fun l s => (l, snd s)) m.

(** [randomID] and [randBytes] come from the random source. *)
Definition init_header (pseq type length : Z) (randomID : Z) (randBytes : list Z) : M (link * out_stream) unit :=
  '(l, _) ← get;
  let acks := ack_mask (recvPacketTimes l) in
  output (WriteInt32 TLID_DECRYPTED_AUDIO_BLOCK) ;;
  output (WriteInt64 randomID) ;;
  output (WriteByte 7) ;;
  output (WriteBytes randBytes) ;;
  let pflags := Z.lor PFLAG_HAS_RECENT_RECV PFLAG_HAS_SEQ in
  let pflags := if decide (0 < length) then Z.lor pflags PFLAG_HAS_DATA else pflags in
  let pflags := if waiting l then Z.lor pflags (Z.lor PFLAG_HAS_CALL_ID PFLAG_HAS_PROTO) else pflags in
  let pflags := Z.lor pflags (u32 (Z.shiftl type 24)) in
  output (WriteInt32 pflags) ;;
  when (negb (bool_decide (Z.land pflags PFLAG_HAS_CALL_ID = 0))) (output (WriteBytes (linkCallID l))) ;;
  output (WriteInt32 (lastRemoteSeq l)) ;;
  output (WriteInt32 pseq) ;;
  output (WriteInt32 acks) ;;
  when (negb (bool_decide (Z.land pflags PFLAG_HAS_PROTO = 0))) (output (WriteInt32 PROTOCOL_NAME)) ;;
  when (bool_decide (0 < length)) (output (WriteTlLength length)).

(** Extra number [i] goes into the header of packet [pseq]. *)
Definition write_extra (NDEBUG : bool) (pseq : Z) (i : nat) : M (link * out_stream) unit :=
  '(l, _) ← get;
  match currentExtras l !! i with
  | Some x =>
      (if negb NDEBUG && bool_decide (254 < length (x_data x))%nat then abort else mret tt) ;;
      output (WriteByte (u8 (Z.of_nat (length (x_data x)) + 1))) ;;
      output (WriteByte (x_type x)) ;;
      output (WriteBytes (x_data x)) ;;
      modify (fun s => ((fst s) <| currentExtras :=
        <[i := if decide (x_first x = 0) then Extra (x_type x) (x_data x) pseq else x]> (currentExtras (fst s)) |>, snd s))
  | None => mret tt
  end.
Definition simple_header (NDEBUG : bool) (pseq type length : Z) (randomID : Z) (randBytes : list Z) : M (link * out_stream) unit :=
  '(l, _) ← get;
  let acks := ack_mask (recvPacketTimes l) in
  output (WriteInt32 TLID_SIMPLE_AUDIO_BLOCK) ;;
  output (WriteInt64 randomID) ;;
  output (WriteByte 7) ;;
  output (WriteBytes randBytes) ;;
  let lenWithHeader := u32 (length + 13) in
  when (bool_decide (0 < lenWithHeader)) (output (WriteTlLength lenWithHeader)) ;;
  output (WriteByte type) ;;
  output (WriteInt32 (lastRemoteSeq l)) ;;
  output (WriteInt32 pseq) ;;
  output (WriteInt32 acks) ;;
  when (bool_decide (6 <= linkPeerVersion l))
    (if decide (currentExtras l = []) then output (WriteByte 0) else
     output (WriteByte XPFLAG_HAS_EXTRA) ;;
     output (WriteByte (u8 (Z.of_nat (List.length (currentExtras l))))) ;;
     iterate_list (write_extra NDEBUG pseq) (seq 0 (List.length (currentExtras l)))).

(** Append to [recentOutgoingPackets], keeping the last [MAX_RECENT_PACKETS]. *)
Definition note_sent (pseq : Z) (time : double) (l : link) : link :=
  let r := recentOutgoingPackets l ++ [Recent pseq time d0] in
  l <| recentOutgoingPackets := drop (length r - MAX_RECENT_PACKETS) r |> <| lastSentSeq := pseq |>.

Definition is_stream_data (type : Z) : bool :=
  bool_decide (type = PKT_STREAM_DATA) || bool_decide (type = PKT_STREAM_DATA_X2) || bool_decide (type = PKT_STREAM_DATA_X3).
Definition WritePacketHeader (NDEBUG : bool) (pseq type length : Z) (randomID : Z) (randBytes : list Z) (time : double) : M (link * out_stream) unit :=
  '(l, _) ← get;
  (if waiting l then init_header pseq type length randomID randBytes
   else simple_header NDEBUG pseq type length randomID randBytes) ;;
  when (is_stream_data type) (on_link (zoom conctl (fun c l => l <| conctl := c |>) (PacketSent pseq length time))) ;;
  on_link (modify (note_sent pseq time)).

(** The packet [RunSendThread] builds: header and data in its buffer of 1500 bytes. *)
Definition frame (NDEBUG : bool) (pseq type : Z) (data : list Z) (randomID : Z) (randBytes : list Z) (time : double) : M (link * out_stream) unit :=
  WritePacketHeader NDEBUG pseq type (u32 (Z.of_nat (length data))) randomID randBytes time ;;
  output (WriteBytes data).

(** [junk]: the sequence numbers are not initialised when there is no data. *)
Definition SendPacketReliably (type : Z) (data : option (list Z)) (retryInterval timeout : double) (junk : list Z) (l : link) : link :=
  l <| queuedPackets := queuedPackets l ++
    [Queued (default [] data) type (if data is Some _ then zeros 16 else junk) d0 d0 retryInterval timeout] |>.

Fixpoint replace_extra (type : Z) (data : list Z) (l : list UnacknowledgedExtraData) : option (list UnacknowledgedExtraData) :=
  match l with
  | [] => None
  | x :: l => if decide (x_type x = type) then Some (Extra type data 0 :: l)
              else l' ← replace_extra type data l; Some (x :: l')
  end.
Definition SendExtra (data : list Z) (type : Z) (l : link) : link :=
  match replace_extra type data (currentExtras l) with
  | Some xs => l <| currentExtras := xs |>
  | None => l <| currentExtras := currentExtras l ++ [Extra type data 0] |>
  end.

(** ** Receiving *)

(** What parsing the header leads to: the packet is dropped, the call fails, or
    the fields of the header. *)
Inductive parsed :=
  | Ignored | WrongCallID | WrongProtocol
  | Parsed (type pflags ackId pseq acks packetInnerLen : Z).

(** [ReadTlLength] and [Seek] past a string and its padding. *)
Definition skip_string (NDEBUG : bool) : M in_stream unit :=
  n ← ReadTlLength NDEBUG; o ← GetOffset; Seek (o + Z.to_nat n + Z.to_nat (pad4 n)).
Definition has (flag flags : Z) : bool := negb (bool_decide (Z.land flags flag = 0)).

(** The optional fields after the sequence numbers. *)
Definition read_tail (NDEBUG : bool) (flags type ackId pseq acks : Z) : M in_stream parsed :=
  when (has PFLAG_HAS_EXTRA flags) (skip_string NDEBUG) ;;
  packetInnerLen ← (if has PFLAG_HAS_DATA flags then ReadTlLength NDEBUG else mret 0);
  mret (Parsed type 0 ackId pseq acks packetInnerLen).
Definition read_seqs (NDEBUG : bool) (flags type : Z) : M in_stream parsed :=
  ackId ← ReadInt32; pseq ← ReadInt32; acks ← ReadInt32;
  if has PFLAG_HAS_PROTO flags then
    proto ← ReadInt32;
    if decide (u32 proto <> PROTOCOL_NAME) then mret WrongProtocol
    else read_tail NDEBUG flags type (u32 ackId) (u32 pseq) (u32 acks)
  else read_tail NDEBUG flags type (u32 ackId) (u32 pseq) (u32 acks).
Definition read_init_header (NDEBUG : bool) (callID : list Z) : M in_stream parsed :=
  ReadInt64 ;;
  skip_string NDEBUG ;;
  flags ← ReadInt32;
  let flags := u32 flags in
  let type := Z.land (Z.shiftr flags 24) 0xFF in
  if negb (has PFLAG_HAS_SEQ flags && has PFLAG_HAS_RECENT_RECV flags) then mret Ignored else
  if has PFLAG_HAS_CALL_ID flags then
    pktCallID ← ReadBytes 16;
    if decide (pktCallID <> callID) then mret WrongCallID else read_seqs NDEBUG flags type
  else read_seqs NDEBUG flags type.
Definition read_simple_header (NDEBUG : bool) (peerVersion : Z) : M in_stream parsed :=
  ReadInt64 ;;
  skip_string NDEBUG ;;
  packetInnerLen ← ReadTlLength NDEBUG;
  type ← ReadByte;
  ackId ← ReadInt32; pseq ← ReadInt32; acks ← ReadInt32;
  pflags ← (if decide (6 <= peerVersion) then ReadByte else mret 0);
  mret (Parsed type pflags (u32 ackId) (u32 pseq) (u32 acks) packetInnerLen).
Definition read_header (NDEBUG : bool) (callID : list Z) (peerVersion : Z) : M in_stream parsed :=
  tlid ← ReadInt32;
  if decide (u32 tlid = TLID_DECRYPTED_AUDIO_BLOCK) then read_init_header NDEBUG callID
  else if decide (u32 tlid = TLID_SIMPLE_AUDIO_BLOCK) then read_simple_header NDEBUG peerVersion
  else mret Ignored.

(** An extra in a header: its length, then its type and data. *)
Definition read_extra : M in_stream (list Z) := extraLen ← ReadByte; ReadBytes (Z.to_nat extraLen).
Fixpoint read_extras (n : nat) : M in_stream (list (list Z)) :=
  match n with O => mret [] | S n => x ← read_extra; xs ← read_extras n; mret (x :: xs) end.

(** The window of the last 32 sequence numbers: [recvPacketTimes[i]] is the time
    [lastRemoteSeq - i] arrived. [false] when the packet is to be ignored. *)
Definition shift_times (diff : nat) (now : double) (times : list double) : list double :=
  let kept := take (32 - diff) times in
  let head := if decide (1 < diff)%nat then replicate diff d0 else take diff times in
  <[0%nat := now]> (head ++ kept).
Definition receive_seq (pseq : Z) (now : double) : M link bool := fun l =>
  let l := l <| packetsReceived := u32 (packetsReceived l + 1) |> in
  if seqgt pseq (lastRemoteSeq l) then
    let diff := u32 (pseq - lastRemoteSeq l) in
    let times := if decide (31 < diff) then replicate 32 d0 else shift_times (Z.to_nat diff) now (recvPacketTimes l) in
    (Value true, l <| recvPacketTimes := times |> <| lastRemoteSeq := pseq |>)
  else
    let back := u32 (lastRemoteSeq l - pseq) in
    if decide (back < 32) then
      if negb (deqb (nth (Z.to_nat back) (recvPacketTimes l) d0) d0) then (Value false, l)
      else (Value true, l <| recvPacketTimes := <[Z.to_nat back := now]> (recvPacketTimes l) |>)
    else (Value false, l).

(** ** Acknowledgements *)

(** Bit [31 - i] of the mask against one sent packet. *)
Definition ack_recent (ackId acks : Z) (now : double) (i : nat) (p : RecentOutgoingPacket) (c : congestion) : RecentOutgoingPacket * congestion :=
  if negb (deqb (rp_ackTime p) d0) then (p, c)
  else if negb (bool_decide (Z.land (Z.shiftr acks (31 - Z.of_nat i)) 1 = 0)) && bool_decide (rp_seq p = u32 (ackId - (Z.of_nat i + 1)))
  then (Recent (rp_seq p) (rp_sendTime p) now, PacketAcknowledged (rp_seq p) now c)
  else (p, c).
Fixpoint ack_pass (ackId acks : Z) (now : double) (i : nat) (l : list RecentOutgoingPacket) (c : congestion) : list RecentOutgoingPacket * congestion :=
  match l with
  | [] => ([], c)
  | p :: l => let '(p, c) := ack_recent ackId acks now i p c in
              let '(l, c) := ack_pass ackId acks now i l c in (p :: l, c)
  end.
Definition ack_body (ackId acks : Z) (now : double) (s : list RecentOutgoingPacket * congestion) (i : nat) : list RecentOutgoingPacket * congestion :=
  ack_pass ackId acks now i (fst s) (snd s).
Definition ack_all (ackId acks : Z) (now : double) (l : list RecentOutgoingPacket) (c : congestion) : list RecentOutgoingPacket * congestion :=
  for_loop 0 31 (ack_body ackId acks now) (l, c).

(** A reliable packet is done when one of the packets that carried it is known to
    have arrived. *)
Definition acked_seq (lastAck : Z) (recent : list RecentOutgoingPacket) (s : Z) : bool :=
  let remoteAcksIndex := i32 (lastAck - s) in
  seqgt lastAck s && bool_decide (0 <= remoteAcksIndex) && bool_decide (remoteAcksIndex < 32) &&
  existsb (fun p => bool_decide (rp_seq p = s) && dltb d0 (rp_ackTime p)) recent.
Fixpoint did_ack (lastAck : Z) (recent : list RecentOutgoingPacket) (seqs : list Z) : bool :=
  match seqs with
  | [] => false
  | s :: seqs => if decide (s = 0) then false else acked_seq lastAck recent s || did_ack lastAck recent seqs
  end.

Definition ProcessAcknowledgedOutgoingExtra (x : UnacknowledgedExtraData) (l : link) : link :=
  if decide (x_type x = EXTRA_TYPE_GROUP_CALL_KEY) then
    if didReceiveGroupCallKeyAck l then l
    else l <| didReceiveGroupCallKeyAck := true |> <| keySent := S (keySent l) |>
  else l.
Definition extra_acked (lastAck : Z) (x : UnacknowledgedExtraData) : bool :=
  negb (bool_decide (x_first x = 0)) && (bool_decide (lastAck = x_first x) || seqgt lastAck (x_first x)).

Definition resume_sending (l : link) : link :=
  if waitingForAcks l && bool_decide (firstSentPing l <= lastRemoteAckSeq l)
  then l <| linkRttHistory := replicate 32 d0 |> <| waitingForAcks := false |> <| dontSendPackets := 10 |> else l.
Definition ack_packets (ackId acks : Z) (now : double) (l : link) : link :=
  let rc := ack_all ackId acks now (recentOutgoingPackets l) (PacketAcknowledged ackId now (conctl l)) in
  l <| lastRemoteAckSeq := ackId |> <| recentOutgoingPackets := fst rc |> <| conctl := snd rc |>.
Definition ack_queued (l : link) : link :=
  l <| queuedPackets := filter (fun q => negb (did_ack (lastRemoteAckSeq l) (recentOutgoingPackets l) (q_seqs q)) = true) (queuedPackets l) |>.
Definition ack_extras (l : link) : link :=
  let done := filter (fun x => extra_acked (lastRemoteAckSeq l) x = true) (currentExtras l) in
  let l' := foldl (fun l x => ProcessAcknowledgedOutgoingExtra x l) l done in
  l' <| currentExtras := filter (fun x => extra_acked (lastRemoteAckSeq l) x = false) (currentExtras l) |>.
Definition receive_acks (ackId acks : Z) (now : double) (l : link) : link :=
  if seqgt ackId (lastRemoteAckSeq l) then ack_extras (ack_queued (ack_packets ackId acks now (resume_sending l))) else l.

(** The extras of a header whose flags have been read (the loop that hands each to
    [ProcessExtraData]). *)
Definition read_header_extras (pflags : Z) : M in_stream (list (list Z)) :=
  if has XPFLAG_HAS_EXTRA pflags then n ← ReadByte; read_extras (Z.to_nat n) else mret [].
(** A whole packet up to its data. *)
Definition read_packet (NDEBUG : bool) (callID : list Z) (peerVersion : Z) : M in_stream (parsed * list (list Z)) :=
  h ← read_header NDEBUG callID peerVersion;
  xs ← (match h with Parsed _ pflags _ _ _ _ => read_header_extras pflags | _ => mret [] end);
  mret (h, xs).

(** ** The header as bytes *)

Definition extra_ok (x : UnacknowledgedExtraData) : Prop :=
  (length (x_data x) <= 254)%nat /\ is_byte (x_type x) /\ is_u32 (x_first x).
Record link_ok (l : link) : Prop := {
  lo_times : length (recvPacketTimes l) = 32%nat;
  lo_seqs : is_u32 (lastRemoteSeq l) /\ is_u32 (lastRemoteAckSeq l);
  lo_conctl : congestion_ok (conctl l);
  lo_extras : Forall extra_ok (currentExtras l) /\ (length (currentExtras l) <= 255)%nat;
  lo_recent : (length (recentOutgoingPackets l) <= MAX_RECENT_PACKETS)%nat;
  lo_call : length (linkCallID l) = 16%nat
}.

(** The extras as they ride on packet [pseq], and the link after they did. *)
Definition stamp (pseq : Z) (x : UnacknowledgedExtraData) : UnacknowledgedExtraData :=
  if decide (x_first x = 0) then Extra (x_type x) (x_data x) pseq else x.
Definition extra_bytes (x : UnacknowledgedExtraData) : list Z :=
  u8 (Z.of_nat (length (x_data x)) + 1) :: x_type x :: x_data x.
Definition extras_bytes (xs : list UnacknowledgedExtraData) : list Z :=
  if decide (xs = []) then [0] else XPFLAG_HAS_EXTRA :: u8 (Z.of_nat (length xs)) :: concat (map extra_bytes xs).

Definition flags_of (l : link) (type length : Z) : Z :=
  Z.lor (let f := if decide (0 < length) then Z.lor (Z.lor PFLAG_HAS_RECENT_RECV PFLAG_HAS_SEQ) PFLAG_HAS_DATA else Z.lor PFLAG_HAS_RECENT_RECV PFLAG_HAS_SEQ in
         if waiting l then Z.lor f (Z.lor PFLAG_HAS_CALL_ID PFLAG_HAS_PROTO) else f) (u32 (Z.shiftl type 24)).
Definition seqs_bytes (l : link) (pseq : Z) : list Z :=
  le_bytes 4 (lastRemoteSeq l) ++ le_bytes 4 pseq ++ le_bytes 4 (ack_mask (recvPacketTimes l)).
Definition prefix_bytes (tlid randomID : Z) (randBytes : list Z) : list Z :=
  le_bytes 4 tlid ++ le_bytes 8 randomID ++ [7] ++ randBytes.

Lemma emits_tl {T} n (t : T) : emits (output (WriteTlLength n)) t (tl_length n) t.
Proof.
  unfold WriteTlLength, tl_length. case_decide; [apply emits_byte|]. cbn [le_bytes]. rewrite Z.shiftr_shiftr by lia.
  change (254 :: [?a; ?b; ?c]) with ([254] ++ [a] ++ [b] ++ [c]).
  repeat (apply emits_output_bind; [apply emits_byte|]). apply emits_byte.
Qed.

Lemma byte_range (P : Z -> bool) : forallb (fun n => P (Z.of_nat n)) (seq 0 256) = true -> forall b, is_byte b -> P b = true.
Proof.
  intros H b Hb. rewrite forallb_forall in H. specialize (H (Z.to_nat b)). rewrite Z2Nat.id in H by apply Hb.
  apply H. apply in_seq. unfold is_byte in Hb. lia.
Qed.

(** The flag word: its low bits and the packet type. *)
Definition flags_fine (b : bool) (type : Z) : bool :=
  let flags := Z.lor (Z.lor (if b then Z.lor (Z.lor PFLAG_HAS_RECENT_RECV PFLAG_HAS_SEQ) PFLAG_HAS_DATA else Z.lor PFLAG_HAS_RECENT_RECV PFLAG_HAS_SEQ)
    (Z.lor PFLAG_HAS_CALL_ID PFLAG_HAS_PROTO)) (u32 (Z.shiftl type 24)) in
  (Z.land (Z.shiftr flags 24) 0xFF =? type) && (0 <=? flags) && (flags <? 2 ^ 32) && has PFLAG_HAS_SEQ flags && has PFLAG_HAS_RECENT_RECV flags &&
  has PFLAG_HAS_CALL_ID flags && has PFLAG_HAS_PROTO flags && negb (has PFLAG_HAS_EXTRA flags) && Bool.eqb (has PFLAG_HAS_DATA flags) b.
Lemma flags_waiting l type length : waiting l = true -> is_byte type ->
  let flags := flags_of l type length in
  Z.land (Z.shiftr flags 24) 0xFF = type /\ u32 flags = flags /\ has PFLAG_HAS_SEQ flags = true /\ has PFLAG_HAS_RECENT_RECV flags = true /\
  has PFLAG_HAS_CALL_ID flags = true /\ has PFLAG_HAS_PROTO flags = true /\ has PFLAG_HAS_EXTRA flags = false /\
  has PFLAG_HAS_DATA flags = bool_decide (0 < length).
Proof.
  intros Hw Ht. cbv zeta. unfold flags_of. rewrite Hw.
  assert (flags_fine (bool_decide (0 < length)) type = true) as F.
  { revert type Ht. apply byte_range. case_bool_decide; vm_compute; reflexivity. }
  unfold flags_fine in F. cbv zeta in F. rewrite bool_decide_decide in F |- *.
  destruct (decide (0 < length)); revert F; set (flags := Z.lor (Z.lor _ _) (u32 _)); intros F;
    repeat (apply andb_prop in F as [F ?]); (split; [lia|]); (split; [apply u32_id; lia|]); repeat split; try assumption;
    try (by apply negb_true_iff); by apply Bool.eqb_prop.
Qed.

(** ** Writing a header *)

Lemma emits_init_header l pseq type length randomID randBytes : waiting l = true -> is_byte type ->
  emits (init_header pseq type length randomID randBytes) l
    (prefix_bytes TLID_DECRYPTED_AUDIO_BLOCK randomID randBytes ++ le_bytes 4 (flags_of l type length) ++ linkCallID l ++
     seqs_bytes l pseq ++ le_bytes 4 PROTOCOL_NAME ++ (if bool_decide (0 < length) then tl_length length else [])) l.
Proof.
  intros Hw Ht. pose proof (flags_waiting l type length Hw Ht) as F. cbv zeta in F. unfold init_header, prefix_bytes, seqs_bytes. apply emits_get. cbv zeta.
  fold (flags_of l type length). destruct F as (_ & _ & _ & _ & F5 & F6 & _ & _). unfold has in F5, F6. rewrite F5, F6.
  cbn [negb when]. rewrite <- !app_assoc. emits_fields.
  apply emits_when. intros _. apply emits_tl.
Qed.

Lemma emits_modify {T} (f : T -> T) t : emits (modify (fun s => (f (fst s), snd s))) t [] (f t).
Proof. intros o Ho _. exists o. split; [done|by apply appended_nil]. Qed.
Lemma emits_eq {T} (m : M (T * out_stream) unit) t bs t' cs u : emits m t bs t' -> bs = cs -> t' = u -> emits m t cs u.
Proof. by intros H <- <-. Qed.

Lemma emits_write_extra nd pseq l i x : currentExtras l !! i = Some x -> extra_ok x ->
  emits (write_extra nd pseq i) l (extra_bytes x) (l <| currentExtras := <[i := stamp pseq x]> (currentExtras l) |>).
Proof.
  intros Hi (Hx & _ & _). unfold write_extra. apply emits_get. rewrite Hi.
  rewrite (bool_decide_eq_false_2 (254 < length (x_data x))%nat) by lia. rewrite andb_false_r.
  change (extra_bytes x) with ([] ++ [u8 (Z.of_nat (length (x_data x)) + 1)] ++ [x_type x] ++ x_data x).
  apply emits_bind with l; [apply emits_ret|]. do 2 (apply emits_bind with l; [apply emits_byte|]).
  eapply emits_eq; [apply emits_bind with l; [apply emits_bytes|]|by rewrite app_nil_r|reflexivity].
  apply (emits_modify (fun l => l <| currentExtras := <[i := if decide (x_first x = 0) then Extra (x_type x) (x_data x) pseq else x]> (currentExtras l) |>)).
Qed.
Lemma emits_extras nd pseq ys : Forall extra_ok ys -> forall xs l, currentExtras l = map (stamp pseq) xs ++ ys ->
  emits (iterate_list (write_extra nd pseq) (seq (length xs) (length ys))) l (concat (map extra_bytes ys))
    (l <| currentExtras := map (stamp pseq) (xs ++ ys) |>).
Proof.
  induction 1 as [|y ys Hy Hys IH]; intros xs l E.
  - cbn [length seq iterate_list map concat]. eapply emits_eq; [apply emits_ret|done|]. rewrite app_nil_r in *. rewrite <- E. by destruct l.
  - cbn [length seq iterate_list map concat].
    assert (currentExtras l !! length xs = Some y) as Hl.
    { rewrite E. rewrite lookup_app_r by (by rewrite length_map). by rewrite length_map, Nat.sub_diag. }
    eapply emits_bind; [by apply emits_write_extra|].
    assert (<[length xs := stamp pseq y]> (currentExtras l) = map (stamp pseq) (xs ++ [y]) ++ ys) as E2.
    { rewrite E. rewrite insert_app_r_alt by (by rewrite length_map). rewrite length_map, Nat.sub_diag. cbn.
      by rewrite map_app, <- app_assoc. }
    rewrite E2. specialize (IH (xs ++ [y]) (l <| currentExtras := map (stamp pseq) (xs ++ [y]) ++ ys |>) eq_refl).
    rewrite length_app in IH. cbn [length] in IH. rewrite Nat.add_1_r in IH. rewrite <- app_assoc in IH.
    eapply emits_eq; [exact IH|done|]. by destruct l.
Qed.

(** The link after its extras have been stamped. *)
Definition stamped (pseq : Z) (l : link) : link :=
  if decide (6 <= linkPeerVersion l) then l <| currentExtras := map (stamp pseq) (currentExtras l) |> else l.
Lemma emits_simple_header nd l pseq type length randomID randBytes : link_ok l -> 0 <= length < 2 ^ 24 - 13 ->
  emits (simple_header nd pseq type length randomID randBytes) l
    (prefix_bytes TLID_SIMPLE_AUDIO_BLOCK randomID randBytes ++ tl_length (length + 13) ++ [type] ++ seqs_bytes l pseq ++
     (if bool_decide (6 <= linkPeerVersion l) then extras_bytes (currentExtras l) else [])) (stamped pseq l).
Proof.
  intros [_ _ _ [He Hn] _ _] Hlen. unfold simple_header, prefix_bytes, seqs_bytes. apply emits_get. cbv zeta.
  rewrite u32_id by lia. rewrite (bool_decide_eq_true_2 (0 < length + 13)) by lia. rewrite <- !app_assoc. cbn [when]. emits_fields.
  apply emits_bind with l; [apply emits_tl|]. emits_fields. unfold stamped, extras_bytes. rewrite bool_decide_decide.
  destruct (decide (6 <= linkPeerVersion l)); cbn [when]; [|apply emits_ret].
  destruct (decide (currentExtras l = [])) as [E|E].
  { eapply emits_eq; [apply emits_byte|done|]. rewrite E. destruct l. cbn in E. by subst. }
  change (?a :: ?b :: ?c) with ([a] ++ [b] ++ c). emits_fields. apply (emits_extras nd pseq (currentExtras l) He []). done.
Qed.

(** The data of a packet and its header, both formats. *)
Definition header_bytes (l : link) (pseq type length randomID : Z) (randBytes : list Z) : list Z :=
  if waiting l then
    prefix_bytes TLID_DECRYPTED_AUDIO_BLOCK randomID randBytes ++ le_bytes 4 (flags_of l type length) ++ linkCallID l ++
    seqs_bytes l pseq ++ le_bytes 4 PROTOCOL_NAME ++ (if bool_decide (0 < length) then tl_length length else [])
  else
    prefix_bytes TLID_SIMPLE_AUDIO_BLOCK randomID randBytes ++ tl_length (length + 13) ++ [type] ++ seqs_bytes l pseq ++
    (if bool_decide (6 <= linkPeerVersion l) then extras_bytes (currentExtras l) else []).

Lemma link_ok_conctl l c : link_ok l -> congestion_ok c -> link_ok (l <| conctl := c |>).
Proof. intros [? ? ? ? ? ?] Hc. by split. Qed.
Lemma stamp_ok pseq x : is_u32 pseq -> extra_ok x -> extra_ok (stamp pseq x).
Proof. intros Hp (X1 & X2 & X3). unfold stamp. case_decide; by split. Qed.
Lemma stamped_ok pseq l : is_u32 pseq -> link_ok l -> link_ok (stamped pseq l).
Proof.
  intros Hp [? ? ? [He Hn] ? ?]. unfold stamped. case_decide; [|by split]. split; try done. cbn [currentExtras set]. split.
  - apply Forall_map. eapply Forall_impl; [exact He|]. intros x. by apply stamp_ok.
  - by rewrite length_map.
Qed.
Lemma note_sent_ok pseq time l : link_ok l -> link_ok (note_sent pseq time l).
Proof.
  intros [? ? ? ? ? ?]. unfold note_sent. split; try done. cbn [recentOutgoingPackets set]. rewrite length_drop, length_app.
  cbn [length]. lia.
Qed.

Lemma emits_on_link (m : M link unit) (l l' : link) : m l = (Value tt, l') ->
  emits (on_link m) l [] l'.
Proof. intros E o Ho _. exists o. split; [|by apply appended_nil]. unfold on_link, zoom. cbn [fst snd]. by rewrite E. Qed.

(** The link once packet [pseq] is out. *)
Definition sent_link (pseq : Z) (time : double) (c : congestion) (l : link) : link :=
  note_sent pseq time ((if waiting l then l else stamped pseq l) <| conctl := c |>).

Lemma emits_header nd l pseq type length randomID randBytes time :
  link_ok l -> good_time time -> is_byte type -> is_u32 pseq -> 0 <= length < 2 ^ 24 - 13 ->
  exists c, congestion_ok c /\
    emits (WritePacketHeader nd pseq type length randomID randBytes time) l (header_bytes l pseq type length randomID randBytes) (sent_link pseq time c l).
Proof.
  intros Hl Ht Hty Hp Hlen. unfold WritePacketHeader, header_bytes, sent_link. set (l1 := if waiting l then l else stamped pseq l).
  assert (conctl l1 = conctl l) as Ec by (unfold l1, stamped; destruct (waiting l); [done|]; by case_decide).
  assert (exists c, congestion_ok c /\ emits (when (is_stream_data type) (on_link (zoom conctl (fun c l => l <| conctl := c |>) (PacketSent pseq length time)))) l1 []
            (l1 <| conctl := c |>)) as (c & Hc & Es).
  { destruct (is_stream_data type); cbn [when].
    - destruct (sent_ok pseq length time (conctl l) (lo_conctl _ Hl) Ht) as (c & E & Hc & _). exists c. split; [exact Hc|].
      apply emits_on_link. unfold zoom. by rewrite Ec, E.
    - exists (conctl l). split; [apply Hl|]. eapply emits_eq; [apply emits_ret|done|]. rewrite <- Ec. by destruct l1. }
  exists c. split; [exact Hc|]. apply emits_get.
  assert (emits (if waiting l then init_header pseq type length randomID randBytes else simple_header nd pseq type length randomID randBytes) l
            (header_bytes l pseq type length randomID randBytes) l1) as Eh.
  { unfold l1, header_bytes. destruct (waiting l) eqn:Hw; [exact (emits_init_header l pseq type length randomID randBytes Hw Hty)|].
    exact (emits_simple_header nd l pseq type length randomID randBytes Hl Hlen). }
  eapply emits_eq; [eapply emits_bind; [exact Eh|]; eapply emits_bind; [exact Es|]; apply emits_on_link; reflexivity| |reflexivity].
  by rewrite !app_nil_r.
Qed.

(** ** Reading a header *)

Lemma pad4_seven : pad4 7 = 0.
Proof. done. Qed.
Lemma takes_skip7 nd (r : list Z) : length r = 7%nat -> takes (skip_string nd) ([7] ++ r) tt.
Proof.
  intros Hr s k E. rewrite <- app_assoc in E. unfold skip_string.
  rewrite (run_bind _ _ _ _ _ (takes_tl nd 7 ltac:(lia) s _ E)). change (length (tl_length 7)) with 1%nat.
  unfold GetOffset. unfold mbind at 1, M_bind at 1. rewrite pad4_seven. cbn [advance i_offset i_buffer].
  pose proof (rest_length s _ _ E) as L. rewrite !length_app, Hr in L. cbn [length] in L.
  change (Z.to_nat 7) with 7%nat. change (Z.to_nat 0) with 0%nat. unfold advance. rewrite Seek_ok; cbn [i_buffer i_offset]; [|lia].
  rewrite length_app, Hr. cbn [length]. do 2 f_equal. lia.
Qed.
Lemma takes_eq {A} (m : M in_stream A) bs a cs b : takes m bs a -> bs = cs -> a = b -> takes m cs b.
Proof. by intros H <- <-. Qed.
Ltac take1 :=
  lazymatch goal with
  | |- takes ReadByte _ _ => apply takes_byte
  | |- takes ReadInt32 _ _ => apply takes_int32
  | |- takes ReadInt64 _ _ => apply takes_int64
  | |- takes (skip_string _) _ _ => apply takes_skip7; assumption
  end.
Ltac takes_fields := repeat (lazymatch goal with |- takes (mbind _ _) (_ ++ _) _ => eapply takes_bind; [solve [take1]|] end).

Lemma takes_extra x : extra_ok x -> takes read_extra (extra_bytes x) (x_type x :: x_data x).
Proof.
  intros (Hx & _). unfold read_extra, extra_bytes. change (?a :: ?l) with ([a] ++ l) at 1. takes_fields.
  apply takes_bytes. cbn [length]. rewrite u8_id by lia. lia.
Qed.
Lemma takes_extras xs : Forall extra_ok xs -> takes (read_extras (length xs)) (concat (map extra_bytes xs)) (map (fun x => x_type x :: x_data x) xs).
Proof.
  induction 1 as [|x xs Hx Hxs IH]; [apply takes_ret|]. cbn [length read_extras map concat].
  eapply takes_bind; [by apply takes_extra|]. eapply takes_eq; [eapply takes_bind; [exact IH|apply takes_ret]|by rewrite app_nil_r|done].
Qed.

Lemma u32_i32_id v : is_u32 v -> u32 (i32 v) = v.
Proof. intros Hv. rewrite u32_i32. apply u32_id. exact Hv. Qed.
Lemma mask_u32 times : is_u32 (ack_mask times).
Proof.
  unfold ack_mask. apply (for_loop_inv (fun _ acks => is_u32 acks)); [unfold is_u32; lia|]. intros i acks _ Ha. unfold mask_body.
  case_decide; [apply u32_is_u32|]. destruct (dltb _ _); [|exact Ha]. by apply lor_is_u32.
Qed.

Lemma u32_id' v : is_u32 v -> u32 v = v.
Proof. intros Hv. by apply u32_id. Qed.

Lemma takes_seqs {A} (f : Z -> Z -> Z -> M in_stream A) l pseq bs a : link_ok l -> is_u32 pseq ->
  takes (f (i32 (lastRemoteSeq l)) (i32 pseq) (i32 (ack_mask (recvPacketTimes l)))) bs a ->
  takes (ackId ← ReadInt32; pseq ← ReadInt32; acks ← ReadInt32; f ackId pseq acks) (seqs_bytes l pseq ++ bs) a.
Proof. intros _ _ H. unfold seqs_bytes. rewrite <- !app_assoc. takes_fields. exact H. Qed.

Lemma takes_init nd l pseq type length randomID randBytes : link_ok l -> waiting l = true -> is_byte type -> is_u32 pseq ->
  0 <= length < 2 ^ 24 -> List.length randBytes = 7%nat -> forall v,
  takes (read_header nd (linkCallID l) v) (header_bytes l pseq type length randomID randBytes)
    (Parsed type 0 (lastRemoteSeq l) pseq (ack_mask (recvPacketTimes l)) length).
Proof.
  intros Hl Hw Hty Hp Hlen Hr v. unfold header_bytes. rewrite Hw. unfold read_header, prefix_bytes. rewrite <- !app_assoc. takes_fields.
  rewrite u32_i32_id by (unfold is_u32; done). rewrite decide_True by done. unfold read_init_header. takes_fields.
  rewrite (app_assoc [7]). takes_fields. pose proof (flags_waiting l type length Hw Hty) as F. cbv zeta in F.
  destruct F as (F1 & F2 & F3 & F4 & F5 & F6 & F7 & F8). rewrite u32_i32, F2, F3, F4, F5. cbn [andb negb]. rewrite F1.
  eapply takes_bind; [apply takes_bytes, (lo_call _ Hl)|]. rewrite decide_False by (intros N; by apply N).
  destruct (lo_seqs _ Hl) as [S1 S2]. unfold read_seqs. apply takes_seqs; [done|done|]. rewrite F6. takes_fields.
  rewrite u32_i32_id by (unfold is_u32; done). rewrite decide_False by (intros N; by apply N).
  unfold read_tail. rewrite F7, F8. cbn [when]. rewrite !u32_i32_id by (first [done|apply mask_u32]).
  eapply takes_eq; [eapply takes_bind; [apply takes_ret|]|apply app_nil_l|reflexivity].
  destruct (decide (0 < length)) as [H0|H0]; [rewrite bool_decide_eq_true_2 by done|rewrite bool_decide_eq_false_2 by done].
  - eapply takes_eq; [eapply takes_bind; [by apply takes_tl|apply takes_ret]|apply app_nil_r|reflexivity].
  - replace length with 0 by lia. eapply takes_eq; [eapply takes_bind; apply takes_ret|reflexivity|reflexivity].
Qed.

Lemma takes_extras_bytes xs : Forall extra_ok xs -> (length xs <= 255)%nat ->
  exists pflags bs, extras_bytes xs = [pflags] ++ bs /\ takes (read_header_extras pflags) bs (map (fun x => x_type x :: x_data x) xs).
Proof.
  intros Hx Hn. unfold extras_bytes. destruct (decide (xs = [])) as [->|Hne].
  - exists 0, []. split; [done|]. apply takes_ret.
  - exists XPFLAG_HAS_EXTRA, (u8 (Z.of_nat (length xs)) :: concat (map extra_bytes xs)). split; [done|].
    unfold read_header_extras. cbn [has]. change (has XPFLAG_HAS_EXTRA XPFLAG_HAS_EXTRA) with true. cbv iota.
    change (?a :: ?l) with ([a] ++ l). takes_fields. rewrite u8_id, Nat2Z.id by lia. by apply takes_extras.
Qed.

(** What a packet written by [l] parses to. *)
Definition header_of (l : link) (pseq type length : Z) : Z -> parsed := fun pflags =>
  Parsed type pflags (lastRemoteSeq l) pseq (ack_mask (recvPacketTimes l)) (if waiting l then length else length + 13).
Definition extras_of (l : link) : list (list Z) :=
  if waiting l then [] else if decide (6 <= linkPeerVersion l) then map (fun x => x_type x :: x_data x) (currentExtras l) else [].

Lemma takes_simple nd l pseq type length randomID randBytes v pflags callID : link_ok l -> is_byte type -> is_u32 pseq ->
  0 <= length < 2 ^ 24 - 13 -> List.length randBytes = 7%nat ->
  takes (read_header nd callID v) (prefix_bytes TLID_SIMPLE_AUDIO_BLOCK randomID randBytes ++ tl_length (length + 13) ++ [type] ++
      seqs_bytes l pseq ++ (if decide (6 <= v) then [pflags] else []))
    (Parsed type (if decide (6 <= v) then pflags else 0) (lastRemoteSeq l) pseq (ack_mask (recvPacketTimes l)) (length + 13)).
Proof.
  intros Hl Hty Hp Hlen Hr. destruct (lo_seqs _ Hl) as [S1 S2]. unfold read_header, prefix_bytes. rewrite <- !app_assoc. takes_fields.
  rewrite u32_i32_id by (unfold is_u32; done). rewrite decide_False by done. rewrite decide_True by done. unfold read_simple_header.
  takes_fields. rewrite (app_assoc [7]). takes_fields. eapply takes_bind; [apply takes_tl; lia|]. takes_fields.
  apply takes_seqs; [done|done|]. rewrite !u32_i32_id by (first [done|apply mask_u32]).
  case_decide; (eapply takes_eq; [eapply takes_bind; [first [apply takes_byte|apply takes_ret]|apply takes_ret]|done|done]).
Qed.

Lemma takes_packet nd l pseq type length randomID randBytes v : link_ok l -> is_byte type -> is_u32 pseq ->
  0 <= length < 2 ^ 24 - 13 -> List.length randBytes = 7%nat -> (6 <= v <-> 6 <= linkPeerVersion l) ->
  exists pflags, takes (read_packet nd (linkCallID l) v) (header_bytes l pseq type length randomID randBytes)
    (header_of l pseq type length pflags, extras_of l).
Proof.
  intros Hl Hty Hp Hlen Hr Hv. unfold read_packet, header_of, extras_of. destruct (waiting l) eqn:Hw.
  { exists 0. assert (0 <= length < 2 ^ 24) as Hlen' by lia.
    eapply takes_eq; [eapply takes_bind; [exact (takes_init nd l pseq type length randomID randBytes Hl Hw Hty Hp Hlen' Hr v)|]|apply app_nil_r|reflexivity].
    eapply takes_eq; [eapply takes_bind; apply takes_ret|done|done]. }
  unfold header_bytes. rewrite Hw, bool_decide_decide. destruct (lo_extras _ Hl) as [Hx Hn].
  destruct (decide (6 <= linkPeerVersion l)) as [H6|H6].
  - destruct (takes_extras_bytes _ Hx Hn) as (pflags & bs & -> & Hbs). exists pflags.
    pose proof (takes_simple nd l pseq type length randomID randBytes v pflags (linkCallID l) Hl Hty Hp Hlen Hr) as T.
    rewrite decide_True in T by (by apply Hv). rewrite decide_True in T by (by apply Hv).
    eapply takes_eq; [eapply takes_bind; [exact T|]; eapply takes_bind; [exact Hbs|apply takes_ret]| |reflexivity].
    by rewrite app_nil_r, <- !app_assoc.
  - exists 0. pose proof (takes_simple nd l pseq type length randomID randBytes v 0 (linkCallID l) Hl Hty Hp Hlen Hr) as T.
    rewrite decide_False in T by (by rewrite Hv). rewrite decide_False in T by (by rewrite Hv).
    eapply takes_eq; [eapply takes_bind; [exact T|]; eapply takes_bind; [apply takes_ret|apply takes_ret]|by rewrite !app_nil_r|reflexivity].
Qed.

(** a packet written by one end is read back by the other, in both formats: the
    packet type, the sequence numbers, the acknowledgement mask, the length and the
    extras are the ones of the sender, and exactly the data is left to read. The
    sender keeps its invariant and only its record of sent packets, its congestion
    state and the first packet of each new extra change. *)
Theorem header_roundtrip (nd : bool) (a : link) (pseq type v : Z) (data after : list Z) (randomID : Z) (randBytes : list Z) (time : double) (o : out_stream)
  (Ha : link_ok a) (Ho : out_ok o) (Htime : good_time time) (Htype : is_byte type) (Hseq : is_u32 pseq)
  (Hdata : Z.of_nat (length data) < 2 ^ 24 - 13) (Hrand : length randBytes = 7%nat) (Hv : 6 <= v <-> 6 <= linkPeerVersion a)
  (Hroom : room (length (header_bytes a pseq type (Z.of_nat (length data)) randomID randBytes) + length data) o) :
  exists o' c pflags s',
    frame nd pseq type data randomID randBytes time (a, o) = (Value tt, (sent_link pseq time c a, o')) /\
    link_ok (sent_link pseq time c a) /\
    read_packet nd (linkCallID a) v (InStream (written o' ++ after) (length (written o))) =
      (Value (header_of a pseq type (Z.of_nat (length data)) pflags, extras_of a), s') /\
    rest s' = data ++ after.
Proof.
  set (n := Z.of_nat (length data)) in *. assert (0 <= n < 2 ^ 24 - 13) as Hn by lia.
  destruct (emits_header nd a pseq type n randomID randBytes time Ha Htime Htype Hseq Hn) as (c & Hc & E).
  destruct (takes_packet nd a pseq type n randomID randBytes v Ha Htype Hseq Hn Hrand Hv) as (pflags & T).
  assert (emits (frame nd pseq type data randomID randBytes time) a (header_bytes a pseq type n randomID randBytes ++ data) (sent_link pseq time c a)) as F.
  { unfold frame. fold n. rewrite u32_id by lia. eapply emits_bind; [exact E|apply emits_bytes]. }
  destruct (F o Ho) as (o' & E' & A); [by rewrite length_app|]. destruct A as (_ & A & _).
  assert (rest (InStream (written o' ++ after) (length (written o))) = header_bytes a pseq type n randomID randBytes ++ data ++ after) as R.
  { unfold rest. cbn [i_buffer i_offset]. rewrite A, <- !app_assoc. apply drop_app_length. }
  exists o', c, pflags, (advance (length (header_bytes a pseq type n randomID randBytes)) (InStream (written o' ++ after) (length (written o)))).
  split; [exact E'|]. split.
  { unfold sent_link. apply note_sent_ok. apply link_ok_conctl; [|done]. destruct (waiting a); [done|by apply stamped_ok]. }
  split; [exact (T _ _ R)|]. by apply (rest_advance_app _ _ _ _ R).
Qed.

(** ** The acknowledgement mask *)

Lemma bit_spec x n : 0 <= n -> negb (bool_decide (Z.land (Z.shiftr x n) 1 = 0)) = Z.testbit x n.
Proof.
  intros Hn. pose proof (bit_clear x (Z.to_nat n)) as B. rewrite Z2Nat.id in B by done.
  destruct (Z.testbit x n) eqn:E; [rewrite bool_decide_eq_false_2; [done|]; intros F; apply B in F; congruence|].
  by rewrite bool_decide_eq_true_2 by (by apply B).
Qed.

Lemma mask_bits times n : (n <= 31)%nat -> forall m, 0 <= m ->
  Z.testbit (for_loop 0 n (mask_body times) 0) m = bool_decide (1 <= m <= Z.of_nat n) && dltb d0 (nth (n - Z.to_nat m) times d0).
Proof.
  induction n as [|n IH]; intros Hn m Hm.
  - rewrite for_loop_0, Z.testbit_0_l, bool_decide_eq_false_2 by lia. done.
  - rewrite for_loop_S. cbn [Nat.add]. unfold mask_body at 1. rewrite decide_True by lia. set (acks := for_loop 0 n _ 0) in *.
    assert (forall m, 0 <= m -> Z.testbit (if dltb d0 (nth n times d0) then Z.lor acks 1 else acks) m =
              bool_decide (0 <= m <= Z.of_nat n) && dltb d0 (nth (n - Z.to_nat m) times d0)) as H.
    { clear m Hm. intros m Hm. destruct (decide (m = 0)) as [->|Hm0].
      - rewrite bool_decide_eq_true_2 by lia. replace (n - Z.to_nat 0)%nat with n by lia. cbn [andb].
        specialize (IH ltac:(lia) 0 ltac:(lia)). rewrite (bool_decide_eq_false_2 (1 <= 0 <= Z.of_nat n)) in IH by lia. cbn [andb] in IH.
        destruct (dltb d0 (nth n times d0)) eqn:E; [by rewrite Z.lor_spec, IH|exact IH].
      - replace (bool_decide (0 <= m <= Z.of_nat n)) with (bool_decide (1 <= m <= Z.of_nat n)) by (apply bool_decide_ext; lia).
        rewrite <- IH by lia. destruct (dltb d0 (nth n times d0)); [|done]. rewrite Z.lor_spec.
        change 1 with (2 ^ 0). rewrite (Z.pow2_bits_false 0) by lia. by rewrite orb_false_r. }
    unfold u32. change 0xffffffff with (Z.ones 32). rewrite Z.land_spec.
    destruct (decide (m < 32)) as [Hm32|Hm32].
    + rewrite Z.ones_spec_low, andb_true_r by lia. destruct (decide (m = 0)) as [->|Hm0].
      * rewrite Z.shiftl_spec_low, bool_decide_eq_false_2 by lia. done.
      * rewrite Z.shiftl_spec_high, H by lia. f_equal; [apply bool_decide_ext; lia|]. do 2 f_equal. lia.
    + rewrite Z.ones_spec_high, andb_false_r by lia. rewrite bool_decide_eq_false_2 by lia. done.
Qed.
(** Bit [31 - i] of the mask is set exactly when slot [i] of the window is. *)
Lemma ack_mask_bit times i : (i < 32)%nat -> Z.testbit (ack_mask times) (31 - Z.of_nat i) = dltb d0 (nth i times d0).
Proof.
  intros Hi. unfold ack_mask. rewrite for_loop_S. cbn [Nat.add]. unfold mask_body at 1. rewrite decide_False by lia.
  assert (forall b, Z.testbit (if (b : bool) then Z.lor (for_loop 0 31 (mask_body times) 0) 1 else for_loop 0 31 (mask_body times) 0) (31 - Z.of_nat i) =
            Z.testbit (for_loop 0 31 (mask_body times) 0) (31 - Z.of_nat i) || (b && bool_decide (i = 31)%nat)) as E.
  { intros [|]; [|by rewrite orb_false_r]. rewrite Z.lor_spec. f_equal. change 1 with (2 ^ 0). rewrite Z.pow2_bits_eqb by lia. cbn [andb].
    case_bool_decide; lia. }
  rewrite E, mask_bits by lia. destruct (decide (i = 31)%nat) as [->|Hne].
  - rewrite bool_decide_eq_false_2 by lia. rewrite bool_decide_eq_true_2 by done. apply andb_true_r.
  - rewrite (bool_decide_eq_true_2 (1 <= _ <= _)) by lia. rewrite (bool_decide_eq_false_2 (i = 31%nat)) by done.
    rewrite andb_false_r, orb_false_r. cbn [andb]. do 2 f_equal. lia.
Qed.

(** ** The window of received packets *)

(** Sequence numbers are counted without wrapping around: packet [k] carries
    [u32 k]. *)
Lemma seqgt_unwrap k m : - 2 ^ 31 < k - m < 2 ^ 31 -> seqgt (u32 k) (u32 m) = bool_decide (m < k).
Proof.
  intros H. change (2 ^ 31) with 2147483648 in H. unfold seqgt. change (SEQ_MAX / 2) with 2147483647. rewrite !u32_mod.
  apply eq_true_iff_eq. rewrite orb_true_iff, !andb_true_iff, !bool_decide_eq_true. Z.div_mod_to_equations. lia.
Qed.
Lemma u32_sub k m : 0 <= k - m < 2 ^ 32 -> u32 (u32 k - u32 m) = k - m.
Proof. intros H. change (2 ^ 32) with 4294967296 in H. rewrite !u32_mod. Z.div_mod_to_equations. lia. Qed.

Lemma length_shift_times d now times : (1 <= d <= 31)%nat -> length times = 32%nat -> length (shift_times d now times) = 32%nat.
Proof.
  intros Hd Hl. unfold shift_times. rewrite length_insert, length_app, length_take. case_decide; rewrite ?length_replicate, ?length_take; lia.
Qed.
Lemma nth_shift_times d now times i : (1 <= d <= 31)%nat -> length times = 32%nat -> (i < 32)%nat ->
  nth i (shift_times d now times) d0 = if decide (i = 0%nat) then now else if decide (i < d)%nat then d0 else nth (i - d) times d0.
Proof.
  intros Hd Hl Hi. unfold shift_times. set (head := if decide (1 < d)%nat then replicate d d0 else take d times).
  assert (length head = d) as Hh by (unfold head; case_decide; rewrite ?length_replicate, ?length_take; lia).
  rewrite !nth_lookup. destruct (decide (i = 0%nat)) as [->|Hi0].
  - rewrite list_lookup_insert_eq; [done|]. rewrite length_app. lia.
  - rewrite list_lookup_insert_ne by lia. destruct (decide (i < d)%nat) as [Hid|Hid].
    + rewrite lookup_app_l by lia. unfold head. rewrite decide_True by lia. by rewrite lookup_replicate_2.
    + rewrite lookup_app_r by lia. rewrite lookup_take_lt by lia. by rewrite Hh, <- nth_lookup.
Qed.

(** Packets arrive one after the other; the numbers that are let through. *)
Fixpoint receive_all (arrivals : list (Z * double)) (l : link) : list Z * link :=
  match arrivals with
  | [] => ([], l)
  | (k, now) :: arrivals =>
      match receive_seq (u32 k) now l with
      | (Value true, l) => let '(acc, l) := receive_all arrivals l in (k :: acc, l)
      | (_, l) => receive_all arrivals l
      end
  end.
(** No packet is more than 31 ahead of the latest one. *)
Fixpoint no_jump (last : Z) (ks : list Z) : bool :=
  match ks with [] => true | k :: ks => bool_decide (k <= last + 31) && no_jump (Z.max last k) ks end.
Definition latest (base : Z) (ks : list Z) : Z := foldl Z.max base ks.

(** The window after the numbers [acc] have been let through, the latest being [m]. *)
Record window_ok (base m : Z) (acc : list Z) (l : link) : Prop := {
  wo_last : lastRemoteSeq l = u32 m;
  wo_length : length (recvPacketTimes l) = 32%nat;
  wo_times : Forall (fun t => t = d0 \/ good_time t) (recvPacketTimes l);
  wo_nodup : NoDup acc;
  wo_range : forall k, k ∈ acc -> base < k <= m;
  wo_slots : forall i, (i < 32)%nat -> dltb d0 (nth i (recvPacketTimes l) d0) = true <-> m - Z.of_nat i ∈ acc
}.

Lemma slot_good t : t = d0 \/ good_time t -> deqb t d0 = negb (dltb d0 t).
Proof. intros [->|H]; [done|]. rewrite (good_time_not_zero t H). by destruct H as [-> _]. Qed.
Lemma nth_slot l i : Forall (fun t => t = d0 \/ good_time t) l -> nth i l d0 = d0 \/ good_time (nth i l d0).
Proof. intros H. rewrite nth_lookup. destruct (l !! i) eqn:E; [by apply (Forall_lookup_1 _ _ _ _ H E)|by left]. Qed.

Lemma shift_times_ok base m acc l k now : window_ok base m acc l -> m < k <= m + 31 -> base < k -> good_time now ->
  window_ok base k (k :: acc) (l <| packetsReceived := u32 (packetsReceived l + 1) |>
    <| recvPacketTimes := shift_times (Z.to_nat (k - m)) now (recvPacketTimes l) |> <| lastRemoteSeq := u32 k |>).
Proof.
  intros [W1 W2 W3 W4 W5 W6] Hk Hb Hnow. set (d := Z.to_nat (k - m)). assert (1 <= d <= 31)%nat as Hd by (unfold d; lia).
  split; cbn [lastRemoteSeq recvPacketTimes set]; [done|by apply length_shift_times|..].
  - apply Forall_forall. intros t Ht. apply list_elem_of_lookup in Ht as [i Hi].
    assert (i < 32)%nat as Hi32 by (apply lookup_lt_Some in Hi; by rewrite length_shift_times in Hi).
    pose proof (nth_shift_times d now _ i Hd W2 Hi32) as E. rewrite nth_lookup, Hi in E. cbn [default from_option id] in E. rewrite E.
    case_decide; [by right|]. case_decide; [by left|]. by apply nth_slot.
  - constructor; [|done]. intros Hin. apply W5 in Hin. lia.
  - intros j Hj. apply elem_of_cons in Hj as [->|Hj]; [lia|]. apply W5 in Hj. lia.
  - intros i Hi. rewrite nth_shift_times by done. rewrite elem_of_cons. case_decide as Hi0; [subst i; rewrite Z.sub_0_r|].
    { split; [by left|]. intros _. apply Hnow. }
    case_decide as Hid.
    + split; [done|]. intros [E|E]; [lia|]. apply W5 in E. lia.
    + rewrite W6 by lia. replace (k - Z.of_nat i) with (m - Z.of_nat (i - d)) by lia. split; [by right|]. intros [E|E]; [lia|done].
Qed.

Lemma window_fill_ok base m acc l k now : window_ok base m acc l -> base < k <= m -> m - 32 < k -> k ∉ acc -> good_time now ->
  window_ok base m (k :: acc) (l <| packetsReceived := u32 (packetsReceived l + 1) |>
    <| recvPacketTimes := <[Z.to_nat (m - k) := now]> (recvPacketTimes l) |>).
Proof.
  intros [W1 W2 W3 W4 W5 W6] Hk Hw Hn Hnow. split; cbn [lastRemoteSeq recvPacketTimes set]; [done|by rewrite length_insert|..].
  - apply Forall_insert; [done|by right].
  - by constructor.
  - intros j Hj. apply elem_of_cons in Hj as [->|Hj]; [lia|]. by apply W5.
  - intros i Hi. rewrite nth_lookup, elem_of_cons. destruct (decide (i = Z.to_nat (m - k))) as [->|Hne].
    + rewrite list_lookup_insert_eq by lia. cbn [default]. split; [|intros _; apply Hnow]. intros _. left. lia.
    + rewrite list_lookup_insert_ne by lia. rewrite <- nth_lookup, W6 by done. split; [by right|]. intros [E|E]; [lia|done].
Qed.

(** One packet: it is let through exactly when it is new and not too old. *)
Lemma receive_step base m acc l k now : window_ok base m acc l -> base <= m < base + 2 ^ 31 -> base < k < base + 2 ^ 31 ->
  k <= m + 31 -> good_time now ->
  exists l', receive_seq (u32 k) now l = (Value (bool_decide ((k ∉ acc) /\ m - 32 < k)), l') /\
    window_ok base (Z.max m k) (if bool_decide ((k ∉ acc) /\ m - 32 < k) then k :: acc else acc) l'.
Proof.
  intros W Hm Hk Hj Hnow. change (2 ^ 31) with 2147483648 in *. pose proof W as [W1 W2 W3 W4 W5 W6]. unfold receive_seq. cbv zeta.
  cbn [lastRemoteSeq recvPacketTimes set]. rewrite W1, seqgt_unwrap by lia. destruct (decide (m < k)) as [Hlt|Hlt].
  - rewrite bool_decide_eq_true_2 by done. rewrite u32_sub by lia. rewrite decide_False by lia.
    rewrite bool_decide_eq_true_2 by (split; [intros Hin; apply W5 in Hin; lia|lia]).
    rewrite Z.max_r by lia. eexists. split; [reflexivity|]. apply shift_times_ok; [done|lia|lia|done].
  - rewrite bool_decide_eq_false_2 by done. rewrite u32_sub by lia. rewrite Z.max_l by lia. case_decide as H32.
    + rewrite (slot_good (nth (Z.to_nat (m - k)) (recvPacketTimes l) d0)) by (by apply nth_slot). rewrite negb_involutive.
      pose proof (W6 (Z.to_nat (m - k)) ltac:(lia)) as S. replace (m - Z.of_nat (Z.to_nat (m - k))) with k in S by lia.
      destruct (dltb d0 (nth (Z.to_nat (m - k)) (recvPacketTimes l) d0)) eqn:E.
      * rewrite bool_decide_eq_false_2 by (intros [N _]; by apply N, S). eexists. split; [reflexivity|]. by split.
      * assert (k ∉ acc) as Hn by (intros N; apply S in N; done). rewrite bool_decide_eq_true_2 by (split; [done|lia]).
        eexists. split; [reflexivity|]. apply window_fill_ok; [done|lia|lia|done|done].
    + rewrite bool_decide_eq_false_2 by (intros [_ N]; lia). eexists. split; [reflexivity|]. by split.
Qed.

Lemma receive_all_ok base arrivals : forall m acc l, window_ok base m acc l -> base <= m < base + 2 ^ 31 ->
  Forall (fun '(k, now) => base < k < base + 2 ^ 31 /\ good_time now) arrivals -> no_jump m (map fst arrivals) = true ->
  let '(new, l') := receive_all arrivals l in
  exists acc', acc' ≡ₚ new ++ acc /\ window_ok base (latest m (map fst arrivals)) acc' l'.
Proof.
  induction arrivals as [|[k now] arrivals IH]; intros m acc l W Hm Ha Hj; [by exists acc|].
  apply Forall_cons in Ha as [[Hk Hnow] Ha]. cbn [map fst no_jump] in Hj. apply andb_true_iff in Hj as [Hj1 Hj2]. apply bool_decide_eq_true in Hj1.
  destruct (receive_step base m acc l k now W Hm Hk Hj1 Hnow) as (l' & E & W'). cbn [receive_all map fst latest foldl]. rewrite E.
  specialize (IH _ _ _ W' ltac:(lia) Ha Hj2). case_bool_decide.
  - destruct (receive_all arrivals l') as [new l'']. destruct IH as (acc' & P & W''). exists acc'. split; [|exact W''].
    rewrite P. cbn [app]. symmetry. apply Permutation_middle.
  - destruct (receive_all arrivals l') as [new l'']. exact IH.
Qed.

(** A call that has received nothing since packet [base]. *)
Definition nothing_received (base : Z) (l : link) : Prop :=
  lastRemoteSeq l = u32 base /\ recvPacketTimes l = replicate 32 d0.
Lemma window_start base l : nothing_received base l -> window_ok base base [] l.
Proof.
  intros [E1 E2]. split; [done|by rewrite E2|..].
  - rewrite E2. apply Forall_replicate. by left.
  - constructor.
  - intros k Hk. by apply elem_of_nil in Hk.
  - intros i Hi. rewrite E2, nth_lookup, lookup_replicate_2 by lia. split; [done|]. intros Hk. by apply elem_of_nil in Hk.
Qed.

(** C27: whatever packets arrive, duplicated, reordered and lost, but never more than 31
    ahead of the latest one: each sequence number is let through at most once and
    only if it arrived; a number never seen is let through whenever it is at most
    31 behind; and the acknowledgement mask lists exactly the numbers let through
    among the last 32. *)
Theorem receive_window (base : Z) (l : link) (arrivals : list (Z * double))
  (Hl : nothing_received base l) (Ha : Forall (fun '(k, now) => base < k < base + 2 ^ 31 /\ good_time now) arrivals)
  (Hj : no_jump base (map fst arrivals) = true) :
  let '(accepted, l') := receive_all arrivals l in
  let m := latest base (map fst arrivals) in
  NoDup accepted /\ lastRemoteSeq l' = u32 m /\
  (forall i, (i < 32)%nat -> Z.testbit (ack_mask (recvPacketTimes l')) (31 - Z.of_nat i) = true <-> m - Z.of_nat i ∈ accepted) /\
  (forall k now, base < k < base + 2 ^ 31 -> k <= m + 31 -> good_time now ->
     (receive_seq (u32 k) now l').1 = Value (bool_decide ((k ∉ accepted) /\ m - 32 < k))).
Proof.
  assert (base <= latest base (map fst arrivals) < base + 2 ^ 31) as Hm.
  { unfold latest. assert (forall ks m, base <= m < base + 2 ^ 31 -> Forall (fun k => base < k < base + 2 ^ 31) ks -> base <= foldl Z.max m ks < base + 2 ^ 31) as H.
    { induction ks as [|k ks IH]; intros m Hm Hks; [done|]. apply Forall_cons in Hks as [Hk Hks]. cbn [foldl]. apply IH; [lia|done]. }
    apply H; [lia|]. apply Forall_map. eapply Forall_impl; [exact Ha|]. intros [k now] [Hk _]. exact Hk. }
  pose proof (receive_all_ok base arrivals base [] l (window_start base l Hl) ltac:(lia) Ha Hj) as R.
  destruct (receive_all arrivals l) as [accepted l']. destruct R as (acc & P & W). rewrite app_nil_r in P. cbv zeta.
  assert (forall k, k ∈ acc <-> k ∈ accepted) as Hin by (intros k; by rewrite P).
  split; [rewrite <- P; apply W|]. split; [apply W|]. split.
  - intros i Hi. rewrite ack_mask_bit by done. rewrite (wo_slots _ _ _ _ W i Hi). apply Hin.
  - intros k now Hk Hkm Hnow. destruct (receive_step _ _ _ _ k now W Hm Hk Hkm Hnow) as (l'' & -> & _). cbn [fst]. f_equal.
    apply bool_decide_ext. by rewrite Hin.
Qed.

(** A link as it is before anything has been sent or received, in state [st]. *)
Definition fresh_link (st : call_state) (callID : list Z) (version : Z) : link :=
  Link st callID version 1 0 0 0 [] (replicate 32 d0) [] [] (new_congestion 1024 0) 0 0 (replicate 32 d0) false 0 false 0.

Lemma receive_window_witness :
  let l := fresh_link STATE_ESTABLISHED (zeros 16) 9 in
  let arrivals := map (fun k => (k, of_Z 5)) [1; 3; 3; 2; 1; 4] in
  fst (receive_all arrivals l) = [1; 3; 2; 4] /\ NoDup (fst (receive_all arrivals l)).
Proof.
  split; [vm_compute; reflexivity|].
  pose proof (receive_window 0 (fresh_link STATE_ESTABLISHED (zeros 16) 9) (map (fun k => (k, of_Z 5)) [1; 3; 3; 2; 1; 4])) as R.
  destruct (receive_all _ _) as [accepted l']. cbn [fst]. apply R.
  - split; reflexivity.
  - change (2 ^ 31) with 2147483648. repeat (apply Forall_cons_2; [split; [lia|split; reflexivity]|]). constructor.
  - vm_compute. reflexivity.
Defined.

(** After a jump the packet that jumped is let through once more. *)
Example jump_duplicate :
  fst (receive_all [(1, of_Z 5); (50, of_Z 6); (50, of_Z 7); (50, of_Z 8)] (fresh_link STATE_ESTABLISHED (zeros 16) 9)) = [1; 50; 50].
Proof. vm_compute. reflexivity. Qed.

(** ** Acknowledgements *)

(** The mask says that packet [s] has arrived, as the receiver of the mask reads it. *)
Definition mask_covers (ackId acks : Z) (bits : list nat) (s : Z) : bool :=
  existsb (fun i => Z.testbit acks (31 - Z.of_nat i) && bool_decide (s = u32 (ackId - (Z.of_nat i + 1)))) bits.
Definition ack_mark (ackId acks : Z) (now : double) (bits : list nat) (p : RecentOutgoingPacket) : RecentOutgoingPacket :=
  if deqb (rp_ackTime p) d0 && mask_covers ackId acks bits (rp_seq p) then Recent (rp_seq p) (rp_sendTime p) now else p.

Lemma ack_pass_mark ackId acks now i l : forall c, good_time now -> (i < 31)%nat ->
  fst (ack_pass ackId acks now i l c) = map (ack_mark ackId acks now [i]) l.
Proof.
  intros c Hnow Hi. revert c. induction l as [|p l IH]; intros c; [done|]. cbn [ack_pass map].
  assert (fst (ack_recent ackId acks now i p c) = ack_mark ackId acks now [i] p) as E.
  { unfold ack_recent, ack_mark, mask_covers. rewrite bit_spec by lia. cbn [existsb]. rewrite orb_false_r.
    destruct (deqb (rp_ackTime p) d0); cbn [negb andb]; [|done]. by destruct (_ && _). }
  destruct (ack_recent ackId acks now i p c) as [p' c']. cbn [fst] in E. subst p'.
  specialize (IH c'). destruct (ack_pass ackId acks now i l c') as [l' c'']. cbn [fst] in *. by rewrite IH.
Qed.
Lemma ack_mark_app ackId acks now bits i p : good_time now ->
  ack_mark ackId acks now [i] (ack_mark ackId acks now bits p) = ack_mark ackId acks now (bits ++ [i]) p.
Proof.
  intros Hnow. unfold ack_mark, mask_covers. rewrite existsb_app. destruct (deqb (rp_ackTime p) d0) eqn:E; cbn [andb]; [|by rewrite E].
  set (before := existsb _ bits). destruct before; cbn [orb rp_ackTime]; [by rewrite (good_time_not_zero _ Hnow)|by rewrite E].
Qed.
Lemma ack_all_mark ackId acks now l c n : good_time now -> (n <= 31)%nat ->
  fst (for_loop 0 n (ack_body ackId acks now) (l, c)) = map (ack_mark ackId acks now (seq 0 n)) l.
Proof.
  intros Hnow Hn. induction n as [|n IH].
  - rewrite for_loop_0. cbn [fst seq]. rewrite <- (map_id l) at 1. apply map_ext. intros p. unfold ack_mark, mask_covers. cbn [existsb].
    by rewrite andb_false_r.
  - rewrite for_loop_S. cbn [Nat.add]. unfold ack_body at 1. rewrite ack_pass_mark by (done || lia). rewrite IH by lia.
    rewrite map_map, seq_S. apply map_ext. intros p. by apply ack_mark_app.
Qed.

Lemma mask_covers_window times m k : length times = 32%nat -> m - 31 <= k < m ->
  mask_covers (u32 m) (ack_mask times) (seq 0 31) (u32 k) = dltb d0 (nth (Z.to_nat (m - k - 1)) times d0).
Proof.
  intros Ht Hk. unfold mask_covers. apply eq_true_iff_eq. rewrite existsb_exists. split.
  - intros (i & Hi & E). apply in_seq in Hi. apply andb_true_iff in E as [E1 E2]. apply bool_decide_eq_true in E2.
    rewrite ack_mask_bit in E1 by lia. rewrite <- E1. do 2 f_equal. rewrite !u32_mod in E2. Z.div_mod_to_equations. lia.
  - intros E. exists (Z.to_nat (m - k - 1)). split; [apply in_seq; lia|]. rewrite ack_mask_bit by lia. rewrite E. cbn [andb].
    apply bool_decide_eq_true. rewrite !u32_mod. rewrite Z2Nat.id by lia. Z.div_mod_to_equations. lia.
Qed.

(** Fields the acknowledgements leave alone. *)
Lemma ack_extras_recent l : recentOutgoingPackets (ack_extras l) = recentOutgoingPackets l.
Proof.
  unfold ack_extras. cbn [recentOutgoingPackets set]. generalize (filter (fun x => extra_acked (lastRemoteAckSeq l) x = true) (currentExtras l)).
  intros xs. revert l. induction xs as [|x xs IH]; intros l; [done|]. cbn [foldl]. rewrite IH. unfold ProcessAcknowledgedOutgoingExtra.
  case_decide; [|done]. by destruct (didReceiveGroupCallKeyAck l).
Qed.
(** [ack_packets] and [ack_queued] as updates of the link. *)
Definition with_acks (ackId : Z) (r : list RecentOutgoingPacket) (c : congestion) (l : link) : link :=
  l <| lastRemoteAckSeq := ackId |> <| recentOutgoingPackets := r |> <| conctl := c |>.
Lemma with_acks_recent ackId r c l : recentOutgoingPackets (with_acks ackId r c l) = r.
Proof. reflexivity. Qed.
Lemma ack_all_31 ackId acks now l c : good_time now -> fst (ack_all ackId acks now l c) = map (ack_mark ackId acks now (seq 0 31)) l.
Proof. intros Hnow. unfold ack_all. by apply ack_all_mark. Qed.
Lemma ack_packets_recent ackId acks now l : good_time now ->
  recentOutgoingPackets (ack_packets ackId acks now l) = map (ack_mark ackId acks now (seq 0 31)) (recentOutgoingPackets l).
Proof.
  intros Hnow. unfold ack_packets. rewrite <- (ack_all_31 ackId acks now _ (PacketAcknowledged ackId now (conctl l)) Hnow).
  generalize (ack_all ackId acks now (recentOutgoingPackets l) (PacketAcknowledged ackId now (conctl l))). intros rc. apply with_acks_recent.
Qed.
Lemma ack_queued_recent l : recentOutgoingPackets (ack_queued l) = recentOutgoingPackets l.
Proof. reflexivity. Qed.
Lemma resume_recent l : recentOutgoingPackets (resume_sending l) = recentOutgoingPackets l.
Proof. unfold resume_sending. by destruct (_ && _). Qed.
Lemma receive_acks_recent ackId acks now l : good_time now -> seqgt ackId (lastRemoteAckSeq l) = true ->
  recentOutgoingPackets (receive_acks ackId acks now l) = map (ack_mark ackId acks now (seq 0 31)) (recentOutgoingPackets l).
Proof.
  intros Hnow Hs. unfold receive_acks. rewrite Hs, ack_extras_recent, ack_queued_recent, ack_packets_recent by done.
  by rewrite resume_recent.
Qed.

(** C28: one exchange of acknowledgements. The receiver has let through the numbers
    [accepted]; the sender reads its mask one bit off, so of the packets sent and
    not yet acknowledged exactly those are marked whose successor has been let
    through, whether they have arrived themselves or not. *)
Theorem ack_exchange (base : Z) (b : link) (arrivals : list (Z * double)) (a : link) (now : double)
  (Hb : nothing_received base b) (Harr : Forall (fun '(k, now) => base < k < base + 2 ^ 31 /\ good_time now) arrivals)
  (Hj : no_jump base (map fst arrivals) = true) (Hnow : good_time now) :
  let '(accepted, b') := receive_all arrivals b in
  let m := latest base (map fst arrivals) in
  seqgt (lastRemoteSeq b') (lastRemoteAckSeq a) = true ->
  let a' := receive_acks (lastRemoteSeq b') (ack_mask (recvPacketTimes b')) now a in
  forall i k sendTime, recentOutgoingPackets a !! i = Some (Recent (u32 k) sendTime d0) -> m - 31 <= k < m ->
    recentOutgoingPackets a' !! i = Some (Recent (u32 k) sendTime (if decide (k + 1 ∈ accepted) then now else d0)).
Proof.
  pose proof (receive_window base b arrivals Hb Harr Hj) as R. 
  pose proof (receive_all_ok base arrivals base [] b (window_start base b Hb) ltac:(lia) Harr Hj) as W.
  destruct (receive_all arrivals b) as [accepted b']. destruct R as (_ & R2 & R3 & _). destruct W as (acc & _ & W).
  cbv zeta in *. intros Hs i k sendTime Hi Hk. rewrite receive_acks_recent by done. rewrite list_lookup_fmap, Hi. cbn [fmap option_fmap option_map].
  f_equal. unfold ack_mark. cbn [rp_ackTime rp_seq rp_sendTime]. change (deqb d0 d0) with true. cbn [andb].
  rewrite R2, mask_covers_window by (first [apply W|exact Hk]).
  specialize (R3 (Z.to_nat (latest base (map fst arrivals) - k - 1)) ltac:(lia)). rewrite ack_mask_bit in R3 by lia.
  replace (latest base (map fst arrivals) - Z.of_nat (Z.to_nat (latest base (map fst arrivals) - k - 1))) with (k + 1) in R3 by lia.
  destruct (dltb d0 (nth _ (recvPacketTimes b') d0)) eqn:E.
  - rewrite decide_True by (by apply R3). done.
  - rewrite decide_False; [done|]. intros N. by apply R3 in N.
Qed.

(** Packets 1, 3 and 4 arrive, 2 is lost: the sender believes that 2 and 3 have
    arrived, and not 1. *)
Lemma ack_exchange_witness :
  let sender := (fresh_link STATE_ESTABLISHED (zeros 16) 9) <| recentOutgoingPackets := map (fun k => Recent k (of_Z 1) d0) [1; 2; 3; 4] |> in
  let '(accepted, b) := receive_all [(1, of_Z 5); (3, of_Z 5); (4, of_Z 6)] (fresh_link STATE_ESTABLISHED (zeros 16) 9) in
  let a := receive_acks (lastRemoteSeq b) (ack_mask (recvPacketTimes b)) (of_Z 7) sender in
  accepted = [1; 3; 4] /\ recentOutgoingPackets a !! 1%nat = Some (Recent 2 (of_Z 1) (of_Z 7)).
Proof.
  intros sender. pose proof (ack_exchange 0 (fresh_link STATE_ESTABLISHED (zeros 16) 9) [(1, of_Z 5); (3, of_Z 5); (4, of_Z 6)] sender (of_Z 7)) as R.
  assert (fst (receive_all [(1, of_Z 5); (3, of_Z 5); (4, of_Z 6)] (fresh_link STATE_ESTABLISHED (zeros 16) 9)) = [1; 3; 4]) as Ea by (vm_compute; reflexivity).
  assert (lastRemoteSeq (snd (receive_all [(1, of_Z 5); (3, of_Z 5); (4, of_Z 6)] (fresh_link STATE_ESTABLISHED (zeros 16) 9))) = 4) as El by (vm_compute; reflexivity).
  destruct (receive_all _ _) as [accepted b]. cbn [fst snd] in *. split; [exact Ea|].
  specialize (R ltac:(split; reflexivity) ltac:(change (2 ^ 31) with 2147483648; repeat (apply Forall_cons_2; [split; [lia|split; reflexivity]|]); constructor)
    ltac:(reflexivity) ltac:(split; reflexivity)). cbv zeta in R. rewrite El in R |- *.
  specialize (R ltac:(vm_compute; reflexivity) 1%nat 2 (of_Z 1) ltac:(vm_compute; reflexivity) ltac:(cbn; lia)).
  rewrite Ea in R. exact R.
Defined.

(** ** Extras ride until they are acknowledged *)

Lemma ack_packets_seq ackId acks now l : lastRemoteAckSeq (ack_packets ackId acks now l) = ackId.
Proof.
  unfold ack_packets. generalize (ack_all ackId acks now (recentOutgoingPackets l) (PacketAcknowledged ackId now (conctl l))). by intros rc.
Qed.
Lemma ack_packets_extras ackId acks now l : currentExtras (ack_packets ackId acks now l) = currentExtras l.
Proof.
  unfold ack_packets. generalize (ack_all ackId acks now (recentOutgoingPackets l) (PacketAcknowledged ackId now (conctl l))). by intros rc.
Qed.
Lemma resume_extras l : currentExtras (resume_sending l) = currentExtras l.
Proof. unfold resume_sending. by destruct (_ && _). Qed.
Lemma ack_queued_seq l : lastRemoteAckSeq (ack_queued l) = lastRemoteAckSeq l.
Proof. reflexivity. Qed.
Lemma ack_queued_extras l : currentExtras (ack_queued l) = currentExtras l.
Proof. reflexivity. Qed.
Lemma ack_extras_extras l : currentExtras (ack_extras l) = filter (fun x => extra_acked (lastRemoteAckSeq l) x = false) (currentExtras l).
Proof. reflexivity. Qed.
Lemma receive_acks_extras ackId acks now l : seqgt ackId (lastRemoteAckSeq l) = true ->
  currentExtras (receive_acks ackId acks now l) = filter (fun x => extra_acked ackId x = false) (currentExtras l).
Proof.
  intros Hs. unfold receive_acks. rewrite Hs, ack_extras_extras, ack_queued_seq, ack_queued_extras.
  by rewrite ack_packets_seq, ack_packets_extras, resume_extras.
Qed.

Definition payload_of (x : UnacknowledgedExtraData) : list Z := x_type x :: x_data x.
(** The established call and the packets it has sent, each with its extras: it sends
    packets with increasing numbers, queues extras, takes acknowledgements of
    packets it has sent, and otherwise leaves the extras alone. *)
Inductive extra_step : link * list (Z * list (list Z)) -> link * list (Z * list (list Z)) -> Prop :=
  | step_send l h k time c : (forall j xs, (j, xs) ∈ h -> j < k) -> 0 < k < 2 ^ 31 -> extra_step (l, h) (sent_link k time c l, h ++ [(k, extras_of l)])
  | step_extra l h data type : extra_step (l, h) (SendExtra data type l, h)
  | step_acks l h ackId xs acks now : (ackId, xs) ∈ h -> extra_step (l, h) (receive_acks ackId acks now l, h)
  | step_other l l' h : currentExtras l' = currentExtras l -> (waiting l = false -> waiting l' = false) ->
      (6 <= linkPeerVersion l -> 6 <= linkPeerVersion l') -> extra_step (l, h) (l', h).

Definition carried (s : link * list (Z * list (list Z))) : Prop :=
  let '(l, h) := s in
  (forall j xs, (j, xs) ∈ h -> 0 < j < 2 ^ 31) /\
  (forall x, x ∈ currentExtras l -> x_first x <> 0 -> 0 < x_first x < 2 ^ 31 /\ waiting l = false /\ 6 <= linkPeerVersion l /\
     forall j xs, (j, xs) ∈ h -> x_first x <= j -> payload_of x ∈ xs).

Lemma replace_extra_in type data l l' x : replace_extra type data l = Some l' -> x ∈ l' -> x ∈ l \/ x = Extra type data 0.
Proof.
  revert l'. induction l as [|y l IH]; intros l' E Hx; [discriminate|]. cbn [replace_extra] in E. case_decide.
  - injection E as <-. apply elem_of_cons in Hx as [->|Hx]; [by right|left; by right].
  - destruct (replace_extra type data l) as [k|] eqn:Ek; [|discriminate]. cbn in E. injection E as <-.
    apply elem_of_cons in Hx as [->|Hx]; [left; by left|]. destruct (IH k eq_refl Hx) as [H'|H']; [left; by right|by right].
Qed.
Lemma SendExtra_in data type l x : x ∈ currentExtras (SendExtra data type l) -> x ∈ currentExtras l \/ x = Extra type data 0.
Proof.
  unfold SendExtra. destruct (replace_extra type data (currentExtras l)) as [xs|] eqn:E; cbn [currentExtras set].
  - by apply replace_extra_in.
  - intros Hx. apply elem_of_app in Hx as [Hx|Hx]; [by left|]. apply list_elem_of_singleton in Hx. by right.
Qed.
Lemma SendExtra_same data type l : waiting (SendExtra data type l) = waiting l /\ linkPeerVersion (SendExtra data type l) = linkPeerVersion l.
Proof. unfold SendExtra. by destruct (replace_extra type data (currentExtras l)). Qed.
Lemma receive_acks_same ackId acks now l : waiting (receive_acks ackId acks now l) = waiting l /\ linkPeerVersion (receive_acks ackId acks now l) = linkPeerVersion l.
Proof.
  unfold receive_acks. destruct (seqgt ackId (lastRemoteAckSeq l)); [|done].
  assert (forall l, waiting (ack_extras l) = waiting l /\ linkPeerVersion (ack_extras l) = linkPeerVersion l) as He.
  { clear. intros l. unfold ack_extras. generalize (filter (fun x => extra_acked (lastRemoteAckSeq l) x = true) (currentExtras l)).
    generalize (filter (fun x => extra_acked (lastRemoteAckSeq l) x = false) (currentExtras l)). intros ys xs.
    assert (forall l, waiting (foldl (fun l x => ProcessAcknowledgedOutgoingExtra x l) l xs) = waiting l /\
              linkPeerVersion (foldl (fun l x => ProcessAcknowledgedOutgoingExtra x l) l xs) = linkPeerVersion l) as H; [|exact (H l)].
    induction xs as [|x xs IH]; intros l'; [done|]. cbn [foldl]. destruct (IH (ProcessAcknowledgedOutgoingExtra x l')) as [-> ->].
    unfold ProcessAcknowledgedOutgoingExtra. case_decide; [|done]. by destruct (didReceiveGroupCallKeyAck l'). }
  destruct (He (ack_queued (ack_packets ackId acks now (resume_sending l)))) as [-> ->]. unfold ack_packets, ack_queued.
  generalize (ack_all ackId acks now (recentOutgoingPackets (resume_sending l)) (PacketAcknowledged ackId now (conctl (resume_sending l)))).
  intros rc. unfold resume_sending. by destruct (_ && _).
Qed.
Lemma sent_link_extras k time c l : currentExtras (sent_link k time c l) =
  if negb (waiting l) && bool_decide (6 <= linkPeerVersion l) then map (stamp k) (currentExtras l) else currentExtras l.
Proof. unfold sent_link, stamped. destruct (waiting l); [done|]. rewrite bool_decide_decide. by case_decide. Qed.
Lemma sent_link_same k time c l : waiting (sent_link k time c l) = waiting l /\ linkPeerVersion (sent_link k time c l) = linkPeerVersion l.
Proof. unfold sent_link, stamped. destruct (waiting l) eqn:E; [by split|]. case_decide; by split. Qed.

Lemma carried_step s t : extra_step s t -> carried s -> carried t.
Proof.
  intros Hst. destruct Hst as [l h k time c Hk Hr|l h data type|l h ackId xs acks now Ha|l l' h He Hw Hv]; unfold carried; intros [C1 C2].
  - destruct (sent_link_same k time c l) as [-> ->]. split.
    { intros j xs Hj. apply elem_of_app in Hj as [Hj|Hj]; [by apply (C1 j xs)|]. apply list_elem_of_singleton in Hj. by injection Hj as -> ->. }
    intros x Hx Hf. rewrite sent_link_extras in Hx. unfold extras_of.
    destruct (waiting l) eqn:Ew; cbn [negb andb] in Hx; [destruct (C2 x Hx Hf) as (_ & C3 & _); discriminate|]. rewrite bool_decide_decide in Hx.
    destruct (decide (6 <= linkPeerVersion l)) as [H6|H6]; [|destruct (C2 x Hx Hf) as (_ & _ & C3 & _); contradiction].
    apply list_elem_of_fmap in Hx as (y & -> & Hy).
    assert (payload_of (stamp k y) = payload_of y) as Ep by (unfold stamp; by case_decide).
    assert (payload_of y ∈ map (fun x => x_type x :: x_data x) (currentExtras l)) as Hin by (apply list_elem_of_fmap; by exists y).
    rewrite Ep. unfold stamp in Hf |- *. destruct (decide (x_first y = 0)) as [H0|H0]; cbn [x_first].
    + split; [done|]. split; [done|]. split; [done|]. intros j xs Hj Hkj.
      apply elem_of_app in Hj as [Hj|Hj]; [specialize (Hk j xs Hj); lia|]. apply list_elem_of_singleton in Hj. by injection Hj as -> ->.
    + destruct (C2 y Hy H0) as (C3 & _ & _ & C4). split; [done|]. split; [done|]. split; [done|]. intros j xs Hj Hkj.
      apply elem_of_app in Hj as [Hj|Hj]; [by apply (C4 j)|]. apply list_elem_of_singleton in Hj. by injection Hj as -> ->.
  - destruct (SendExtra_same data type l) as [-> ->]. split; [done|]. intros x Hx Hf. apply SendExtra_in in Hx as [Hx| ->]; [by apply C2|done].
  - destruct (receive_acks_same ackId acks now l) as [-> ->]. split; [done|]. intros x Hx Hf.
    destruct (seqgt ackId (lastRemoteAckSeq l)) eqn:Es; [|unfold receive_acks in Hx; rewrite Es in Hx; by apply C2].
    rewrite receive_acks_extras in Hx by done. apply list_elem_of_filter in Hx as [_ Hx]. by apply C2.
  - split; [done|]. intros x Hx Hf. rewrite He in Hx. destruct (C2 x Hx Hf) as (C3 & C4 & C5 & C6). split; [done|]. split; [by apply Hw|]. split; [by apply Hv|done].
Qed.

(** C29: an extra is dropped only when it has been delivered: in every state reachable
    from a call without extras, an acknowledgement of a packet that was sent
    removes only extras that packet carried, and it removes every extra that has
    ridden on that packet or an earlier one. *)
Theorem extras_delivered (l0 l : link) (h : list (Z * list (list Z))) (ackId : Z) (xs : list (list Z)) (acks : Z) (now : double)
  (H0 : currentExtras l0 = []) (Hr : rtc extra_step (l0, []) (l, h)) (Ha : (ackId, xs) ∈ h) (Hs : seqgt ackId (lastRemoteAckSeq l) = true) :
  forall x, x ∈ currentExtras l ->
    (x ∉ currentExtras (receive_acks ackId acks now l) -> payload_of x ∈ xs) /\
    (x ∉ currentExtras (receive_acks ackId acks now l) <-> x_first x <> 0 /\ x_first x <= ackId).
Proof.
  assert (carried (l, h)) as [C1 C2].
  { assert (carried (l0, [])) as C0.
    { split; [intros j ys Hj|intros x Hx]; [by apply elem_of_nil in Hj|]. rewrite H0 in Hx. by apply elem_of_nil in Hx. }
    clear - Hr C0. revert C0. induction Hr as [s|s t u Hst _ IH]; [done|]. intros C. apply IH. by apply (carried_step _ _ Hst). }
  intros x Hx. rewrite receive_acks_extras by done.
  assert (x ∉ filter (fun x => extra_acked ackId x = false) (currentExtras l) <-> extra_acked ackId x = true) as Hf.
  { rewrite list_elem_of_filter. destruct (extra_acked ackId x); split; try done; [by intros _ [N _]|]. intros N. exfalso. by apply N. }
  assert (extra_acked ackId x = true <-> x_first x <> 0 /\ x_first x <= ackId) as Hack.
  { unfold extra_acked. rewrite andb_true_iff, orb_true_iff, negb_true_iff, bool_decide_eq_false, bool_decide_eq_true.
    split; intros [Hn Hd]; (split; [exact Hn|]); destruct (C2 x Hx Hn) as (Hr' & _); pose proof (C1 _ _ Ha) as Hr2.
    - rewrite <- (u32_id ackId), <- (u32_id (x_first x)), seqgt_unwrap, bool_decide_eq_true in Hd by lia.
      rewrite !u32_id in Hd by lia. lia.
    - rewrite <- (u32_id ackId), <- (u32_id (x_first x)), seqgt_unwrap, bool_decide_eq_true by lia. rewrite !u32_id by lia. lia. }
  rewrite Hf. split; [|exact Hack]. intros E. apply Hack in E as [Hn Hle].
  destruct (C2 x Hx Hn) as (_ & _ & _ & C3). by apply (C3 ackId).
Qed.

Lemma extras_delivered_witness :
  let l1 := SendExtra [1; 2] 5 (fresh_link STATE_ESTABLISHED (zeros 16) 9) in
  let l2 := sent_link 1 (of_Z 3) (new_congestion 1024 0) l1 in
  currentExtras (receive_acks 1 0 (of_Z 4) l2) = [] /\ [5; 1; 2] ∈ extras_of l1.
Proof.
  intros l1 l2. split; [vm_compute; reflexivity|].
  refine (proj1 (extras_delivered (fresh_link STATE_ESTABLISHED (zeros 16) 9) l2 [(1, extras_of l1)] 1 (extras_of l1) 0 (of_Z 4)
    eq_refl _ _ _ (Extra 5 [1; 2] 1) _) _).
  - eapply rtc_l; [apply (step_extra _ _ [1; 2] 5)|]. apply rtc_once. apply (step_send l1 [] 1 (of_Z 3) (new_congestion 1024 0)); [|lia].
    intros j xs Hj. by apply elem_of_nil in Hj.
  - by left.
  - vm_compute. reflexivity.
  - assert (currentExtras l2 = [Extra 5 [1; 2] 1]) as -> by (vm_compute; reflexivity). by left.
  - assert (currentExtras (receive_acks 1 0 (of_Z 4) l2) = []) as -> by (vm_compute; reflexivity). apply not_elem_of_nil.
Defined.

Lemma header_roundtrip_witness :
  let a := SendExtra [1; 2] 5 (fresh_link STATE_ESTABLISHED (zeros 16) 9) in
  exists o' c pflags s',
    frame false 1 PKT_NOP [10; 11] 77 (repeat 3 7) (of_Z 3) (a, output_on (zeros 1500)) = (Value tt, (sent_link 1 (of_Z 3) c a, o')) /\
    read_packet false (zeros 16) 9 (InStream (written o' ++ []) 0) = (Value (Parsed PKT_NOP pflags 0 1 0 15, [[5; 1; 2]]), s') /\ rest s' = [10; 11].
Proof.
  intros a. destruct (header_roundtrip false a 1 PKT_NOP 9 [10; 11] [] 77 (repeat 3 7) (of_Z 3) (output_on (zeros 1500))) as (o' & c & pflags & s' & E & _ & R & S).
  - split; try reflexivity.
    + split; apply (bool_decide_unpack _); vm_compute; exact I.
    + apply new_congestion_ok.
    + split; [|cbn; lia]. apply Forall_cons_2; [|constructor]. split; [cbn; lia|]. split; [unfold is_byte; cbn; lia|unfold is_u32; cbn; lia].
    + cbn. lia.
  - unfold out_ok. cbn [o_offset output_on]. lia.
  - split; reflexivity.
  - unfold is_byte, PKT_NOP. lia.
  - unfold is_u32. lia.
  - cbn [length]. lia.
  - reflexivity.
  - reflexivity.
  - intros _. apply (bool_decide_unpack _). vm_compute. exact I.
  - exists o', c, pflags, s'. split; [exact E|]. split; [exact R|exact S].
Defined.
