(* ===== verification/VoipState.v ===== *)
(** * libtgvoip: the state of a call

    The controller of [src/submodules/libtgvoip/VoIPController.cpp] and
    [VoIPController.h]: endpoints, streams, the send queue and its buffers, and the
    small operations the handlers share. The members of the class are grouped into
    records. Endpoints are shared objects: an endpoint is its index in a store that
    only grows. Sockets, audio devices and the callbacks of the application are
    effects, logged in order; the clock is read once per operation. *)

From stdpp Require Import gmap.
From S2P Require Import Prelude Exn VoipBuffers Double VoipDefs Congestion Jitter VoipCrypto VoipPacket.

(** ** Endpoints *)

Inductive ep_type := TYPE_UDP_P2P_INET | TYPE_UDP_P2P_LAN | TYPE_UDP_RELAY | TYPE_TCP_RELAY.
#[export] Instance ep_type_eq_dec : EqDecision ep_type.
Proof. solve_decision. Defined.

(** [e_address] is 0 and [e_v6address] sixteen zeros when empty. *)
Record Endpoint := mkEndpoint {
  e_id : Z; e_port : Z; e_address : Z; e_v6address : list Z; e_type : ep_type; e_peerTag : list Z;
  e_lastPingTime : double; e_lastPingSeq : Z; e_rtts : list double; e_averageRTT : double; e_udpPongCount : Z
}.
#[export] Instance endpoint_eta : Eta Endpoint := fun e => mkEndpoint
  (e_id e) (e_port e) (e_address e) (e_v6address e) (e_type e) (e_peerTag e)
  (e_lastPingTime e) (e_lastPingSeq e) (e_rtts e) (e_averageRTT e) (e_udpPongCount e).

Definition emptyV6 : list Z := zeros 16.
(** The constructor; [forceTcp] is the configured [force_tcp]. *)
Definition new_endpoint (forceTcp : bool) (id port address : Z) (v6 : list Z) (type : ep_type) (peerTag : list Z) : Endpoint :=
  let type := if decide (type = TYPE_UDP_RELAY) then if forceTcp then TYPE_TCP_RELAY else type else type in
  mkEndpoint id port address v6 type peerTag d0 0 (replicate 6 d0) d0 0.
Definition IsIPv6Only (e : Endpoint) : bool := bool_decide (e_address e = 0) && negb (bool_decide (e_v6address e = emptyV6)).
(** [GetAddress]. *)
Definition GetAddress (e : Endpoint) : Z + list Z := if IsIPv6Only e then inr (e_v6address e) else inl (e_address e).
Definition is_relay (e : Endpoint) : bool := bool_decide (e_type e = TYPE_UDP_RELAY) || bool_decide (e_type e = TYPE_TCP_RELAY).
Definition blank_endpoint : Endpoint := mkEndpoint 0 0 0 emptyV6 TYPE_UDP_P2P_INET [] d0 0 [] d0 0.

Inductive udp_state := UDP_UNKNOWN | UDP_PING_SENT | UDP_AVAILABLE | UDP_NOT_AVAILABLE | UDP_BAD.
#[export] Instance udp_state_eq_dec : EqDecision udp_state.
Proof. solve_decision. Defined.

Record routes := Routes {
  store : list Endpoint; endpoints : list nat;
  currentEndpoint : option nat; preferredRelay : option nat; peerPreferredRelay : option nat;
  useTCP : bool; useUDP : bool; allowP2p : bool; didAddTcpRelays : bool; setCurrentEndpointToTCP : bool;
  waitingForRelayPeerInfo : bool; publicEndpointsReqTime : double; publicEndpointsReqCount : Z;
  udpConnectivityState : udp_state; udpPingCount : Z; lastUdpPingTime : double;
  useIPv6 : bool; peerIPv6Available : bool; didSendIPv6Endpoint : bool; myIPv6 : list Z
}.
#[export] Instance routes_eta : Eta routes := fun r => Routes
  (store r) (endpoints r) (currentEndpoint r) (preferredRelay r) (peerPreferredRelay r)
  (useTCP r) (useUDP r) (allowP2p r) (didAddTcpRelays r) (setCurrentEndpointToTCP r)
  (waitingForRelayPeerInfo r) (publicEndpointsReqTime r) (publicEndpointsReqCount r)
  (udpConnectivityState r) (udpPingCount r) (lastUdpPingTime r)
  (useIPv6 r) (peerIPv6Available r) (didSendIPv6Endpoint r) (myIPv6 r).

Definition ep (r : routes) (i : nat) : Endpoint := nth i (store r) blank_endpoint.
Definition set_ep (i : nat) (f : Endpoint -> Endpoint) (r : routes) : routes := r <| store := alter f i (store r) |>.
(** [endpoints.push_back(shared_ptr<Endpoint>(new Endpoint(...)))]. *)
Definition push_endpoint (e : Endpoint) (r : routes) : routes :=
  r <| store := store r ++ [e] |> <| endpoints := endpoints r ++ [length (store r)] |>.
(** The first endpoint of the vector with the property. *)
Definition find_endpoint (f : Endpoint -> bool) (r : routes) : option nat :=
  snd <$> list_find (fun i => f (ep r i) = true) (endpoints r).

Definition GetEndpointByType (type : ep_type) (r : routes) : option nat :=
  match (if decide (type = TYPE_UDP_RELAY) then preferredRelay r else None) with
  | Some i => Some i
  | None => find_endpoint (fun e => bool_decide (e_type e = type)) r
  end.
Definition GetEndpointByID (id : Z) (r : routes) : option nat := find_endpoint (fun e => bool_decide (e_id e = id)) r.

(** Erase the first endpoint with the property; a call that uses it falls back to
    the preferred relay. *)
Definition erase_endpoint (f : Endpoint -> bool) (r : routes) : routes :=
  match list_find (fun i => f (ep r i) = true) (endpoints r) with
  | Some (k, i) =>
      let r := if decide (currentEndpoint r = Some i) then r <| currentEndpoint := preferredRelay r |> else r in
      r <| endpoints := delete k (endpoints r) |>
  | None => r
  end.

(** ** Streams and audio *)

Record Stream := mkStream {
  st_id : Z; st_type : Z; st_codec : Z; st_enabled : bool; st_extraECEnabled : bool; st_frameDuration : Z;
  st_jitterBuffer : option jitter
}.
#[export] Instance stream_eta : Eta Stream := fun s => mkStream
  (st_id s) (st_type s) (st_codec s) (st_enabled s) (st_extraECEnabled s) (st_frameDuration s) (st_jitterBuffer s).

Record encoder_state := Encoder { en_bitrate : Z; en_packetLoss : Z; en_secondary : bool }.
#[export] Instance encoder_eta : Eta encoder_state := fun e => Encoder (en_bitrate e) (en_packetLoss e) (en_secondary e).

(** [audioInput] and [audioOutput] are null, or the answers of [IsInitialized]
    and, for the output, [IsPlaying]. *)
Record media := Media {
  incomingStreams : list Stream; outgoingStreams : list Stream;
  audioInput : option bool; audioOutput : option (bool * bool); encoder : option encoder_state; echoCanceller : bool;
  audioOutStarted : bool; micMuted : bool; audioTimestampIn : Z; audioTimestampOut : Z;
  shittyInternetMode : bool; ecAudioPackets : list (list Z); maxBitrate : Z
}.
#[export] Instance media_eta : Eta media := fun m => Media
  (incomingStreams m) (outgoingStreams m) (audioInput m) (audioOutput m) (encoder m) (echoCanceller m)
  (audioOutStarted m) (micMuted m) (audioTimestampIn m) (audioTimestampOut m)
  (shittyInternetMode m) (ecAudioPackets m) (maxBitrate m).

(** ** The send queue *)

(** [pp_data] is the index of a buffer of the pool, or null. *)
Record PendingOutgoingPacket := Pending { pp_seq : Z; pp_type : Z; pp_len : nat; pp_data : option nat; pp_endpoint : Z }.
Record queue := Queue { sendQueue : list PendingOutgoingPacket; pool : buffer_pool }.
#[export] Instance queue_eta : Eta queue := fun q => Queue (sendQueue q) (pool q).

Definition QUEUE_CAPACITY : nat := 21.
(** [BlockingQueue::Put] without an overflow callback. *)
Definition Put (thing : PendingOutgoingPacket) : M queue unit := fun q =>
  let l := sendQueue q ++ [thing] in
  if decide (QUEUE_CAPACITY < length l)%nat then (Aborted, q <| sendQueue := l |>) else (Value tt, q <| sendQueue := l |>).
(** [GetInternal] of a queue that is not empty. *)
Definition GetBlocking : M queue (option PendingOutgoingPacket) := fun q =>
  match sendQueue q with
  | [] => (Value None, q)
  | p :: l => (Value (Some p), q <| sendQueue := l |>)
  end.

(** ** The rest *)

Inductive call_error := ERROR_UNKNOWN | ERROR_INCOMPATIBLE | ERROR_TIMEOUT | ERROR_AUDIO_IO | ERROR_PROXY.
Inductive net_type :=
  | NET_TYPE_UNKNOWN | NET_TYPE_GPRS | NET_TYPE_EDGE | NET_TYPE_3G | NET_TYPE_HSPA | NET_TYPE_LTE | NET_TYPE_WIFI
  | NET_TYPE_ETHERNET | NET_TYPE_OTHER_HIGH_SPEED | NET_TYPE_OTHER_LOW_SPEED | NET_TYPE_DIALUP | NET_TYPE_OTHER_MOBILE.
#[export] Instance net_type_eq_dec : EqDecision net_type.
Proof. solve_decision. Defined.
Inductive data_saving := DATA_SAVING_NEVER | DATA_SAVING_MOBILE | DATA_SAVING_ALWAYS.
Definition IS_MOBILE_NETWORK (n : net_type) : bool :=
  match n with
  | NET_TYPE_GPRS | NET_TYPE_EDGE | NET_TYPE_3G | NET_TYPE_HSPA | NET_TYPE_LTE | NET_TYPE_OTHER_MOBILE => true
  | _ => false
  end.

Record session := Session {
  stateChangeTime : double; setEstablishedAt : double; lastRecvPacketTime : double; connectionInitTime : double;
  lastError : call_error; receivedInit : bool; receivedInitAck : bool;
  networkType : net_type; dataSavingMode : bool; dataSavingRequestedByPeer : bool; peerCapabilities : Z;
  didReceiveGroupCallKey : bool; didSendGroupCallKey : bool; didSendUpgradeRequest : bool; didInvokeUpgradeCallback : bool;
  lastReceivedExtrasByType : gmap Z (list Z); stopping : bool; activeNetItfName : list Z
}.
#[export] Instance session_eta : Eta session := fun s => Session
  (stateChangeTime s) (setEstablishedAt s) (lastRecvPacketTime s) (connectionInitTime s)
  (lastError s) (receivedInit s) (receivedInitAck s)
  (networkType s) (dataSavingMode s) (dataSavingRequestedByPeer s) (peerCapabilities s)
  (didReceiveGroupCallKey s) (didSendGroupCallKey s) (didSendUpgradeRequest s) (didInvokeUpgradeCallback s)
  (lastReceivedExtrasByType s) (stopping s) (activeNetItfName s).

Record quality := Quality {
  tickCount : Z; signalBarCount : Z; signalBarsHistory : list Z; sendLossCountHistory : list Z; prevSendLossCount : Z; recvLossCount : Z
}.
#[export] Instance quality_eta : Eta quality := fun q => Quality
  (tickCount q) (signalBarCount q) (signalBarsHistory q) (sendLossCountHistory q) (prevSendLossCount q) (recvLossCount q).

(** An address is an IPv4 address or the bytes of an IPv6 address; [Transmit] hands
    a packet to a socket, of TCP when [tcp] is set. *)
Inductive effect :=
  | ConnectionStateChanged (s : call_state) | GroupCallKeyReceived (key : list Z) | UpgradeToGroupCallRequested
  | SignalBarCountChanged (n : Z)
  | Transmit (tcp : bool) (address : Z + list Z) (port : Z) (data : list Z)
  | AudioInputStart | AudioInputStop | AudioOutputStart | AudioOutputStop | EchoEnable (b : bool)
  | EncoderStart (frameDuration : Z) | DecoderStart (frameDuration : Z) | CancelSelect | ActiveInterfaceChanged.

Record controller := Controller {
  c_link : link; c_keys : call_keys; c_routes : routes; c_media : media; c_queue : queue; c_session : session;
  c_quality : quality; c_log : list effect
}.
#[export] Instance controller_eta : Eta controller := fun c => Controller
  (c_link c) (c_keys c) (c_routes c) (c_media c) (c_queue c) (c_session c) (c_quality c) (c_log c).

(** What the application and the server configure, the answers of the socket and
    of new audio devices, and the memory a new jitter buffer is made of. *)
Class Config := {
  enableCallUpgrade : bool; dataSaving : data_saving; initTimeout : double; recvTimeout : double;
  GetInt : list Z -> Z -> Z; GetDouble : list Z -> double -> double; GetBoolean : list Z -> bool -> bool;
  newAudioInput : bool; newAudioOutput : bool * bool;
  GetLocalPort : Z; localAddress : Z;
  jitterMemory : list (list Z); jitterJunk : jitter
}.

(** Operations of one part of the controller. *)
Definition on_net {A} (m : M link A) : M controller A := zoom c_link (fun x c => c <| c_link := x |>) m.
Definition on_routes {A} (m : M routes A) : M controller A := zoom c_routes (fun x c => c <| c_routes := x |>) m.
Definition on_media {A} (m : M media A) : M controller A := zoom c_media (fun x c => c <| c_media := x |>) m.
Definition on_queue {A} (m : M queue A) : M controller A := zoom c_queue (fun x c => c <| c_queue := x |>) m.
Definition on_session {A} (m : M session A) : M controller A := zoom c_session (fun x c => c <| c_session := x |>) m.
Definition on_quality {A} (m : M quality A) : M controller A := zoom c_quality (fun x c => c <| c_quality := x |>) m.
Definition log (e : effect) : M controller unit := modify (fun c => c <| c_log := c_log c ++ [e] |>).
Definition peerVersionOf (c : controller) : Z := peerVersion (c_keys c).
(** [peerVersion] is kept both with the keys and with the link. *)
Definition SetPeerVersion (v : Z) : M controller unit :=
  modify (fun c => c <| c_link := (c_link c) <| linkPeerVersion := v |> |>
    <| c_keys := let k := c_keys c in CallKeys (encryptionKey k) (keyFingerprint k) (callID k) (isOutgoing k) (useMTProto2 k) v (connectionMaxLayer k) |>).
Definition SetMTProto2 : M controller unit :=
  modify (fun c => c <| c_keys := let k := c_keys c in CallKeys (encryptionKey k) (keyFingerprint k) (callID k) (isOutgoing k) true (peerVersion k) (connectionMaxLayer k) |>).
