(* ===== verification/VoipControl.v ===== *)
(** * libtgvoip: the operations of the call controller

    The methods of [VoIPController] that the application, the audio encoder, the
    send thread and the other handlers call: the state of the call, muting, the
    audio path, the initial packet, pings and the choice of relays, the send thread,
    endpoints and network changes. [now] is the clock, read once per operation; a
    null pointer that is followed, and a failed assertion, abort. *)

From S2P Require Import Prelude Exn VoipBuffers Double VoipDefs Congestion Jitter VoipCrypto VoipPacket VoipState.

(** ** Values of the server configuration *)

Section config.
Context `{cfg : Config}.

Definition maxAudioBitrate : Z := u32 (GetInt (str "audio_max_bitrate") 20000).
Definition maxAudioBitrateGPRS : Z := u32 (GetInt (str "audio_max_bitrate_gprs") 8000).
Definition maxAudioBitrateEDGE : Z := u32 (GetInt (str "audio_max_bitrate_edge") 16000).
Definition maxAudioBitrateSaving : Z := u32 (GetInt (str "audio_max_bitrate_saving") 8000).
Definition initAudioBitrate : Z := u32 (GetInt (str "audio_init_bitrate") 16000).
Definition initAudioBitrateGPRS : Z := u32 (GetInt (str "audio_init_bitrate_gprs") 8000).
Definition initAudioBitrateEDGE : Z := u32 (GetInt (str "audio_init_bitrate_edge") 8000).
Definition initAudioBitrateSaving : Z := u32 (GetInt (str "audio_init_bitrate_saving") 8000).
Definition audioBitrateStepIncr : Z := u32 (GetInt (str "audio_bitrate_step_incr") 1000).
Definition audioBitrateStepDecr : Z := u32 (GetInt (str "audio_bitrate_step_decr") 1000).
Definition minAudioBitrate : Z := u32 (GetInt (str "audio_min_bitrate") 8000).
Definition relaySwitchThreshold : double := GetDouble (str "relay_switch_threshold") (literal 8 10).
Definition p2pToRelaySwitchThreshold : double := GetDouble (str "p2p_to_relay_switch_threshold") (literal 6 10).
Definition relayToP2pSwitchThreshold : double := GetDouble (str "relay_to_p2p_switch_threshold") (literal 8 10).
Definition reconnectingTimeout : double := GetDouble (str "reconnecting_state_timeout") (of_Z 2).

(** The constructor. [key] are the members [SetEncryptionKey] sets later; members
    that are not initialised get a value nothing reads before it is written. *)
Definition audio_stream : Stream := mkStream 1 STREAM_TYPE_AUDIO CODEC_OPUS true false 60 None.
Definition new_link : link :=
  Link STATE_WAIT_INIT (zeros 16) 0 1 0 0 0 [] (replicate 32 d0) [] []
    (new_congestion (GetInt (str "audio_congestion_window") 1024) 0) 0 0 (replicate 32 d0) false 0 false 0.
Definition new_routes : routes :=
  Routes [] [] None None None false true true false false false d0 0 UDP_UNKNOWN 0 d0 false false false emptyV6.
Definition new_session : session :=
  Session d0 d0 d0 d0 ERROR_UNKNOWN false false NET_TYPE_UNKNOWN false false 0 false false false false ∅ false [].
Definition new_controller (mem : list (list Z)) : controller :=
  Controller new_link (CallKeys (zeros 256) (zeros 8) (zeros 16) false false 0 0) new_routes
    (Media [] [audio_stream] None None None false false false 0 0 false [] 0)
    (Queue [] (Pool 0 20 1024 mem)) new_session (Quality 0 0 (zeros 4) (zeros 32) 0 0) [].
End config.

(** ** Small operations *)

(** Follow a [shared_ptr]. *)
Definition deref {S} (p : option nat) : M S nat := match p with Some i => mret i | None => abort end.

(** The contents of a new [BufferOutputStream] after some writes. *)
Definition build {S} (size : nat) (m : M out_stream unit) : M S (list Z) := fun s =>
  match m (new_output size) with
  | (Value _, o) => (Value (written o), s)
  | (Thrown, _) => (Thrown, s)
  | (Aborted, _) => (Aborted, s)
  end.

Lemma build_writes {S} size m bytes (s : S) : writes m bytes -> build size m s = (Value bytes, s).
Proof. intros Hm. unfold build. by destruct (writes_new m bytes size Hm) as (o & -> & ->). Qed.

(** Take a buffer of the pool, write the packet into it and queue it; without a free
    buffer nothing happens. [number] gives the sequence number. *)
Definition write_buffer (b : nat) (m : M out_stream unit) : M queue nat := fun q =>
  let '(r, o) := m (output_on (nth b (p_mem (pool q)) [])) in
  let q := q <| pool := Pool (usedBuffers (pool q)) (bufferCount (pool q)) (p_size (pool q)) (<[b := o_buffer o]> (p_mem (pool q))) |> in
  (match r with Value _ => Value (o_offset o) | Thrown => Thrown | Aborted => Aborted end, q).
Definition take_buffer : M queue (option nat) := zoom pool (fun p q => q <| pool := p |>) Get.
Definition enqueue (type endpoint : Z) (number : M controller Z) (m : M out_stream unit) : M controller unit :=
  buf ← on_queue take_buffer;
  match buf with
  | Some b => len ← on_queue (write_buffer b m); pseq ← number; on_queue (Put (Pending pseq type len (Some b) endpoint))
  | None => mret tt
  end.
Definition next_seq : M controller Z := on_net GenerateOutSeq.

Definition update_routes (f : routes -> routes) : M controller unit := on_routes (modify f).
Definition update_media (f : media -> media) : M controller unit := on_media (modify f).
Definition update_session (f : session -> session) : M controller unit := on_session (modify f).
Definition update_link (f : link -> link) : M controller unit := on_net (modify f).

(** [SetState] without the last step, which [SetMicMute] must not take. *)
Definition enter_state (st : call_state) (now : double) : M controller unit :=
  update_link (fun l => l <| callState := st |>) ;;
  update_session (fun s => s <| stateChangeTime := now |>) ;;
  log (ConnectionStateChanged st).
Definition fail_with (e : call_error) (now : double) : M controller unit :=
  update_session (fun s => s <| lastError := e |>) ;; enter_state STATE_FAILED now.

Definition SendStreamFlags (s : Stream) : M controller unit :=
  let flags := if st_enabled s then Z.lor 0 STREAM_FLAG_ENABLED else 0 in
  let flags := if st_extraECEnabled s then Z.lor flags STREAM_FLAG_EXTRA_EC else flags in
  data ← build 5 (WriteByte (st_id s) ;; WriteInt32 flags);
  update_link (SendExtra data EXTRA_TYPE_STREAM_FLAGS).

(** Mute or unmute outgoing stream number [i] and tell the peer. *)
Definition mute_stream (mute : bool) (i : nat) : M controller unit :=
  c ← get;
  match outgoingStreams (c_media c) !! i with
  | Some s =>
      when (bool_decide (st_type s = STREAM_TYPE_AUDIO)) (
        let s := s <| st_enabled := negb mute |> in
        update_media (fun m => m <| outgoingStreams := <[i := s]> (outgoingStreams m) |>) ;;
        if decide (peerVersionOf c < 6)
        then update_link (SendPacketReliably PKT_STREAM_STATE (Some [st_id s; if mute then 0 else 1]) (literal 1 2) (of_Z 20) [])
        else SendStreamFlags s)
  | None => mret tt
  end.
Definition SetMicMute (mute : bool) (now : double) : M controller unit :=
  update_media (fun m => m <| micMuted := mute |>) ;;
  c ← get;
  when (bool_decide (audioInput (c_media c) <> None)) (log (if mute then AudioInputStop else AudioInputStart)) ;;
  if decide (audioInput (c_media c) = Some false) then fail_with ERROR_AUDIO_IO now else
  when (echoCanceller (c_media c)) (log (EchoEnable (negb mute))) ;;
  when (bool_decide (callState (c_link c) = STATE_ESTABLISHED))
    (iterate_list (mute_stream mute) (seq 0 (length (outgoingStreams (c_media c))))).
Definition SetState (st : call_state) (now : double) : M controller unit :=
  enter_state st now ;;
  when (bool_decide (st = STATE_ESTABLISHED)) (m ← gets c_media; SetMicMute (micMuted m) now).

Definition UpdateAudioOutputState : M controller unit :=
  m ← gets c_media;
  let areAnyAudioStreamsEnabled := existsb (fun s => bool_decide (st_type s = STREAM_TYPE_AUDIO) && st_enabled s) (incomingStreams m) in
  match audioOutput m with
  | Some (_, playing) =>
      when (negb (eqb playing areAnyAudioStreamsEnabled)) (log (if areAnyAudioStreamsEnabled then AudioOutputStart else AudioOutputStop))
  | None => mret tt
  end.

Section operations.
Context `{cfg : Config}.

Definition UpdateDataSavingState : M controller unit :=
  update_session (fun s => s <| dataSavingMode :=
    match dataSaving with
    | DATA_SAVING_ALWAYS => true
    | DATA_SAVING_MOBILE => IS_MOBILE_NETWORK (networkType s)
    | DATA_SAVING_NEVER => false
    end |>).

Definition set_bitrate (max init : Z) (m : media) : media :=
  match encoder m with
  | Some e => m <| maxBitrate := max |> <| encoder := Some (e <| en_bitrate := init |>) |>
  | None => m
  end.
Definition UpdateAudioBitrate : M controller unit :=
  s ← gets c_session;
  update_media (
    if dataSavingMode s || dataSavingRequestedByPeer s then set_bitrate maxAudioBitrateSaving initAudioBitrateSaving
    else if decide (networkType s = NET_TYPE_GPRS) then set_bitrate maxAudioBitrateGPRS initAudioBitrateGPRS
    else if decide (networkType s = NET_TYPE_EDGE) then set_bitrate maxAudioBitrateEDGE initAudioBitrateEDGE
    else set_bitrate maxAudioBitrate initAudioBitrate).

(** [OnAudioOutputReady] dereferences the first incoming stream. *)
Definition OnAudioOutputReady : M controller unit :=
  m ← gets c_media;
  match incomingStreams m with
  | s :: _ => log (DecoderStart (st_frameDuration s))
  | [] => abort
  end.
Definition StartAudio (now : double) : M controller unit :=
  m ← gets c_media;
  match outgoingStreams m with
  | [] => abort
  | outgoingAudioStream :: _ =>
      update_media (fun m => m <| audioInput := Some newAudioInput |> <| audioOutput := Some newAudioOutput |>
        <| echoCanceller := true |> <| encoder := Some (Encoder 32000 0 false) |>) ;;
      log (EncoderStart (st_frameDuration outgoingAudioStream)) ;;
      when (negb (micMuted m)) (log AudioInputStart) ;;
      if negb (micMuted m) && negb newAudioInput then fail_with ERROR_AUDIO_IO now
      else if negb (fst newAudioOutput) then fail_with ERROR_AUDIO_IO now
      else UpdateAudioBitrate ;; OnAudioOutputReady
  end.

(** ** Endpoints *)

(** [SendPublicEndpointsRequest(Endpoint&)]: the tag and 16 bytes of [0xFF]. *)
Definition SendRelayRequest (now : double) (i : nat) : M controller unit :=
  r ← gets c_routes;
  if negb (useUDP r) then mret tt else
  update_routes (fun r => r <| publicEndpointsReqTime := now |> <| waitingForRelayPeerInfo := true |>) ;;
  log (Transmit false (inl (e_address (ep r i))) (e_port (ep r i)) (take 16 (e_peerTag (ep r i)) ++ replicate 16 0xFF)).
Definition request_endpoint (now : double) (i : nat) : M controller unit :=
  r ← gets c_routes;
  when (bool_decide (e_type (ep r i) = TYPE_UDP_RELAY) && negb (IsIPv6Only (ep r i))) (SendRelayRequest now i).
Definition SendPublicEndpointsRequest (now : double) : M controller unit :=
  r ← gets c_routes;
  if negb (allowP2p r) then mret tt else iterate_list (request_endpoint now) (endpoints r).

Definition SendUdpPing (i : nat) : M controller unit :=
  r ← gets c_routes;
  let e := ep r i in
  if decide (e_type e <> TYPE_UDP_RELAY) then mret tt else
  data ← build 1024 (WriteBytes (take 16 (e_peerTag e)) ;; WriteInt32 (-1) ;; WriteInt32 (-1) ;; WriteInt32 (-1) ;; WriteInt32 (-2) ;; WriteInt64 12345);
  log (Transmit false (GetAddress e) (e_port e) data).

(** The ping of an endpoint whose last one is ten seconds old. *)
Definition ping_number (i : nat) : M controller Z :=
  pseq ← next_seq;
  update_routes (set_ep i (fun e => e <| e_lastPingSeq := pseq |>)) ;;
  mret pseq.
Definition ping_endpoint (now : double) (i : nat) : M controller unit :=
  r ← gets c_routes;
  when (dleb (of_Z 10) (dsub now (e_lastPingTime (ep r i)))) (
    enqueue PKT_PING (e_id (ep r i)) (ping_number i) (mret tt) ;;
    update_routes (set_ep i (fun e => e <| e_lastPingTime := now |>))).
(** The loop over the endpoints: [best] is the relay with the lowest weighted
    round-trip time so far, [minPing] that time. *)
Definition relay_weight (e : Endpoint) : double := if decide (e_type e = TYPE_UDP_RELAY) then of_Z 1 else of_Z 2.
Definition consider_relay (r : routes) (i : nat) (acc : double * nat) : double * nat :=
  let '(minPing, best) := acc in
  let e := ep r i in
  if bool_decide (e_type e = TYPE_UDP_RELAY) || (useTCP r && bool_decide (e_type e = TYPE_TCP_RELAY)) then
    let k := relay_weight e in
    if dltb d0 (e_averageRTT e) && dltb (dmul (e_averageRTT e) k) (dmul minPing relaySwitchThreshold)
    then (dmul (e_averageRTT e) k, i) else acc
  else acc.
Definition relay_step (now : double) (acc : double * nat) (i : nat) : M controller (double * nat) :=
  r ← gets c_routes;
  if bool_decide (e_type (ep r i) = TYPE_TCP_RELAY) && negb (useTCP r) then mret acc else
  ping_endpoint now i ;;
  r ← gets c_routes;
  mret (consider_relay r i acc).
(** Switching to another relay, and between relay and peer to peer. *)
Definition prefer_relay (best : nat) : M controller unit :=
  r ← gets c_routes;
  if decide (preferredRelay r = Some best) then mret tt else
  update_routes (fun r => r <| preferredRelay := Some best |>) ;;
  cur ← deref (currentEndpoint r);
  when (is_relay (ep r cur)) (update_routes (fun r => r <| currentEndpoint := Some best |>)).
Definition usable (minPing : double) (e : Endpoint) : bool :=
  dltb d0 (e_averageRTT e) && dltb (e_averageRTT e) (dmul minPing relayToP2pSwitchThreshold).
Definition switch_p2p (minPing : double) : M controller unit :=
  r ← gets c_routes;
  cur ← deref (currentEndpoint r);
  if decide (e_type (ep r cur) = TYPE_UDP_RELAY) then
    match GetEndpointByType TYPE_UDP_P2P_INET r with
    | Some p2p =>
        match (lan ← GetEndpointByType TYPE_UDP_P2P_LAN r; if usable minPing (ep r lan) then Some lan else None) with
        | Some lan => update_routes (fun r => r <| currentEndpoint := Some lan |>)
        | None => when (usable minPing (ep r p2p)) (update_routes (fun r => r <| currentEndpoint := Some p2p |>))
        end
    | None => mret tt
    end
  else
    when (dltb d0 minPing && dltb minPing (dmul (e_averageRTT (ep r cur)) p2pToRelaySwitchThreshold))
      (update_routes (fun r => r <| currentEndpoint := preferredRelay r |>)).
Definition SendRelayPings (now : double) : M controller unit :=
  c ← get;
  let r := c_routes c in
  when ((bool_decide (callState (c_link c) = STATE_ESTABLISHED) || bool_decide (callState (c_link c) = STATE_RECONNECTING))
        && bool_decide (1 < length (endpoints r))%nat) (
    relay ← deref (preferredRelay r);
    let e := ep r relay in
    let minPing := dmul (e_averageRTT e) (if decide (e_type e = TYPE_TCP_RELAY) then of_Z 2 else of_Z 1) in
    '(minPing, best) ← fold_list (relay_step now) (minPing, relay) (endpoints r);
    prefer_relay best ;;
    switch_p2p minPing).

Definition add_remote (r : routes) (e : Endpoint) : routes :=
  let r := push_endpoint e r in
  let r := if decide (e_type e = TYPE_TCP_RELAY) then r <| didAddTcpRelays := true |> else r in
  if decide (e_type e = TYPE_UDP_RELAY) then r <| useTCP := false |> else r.
Definition SetRemoteEndpoints (eps : list Endpoint) (p2p : bool) (maxLayer : Z) : M controller unit :=
  update_routes (fun r => foldl add_remote
    (r <| preferredRelay := None |> <| endpoints := [] |> <| didAddTcpRelays := false |> <| useTCP := true |>) eps) ;;
  r ← gets c_routes;
  first ← deref (head (endpoints r));
  update_routes (fun r => r <| currentEndpoint := Some first |> <| preferredRelay := Some first |> <| allowP2p := p2p |>) ;;
  modify (fun c => c <| c_keys := let k := c_keys c in CallKeys (encryptionKey k) (keyFingerprint k) (callID k) (isOutgoing k)
    (bool_decide (74 <= maxLayer) || useMTProto2 k) (peerVersion k) maxLayer |>).

(** ** Audio *)

(** The packet of one frame, and that of the redundant copies of the last frames. *)
Definition write_frame (data : list Z) (ts : Z) : M out_stream unit :=
  let len := Z.of_nat (length data) in
  let flags := if decide (255 < len) then STREAM_DATA_FLAG_LEN16 else 0 in
  WriteByte (Z.lor 1 flags) ;;
  (if decide (255 < len) then WriteInt16 (i16 len) else WriteByte (u8 len)) ;;
  WriteInt32 ts ;;
  WriteBytes data.
Definition write_ec (id ts : Z) (packets : list (list Z)) : M out_stream unit :=
  WriteByte id ;;
  WriteInt32 ts ;;
  WriteByte (u8 (Z.of_nat (length packets))) ;;
  iterate_list (fun ecData => WriteByte (u8 (Z.of_nat (length ecData))) ;; WriteBytes ecData) packets.
Definition keep_ec (secondaryData : list Z) (l : list (list Z)) : list (list Z) :=
  let l := l ++ [secondaryData] in drop (length l - 4) l.
(** [secondaryData] is empty when there is none. *)
Definition HandleAudioInput (data secondaryData : list Z) : M controller unit :=
  c ← get;
  if stopping (c_session c) then mret tt else
  if waitingForAcks (c_link c) || bool_decide (0 < dontSendPackets (c_link c)) then mret tt else
  enqueue PKT_STREAM_DATA 0 next_seq (write_frame data (audioTimestampOut (c_media c))) ;;
  match outgoingStreams (c_media c) with
  | [] => abort
  | s :: _ =>
      when (bool_decide (secondaryData <> []) && shittyInternetMode (c_media c)) (
        update_media (fun m => m <| ecAudioPackets := keep_ec secondaryData (ecAudioPackets m) |>) ;;
        m ← gets c_media;
        enqueue PKT_STREAM_EC 0 next_seq (write_ec (st_id s) (audioTimestampOut m) (ecAudioPackets m))) ;;
      update_media (fun m => m <| audioTimestampOut := u32 (audioTimestampOut m + st_frameDuration s) |>)
  end.

(** ** Connecting *)

Definition init_payload (c : controller) : M out_stream unit :=
  WriteInt32 PROTOCOL_VERSION ;;
  WriteInt32 MIN_PROTOCOL_VERSION ;;
  let flags := if enableCallUpgrade then Z.lor 0 INIT_FLAG_GROUP_CALLS_SUPPORTED else 0 in
  let flags := if dataSavingMode (c_session c) then Z.lor flags INIT_FLAG_DATA_SAVING_ENABLED else flags in
  WriteInt32 flags ;;
  if decide (connectionMaxLayer (c_keys c) < 74) then
    WriteByte 2 ;; WriteByte CODEC_OPUS_OLD ;; WriteByte 0 ;; WriteByte 0 ;; WriteByte 0 ;; WriteInt32 CODEC_OPUS ;;
    WriteByte 0 ;; WriteByte 0
  else
    WriteByte 1 ;; WriteInt32 CODEC_OPUS ;; WriteByte 0 ;; WriteByte 0.
Definition send_init_to (initSeq : Z) (i : nat) : M controller unit :=
  c ← get;
  let e := ep (c_routes c) i in
  if bool_decide (e_type e = TYPE_TCP_RELAY) && negb (useTCP (c_routes c)) then mret tt
  else enqueue PKT_INIT (e_id e) (mret initSeq) (init_payload c).
Definition SendInit (now : double) : M controller unit :=
  initSeq ← next_seq;
  r ← gets c_routes;
  iterate_list (send_init_to initSeq) (endpoints r) ;;
  SetState STATE_WAIT_INIT_ACK now.
(** Without a proxy. *)
Definition Connect (NDEBUG : bool) (now : double) : M controller unit :=
  l ← gets c_link;
  (if negb NDEBUG && bool_decide (callState l = STATE_WAIT_INIT_ACK) then abort else mret tt) ;;
  update_session (fun s => s <| connectionInitTime := now |>) ;;
  SendInit now.

(** The data of a [PKT_NETWORK_CHANGED] packet or extra, sent the way the version
    of the peer understands. *)
Definition announce_network : M controller unit :=
  s ← gets c_session;
  data ← build 4 (WriteInt32 (if dataSavingMode s then INIT_FLAG_DATA_SAVING_ENABLED else 0));
  c ← get;
  update_link (if decide (peerVersionOf c < 6) then SendPacketReliably PKT_NETWORK_CHANGED (Some data) (of_Z 1) (of_Z 20) []
               else SendExtra data EXTRA_TYPE_NETWORK_CHANGED).

(** One turn of the loop over the endpoints after the interface changed; LAN
    endpoints are erased when it ends. *)
Definition forget_rtt (e : Endpoint) : Endpoint := e <| e_averageRTT := d0 |> <| e_rtts := replicate 6 d0 |>.
Definition interface_step (r : routes) (i : nat) : routes :=
  let r :=
    if bool_decide (e_type (ep r i) = TYPE_UDP_RELAY) && useTCP r then
      let r := r <| useTCP := false |> in
      if decide (e_type (ep r (default 0%nat (preferredRelay r))) = TYPE_TCP_RELAY)
      then r <| preferredRelay := Some i |> <| currentEndpoint := Some i |> else r
    else r in
  set_ep i forget_rtt r.
Definition not_lan (r : routes) (i : nat) : Prop := e_type (ep r i) <> TYPE_UDP_P2P_LAN.
Definition leave_interface (r : routes) : routes :=
  let r := if decide (e_type (ep r (default 0%nat (preferredRelay r))) = TYPE_UDP_RELAY) then r <| currentEndpoint := preferredRelay r |> else r in
  let r := foldl interface_step r (endpoints r) in
  r <| endpoints := filter (not_lan r) (endpoints r) |>.
(** [itfName] and [v6] are the answers of [GetLocalInterfaceInfo]. Following the
    null [preferredRelay] aborts. *)
Definition SetNetworkType (type : net_type) (itfName v6 : list Z) (now : double) : M controller unit :=
  update_session (fun s => s <| networkType := type |>) ;;
  UpdateDataSavingState ;;
  UpdateAudioBitrate ;;
  update_routes (fun r => r <| myIPv6 := v6 |>) ;;
  s ← gets c_session;
  if decide (itfName = activeNetItfName s) then mret tt else
  log ActiveInterfaceChanged ;;
  update_session (fun s => s <| activeNetItfName := itfName |>) ;;
  if decide (activeNetItfName s = []) then mret tt else
  r ← gets c_routes;
  match currentEndpoint r with
  | Some cur =>
      if decide (e_type (ep r cur) = TYPE_UDP_RELAY) then mret tt
      else deref (preferredRelay r) ;; update_routes leave_interface
  | None => mret tt
  end ;;
  update_routes (fun r => r <| udpConnectivityState := UDP_UNKNOWN |> <| udpPingCount := 0 |> <| lastUdpPingTime := d0 |>) ;;
  r ← gets c_routes;
  when (allowP2p r && bool_decide (currentEndpoint r <> None)) (SendPublicEndpointsRequest now) ;;
  announce_network ;;
  log CancelSelect ;;
  update_routes (fun r => r <| didSendIPv6Endpoint := false |> <| udpPingCount := 0 |>).

(** ** Group calls and debugging *)

Definition TGVOIP_PEER_CAP_GROUP_CALLS : Z := 1.
Definition SendGroupCallKey (key : list Z) : M controller unit :=
  c ← get;
  if negb (has TGVOIP_PEER_CAP_GROUP_CALLS (peerCapabilities (c_session c))) then mret tt else
  if didSendGroupCallKey (c_session c) then mret tt else
  if negb (isOutgoing (c_keys c)) then mret tt else
  update_session (fun s => s <| didSendGroupCallKey := true |>) ;;
  update_link (SendExtra (take 256 key) EXTRA_TYPE_GROUP_CALL_KEY).
Definition RequestCallUpgrade : M controller unit :=
  c ← get;
  if negb (has TGVOIP_PEER_CAP_GROUP_CALLS (peerCapabilities (c_session c))) then mret tt else
  if didSendUpgradeRequest (c_session c) then mret tt else
  if isOutgoing (c_keys c) then mret tt else
  update_session (fun s => s <| didSendUpgradeRequest := true |>) ;;
  update_link (SendExtra [] EXTRA_TYPE_REQUEST_GROUP).

Definition DebugCtl (request param : Z) (now : double) : M controller unit :=
  if decide (request = 1) then
    update_media (fun m => match encoder m with
      | Some _ => set_bitrate (u32 param) (u32 param) m | None => m <| maxBitrate := u32 param |> end)
  else if decide (request = 2) then
    update_media (fun m => m <| encoder := (fun e => e <| en_packetLoss := param |>) <$> encoder m |>)
  else if decide (request = 3) then
    update_routes (fun r => r <| allowP2p := bool_decide (param = 1) |>) ;;
    r ← gets c_routes;
    match currentEndpoint r with
    | Some cur =>
        if negb (allowP2p r) && bool_decide (e_type (ep r cur) <> TYPE_UDP_RELAY)
        then update_routes (fun r => r <| currentEndpoint := preferredRelay r |>)
        else when (allowP2p r) (SendPublicEndpointsRequest now)
    | None => when (allowP2p r) (SendPublicEndpointsRequest now)
    end ;;
    s ← gets c_session;
    data ← build 4 (WriteInt32 (if dataSavingMode s then INIT_FLAG_DATA_SAVING_ENABLED else 0));
    update_link (SendPacketReliably PKT_NETWORK_CHANGED (Some data) (of_Z 1) (of_Z 20) [])
  else if decide (request = 4) then
    m ← gets c_media; when (echoCanceller m) (log (EchoEnable (bool_decide (param = 1))))
  else mret tt.

(** ** Statistics *)

(** The average over the acknowledged packets of [recentOutgoingPackets]. *)
Definition rtt_sum (l : link) : double * Z :=
  foldl (fun acc p => if dltb d0 (rp_ackTime p) then (dadd (fst acc) (dsub (rp_ackTime p) (rp_sendTime p)), snd acc + 1) else acc)
    (d0, 0) (recentOutgoingPackets l).
Definition GetAverageRTT (l : link) : double :=
  if bool_decide (lastRemoteAckSeq l <= lastSentSeq l) && bool_decide (lastSentSeq l - lastRemoteAckSeq l < 32) then
    let '(res, count) := rtt_sum l in
    if decide (0 < count) then ddiv res (of_Z count) else res
  else of_Z 999.
Definition GetSignalBarsCount (q : quality) : Z := Z.shiftr (foldl (fun avg n => u8 (avg + n)) 0 (signalBarsHistory q)) 2.

End operations.

(** ** The send thread *)

Section sending.
Context `{crypto : CryptoFunctions}.

(** The key, its fingerprint and the identifier of the call. *)
Definition SetCallKey (key : list Z) (outgoing : bool) : M controller unit :=
  modify (fun c => let k := SetEncryptionKey key outgoing (c_keys c) in
    c <| c_keys := k |> <| c_link := (c_link c) <| linkCallID := callID k |> |>).

(** [stopping] and a closed transport drop the packet. *)
Definition SendPacket (rand : nat -> list Z) (data : list Z) (i : nat) : M controller unit :=
  c ← get;
  let e := ep (c_routes c) i in
  if stopping (c_session c) then mret tt else
  if bool_decide (e_type e = TYPE_TCP_RELAY) && negb (useTCP (c_routes c)) then mret tt else
  let tag := if is_relay e then e_peerTag e else callID (c_keys c) in
  log (Transmit (bool_decide (e_type e = TYPE_TCP_RELAY)) (GetAddress e) (e_port e) (seal (c_keys c) rand tag data)).

(** [WritePacketHeader] and the data, in the buffer of 1500 bytes. *)
Definition frame_packet (NDEBUG : bool) (pseq type : Z) (data : list Z) (randomID : Z) (randBytes : list Z) (now : double) : M controller (list Z) := fun c =>
  match frame NDEBUG pseq type data randomID randBytes now (c_link c, output_on (zeros 1500)) with
  | (Value _, (l, o)) => (Value (written o), c <| c_link := l |>)
  | (Thrown, (l, o)) => (Thrown, c <| c_link := l |>)
  | (Aborted, (l, o)) => (Aborted, c <| c_link := l |>)
  end.
(** The endpoint of a packet that names none, or one that is gone, is the current one. *)
Definition route_of (p : PendingOutgoingPacket) (r : routes) : option nat :=
  match (if decide (pp_endpoint p = 0) then None else GetEndpointByID (pp_endpoint p) r) with
  | Some i => Some i
  | None => currentEndpoint r
  end.
Definition give_back (b : nat) : M controller unit := on_queue (zoom pool (fun p q => q <| pool := p |>) (Reuse b)).
(** One turn of [RunSendThread]; nothing happens while the queue is empty. *)
Definition RunSendThread (NDEBUG : bool) (randomID : Z) (randBytes : list Z) (rand : nat -> list Z) (now : double) : M controller unit :=
  pkt ← on_queue GetBlocking;
  match pkt with
  | None => mret tt
  | Some pkt =>
      match pp_data pkt with
      | None => mret tt
      | Some b =>
          c ← get;
          i ← deref (route_of pkt (c_routes c));
          let tcp := bool_decide (e_type (ep (c_routes c) i) = TYPE_TCP_RELAY) in
          when (if tcp then useTCP (c_routes c) else useUDP (c_routes c)) (
            data ← frame_packet NDEBUG (pp_seq pkt) (pp_type pkt) (pool_read b (pp_len pkt) (pool (c_queue c))) randomID randBytes now;
            SendPacket rand data i) ;;
          give_back b
      end
  end.
(** The queueing step of [Stop], after which the send thread ends. *)
Definition Stop : M controller unit :=
  update_session (fun s => s <| stopping := true |>) ;;
  log CancelSelect ;;
  on_queue (Put (Pending 0 0 0 None 0)) ;;
  m ← gets c_media;
  when (bool_decide (audioInput m <> None)) (log AudioInputStop) ;;
  when (bool_decide (audioOutput m <> None)) (log AudioOutputStop).
End sending.
