(* ===== verification/VoipReceive.v ===== *)
(** * libtgvoip: receiving a packet

    [ProcessIncomingPacket] and [ProcessExtraData] of
    [src/submodules/libtgvoip/VoIPController.cpp], from the tag of the packet to the
    handler of its type. A computation of type [R] works on the controller and on the
    stream it parses. *)

From stdpp Require Import gmap.
From S2P Require Import Prelude Exn VoipBuffers Double VoipDefs Congestion Jitter VoipCrypto VoipPacket VoipState VoipControl.

Definition R (A : Type) : Type := M (controller * in_stream) A.
Definition rd {A} (m : M in_stream A) : R A := zoom snd (fun s x => (fst x, s)) m.
Definition ct {A} (m : M controller A) : R A := zoom fst (fun c x => (c, snd x)) m.
(** Parse [data] in a stream of its own. *)
Definition parsing {A} (data : list Z) (m : R A) : M controller A := fun c =>
  let '(o, (c, _)) := m (c, new_input data) in (o, c).

Section receive.
Context `{crypto : CryptoFunctions} `{cfg : Config}.
(** The clock, the build, and the stack bytes that become the tag of a new endpoint. *)
Variables (now : double) (NDEBUG : bool) (junkTag : list Z).

(** ** Answers of the relay *)

Definition relay_self (i : nat) : R unit :=
  r ← ct (gets c_routes);
  remaining ← rd Remaining;
  when (bool_decide (e_type (ep r i) = TYPE_UDP_RELAY) && bool_decide (32 <= remaining)%nat) (
    rd ReadInt32 ;;
    rd ReadInt64 ;;
    myIP ← rd (ReadBytes 16);
    rd ReadInt32 ;;
    ct (update_routes (set_ep i (fun e => e <| e_udpPongCount := i32 (e_udpPongCount e + 1) |>))) ;;
    when (IsIPv6Only (ep r i) && negb (didSendIPv6Endpoint r) && bool_decide (myIP = myIPv6 r)) (
      ct (update_routes (fun r => r <| useIPv6 := true |>)) ;;
      when (allowP2p r) (
        ct (update_routes (fun r => r <| didSendIPv6Endpoint := true |>)) ;;
        data ← ct (build 18 (WriteBytes myIP ;; WriteInt16 (i16 GetLocalPort)));
        ct (update_link (SendExtra data EXTRA_TYPE_IPV6_ENDPOINT))))).

Definition endpoint_of (id port address : Z) (v6 : list Z) (type : ep_type) : Endpoint :=
  new_endpoint (GetBoolean (str "force_tcp") false) id port address v6 type junkTag.
Definition relay_peer : R unit :=
  r ← ct (gets c_routes);
  remaining ← rd Remaining;
  when (waitingForRelayPeerInfo r && bool_decide (16 <= remaining)%nat) (
    myAddr ← rd ReadInt32;
    rd ReadInt32 ;;
    peerAddr ← rd ReadInt32;
    peerPort ← rd ReadInt32;
    ct (update_routes (fun r =>
      let r := erase_endpoint (fun e => bool_decide (e_type e = TYPE_UDP_P2P_INET) && negb (IsIPv6Only e)) r in
      let r := erase_endpoint (fun e => bool_decide (e_type e = TYPE_UDP_P2P_LAN)) r in
      push_endpoint (endpoint_of (Z.shiftl (FOURCC 80 50 80 52) 32) (u16 peerPort) (u32 peerAddr) emptyV6 TYPE_UDP_P2P_INET) r)) ;;
    when (bool_decide (u32 myAddr = u32 peerAddr)) (
      data ← ct (build 8 (WriteInt32 localAddress ;; WriteInt32 GetLocalPort));
      c ← ct get;
      ct (update_link (if decide (peerVersionOf c < 6) then SendPacketReliably PKT_LAN_ENDPOINT (Some data) (literal 1 2) (of_Z 10) []
                       else SendExtra data EXTRA_TYPE_LAN_ENDPOINT))) ;;
    ct (update_routes (fun r => r <| waitingForRelayPeerInfo := false |>))).
Definition relay_special (i : nat) : R unit :=
  rd (Seek 28) ;;
  tlid ← rd ReadInt32;
  if decide (u32 tlid = TLID_UDP_REFLECTOR_SELF_INFO) then relay_self i
  else if decide (u32 tlid = TLID_UDP_REFLECTOR_PEER_INFO) then relay_peer
  else mret tt.

(** ** Extras *)

Definition find_stream (id : Z) (m : media) : option (nat * Stream) :=
  list_find (fun s => st_id s = id) (incomingStreams m).
Definition set_stream (k : nat) (s : Stream) (m : media) : media := m <| incomingStreams := <[k := s]> (incomingStreams m) |>.

Definition stream_flags (flags : Z) (s : Stream) : Stream :=
  let s := s <| st_enabled := bool_decide (Z.land flags STREAM_FLAG_ENABLED = STREAM_FLAG_ENABLED) |> in
  if has STREAM_FLAG_EXTRA_EC flags then
    if st_extraECEnabled s then s
    else s <| st_extraECEnabled := true |> <| st_jitterBuffer := SetMinPacketCount 4 <$> st_jitterBuffer s |>
  else
    if st_extraECEnabled s then s <| st_extraECEnabled := false |> <| st_jitterBuffer := SetMinPacketCount 2 <$> st_jitterBuffer s |>
    else s.
Definition extra_stream_flags : R unit :=
  id ← rd ReadByte;
  flags ← rd ReadInt32;
  m ← ct (gets c_media);
  match find_stream id m with
  | Some (k, s) => ct (update_media (set_stream k (stream_flags (u32 flags) s))) ;; ct UpdateAudioOutputState
  | None => mret tt
  end.

(** An announced LAN address replaces that of the LAN endpoint, if there is one. *)
Definition set_lan (address port : Z) (r : routes) : routes :=
  match find_endpoint (fun e => bool_decide (e_type e = TYPE_UDP_P2P_LAN)) r with
  | Some i =>
      let r := if decide (currentEndpoint r = Some i) then r <| currentEndpoint := preferredRelay r |> else r in
      set_ep i (fun e => e <| e_address := address |>) r
  | None => push_endpoint (endpoint_of (Z.shiftl (FOURCC 76 65 78 52) 32) port address emptyV6 TYPE_UDP_P2P_LAN) r
  end.
Definition lan_endpoint : R unit :=
  peerAddr ← rd ReadInt32;
  peerPort ← rd ReadInt32;
  ct (update_routes (set_lan (u32 peerAddr) (u16 peerPort))).

(** The peer's flags after its network changed. *)
Definition peer_network : R unit :=
  flags ← rd ReadInt32;
  ct (update_session (fun s => s <| dataSavingRequestedByPeer :=
    bool_decide (Z.land (u32 flags) INIT_FLAG_DATA_SAVING_ENABLED = INIT_FLAG_DATA_SAVING_ENABLED) |>)) ;;
  ct UpdateDataSavingState ;;
  ct UpdateAudioBitrate.
(** Peer to peer falls back to the relay. *)
Definition on_relay (r : routes) : bool := match currentEndpoint r with Some i => is_relay (ep r i) | None => false end.
Definition fall_back : R unit :=
  ct (update_routes (fun r => r <| currentEndpoint := preferredRelay r |>)) ;;
  r ← ct (gets c_routes);
  when (allowP2p r) (ct (SendPublicEndpointsRequest now)).
Definition extra_network_changed : R unit :=
  r ← ct (gets c_routes);
  ct (deref (currentEndpoint r)) ;;
  if on_relay r then mret tt else fall_back ;; peer_network.

Definition extra_group_key : R unit :=
  s ← ct (gets c_session);
  if didReceiveGroupCallKey s || didSendGroupCallKey s then mret tt else
  groupKey ← rd (ReadBytes 256);
  ct (log (GroupCallKeyReceived groupKey)) ;;
  ct (update_session (fun s => s <| didReceiveGroupCallKey := true |>)).
Definition extra_request_group : R unit :=
  s ← ct (gets c_session);
  if didInvokeUpgradeCallback s then mret tt else
  ct (log UpgradeToGroupCallRequested) ;;
  ct (update_session (fun s => s <| didInvokeUpgradeCallback := true |>)).

Definition set_ipv6 (addr : list Z) (port : Z) (r : routes) : routes :=
  let r := r <| peerIPv6Available := true |> in
  let '(i, r) :=
    match find_endpoint (fun e => bool_decide (e_type e = TYPE_UDP_P2P_INET) && IsIPv6Only e) r with
    | Some i => (i, set_ep i (fun e => e <| e_v6address := addr |>) r)
    | None => (length (store r), push_endpoint (mkEndpoint (Z.shiftl (FOURCC 80 50 80 54) 32) port 0 addr TYPE_UDP_P2P_INET junkTag d0 0 (replicate 6 d0) d0 0) r)
    end in
  if decide (myIPv6 r = emptyV6) then r else r <| currentEndpoint := Some i |>.
Definition extra_ipv6 : R unit :=
  addr ← rd (ReadBytes 16);
  port ← rd ReadInt16;
  ct (update_routes (set_ipv6 addr (u16 port))).

(** An extra equal to the last one of its type is ignored. *)
Definition extra_body (type : Z) : R unit :=
  r ← ct (gets c_routes);
  if decide (type = EXTRA_TYPE_STREAM_FLAGS) then extra_stream_flags
  else if decide (type = EXTRA_TYPE_STREAM_CSD) then mret tt
  else if decide (type = EXTRA_TYPE_LAN_ENDPOINT) then if allowP2p r then lan_endpoint else mret tt
  else if decide (type = EXTRA_TYPE_NETWORK_CHANGED) then extra_network_changed
  else if decide (type = EXTRA_TYPE_GROUP_CALL_KEY) then extra_group_key
  else if decide (type = EXTRA_TYPE_REQUEST_GROUP) then extra_request_group
  else if decide (type = EXTRA_TYPE_IPV6_ENDPOINT) then if allowP2p r then extra_ipv6 else mret tt
  else mret tt.
Definition ProcessExtraData (data : list Z) : M controller unit :=
  parsing data (
    type ← rd ReadByte;
    let hash := take 8 (sha1 data) in
    s ← ct (gets c_session);
    if decide (default (zeros 8) (lastReceivedExtrasByType s !! type) = hash) then mret tt else
    ct (update_session (fun s => s <| lastReceivedExtrasByType := <[type := hash]> (lastReceivedExtrasByType s) |>)) ;;
    extra_body type).

(** ** Setting up the call *)

Definition skip_codecs (count : Z) : R unit :=
  c ← ct get;
  iterate (Z.to_nat count) (if decide (peerVersionOf c < 5) then rd ReadByte ;; mret tt else rd ReadInt32 ;; mret tt).
Definition write_stream (version : Z) (s : Stream) : M out_stream unit :=
  WriteByte (st_id s) ;;
  WriteByte (st_type s) ;;
  (if decide (version < 5) then WriteByte (if decide (st_codec s = CODEC_OPUS) then CODEC_OPUS_OLD else 0) else WriteInt32 (st_codec s)) ;;
  WriteInt16 (i16 (st_frameDuration s)) ;;
  WriteByte (if st_enabled s then 1 else 0).
Definition ack_payload (version : Z) (streams : list Stream) : M out_stream unit :=
  WriteInt32 PROTOCOL_VERSION ;;
  WriteInt32 MIN_PROTOCOL_VERSION ;;
  WriteByte (u8 (Z.of_nat (length streams))) ;;
  iterate_list (write_stream version) streams.
Definition incompatible (minVer version : Z) : bool := bool_decide (PROTOCOL_VERSION < minVer) || bool_decide (version < MIN_PROTOCOL_VERSION).

(** The route the first initial packet chooses. *)
Definition route_init (i : nat) (r : routes) : routes :=
  let e := ep r i in
  if (bool_decide (e_type e = TYPE_UDP_RELAY) && negb (bool_decide (udpConnectivityState r = UDP_BAD)) &&
      negb (bool_decide (udpConnectivityState r = UDP_NOT_AVAILABLE))) || bool_decide (e_type e = TYPE_TCP_RELAY) then
    let r := r <| currentEndpoint := Some i |> in
    if bool_decide (e_type e = TYPE_UDP_RELAY) || (useTCP r && bool_decide (e_type e = TYPE_TCP_RELAY))
    then r <| preferredRelay := Some i |> else r
  else r.
Definition note_init (i : nat) : M controller unit :=
  s ← gets c_session;
  if receivedInit s then mret tt else
  update_session (fun s => s <| receivedInit := true |>) ;;
  update_routes (route_init i).
Definition init_flags (flags : Z) : M controller unit :=
  when (has INIT_FLAG_DATA_SAVING_ENABLED flags) (
    update_session (fun s => s <| dataSavingRequestedByPeer := true |>) ;; UpdateDataSavingState ;; UpdateAudioBitrate) ;;
  when (has INIT_FLAG_GROUP_CALLS_SUPPORTED flags)
    (update_session (fun s => s <| peerCapabilities := Z.lor (peerCapabilities s) TGVOIP_PEER_CAP_GROUP_CALLS |>)).
Definition send_init_ack : M controller unit :=
  c ← get;
  enqueue PKT_INIT_ACK 0 next_seq (ack_payload (peerVersionOf c) (outgoingStreams (c_media c))).
Definition handle_init (i : nat) : R unit :=
  ct (note_init i) ;;
  version ← rd ReadInt32;
  ct (SetPeerVersion version) ;;
  minVer ← rd ReadInt32;
  if incompatible (u32 minVer) version then ct (fail_with ERROR_INCOMPATIBLE now) else
  flags ← rd ReadInt32;
  ct (init_flags (u32 flags)) ;;
  numSupportedAudioCodecs ← rd ReadByte;
  skip_codecs numSupportedAudioCodecs ;;
  numSupportedVideoCodecs ← rd ReadByte;
  skip_codecs numSupportedVideoCodecs ;;
  ct send_init_ack.

(** A new jitter buffer and its target. *)
Definition initial_delay (frameDuration : Z) : Z :=
  u32 (if decide (50 < frameDuration) then GetInt (str "jitter_initial_delay_60") 3
       else if decide (30 < frameDuration) then GetInt (str "jitter_initial_delay_40") 4
       else GetInt (str "jitter_initial_delay_20") 6).
Definition make_jitter (frameDuration : Z) : M controller jitter := fun c =>
  match new_jitter GetInt GetDouble jitterMemory frameDuration jitterJunk with
  | (Value _, j) => (Value (SetMinPacketCount (initial_delay frameDuration) j), c)
  | (Thrown, _) => (Thrown, c)
  | (Aborted, _) => (Aborted, c)
  end.
(** One stream of the peer. [true] for audio. *)
Definition read_stream : R bool :=
  c ← ct get;
  id ← rd ReadByte;
  type ← rd ReadByte;
  codec ← (if decide (peerVersionOf c < 5) then old ← rd ReadByte; mret (if decide (old = CODEC_OPUS_OLD) then CODEC_OPUS else 0)
           else new ← rd ReadInt32; mret (u32 new));
  frameDuration ← rd ReadInt16;
  enabled ← rd ReadByte;
  let stm := mkStream id type codec (bool_decide (enabled = 1)) false (u16 frameDuration) None in
  let add s := ct (update_media (fun m => m <| incomingStreams := incomingStreams m ++ [s] |>)) in
  if decide (type = STREAM_TYPE_AUDIO) then
    j ← ct (make_jitter (u16 frameDuration));
    add (stm <| st_jitterBuffer := Some j |>) ;; mret true
  else if decide (type = STREAM_TYPE_VIDEO) then add stm ;; mret false
  else mret false.
Fixpoint read_streams (n : nat) (audio : bool) : R bool :=
  match n with O => mret audio | S n => a ← read_stream; read_streams n (audio || a) end.

(** The version of the acknowledgement; [false] when it is not compatible. *)
Definition ack_version (packetInnerLen : Z) : R bool :=
  if decide (10 < packetInnerLen) then
    version ← rd ReadInt32;
    ct (SetPeerVersion version) ;;
    minVer ← rd ReadInt32;
    if incompatible (u32 minVer) version then ct (fail_with ERROR_INCOMPATIBLE now) ;; mret false else mret true
  else ct (SetPeerVersion 1) ;; mret true.
Definition start_call : M controller unit :=
  c ← get;
  when (bool_decide (5 <= peerVersionOf c) && negb (useMTProto2 (c_keys c))) SetMTProto2 ;;
  when (bool_decide (audioInput (c_media c) = None)) (StartAudio now) ;;
  update_session (fun s => s <| setEstablishedAt := dadd now (GetDouble (str "established_delay_if_no_stream_data") (literal 3 2)) |>) ;;
  r ← gets c_routes;
  when (allowP2p r) (SendPublicEndpointsRequest now).
Definition handle_init_ack (packetInnerLen : Z) : R unit :=
  s ← ct (gets c_session);
  if receivedInitAck s then mret tt else
  ct (update_session (fun s => s <| receivedInitAck := true |>)) ;;
  compatible ← ack_version packetInnerLen;
  if negb compatible then mret tt else
  streamCount ← rd ReadByte;
  if decide (streamCount = 0) then mret tt else
  audio ← read_streams (Z.to_nat streamCount) false;
  when audio (ct start_call).

(** ** Media *)

Definition jitter_input (k : nat) (data : list Z) (ts : Z) (isEC : bool) : M controller unit := fun c =>
  match incomingStreams (c_media c) !! k with
  | Some s =>
      match st_jitterBuffer s with
      | Some j => let '(o, j) := HandleInput data ts isEC now j in
                  (o, c <| c_media := set_stream k (s <| st_jitterBuffer := Some j |>) (c_media c) |>)
      | None => (Value tt, c)
      end
  | None => (Value tt, c)
  end.
(** The frames of a packet. The length of a frame is checked against [len], that of
    the received packet; [buffer] is the memory the stream reads. *)
Definition start_output : M controller unit :=
  m ← gets c_media;
  when (negb (audioOutStarted m) && bool_decide (audioOutput m <> None)) (
    log AudioOutputStart ;; update_media (fun m => m <| audioOutStarted := true |>)).
Fixpoint read_frames (buffer : list Z) (len : nat) (count : nat) : R unit :=
  match count with
  | O => mret tt
  | S count =>
      streamID ← rd ReadByte;
      sdlen ← (if has STREAM_DATA_FLAG_LEN16 (Z.land streamID 0xC0) then n ← rd ReadInt16; mret (u16 n) else rd ReadByte);
      pts ← rd ReadInt32;
      ct (update_media (fun m => m <| audioTimestampIn := u32 pts |>)) ;;
      ct start_output ;;
      offset ← rd GetOffset;
      if decide (len < offset + Z.to_nat sdlen)%nat then mret tt else
      ct (jitter_input 0 (slice buffer offset (Z.to_nat sdlen)) (u32 pts) false) ;;
      when (negb (bool_decide (count = 0%nat))) (rd (Seek (offset + Z.to_nat sdlen))) ;;
      read_frames buffer len count
  end.
Definition frame_count (type : Z) : nat :=
  if decide (type = PKT_STREAM_DATA_X2) then 2%nat else if decide (type = PKT_STREAM_DATA_X3) then 3%nat else 1%nat.
Definition handle_stream_data (i : nat) (buffer : list Z) (len : nat) (type : Z) : R unit :=
  c ← ct get;
  when (negb (bool_decide (callState (c_link c) = STATE_ESTABLISHED)) && receivedInitAck (c_session c)) (ct (SetState STATE_ESTABLISHED now)) ;;
  r ← ct (gets c_routes);
  when (bool_decide (e_type (ep r i) = TYPE_UDP_RELAY)) (ct (update_routes (fun r => r <| peerPreferredRelay := Some i |>))) ;;
  read_frames buffer len (frame_count type).

Definition handle_stream_state : R unit :=
  id ← rd ReadByte;
  enabled ← rd ReadByte;
  m ← ct (gets c_media);
  match find_stream id m with
  | Some (k, s) => ct (update_media (set_stream k (s <| st_enabled := bool_decide (enabled = 1) |>))) ;; ct UpdateAudioOutputState
  | None => mret tt
  end.

(** Redundant copies: the last of [count] belongs to [lastTimestamp]. *)
Fixpoint read_copies (k : nat) (frameDuration lastTimestamp : Z) (n : nat) : R unit :=
  match n with
  | O => mret tt
  | S n =>
      dlen ← rd ReadByte;
      data ← rd (ReadBytes (Z.to_nat dlen));
      ct (jitter_input k data (u32 (lastTimestamp - Z.of_nat n * frameDuration)) true) ;;
      read_copies k frameDuration lastTimestamp n
  end.
Definition handle_stream_ec : R unit :=
  streamID ← rd ReadByte;
  lastTimestamp ← rd ReadInt32;
  count ← rd ReadByte;
  m ← ct (gets c_media);
  match find_stream streamID m with
  | Some (k, s) => read_copies k (st_frameDuration s) (u32 lastTimestamp) (Z.to_nat count)
  | None => mret tt
  end.

(** ** Pings *)

Definition handle_ping (i : nat) (pseq : Z) : R unit :=
  r ← ct (gets c_routes);
  if negb (is_relay (ep r i)) && negb (allowP2p r) then mret tt
  else ct (enqueue PKT_PONG (e_id (ep r i)) next_seq (WriteInt32 pseq)).
(** The times up to the first zero are averaged; [n] are summed up so far. *)
Fixpoint rtt_average (l : list double) (sum : double) (n : Z) : double :=
  match l with
  | [] => ddiv sum (of_Z n)
  | t :: l => if deqb t d0 then ddiv sum (of_Z n) else rtt_average l (dadd sum t) (n + 1)
  end.
Definition note_pong (e : Endpoint) : Endpoint :=
  let rtts := dsub now (e_lastPingTime e) :: take 5 (e_rtts e) in
  e <| e_rtts := rtts |> <| e_averageRTT := rtt_average rtts d0 0 |>.
Definition handle_pong (i : nat) (packetInnerLen : Z) : R unit :=
  when (bool_decide (4 <= packetInnerLen)) (
    pingSeq ← rd ReadInt32;
    r ← ct (gets c_routes);
    when (bool_decide (u32 pingSeq = e_lastPingSeq (ep r i))) (ct (update_routes (set_ep i note_pong)))).

Definition handle_network_changed : R unit :=
  r ← ct (gets c_routes);
  ct (deref (currentEndpoint r)) ;;
  if on_relay r then mret tt else
  fall_back ;;
  c ← ct get;
  when (bool_decide (2 <= peerVersionOf c)) peer_network.

(** ** The packet *)

Definition dispatch (i : nat) (buffer : list Z) (len : nat) (type pseq packetInnerLen : Z) : R unit :=
  if decide (type = PKT_INIT) then handle_init i
  else if decide (type = PKT_INIT_ACK) then handle_init_ack packetInnerLen
  else if decide (type = PKT_STREAM_DATA \/ type = PKT_STREAM_DATA_X2 \/ type = PKT_STREAM_DATA_X3) then handle_stream_data i buffer len type
  else if decide (type = PKT_PING) then handle_ping i pseq
  else if decide (type = PKT_PONG) then handle_pong i packetInnerLen
  else if decide (type = PKT_STREAM_STATE) then handle_stream_state
  else if decide (type = PKT_LAN_ENDPOINT) then lan_endpoint
  else if decide (type = PKT_NETWORK_CHANGED) then handle_network_changed
  else if decide (type = PKT_STREAM_EC) then handle_stream_ec
  else mret tt.

(** Back to the relay a packet came through, when the peer no longer acknowledges. *)
Definition follow_relay (i : nat) : M controller unit :=
  c ← get;
  let r := c_routes c in
  if decide (currentEndpoint r = Some i) then mret tt else
  if negb (is_relay (ep r i)) then mret tt else
  cur ← deref (currentEndpoint r);
  when ((negb (is_relay (ep r cur)) || deqb (e_averageRTT (ep r cur)) d0) && seqgt (u32 (lastSentSeq (c_link c) - 32)) (lastRemoteAckSeq (c_link c))) (
    update_routes (fun r => r <| currentEndpoint := Some i |>) ;;
    when (allowP2p r) (SendPublicEndpointsRequest now)).
Fixpoint process_extras (n : nat) : R unit :=
  match n with O => mret tt | S n => x ← rd read_extra; ct (ProcessExtraData x) ;; process_extras n end.

(** The decrypted packet. *)
Definition process_payload (i : nat) (buffer : list Z) (len : nat) : R unit :=
  ct (update_session (fun s => s <| lastRecvPacketTime := now |>)) ;;
  c ← ct get;
  h ← rd (read_header NDEBUG (linkCallID (c_link c)) (linkPeerVersion (c_link c)));
  match h with
  | Ignored => mret tt
  | WrongCallID => ct (fail_with ERROR_UNKNOWN now)
  | WrongProtocol => ct (fail_with ERROR_INCOMPATIBLE now)
  | Parsed type pflags ackId pseq acks packetInnerLen =>
      fresh ← ct (on_net (receive_seq pseq now));
      if negb fresh then mret tt else
      ct (update_link (receive_acks ackId acks now)) ;;
      ct (follow_relay i) ;;
      (if has XPFLAG_HAS_EXTRA pflags then n ← rd ReadByte; process_extras (Z.to_nat n) else mret tt) ;;
      dispatch i buffer len type pseq packetInnerLen
  end.

(** Endpoint [i] of the store sent [packet]. *)
Definition is_special (packet : list Z) : bool :=
  bool_decide (32 <= length packet)%nat && bool_decide (slice packet 16 12 = replicate 12 0xFF).
Definition process_packet (i : nat) (packet : list Z) : R unit :=
  c ← ct get;
  let e := ep (c_routes c) i in
  if decide (take 16 packet <> if is_relay e then take 16 (e_peerTag e) else callID (c_keys c)) then mret tt else
  rd (Seek 16) ;;
  if is_relay e && is_special packet then relay_special i else
  o ← rd (open_packet (c_keys c) (waiting (c_link c)) packet);
  match o with
  | Dropped => mret tt
  | Opened buffer stream upgrade =>
      rd (put stream) ;;
      when upgrade (ct SetMTProto2) ;;
      process_payload i buffer (length packet)
  end.
Definition ProcessIncomingPacket (i : nat) (packet : list Z) : M controller unit := parsing packet (process_packet i packet).

(** ** The receive thread *)

(** The endpoint a datagram belongs to: its address, port and transport agree. *)
Definition sender_matches (tcp : bool) (address : Z + list Z) (port : Z) (e : Endpoint) : bool :=
  match address with
  | inl a => bool_decide (e_address e = a)
  | inr a => bool_decide (e_v6address e = a) && bool_decide (e_address e = 0)
  end && bool_decide (e_port e = port) && eqb tcp (bool_decide (e_type e = TYPE_TCP_RELAY)).
(** A packet of [RunRecvThread]; [out_of_range] is caught, what the handlers did
    before stays. *)
Definition receive_packet (tcp : bool) (address : Z + list Z) (port : Z) (packet : list Z) : M controller unit := fun c =>
  if decide (packet = []) then (Value tt, c) else
  match find_endpoint (sender_matches tcp address port) (c_routes c) with
  | None => (Value tt, c)
  | Some i =>
      match ProcessIncomingPacket i packet c with
      | (Thrown, c) => (Value tt, c)
      | r => r
      end
  end.
End receive.
