(* ===== verification/VoipTick.v ===== *)
(** * libtgvoip: the tick thread

    One turn of the loop of [RunTickThread] in
    [src/submodules/libtgvoip/VoIPController.cpp], in the order of the code: the
    history of round-trip times, the TCP relays, the bitrate and the redundancy,
    resending, the jitter buffers, the test of UDP connectivity, timeouts and the
    signal bars. The clock is read once per turn. *)

From stdpp Require Import gmap.
From S2P Require Import Prelude Exn VoipBuffers Double VoipDefs Congestion Jitter VoipCrypto VoipPacket VoipState VoipControl.

Section tick.
Context `{cfg : Config}.
Variable now : double.

Definition update_quality (f : quality -> quality) : M controller unit := on_quality (modify f).
Definition set_bars (n : Z) : M controller unit := update_quality (fun q => q <| signalBarCount := n |>).
Definition lower_bars (n : Z) : M controller unit := update_quality (fun q => q <| signalBarCount := Z.min (signalBarCount q) n |>).
Definition every (n : Z) (k : Z) : bool := bool_decide (k mod n = 0).
Definition in_call (st : call_state) : bool := bool_decide (st = STATE_ESTABLISHED) || bool_decide (st = STATE_RECONNECTING).
Definition slow_network (n : net_type) : bool := bool_decide (n = NET_TYPE_EDGE) || bool_decide (n = NET_TYPE_GPRS).

(** ** Round-trip times and losses *)

(** Losses count, and late packets are taken back while there are enough losses. *)
Definition count_lost (total lost : Z) : Z :=
  if bool_decide (0 < lost) || (bool_decide (lost < 0) && bool_decide (u32 (- lost) < total)) then u32 (total + lost) else total.
Definition collect_losses (k : nat) : M controller unit := fun c =>
  match incomingStreams (c_media c) !! k with
  | Some s =>
      match st_jitterBuffer s with
      | Some j =>
          let '(o, j) := GetAndResetLostPacketCount j in
          let c := c <| c_media := (c_media c) <| incomingStreams := <[k := s <| st_jitterBuffer := Some j |>]> (incomingStreams (c_media c)) |> |> in
          match o with
          | Value lost => (Value tt, c <| c_quality := (c_quality c) <| recvLossCount := count_lost (recvLossCount (c_quality c)) lost |> |>)
          | _ => (Value tt, c)
          end
      | None => (Value tt, c)
      end
  | None => (Value tt, c)
  end.
Definition tick_rtt_history : M controller unit :=
  c ← get;
  when (every 5 (VoipState.tickCount (c_quality c)) && in_call (callState (c_link c))) (
    let h := GetAverageRTT (c_link c) :: take 31 (linkRttHistory (c_link c)) in
    let slow := dltb (of_Z 10) (nth 0 h d0) && dltb (of_Z 10) (nth 8 h d0) && slow_network (networkType (c_session c)) in
    update_link (fun l => l <| linkRttHistory := h |> <| waitingForAcks := slow |>) ;;
    when slow (set_bars 1) ;;
    iterate_list collect_losses (seq 0 (length (incomingStreams (c_media c))))).

(** ** TCP relays *)

(** A TCP twin of every UDP relay. *)
Definition tcp_twin (e : Endpoint) : Endpoint :=
  mkEndpoint (Z.lxor (e_id e) (Z.shiftl (FOURCC 84 67 80 0) 32)) (e_port e) (e_address e) (e_v6address e) TYPE_TCP_RELAY (e_peerTag e)
    d0 0 (replicate 6 d0) d0 0.
Definition add_twin (relays : list nat) (i : nat) : M routes (list nat) :=
  r ← get;
  if decide (e_type (ep r i) <> TYPE_UDP_RELAY) then mret relays else
  let twin := length (store r) in
  modify (fun r => r <| store := store r ++ [tcp_twin (ep r i)] |>) ;;
  (if setCurrentEndpointToTCP r then
     cur ← deref (currentEndpoint r);
     when (negb (bool_decide (e_type (ep r cur) = TYPE_TCP_RELAY)))
       (modify (fun r => r <| setCurrentEndpointToTCP := false |> <| currentEndpoint := Some twin |> <| preferredRelay := Some twin |>))
   else mret tt) ;;
  mret (relays ++ [twin]).
Definition add_tcp_relays : M routes unit :=
  r ← get;
  when (useTCP r && negb (didAddTcpRelays r)) (
    relays ← fold_list add_twin [] (endpoints r);
    modify (fun r => r <| endpoints := endpoints r ++ relays |> <| didAddTcpRelays := true |>)).

(** ** Bitrate and redundancy *)

Definition adjust_bitrate (act : cc_action) (m : media) : media :=
  match encoder m with
  | None => m
  | Some e =>
      let set b := m <| encoder := Some (e <| en_bitrate := b |>) |> in
      if shittyInternetMode m then set 8000 else
      match act with
      | ACT_DECREASE =>
          if decide (8000 < en_bitrate e) then
            set (if decide (en_bitrate e < u32 (minAudioBitrate + audioBitrateStepDecr)) then minAudioBitrate else u32 (en_bitrate e - audioBitrateStepDecr))
          else m
      | ACT_INCREASE => if decide (en_bitrate e < maxBitrate m) then set (u32 (en_bitrate e + audioBitrateStepIncr)) else m
      | ACT_NONE => m
      end
  end.
(** The share of lost packets over the last ten seconds. *)
Definition average_loss (history : list Z) (frameDuration : Z) : double :=
  let sum := foldl (fun acc n => dadd acc (of_Z n)) d0 (take 10 history) in
  ddiv (ddiv sum (of_Z 10)) (ddiv (of_Z 1000) (of_Z frameDuration)).
Definition record_loss (lost : Z) (q : quality) : quality :=
  q <| sendLossCountHistory := u32 (lost - prevSendLossCount q) :: take 31 (sendLossCountHistory q) |> <| prevSendLossCount := lost |>.

(** The first outgoing audio stream announces its redundancy. *)
Definition set_extra_ec (enabled : bool) : M controller unit :=
  m ← gets c_media;
  match list_find (fun s => st_type s = STREAM_TYPE_AUDIO) (outgoingStreams m) with
  | Some (k, s) =>
      let s := s <| st_extraECEnabled := enabled |> in
      update_media (fun m => m <| outgoingStreams := <[k := s]> (outgoingStreams m) |>) ;; SendStreamFlags s
  | None => mret tt
  end.
Definition set_secondary (enabled : bool) : M controller unit :=
  update_media (fun m => m <| encoder := (fun e => e <| en_secondary := enabled |>) <$> encoder m |>).
Definition set_loss (percent : Z) : M controller unit :=
  update_media (fun m => m <| encoder := (fun e => e <| en_packetLoss := percent |>) <$> encoder m |>).
Definition above (x : double) (n d : Z) : bool := dltb (literal n d) x.

(** The expected loss told to the encoder, with the signal bars it allows. *)
Definition loss_levels (avg : double) : M controller unit :=
  if above avg 1 10 then set_loss 40 ;; set_bars 1
  else if above avg 75 1000 then set_loss 35 ;; lower_bars 2
  else if above avg 625 10000 then set_loss 30 ;; lower_bars 2
  else if above avg 5 100 then set_loss 25 ;; lower_bars 3
  else if above avg 25 1000 then set_loss 20 ;; lower_bars 3
  else if above avg 1 100 then set_loss 17
  else set_loss 15.
Definition adapt_redundancy (avg : double) : M controller unit :=
  c ← get;
  let slow := slow_network (networkType (c_session c)) in
  (if above avg 125 1000 && negb slow then
     set_loss 40 ;; set_bars 1 ;;
     when (negb (shittyInternetMode (c_media c))) (
       update_media (fun m => m <| shittyInternetMode := true |>) ;; set_extra_ec true ;; set_secondary true)
   else loss_levels avg) ;;
  m ← gets c_media;
  when ((dltb avg (literal 15 100) || slow) && shittyInternetMode m) (
    update_media (fun m => m <| shittyInternetMode := false |>) ;; set_extra_ec false ;; set_secondary false).
Definition tick_encoder : M controller unit :=
  c ← get;
  when (bool_decide (callState (c_link c) = STATE_ESTABLISHED) && bool_decide (encoder (c_media c) <> None)) (
    when (bool_decide (audioInput (c_media c) = Some false) ||
          match audioOutput (c_media c) with Some (false, _) => true | _ => false end) (fail_with ERROR_AUDIO_IO now) ;;
    act ← gets (fun c => fst (GetBandwidthControlAction now now (conctl (c_link c))));
    update_link (fun l => l <| conctl := snd (GetBandwidthControlAction now now (conctl l)) |>) ;;
    update_media (adjust_bitrate act) ;;
    c ← get;
    when (every 10 (VoipState.tickCount (c_quality c))) (
      match outgoingStreams (c_media c) with
      | [] => abort
      | s :: _ =>
          update_quality (record_loss (lossCount (conctl (c_link c)))) ;;
          q ← gets c_quality;
          adapt_redundancy (average_loss (sendLossCountHistory q) (st_frameDuration s))
      end)).

(** ** Sending *)

(** An empty packet keeps the acknowledgements going. *)
Definition nop_number : M controller Z :=
  pseq ← next_seq; update_link (fun l => l <| firstSentPing := pseq |>) ;; mret pseq.
Definition tick_nop : M controller unit :=
  c ← get;
  let n := VoipState.tickCount (c_quality c) in
  when ((waitingForAcks (c_link c) && every 10 n) || (negb (existsb st_enabled (outgoingStreams (c_media c))) && every 2 n))
    (enqueue PKT_NOP 0 nop_number (mret tt)).
Definition tick_init : M controller unit :=
  c ← get;
  when (bool_decide (callState (c_link c) = STATE_WAIT_INIT_ACK) && dltb (literal 1 2) (dsub now (stateChangeTime (c_session c)))) (SendInit now).
Definition tick_peer_info : M controller unit :=
  r ← gets c_routes;
  when (waitingForRelayPeerInfo r && dltb (of_Z 5) (dsub now (publicEndpointsReqTime r))) (
    if decide (10 <= publicEndpointsReqCount r)
    then update_routes (fun r => r <| publicEndpointsReqCount := 0 |> <| waitingForRelayPeerInfo := false |>)
    else SendPublicEndpointsRequest now ;; update_routes (fun r => r <| publicEndpointsReqCount := publicEndpointsReqCount r + 1 |>)).

(** [memcpy] into the buffer, whose size it does not check. *)
Definition copy_raw (data : list Z) : M out_stream unit := fun o =>
  if decide (length (o_buffer o) < length data)%nat then (Aborted, o) else emit data o.
(** The numbers a reliable packet was sent under: the last ten of sixteen move up. *)
Definition sent_again (pseq : Z) (q : QueuedPacket) : QueuedPacket :=
  Queued (q_data q) (q_type q) (pseq :: take 9 (q_seqs q) ++ drop 10 (q_seqs q))
    (if deqb (q_firstSentTime q) d0 then now else q_firstSentTime q) now (q_retryInterval q) (q_timeout q).
Definition expired (q : QueuedPacket) : bool :=
  dltb d0 (q_timeout q) && dltb d0 (q_firstSentTime q) && dleb (q_timeout q) (dsub now (q_firstSentTime q)).
Definition due (q : QueuedPacket) : bool := dleb (q_retryInterval q) (dsub now (q_lastSentTime q)).
Definition resend_number (k : nat) : M controller Z :=
  pseq ← next_seq;
  update_link (fun l => l <| queuedPackets := alter (sent_again pseq) k (queuedPackets l) |>) ;;
  mret pseq.
(** The loop from packet [k]; a removed packet's place is taken by the next one.
    [fuel] is the number of packets left. *)
Fixpoint resend (fuel k : nat) : M controller unit :=
  match fuel with
  | O => mret tt
  | S fuel =>
      l ← gets c_link;
      match queuedPackets l !! k with
      | None => mret tt
      | Some q =>
          if expired q then update_link (fun l => l <| queuedPackets := delete k (queuedPackets l) |>) ;; resend fuel k
          else
            when (due q) (enqueue (q_type q) 0 (resend_number k) (copy_raw (q_data q))) ;;
            resend fuel (S k)
      end
  end.
Definition tick_resend : M controller unit := l ← gets c_link; resend (length (queuedPackets l)) 0.

(** ** Jitter buffers *)

Definition late_bars (late : double) : M controller unit :=
  if dleb (literal 2 10) late then set_bars 1 else when (dleb (literal 1 10) late) (lower_bars 2).
Definition tick_stream (k : nat) : M controller unit :=
  m ← gets c_media;
  match incomingStreams m !! k with
  | Some s =>
      match st_jitterBuffer s with
      | Some j =>
          let j := Tick j in
          update_media (fun m => m <| incomingStreams := <[k := s <| st_jitterBuffer := Some j |>]> (incomingStreams m) |>) ;;
          late_bars (nth 2 (GetAverageLateCount j) d0)
      | None => mret tt
      end
  | None => mret tt
  end.

(** ** UDP connectivity *)

Definition ping_relays : M controller unit := r ← gets c_routes; iterate_list SendUdpPing (endpoints r).
(** The average number of replies of the relays that replied. *)
Definition average_pongs (r : routes) : double :=
  let l := filter (fun e => e_type e = TYPE_UDP_RELAY /\ 0 < e_udpPongCount e) (map (ep r) (endpoints r)) in
  if decide (l = []) then d0
  else ddiv (foldl (fun acc e => dadd acc (of_Z (e_udpPongCount e))) d0 l) (of_Z (Z.of_nat (length l))).
Definition judge_udp (r : routes) : routes :=
  let avgPongs := average_pongs r in
  if GetBoolean (str "use_tcp") true then
    if deqb avgPongs d0 || (bool_decide (udpConnectivityState r = UDP_BAD) && dltb avgPongs (of_Z 7)) then
      let r := r <| udpConnectivityState := UDP_NOT_AVAILABLE |> <| useTCP := true |> <| useUDP := false |> <| waitingForRelayPeerInfo := false |> in
      if decide (e_type (ep r (default 0%nat (currentEndpoint r))) <> TYPE_TCP_RELAY) then r <| setCurrentEndpointToTCP := true |> else r
    else if dltb avgPongs (of_Z 3) then r <| udpConnectivityState := UDP_BAD |> <| useTCP := true |> <| setCurrentEndpointToTCP := true |>
    else r <| udpConnectivityState := UDP_AVAILABLE |>
  else r <| udpConnectivityState := UDP_NOT_AVAILABLE |>.
Definition tick_udp : M controller unit :=
  r ← gets c_routes;
  match udpConnectivityState r with
  | UDP_UNKNOWN =>
      ping_relays ;;
      update_routes (fun r => r <| udpConnectivityState := UDP_PING_SENT |> <| lastUdpPingTime := now |> <| udpPingCount := 1 |>)
  | UDP_PING_SENT | UDP_BAD =>
      let targetPingCount := if decide (udpConnectivityState r = UDP_BAD) then 10 else 4 in
      when (dleb (if decide (udpPingCount r < targetPingCount) then literal 1 2 else of_Z 1) (dsub now (lastUdpPingTime r))) (
        if decide (udpPingCount r < targetPingCount) then
          ping_relays ;;
          update_routes (fun r => r <| udpPingCount := udpPingCount r + 1 |> <| lastUdpPingTime := now |>)
        else
          deref (currentEndpoint r) ;;
          update_routes judge_udp)
  | _ => mret tt
  end.

(** ** Timeouts *)

Definition forget_p2p (r : routes) (i : nat) : routes :=
  if decide (e_type (ep r i) = TYPE_UDP_P2P_INET \/ e_type (ep r i) = TYPE_UDP_P2P_LAN) then set_ep i forget_rtt r else r.
Definition lose_p2p : M controller unit :=
  update_routes (fun r => foldl forget_p2p (r <| currentEndpoint := preferredRelay r |>) (endpoints r)) ;;
  r ← gets c_routes;
  when (allowP2p r) (SendPublicEndpointsRequest now) ;;
  UpdateDataSavingState ;;
  UpdateAudioBitrate ;;
  announce_network ;;
  update_session (fun s => s <| lastRecvPacketTime := now |>).
Definition is_p2p (r : routes) : bool := match currentEndpoint r with Some i => negb (is_relay (ep r i)) | None => false end.
Definition tick_timeouts : M controller unit :=
  c ← get;
  let st := callState (c_link c) in
  if in_call st then
    when (dleb recvTimeout (dsub now (lastRecvPacketTime (c_session c))))
      (if is_p2p (c_routes c) then lose_p2p else fail_with ERROR_TIMEOUT now)
  else
    when ((bool_decide (st = STATE_WAIT_INIT) || bool_decide (st = STATE_WAIT_INIT_ACK)) && dleb initTimeout (dsub now (connectionInitTime (c_session c))))
      (fail_with ERROR_TIMEOUT now).
Definition tick_reconnecting : M controller unit :=
  c ← get;
  when (bool_decide (callState (c_link c) = STATE_ESTABLISHED) && dleb reconnectingTimeout (dsub now (lastRecvPacketTime (c_session c))))
    (SetState STATE_RECONNECTING now).
Definition tick_established : M controller unit :=
  c ← get;
  when (negb (bool_decide (callState (c_link c) = STATE_ESTABLISHED)) && dltb d0 (setEstablishedAt (c_session c)) && dleb (setEstablishedAt (c_session c)) now)
    (SetState STATE_ESTABLISHED now ;; update_session (fun s => s <| setEstablishedAt := d0 |>)).

Definition tick_bars (prev : Z) : M controller unit :=
  q ← gets c_quality;
  let n := VoipState.tickCount q in
  when (every 10 n) (
    update_quality (fun q => q <| signalBarsHistory := <[Z.to_nat (n / 10 mod 4) := u8 (signalBarCount q)]> (signalBarsHistory q) |>) ;;
    q ← gets c_quality;
    when (negb (bool_decide (GetSignalBarsCount q = prev))) (log (SignalBarCountChanged (GetSignalBarsCount q)))).

(** ** One turn *)

Definition tick_signal : M controller unit :=
  c ← get;
  when (bool_decide (callState (c_link c) = STATE_RECONNECTING)) (set_bars 1).
Definition tick_transport : M controller unit :=
  update_link (fun l => if decide (0 < dontSendPackets l) then l <| dontSendPackets := dontSendPackets l - 1 |> else l) ;;
  update_link (fun l => l <| conctl := CCTick (fun _ => now) (conctl l) |>) ;;
  on_routes add_tcp_relays.
Definition tick_tcp_bars : M controller unit :=
  r ← gets c_routes;
  cur ← deref (currentEndpoint r);
  when (bool_decide (e_type (ep r cur) = TYPE_TCP_RELAY)) (lower_bars 3).
Definition tick_jitter : M controller unit :=
  m ← gets c_media; iterate_list tick_stream (seq 0 (length (incomingStreams m))).
Definition RunTickThread : M controller unit :=
  prev ← gets (fun c => GetSignalBarsCount (c_quality c));
  update_quality (fun q => q <| signalBarCount := 4 |> <| VoipState.tickCount := u32 (VoipState.tickCount q + 1) |>) ;;
  s ← gets c_session;
  if deqb (connectionInitTime s) d0 then mret tt else
  tick_signal ;;
  tick_rtt_history ;;
  tick_transport ;;
  tick_encoder ;;
  tick_tcp_bars ;;
  tick_nop ;;
  tick_init ;;
  tick_peer_info ;;
  tick_resend ;;
  tick_jitter ;;
  SendRelayPings now ;;
  tick_udp ;;
  tick_timeouts ;;
  tick_reconnecting ;;
  tick_established ;;
  tick_bars prev.
End tick.
