(* ===== verification/VoipSafety.v ===== *)
(** * libtgvoip: what no event of a call can break

    The threads of a call as events on the controller, and the invariant they keep:
    the packets of the send queue hold distinct buffers of the pool, so the queue of
    21 places never overflows; every packet fits into its buffer and its frame, so
    nothing is thrown where nothing catches; a call always has a route; the jitter
    buffers and the congestion control stay well formed; the application is told every
    state. *)

From stdpp Require Import gmap.
From S2P Require Import Prelude Exn VoipBuffers Double VoipDefs Congestion Jitter VoipCrypto VoipPacket VoipState VoipControl VoipReceive VoipTick.

(** ** The send queue *)

Abbreviation buffers q := (omap pp_data (sendQueue q)).
Definition nulls (q : queue) : nat := length (filter (fun p => pp_data p = None) (sendQueue q)).
(** [stopped]: [Stop] has queued its empty packet. *)
Record queue_ok (q : queue) (stopped : bool) : Prop := {
  qo_pool : pool_ok (pool q);
  qo_count : bufferCount (pool q) = 20%nat;
  qo_size : p_size (pool q) = 1024%nat;
  qo_nodup : NoDup (buffers q);
  qo_used : Forall (fun b => (b < 20)%nat /\ in_use (pool q) b = true) (buffers q);
  qo_nulls : (nulls q <= if stopped then 1 else 0)%nat
}.

Lemma buffers_cons p l : omap pp_data (p :: l) = match pp_data p with Some b => b :: omap pp_data l | None => omap pp_data l end.
Proof. done. Qed.
Lemma queue_length (l : list PendingOutgoingPacket) :
  length l = (length (omap pp_data l) + length (filter (fun p => pp_data p = None) l))%nat.
Proof.
  induction l as [|p l IH]; [done|]. rewrite filter_cons, buffers_cons. destruct (pp_data p) as [b|] eqn:E.
  - rewrite decide_False by done. cbn [length]. lia.
  - rewrite decide_True by done. cbn [length]. lia.
Qed.
Lemma bounded_length (l : list nat) n : NoDup l -> Forall (fun b => (b < n)%nat) l -> (length l <= n)%nat.
Proof.
  intros Hn Hl. rewrite <- (length_seq n 0). apply submseteq_length, NoDup_submseteq; [done|].
  intros x Hx. apply elem_of_seq. rewrite Forall_forall in Hl. specialize (Hl x Hx). lia.
Qed.
Lemma queue_bound q s : queue_ok q s -> (length (sendQueue q) <= if s then 21 else 20)%nat.
Proof.
  intros [_ _ _ Hn Hu Hz]. rewrite queue_length. unfold nulls in Hz.
  assert (length (buffers q) <= 20)%nat by (apply bounded_length; [done|]; eapply Forall_impl; [exact Hu|]; cbn; tauto).
  destruct s; lia.
Qed.

(** The pool with the contents of a buffer replaced by as many bytes. *)
Lemma replace_buffer_ok p b data : pool_ok p -> length data = p_size p ->
  pool_ok (Pool (usedBuffers p) (bufferCount p) (p_size p) (<[b := data]> (p_mem p))).
Proof.
  intros (P1 & P2 & P3 & P4) Hd. unfold pool_ok. cbn. split; [done|]. split; [done|]. split; [by rewrite length_insert|].
  by apply Forall_insert.
Qed.

(** A buffer in hand: in use and not in the queue. *)
Definition holding (b : nat) (q : queue) (s : bool) : Prop :=
  queue_ok q s /\ (b < 20)%nat /\ in_use (pool q) b = true /\ b ∉ buffers q.

Lemma take_buffer_ok q s : queue_ok q s ->
  exists r q', VoipControl.take_buffer q = (Value r, q') /\ match r with Some b => holding b q' s | None => q' = q end.
Proof.
  intros [H1 H2 H3 H4 H5 H6]. unfold VoipControl.take_buffer, zoom. pose proof (Get_spec (pool q) H1) as G.
  destruct (Get (pool q)) as [[[b|]| |] p]; [|destruct G as [-> _]; exists None, q; by destruct q|done|done].
  destruct G as (G1 & G2 & G3 & G4 & G5 & _ & G7). eexists (Some b), _. split; [reflexivity|].
  rewrite H2 in *. unfold holding. cbn [pool sendQueue set].
  assert (b ∉ buffers q) as Hb by (intros Hin; rewrite Forall_forall in H5; destruct (H5 b Hin) as [_ F]; congruence).
  split; [|split; [done|]; split; [rewrite G7 by done; by rewrite bool_decide_eq_true_2, orb_true_r|done]].
  split; cbn [pool sendQueue set]; [done|congruence|congruence|done| |done].
  eapply Forall_impl; [exact H5|]. cbn. intros j [Hj Hu]. split; [done|]. by rewrite G7, Hu.
Qed.
(** A writer that keeps to a buffer of the pool. *)
Definition in_buffer (m : M out_stream unit) : Prop := forall buf, length buf = 1024%nat ->
  exists o, m (output_on buf) = (Value tt, o) /\ length (o_buffer o) = 1024%nat.
Lemma fits_in_buffer m n : fits n m -> (n <= 1024)%nat -> in_buffer m.
Proof. intros Hm Hn buf Hl. destruct (fits_on n m buf Hm) as (o & E & _ & Ho); [lia|]. exists o. split; [exact E|congruence]. Qed.
Lemma write_buffer_ok b m q s : holding b q s -> in_buffer m ->
  exists r q', write_buffer b m q = (Value r, q') /\ holding b q' s.
Proof.
  intros ([H1 H2 H3 H4 H5 H6] & B1 & B2 & B3) Hm. unfold write_buffer.
  assert (length (nth b (p_mem (pool q)) []) = p_size (pool q)) as Hl.
  { destruct H1 as (_ & _ & P3 & P4). apply (proj1 (Forall_nth _ [] _) P4). lia. }
  destruct (Hm (nth b (p_mem (pool q)) [])) as (o & -> & F4); [by rewrite Hl|].
  eexists _, _. split; [reflexivity|]. split; [|done].
  split; cbn [pool sendQueue set]; [|done|done|done|done|done]. apply replace_buffer_ok; [done|]. by rewrite F4.
Qed.
Lemma put_ok b p q s : holding b q s -> pp_data p = Some b ->
  exists q', Put p q = (Value tt, q') /\ queue_ok q' s.
Proof.
  intros (Q & B1 & B2 & B3) Hp. pose proof Q as [H1 H2 H3 H4 H5 H6]. unfold Put.
  assert (queue_ok (q <| sendQueue := sendQueue q ++ [p] |>) s) as Q'.
  { split; cbn [pool sendQueue set]; [done|done|done| | |].
    - rewrite omap_app. rewrite buffers_cons, Hp. apply NoDup_app. split; [done|]. split; [|apply NoDup_singleton].
      intros x Hx ->%list_elem_of_singleton. done.
    - rewrite omap_app. rewrite buffers_cons, Hp. apply Forall_app. split; [done|]. by apply Forall_singleton.
    - unfold nulls. cbn [sendQueue set]. rewrite filter_app, filter_cons_False, filter_nil, app_nil_r by (by rewrite Hp). exact H6. }
  pose proof (queue_bound _ _ Q') as Hb. cbn [sendQueue set] in Hb.
  rewrite decide_False by (unfold QUEUE_CAPACITY; destruct s; lia). by eexists.
Qed.
Lemma put_null q p : queue_ok q false -> pp_data p = None -> exists q', Put p q = (Value tt, q') /\ queue_ok q' true.
Proof.
  intros Q Hp. pose proof Q as [H1 H2 H3 H4 H5 H6]. unfold Put.
  assert (queue_ok (q <| sendQueue := sendQueue q ++ [p] |>) true) as Q'.
  { split; cbn [pool sendQueue set]; [done|done|done| | |].
    - rewrite omap_app. by rewrite buffers_cons, Hp, app_nil_r.
    - rewrite omap_app. by rewrite buffers_cons, Hp, app_nil_r.
    - unfold nulls in *. cbn [sendQueue set]. rewrite filter_app, length_app, filter_cons_True, filter_nil by done. cbn. lia. }
  pose proof (queue_bound _ _ Q') as Hb. cbn [sendQueue set] in Hb.
  rewrite decide_False by (unfold QUEUE_CAPACITY; lia). by eexists.
Qed.
Lemma get_blocking_ok q s : queue_ok q s -> exists r q', GetBlocking q = (Value r, q') /\
  match r with
  | Some p => match pp_data p with Some b => holding b q' s | None => queue_ok q' s end
  | None => q' = q
  end.
Proof.
  intros [H1 H2 H3 H4 H5 H6]. unfold GetBlocking. destruct (sendQueue q) as [|p l] eqn:E; [by exists None, q|].
  eexists (Some p), _. split; [reflexivity|]. rewrite buffers_cons in H4, H5. unfold nulls in H6. rewrite E, filter_cons in H6.
  destruct (pp_data p) as [b|] eqn:Ep.
  - rewrite decide_False in H6 by done. apply NoDup_cons in H4 as [N1 N2]. apply Forall_cons in H5 as [[F1 F2] F3].
    split; [|done]. by split.
  - rewrite decide_True in H6 by done. cbn in H6. split; cbn [pool sendQueue set]; [done|done|done|done|done|].
    unfold nulls. cbn [sendQueue set]. lia.
Qed.
Lemma reuse_ok b q s : holding b q s -> exists p', Reuse b (pool q) = (Value tt, p') /\ queue_ok (q <| pool := p' |>) s.
Proof.
  intros ([H1 H2 H3 H4 H5 H6] & B1 & B2 & B3). destruct (Reuse_spec (pool q) b H1) as (p' & R & R1 & R2 & R3 & _ & R5); [lia|].
  exists p'. split; [exact R|]. split; cbn [pool sendQueue set]; [done|congruence|congruence|done| |done].
  apply Forall_forall. intros j Hj. rewrite Forall_forall in H5. destruct (H5 j Hj) as [J1 J2]. split; [done|].
  rewrite R5 by lia. rewrite J2, bool_decide_eq_false_2; [done|]. by intros ->.
Qed.

(** ** The controller *)

Definition stream_ok (s : Stream) : Prop := match st_jitterBuffer s with Some j => jitter_ok j /\ 2 <= maxUsedSlots j | None => True end.
(** The extras that ride on packets: one of each type, no longer than the largest. *)
Definition extra_types : list Z := [EXTRA_TYPE_STREAM_FLAGS; EXTRA_TYPE_LAN_ENDPOINT; EXTRA_TYPE_NETWORK_CHANGED; EXTRA_TYPE_GROUP_CALL_KEY;
  EXTRA_TYPE_REQUEST_GROUP; EXTRA_TYPE_IPV6_ENDPOINT].
Definition extra_limit (type : Z) : nat := if decide (type = EXTRA_TYPE_GROUP_CALL_KEY) then 256 else 18.
Definition extra_fits (type : Z) (data : list Z) : Prop := type ∈ extra_types /\ (length data <= extra_limit type)%nat.
Definition extras_inv (xs : list UnacknowledgedExtraData) : Prop :=
  NoDup (map x_type xs) /\ Forall (fun x => extra_fits (x_type x) (x_data x)) xs.
Record link_inv (l : link) : Prop := {
  li_congestion : congestion_ok (conctl l);
  li_queued : Forall (fun q => (length (q_data q) <= 1024)%nat) (queuedPackets l);
  li_extras : extras_inv (currentExtras l);
  li_id : (length (linkCallID l) <= 16)%nat
}.
Definition routes_inv (r : routes) : Prop := currentEndpoint r <> None /\ preferredRelay r <> None.
(** There is one stream to the peer, and at most four short frames are kept to be repeated. *)
Definition frames_ok (l : list (list Z)) : Prop := (length l <= 4)%nat /\ Forall (fun f => (length f <= 253)%nat) l.
Record media_inv (m : media) : Prop := {
  mi_out : length (outgoingStreams m) = 1%nat;
  mi_in : Forall stream_ok (incomingStreams m);
  mi_frames : frames_ok (ecAudioPackets m)
}.
(** The last state the application was told. *)
Definition last_state (l : list effect) : call_state :=
  foldl (fun st e => match e with ConnectionStateChanged st => st | _ => st end) STATE_WAIT_INIT l.
Definition told (e : effect) (st : call_state) : call_state := match e with ConnectionStateChanged st => st | _ => st end.
Lemma last_state_snoc l e : last_state (l ++ [e]) = told e (last_state l).
Proof. unfold last_state. by rewrite foldl_app. Qed.

(** [K] is what holds of the queue: [queue_ok], or that a buffer is in hand. *)
Record inv (K : queue -> bool -> Prop) (c : controller) : Prop := {
  iv_queue : K (c_queue c) (stopping (c_session c));
  iv_link : link_inv (c_link c);
  iv_routes : routes_inv (c_routes c);
  iv_media : media_inv (c_media c);
  iv_told : last_state (c_log c) = callState (c_link c)
}.
Abbreviation call_ok := (inv queue_ok).

(** Acknowledgements. *)
Lemma ack_pass_ok ackId acks now i l : forall c, congestion_ok c -> congestion_ok (ack_pass ackId acks now i l c).2.
Proof.
  induction l as [|p l IH]; intros c C; [exact C|]. cbn [ack_pass].
  assert (congestion_ok (ack_recent ackId acks now i p c).2) as C1.
  { unfold ack_recent. destruct (negb _); [exact C|]. destruct (_ && _); [by apply acknowledged_ok|exact C]. }
  destruct (ack_recent ackId acks now i p c) as [p1 c1]. specialize (IH c1 C1). by destruct (ack_pass ackId acks now i l c1).
Qed.
Lemma ack_all_ok ackId acks now l c : congestion_ok c -> congestion_ok (ack_all ackId acks now l c).2.
Proof.
  intros C. unfold ack_all. generalize 31%nat. intros n. induction n as [|n IH]; [exact C|].
  rewrite for_loop_S. unfold ack_body at 1. by apply ack_pass_ok.
Qed.
(** What the congestion control and the acknowledgements leave alone. *)
Definition same_link (l l' : link) : Prop :=
  queuedPackets l' = queuedPackets l /\ currentExtras l' = currentExtras l /\ linkCallID l' = linkCallID l /\ callState l' = callState l.
Lemma ack_packets_ok ackId acks now l : congestion_ok (conctl l) ->
  congestion_ok (conctl (ack_packets ackId acks now l)) /\ same_link l (ack_packets ackId acks now l).
Proof.
  intros C. pose proof (ack_all_ok ackId acks now (recentOutgoingPackets l) _ (acknowledged_ok ackId now _ C)) as A.
  unfold ack_packets. generalize dependent (ack_all ackId acks now (recentOutgoingPackets l) (PacketAcknowledged ackId now (conctl l))).
  intros rc A. by split.
Qed.
Lemma acked_extras_same xs : forall l : link, let l' := foldl (fun l x => ProcessAcknowledgedOutgoingExtra x l) l xs in
  conctl l' = conctl l /\ same_link l l'.
Proof.
  induction xs as [|x xs IH]; intros l; [done|]. cbn [foldl]. destruct (IH (ProcessAcknowledgedOutgoingExtra x l)) as (E1 & E2 & E3 & E4 & E5).
  assert (conctl (ProcessAcknowledgedOutgoingExtra x l) = conctl l /\ same_link l (ProcessAcknowledgedOutgoingExtra x l)) as (F1 & F2 & F3 & F4 & F5)
    by (unfold ProcessAcknowledgedOutgoingExtra; case_decide; [by destruct (didReceiveGroupCallKeyAck l)|done]).
  unfold same_link. by rewrite E1, E2, E3, E4, E5.
Qed.
Lemma resume_same l : conctl (resume_sending l) = conctl l /\ same_link l (resume_sending l).
Proof. unfold resume_sending. by destruct (_ && _). Qed.
Lemma ack_extras_same l : conctl (ack_extras l) = conctl l /\
  same_link (l <| currentExtras := filter (fun x => extra_acked (lastRemoteAckSeq l) x = false) (currentExtras l) |>) (ack_extras l).
Proof.
  unfold ack_extras. generalize (filter (fun x => extra_acked (lastRemoteAckSeq l) x = true) (currentExtras l)).
  generalize (filter (fun x => extra_acked (lastRemoteAckSeq l) x = false) (currentExtras l)). intros ys xs.
  destruct (acked_extras_same xs l) as (E1 & E2 & E3 & E4 & E5). by split_and!.
Qed.

Lemma extras_filter P `{forall x, Decision (P x)} xs : extras_inv xs -> extras_inv (filter P xs).
Proof.
  intros [N F]. split; [|rewrite Forall_forall in F; apply Forall_forall; intros x [_ Hx]%list_elem_of_filter; by apply F]. clear F. induction xs as [|x xs IH]; [constructor|]. apply NoDup_cons in N as [N1 N2].
  rewrite filter_cons. case_decide; [|by apply IH]. cbn [map]. apply NoDup_cons. split; [|by apply IH].
  intros Hin. apply N1. apply list_elem_of_fmap in Hin as (y & E & Hy). apply list_elem_of_filter in Hy as [_ Hy]. rewrite E. by apply list_elem_of_fmap_2.
Qed.
Lemma extras_replace type data xs : extra_fits type data ->
  match replace_extra type data xs with
  | Some xs' => map x_type xs' = map x_type xs /\ (Forall (fun x => extra_fits (x_type x) (x_data x)) xs -> Forall (fun x => extra_fits (x_type x) (x_data x)) xs')
  | None => type ∉ map x_type xs
  end.
Proof.
  intros Hx. induction xs as [|x xs IH]; cbn [replace_extra]; [apply not_elem_of_nil|]. case_decide as Ht.
  - cbn [map x_type]. rewrite Ht. split; [done|]. intros F. apply Forall_cons in F as [_ F]. by apply Forall_cons.
  - destruct (replace_extra type data xs) as [xs'|]; cbn [mbind option_bind map].
    + destruct IH as [IH1 IH2]. split; [by rewrite IH1|]. intros [F1 F2]%Forall_cons. apply Forall_cons. auto.
    + apply not_elem_of_cons. by split.
Qed.
Lemma extras_send data type l : extra_fits type data -> extras_inv (currentExtras l) -> extras_inv (currentExtras (SendExtra data type l)).
Proof.
  intros Hx [N F]. pose proof (extras_replace type data (currentExtras l) Hx) as R. unfold SendExtra.
  destruct (replace_extra _ _ _) as [xs|]; cbn [currentExtras set].
  - destruct R as [R1 R2]. split; [by rewrite R1|by apply R2].
  - split; [|by apply Forall_app; split; [|by apply Forall_singleton]]. rewrite map_app. apply NoDup_app. split; [done|]. split; [|apply NoDup_singleton].
    intros t Ht ->%list_elem_of_singleton. done.
Qed.
Lemma stamped_extras xs i x n : extras_inv xs -> xs !! i = Some x -> extras_inv (<[i := Extra (x_type x) (x_data x) n]> xs).
Proof.
  intros [N F] Hi. split.
  - change (map x_type) with (fmap (M := list) x_type). rewrite list_fmap_insert. rewrite list_insert_id; [done|]. by rewrite list_lookup_fmap, Hi.
  - apply Forall_insert; [done|]. exact (Forall_lookup_1 _ _ _ _ F Hi).
Qed.
Ltac extra_go := split; [apply (bool_decide_unpack _); reflexivity|
  match goal with |- (_ <= ?n)%nat => let k := eval vm_compute in n in change n with k end; rewrite ?length_take; cbn [length]; lia].

Section operations.
Context {b : bool} (K : queue -> bool -> Prop).
Implicit Types c : controller.

Definition link_fine (f : link -> link) : Prop := forall l, link_inv l -> link_inv (f l) /\ callState (f l) = callState l.
Lemma safe_link f : link_fine f -> safe b (inv K) (update_link f).
Proof. intros Hf c [I1 I2 I3 I4 I5]. destruct (Hf _ I2) as [F1 F2]. split; cbn -[last_state]; [done|done|done|done|]. by rewrite F2. Qed.
Lemma safe_routes f : (forall r, routes_inv r -> routes_inv (f r)) -> safe b (inv K) (update_routes f).
Proof. intros Hf c [I1 I2 I3 I4 I5]. split; cbn -[last_state]; [done|done|by apply Hf|done|done]. Qed.
Lemma safe_media f : (forall m, media_inv m -> media_inv (f m)) -> safe b (inv K) (update_media f).
Proof. intros Hf c [I1 I2 I3 I4 I5]. split; cbn -[last_state]; [done|done|done|by apply Hf|done]. Qed.
Lemma safe_session f : (forall s, stopping (f s) = stopping s) -> safe b (inv K) (update_session f).
Proof. intros Hf c [I1 I2 I3 I4 I5]. split; cbn -[last_state]; [by rewrite Hf|done|done|done|done]. Qed.
Lemma safe_quality f : safe b (inv K) (update_quality f).
Proof. intros c [I1 I2 I3 I4 I5]. by split. Qed.
Lemma safe_log e : (forall st, told e st = st) -> safe b (inv K) (log e).
Proof. intros He c [I1 I2 I3 I4 I5]. split; cbn -[last_state]; [done|done|done|done|]. by rewrite last_state_snoc, He. Qed.
Lemma safe_deref (p : option nat) : p <> None -> safe b (inv K) (deref p).
Proof. intros Hp. destruct p; [apply safe_ret|done]. Qed.
(** What is built goes on, with its length. *)
Lemma safe_build {B} n size (m : M out_stream unit) (f : list Z -> M controller B) : fits n m ->
  (forall data, (length data <= n)%nat -> safe b (inv K) (f data)) -> safe b (inv K) (build size m ≫= f).
Proof. intros (bytes & Hm & Hl) Hf c I. rewrite (run_bind _ _ _ _ _ (build_writes size m bytes c Hm)). by apply Hf. Qed.
Lemma safe_net {A} (m : M link A) : (forall l, link_inv l -> exists a l', m l = (Value a, l') /\ link_inv l' /\ callState l' = callState l) -> safe b (inv K) (on_net m).
Proof.
  intros Hm c [I1 I2 I3 I4 I5]. unfold on_net, zoom. destruct (Hm _ I2) as (a & l & -> & H2 & H3).
  split; cbn -[last_state]; [done|done|done|done|]. etransitivity; [exact I5|symmetry; exact H3].
Qed.
Lemma link_inv_same l l' : link_inv l -> conctl l' = conctl l -> queuedPackets l' = queuedPackets l -> currentExtras l' = currentExtras l ->
  linkCallID l' = linkCallID l -> link_inv l'.
Proof. intros [L1 L2 L3 L4] E1 E2 E3 E4. split; by rewrite ?E1, ?E2, ?E3, ?E4. Qed.
Lemma safe_peer_version v : safe b (inv K) (SetPeerVersion v).
Proof. intros c [I1 I2 I3 I4 I5]. split; [done| |done|done|done]. by eapply link_inv_same. Qed.
Lemma safe_mtproto2 : safe b (inv K) SetMTProto2.
Proof. intros c [I1 I2 I3 I4 I5]. by split. Qed.
Lemma safe_enter st now : safe b (inv K) (enter_state st now).
Proof.
  intros c [I1 I2 I3 I4 I5]. split; cbn -[last_state]; [done|by eapply link_inv_same|done|done|].
  change (last_state (c_log c ++ [ConnectionStateChanged st]) = st). by rewrite last_state_snoc.
Qed.

Lemma link_fine_id f : (forall l, conctl (f l) = conctl l /\ same_link l (f l)) -> link_fine f.
Proof. intros Hf l L. destruct (Hf l) as (E1 & E2 & E3 & E4 & E5). split; [by apply (link_inv_same l)|done]. Qed.
Lemma link_fine_extra d t : extra_fits t d -> link_fine (SendExtra d t).
Proof.
  intros Hx l [L1 L2 L3 L4]. pose proof (extras_send d t l Hx L3) as L3'.
  assert (conctl (SendExtra d t l) = conctl l /\ queuedPackets (SendExtra d t l) = queuedPackets l /\ linkCallID (SendExtra d t l) = linkCallID l /\
    callState (SendExtra d t l) = callState l) as (E1 & E2 & E3 & E4) by (unfold SendExtra; by destruct (replace_extra _ _ _)).
  split; [|exact E4]. split; [by rewrite E1|by rewrite E2|exact L3'|by rewrite E3].
Qed.
Lemma link_fine_reliably t d r tmo j : (length (default [] d) <= 1024)%nat -> link_fine (SendPacketReliably t d r tmo j).
Proof.
  intros Hd l [L1 L2 L3 L4]. split; [|done]. split; [done| |done|done]. cbn. apply Forall_app. split; [done|]. by apply Forall_singleton.
Qed.
Lemma ack_queued_fine : link_fine ack_queued.
Proof.
  intros l [L1 L2 L3 L4]. unfold ack_queued. split; [|done]. split; cbn [conctl queuedPackets currentExtras linkCallID set]; [done| |done|done].
  apply Forall_forall. intros q Hq. apply list_elem_of_filter in Hq as [_ Hq]. rewrite Forall_forall in L2. by apply L2.
Qed.
Lemma ack_extras_fine : link_fine ack_extras.
Proof.
  intros l [L1 L2 L3 L4]. destruct (ack_extras_same l) as (E1 & E2 & E3 & E4 & E5). generalize dependent (ack_extras l). intros l' E1 E2 E3 E4 E5.
  cbn [queuedPackets currentExtras linkCallID callState set] in *. split; [|exact E5].
  split; [by rewrite E1|by rewrite E2|rewrite E3; by apply extras_filter|by rewrite E4].
Qed.
Lemma ack_packets_fine a k now : link_fine (ack_packets a k now).
Proof.
  intros l [L1 L2 L3 L4]. destruct (ack_packets_ok a k now l L1) as (A1 & A2 & A3 & A4 & A5). generalize dependent (ack_packets a k now l). intros l' A1 A2 A3 A4 A5.
  split; [|exact A5]. split; [exact A1|by rewrite A2|by rewrite A3|by rewrite A4].
Qed.
Lemma link_fine_comp f g : link_fine f -> link_fine g -> link_fine (fun l => f (g l)).
Proof. intros Hf Hg l L. destruct (Hg l L) as [G1 G2]. destruct (Hf _ G1) as [F1 F2]. split; [exact F1|by rewrite F2]. Qed.
Lemma link_fine_acks a k now : link_fine (receive_acks a k now).
Proof.
  assert (link_fine (fun l => ack_extras (ack_queued (ack_packets a k now (resume_sending l))))) as H.
  { apply (link_fine_comp ack_extras); [exact ack_extras_fine|]. apply (link_fine_comp ack_queued); [exact ack_queued_fine|].
    apply (link_fine_comp (ack_packets a k now)); [apply ack_packets_fine|]. apply link_fine_id, resume_same. }
  intros l L. unfold receive_acks. destruct (seqgt _ _); [exact (H l L)|done].
Qed.
Lemma safe_receive_seq n now : safe b (inv K) (on_net (receive_seq n now)).
Proof.
  apply safe_net. intros l L. unfold receive_seq. destruct (seqgt _ _); [|case_decide; [destruct (negb _)|]];
    (eexists _, _; split; [reflexivity|]; split; [by eapply link_inv_same|done]).
Qed.
Lemma safe_next_seq : safe b (inv K) next_seq.
Proof. apply safe_net. intros l L. eexists _, _. split; [reflexivity|]. split; [by eapply link_inv_same|done]. Qed.
End operations.
#[local] Hint Resolve safe_quality safe_peer_version safe_mtproto2 safe_enter safe_next_seq safe_receive_seq : safe.
#[local] Hint Extern 1 (safe _ (inv _) (update_session _)) => apply safe_session; intros ?; reflexivity : safe.
#[local] Hint Extern 1 (safe _ (inv _) (update_link _)) =>
  apply safe_link; first [apply link_fine_extra; extra_go | apply link_fine_acks | apply link_fine_id; intros ?; by split_and!] : safe.
#[local] Hint Extern 1 (safe _ (inv _) (update_routes _)) => apply safe_routes; intros ? [? ?]; by split : safe.
#[local] Hint Extern 1 (safe _ (inv _) (update_media _)) => apply safe_media; intros ? [? ? ?]; by split : safe.
#[local] Hint Extern 1 (safe _ (inv _) (log _)) => apply safe_log; by intros ? : safe.

(** ** The small operations *)

Section small.
Context {b : bool} (K : queue -> bool -> Prop).

Lemma safe_fail e now : safe b (inv K) (fail_with e now).
Proof. unfold fail_with. safe_go. Qed.
#[local] Hint Resolve safe_fail : safe.
Lemma safe_flags s : safe b (inv K) (SendStreamFlags s).
Proof.
  unfold SendStreamFlags. cbv zeta. apply (safe_build K 5); [fits_go; lia|]. intros data Hd. apply safe_link, link_fine_extra. extra_go.
Qed.
#[local] Hint Resolve safe_flags : safe.
Lemma safe_out_stream i s : safe b (inv K) (update_media (fun m => m <| outgoingStreams := <[i := s]> (outgoingStreams m) |>)).
Proof. apply safe_media. intros m [M1 M2 M3]. split; [cbn; by rewrite length_insert|done|done]. Qed.
#[local] Hint Resolve safe_out_stream : safe.
Lemma safe_mute_stream mute i : safe b (inv K) (mute_stream mute i).
Proof. unfold mute_stream. safe_go. apply safe_link, link_fine_reliably. cbn. lia. Qed.
#[local] Hint Resolve safe_mute_stream : safe.
Lemma safe_mic mute now : safe b (inv K) (SetMicMute mute now).
Proof. unfold SetMicMute. safe_go. apply safe_log. by destruct mute. Qed.
#[local] Hint Resolve safe_mic : safe.
Lemma safe_state st now : safe b (inv K) (SetState st now).
Proof. unfold SetState. safe_go. Qed.
Lemma safe_output_state : safe b (inv K) UpdateAudioOutputState.
Proof. unfold UpdateAudioOutputState. safe_go. all: apply safe_log; by destruct (existsb _ _). Qed.
End small.
#[local] Hint Resolve safe_fail safe_flags safe_out_stream safe_mic safe_state safe_output_state : safe.

(** ** Queueing a packet *)

(** What numbers a packet leaves the queue alone. *)
Definition numbers (m : M controller Z) : Prop := forall b K, safe b (inv K) m.
Lemma queue_triple {A} (K : queue -> bool -> Prop) (m : M queue A) (Q : A -> queue -> bool -> Prop) :
  (forall s, triple (fun q => K q s) m (fun a q => Q a q s) (fun _ => False)) -> triple (inv K) (on_queue m) (fun a => inv (Q a)) (fun _ => False).
Proof.
  intros Hm c [I1 I2 I3 I4 I5]. unfold on_queue, zoom. specialize (Hm _ _ I1). cbn beta in Hm.
  destruct (m (c_queue c)) as [[a| |] q]; [by split|done|done].
Qed.
Lemma take_triple : triple call_ok (on_queue VoipControl.take_buffer)
  (fun r => inv (fun q s => match r with Some b => holding b q s | None => queue_ok q s end)) (fun _ => False).
Proof.
  apply (queue_triple queue_ok VoipControl.take_buffer (fun r q s => match r with Some b => holding b q s | None => queue_ok q s end)).
  intros s q Q. destruct (take_buffer_ok q s Q) as (r & q' & -> & H). destruct r; [exact H|by subst].
Qed.
Lemma write_triple b m : in_buffer m -> triple (inv (holding b)) (on_queue (write_buffer b m)) (fun _ => inv (holding b)) (fun _ => False).
Proof.
  intros Hm. apply (queue_triple (holding b) _ (fun _ => holding b)).
  intros s q Q. by destruct (write_buffer_ok b m q s Q Hm) as (r & q' & -> & H2).
Qed.
Lemma put_triple b p : pp_data p = Some b -> triple (inv (holding b)) (on_queue (Put p)) (fun _ => call_ok) (fun _ => False).
Proof.
  intros Hp. apply (queue_triple (holding b) _ (fun _ => queue_ok)).
  intros s q Q. by destruct (put_ok b p q s Q Hp) as (q' & -> & H).
Qed.
Lemma safe_enqueue b type endpoint number m : numbers number -> in_buffer m -> safe b call_ok (enqueue type endpoint number m).
Proof.
  intros Hn Hm. apply safe_any, triple_sure. eapply triple_bind; [exact take_triple|]. intros [i|]; [|apply (triple_ret (fun _ => call_ok))].
  eapply triple_bind; [by apply write_triple|]. intros len.
  eapply triple_bind; [apply triple_sure, (Hn false (holding i))|]. intros pseq. by apply put_triple.
Qed.
Lemma numbers_next : numbers next_seq.
Proof. intros b K. apply safe_next_seq. Qed.
Lemma numbers_ret n : numbers (mret n).
Proof. intros b K. apply safe_ret. Qed.
#[local] Hint Resolve safe_enqueue numbers_next numbers_ret : safe.
#[local] Hint Extern 2 (in_buffer _) => apply (fits_in_buffer _ 1024); [solve [fits_go; lia]|lia] : safe.

(** ** Routes, pings and the initial packet *)

Section calling.
Context {b : bool} `{cfg : Config}.
Implicit Types now : double.

Lemma safe_data_saving K : safe b (inv K) UpdateDataSavingState.
Proof. unfold UpdateDataSavingState. safe_go. Qed.
Lemma set_bitrate_inv x y m : media_inv m -> media_inv (set_bitrate x y m).
Proof. intros [M1 M2 M3]. unfold set_bitrate. by destruct (encoder m). Qed.
Lemma safe_bitrate K : safe b (inv K) UpdateAudioBitrate.
Proof. unfold UpdateAudioBitrate. safe_go. apply safe_media. intros m Hm. repeat case_match; by apply set_bitrate_inv. Qed.
#[local] Hint Resolve safe_data_saving safe_bitrate : safe.

Lemma safe_relay_request K now i : safe b (inv K) (SendRelayRequest now i).
Proof. unfold SendRelayRequest. safe_go. Qed.
#[local] Hint Resolve safe_relay_request : safe.
Lemma safe_request_endpoint K now i : safe b (inv K) (request_endpoint now i).
Proof. unfold request_endpoint. safe_go. Qed.
#[local] Hint Resolve safe_request_endpoint : safe.
Lemma safe_public_request K now : safe b (inv K) (SendPublicEndpointsRequest now).
Proof. unfold SendPublicEndpointsRequest. safe_go. Qed.
Lemma safe_udp_ping K i : safe b (inv K) (SendUdpPing i).
Proof. unfold SendUdpPing. safe_step. cbv zeta. safe_step; [safe_go|]. eapply safe_build; [fits_go; apply Nat.le_refl|]. intros data _. safe_go. Qed.

Lemma numbers_ping i : numbers (ping_number i).
Proof. intros b' K. unfold ping_number. safe_go. Qed.
#[local] Hint Resolve numbers_ping : safe.
Lemma safe_ping now i : safe b call_ok (ping_endpoint now i).
Proof. unfold ping_endpoint. safe_go. Qed.
#[local] Hint Resolve safe_ping : safe.
Lemma safe_relay_step now acc i : safe b call_ok (relay_step now acc i).
Proof. unfold relay_step. safe_go. Qed.
#[local] Hint Resolve safe_relay_step : safe.
Lemma safe_prefer best : safe b call_ok (prefer_relay best).
Proof. unfold prefer_relay. safe_go. apply safe_deref, H. Qed.
Lemma safe_switch minPing : safe b call_ok (switch_p2p minPing).
Proof. unfold switch_p2p. safe_go. all: try (apply safe_deref, H). all: apply safe_routes; intros ? [? ?]; by split. Qed.
#[local] Hint Resolve safe_prefer safe_switch : safe.
Lemma safe_relay_pings now : safe b call_ok (SendRelayPings now).
Proof. unfold SendRelayPings. safe_go. apply safe_deref, H. Qed.

Lemma fits_init_payload c : fits 23 (init_payload c).
Proof. unfold init_payload. cbv zeta. case_decide; fits_go; lia. Qed.
#[local] Hint Resolve fits_init_payload : fits.
Lemma safe_send_init now : safe b call_ok (SendInit now).
Proof. unfold SendInit. safe_go. unfold send_init_to. safe_go. Qed.
#[local] Hint Resolve safe_send_init : safe.
Lemma safe_connect now : safe b call_ok (Connect true now).
Proof. unfold Connect. cbn [negb andb]. safe_go. Qed.

(** A frame of up to 1017 bytes fits into a buffer of the pool. *)
Lemma fits_frame data ts : fits (7 + length data) (write_frame data ts).
Proof. unfold write_frame. cbv zeta. case_decide; fits_go; lia. Qed.
Lemma fits_ec id ts l : frames_ok l -> fits 1022 (write_ec id ts l).
Proof.
  intros [Hn Hl]. rewrite Forall_forall in Hl. unfold write_ec.
  eapply fits_le; [do 3 (eapply fits_bind; [eauto with fits nocore|]); apply (fits_iterate _ 254)|lia].
  intros f Hf. specialize (Hl f Hf). fits_go. lia.
Qed.
Lemma keep_frames f l : (length f <= 253)%nat -> frames_ok l -> frames_ok (keep_ec f l).
Proof.
  intros Hf [Hn Hl]. unfold keep_ec. split; [rewrite length_drop, length_app; cbn [length]; lia|]. apply Forall_drop, Forall_app. split; [done|by apply Forall_singleton].
Qed.
Lemma safe_audio_input data secondaryData : (length data <= 1017)%nat -> (length secondaryData <= 253)%nat -> safe b call_ok (HandleAudioInput data secondaryData).
Proof.
  intros Hd Hs. unfold HandleAudioInput. apply safe_bind_get. intros s I.
  destruct (stopping _); [apply safe_ret|]. destruct (_ || _); [apply safe_ret|].
  safe_step; [apply safe_enqueue; [apply numbers_next|]; eapply fits_in_buffer; [apply fits_frame|lia]|].
  destruct (outgoingStreams (c_media s)) as [|st l] eqn:E; [by pose proof (mi_out _ (iv_media _ _ I)) as Ho; rewrite E in Ho|].
  safe_step; [|safe_go]. apply safe_when. intros _. safe_step; [apply safe_media; intros m [M1 M2 M3]; split; [done|done|by apply keep_frames]|].
  apply safe_bind_gets. intros c1 I1. apply safe_enqueue; [apply numbers_next|]. eapply fits_in_buffer; [apply fits_ec, (iv_media _ _ I1)|lia].
Qed.
End calling.
#[local] Hint Resolve safe_data_saving safe_bitrate safe_public_request safe_udp_ping safe_relay_pings safe_send_init safe_connect safe_audio_input : safe.

Section application.
Context {b : bool} `{cfg : Config}.
Implicit Types now : double.

Lemma safe_announce K : safe b (inv K) announce_network.
Proof.
  unfold announce_network. safe_step. apply (safe_build K 4); [fits_go; lia|]. intros data Hd. safe_step. apply safe_link.
  case_decide; [apply link_fine_reliably; cbn; lia|apply link_fine_extra; extra_go].
Qed.
#[local] Hint Resolve safe_announce : safe.
Lemma interface_step_inv r i : routes_inv r -> routes_inv (interface_step r i).
Proof. intros [R1 R2]. unfold interface_step. destruct (_ && _); [case_decide|]; by split. Qed.
Lemma leave_interface_inv r : routes_inv r -> routes_inv (leave_interface r).
Proof.
  intros Hr. unfold leave_interface. cbv zeta. set (r1 := if decide _ then _ else r).
  assert (routes_inv r1) as H1 by (destruct Hr; unfold r1; case_decide; by split). clearbody r1.
  assert (forall l r, routes_inv r -> routes_inv (foldl interface_step r l)) as Hl
    by (intros l; induction l as [|i l IH]; intros r0 H0; [done|]; by apply IH, interface_step_inv).
  specialize (Hl (endpoints r1) r1 H1). generalize dependent (foldl interface_step r1 (endpoints r1)). intros r2 H2. exact H2.
Qed.
Lemma safe_network K type itf v6 now : safe b (inv K) (SetNetworkType type itf v6 now).
Proof.
  unfold SetNetworkType. safe_go. apply safe_deref. apply (iv_routes _ _ H0). apply safe_routes, leave_interface_inv.
Qed.
Lemma safe_group_key K key : safe b (inv K) (SendGroupCallKey key).
Proof. unfold SendGroupCallKey. safe_go. Qed.
Lemma safe_upgrade K : safe b (inv K) RequestCallUpgrade.
Proof. unfold RequestCallUpgrade. safe_go. Qed.
Lemma safe_debug K request param now : safe b (inv K) (DebugCtl request param now).
Proof.
  unfold DebugCtl. case_decide; [|case_decide; [|case_decide; [|by case_decide; [safe_go; apply safe_log; by intros|apply safe_ret]]]].
  - apply safe_media. intros m [M1 M2 M3]. case_match; [by apply set_bitrate_inv|by split].
  - apply safe_media. intros m [M1 M2 M3]. by split.
  - safe_step; [safe_go|]. safe_step. safe_step; [safe_go; apply safe_routes; intros r [R1 R2]; by split|]. safe_step.
    apply (safe_build K 4); [fits_go; lia|]. intros data Hd. apply safe_link, link_fine_reliably. cbn. lia.
Qed.
Lemma add_remote_head r e : exists i, head (endpoints (add_remote r e)) = Some i /\ (endpoints r <> [] -> head (endpoints r) = Some i).
Proof.
  assert (endpoints (add_remote r e) = endpoints r ++ [length (store r)]) as -> by (unfold add_remote; cbv zeta; by repeat case_decide).
  destruct (endpoints r) as [|i l]; [by eexists|]. by exists i.
Qed.
Lemma first_endpoint eps : forall r, eps <> [] \/ endpoints r <> [] -> exists i, head (endpoints (foldl add_remote r eps)) = Some i.
Proof.
  induction eps as [|e eps IH]; intros r Hr.
  - destruct Hr as [Hr|Hr]; [done|]. destruct (endpoints r) as [|i l] eqn:E; [done|]. exists i. cbn. by rewrite E.
  - apply IH. right. destruct (add_remote_head r e) as (i & Hi & _). by destruct (endpoints (add_remote r e)).
Qed.
(** Whatever routes there were, a call with endpoints has one. *)
Lemma endpoints_ok eps p2p maxLayer c : eps <> [] -> queue_ok (c_queue c) (stopping (c_session c)) -> link_inv (c_link c) ->
  media_inv (c_media c) -> last_state (c_log c) = callState (c_link c) ->
  (SetRemoteEndpoints eps p2p maxLayer c).1 = Value tt /\ call_ok (SetRemoteEndpoints eps p2p maxLayer c).2.
Proof.
  intros He I1 I2 I4 I5. unfold SetRemoteEndpoints. erewrite run_bind by reflexivity. erewrite run_bind by reflexivity.
  cbn [c_routes set]. set (r := foldl add_remote _ eps).
  destruct (first_endpoint eps ((c_routes c) <| preferredRelay := None |> <| endpoints := [] |> <| didAddTcpRelays := false |> <| useTCP := true |>)) as [i Hi];
    [by left|]. fold r in Hi. clearbody r. rewrite Hi. split; [done|]. by split.
Qed.
End application.
#[local] Hint Resolve safe_announce safe_network safe_group_key safe_upgrade safe_debug : safe.

(** ** The send thread *)

Section sending.
Context `{crypto : CryptoFunctions}.
Implicit Types now : double.

(** The type and the size of an extra, which do not change while packets are sent. *)
Definition kind (x : UnacknowledgedExtraData) : Z * nat := (x_type x, length (x_data x)).
Lemma extras_kinds xs ys : map kind xs = map kind ys -> extras_inv xs -> extras_inv ys.
Proof.
  intros E [N F]. split.
  - apply (f_equal (map fst)) in E. rewrite !map_map in E. change (map x_type xs = map x_type ys) in E. by rewrite <- E.
  - apply Forall_forall. intros y Hy. apply (list_elem_of_fmap_2 kind) in Hy. change (kind y ∈ map kind ys) in Hy. rewrite <- E in Hy.
    apply list_elem_of_fmap in Hy as (x & Ex & Hx). rewrite Forall_forall in F. destruct (F x Hx) as [F1 F2]. injection Ex as E1 E2.
    split; congruence.
Qed.

(** The stream of 1500 bytes after at most [n] bytes, with the link of the invariant and
    the extras it has. *)
Record frame_inv (st : call_state) (kinds : list (Z * nat)) (n : nat) (s : link * out_stream) : Prop := {
  fi_link : link_inv (fst s);
  fi_state : callState (fst s) = st;
  fi_kinds : map kind (currentExtras (fst s)) = kinds;
  fi_out : o_provided (snd s) = true /\ length (o_buffer (snd s)) = 1500%nat /\ (o_offset (snd s) <= n)%nat
}.
(** At most [k] bytes are written while there is room for them. *)
Definition costs (st : call_state) (kinds : list (Z * nat)) (k : nat) (m : M (link * out_stream) unit) : Prop :=
  forall n, (n + k <= 1500)%nat -> triple (frame_inv st kinds n) m (fun _ => frame_inv st kinds (n + k)) (fun _ => False).
Section costs.
Context {st : call_state} {kinds : list (Z * nat)}.
Lemma frame_inv_le n k s : frame_inv st kinds n s -> (n <= k)%nat -> frame_inv st kinds k s.
Proof. intros [F1 F2 F3 (F4 & F5 & F6)] Hk. split; [done..|]. split; [done|]. split; [done|lia]. Qed.
Lemma costs_le k j m : costs st kinds k m -> (k <= j)%nat -> costs st kinds j m.
Proof.
  intros Hm Hj n Hn. eapply triple_weaken; [apply (Hm n); lia|done| |done]. intros [] s' Hs. apply (frame_inv_le (n + k)); [done|lia].
Qed.
Lemma costs_ret : costs st kinds 0 (mret tt).
Proof. intros n _ s' Hs. cbn. by rewrite Nat.add_0_r. Qed.
Lemma costs_bind k j m1 m2 : costs st kinds k m1 -> costs st kinds j m2 -> costs st kinds (k + j) (m1 ;; m2).
Proof.
  intros H1 H2 n Hn. eapply triple_bind; [apply (H1 n); lia|]. intros []. rewrite Nat.add_assoc. apply H2. lia.
Qed.
Lemma costs_output k w : fits k w -> costs st kinds k (output w).
Proof.
  intros (bytes & Hw & Hl) n Hn [l o] [F1 F2 F3 (F4 & F5 & F6)]. cbn [fst snd] in *. unfold output, zoom. cbn [fst snd].
  destruct (Hw o) as (o' & -> & A); [unfold out_ok; lia|intros _; lia|]. destruct A as (_ & _ & A3 & A4 & A5).
  split; [done..|]. cbn [snd]. split; [congruence|]. rewrite A4, A5 by done. split; [done|lia].
Qed.
Lemma costs_get k (f : link -> M (link * out_stream) unit) : (forall l, link_inv l -> callState l = st ->
  map kind (currentExtras l) = kinds -> costs st kinds k (f l)) -> costs st kinds k ('(l, _) ← get; f l).
Proof. intros Hf n Hn [l o] F. exact (Hf l (fi_link _ _ _ _ F) (fi_state _ _ _ _ F) (fi_kinds _ _ _ _ F) n Hn (l, o) F). Qed.
Lemma costs_when k c m : costs st kinds k m -> costs st kinds k (when c m).
Proof. intros Hm. destruct c; [exact Hm|]. apply (costs_le 0); [exact costs_ret|lia]. Qed.
(** An operation on the link that keeps the invariant. *)
Lemma costs_link (m : M link unit) : (forall l, link_inv l -> exists l', m l = (Value tt, l') /\ link_inv l' /\ callState l' = callState l /\ currentExtras l' = currentExtras l) ->
  costs st kinds 0 (on_link m).
Proof.
  intros Hm n _ [l o] [F1 F2 F3 F4]. unfold on_link, zoom. cbn [fst snd] in *. destruct (Hm l F1) as (l' & -> & L1 & L2 & L3).
  rewrite Nat.add_0_r. split; cbn [fst snd]; [done|congruence|by rewrite L3|done].
Qed.
End costs.
Lemma fits_tl n : fits 4 (WriteTlLength n).
Proof. unfold WriteTlLength. case_decide; fits_go; lia. Qed.
#[local] Hint Resolve fits_tl : fits.
Create HintDb costs.
#[local] Hint Resolve costs_ret : costs.
#[local] Hint Extern 1 (costs _ _ _ (output _)) => apply costs_output; solve [eauto with fits nocore] : costs.
#[local] Hint Extern 1 (costs _ _ _ (when _ (output _))) => apply costs_when, costs_output; solve [eauto with fits nocore] : costs.
Ltac costs_go := eapply costs_le; [repeat (first [solve [eauto with costs nocore] | eapply costs_bind])|].

Lemma costs_extra st kinds pseq i : (i < length kinds)%nat -> costs st kinds (2 + nth i (map snd kinds) 0%nat) (write_extra true pseq i).
Proof.
  intros Hi. unfold write_extra. cbn [negb andb]. apply costs_get. intros l L _ Es. destruct (currentExtras l !! i) as [x|] eqn:E.
  2:{ apply lookup_ge_None in E. rewrite <- Es, length_map in Hi. lia. }
  assert (kinds !! i = Some (kind x)) as Hk by (rewrite <- Es; change (map kind) with (fmap (M := list) kind); by rewrite list_lookup_fmap, E).
  assert (nth i (map snd kinds) 0%nat = length (x_data x)) as ->.
  { apply nth_lookup_Some. change (map snd) with (fmap (M := list) (@snd Z nat)). by rewrite list_lookup_fmap, Hk. }
  replace (2 + length (x_data x))%nat with (0 + (1 + (1 + (length (x_data x) + 0))))%nat by lia.
  apply costs_bind; [apply costs_ret|]. do 2 (apply costs_bind; [eauto with costs nocore|]). apply costs_bind; [eauto with costs nocore|].
  intros n _ [l1 o1] [F1 F2 F3 F4]. cbn [fst snd] in *. rewrite Nat.add_0_r. set (y := if decide (x_first x = 0) then _ else x).
  assert (map kind (<[i := y]> (currentExtras l1)) = kinds) as Hy.
  { change (map kind) with (fmap (M := list) kind) in *. rewrite list_fmap_insert, F3. apply list_insert_id. rewrite Hk. unfold y. by case_decide. }
  split; [|done|exact Hy|done]. destruct F1 as [L1 L2 L3 L4]. split; [done|done| |done].
  apply (extras_kinds (currentExtras l1)); [by rewrite F3|done].
Qed.
Definition extras_size (kinds : list (Z * nat)) : nat := list_sum (map (fun k => (2 + k.2)%nat) kinds).
Lemma sum_submseteq {A} (f : A -> nat) l l' : l ⊆+ l' -> (list_sum (map f l) <= list_sum (map f l'))%nat.
Proof. induction 1; simpl in *; lia. Qed.
Lemma extras_bound xs : extras_inv xs -> (extras_size (map kind xs) <= 358)%nat.
Proof.
  intros [N F]. transitivity (list_sum (map (fun t => (2 + extra_limit t)%nat) (map x_type xs))).
  - clear N. induction F as [|x xs [_ Hx] F IH]; [done|]. unfold extras_size in *. simpl in *. lia.
  - etransitivity; [apply (sum_submseteq _ _ extra_types)|by apply (bool_decide_unpack _); vm_compute].
    apply NoDup_submseteq; [exact N|]. intros t Ht. apply list_elem_of_fmap in Ht as (x & -> & Hx). rewrite Forall_forall in F. by apply F.
Qed.
Lemma indices {A} (f : A -> nat) (l : list A) d : map (fun i => f (nth i l d)) (seq 0 (length l)) = map f l.
Proof.
  apply list_eq. intros i. change (map ?g) with (fmap (M := list) g). rewrite !list_lookup_fmap.
  destruct (decide (i < length l)%nat) as [Hi|Hi].
  - rewrite lookup_seq_lt by done. destruct (lookup_lt_is_Some_2 l i Hi) as [x Hx]. rewrite Hx. cbn. by rewrite (nth_lookup_Some _ _ _ _ Hx).
  - rewrite lookup_seq_ge by lia. rewrite (proj2 (lookup_ge_None l i)) by lia. done.
Qed.
Lemma costs_extras st kinds pseq idx : Forall (fun i => (i < length kinds)%nat) idx ->
  costs st kinds (list_sum (map (fun i => (2 + nth i (map snd kinds) 0)%nat) idx)) (iterate_list (write_extra true pseq) idx).
Proof.
  induction 1 as [|i idx Hi Hidx IH]; [apply costs_ret|]. exact (costs_bind _ _ _ _ (costs_extra st kinds pseq i Hi) IH).
Qed.
Lemma costs_all_extras st kinds pseq l : map kind (currentExtras l) = kinds ->
  costs st kinds (extras_size kinds) (iterate_list (write_extra true pseq) (seq 0 (length (currentExtras l)))).
Proof.
  intros E. assert (length (currentExtras l) = length kinds) as -> by (by rewrite <- E, length_map).
  eapply costs_le; [apply costs_extras; apply Forall_forall; intros i Hi%elem_of_seq; lia|].
  replace (length kinds) with (length (map snd kinds)) by apply length_map. unfold extras_size.
  rewrite (indices (fun n => (2 + n)%nat) (map snd kinds) 0%nat), map_map. lia.
Qed.

Lemma costs_init_header st kinds pseq type len rid rb : (length rb <= 7)%nat -> costs st kinds 60 (init_header pseq type len rid rb).
Proof.
  intros Hr. unfold init_header. apply costs_get. intros l L _ _. cbv zeta. pose proof (li_id _ L). costs_go. lia.
Qed.
Lemma costs_simple_header st kinds pseq type len rid rb : (length rb <= 7)%nat -> (extras_size kinds <= 358)%nat -> costs st kinds 397 (simple_header true pseq type len rid rb).
Proof.
  intros Hr Hx. unfold simple_header. apply costs_get. intros l L _ Ek. cbv zeta.
  assert (costs st kinds 360 (if decide (currentExtras l = []) then output (WriteByte 0) else
    output (WriteByte XPFLAG_HAS_EXTRA) ;; output (WriteByte (u8 (Z.of_nat (length (currentExtras l))))) ;;
    iterate_list (write_extra true pseq) (seq 0 (length (currentExtras l))))) as He.
  { case_decide; [costs_go; lia|]. costs_go; [by apply costs_all_extras|lia]. }
  costs_go; [apply costs_when, He|lia].
Qed.
Lemma costs_frame st kinds pseq type data rid rb now : good_time now -> (length rb <= 7)%nat -> (extras_size kinds <= 358)%nat -> (length data <= 1024)%nat ->
  costs st kinds 1421 (frame true pseq type data rid rb now).
Proof.
  intros Hnow Hr Hx Hd. unfold frame, WritePacketHeader. set (len := u32 (Z.of_nat (length data))).
  apply (costs_le (397 + (0 + 0) + length data)); [|lia]. apply costs_bind; [|eauto with costs nocore].
  apply costs_get. intros l L _ _. apply (costs_bind 397 (0 + 0)).
  { destruct (waiting l); [apply (costs_le 60); [by apply costs_init_header|lia]|by apply costs_simple_header]. }
  apply costs_bind; [apply costs_when, costs_link; intros l1 L1|apply costs_link; intros l1 L1].
  - unfold zoom. destruct (sent_ok pseq len now (conctl l1) (li_congestion _ L1) Hnow) as (c' & -> & C & _).
    eexists. split; [reflexivity|]. split; [|done]. destruct L1 as [L1 L2 L3 L4]. by split.
  - eexists. split; [reflexivity|]. split; [|done]. by apply (link_inv_same l1).
Qed.
(** The frame of a packet fits, whatever extras ride on it. *)
Lemma safe_frame_packet {b} K pseq type data rid rb now : good_time now -> (length rb <= 7)%nat -> (length data <= 1024)%nat ->
  safe b (inv K) (frame_packet true pseq type data rid rb now).
Proof.
  intros Hnow Hr Hd c [I1 I2 I3 I4 I5]. unfold frame_packet.
  pose proof (costs_frame (callState (c_link c)) (map kind (currentExtras (c_link c))) pseq type data rid rb now Hnow Hr (extras_bound _ (li_extras _ I2)) Hd 0%nat
    ltac:(lia) (c_link c, output_on (zeros 1500))) as F.
  destruct (frame _ _ _ _ _ _ _ _) as [[[]| |] [l o]].
  - destruct F as [F1 F2 F3 F4]; [split; [exact I2|done|done|]; cbn [snd output_on o_provided o_buffer o_offset]; split; [done|]; split; [apply length_zeros|lia]|].
    cbn [fst snd] in *. split; cbn -[last_state]; [done|done|done|done|congruence].
  - exfalso. apply F. split; [exact I2|done|done|]. cbn [snd output_on o_provided o_buffer o_offset]. split; [done|]; split; [apply length_zeros|lia].
  - exfalso. apply F. split; [exact I2|done|done|]. cbn [snd output_on o_provided o_buffer o_offset]. split; [done|]; split; [apply length_zeros|lia].
Qed.
Lemma safe_send_packet {b} K rand data i : safe b (inv K) (SendPacket rand data i).
Proof. unfold SendPacket. safe_go. Qed.
#[local] Hint Resolve safe_send_packet : safe.

Lemma get_blocking_triple : triple call_ok (on_queue GetBlocking)
  (fun r => inv (fun q s => match r with Some p => match pp_data p with Some b => holding b q s | None => queue_ok q s end | None => queue_ok q s end)) (fun _ => False).
Proof.
  apply (queue_triple queue_ok GetBlocking (fun r q s => match r with
    | Some p => match pp_data p with Some b => holding b q s | None => queue_ok q s end | None => queue_ok q s end)).
  intros s q Q. destruct (get_blocking_ok q s Q) as (r & q' & -> & H). destruct r as [p|]; [exact H|by subst].
Qed.
Lemma give_back_triple b : triple (inv (holding b)) (give_back b) (fun _ => call_ok) (fun _ => False).
Proof.
  apply (queue_triple (holding b) _ (fun _ => queue_ok)). intros s q Q. unfold zoom.
  by destruct (reuse_ok b q s Q) as (p' & -> & H).
Qed.
Lemma length_pool_read b n p : pool_ok p -> p_size p = 1024%nat -> (b < bufferCount p)%nat -> (length (pool_read b n p) <= 1024)%nat.
Proof.
  intros (P1 & P2 & P3 & P4) Hs Hb. unfold pool_read. rewrite length_take.
  pose proof (proj1 (Forall_nth _ [] _) P4 b) as Hl. rewrite P3, Hs in Hl. specialize (Hl Hb). lia.
Qed.
Lemma safe_send_thread {b} rid rb rand now : good_time now -> (length rb <= 7)%nat -> safe b call_ok (RunSendThread true rid rb rand now).
Proof.
  intros Hnow Hr. apply safe_any, triple_sure. unfold RunSendThread. eapply triple_bind; [exact get_blocking_triple|].
  intros [p|]; [|apply (triple_ret (fun _ => call_ok))]. cbn beta iota.
  destruct (pp_data p) as [i|]; [|apply (triple_ret (fun _ => call_ok))].
  apply triple_bind_get. intros c I. eapply triple_bind.
  { apply triple_sure, safe_deref. unfold route_of. destruct (if decide _ then _ else _); [done|]. apply (iv_routes _ _ I). }
  intros k. cbv zeta. eapply triple_bind; [|intros ?; apply give_back_triple]. apply triple_sure.
  destruct (iv_queue _ _ I) as ([Q1 Q2 Q3 _ _ _] & Q5 & _).
  safe_step. safe_step; [apply safe_frame_packet; [done|done|apply length_pool_read; [exact Q1|exact Q3|lia]]|]. safe_go.
Qed.
End sending.
#[local] Hint Resolve safe_send_thread : safe.

(** ** Receiving *)

(** The configuration allows a jitter buffer to work. *)
Definition config_ok `{cfg : Config} : Prop :=
  slots_config GetInt /\ length jitterMemory = JITTER_SLOT_COUNT /\ Forall (fun b => length b = JITTER_SLOT_SIZE) jitterMemory.

Definition parse_inv (x : controller * in_stream) : Prop := call_ok (fst x).
Lemma safe_ct {A} (m : M controller A) : safe true call_ok m -> safe true parse_inv (ct m).
Proof. intros Hm. apply (safe_zoom true parse_inv call_ok); [exact Hm|by intros [? ?]|by intros [? ?]]. Qed.
Lemma safe_rd {A} (m : M in_stream A) : no_abort m -> safe true parse_inv (rd m).
Proof. intros Hm [c s] I. unfold rd, zoom. cbn [snd fst]. specialize (Hm s). destruct (m s) as [[a| |] t]; [done|by split|done]. Qed.
Lemma safe_ct_get {B} (f : controller -> R B) : (forall c, call_ok c -> safe true parse_inv (f c)) -> safe true parse_inv (ct get ≫= f).
Proof. intros Hf [c s] I. by apply (Hf c I). Qed.
Lemma safe_ct_gets {A B} (g : controller -> A) (f : A -> R B) : (forall c, call_ok c -> safe true parse_inv (f (g c))) -> safe true parse_inv (ct (gets g) ≫= f).
Proof. intros Hf [c s] I. by apply (Hf c I). Qed.
Lemma safe_parsing {A} data (m : R A) : safe true parse_inv m -> safe true call_ok (parsing data m).
Proof. intros Hm c I. unfold parsing. specialize (Hm (c, new_input data) I). by destruct (m _) as [[a| |] [c' s]]. Qed.
Lemma safe_ct_build {B} n size m (f : list Z -> R B) : fits n m ->
  (forall data, (length data <= n)%nat -> safe true parse_inv (f data)) -> safe true parse_inv (ct (build size m) ≫= f).
Proof.
  intros (bytes & Hm & Hl) Hf [c s] I. assert ((ct (build size m) ≫= f) (c, s) = f bytes (c, s)) as ->; [|by apply Hf].
  unfold mbind, M_bind, ct, zoom. cbn [fst snd]. by rewrite (build_writes size m bytes c Hm).
Qed.
Lemma safe_rd_bytes {B} n (f : list Z -> R B) : (forall l, (length l <= n)%nat -> safe true parse_inv (f l)) -> safe true parse_inv (rd (ReadBytes n) ≫= f).
Proof.
  intros Hf [c s] I. unfold mbind, M_bind, rd, zoom, ReadBytes, mbind, M_bind, EnsureEnoughRemaining. cbn [fst snd].
  case_decide; [by split|]. apply Hf; [|exact I]. unfold slice. rewrite length_take. lia.
Qed.
Ltac parse_step := first
  [ solve [eauto with safe nocore] | progress cbv zeta | apply safe_ct_get; intros ? ? | apply safe_ct_gets; intros ? ? | safe_step
  | apply safe_ct; solve [safe_go] | apply safe_rd; solve [safe_go] ].
Ltac parse_go := repeat parse_step.

Section receive.
Context `{crypto : CryptoFunctions} `{cfg : Config} (Hcfg : config_ok).
Variables (now : double) (junkTag : list Z).
Implicit Types r : routes.

Lemma erase_inv f r : routes_inv r -> routes_inv (erase_endpoint f r).
Proof. intros [R1 R2]. unfold erase_endpoint. destruct (list_find _ _) as [[k i]|]; [|by split]. cbv zeta. case_decide; by split. Qed.
Lemma safe_relay_self i : safe true parse_inv (relay_self i).
Proof.
  unfold relay_self. repeat first [apply safe_rd_bytes; intros ? ? | apply safe_ct_build with 18%nat; [fits_go; lia|]; intros ? ? | parse_step].
  all: apply safe_ct, safe_link, link_fine_extra; extra_go.
Qed.
Lemma safe_relay_peer : safe true parse_inv (relay_peer junkTag).
Proof.
  unfold relay_peer. apply safe_ct_gets. intros c0 _. safe_step; [apply safe_rd; safe_go|]. apply safe_when. intros _.
  safe_step; [apply safe_rd; safe_go|]. safe_step; [apply safe_rd; safe_go|]. safe_step; [apply safe_rd; safe_go|]. safe_step; [apply safe_rd; safe_go|].
  safe_step; [|safe_step; [|parse_go]].
  - apply safe_ct, safe_routes. intros r Hr. cbv zeta.
    assert (forall e r, routes_inv r -> routes_inv (push_endpoint e r)) as Hp by (by intros ? ? []). by apply Hp, erase_inv, erase_inv.
  - apply safe_when. intros _. apply (safe_ct_build 8); [fits_go; lia|]. intros data Hd. parse_go. apply safe_ct, safe_link.
    case_decide; [apply link_fine_reliably; cbn; lia|apply link_fine_extra; extra_go].
Qed.
#[local] Hint Resolve safe_relay_self safe_relay_peer : safe.
Lemma safe_special i : safe true parse_inv (relay_special junkTag i).
Proof. unfold relay_special. parse_go. Qed.

Lemma set_stream_inv k s m : stream_ok s -> media_inv m -> media_inv (set_stream k s m).
Proof. intros Hs [M1 M2 M3]. split; [done| |done]. cbn. by apply Forall_insert. Qed.
Lemma find_stream_ok id m k s : media_inv m -> find_stream id m = Some (k, s) -> stream_ok s.
Proof. intros [_ M2 _] H. apply list_find_Some in H as (H & _). by apply (Forall_lookup_1 _ _ _ _ M2 H). Qed.
Lemma min_packets_ok n j : jitter_ok j /\ 2 <= maxUsedSlots j -> jitter_ok (SetMinPacketCount n j) /\ 2 <= maxUsedSlots (SetMinPacketCount n j).
Proof. unfold SetMinPacketCount. by destruct (deqb _ _). Qed.
Lemma stream_flags_ok flags s : stream_ok s -> stream_ok (stream_flags flags s).
Proof.
  unfold stream_ok, stream_flags. cbv zeta. cbn [st_extraECEnabled st_jitterBuffer set].
  destruct (has _ _), (st_extraECEnabled s); cbn [st_jitterBuffer set]; try done; destruct (st_jitterBuffer s); cbn; try done; apply min_packets_ok.
Qed.
Lemma safe_extra_flags : safe true parse_inv extra_stream_flags.
Proof.
  unfold extra_stream_flags. parse_go. apply safe_ct, safe_media. intros m Hm. apply set_stream_inv; [|exact Hm].
  apply stream_flags_ok. eapply find_stream_ok; [|eassumption]. apply (iv_media _ _ H).
Qed.
Lemma push_inv e r : routes_inv r -> routes_inv (push_endpoint e r).
Proof. by intros []. Qed.
Lemma set_lan_inv a p r : routes_inv r -> routes_inv (set_lan junkTag a p r).
Proof. intros [R1 R2]. unfold set_lan. destruct (find_endpoint _ _); [|by apply push_inv]. cbv zeta. case_decide; by split. Qed.
Lemma safe_lan : safe true parse_inv (lan_endpoint junkTag).
Proof. unfold lan_endpoint. parse_go. apply safe_ct, safe_routes. intros r. apply set_lan_inv. Qed.
Lemma safe_peer_network : safe true parse_inv peer_network.
Proof. unfold peer_network. parse_go. Qed.
Lemma safe_fall_back : safe true parse_inv (fall_back now).
Proof. unfold fall_back. parse_go. Qed.
#[local] Hint Resolve safe_extra_flags safe_lan safe_peer_network safe_fall_back : safe.
Lemma safe_extra_network : safe true parse_inv (extra_network_changed now).
Proof. unfold extra_network_changed. parse_go. apply safe_ct, safe_deref, (iv_routes _ _ H). Qed.
Lemma safe_extra_key : safe true parse_inv extra_group_key.
Proof. unfold extra_group_key. parse_go. Qed.
Lemma safe_extra_request : safe true parse_inv extra_request_group.
Proof. unfold extra_request_group. parse_go. Qed.
Lemma set_ipv6_inv a p r : routes_inv r -> routes_inv (set_ipv6 junkTag a p r).
Proof. intros [R1 R2]. unfold set_ipv6. cbv zeta. destruct (find_endpoint _ _); case_decide; by split. Qed.
Lemma safe_extra_ipv6 : safe true parse_inv (extra_ipv6 junkTag).
Proof. unfold extra_ipv6. parse_go. apply safe_ct, safe_routes. intros r. apply set_ipv6_inv. Qed.
#[local] Hint Resolve safe_extra_network safe_extra_key safe_extra_request safe_extra_ipv6 : safe.
Lemma safe_extra data : safe true call_ok (ProcessExtraData now junkTag data).
Proof. unfold ProcessExtraData. apply safe_parsing. parse_go. Qed.
#[local] Hint Resolve safe_extra safe_special : safe.

(** *** Setting up the call *)

Lemma safe_skip n : safe true parse_inv (skip_codecs n).
Proof. unfold skip_codecs. parse_go. Qed.
Lemma route_init_inv i r : routes_inv r -> routes_inv (route_init i r).
Proof. intros [R1 R2]. unfold route_init. cbv zeta. by repeat case_match. Qed.
Lemma safe_note_init i : safe true call_ok (note_init i).
Proof. unfold note_init. safe_go. apply safe_routes. intros r. apply route_init_inv. Qed.
Lemma safe_init_flags flags : safe true call_ok (init_flags flags).
Proof. unfold init_flags. safe_go. Qed.
Lemma fits_stream version s : fits 9 (write_stream version s).
Proof. unfold write_stream. case_decide; fits_go; lia. Qed.
Lemma fits_ack version l : length l = 1%nat -> fits 18 (ack_payload version l).
Proof.
  intros Hl. unfold ack_payload. eapply fits_le; [do 3 (eapply fits_bind; [eauto with fits nocore|]); apply (fits_iterate _ 9); intros; apply fits_stream|lia].
Qed.
Lemma safe_init_ack : safe true call_ok send_init_ack.
Proof.
  unfold send_init_ack. apply safe_bind_get. intros c I. apply safe_enqueue; [apply numbers_next|].
  eapply fits_in_buffer; [apply fits_ack, (iv_media _ _ I)|lia].
Qed.
#[local] Hint Resolve safe_skip safe_note_init safe_init_flags safe_init_ack : safe.
Lemma safe_handle_init i : safe true parse_inv (handle_init now i).
Proof. unfold handle_init. parse_go. Qed.

(** A new jitter buffer is well formed, and adding a stream keeps the media so. *)
Lemma make_jitter_ok fd c : exists j, make_jitter fd c = (Value j, c) /\ jitter_ok j /\ 2 <= maxUsedSlots j.
Proof.
  destruct Hcfg as (C1 & C2 & C3). unfold make_jitter.
  destruct (new_jitter_ok GetInt GetDouble jitterMemory fd jitterJunk C2 C3) as (j & -> & J1 & _ & _ & J2).
  eexists. split; [reflexivity|]. apply min_packets_ok. split; [exact J1|by apply J2].
Qed.
Lemma make_jitter_triple {B} fd P (f : jitter -> R B) Q L :
  (forall j, jitter_ok j /\ 2 <= maxUsedSlots j -> triple P (f j) Q L) -> triple P (ct (make_jitter fd) ≫= f) Q L.
Proof.
  intros Hf [c s] I. destruct (make_jitter_ok fd c) as (j & E & J).
  assert ((ct (make_jitter fd) ≫= f) (c, s) = f j (c, s)) as ->; [|by apply Hf].
  unfold mbind, M_bind, ct, zoom. cbn [fst snd]. by rewrite E.
Qed.

(** What leaves the incoming streams alone keeps whether there are any. *)
Definition keeps {A} (m : M controller A) : Prop := forall c, incomingStreams (c_media (m c).2) = incomingStreams (c_media c).
Lemma keeps_bind {A B} (m : M controller A) (f : A -> M controller B) : keeps m -> (forall a, keeps (f a)) -> keeps (m ≫= f).
Proof.
  intros Hm Hf c. specialize (Hm c). unfold mbind, M_bind. destruct (m c) as [[a| |] d]; cbn [snd] in *; [by rewrite Hf|done|done].
Qed.
Lemma keeps_ret {A} (a : A) : keeps (mret a).
Proof. done. Qed.
Lemma keeps_when b m : keeps m -> keeps (when b m).
Proof. by destruct b. Qed.
Definition started (c : controller) : Prop := call_ok c /\ incomingStreams (c_media c) <> [].
Lemma safe_started {A} (m : M controller A) : safe true call_ok m -> keeps m -> safe true started m.
Proof.
  intros Hm Hk c [I1 I2]. specialize (Hm c I1). specialize (Hk c). destruct (m c) as [[a| |] d]; cbn [snd] in Hk; unfold started; [by rewrite Hk|rewrite Hk; by destruct Hm|done].
Qed.
Lemma keeps_bitrate : keeps UpdateAudioBitrate.
Proof.
  intros c. unfold UpdateAudioBitrate. apply (keeps_bind (gets c_session)); [done|]. intros s d.
  unfold update_media, on_media, zoom, modify, set_bitrate. cbn. repeat case_match; done.
Qed.
Lemma safe_ready : safe true started OnAudioOutputReady.
Proof.
  unfold OnAudioOutputReady. apply safe_bind_gets. intros c [I1 I2]. destruct (incomingStreams (c_media c)) as [|s l]; [done|].
  apply safe_started; [safe_go|done].
Qed.
Lemma safe_start_audio : safe true started (StartAudio now).
Proof.
  unfold StartAudio. apply safe_bind_gets. intros c [I1 I2]. destruct (outgoingStreams (c_media c)) as [|s l] eqn:E; [by pose proof (mi_out _ (iv_media _ _ I1)) as Ho; rewrite E in Ho|].
  safe_step; [by apply safe_started; [safe_go|]|]. safe_step; [by apply safe_started; [safe_go|]|].
  safe_step; [apply safe_started; [safe_go|by apply keeps_when]|].
  destruct (_ && _); [by apply safe_started; [safe_go|]|]. destruct (negb _); [by apply safe_started; [safe_go|]|].
  safe_step; [apply safe_started; [safe_go|exact keeps_bitrate]|exact safe_ready].
Qed.
Lemma start_call_triple : triple started (start_call now) (fun _ => call_ok) call_ok.
Proof.
  unfold start_call. apply triple_bind_get. intros c0 _. cbv zeta.
  assert (forall A (m : M controller A), safe true started m -> triple started m (fun _ => started) call_ok) as Hs.
  { intros A m Hm. eapply triple_weaken; [apply triple_safe, Hm|exact (fun _ h => h)|exact (fun _ _ h => h)|exact (fun _ h => proj1 h)]. }
  assert (forall A (m : M controller A), safe true call_ok m -> triple started m (fun _ => call_ok) call_ok) as Hc.
  { intros A m Hm. eapply triple_weaken; [apply triple_safe, Hm|exact (fun _ h => proj1 h)|exact (fun _ _ h => h)|exact (fun _ h => h)]. }
  eapply triple_bind; [apply Hs, safe_started; [safe_go|by apply keeps_when]|]. intros ?.
  eapply triple_bind; [apply Hs, safe_when; intros _; exact safe_start_audio|]. intros ?.
  apply Hc. safe_go.
Qed.

(** The streams of the peer: [audio] when one of them carries audio. *)
Definition audio_inv (audio : bool) (x : controller * in_stream) : Prop :=
  parse_inv x /\ (audio = true -> incomingStreams (c_media (fst x)) <> []).
Lemma rd_triple {A} (m : M in_stream A) b : no_abort m -> triple (audio_inv b) (rd m) (fun _ => audio_inv b) parse_inv.
Proof. intros Hm [c s] [H1 H2]. unfold rd, zoom. cbn [snd fst]. specialize (Hm s). by destruct (m s) as [[a| |] t]. Qed.
Definition add_stream (s : Stream) : R unit := ct (update_media (fun m => m <| incomingStreams := incomingStreams m ++ [s] |>)).
Lemma add_stream_triple s a b : stream_ok s -> triple (audio_inv b) (add_stream s ;; mret a) (fun a => audio_inv (b || a)) parse_inv.
Proof.
  intros Hs [c t] [H1 H2]. assert (media_inv ((c_media c) <| incomingStreams := incomingStreams (c_media c) ++ [s] |>)) as Hm.
  { destruct (iv_media _ _ H1) as [M1 M2 M3]. split; [exact M1| |exact M3]. cbn. apply Forall_app. split; [exact M2|]. by apply Forall_singleton. }
  destruct H1 as [I1 I2 I3 I4 I5]. split; [by split|]. intros _. cbn. by destruct (incomingStreams (c_media c)).
Qed.
Lemma read_stream_triple b : triple (audio_inv b) read_stream (fun a => audio_inv (b || a)) parse_inv.
Proof.
  unfold read_stream. intros [c s] I. cbn [fst]. revert s I.
  match goal with |- forall s, audio_inv b (c, s) -> match (mbind ?k (ct get)) (c, s) with _ => _ end =>
    assert (triple (audio_inv b) (k c) (fun a => audio_inv (b || a)) parse_inv) as Hk; [|intros s I; exact (Hk (c, s) I)] end.
  cbn beta. do 2 (eapply triple_bind; [apply rd_triple; safe_go|]; intros ?).
  eapply triple_bind.
  { case_decide; (eapply triple_bind; [apply rd_triple; safe_go|]; intros ?; eapply (triple_ret (fun _ => audio_inv b))). }
  intros codec. do 2 (eapply triple_bind; [apply rd_triple; safe_go|]; intros ?). cbv zeta.
  case_decide; [|case_decide].
  - apply make_jitter_triple. intros j J. by apply add_stream_triple.
  - by apply add_stream_triple.
  - intros x Hx. cbn. by rewrite orb_false_r.
Qed.
Lemma read_streams_triple n : forall b, triple (audio_inv b) (read_streams n b) (fun a => audio_inv a) parse_inv.
Proof.
  induction n as [|n IH]; intros b; [apply (triple_ret (fun a => audio_inv a))|]. cbn [read_streams].
  eapply triple_bind; [apply read_stream_triple|]. intros a. apply IH.
Qed.
Lemma safe_ack_version n : safe true parse_inv (ack_version now n).
Proof. unfold ack_version. parse_go. Qed.
Lemma safe_handle_ack n : safe true parse_inv (handle_init_ack now n).
Proof.
  unfold handle_init_ack. apply safe_ct_gets. intros c _. destruct (receivedInitAck _); [apply safe_ret|].
  safe_step; [apply safe_ct; safe_go|]. safe_step; [apply safe_ack_version|]. destruct (negb _); [apply safe_ret|].
  safe_step; [apply safe_rd; safe_go|]. case_decide; [apply safe_ret|]. apply triple_safe.
  eapply triple_bind.
  { eapply triple_weaken; [apply (read_streams_triple _ false)|by intros x Hx|exact (fun _ _ h => h)|exact (fun _ h => h)]. }
  intros audio [c0 s] [H1 H2]. cbn [fst] in *. destruct audio; [|exact H1]. cbn [when]. unfold ct, zoom. cbn [fst snd].
  pose proof (start_call_triple c0 (conj H1 (H2 eq_refl))) as Ht. by destruct (start_call now c0) as [[[]| |] c1].
Qed.
#[local] Hint Resolve safe_handle_init safe_handle_ack : safe.

(** *** Media and pings *)

Lemma safe_jitter k data ts ec : is_u32 ts -> safe true call_ok (jitter_input now k data ts ec).
Proof.
  intros Hts c I. unfold jitter_input. destruct (incomingStreams (c_media c) !! k) as [s|] eqn:Hk; [|done].
  destruct (st_jitterBuffer s) as [j|] eqn:Hj; [|done].
  assert (stream_ok s) as Hs by (destruct (iv_media _ _ I) as [_ M _]; by apply (Forall_lookup_1 _ _ _ _ M Hk)).
  unfold stream_ok in Hs. rewrite Hj in Hs. destruct Hs as [J1 J2].
  destruct (HandleInput_ok j data ts ec now J1 J2 Hts) as (j' & -> & J3 & J4 & _).
  destruct I as [I1 I2 I3 I4 I5]. split; [done|done|done| |done]. cbn. apply set_stream_inv; [|exact I4].
  unfold stream_ok. cbn. split; [exact J3|]. by rewrite J4.
Qed.
#[local] Hint Resolve safe_jitter u32_is_u32 : safe.
Lemma safe_start_output : safe true call_ok start_output.
Proof. unfold start_output. safe_go. Qed.
#[local] Hint Resolve safe_start_output : safe.
Lemma safe_read_frames buffer len n : safe true parse_inv (read_frames now buffer len n).
Proof. induction n as [|n IH]; cbn [read_frames]; [apply safe_ret|]. parse_go. Qed.
#[local] Hint Resolve safe_read_frames : safe.
Lemma safe_stream_data i buffer len type : safe true parse_inv (handle_stream_data now i buffer len type).
Proof. unfold handle_stream_data. parse_go. Qed.
Lemma safe_stream_state : safe true parse_inv handle_stream_state.
Proof.
  unfold handle_stream_state. parse_go. apply safe_ct, safe_media. intros m Hm. apply set_stream_inv; [|exact Hm].
  pose proof (find_stream_ok _ _ _ _ (iv_media _ _ H) Heqo) as Hs. exact Hs.
Qed.
Lemma safe_copies k fd ts n : safe true parse_inv (read_copies now k fd ts n).
Proof. induction n as [|n IH]; cbn [read_copies]; [apply safe_ret|]. parse_go. Qed.
#[local] Hint Resolve safe_copies : safe.
Lemma safe_stream_ec : safe true parse_inv (handle_stream_ec now).
Proof. unfold handle_stream_ec. parse_go. Qed.
Lemma safe_handle_ping i n : safe true parse_inv (handle_ping i n).
Proof. unfold handle_ping. parse_go. Qed.
Lemma safe_pong i n : safe true parse_inv (handle_pong now i n).
Proof. unfold handle_pong. parse_go. Qed.
Lemma safe_network_changed : safe true parse_inv (handle_network_changed now).
Proof. unfold handle_network_changed. parse_go. apply safe_ct, safe_deref, (iv_routes _ _ H). Qed.
#[local] Hint Resolve safe_stream_data safe_stream_state safe_stream_ec safe_handle_ping safe_pong safe_network_changed : safe.

(** *** The packet *)

Lemma safe_dispatch i buffer len type pseq n : safe true parse_inv (dispatch now junkTag i buffer len type pseq n).
Proof. unfold dispatch. parse_go. Qed.
Lemma safe_follow i : safe true call_ok (follow_relay now i).
Proof. unfold follow_relay. safe_go. apply safe_deref, (iv_routes _ _ H). Qed.
#[local] Hint Resolve safe_dispatch safe_follow : safe.
Lemma safe_process_extras n : safe true parse_inv (process_extras now junkTag n).
Proof.
  induction n as [|n IH]; cbn [process_extras]; [apply safe_ret|]. safe_step; [apply safe_rd; unfold read_extra; safe_go|]. parse_go.
Qed.
#[local] Hint Resolve safe_process_extras : safe.
Lemma no_abort_skip_string : no_abort (skip_string true).
Proof. unfold skip_string. safe_go. Qed.
#[local] Hint Resolve no_abort_skip_string : safe.
Lemma no_abort_header id v : no_abort (read_header true id v).
Proof. unfold read_header, read_init_header, read_simple_header, read_seqs, read_tail. safe_go. Qed.
#[local] Hint Resolve no_abort_header : safe.
Lemma safe_payload i buffer len : safe true parse_inv (process_payload now true junkTag i buffer len).
Proof. unfold process_payload. parse_go. Qed.
#[local] Hint Resolve safe_payload : safe.
Lemma no_abort_open c w buffer : no_abort (open_packet c w buffer).
Proof.
  assert (forall u, no_abort (open_v2 c buffer u)) as H2 by (intros u; unfold open_v2; safe_go; intros s; cbn; discriminate).
  unfold open_packet, open_v1. safe_go. all: intros s; try (cbn; discriminate).
  match goal with |- context [ReadInt32 ?t] => pose proof (no_abort_int32 t) as Hr; by destruct (ReadInt32 t) as [[| |] u] end.
Qed.
Lemma safe_packet i packet : safe true parse_inv (process_packet now true junkTag i packet).
Proof.
  unfold process_packet. apply safe_ct_get. intros c I. cbv zeta. case_decide; [apply safe_ret|].
  safe_step; [apply safe_rd; safe_go|]. destruct (_ && _); [safe_go|]. apply safe_bind; [apply safe_rd, no_abort_open|].
  intros [|buffer stream upgrade]; [apply safe_ret|]. safe_step; [apply safe_rd; by intros s|]. parse_go.
Qed.
(** What a packet throws is caught where it is received. *)
Lemma safe_incoming b tcp address port packet : safe b call_ok (receive_packet now true junkTag tcp address port packet).
Proof.
  intros c I. unfold receive_packet. case_decide; [done|]. destruct (find_endpoint _ _) as [i|]; [|done].
  pose proof (safe_parsing packet _ (safe_packet i packet) c I) as Hp. unfold ProcessIncomingPacket.
  destruct (parsing _ _ c) as [[[]| |] c']; [done|by destruct Hp|done].
Qed.
End receive.

(** ** The tick thread *)

Section tick.
Context {b : bool} `{cfg : Config}.
Variable now : double.

Lemma stream_at m k s j : media_inv m -> incomingStreams m !! k = Some s -> st_jitterBuffer s = Some j -> jitter_ok j /\ 2 <= maxUsedSlots j.
Proof. intros [_ M _] Hk Hj. pose proof (Forall_lookup_1 _ _ _ _ M Hk) as H. unfold stream_ok in H. by rewrite Hj in H. Qed.
Lemma safe_collect K k : safe b (inv K) (collect_losses k).
Proof.
  intros c I. unfold collect_losses. destruct (incomingStreams (c_media c) !! k) as [s|] eqn:Hk; [|done].
  destruct (st_jitterBuffer s) as [j|] eqn:Hj; [|done]. destruct (stream_at _ _ _ _ (iv_media _ _ I) Hk Hj) as [J1 J2].
  cbn [GetAndResetLostPacketCount]. destruct I as [I1 I2 I3 [I4 I4' I4''] I5].
  split; [done|done|done| |done]. split; [exact I4| |exact I4'']. cbn. by apply Forall_insert.
Qed.
#[local] Hint Resolve safe_collect : safe.
Lemma safe_set_bars K n : safe b (inv K) (set_bars n).
Proof. apply safe_quality. Qed.
Lemma safe_lower_bars K n : safe b (inv K) (lower_bars n).
Proof. apply safe_quality. Qed.
#[local] Hint Resolve safe_set_bars safe_lower_bars : safe.
Lemma safe_tick_history K : safe b (inv K) tick_rtt_history.
Proof. unfold tick_rtt_history. safe_go. Qed.

Lemma safe_add_twin relays i : safe b routes_inv (add_twin relays i).
Proof.
  unfold add_twin. apply safe_bind_get. intros r [R1 R2]. case_decide; [apply safe_ret|]. cbv zeta.
  safe_step; [by apply safe_modify|]. safe_step; [|apply safe_ret].
  destruct (setCurrentEndpointToTCP r); [|apply safe_ret]. safe_step; [by destruct (currentEndpoint r); [apply safe_ret|]|].
  safe_step. by apply safe_modify.
Qed.
Lemma safe_tcp_relays K : safe b (inv K) (on_routes add_tcp_relays).
Proof.
  apply (safe_zoom b (inv K) routes_inv).
  - unfold add_tcp_relays. apply safe_bind_get. intros r _. safe_step. safe_step; [apply safe_fold_list; intros; apply safe_add_twin|].
    apply safe_modify. by intros s [].
  - intros c I. apply (iv_routes _ _ I).
  - intros c r [I1 I2 I3 I4 I5] Hr. by split.
Qed.
#[local] Hint Resolve safe_tcp_relays : safe.
Lemma safe_transport K : safe b (inv K) (tick_transport now).
Proof.
  unfold tick_transport. safe_step; [|safe_step; [|safe_go]]; apply safe_link.
  - apply link_fine_id. intros l. by case_decide.
  - intros l [L1 L2 L3 L4]. split; [|done]. split; [by apply tick_ok|done..].
Qed.

Lemma adjust_bitrate_inv a m : media_inv m -> media_inv (adjust_bitrate a m).
Proof. intros [M1 M2 M3]. unfold adjust_bitrate. cbv zeta. by repeat case_match. Qed.
Lemma safe_extra_ec K x : safe b (inv K) (set_extra_ec x).
Proof. unfold set_extra_ec. safe_go. Qed.
Lemma safe_secondary K x : safe b (inv K) (set_secondary x).
Proof. unfold set_secondary. safe_go. Qed.
Lemma safe_set_loss K n : safe b (inv K) (set_loss n).
Proof. unfold set_loss. safe_go. Qed.
#[local] Hint Resolve safe_extra_ec safe_secondary safe_set_loss : safe.
Lemma safe_adapt K avg : safe b (inv K) (adapt_redundancy avg).
Proof. unfold adapt_redundancy, loss_levels. safe_go. Qed.
#[local] Hint Resolve safe_adapt : safe.
Lemma bandwidth_same l : link_inv l -> link_inv (l <| conctl := snd (GetBandwidthControlAction now now (conctl l)) |>).
Proof.
  intros [L1 L2 L3 L4]. split; [|done..]. cbn. unfold GetBandwidthControlAction. destruct (dltb _ _); [exact L1|].
  cbv zeta. case_decide; [exact L1|]. by case_decide.
Qed.
Lemma safe_encoder K : safe b (inv K) (tick_encoder now).
Proof.
  unfold tick_encoder. apply safe_bind_get. intros c I. safe_step. safe_step; [safe_go|]. apply safe_bind_gets. intros c1 _.
  safe_step; [apply safe_link; intros l Hl; split; [by apply bandwidth_same|done]|].
  safe_step; [apply safe_media; intros m; apply adjust_bitrate_inv|]. apply safe_bind_get. intros c2 I2. safe_step.
  destruct (outgoingStreams (c_media c2)) eqn:E; [by pose proof (mi_out _ (iv_media _ _ I2)) as Ho; rewrite E in Ho|]. unfold update_quality. safe_go.
Qed.

Lemma numbers_nop : numbers nop_number.
Proof. intros b' K. unfold nop_number. safe_go. Qed.
#[local] Hint Resolve numbers_nop : safe.
Lemma safe_nop : safe b call_ok tick_nop.
Proof. unfold tick_nop. safe_go. Qed.
Lemma safe_init : safe b call_ok (tick_init now).
Proof. unfold tick_init. safe_go. Qed.
Lemma safe_peer_info K : safe b (inv K) (tick_peer_info now).
Proof. unfold tick_peer_info. safe_go. Qed.

(** Reliable packets fit into a buffer. *)
Lemma raw_in_buffer data : (length data <= 1024)%nat -> in_buffer (copy_raw data).
Proof.
  intros Hd buf Hl. unfold copy_raw, output_on. cbn [o_buffer]. rewrite decide_False by lia. cbn [emit fst snd o_buffer o_offset].
  eexists. split; [reflexivity|]. etransitivity; [apply length_store; cbn; lia|exact Hl].
Qed.
Lemma numbers_resend k : numbers (resend_number now k).
Proof.
  intros b' K. unfold resend_number. safe_step; [safe_go|]. safe_step; [|safe_go]. apply safe_link. intros l [L1 L2 L3 L4].
  split; [|done]. split; [exact L1| |done|done]. cbn. by apply Forall_alter.
Qed.
Lemma safe_resend fuel : forall k, safe b call_ok (resend now fuel k).
Proof.
  induction fuel as [|fuel IH]; intros k; [apply safe_ret|]. cbn [resend]. apply safe_bind_gets. intros c I.
  destruct (queuedPackets (c_link c) !! k) as [q|] eqn:E; [|apply safe_ret]. destruct (expired _ _).
  - safe_step; [|apply IH]. apply safe_link. intros l [L1 L2 L3 L4]. split; [|done]. split; [exact L1| |done|done]. cbn. by apply Forall_delete.
  - safe_step; [|apply IH]. safe_step. apply safe_enqueue; [apply numbers_resend|]. apply raw_in_buffer.
    destruct (iv_link _ _ I) as [_ L _ _]. apply (Forall_lookup_1 _ _ _ _ L E).
Qed.

Lemma safe_late K x : safe b (inv K) (late_bars x).
Proof. unfold late_bars. safe_go. Qed.
#[local] Hint Resolve safe_late : safe.
Lemma safe_tick_stream K k : safe b (inv K) (tick_stream k).
Proof.
  unfold tick_stream. apply safe_bind_gets. intros c I. destruct (incomingStreams (c_media c) !! k) as [s|] eqn:Hk; [|safe_go].
  destruct (st_jitterBuffer s) as [j|] eqn:Hj; [|safe_go]. destruct (stream_at _ _ _ _ (iv_media _ _ I) Hk Hj) as [J1 J2]. cbv zeta.
  pose proof (Tick_same j) as Ht. generalize dependent (Tick j). intros j' Ht. safe_step; [|safe_go]. apply safe_media. intros m [M1 M2 M3].
  split; [exact M1| |exact M3]. cbn. apply Forall_insert; [exact M2|]. unfold stream_ok. cbn. split; [by apply (same_packets_ok j)|].
  by destruct Ht as (_ & _ & ->).
Qed.
#[local] Hint Resolve safe_tick_stream : safe.
Lemma safe_tick_jitter K : safe b (inv K) tick_jitter.
Proof. unfold tick_jitter. safe_go. Qed.

Lemma judge_inv r : routes_inv r -> routes_inv (judge_udp r).
Proof. intros [R1 R2]. unfold judge_udp. cbv zeta. by repeat case_match. Qed.
Lemma safe_udp K : safe b (inv K) (tick_udp now).
Proof.
  unfold tick_udp, ping_relays. safe_go. all: try apply safe_deref, (iv_routes _ _ H). all: apply safe_routes; intros r; apply judge_inv.
Qed.
Lemma forget_inv r i : routes_inv r -> routes_inv (forget_p2p r i).
Proof. intros [R1 R2]. unfold forget_p2p. by case_decide. Qed.
Lemma safe_lose K : safe b (inv K) (lose_p2p now).
Proof.
  unfold lose_p2p. safe_step; [|safe_go]. apply safe_routes. intros r [R1 R2].
  assert (forall l r, routes_inv r -> routes_inv (foldl forget_p2p r l)) as Hl
    by (intros l; induction l as [|i l IH]; intros r0 H0; [done|]; by apply IH, forget_inv). by apply Hl.
Qed.
#[local] Hint Resolve safe_lose : safe.
Lemma safe_timeouts K : safe b (inv K) (tick_timeouts now).
Proof. unfold tick_timeouts. safe_go. Qed.
Lemma safe_tick_bars K n : safe b (inv K) (tick_bars n).
Proof. unfold tick_bars, update_quality. safe_go. Qed.
#[local] Hint Resolve safe_tick_history safe_transport safe_encoder safe_nop safe_init safe_peer_info safe_tick_jitter safe_udp safe_timeouts
  safe_tick_bars safe_resend : safe.
Lemma safe_tick : safe b call_ok (RunTickThread now).
Proof. unfold RunTickThread, update_quality, tick_signal, tick_tcp_bars, tick_reconnecting, tick_established, tick_resend. safe_go. apply safe_deref, (iv_routes _ _ H1). Qed.
End tick.
#[local] Hint Resolve safe_tick safe_incoming : safe.

(** ** The events of a call *)

(** What the application, the network, the audio hardware and the threads do. *)
Inductive event :=
  | EvConnect (now : double)
  | EvAudio (data secondaryData : list Z)
  | EvSend (randomID : Z) (randBytes : list Z) (rand : nat -> list Z) (now : double)
  | EvReceive (tcp : bool) (address : Z + list Z) (port : Z) (packet junkTag : list Z) (now : double)
  | EvTick (now : double)
  | EvMute (mute : bool) (now : double)
  | EvNetwork (type : net_type) (itfName v6 : list Z) (now : double)
  | EvGroupKey (key : list Z) | EvUpgrade | EvDebug (request param : Z) (now : double)
  | EvDevices (input : option bool) (output : option (bool * bool))
  | EvStop.

Section events.
Context `{crypto : CryptoFunctions} `{cfg : Config}.

Definition run_event (e : event) : M controller unit :=
  match e with
  | EvConnect now => Connect true now
  | EvAudio data secondaryData => HandleAudioInput data secondaryData
  | EvSend randomID randBytes rand now => RunSendThread true randomID randBytes rand now
  | EvReceive tcp address port packet junkTag now => receive_packet now true junkTag tcp address port packet
  | EvTick now => RunTickThread now
  | EvMute mute now => SetMicMute mute now
  | EvNetwork type itfName v6 now => SetNetworkType type itfName v6 now
  | EvGroupKey key => SendGroupCallKey key
  | EvUpgrade => RequestCallUpgrade
  | EvDebug request param now => DebugCtl request param now
  | EvDevices input output => update_media (fun m => m <| audioInput := input |> <| audioOutput := output |>)
  | EvStop => Stop
  end.
(** A call is stopped once; the encoder's frames, and the short ones it makes to be
    repeated, fit into the packets; the send thread has seven random bytes, and its
    clock is a positive number. *)
Definition allowed (e : event) (c : controller) : Prop :=
  match e with
  | EvStop => stopping (c_session c) = false
  | EvAudio data secondaryData => (length data <= 1017)%nat /\ (length secondaryData <= 253)%nat
  | EvSend _ randBytes _ now => length randBytes = 7%nat /\ good_time now
  | _ => True
  end.
(** A new controller with the key of the call and its relays. *)
Definition new_call (mem : list (list Z)) (key : list Z) (outgoing : bool) (eps : list Endpoint) (p2p : bool) (maxLayer : Z) : M controller unit :=
  put (new_controller mem) ;; SetCallKey key outgoing ;; SetRemoteEndpoints eps p2p maxLayer.
(** The states a call reaches, whatever order the threads run in. *)
Inductive reaches (c0 : controller) : controller -> Prop :=
  | reaches_start : reaches c0 c0
  | reaches_event c e : reaches c0 c -> allowed e c -> reaches c0 (run_event e c).2.

Lemma stop_ok c : call_ok c -> stopping (c_session c) = false -> (Stop c).1 = Value tt /\ call_ok (Stop c).2.
Proof.
  intros [I1 I2 I3 I4 I5] Hs. rewrite Hs in I1.
  destruct (put_null (c_queue c) (Pending 0 0 0 None 0) I1 eq_refl) as (q' & E & Q).
  assert (triple (fun c' => c' = c) Stop (fun _ => call_ok) (fun _ => False)) as H.
  2:{ specialize (H c eq_refl). by destruct (Stop c) as [[[]| |] c']. }
  unfold Stop. intros ? ->. erewrite run_bind by reflexivity. erewrite run_bind by reflexivity.
  erewrite run_bind; [|unfold on_queue, zoom; cbn [c_queue set]; rewrite E; reflexivity].
  match goal with |- match ?m ?d with _ => _ end => assert (call_ok d /\ safe false call_ok m) as [D Hm] end.
  - split; [|safe_go]. split; [exact Q|exact I2|exact I3|exact I4|].
    change (last_state (c_log c ++ [CancelSelect]) = callState (c_link c)). by rewrite last_state_snoc.
  - apply triple_sure in Hm. exact (Hm _ D).
Qed.
(** Every event ends, with nothing thrown: the audio, the send and the tick thread have
    no handler, and the receive thread catches what a packet throws. *)
Lemma event_ok e c : config_ok -> call_ok c -> allowed e c -> (run_event e c).1 = Value tt /\ call_ok (run_event e c).2.
Proof.
  intros Hcfg I Ha. destruct e; cbn [run_event allowed] in *.
  all: lazymatch goal with
    | |- (Stop _).1 = _ /\ _ => by apply stop_ok
    | |- (HandleAudioInput _ _ _).1 = _ /\ _ => apply (sure_result call_ok); [apply safe_audio_input; apply Ha|exact I]
    | |- (RunSendThread _ _ _ _ _ _).1 = _ /\ _ => apply (sure_result call_ok); [apply safe_send_thread; [apply Ha|lia]|exact I]
    | |- (?m _).1 = _ /\ _ => apply (sure_result call_ok m c); [safe_go|exact I]
    end.
Qed.
Lemma new_call_ok mem key outgoing eps p2p maxLayer c : length mem = 20%nat -> Forall (fun b => length b = 1024%nat) mem -> eps <> [] ->
  (new_call mem key outgoing eps p2p maxLayer c).1 = Value tt /\ call_ok (new_call mem key outgoing eps p2p maxLayer c).2.
Proof.
  intros Hm Hb He. unfold new_call. erewrite run_bind by reflexivity. erewrite run_bind by reflexivity. apply endpoints_ok; [exact He| | | |done].
  - split; cbn; [|done|done|constructor|constructor|done]. unfold pool_ok, is_u64. cbn. split; [lia|]. split; [lia|done].
  - split; [apply new_congestion_ok|constructor|split; constructor|]. cbn [c_link linkCallID set callID SetEncryptionKey]. unfold slice. rewrite length_take. lia.
  - split; [done|constructor|]. split; [cbn; lia|constructor].
Qed.
Lemma reaches_ok c0 c : config_ok -> call_ok c0 -> reaches c0 c -> call_ok c.
Proof. intros Hcfg I H. induction H as [|c e _ IH Ha]; [exact I|]. by apply event_ok. Qed.

(** C2: whatever the threads do and in whatever order, every event of a call of a release
    build ends normally: nothing aborts and no exception leaves it. No null route or
    stream is followed, no buffer is returned that is not of the pool, no assertion
    of the jitter buffer or the congestion control fails, the send queue of 21
    places, which aborts when it overflows, has room for the 20 buffers of the pool
    and the packet that stops the call, every packet fits into its buffer of 1024
    bytes and its frame, with whatever extras ride on it, into the 1500 of the send
    thread. This takes the encoder's frames to be at most 1017 bytes, of the 4096 its
    buffer has room for, and the short ones 253, of which it makes at most 128. The application has always been told the state the call is in. *)
Theorem call_never_fails (mem : list (list Z)) (key : list Z) (outgoing : bool) (eps : list Endpoint) (p2p : bool) (maxLayer : Z)
    (junk c : controller) (e : event) (Hcfg : config_ok)
    (Hmem : length mem = 20%nat /\ Forall (fun b => length b = 1024%nat) mem) (Heps : eps <> []) :
  let start := new_call mem key outgoing eps p2p maxLayer junk in
  forall (Hr : reaches start.2 c) (Ha : allowed e c),
  start.1 = Value tt /\ (run_event e c).1 = Value tt /\ (length (sendQueue (c_queue c)) <= QUEUE_CAPACITY)%nat /\
  NoDup (buffers (c_queue c)) /\ last_state (c_log c) = callState (c_link c).
Proof.
  intros start Hr Ha. destruct Hmem as [Hm Hb]. destruct (new_call_ok mem key outgoing eps p2p maxLayer junk Hm Hb Heps) as [S1 S2].
  pose proof (reaches_ok _ _ Hcfg S2 Hr) as I. destruct (event_ok e c Hcfg I Ha) as [E1 E2].
  split; [exact S1|]. split; [exact E1|]. destruct I as [I1 _ _ _ I5]. split; [|split; [apply (qo_nodup _ _ I1)|exact I5]].
  pose proof (queue_bound _ _ I1) as Hq. unfold QUEUE_CAPACITY. destruct (stopping (c_session c)); lia.
Qed.
End events.

(** ** A concrete call *)

Definition demo_call_config : Config := {|
  enableCallUpgrade := true; dataSaving := DATA_SAVING_NEVER; initTimeout := of_Z 30; recvTimeout := of_Z 20;
  GetInt := default_config; GetDouble := default_config; GetBoolean := fun _ b => b;
  newAudioInput := true; newAudioOutput := (true, false); GetLocalPort := 5000; localAddress := 0x0A000001;
  jitterMemory := blank_memory; jitterJunk := blank_jitter |}.
Definition demo_relay (id : Z) : Endpoint := mkEndpoint id 4000 (100 + id) emptyV6 TYPE_UDP_RELAY (replicate 16 id) d0 0 (replicate 6 d0) d0 0.
Definition demo_pool : list (list Z) := replicate 20 (zeros 1024).
Lemma demo_call_config_ok : config_ok (cfg := demo_call_config).
Proof. split; [|exact blank_memory_ok]. split; [|split]; vm_compute; discriminate. Qed.
Lemma demo_pool_ok : length demo_pool = 20%nat /\ Forall (fun b => length b = 1024%nat) demo_pool.
Proof. split; [reflexivity|]. apply Forall_replicate. reflexivity. Qed.

Abbreviation demo_event := (run_event (crypto := toy_crypto) (cfg := demo_call_config)).
Abbreviation demo_start := (new_call (crypto := toy_crypto) (cfg := demo_call_config) demo_pool (zeros 256) true [demo_relay 1; demo_relay 2] true 92
  (new_controller (cfg := demo_call_config) [])).
(** A frame that does not fit ends the thread of the audio input. *)
Example long_frame : (demo_event (EvAudio (zeros 1017) []) demo_start.2).1 = Value tt /\ (demo_event (EvAudio (zeros 1018) []) demo_start.2).1 = Thrown.
Proof. split; vm_compute; reflexivity. Qed.

Lemma call_never_fails_witness :
  let c1 := (demo_event (EvConnect (of_Z 5)) demo_start.2).2 in
  let c2 := (demo_event (EvAudio (zeros 1017) []) c1).2 in
  (demo_event (EvSend 1 (zeros 7) zeros (of_Z 6)) c2).1 = Value tt /\ length (sendQueue (c_queue c2)) = 3%nat.
Proof.
  intros c1 c2. split; [|vm_compute; reflexivity].
  refine (proj1 (proj2 (call_never_fails (crypto := toy_crypto) (cfg := demo_call_config) demo_pool (zeros 256) true [demo_relay 1; demo_relay 2] true 92
    (new_controller (cfg := demo_call_config) []) c2 (EvSend 1 (zeros 7) zeros (of_Z 6)) demo_call_config_ok demo_pool_ok _ _ _))).
  - discriminate.
  - apply (reaches_event (crypto := toy_crypto) (cfg := demo_call_config) _ c1 (EvAudio (zeros 1017) [])).
    + exact (reaches_event _ _ (EvConnect (of_Z 5)) (reaches_start _) I).
    + split; [rewrite length_zeros|cbn]; lia.
  - split; [reflexivity|]. split; reflexivity.
Defined.
