(* ===== verification/VoipCall.v ===== *)
(** * libtgvoip: packets between the two ends of a call

    What one controller queues, as it leaves the send thread, passes a relay and is
    dispatched by the other controller: the frames of the microphone reach the
    jitter buffer of the peer, the initial packets negotiate the version and the
    streams, and bytes that were not sealed with the key of the call change nothing. *)

From stdpp Require Import gmap.
From S2P Require Import Prelude Exn VoipBuffers Double VoipDefs Congestion Jitter VoipCrypto VoipPacket VoipState VoipControl VoipReceive VoipTick VoipSafety.

(** ** A packet without extras *)

(** No extra rides on the next packet. *)
Definition plain (l : link) : Prop := waiting l = true \/ currentExtras l = [].
Lemma takes_plain nd l pseq type len randomID randBytes v : link_ok l -> plain l -> is_byte type -> is_u32 pseq ->
  0 <= len < 2 ^ 24 - 13 -> length randBytes = 7%nat -> (waiting l = true \/ (6 <= v <-> 6 <= linkPeerVersion l)) ->
  takes (read_header nd (linkCallID l) v) (header_bytes l pseq type len randomID randBytes) (header_of l pseq type len 0).
Proof.
  intros Hl Hx Hty Hp Hlen Hr Hv. unfold header_of. destruct (waiting l) eqn:Hw; [apply takes_init; [done|done|done|done|lia|done]|].
  destruct Hx as [Hx|Hx]; [congruence|]. destruct Hv as [Hv|Hv]; [congruence|]. unfold header_bytes. rewrite Hw, bool_decide_decide, Hx.
  eapply takes_eq; [exact (takes_simple nd l pseq type len randomID randBytes v 0 (linkCallID l) Hl Hty Hp Hlen Hr)| |by destruct (decide (6 <= v))].
  destruct (decide (6 <= v)) as [E|E]; [rewrite decide_True by (by apply Hv)|rewrite decide_False by (by rewrite <- Hv)]; done.
Qed.
Lemma length_tl n : (length (tl_length n) <= 4)%nat.
Proof. unfold tl_length. case_decide; cbn; lia. Qed.
Lemma length_header l pseq type len randomID randBytes : link_ok l -> plain l -> length randBytes = 7%nat ->
  (0 < length (header_bytes l pseq type len randomID randBytes) <= 64)%nat.
Proof.
  intros Hl Hx Hr. pose proof (length_tl len) as T1. pose proof (length_tl (len + 13)) as T2. pose proof (lo_call _ Hl) as Hc.
  unfold header_bytes, prefix_bytes, seqs_bytes. destruct (waiting l) eqn:Hw.
  - rewrite !length_app, !length_le_bytes. destruct (bool_decide _); cbn [length]; lia.
  - destruct Hx as [Hx|Hx]; [congruence|]. rewrite Hx, !length_app, !length_le_bytes. change (extras_bytes []) with [0]. destruct (bool_decide _); cbn [length]; lia.
Qed.

(** ** The send thread *)

Definition transport (r : routes) (i : nat) : bool := bool_decide (e_type (ep r i) = TYPE_TCP_RELAY).
Definition open_route (r : routes) (i : nat) : Prop := (if transport r i then useTCP r else useUDP r) = true.
Definition tag_of (c : controller) (i : nat) : list Z :=
  if is_relay (ep (c_routes c) i) then e_peerTag (ep (c_routes c) i) else callID (c_keys c).

Section call.
Context `{crypto : CryptoFunctions}.

Lemma frame_plain nd pseq type data randomID randBytes now a :
  link_ok (c_link a) -> plain (c_link a) -> good_time now -> is_byte type -> is_u32 pseq -> (length data <= 1024)%nat -> length randBytes = 7%nat ->
  exists cc, link_ok (sent_link pseq now cc (c_link a)) /\
    frame_packet nd pseq type data randomID randBytes now a =
    (Value (header_bytes (c_link a) pseq type (Z.of_nat (length data)) randomID randBytes ++ data), a <| c_link := sent_link pseq now cc (c_link a) |>).
Proof.
  intros Hl Hx Ht Hty Hp Hd Hr. set (n := Z.of_nat (length data)). assert (0 <= n < 2 ^ 24 - 13) as Hn by lia.
  destruct (emits_header nd (c_link a) pseq type n randomID randBytes now Hl Ht Hty Hp Hn) as (cc & Hc & E). exists cc. split.
  { unfold sent_link. apply note_sent_ok, link_ok_conctl; [|done]. destruct (waiting (c_link a)); [done|by apply stamped_ok]. }
  assert (emits (frame nd pseq type data randomID randBytes now) (c_link a) (header_bytes (c_link a) pseq type n randomID randBytes ++ data)
            (sent_link pseq now cc (c_link a))) as F.
  { unfold frame. fold n. rewrite u32_id by lia. eapply emits_bind; [exact E|apply emits_bytes]. }
  destruct (F (output_on (zeros 1500))) as (o & E' & A).
  - unfold out_ok. cbn. lia.
  - intros _. cbn [o_buffer o_offset output_on]. rewrite length_app, length_zeros.
    pose proof (length_header (c_link a) pseq type n randomID randBytes Hl Hx Hr). lia.
  - unfold frame_packet. rewrite E'. destruct A as (_ & -> & _). done.
Qed.

(** The head of the queue leaves through endpoint [i]. *)
Lemma send_head nd randomID randBytes rand now a i p q b pool' :
  link_ok (c_link a) -> plain (c_link a) -> good_time now -> length randBytes = 7%nat ->
  sendQueue (c_queue a) = p :: q -> pp_data p = Some b -> is_byte (pp_type p) -> is_u32 (pp_seq p) ->
  (length (pool_read b (pp_len p) (pool (c_queue a))) <= 1024)%nat ->
  stopping (c_session a) = false -> route_of p (c_routes a) = Some i -> open_route (c_routes a) i ->
  Reuse b (pool (c_queue a)) = (Value tt, pool') ->
  let data := pool_read b (pp_len p) (pool (c_queue a)) in
  exists cc, link_ok (sent_link (pp_seq p) now cc (c_link a)) /\
    RunSendThread nd randomID randBytes rand now a = (Value tt,
      a <| c_queue := Queue q pool' |> <| c_link := sent_link (pp_seq p) now cc (c_link a) |>
        <| c_log := c_log a ++ [Transmit (transport (c_routes a) i) (GetAddress (ep (c_routes a) i)) (e_port (ep (c_routes a) i))
             (seal (c_keys a) rand (tag_of a i)
               (header_bytes (c_link a) (pp_seq p) (pp_type p) (Z.of_nat (length data)) randomID randBytes ++ data))] |>).
Proof.
  intros Hl Hx Ht Hr Hq Hp Hty Hs Hd Hstop Hi Ho HR data.
  set (a1 := a <| c_queue := Queue q (pool (c_queue a)) |>).
  destruct (frame_plain nd (pp_seq p) (pp_type p) data randomID randBytes now a1 Hl Hx Ht Hty Hs Hd Hr) as (cc & C & F). exists cc. split; [exact C|].
  unfold RunSendThread. erewrite (run_bind _ _ a _ a1) by (unfold on_queue, zoom, GetBlocking; rewrite Hq; destruct a as [? ? ? ? []]; reflexivity).
  cbv beta iota. rewrite Hp. erewrite run_bind by reflexivity.
  erewrite (run_bind _ _ a1 i a1) by (change (c_routes a1) with (c_routes a); rewrite Hi; reflexivity). cbv zeta.
  fold (transport (c_routes a1) i). unfold open_route in Ho. change (c_routes a1) with (c_routes a). rewrite Ho. cbn [when].
  fold data in F. set (wire := header_bytes _ _ _ _ _ _ ++ data) in *.
  set (a2 := a1 <| c_link := sent_link (pp_seq p) now cc (c_link a1) |>) in *.
  erewrite run_bind.
  2:{ erewrite run_bind by exact F. unfold SendPacket. erewrite run_bind by reflexivity. cbv zeta.
      change (c_routes a2) with (c_routes a). change (stopping (c_session a2)) with (stopping (c_session a)). rewrite Hstop.
      assert (bool_decide (e_type (ep (c_routes a) i) = TYPE_TCP_RELAY) && negb (useTCP (c_routes a)) = false) as ->.
      { unfold transport in Ho. destruct (bool_decide _); [by rewrite Ho|done]. }
      reflexivity. }
  unfold give_back, on_queue, zoom. cbn [c_queue set a1 a2 pool sendQueue]. rewrite HR. reflexivity.
Qed.

(** ** Queueing *)

Lemma enqueue_ok type endpoint (number : M controller Z) m bytes a b p0 n l :
  writes m bytes -> (length bytes <= 1024)%nat -> pool_ok (pool (c_queue a)) -> p_size (pool (c_queue a)) = 1024%nat ->
  (length (sendQueue (c_queue a)) < QUEUE_CAPACITY)%nat -> Get (pool (c_queue a)) = (Value (Some b), p0) ->
  (forall q, number (a <| c_queue := q |>) = (Value n, a <| c_queue := q |> <| c_link := l |>)) ->
  exists p1 p2, enqueue type endpoint number m a = (Value tt,
      a <| c_queue := Queue (sendQueue (c_queue a) ++ [Pending n type (length bytes) (Some b) endpoint]) p1 |> <| c_link := l |>) /\
    pool_read b (length bytes) p1 = bytes /\ Reuse b p1 = (Value tt, p2) /\ pool_ok p2 /\ p_size p2 = 1024%nat /\
    bufferCount p2 = bufferCount (pool (c_queue a)) /\ forall k, (k < bufferCount p2)%nat -> in_use p2 k = in_use (pool (c_queue a)) k.
Proof.
  intros Hm Hl P Hsz Hq Hg Hn. pose proof (Get_spec _ P) as G. rewrite Hg in G. destruct G as (G1 & G2 & G3 & G4 & G5 & G6 & G7).
  set (p := pool (c_queue a)) in *.
  assert (length (nth b (p_mem p0) []) = 1024%nat) as Hb.
  { destruct G1 as (_ & _ & M1 & M2). rewrite (proj1 (Forall_nth _ [] _) M2 b) by (rewrite M1; lia). congruence. }
  destruct (writes_on m bytes (nth b (p_mem p0) []) Hm) as (o & E & W & O1 & O2); [by rewrite Hb|].
  set (p1 := Pool (usedBuffers p0) (bufferCount p0) (p_size p0) (<[b := o_buffer o]> (p_mem p0))).
  assert (pool_ok p1) as P1 by (apply replace_buffer_ok; [done|]; rewrite O2, Hb; congruence).
  destruct (Reuse_spec p1 b P1) as (p2 & R & R1 & R2 & R3 & _ & R5); [cbn; lia|].
  exists p1, p2. split.
  - unfold enqueue. set (q0 := (c_queue a) <| pool := p0 |>).
    erewrite (run_bind _ _ a (Some b) (a <| c_queue := q0 |>)) by (unfold on_queue, zoom, take_buffer, zoom; fold p; rewrite Hg; reflexivity).
    cbv beta iota. set (q1 := q0 <| pool := p1 |>).
    erewrite (run_bind _ _ _ (length bytes) (a <| c_queue := q1 |>)).
    2:{ unfold on_queue, zoom, write_buffer. cbn [c_queue set q0 pool]. rewrite E, O1. reflexivity. }
    erewrite run_bind by apply Hn. unfold on_queue, zoom, Put. cbn [c_queue set q1 q0 sendQueue].
    rewrite decide_False; [reflexivity|]. rewrite length_app. cbn [length]. lia.
  - split; [|split; [exact R|split; [exact R1|split; [rewrite R3; cbn; congruence|split; [rewrite R2; cbn; congruence|]]]]].
    + unfold pool_read, p1. cbn [p_mem]. assert (b < length (p_mem p0))%nat as Hlt by (destruct G1 as (_ & _ & -> & _); lia).
      rewrite (nth_lookup_Some _ b [] (o_buffer o)) by (by apply list_lookup_insert_eq). rewrite <- O1. exact W.
    + intros k Hk. rewrite R2 in Hk. cbn [bufferCount p1] in Hk. rewrite R5 by exact Hk. change (in_use p1 k) with (in_use p0 k). rewrite G4 in Hk. rewrite G7 by exact Hk.
      destruct (decide (k = b)) as [->|Hne]; [rewrite bool_decide_eq_true_2 by done; by rewrite G3|].
      rewrite bool_decide_eq_false_2 by done. by rewrite orb_false_r, andb_true_r.
Qed.

(** ** A frame of the microphone *)

Definition frame_bytes (data : list Z) (ts : Z) : list Z :=
  let len := Z.of_nat (length data) in
  [Z.lor 1 (if decide (255 < len) then STREAM_DATA_FLAG_LEN16 else 0)] ++
  (if decide (255 < len) then le_bytes 2 (i16 len) else [u8 len]) ++ le_bytes 4 ts ++ data.
Lemma writes_frame data ts : writes (write_frame data ts) (frame_bytes data ts).
Proof. unfold write_frame, frame_bytes. cbv zeta. destruct (decide _); writes_go. Qed.
Lemma length_frame data ts : (length (frame_bytes data ts) <= length data + 7)%nat.
Proof. unfold frame_bytes. cbv zeta. rewrite !length_app, length_le_bytes. destruct (decide _); rewrite ?length_le_bytes; cbn [length]; lia. Qed.

Lemma run_next_seq (a : controller) q : next_seq (a <| c_queue := q |>) =
  (Value (outSeq (c_link a)), a <| c_queue := q |> <| c_link := (GenerateOutSeq (c_link a)).2 |>).
Proof. reflexivity. Qed.
Lemma audio_queued `{cfg : Config} data a b p0 s l :
  (length data <= 1017)%nat -> queue_ok (c_queue a) false -> (length (sendQueue (c_queue a)) < QUEUE_CAPACITY)%nat ->
  Get (pool (c_queue a)) = (Value (Some b), p0) -> outgoingStreams (c_media a) = s :: l ->
  stopping (c_session a) = false -> waitingForAcks (c_link a) = false -> dontSendPackets (c_link a) <= 0 ->
  let bytes := frame_bytes data (audioTimestampOut (c_media a)) in
  exists p1 p2, HandleAudioInput data [] a = (Value tt,
      a <| c_queue := Queue (sendQueue (c_queue a) ++ [Pending (outSeq (c_link a)) PKT_STREAM_DATA (length bytes) (Some b) 0]) p1 |>
        <| c_link := (GenerateOutSeq (c_link a)).2 |>
        <| c_media := (c_media a) <| audioTimestampOut := u32 (audioTimestampOut (c_media a) + st_frameDuration s) |> |>) /\
    pool_read b (length bytes) p1 = bytes /\ Reuse b p1 = (Value tt, p2) /\
    forall k, (k < 20)%nat -> in_use p2 k = in_use (pool (c_queue a)) k.
Proof.
  intros Hd Q Hq Hg Hs Hst Hw Hds bytes. destruct Q as [P Pc Ps _ _ _]. pose proof (length_frame data (audioTimestampOut (c_media a))) as Hl. fold bytes in Hl.
  destruct (enqueue_ok PKT_STREAM_DATA 0 next_seq _ bytes a b p0 _ _ (writes_frame data (audioTimestampOut (c_media a))) ltac:(lia) P Ps Hq Hg (run_next_seq a))
    as (p1 & p2 & E & R1 & R2 & _ & _ & R3 & R4).
  exists p1, p2. split; [|split; [exact R1|split; [exact R2|intros k Hk; apply R4; congruence]]].
  unfold HandleAudioInput. erewrite run_bind by reflexivity. rewrite Hst, Hw. rewrite bool_decide_eq_false_2 by lia. cbn [orb].
  erewrite run_bind by exact E. rewrite Hs. rewrite (bool_decide_eq_false_2 ([] <> [])) by (intros N; by apply N). cbn [andb when].
  erewrite run_bind by reflexivity. reflexivity.
Qed.

(** ** The receive thread *)

(** How [receive_packet] ends: an exception of a handler is caught. *)
Definition caught (r : outcome unit * (controller * in_stream)) : outcome unit * controller :=
  match r with (Thrown, (c, _)) => (Value tt, c) | (o, (c, _)) => (o, c) end.
(** The link once packet [pseq], with what it acknowledges, is taken in. *)
Definition taken (now : double) (pseq : Z) (a b : link) : link :=
  receive_acks (lastRemoteSeq a) (ack_mask (recvPacketTimes a)) now (receive_seq pseq now b).2.

Context `{cfg : Config}.

(** Packets of [a] reach [b] through endpoint [i] of [a] and [j] of [b]; the relay
    puts [tag] in place of the tag of [a]. *)
Record path (a b : controller) (i j : nat) (tcp : bool) (address : Z + list Z) (port : Z) (tag : list Z) : Prop := {
  pa_keys : peers (c_keys a) (c_keys b);
  pa_call : linkCallID (c_link b) = linkCallID (c_link a);
  pa_version : waiting (c_link a) = true \/ (6 <= linkPeerVersion (c_link b) <-> 6 <= linkPeerVersion (c_link a));
  pa_running : stopping (c_session a) = false;
  pa_open : open_route (c_routes a) i;
  pa_tag_out : length (tag_of a i) = 16%nat;
  pa_sender : find_endpoint (sender_matches tcp address port) (c_routes b) = Some j;
  pa_current : currentEndpoint (c_routes b) = Some j;
  pa_tag : tag = if is_relay (ep (c_routes b) j) then take 16 (e_peerTag (ep (c_routes b) j)) else callID (c_keys b);
  pa_tag_in : length tag = 16%nat
}.
(** The packet the relay hands on. *)
Definition relayed (tag pkt : list Z) : list Z := tag ++ drop 16 pkt.

Lemma relayed_seal (k : call_keys) rand tag tag' data : length tag' = 16%nat -> (0 < length data)%nat ->
  relayed tag (seal k rand tag' data) = seal k rand tag data.
Proof.
  intros Ht Hd. unfold relayed, seal. rewrite !decide_True by done. by rewrite drop_app_length'.
Qed.
Lemma open_packet_seek k w p : (16 <= length p)%nat -> open_packet k w p (InStream p 16) = open_packet k w p (new_input p).
Proof. intros Hl. unfold open_packet. 
  rewrite (run_bind _ _ _ _ _ (Seek_ok (InStream p 16) 16 Hl)). symmetry. by rewrite (run_bind _ _ _ _ _ (Seek_ok (new_input p) 16 Hl)).
Qed.
Lemma run_ct {A B} (m : M controller A) (f : A -> R B) c s x c' : m c = (Value x, c') -> (ct m ≫= f) (c, s) = f x (c', s).
Proof. intros E. apply run_bind. unfold ct, zoom. cbn [fst snd]. by rewrite E. Qed.
Lemma run_R {A B} (m : R A) (f : A -> R B) x y z : m x = (Value y, z) -> (m ≫= f) x = f y z.
Proof. apply run_bind. Qed.
Lemma run_rd {A B} (m : M in_stream A) (f : A -> R B) c s x s' : m s = (Value x, s') -> (rd m ≫= f) (c, s) = f x (c, s').
Proof. intros E. apply run_bind. unfold rd, zoom. cbn [fst snd]. by rewrite E. Qed.
Lemma seal_length k rand tag data : (0 < length data)%nat -> length tag = 16%nat ->
  take 16 (seal k rand tag data) = tag /\ (16 <= length (seal k rand tag data))%nat.
Proof.
  intros Hd Ht. unfold seal. rewrite decide_True by done. split; [by apply take_app_length'|]. rewrite length_app. lia.
Qed.

(** A sealed packet that is fresh reaches the handler of its type with its data. *)
Lemma receive_sealed now nd junk (a b : controller) i j tcp address port tag rand pseq type randomID randBytes data :
  path a b i j tcp address port tag -> link_ok (c_link a) -> plain (c_link a) -> is_byte type -> is_u32 pseq ->
  (length data <= 1024)%nat -> length randBytes = 7%nat -> rand_ok rand ->
  let n := Z.of_nat (length data) in
  let packet := seal (c_keys a) rand tag (header_bytes (c_link a) pseq type n randomID randBytes ++ data) in
  (is_relay (ep (c_routes b) j) = true -> is_special packet = false) ->
  (receive_seq pseq now (c_link b)).1 = Value true ->
  exists buffer s pad k, rest s = data ++ pad /\ i_buffer s = take k buffer /\ (k <= length packet)%nat /\ (useMTProto2 (c_keys a) = true -> pad = []) /\
    receive_packet now nd junk tcp address port packet b =
    caught (dispatch now junk j buffer (length packet) type pseq (if waiting (c_link a) then n else n + 13)
      (b <| c_session := (c_session b) <| lastRecvPacketTime := now |> |> <| c_link := taken now pseq (c_link a) (c_link b) |>, s)).
Proof.
  intros P Hl Hx Hty Hp Hd Hr Hrand n packet Hsp Hseq. set (hdr := header_bytes _ _ _ _ _ _) in *.
  pose proof (length_header (c_link a) pseq type n randomID randBytes Hl Hx Hr) as Hh. fold hdr in Hh.
  assert (0 < length (hdr ++ data) <= 1400)%nat as Hhd by (rewrite length_app; lia).
  destruct (seal_length (c_keys a) rand tag (hdr ++ data)) as [T1 T2]; [lia|apply (pa_tag_in _ _ _ _ _ _ _ _ P)|]. fold packet in T1, T2.
  destruct (open_seal_ok (c_keys a) (c_keys b) rand tag (hdr ++ data) [] (waiting (c_link b)) (pa_keys _ _ _ _ _ _ _ _ P) Hrand (pa_tag_in _ _ _ _ _ _ _ _ P) Hhd)
    as (t & buffer & s & E & (k & Hk & Hbuf) & Hs). fold packet in E. rewrite app_nil_r in E.
  assert (exists pad, rest s = hdr ++ data ++ pad /\ (useMTProto2 (c_keys a) = true -> pad = [])) as (pad & Hrest & Hpad).
  { destruct (useMTProto2 (c_keys a)).
    - destruct Hs as [-> _]. exists []. by rewrite app_nil_r.
    - destruct Hs as (pad & Hs & _). exists pad. by rewrite app_assoc. }
  assert (takes (read_header nd (linkCallID (c_link b)) (linkPeerVersion (c_link b))) hdr (header_of (c_link a) pseq type n 0)) as T.
  { rewrite (pa_call _ _ _ _ _ _ _ _ P). apply takes_plain; [done|done|done|done|lia|done|apply (pa_version _ _ _ _ _ _ _ _ P)]. }
  exists buffer, (advance (length hdr) s), pad, k.
  split; [by apply (rest_advance_app _ _ hdr)|]. split; [exact Hbuf|]. split; [exact Hk|]. split; [exact Hpad|].
  unfold receive_packet. rewrite decide_False by (intros Z0; rewrite Z0 in T2; cbn in T2; lia). rewrite (pa_sender _ _ _ _ _ _ _ _ P).
  unfold ProcessIncomingPacket, parsing.
  set (d := dispatch _ _ _ _ _ _ _ _ _).
  assert (process_packet now nd junk j packet (b, new_input packet) = d) as ->; [|by destruct d as [[| |] [? ?]]].
  unfold process_packet. erewrite run_ct by reflexivity. rewrite T1, <- (pa_tag _ _ _ _ _ _ _ _ P). cbv zeta.
  rewrite decide_False by (intros N; by apply N). erewrite run_rd by (apply Seek_ok; exact T2). cbn [i_buffer new_input].
  assert (is_relay (ep (c_routes b) j) && is_special packet = false) as -> by (destruct (is_relay _); [by apply Hsp|done]).
  erewrite run_rd by (rewrite open_packet_seek by exact T2; exact E). cbv beta iota.
  erewrite run_rd by reflexivity. cbn [when]. erewrite (run_R _ _ _ tt) by reflexivity.
  unfold process_payload. erewrite run_ct by reflexivity. erewrite run_ct by reflexivity.
  erewrite run_rd by (exact (T s _ Hrest)). unfold header_of. cbv beta iota.
  destruct (receive_seq pseq now (c_link b)) as [o l1] eqn:El. cbn [fst] in Hseq. subst o.
  erewrite run_ct by (unfold on_net, zoom; cbn [c_link set]; rewrite El; reflexivity). cbn [negb].
  erewrite run_ct by reflexivity.
  erewrite run_ct.
  2:{ unfold follow_relay. erewrite run_bind by reflexivity. cbn [c_routes set]. by rewrite decide_True by apply (pa_current _ _ _ _ _ _ _ _ P). }
  cbn [has]. erewrite (run_R _ _ _ tt) by reflexivity. unfold d, taken. rewrite El. reflexivity.
Qed.
(** ** A frame of the peer *)

Lemma start_output_ok c : exists c', start_output c = (Value tt, c') /\ incomingStreams (c_media c') = incomingStreams (c_media c).
Proof. unfold start_output, gets, mbind, M_bind. destruct (negb _ && _); by eexists. Qed.
Lemma slice_rest buffer k s data pad len : i_buffer s = take k buffer -> (k <= len)%nat -> rest s = data ++ pad ->
  slice buffer (i_offset s) (length data) = data /\ (i_offset s + length data <= len \/ data = [])%nat.
Proof.
  intros Hb Hk Hr. destruct (decide (data = [])) as [->|Hne]; [split; [done|by right]|].
  assert (i_offset s + length data <= k)%nat as Ho.
  { apply (f_equal length) in Hr. unfold rest in Hr. rewrite length_drop, Hb, length_take, length_app in Hr. destruct data; [done|]. cbn [length] in *. lia. }
  split; [|left; lia]. rewrite (slice_prefix buffer k) by exact Ho. rewrite <- Hb. unfold slice. fold (rest s). rewrite Hr. by rewrite take_app_length.
Qed.
Lemma frame_read now i buffer len c s st j j' data ts pad k :
  callState (c_link c) = STATE_ESTABLISHED -> incomingStreams (c_media c) !! 0%nat = Some st -> st_jitterBuffer st = Some j ->
  rest s = frame_bytes data ts ++ pad -> i_buffer s = take k buffer -> (k <= len)%nat -> (0 < length data <= 1017)%nat -> is_u32 ts ->
  HandleInput data ts false now j = (Value tt, j') ->
  exists c' s', handle_stream_data now i buffer len PKT_STREAM_DATA (c, s) = (Value tt, (c', s')) /\
    incomingStreams (c_media c') !! 0%nat = Some (st <| st_jitterBuffer := Some j' |>).
Proof.
  intros Hc Hst Hj Hr Hb Hk Hd Hts HI. unfold handle_stream_data. erewrite run_ct by reflexivity.
  rewrite bool_decide_eq_true_2 by exact Hc. cbn [negb andb when]. erewrite (run_R _ _ _ tt) by reflexivity.
  erewrite run_ct by reflexivity.
  assert (exists c1, when (bool_decide (e_type (ep (c_routes c) i) = TYPE_UDP_RELAY))
     (ct (update_routes (fun r => r <| peerPreferredRelay := Some i |>))) (c, s) = (Value tt, (c1, s)) /\ c_media c1 = c_media c) as (c1 & E1 & M1)
    by (destruct (bool_decide _); by eexists).
  erewrite run_R by exact E1. change (frame_count PKT_STREAM_DATA) with 1%nat. cbn [read_frames].
  unfold frame_bytes in Hr. cbv zeta in Hr. set (n := Z.of_nat (length data)) in *. rewrite <- !app_assoc in Hr.
  erewrite run_rd by (eapply takes_byte; exact Hr). apply (rest_advance_app 1%nat) in Hr; [|reflexivity]. set (s1 := advance _ s) in *.
  assert (exists s2, act (if has STREAM_DATA_FLAG_LEN16 (Z.land (Z.lor 1 (if decide (255 < n) then STREAM_DATA_FLAG_LEN16 else 0)) 0xC0)
      then n ← rd ReadInt16; mret (u16 n) else rd ReadByte) (c1, s1) = (Value n, (c1, s2)) /\
      i_buffer s2 = i_buffer s /\ rest s2 = le_bytes 4 ts ++ data ++ pad) as (s2 & E2 & B2 & Hr2).
  { destruct (decide (255 < n)) as [H255|H255].
    - change (has _ _) with true. cbv iota. exists (advance 2 s1). split; [|split; [done|]].
      + erewrite run_rd by (apply (ReadInt16_ok _ _ _ Hr)). rewrite (i16_id n), (i16_id n) by lia. rewrite u16_mod, Z.mod_small by lia. done.
      + apply (rest_advance_app 2%nat) in Hr; [exact Hr|]. by rewrite length_le_bytes.
    - change (has _ _) with false. cbv iota. exists (advance 1 s1). split; [|split; [done|]].
      + unfold rd, zoom. cbn [fst snd]. rewrite (takes_byte _ _ _ Hr). rewrite u8_id by lia. done.
      + by apply (rest_advance_app 1%nat) in Hr. }
  erewrite run_R by exact E2. erewrite run_rd by (eapply takes_int32; exact Hr2).
  apply (rest_advance_app 4%nat) in Hr2; [|reflexivity]. set (s3 := advance _ s2) in *. rewrite u32_i32_id by exact Hts.
  erewrite run_ct by reflexivity. set (c2 := c1 <| c_media := _ |>).
  destruct (start_output_ok c2) as (c3 & E3 & M3). erewrite run_ct by exact E3. erewrite run_rd by reflexivity. assert (Z.to_nat n = length data) as -> by (unfold n; lia).
  assert (i_buffer s3 = take k buffer) as B3 by (unfold s3; cbn [advance i_buffer]; congruence).
  destruct (slice_rest buffer k s3 data pad len B3 Hk Hr2) as [-> [Hle|Hle]]; [|subst data; cbn in Hd; lia].
  rewrite decide_False by lia.
  erewrite run_ct.
  2:{ unfold jitter_input. rewrite M3. change (incomingStreams (c_media c2)) with (incomingStreams (c_media c1)). rewrite M1, Hst, Hj, HI. reflexivity. }
  rewrite (bool_decide_eq_true_2 (0 = 0)%nat) by done. cbn [negb when]. erewrite (run_R _ _ _ tt) by reflexivity.
  eexists _, _. split; [reflexivity|]. cbn [c_media set set_stream incomingStreams]. rewrite M3. unfold c2. cbn [c_media set incomingStreams]. rewrite M1.
  apply list_lookup_insert_eq. by apply lookup_lt_Some in Hst.
Qed.
(** What an incoming header leaves alone. *)
Definition ident (l : link) : call_state * Z * list Z := (callState l, outSeq l, linkCallID l).
Lemma processed_ident xs : forall l, ident (foldl (fun l x => ProcessAcknowledgedOutgoingExtra x l) l xs) = ident l.
Proof.
  induction xs as [|x xs IH]; intros l; [done|]. cbn [foldl]. rewrite IH. unfold ProcessAcknowledgedOutgoingExtra.
  case_decide; [|done]. by destruct (didReceiveGroupCallKeyAck l).
Qed.
Lemma with_extras_ident l xs : ident (l <| currentExtras := xs |>) = ident l.
Proof. reflexivity. Qed.
Lemma ack_extras_ident l : ident (ack_extras l) = ident l.
Proof. unfold ack_extras. rewrite with_extras_ident. apply processed_ident. Qed.
Lemma ack_queued_ident l : ident (ack_queued l) = ident l.
Proof. reflexivity. Qed.
Lemma ack_packets_ident ackId acks now l : ident (ack_packets ackId acks now l) = ident l.
Proof.
  unfold ack_packets. generalize (ack_all ackId acks now (recentOutgoingPackets l) (PacketAcknowledged ackId now (conctl l))). by intros rc.
Qed.
Lemma resume_ident l : ident (resume_sending l) = ident l.
Proof. unfold resume_sending. by destruct (_ && _). Qed.
Lemma receive_acks_ident ackId acks now l : ident (receive_acks ackId acks now l) = ident l.
Proof. unfold receive_acks. destruct (seqgt _ _); [|done]. by rewrite ack_extras_ident, ack_queued_ident, ack_packets_ident, resume_ident. Qed.
Lemma receive_seq_ident pseq now l : ident (receive_seq pseq now l).2 = ident l.
Proof. unfold receive_seq. destruct (seqgt _ _); [done|]. case_decide; [|done]. by destruct (negb _). Qed.
Lemma taken_ident now pseq a b : ident (taken now pseq a b) = ident b.
Proof. unfold taken. by rewrite receive_acks_ident, receive_seq_ident. Qed.
Lemma taken_state now pseq a b : callState (taken now pseq a b) = callState b.
Proof. exact (f_equal (fun x => x.1.1) (taken_ident now pseq a b)). Qed.
Lemma taken_outSeq now pseq a b : outSeq (taken now pseq a b) = outSeq b.
Proof. exact (f_equal (fun x => x.1.2) (taken_ident now pseq a b)). Qed.
Lemma taken_call now pseq a b : linkCallID (taken now pseq a b) = linkCallID b.
Proof. exact (f_equal (fun x => x.2) (taken_ident now pseq a b)). Qed.

(** A frame kept by [HandleInput] is held under its timestamp. *)
Lemma input_held j data ts time : jitter_ok j -> 2 <= maxUsedSlots j -> is_u32 ts -> (length data <= JITTER_SLOT_SIZE)%nat ->
  exists j', HandleInput data ts false time j = (Value tt, j') /\ jitter_ok j' /\ held j' ts data false.
Proof.
  intros Hj Hm Hts Hd. destruct (HandleInput_ok j data ts false time Hj Hm Hts) as (j' & E & J & _ & H). exists j'. split; [exact E|]. split; [exact J|].
  rewrite decide_False in H by lia. unfold handle_effect in H. cbn [k_timestamp k_data k_isEC] in H. case_decide.
  - destruct H as [_ H]. apply H. by left.
  - by destruct H as (_ & H & _).
Qed.

(** C6: a frame of the microphone reaches the ear: [HandleAudioInput] queues it, the
    send thread transmits one packet and gives the buffer back, and that packet,
    handed on by a relay that only exchanges the tag, makes the peer put exactly
    this frame under its timestamp into the jitter buffer of its first stream. *)
Theorem audio_delivered (a b : controller) (i j : nat) (tcp : bool) (address : Z + list Z) (port : Z) (tag data : list Z)
    (nd : bool) (junk : list Z) (randomID : Z) (randBytes : list Z) (rand : nat -> list Z) (now now' : double)
    (k : nat) (p0 : buffer_pool) (s0 st : Stream) (l0 : list Stream) (jb : jitter)
  (Hpath : path a b i j tcp address port tag) (Hroute : currentEndpoint (c_routes a) = Some i)
  (Hlink : link_ok (c_link a) /\ is_u32 (outSeq (c_link a)) /\ currentExtras (c_link a) = [])
  (Hqueue : queue_ok (c_queue a) false /\ sendQueue (c_queue a) = [] /\ Get (pool (c_queue a)) = (Value (Some k), p0))
  (Hsend : waitingForAcks (c_link a) = false /\ dontSendPackets (c_link a) <= 0 /\ outgoingStreams (c_media a) = s0 :: l0)
  (Hdata : (0 < length data <= 1017)%nat /\ is_u32 (audioTimestampOut (c_media a)))
  (Hrand : rand_ok rand /\ length randBytes = 7%nat /\ good_time now)
  (Hest : callState (c_link b) = STATE_ESTABLISHED) (Hfresh : (receive_seq (outSeq (c_link a)) now' (c_link b)).1 = Value true)
  (Hst : incomingStreams (c_media b) !! 0%nat = Some st /\ st_jitterBuffer st = Some jb) (Hjb : jitter_ok jb /\ 2 <= maxUsedSlots jb) :
  let r1 := HandleAudioInput data [] a in
  let r2 := RunSendThread nd randomID randBytes rand now r1.2 in
  r1.1 = Value tt /\ r2.1 = Value tt /\ sendQueue (c_queue r2.2) = [] /\
  (forall n, (n < 20)%nat -> in_use (pool (c_queue r2.2)) n = in_use (pool (c_queue a)) n) /\
  exists packet, c_log r2.2 = c_log a ++ [Transmit (transport (c_routes a) i) (GetAddress (ep (c_routes a) i)) (e_port (ep (c_routes a) i)) packet] /\
    ((is_relay (ep (c_routes b) j) = true -> is_special (relayed tag packet) = false) ->
     let r3 := receive_packet now' nd junk tcp address port (relayed tag packet) b in
     exists jb', r3.1 = Value tt /\ incomingStreams (c_media r3.2) !! 0%nat = Some (st <| st_jitterBuffer := Some jb' |>) /\
       jitter_ok jb' /\ held jb' (audioTimestampOut (c_media a)) data false).
Proof.
  destruct Hlink as (Hl & Hs & Hx), Hqueue as (Q & Hq & Hg), Hsend as (Hw & Hds & Ho), Hdata as (Hd & Hts), Hrand as (Hr & Hrb & Hnow).
  destruct Hst as (Hst & Hj), Hjb as (Hjb & Hmax). set (ts := audioTimestampOut (c_media a)) in *. set (bytes := frame_bytes data ts).
  pose proof (length_frame data ts) as Hb. fold bytes in Hb. pose proof Hpath as [Pk Pc Pv Pr Po Pt _ _ _ _].
  destruct (audio_queued data a k p0 s0 l0 ltac:(lia) Q ltac:(rewrite Hq; unfold QUEUE_CAPACITY; cbn; lia) Hg Ho Pr Hw Hds) as (p1 & p2 & E1 & R1 & R2 & R3).
  fold ts bytes in E1, R1. cbv zeta. rewrite E1. cbn [fst snd]. set (a1 := a <| c_queue := _ |> <| c_link := _ |> <| c_media := _ |>).
  assert (link_ok (c_link a1)) as Hl1 by (destruct Hl; by split).
  destruct (send_head nd randomID randBytes rand now a1 i (Pending (outSeq (c_link a)) PKT_STREAM_DATA (length bytes) (Some k) 0) [] k p2 Hl1
    (or_intror Hx) Hnow Hrb) as (cc & _ & E2); try done.
  { unfold a1. cbn [c_queue set sendQueue]. by rewrite Hq. }
  { unfold a1. cbn [c_queue set pool pp_len]. rewrite R1. lia. }
  change (pool_read k _ (pool (c_queue a1))) with (pool_read k (length bytes) p1) in E2. cbn [pp_seq pp_type pp_len] in E2. rewrite R1 in E2.
  set (packet := seal _ _ _ _) in E2. rewrite E2. cbn [fst snd c_queue set sendQueue pool]. split; [done|]. split; [done|]. split; [done|].
  split; [exact R3|]. exists packet. split; [done|]. intros Hsp.
  assert (path a1 b i j tcp address port tag) as P1 by (destruct Hpath; by split).
  set (wire := header_bytes (c_link a1) (outSeq (c_link a)) PKT_STREAM_DATA (Z.of_nat (length bytes)) randomID randBytes ++ bytes) in *.
  assert (relayed tag packet = seal (c_keys a1) rand tag wire) as Er.
  { apply relayed_seal; [exact Pt|]. unfold wire. rewrite length_app.
    pose proof (length_header (c_link a1) (outSeq (c_link a)) PKT_STREAM_DATA (Z.of_nat (length bytes)) randomID randBytes Hl1 (or_intror Hx) Hrb). lia. }
  rewrite Er in Hsp |- *.
  destruct (receive_sealed now' nd junk a1 b i j tcp address port tag rand (outSeq (c_link a)) PKT_STREAM_DATA randomID randBytes bytes P1 Hl1
    (or_intror Hx) ltac:(done) Hs ltac:(lia) Hrb Hr Hsp Hfresh) as (buffer & s & pad & n & S1 & S2 & S3 & _ & S4).
  destruct (input_held jb data ts now' Hjb Hmax Hts ltac:(unfold JITTER_SLOT_SIZE; lia)) as (jb' & HI & J1 & J2).
  fold wire in S3, S4. rewrite S4. clear S4. set (b1 := b <| c_session := _ |> <| c_link := _ |>).
  destruct (frame_read now' j buffer (length (seal (c_keys a1) rand tag wire)) b1 s st jb jb' data ts pad n) as (c' & s' & F1 & F2); try done.
  { unfold b1. cbn [c_link set]. by rewrite taken_state. }
  change (dispatch now' junk j buffer ?l PKT_STREAM_DATA ?q ?m) with (handle_stream_data now' j buffer l PKT_STREAM_DATA).
  rewrite F1. exists jb'. split; [done|]. split; [exact F2|]. by split.
Qed.
End call.

(** ** Packets without the key of the call *)

(** Only the routes and what is queued for the peer differ. *)
Record only_routes (c c' : controller) : Prop := {
  or_keys : c_keys c' = c_keys c;
  or_media : c_media c' = c_media c;
  or_queue : c_queue c' = c_queue c;
  or_session : c_session c' = c_session c;
  or_quality : c_quality c' = c_quality c;
  or_log : c_log c' = c_log c;
  or_link : exists extras queued, c_link c' = (c_link c) <| currentExtras := extras |> <| queuedPackets := queued |>
}.
Lemma only_routes_refl c : only_routes c c.
Proof. split; try done. exists (currentExtras (c_link c)), (queuedPackets (c_link c)). by destruct (c_link c). Qed.
Section unsealed.
Context `{crypto : CryptoFunctions} `{cfg : Config} (c0 : controller).

Lemma routes_only f : safe true (only_routes c0) (update_routes f).
Proof. intros c [? ? ? ? ? ? ?]. by split. Qed.
Lemma extra_only data type : safe true (only_routes c0) (update_link (SendExtra data type)).
Proof.
  intros c [O1 O2 O3 O4 O5 O6 (xs & qs & O7)]. split; try done. cbn [update_link on_net zoom modify snd c_link set].
  unfold SendExtra. destruct (replace_extra _ _ _) as [ys|]; eexists _, qs; by rewrite O7.
Qed.
Lemma reliably_only t d r tmo j : safe true (only_routes c0) (update_link (SendPacketReliably t d r tmo j)).
Proof. intros c [O1 O2 O3 O4 O5 O6 (xs & qs & O7)]. split; try done. exists xs. eexists. cbn [update_link on_net zoom modify snd c_link set]. by rewrite O7. Qed.
Lemma build_only size m bytes : writes m bytes -> safe true (only_routes c0) (build size m).
Proof. intros Hm c Hc. by rewrite (build_writes size m bytes c Hm). Qed.
Lemma rd_only {A} (m : M in_stream A) : no_abort m -> safe true (fun x => only_routes c0 x.1) (rd m).
Proof. intros Hm [c s] Hc. unfold rd, zoom. cbn [fst snd]. specialize (Hm s). by destruct (m s) as [[a| |] t]. Qed.
Lemma ct_only {A} (m : M controller A) : safe true (only_routes c0) m -> safe true (fun x => only_routes c0 x.1) (ct m).
Proof. intros Hm [c s] Hc. unfold ct, zoom. cbn [fst snd] in *. specialize (Hm c Hc). by destruct (m c) as [[a| |] t]. Qed.
#[local] Hint Resolve routes_only extra_only reliably_only rd_only ct_only : safe.
Lemma special_only junk i : safe true (fun x => only_routes c0 x.1) (relay_special junk i).
Proof.
  unfold relay_special, relay_self, relay_peer. safe_go. 3: apply ct_only; destruct (decide (peerVersionOf _ < 6)); auto with safe.
  all: apply ct_only; eapply build_only; writes_go.
Qed.

(** What a packet without a sealed plain text does. *)
Lemma unsealed_packet now nd junk i packet :
  (exists s, process_packet now nd junk i packet (c0, new_input packet) = (Value tt, (c0, s)) \/
             process_packet now nd junk i packet (c0, new_input packet) = (Thrown, (c0, s))) \/
  (is_relay (ep (c_routes c0) i) = true /\ take 16 packet = take 16 (e_peerTag (ep (c_routes c0) i)) /\ is_special packet = true /\
   exists x, process_packet now nd junk i packet (c0, new_input packet) = relay_special junk i (c0, x)) \/
  ((56 <= length packet)%nat /\ exists data, carries_v2 (c_keys c0) packet data \/ carries_v1 (c_keys c0) packet data).
Proof.
  unfold process_packet. erewrite run_ct by reflexivity. cbv zeta. case_decide as Ht; [left; by eexists; left|].
  destruct (decide (length packet < 16)%nat) as [Hl|Hl].
  { left. exists (new_input packet). right. unfold mbind, M_bind, rd, zoom, Seek. cbn [fst snd i_buffer new_input]. by rewrite decide_True by lia. }
  assert (16 <= length packet)%nat as Hl' by lia. clear Hl. erewrite run_rd by (apply Seek_ok; exact Hl'). cbn [i_buffer new_input].
  destruct (is_relay (ep (c_routes c0) i) && is_special packet) eqn:Es.
  { apply andb_prop in Es as [E1 E2]. rewrite E1 in Ht. right. left. do 3 (split; [done|]). by eexists. }
  pose proof (open_sound (c_keys c0) (waiting (c_link c0)) packet [] Hl') as S. rewrite app_nil_r, <- open_packet_seek in S by exact Hl'.
  destruct (open_packet _ _ _ _) as [[[|buf s up]| |] t] eqn:Eo; cbn [fst] in S; [|right; right|done|done].
  - left. exists t. left. by erewrite run_rd by exact Eo.
  - destruct S as (S1 & _ & S2). split; [exact S1|]. destruct (_ || _); eexists; [left; apply S2|right; exact S2].
Qed.

(** C3: bytes that were not sealed with the key of the call are ignored: a packet either
    changes nothing at all, or is an answer of the relay it names, which only
    touches the endpoints and what is queued for the peer, or carries a plain text
    whose hash under the key of the call is the one in the packet. In the first two
    cases the receive thread goes on with the next packet; of a packet with a
    correct hash nothing is said here. *)
Theorem forged_packets_ignored (now : double) (nd : bool) (junk : list Z) (tcp : bool) (address : Z + list Z) (port : Z) (packet : list Z) :
  let r := receive_packet now nd junk tcp address port packet c0 in
  r = (Value tt, c0) \/
  (exists i, find_endpoint (sender_matches tcp address port) (c_routes c0) = Some i /\
     is_relay (ep (c_routes c0) i) = true /\ take 16 packet = take 16 (e_peerTag (ep (c_routes c0) i)) /\
     is_special packet = true /\ r.1 = Value tt /\ only_routes c0 r.2) \/
  ((56 <= length packet)%nat /\ exists data, carries_v2 (c_keys c0) packet data \/ carries_v1 (c_keys c0) packet data).
Proof.
  cbv zeta. unfold receive_packet. case_decide as Hne; [by left|]. destruct (find_endpoint _ _) as [i|] eqn:Hi; [|by left].
  unfold ProcessIncomingPacket, parsing.
  destruct (unsealed_packet now nd junk i packet) as [(s & [-> | ->])|[(H1 & H2 & H3 & x & ->)|H]]; [by left|by left| |by right; right].
  right. left. exists i. do 4 (split; [done|]). destruct (safe_result _ _ _ (special_only junk i) (only_routes_refl c0 : only_routes c0 (c0, x).1)) as [S1 S2].
  destruct (relay_special junk i (c0, x)) as [[[]| |] [c s]]; by cbn [fst snd] in *.
Qed.
End unsealed.

(** ** A concrete pair of controllers *)

Definition demo_media (jb : option jitter) : media :=
  Media [mkStream 1 STREAM_TYPE_AUDIO CODEC_OPUS true false 60 jb] [audio_stream] (Some true) (Some (true, true)) None false false false 0 0 false [] 0.
Definition demo_end (st : call_state) (outgoing : bool) (relay : Z) (jb : option jitter) : controller :=
  (new_controller (cfg := demo_call_config) demo_pool) <| c_link := fresh_link st (repeat 9 16) 9 |> <| c_keys := toy_keys outgoing true 9 |>
    <| c_routes := (new_routes <| store := [demo_relay relay] |> <| endpoints := [0%nat] |> <| currentEndpoint := Some 0%nat |> <| preferredRelay := Some 0%nat |>) |>
    <| c_media := demo_media jb |>.
Lemma demo_path st jb : path (demo_end st true 3 None) (demo_end st false 4 jb) 0 0 false (inl 104) 4000 (repeat 4 16).
Proof. split; try reflexivity; [by repeat split|by right]. Qed.
Lemma demo_link_ok st outgoing relay jb : link_ok (c_link (demo_end st outgoing relay jb)).
Proof. split; try reflexivity; [split; apply (bool_decide_unpack _); vm_compute; exact I|apply new_congestion_ok|by split; [constructor|cbn; lia]|cbn; lia]. Qed.
Lemma demo_queue_ok st outgoing relay jb : queue_ok (c_queue (demo_end st outgoing relay jb)) false.
Proof.
  split; cbn; [|done|done|constructor|constructor|done]. unfold pool_ok, is_u64. cbn. split; [lia|]. split; [lia|].
  split; [done|]. apply demo_pool_ok.
Qed.

Lemma audio_delivered_witness : exists jb packet jb',
  let a := demo_end STATE_ESTABLISHED true 3 None in
  let b := demo_end STATE_ESTABLISHED false 4 (Some jb) in
  c_log (RunSendThread (crypto := toy_crypto) true 7 (repeat 1 7) zeros (of_Z 5)
    (HandleAudioInput [10; 20; 30] [] a).2).2 = [Transmit false (inl 103) 4000 packet] /\
  (receive_packet (crypto := toy_crypto) (cfg := demo_call_config) (of_Z 6) true (zeros 16) false (inl 104) 4000 (relayed (repeat 4 16) packet) b).1 = Value tt /\
  held jb' 0 [10; 20; 30] false.
Proof.
  destruct (new_jitter_ok default_config default_config blank_memory 60 blank_jitter
    (proj1 blank_memory_ok) (proj2 blank_memory_ok)) as (jb & _ & Hj & _ & Hmax & _). specialize (Hmax (fun _ _ => eq_refl)).
  set (a := demo_end STATE_ESTABLISHED true 3 None). set (b := demo_end STATE_ESTABLISHED false 4 (Some jb)).
  destruct (audio_delivered (crypto := toy_crypto) (cfg := demo_call_config) a b 0 0 false (inl 104) 4000 (repeat 4 16) [10; 20; 30]
    true (zeros 16) 7 (repeat 1 7) zeros (of_Z 5) (of_Z 6) 0 (Pool 1 20 1024 demo_pool) audio_stream (mkStream 1 STREAM_TYPE_AUDIO CODEC_OPUS true false 60 (Some jb)) [] jb)
    as (_ & _ & _ & _ & packet & Ep & R).
  - apply demo_path.
  - reflexivity.
  - split; [apply demo_link_ok|]. split; [unfold is_u32; cbn; lia|reflexivity].
  - split; [apply demo_queue_ok|]. by split.
  - split; [reflexivity|]. split; [cbn; lia|reflexivity].
  - split; [cbn; lia|]. unfold is_u32. cbn. lia.
  - split; [intros n; apply length_zeros|]. by split.
  - reflexivity.
  - reflexivity.
  - by split.
  - by split.
  - destruct R as (jb' & R1 & _ & _ & R2).
    + intros _. assert (packet = match last (c_log (RunSendThread (crypto := toy_crypto) true 7 (repeat 1 7) zeros (of_Z 5) (HandleAudioInput [10; 20; 30] [] a).2).2) with
        Some (Transmit _ _ _ p) => p | _ => [] end) as -> by (by rewrite Ep). vm_compute. reflexivity.
    + exists jb, packet, jb'. split; [exact Ep|]. split; [exact R1|exact R2].
Defined.
