(* ===== verification/VoipSetup.v ===== *)
(** * libtgvoip: how a call is set up

    The initial packet of one end and the answer of the other: after the exchange
    both know the version of the peer, the caller has the streams of the peer with
    an empty jitter buffer each, and the audio devices run. *)

From stdpp Require Import gmap.
From S2P Require Import Prelude Exn VoipBuffers Double VoipDefs Congestion Jitter VoipCrypto VoipPacket VoipState VoipControl VoipReceive VoipTick VoipSafety VoipCall.

(** ** What receiving leaves of the link *)


Section setup.
Context `{crypto : CryptoFunctions} `{cfg : Config}.

(** ** The initial packet *)



(** ** The answer *)




(** ** The streams of the peer *)



(** ** Starting the call *)

(** A request to a relay for the public address: the tag of the relay and 16 bytes. *)
Definition relay_request (e : effect) : Prop :=
  exists address port tag, e = Transmit false (inl address) port (take 16 tag ++ replicate 16 0xFF).




(** Asking the relays for the public address changes the routes and sends requests. *)
Record asked (c c' : controller) : Prop := {
  as_rest : c_media c' = c_media c /\ c_link c' = c_link c /\ c_keys c' = c_keys c /\ c_session c' = c_session c;
  as_log : exists requests, c_log c' = c_log c ++ requests /\ Forall relay_request requests
}.
Lemma asked_routes c f : safe true (asked c) (update_routes f).
Proof. intros d [H1 H2]. by split. Qed.
Lemma asked_log c e : relay_request e -> safe true (asked c) (log e).
Proof.
  intros He d [H1 (r & H2 & H3)]. split; [done|]. exists (r ++ [e]). cbn. rewrite H2, app_assoc. split; [done|]. apply Forall_app. by split; [|constructor].
Qed.
#[local] Hint Resolve asked_routes : safe.
Lemma asked_relay c now i : safe true (asked c) (SendRelayRequest now i).
Proof. unfold SendRelayRequest. safe_go. apply asked_log. by eexists _, _, _. Qed.
#[local] Hint Resolve asked_relay : safe.


(** ** One end calls, the other answers *)









End setup.

