(* ===== verification/Emoji.v ===== *)
(** * Emoji suggestions

    [src/Telegraph/emoji_suggestions.cpp] and the loading of its tables in
    [emoji_suggestions_data.cpp]: the checksum, the normalisation of a query, the
    [Completer] that matches a query against the words of an emoji with a
    backtracking search, and the order of its results. The generated tables are
    arguments. Characters are UTF-16 units; a failed [Expects] aborts. *)

From stdpp Require Import gmap sorting.
From S2P Require Import Prelude Exn Double.

(** ** The checksum *)

Definition poly : Z := 0x04C11DB7.
Definition reflect_body (ch : Z) (s : Z * Z) (i : nat) : Z * Z :=
  let '(result, val) := s in
  (if decide (Z.land val 1 <> 0) then Z.lor result (Z.shiftl 1 (ch - Z.of_nat i)) else result, Z.shiftr val 1).
Definition reflect (val ch : Z) : Z := fst (for_loop 1 (Z.to_nat ch) (reflect_body ch) (0, val)).
Definition entry_body (e : Z) (j : nat) : Z :=
  Z.lxor (u32 (Z.shiftl e 1)) (if decide (Z.land e (Z.shiftl 1 31) <> 0) then poly else 0).
Definition table_entry (i : Z) : Z := reflect (for_loop 0 8 entry_body (u32 (Z.shiftl (reflect i 8) 24))) 32.
Definition Crc32Table : list Z := map (fun i => table_entry (Z.of_nat i)) (seq 0 256).
Definition crc_step (table : list Z) (result byte : Z) : Z :=
  Z.lxor (Z.shiftr result 8) table.[Z.to_nat (Z.lxor (Z.land result 0xFF) byte)].
Definition countChecksum (data : list Z) : Z := Z.lxor (foldl (crc_step Crc32Table) 0xFFFFFFFF data) 0xFFFFFFFF.

(** ** Queries *)

Abbreviation utf16string := (list Z).
Definition IsNumber (ch : Z) : bool := (48 <=? ch) && (ch <=? 57).
Definition IsLetterOrNumber (ch : Z) : bool := ((97 <=? ch) && (ch <=? 122)) || IsNumber ch.
(** One turn of the loop of [NormalizeQuery]: [copyFrom] is where the characters to
    keep begin, [result] what has been copied. *)
Definition copy_chunk (query : utf16string) (copyFrom till : nat) (result : list Z) : list Z :=
  if decide (copyFrom < till)%nat then result ++ slice query copyFrom (till - copyFrom) else result.
Definition normalize_body (query : utf16string) (s : nat * list Z) (i : nat) : nat * list Z :=
  let ch := query.[i] in
  if IsLetterOrNumber ch then s
  else if ((ch =? 45) || (ch =? 43)) && (bool_decide (i + 1 = length query)%nat || IsNumber query.[i + 1]) then s
  else let '(copyFrom, result) := s in ((i + 1)%nat, copy_chunk query copyFrom i result).
Definition NormalizeQuery (query : utf16string) : list Z :=
  let '(copyFrom, result) := for_loop 0 (length query) (normalize_body query) (0%nat, []) in
  copy_chunk query copyFrom (length query) result.

(** ** The completer *)

Record Replacement := mkReplacement { r_emoji : utf16string; r_replacement : utf16string; r_words : list utf16string }.
Record Result := mkResult { replacement : Replacement; wordsUsed : Z }.
Record Suggestion := mkSuggestion { s_emoji : utf16string; s_label : utf16string; s_replacement : utf16string }.
Record completer := Completer { _result : list Result; usedCount : Z; usedMap : list Z }.
#[export] Instance completer_eta : Eta completer := fun c => Completer (_result c) (usedCount c) (usedMap c).

(** [std::lower_bound] and [std::upper_bound] halve the range; [p] is true before
    the position they look for. *)
Fixpoint bisect (fuel : nat) (p : utf16string -> bool) (l : list utf16string) (first count : nat) : nat :=
  match fuel with
  | O => first
  | S fuel =>
      if decide (count = 0%nat) then first else
      let step := Nat.div count 2 in
      if p (nth (first + step)%nat l []) then bisect fuel p l (first + step + 1) (count - (step + 1))
      else bisect fuel p l first step
  end.
Definition lower_bound (l : list utf16string) (ch : Z) : nat := bisect (length l) (fun word => word.[0] <? ch) l 0 (length l).
Definition upper_bound (l : list utf16string) (ch : Z) : nat := bisect (length l) (fun word => negb (ch <? word.[0])) l 0 (length l).

Section completer.
Variables (_initialQuery _query : utf16string).

(** The words that start with [ch], by their indices. *)
Definition findWordsStartingWith (words : list utf16string) (ch : Z) : list nat :=
  let b := lower_bound words ch in seq b (upper_bound words ch - b).

(** The characters after the first are compared until one differs. *)
Fixpoint equal_till (fuel till possible position : nat) (word : utf16string) : nat :=
  match fuel with
  | O => possible
  | S fuel =>
      if decide (till = possible) then possible
      else if decide (word.[till] <> _query.[position + till]) then till
      else equal_till fuel (till + 1) possible position word
  end.
Definition findEqualCharsCount (position : nat) (word : utf16string) : nat :=
  let charsLeft := (length _query - position)%nat in
  let possible := if decide (length word < charsLeft)%nat then length word else charsLeft in
  equal_till possible 1 possible position word.

(** The guard of a word that is used: taken when the word is free, and released at
    the end of the block. *)
Definition enter_word (i : nat) : M completer bool := fun c =>
  if decide (i < length (usedMap c))%nat then
    if decide ((usedMap c).[i] = 0) then (Value true, c <| usedMap := <[i := 1]> (usedMap c) |>) else (Value false, c)
  else (Aborted, c).
Definition leave_word (i : nat) : M completer unit := modify (fun c => c <| usedMap := <[i := 0]> (usedMap c) |>).
Definition count_words (n : Z) : M completer unit := modify (fun c => c <| usedCount := usedCount c + n |>).

(** The loop over the number of characters to take from a word, from [check] down. *)
Fixpoint try_lengths (tail : nat -> M completer bool) (position check : nat) : M completer bool :=
  match check with
  | O => mret false
  | S n => found ← tail (position + check)%nat; if found : bool then mret true else try_lengths tail position n
  end.
(** The loop over the words found. *)
Fixpoint try_words (tail : nat -> M completer bool) (words : list utf16string) (position : nat) (found : list nat) : M completer bool :=
  match found with
  | [] => mret false
  | i :: found =>
      guard ← enter_word i;
      if guard : bool then
        count_words 1 ;;
        matched ← try_lengths tail position (findEqualCharsCount position (nth i words []));
        if matched : bool then leave_word i ;; mret true
        else count_words (-1) ;; leave_word i ;; try_words tail words position found
      else try_words tail words position found
  end.
(** Every call takes at least one character, so the length of the query is enough
    fuel. *)
Fixpoint match_tail (fuel : nat) (words : list utf16string) (position : nat) : M completer bool :=
  match fuel with
  | O => abort
  | S fuel =>
      if decide (length _query - position = 0)%nat then mret true else
      try_words (match_tail fuel words) words position (findWordsStartingWith words _query.[position])
  end.
Definition matchQueryTailStartingFrom (words : list utf16string) (position : nat) : M completer bool :=
  match_tail (S (length _query)) words position.
Definition startsWithQuery (word : utf16string) : bool :=
  if decide (length word < length _query)%nat then false
  else forallb (fun i => word.[i] =? _query.[i]) (seq 0 (length _query)).
Definition matchQueryForCurrentItem (words : list utf16string) : M completer bool :=
  match words with
  | [] => abort
  | [word] => mret (startsWithQuery word)
  | _ => matchQueryTailStartingFrom words 0
  end.

(** ** Results *)

Definition isBetterThanLastResult (item : Replacement) (last : Result) (used : Z) : bool :=
  if decide (used < wordsUsed last) then true else
  let goodLast := (r_replacement (replacement last)).[1] =? _query.[0] in
  let goodCurrent := (r_replacement item).[1] =? _query.[0] in
  negb goodLast && goodCurrent.
Definition add_result (item : Replacement) (used : Z) (l : list Result) : list Result :=
  match last l with
  | Some r =>
      if decide (r_emoji (replacement r) = r_emoji item) then
        if isBetterThanLastResult item r used then take (length l - 1) l ++ [mkResult item used] else l
      else l ++ [mkResult item used]
  | None => l ++ [mkResult item used]
  end.
Definition addResult (item : Replacement) : M completer unit := modify (fun c => c <| _result := add_result item (usedCount c) (_result c) |>).
Definition initWordsTracking (items : list Replacement) : M completer unit :=
  modify (fun c => c <| usedMap := zeros (foldl (fun m item => if decide (m < length (r_words item))%nat then length (r_words item) else m) 0%nat items) |>).
Definition filter_item (item : Replacement) : M completer unit :=
  modify (fun c => c <| usedCount := 1 |>) ;;
  matched ← matchQueryForCurrentItem (r_words item);
  when matched (addResult item) ;;
  modify (fun c => c <| usedCount := 0 |>).
Definition processInitialList (items : list Replacement) : M completer unit :=
  if decide (1 < length _query)%nat then
    initWordsTracking items ;;
    iterate_list filter_item items
  else
    modify (fun c => c <| usedCount := 1 |>) ;;
    iterate_list addResult items.

(** [std::stable_partition]. *)
Definition stable_partition {A} (p : A -> bool) (l : list A) : list A := filter (fun x => p x = true) l ++ filter (fun x => p x = false) l.
Definition isExactMatch (r : utf16string) : bool :=
  if decide (length r <> length _initialQuery + 1)%nat then false
  else forallb (fun i => r.[i] =? _initialQuery.[i]) (seq 0 (length _initialQuery)).
Definition partition_all (l : list Result) : list Result :=
  let l := stable_partition (fun r => (r_replacement (replacement r)).[1] =? _query.[0]) l in
  let l := stable_partition (fun r => wordsUsed r <? 2) l in
  let l := stable_partition (fun r => wordsUsed r <? 3) l in
  stable_partition (fun r => isExactMatch (r_replacement (replacement r))) l.
Definition suggest (r : Result) : Suggestion :=
  mkSuggestion (r_emoji (replacement r)) (r_replacement (replacement r)) (r_replacement (replacement r)).
Definition prepareResult (l : list Result) : list Suggestion := map suggest (partition_all l).
End completer.

(** ** The tables *)

(** The generated arrays of [emoji_suggestions_data.cpp]. *)
Record tables := Tables {
  ReplacementData : list Z; ReplacementInitData : list (nat * nat * nat); ReplacementWordLengths : list nat;
  ReplacementIndices : list nat; ReplacementIndexData : list (Z * nat); ReplacementChecksums : list Z
}.
Record globals := Globals { Replacements : list Replacement; ReplacementsMap : gmap Z (list Replacement); ReplacementsHash : gmap Z Replacement }.
#[export] Instance globals_eta : Eta globals := fun g => Globals (Replacements g) (ReplacementsMap g) (ReplacementsHash g).
Definition no_globals : globals := Globals [] ∅ ∅.

(** [takeString] cuts a string off the data; the cursors are lists. *)
Definition takeString (size : nat) (data : list Z) : utf16string * list Z := (take size data, drop size data).
Fixpoint take_words (n : nat) (sizes : list nat) (data : list Z) : list utf16string * list nat * list Z :=
  match n with
  | O => ([], sizes, data)
  | S n =>
      let '(w, data) := takeString (nth 0 sizes 0%nat) data in
      let '(ws, sizes, data) := take_words n (drop 1 sizes) data in (w :: ws, sizes, data)
  end.
Fixpoint read_items (init : list (nat * nat * nat)) (sizes : list nat) (data : list Z) : list Replacement :=
  match init with
  | [] => []
  | (emojiSize, replacementSize, wordsCount) :: init =>
      let '(emoji, data) := takeString emojiSize data in
      let '(repl, data) := takeString replacementSize data in
      let '(words, sizes, data) := take_words wordsCount sizes data in
      mkReplacement emoji repl words :: read_items init sizes data
  end.
Definition no_replacement : Replacement := mkReplacement [] [] [].
Fixpoint read_index (index : list (Z * nat)) (indices : list nat) (items : list Replacement) (m : gmap Z (list Replacement)) : gmap Z (list Replacement) :=
  match index with
  | [] => m
  | (ch, count) :: index =>
      read_index index (drop count indices) items (<[ch := map (fun i => nth i items no_replacement) (take count indices)]> m)
  end.
Fixpoint read_hash (checksums : list Z) (items : list Replacement) (m : gmap Z Replacement) : gmap Z Replacement :=
  match checksums with
  | [] => m
  | c :: checksums => read_hash checksums (drop 1 items) (<[c := nth 0 items no_replacement]> m)
  end.
Section tables.
Variable (t : tables).

Definition InitReplacements (g : globals) : globals :=
  if decide (Replacements g <> []) then g else
  let items := read_items (ReplacementInitData t) (ReplacementWordLengths t) (ReplacementData t) in
  Globals items (read_index (ReplacementIndexData t) (ReplacementIndices t) items (ReplacementsMap g)) (read_hash (ReplacementChecksums t) items (ReplacementsHash g)).
Definition GetReplacements (first : Z) : M globals (option (list Replacement)) :=
  modify (fun g => if decide (ReplacementsMap g = ∅) then InitReplacements g else g) ;;
  gets (fun g => ReplacementsMap g !! first).
Definition utf16_bytes (s : utf16string) : list Z := concat (map (le_bytes 2) s).
Definition GetReplacementEmoji (r : utf16string) (g : globals) : utf16string :=
  match ReplacementsHash g !! countChecksum (utf16_bytes r) with Some x => r_emoji x | None => [] end.

(** [Completer(query).resolve()]; a failed [Expects] leaves the tables loaded. *)
Definition complete (query q : utf16string) (items : list Replacement) : M globals (list Suggestion) := fun g =>
  match processInitialList q items (Completer [] 0 []) with
  | (Value _, c) => (Value (prepareResult query q (_result c)), g)
  | (Thrown, _) => (Thrown, g)
  | (Aborted, _) => (Aborted, g)
  end.
Definition resolve (query : utf16string) : M globals (list Suggestion) :=
  let q := NormalizeQuery query in
  if decide (q = []) then mret [] else
  items ← GetReplacements q.[0];
  match items with None => mret [] | Some items => complete query q items end.
Definition GetSuggestions (query : utf16string) : M globals (list Suggestion) := resolve query.
End tables.
Definition GetSuggestionMaxLength : Z := 55.

(** ** The checksum is CRC-32 *)

(** One bit and one byte of the reflected CRC of RFC 1952. *)
Definition crc_bit (r : Z) : Z := if Z.odd r then Z.lxor (Z.shiftr r 1) 0xEDB88320 else Z.shiftr r 1.
Definition crc_byte (r b : Z) : Z := Nat.iter 8 crc_bit (Z.lxor r b).
Definition crc32 (data : list Z) : Z := Z.lxor (foldl crc_byte 0xFFFFFFFF data) 0xFFFFFFFF.

Lemma crc_bit_lxor x y : crc_bit (Z.lxor x y) = Z.lxor (crc_bit x) (crc_bit y).
Proof.
  unfold crc_bit. rewrite <- !Z.bit0_odd, Z.lxor_spec, Z.shiftr_lxor. set (p := 0xEDB88320).
  clearbody p. generalize (Z.shiftr x 1) (Z.shiftr y 1). intros u v. destruct (Z.testbit x 0), (Z.testbit y 0); cbn [xorb].
  all: apply Z.bits_inj'; intros n _; rewrite !Z.lxor_spec; destruct (Z.testbit u n), (Z.testbit v n), (Z.testbit p n); reflexivity.
Qed.
Lemma crc_bits_lxor n x y : Nat.iter n crc_bit (Z.lxor x y) = Z.lxor (Nat.iter n crc_bit x) (Nat.iter n crc_bit y).
Proof. induction n as [|n IH]; [done|]. by rewrite !Nat.iter_succ, IH, crc_bit_lxor. Qed.
Lemma crc_bits_shift n h : Nat.iter n crc_bit (Z.shiftl h (Z.of_nat n)) = h.
Proof.
  revert h. induction n as [|n IH]; intros h; [apply Z.shiftl_0_r|]. rewrite Nat.iter_succ_r.
  assert (crc_bit (Z.shiftl h (Z.of_nat (S n))) = Z.shiftl h (Z.of_nat n)) as ->; [|apply IH].
  unfold crc_bit. rewrite <- Z.bit0_odd, Z.shiftl_spec_low by lia. rewrite Z.shiftr_shiftl_l by lia. f_equal. lia.
Qed.
Lemma table_bits x : is_byte x -> Crc32Table.[Z.to_nat x] = Nat.iter 8 crc_bit x.
Proof.
  intros Hx. assert (forallb (fun i => Crc32Table.[i] =? Nat.iter 8 crc_bit (Z.of_nat i)) (seq 0 256) = true) as H by (vm_compute; reflexivity).
  rewrite forallb_forall in H. specialize (H (Z.to_nat x)). rewrite Z2Nat.id in H by (unfold is_byte in Hx; lia).
  apply Z.eqb_eq, H, in_seq. unfold is_byte in Hx. lia.
Qed.
Lemma land_255_byte r : is_byte (Z.land r 0xFF).
Proof. unfold is_byte. change 0xFF with (Z.ones 8). rewrite Z.land_ones by lia. lia. Qed.
Lemma crc_step_byte r b : is_byte b -> crc_step Crc32Table r b = crc_byte r b.
Proof.
  intros Hb. unfold crc_step, crc_byte. rewrite table_bits by (apply lxor_is_byte; [apply land_255_byte|exact Hb]).
  assert (Z.lxor r b = Z.lxor (Z.shiftl (Z.shiftr r 8) 8) (Z.lxor (Z.land r 0xFF) b)) as ->.
  { rewrite <- Z.lxor_assoc. f_equal. apply Z.bits_inj'. intros n Hn. rewrite Z.lxor_spec, Z.land_spec. change 0xFF with (Z.ones 8).
    destruct (decide (n < 8)) as [H|H].
    - rewrite Z.shiftl_spec_low by lia. rewrite Z.ones_spec_low by lia. by rewrite andb_true_r.
    - rewrite Z.shiftl_spec_high by lia. rewrite Z.shiftr_spec by lia. rewrite Z.ones_spec_high by lia. rewrite andb_false_r, xorb_false_r. f_equal. lia. }
  generalize (Z.lxor (Z.land r 0xFF) b). intros low. rewrite crc_bits_lxor. f_equal. symmetry. exact (crc_bits_shift 8 (Z.shiftr r 8)).
Qed.
Lemma crc_fold data : forall r, wf_bytes data -> foldl (crc_step Crc32Table) r data = foldl crc_byte r data.
Proof.
  induction data as [|b data IH]; intros r Hd; [done|]. apply Forall_cons in Hd as [Hb Hd]. cbn [foldl]. rewrite crc_step_byte by exact Hb. by apply IH.
Qed.

Lemma crc_bit_u32 x : is_u32 x -> is_u32 (crc_bit x).
Proof.
  intros Hx. unfold crc_bit. assert (is_u32 (Z.shiftr x 1)) by (unfold is_u32 in *; rewrite Z.shiftr_div_pow2 by lia; lia).
  destruct (Z.odd x); [|done]. apply lxor_is_u32; [done|]. unfold is_u32. lia.
Qed.
Lemma crc_bit_top x : is_u32 x -> Z.testbit (crc_bit x) 31 = Z.odd x.
Proof.
  intros Hx. assert (Z.testbit (Z.shiftr x 1) 31 = false) as H by (rewrite Z.shiftr_spec by lia; apply (testbit_above x 32); unfold is_u32 in Hx; lia).
  unfold crc_bit. destruct (Z.odd x); [|exact H]. rewrite Z.lxor_spec, H. reflexivity.
Qed.
Lemma crc_bit_inj x y : is_u32 x -> is_u32 y -> crc_bit x = crc_bit y -> x = y.
Proof.
  intros Hx Hy E. assert (Z.odd x = Z.odd y) as Eo by (rewrite <- !crc_bit_top by done; by rewrite E).
  assert (Z.shiftr x 1 = Z.shiftr y 1) as Es.
  { unfold crc_bit in E. rewrite Eo in E. destruct (Z.odd y); [|exact E].
    apply (f_equal (fun z => Z.lxor z 0xEDB88320)) in E. by rewrite !Z.lxor_assoc, Z.lxor_nilpotent, !Z.lxor_0_r in E. }
  rewrite (Z.div2_odd x), (Z.div2_odd y), Eo. rewrite <- !Z.div2_spec in Es. by rewrite Es.
Qed.
Lemma crc_bits_inj n x y : is_u32 x -> is_u32 y -> Nat.iter n crc_bit x = Nat.iter n crc_bit y -> x = y.
Proof.
  revert x y. induction n as [|n IH]; intros x y Hx Hy E; [exact E|]. rewrite !Nat.iter_succ_r in E.
  apply crc_bit_inj; [done|done|]. apply IH; [by apply crc_bit_u32|by apply crc_bit_u32|exact E].
Qed.
Lemma byte_u32 b : is_byte b -> is_u32 b.
Proof. unfold is_byte, is_u32. lia. Qed.
Lemma crc_byte_u32 r b : is_u32 r -> is_byte b -> is_u32 (crc_byte r b).
Proof.
  intros Hr Hb. unfold crc_byte. assert (forall n x, is_u32 x -> is_u32 (Nat.iter n crc_bit x)) as H.
  { induction n as [|n IH]; intros x Hx; [done|]. rewrite Nat.iter_succ. by apply crc_bit_u32, IH. }
  apply H, lxor_is_u32; [done|by apply byte_u32].
Qed.
Lemma lxor_cancel x y z : Z.lxor x z = Z.lxor y z -> x = y.
Proof. intros E. apply (f_equal (fun u => Z.lxor u z)) in E. by rewrite !Z.lxor_assoc, Z.lxor_nilpotent, !Z.lxor_0_r in E. Qed.
Lemma crc_fold_inj data : forall r r', wf_bytes data -> is_u32 r -> is_u32 r' -> foldl crc_byte r data = foldl crc_byte r' data -> r = r'.
Proof.
  induction data as [|b data IH]; intros r r' Hd Hr Hr' E; [exact E|]. apply Forall_cons in Hd as [Hb Hd]. cbn [foldl] in E.
  apply IH in E; [|done|by apply crc_byte_u32|by apply crc_byte_u32]. unfold crc_byte in E.
  apply crc_bits_inj in E; [|apply lxor_is_u32; [done|by apply byte_u32]|apply lxor_is_u32; [done|by apply byte_u32]]. by apply lxor_cancel in E.
Qed.
Lemma crc_fold_u32 data : forall r, wf_bytes data -> is_u32 r -> is_u32 (foldl crc_byte r data).
Proof. induction data as [|b data IH]; intros r Hd Hr; [done|]. apply Forall_cons in Hd as [Hb Hd]. by apply IH, crc_byte_u32. Qed.

Lemma crc_byte_inj r a b : is_u32 r -> is_byte a -> is_byte b -> crc_byte r a = crc_byte r b -> a = b.
Proof.
  intros Hr Ha Hb E. apply crc_bits_inj in E; [|apply lxor_is_u32; [done|by apply byte_u32]|apply lxor_is_u32; [done|by apply byte_u32]].
  rewrite (Z.lxor_comm _ a), (Z.lxor_comm _ b) in E. by apply lxor_cancel in E.
Qed.
Lemma crc_change r before a b after : is_u32 r -> wf_bytes (before ++ a :: after) -> is_byte b ->
  foldl crc_byte r (before ++ b :: after) = foldl crc_byte r (before ++ a :: after) -> b = a.
Proof.
  intros Hr Hd Hb E. apply Forall_app in Hd as [H1 H2]. apply Forall_cons in H2 as [Ha H2]. rewrite !foldl_app in E. simpl foldl in E.
  pose proof (crc_fold_u32 before r H1 Hr) as Hf. generalize dependent (foldl crc_byte r before). intros q E Hq.
  apply crc_fold_inj in E; [|done|by apply crc_byte_u32|by apply crc_byte_u32]. by apply crc_byte_inj in E.
Qed.
Lemma checksum_crc data : wf_bytes data -> countChecksum data = crc32 data.
Proof. intros Hd. unfold countChecksum, crc32. by rewrite crc_fold. Qed.

(** the table-driven checksum of any bytes is their CRC-32, and it changes with every
    single byte. *)
Theorem checksum_crc32 (data : list Z) (Hd : wf_bytes data) :
  countChecksum data = crc32 data /\
  forall before a b after, data = before ++ a :: after -> is_byte b -> b <> a -> countChecksum (before ++ b :: after) <> countChecksum data.
Proof.
  split; [by apply checksum_crc|]. intros before a b after -> Hb Hne.
  assert (wf_bytes (before ++ b :: after)) as Hd' by (apply Forall_app in Hd as [H1 H2]; apply Forall_cons in H2 as [_ H2]; apply Forall_app; split; [done|by apply Forall_cons]).
  rewrite !checksum_crc by assumption. unfold crc32. intros C. apply lxor_cancel in C. apply Hne.
  apply (crc_change 0xFFFFFFFF before a b after); [unfold is_u32; lia|exact Hd|exact Hb|exact C].
Qed.
Lemma checksum_crc32_witness : countChecksum (str "123456789") = 0xCBF43926 /\ countChecksum (str "123456780") <> countChecksum (str "123456789").
Proof.
  assert (wf_bytes (str "123456789")) as Hd 
    by (let l := eval vm_compute in (str "123456789") in change (wf_bytes l); repeat (apply Forall_cons_2; [unfold is_byte; lia|]); constructor).
  destruct (checksum_crc32 (str "123456789") Hd) as [E H]. split; [rewrite E; vm_compute; reflexivity|].
  apply (H (str "12345678") 57 48 []); [reflexivity|unfold is_byte; lia|lia].
Defined.

(** ** Normal queries *)

(** A character stays when it is a letter or a number, or a sign that a number
    follows or that ends the query. *)
Definition stays (ch : Z) (after : list Z) : bool :=
  IsLetterOrNumber ch || (((ch =? 45) || (ch =? 43)) && match after with [] => true | next :: _ => IsNumber next end).
Fixpoint normal (query : list Z) : list Z :=
  match query with
  | [] => []
  | ch :: after => if stays ch after then ch :: normal after else normal after
  end.
Lemma copy_chunk_eq q a b l : copy_chunk q a b l = l ++ slice q a (b - a).
Proof. unfold copy_chunk. case_decide; [done|]. replace (b - a)%nat with 0%nat by lia. unfold slice. by rewrite app_nil_r. Qed.
Lemma drop_ix (q : list Z) i : (i < length q)%nat -> drop i q = q.[i] :: drop (S i) q.
Proof. intros Hi. destruct (lookup_lt_is_Some_2 q i Hi) as [x Hx]. rewrite (drop_S q x i Hx). f_equal. symmetry. by apply nth_lookup_Some. Qed.
Lemma slice_snoc (q : list Z) a i : (a <= i < length q)%nat -> slice q a (S i - a) = slice q a (i - a) ++ [q.[i]].
Proof.
  intros Hi. replace (S i - a)%nat with ((i - a) + 1)%nat by lia. rewrite slice_split. f_equal. unfold slice.
  replace (a + (i - a))%nat with i by lia. rewrite drop_ix by lia. done.
Qed.
Lemma stays_at q i : (i < length q)%nat ->
  stays q.[i] (drop (S i) q) = IsLetterOrNumber q.[i] || (((q.[i] =? 45) || (q.[i] =? 43)) && (bool_decide (i + 1 = length q)%nat || IsNumber q.[i + 1])).
Proof.
  intros Hi. unfold stays. f_equal. f_equal. destruct (decide (i + 1 = length q)%nat) as [E|E].
  - rewrite drop_ge by lia. by rewrite bool_decide_eq_true_2.
  - rewrite bool_decide_eq_false_2 by exact E. rewrite drop_ix by lia. by rewrite Nat.add_1_r.
Qed.
(** What the loop has copied, the chunk it is in and the rest of the query. *)
Definition copied (q : list Z) (i : nat) (s : nat * list Z) : Prop :=
  (s.1 <= i <= length q)%nat /\ s.2 ++ slice q s.1 (i - s.1) ++ normal (drop i q) = normal q.
Lemma copied_step q i s : (i < length q)%nat -> copied q i s -> copied q (S i) (normalize_body q s i).
Proof.
  intros Hi [H1 H2]. rewrite drop_ix in H2 by exact Hi. cbn [normal] in H2. rewrite stays_at in H2 by exact Hi. unfold normalize_body, copied.
  assert (forall r, r ++ slice q (S i) (S i - S i) = r) as Hnil by (intros r; rewrite Nat.sub_diag; unfold slice; cbn [take]; by rewrite app_nil_r).
  destruct (IsLetterOrNumber q.[i]); cbn [orb] in H2.
  { split; [lia|]. rewrite slice_snoc by lia. by rewrite <- app_assoc. }
  destruct (((q.[i] =? 45) || (q.[i] =? 43)) && _).
  { split; [lia|]. rewrite slice_snoc by lia. by rewrite <- app_assoc. }
  destruct s as [from res]. cbn [fst snd] in *. split; [lia|]. rewrite copy_chunk_eq, Nat.add_1_r, app_assoc, Hnil. by rewrite <- app_assoc.
Qed.
Lemma normalize_normal q : NormalizeQuery q = normal q.
Proof.
  unfold NormalizeQuery. pose proof (for_loop_inv (copied q) 0 (length q) (normalize_body q) (0%nat, [])) as H.
  destruct (for_loop 0 (length q) (normalize_body q) (0%nat, [])) as [from res]. destruct H as [_ H].
  - split; [cbn; lia|]. done.
  - intros i t Hi Ht. apply copied_step; [lia|exact Ht].
  - cbn [fst snd Nat.add] in H. rewrite copy_chunk_eq. by rewrite drop_ge, app_nil_r in H by lia.
Qed.

(** ** The words of an item *)

Lemma bisect_spec (p : utf16string -> bool) l :
  (forall i j, (i <= j < length l)%nat -> p (nth j l []) = true -> p (nth i l []) = true) ->
  forall fuel first count, (count <= fuel)%nat -> (first + count <= length l)%nat ->
  let k := bisect fuel p l first count in (first <= k <= first + count)%nat /\
    (forall i, (first <= i < k)%nat -> p (nth i l []) = true) /\ (forall i, (k <= i < first + count)%nat -> p (nth i l []) = false).
Proof.
  intros Hp fuel. induction fuel as [|fuel IH]; intros first count Hf Hl; cbn [bisect].
  { split; [lia|]. split; intros; lia. }
  destruct (decide (count = 0%nat)) as [->|Hc]; [split; [lia|]; split; intros; lia|].
  set (mid := (first + Nat.div count 2)%nat). assert (first <= mid < first + count)%nat as Hm by (unfold mid; pose proof (Nat.div_lt count 2); lia).
  destruct (p (nth mid l [])) eqn:E.
  - destruct (IH (mid + 1)%nat (count - (Nat.div count 2 + 1))%nat) as (H1 & H2 & H3); [lia|unfold mid in *; lia|]. split; [unfold mid in *; lia|]. split.
    + intros i Hi. destruct (decide (i <= mid)%nat); [apply (Hp i mid); [lia|exact E]|apply H2; lia].
    + intros i Hi. apply H3. unfold mid in *. lia.
  - destruct (IH first (Nat.div count 2)) as (H1 & H2 & H3); [unfold mid in *; lia|unfold mid in *; lia|]. split; [unfold mid in *; lia|]. split; [exact H2|].
    intros i Hi. destruct (decide (i < first + Nat.div count 2)%nat); [apply H3; lia|].
    destruct (p (nth i l [])) eqn:Ei; [|done]. rewrite (Hp mid i) in E; [done|unfold mid in *; lia|exact Ei].
Qed.

(** What the generated tables guarantee of the words of an item. *)
Record words_ok (words : list utf16string) : Prop := {
  wo_some : words <> [];
  wo_nonempty : Forall (fun w => w <> []) words;
  wo_sorted : forall i j, (i <= j < length words)%nat -> (nth i words []).[0] <= (nth j words []).[0]
}.
Definition check_words (words : list utf16string) : bool :=
  forallb (fun i => negb (length (nth i words []) =? 0)%nat && forallb (fun j => (nth i words []).[0] <=? (nth j words []).[0]) (seq i (length words - i))) (seq 0 (length words)).
Lemma words_check words : negb (length words =? 0)%nat && check_words words = true -> words_ok words.
Proof.
  intros [H1 H2]%andb_true_iff. unfold check_words in H2. rewrite forallb_forall in H2.
  assert (forall i, (i < length words)%nat -> nth i words [] <> [] /\ forall j, (i <= j < length words)%nat -> (nth i words []).[0] <= (nth j words []).[0]) as H.
  { intros i Hi. specialize (H2 i). rewrite in_seq in H2. apply andb_true_iff in H2 as [Hn Hs]; [|lia]. split.
    - intros E. by rewrite E in Hn.
    - intros j Hj. rewrite forallb_forall in Hs. apply Z.leb_le, Hs, in_seq. lia. }
  split; [by intros ->| |intros i j Hij; by apply H; lia].
  apply Forall_lookup. intros i w Hw. pose proof (lookup_lt_Some _ _ _ Hw). rewrite <- (nth_lookup_Some words i [] w Hw). by apply H.
Qed.
Lemma find_words words ch i : words_ok words ->
  i ∈ findWordsStartingWith words ch <-> (i < length words)%nat /\ (nth i words []).[0] = ch.
Proof.
  intros [_ _ Hs]. unfold findWordsStartingWith, lower_bound, upper_bound.
  destruct (bisect_spec (fun w => w.[0] <? ch) words) with (fuel := length words) (first := 0%nat) (count := length words) as (A1 & A2 & A3); [|lia|lia|].
  { intros i0 j Hij H. specialize (Hs i0 j Hij). lia. }
  destruct (bisect_spec (fun w => negb (ch <? w.[0])) words) with (fuel := length words) (first := 0%nat) (count := length words) as (B1 & B2 & B3); [|lia|lia|].
  { intros i0 j Hij H. specialize (Hs i0 j Hij). lia. }
  set (lo := bisect _ (fun w => w.[0] <? ch) _ _ _) in *. set (hi := bisect _ (fun w => negb _) _ _ _) in *. rewrite elem_of_seq. split.
  - intros Hi. assert (i < length words)%nat as Hl by lia. split; [exact Hl|]. specialize (A3 i). specialize (B2 i). lia.
  - intros [Hl Hc]. specialize (A2 i). specialize (B3 i). lia.
Qed.

Section search.
Context (q : list Z).

(** [word] agrees with the query from [position] on for [k] characters. *)
Definition agrees (position : nat) (word : utf16string) (k : nat) : Prop := forall j, (j < k)%nat -> word.[j] = q.[position + j].
Lemma equal_till_spec fuel position word possible : forall till, (possible <= till + fuel)%nat -> (till <= possible)%nat -> agrees position word till ->
  let n := equal_till q fuel till possible position word in (till <= n <= possible)%nat /\ agrees position word n /\
    (n = possible \/ word.[n] <> q.[position + n]).
Proof.
  induction fuel as [|fuel IH]; intros till Hf Ht Ha; cbn [equal_till].
  { replace possible with till by lia. split; [lia|]. split; [exact Ha|]. by left. }
  destruct (decide (till = possible)) as [->|Hne]; [split; [lia|]; split; [exact Ha|by left]|].
  destruct (decide (word.[till] <> q.[position + till])) as [Hd|Hd]; [split; [lia|]; split; [exact Ha|by right]|].
  destruct (IH (till + 1)%nat) as (H1 & H2 & H3); [lia|lia| |by split; [lia|]].
  intros j Hj. destruct (decide (j = till)) as [->|]; [by apply dec_stable|apply Ha; lia].
Qed.
Lemma equal_chars position word k : (0 < k)%nat -> word <> [] -> (position < length q)%nat -> word.[0] = q.[position] ->
  (k <= findEqualCharsCount q position word)%nat <-> (k <= length word)%nat /\ (position + k <= length q)%nat /\ agrees position word k.
Proof.
  intros Hk Hw Hp Hf. unfold findEqualCharsCount. set (possible := if decide _ then _ else _).
  assert (possible = Nat.min (length word) (length q - position)) as Hpos by (unfold possible; case_decide; lia).
  assert (0 < length word)%nat by (destruct word; [done|cbn; lia]).
  destruct (equal_till_spec possible position word possible 1) as (H1 & H2 & H3); [lia|lia| |].
  { intros j Hj. replace j with 0%nat by lia. by rewrite Nat.add_0_r. }
  set (n := equal_till _ _ _ _ _ _) in *. split.
  - intros Hn. split; [lia|]. split; [lia|]. intros j Hj. apply H2. lia.
  - intros (K1 & K2 & K3). destruct (decide (k <= n)%nat) as [|Hn]; [done|]. destruct H3 as [H3|H3]; [lia|]. exfalso. apply H3, K3. lia.
Qed.
Lemma agrees_take position word k : (k <= length word)%nat -> (position + k <= length q)%nat -> agrees position word k <-> take k word ++ drop (position + k) q = drop position q.
Proof.
  intros Hw Hq. assert (drop position q = slice q position k ++ drop (position + k) q) as ->.
  { unfold slice. by rewrite <- (take_drop k (drop position q)) at 1; rewrite drop_drop. }
  split.
  - intros Ha. f_equal. apply ix_ext; [rewrite length_take, length_slice by lia; lia|]. intros j Hj. rewrite length_take in Hj.
    rewrite ix_take, ix_slice by lia. apply Ha. lia.
  - intros E j Hj. apply app_inv_tail in E. apply (f_equal (fun l => l.[j])) in E. by rewrite ix_take, ix_slice in E by lia.
Qed.

(** The query is covered by a beginning of each of some words, every word used at
    most once. *)
Inductive splits (words : list utf16string) : list nat -> list Z -> list nat -> Prop :=
  | splits_nil used : splits words used [] []
  | splits_word used i w k rest js : words !! i = Some w -> i ∉ used -> (0 < k <= length w)%nat -> splits words (i :: used) rest js ->
      splits words used (take k w ++ rest) (i :: js).

Lemma splits_at words used position js : words_ok words -> (position < length q)%nat -> splits words used (drop position q) js ->
  exists i k js', i ∈ findWordsStartingWith words q.[position] /\ (i ∉ used) /\ js = i :: js' /\
    (0 < k <= findEqualCharsCount q position (nth i words []))%nat /\ splits words (i :: used) (drop (position + k) q) js'.
Proof.
  intros Hw Hp H. remember (drop position q) as d eqn:E. destruct H as [used|used i w k rest js' Hi Hu Hk Hr].
  { apply (f_equal length) in E. cbn in E. rewrite length_drop in E. lia. }
  assert (i < length words)%nat as Hl by (by apply lookup_lt_Some in Hi). assert (nth i words [] = w) as Hn by (by apply nth_lookup_Some).
  assert (w <> []) as Hne by (intros ->; cbn in Hk; lia).
  assert (rest = drop (position + k) q /\ (position + k <= length q)%nat) as [-> Hle].
  { pose proof (f_equal length E) as El. rewrite length_app, length_take, length_drop in El. split; [|lia].
    apply (f_equal (drop k)) in E. rewrite drop_drop in E. rewrite drop_app_length' in E by (rewrite length_take; lia). done. }
  apply agrees_take in E; [|lia|exact Hle].
  assert (w.[0] = q.[position]) as Hf by (rewrite (E 0%nat) by lia; by rewrite Nat.add_0_r).
  exists i, k, js'. split; [apply find_words; [exact Hw|]; split; [exact Hl|by rewrite Hn]|]. split; [exact Hu|]. split; [done|].
  rewrite Hn. split; [|exact Hr]. split; [lia|]. apply equal_chars; [lia|exact Hne|exact Hp|exact Hf|]. split; [lia|]. by split.
Qed.
Lemma splits_from words used position i k js : words_ok words -> (position < length q)%nat -> i ∈ findWordsStartingWith words q.[position] -> i ∉ used ->
  (0 < k <= findEqualCharsCount q position (nth i words []))%nat -> splits words (i :: used) (drop (position + k) q) js ->
  splits words used (drop position q) (i :: js).
Proof.
  intros Hw Hp Hi Hu Hk Hr. apply find_words in Hi as [Hl Hf]; [|exact Hw]. set (w := nth i words []) in *.
  assert (words !! i = Some w) as Hiw by (destruct (lookup_lt_is_Some_2 words i Hl) as [x Hx]; rewrite Hx; f_equal; symmetry; exact (nth_lookup_Some _ _ [] _ Hx)).
  assert (w <> []) as Hne by exact (Forall_lookup_1 _ _ _ _ (wo_nonempty _ Hw) Hiw).
  destruct (proj1 (equal_chars position w k ltac:(lia) Hne Hp Hf) ltac:(lia)) as (K1 & K2 & K3).
  rewrite <- (proj1 (agrees_take position w k K1 K2) K3). apply (splits_word _ _ _ w k); [exact Hiw|exact Hu|lia|exact Hr].
Qed.

(** The map of used words is that of [used]. *)
Definition tracks (words : list utf16string) (used : list nat) (c : completer) : Prop :=
  (length words <= length (usedMap c))%nat /\ forall i, (i < length words)%nat -> ((usedMap c).[i] = 0 <-> i ∉ used).
(** How a search ends: with the words of a cover counted, or without any; the
    results and the map are what they were. *)
Definition found (P : list nat -> Prop) (c : completer) (r : outcome bool * completer) : Prop :=
  exists b, r.1 = Value b /\ _result r.2 = _result c /\ usedMap r.2 = usedMap c /\
    if b : bool then exists js, P js /\ usedCount r.2 = usedCount c + Z.of_nat (length js)
    else usedCount r.2 = usedCount c /\ forall js, ~ P js.
Lemma tracks_same words used c c' : usedMap c' = usedMap c -> tracks words used c -> tracks words used c'.
Proof. unfold tracks. by intros ->. Qed.

Lemma try_lengths_ok tail words used position check : forall c,
  (forall k c, (0 < k <= check)%nat -> tracks words used c -> found (splits words used (drop (position + k) q)) c (tail (position + k)%nat c)) ->
  tracks words used c -> found (fun js => exists k, (0 < k <= check)%nat /\ splits words used (drop (position + k) q) js) c (try_lengths tail position check c).
Proof.
  induction check as [|n IH]; intros c Ht Hc; cbn [try_lengths].
  { exists false. split; [done|]. split; [done|]. split; [done|]. split; [done|]. intros js (k & Hk & _). lia. }
  destruct (Ht (S n) c ltac:(lia) Hc) as (b & E1 & E2 & E3 & E4). destruct (tail (position + S n)%nat c) as [o c1] eqn:E. cbn [fst snd] in *. subst o.
  erewrite run_bind by exact E. destruct b.
  - destruct E4 as (js & Hs & Hn). exists true. split; [done|]. split; [exact E2|]. split; [exact E3|]. exists js. split; [|exact Hn].
    exists (S n). split; [lia|exact Hs].
  - destruct E4 as [E4 Hno]. destruct (IH c1) as (b & F1 & F2 & F3 & F4); [intros k c0 Hk; apply Ht; lia|by apply (tracks_same _ _ c)|].
    exists b. split; [exact F1|]. split; [congruence|]. split; [congruence|]. destruct b.
    + destruct F4 as (js & (k & Hk & Hs) & Hn). exists js. split; [exists k; split; [lia|exact Hs]|]. by rewrite Hn, E4.
    + destruct F4 as [F4 Hno2]. split; [congruence|]. intros js (k & Hk & Hs). destruct (decide (k = S n)) as [->|].
      * by apply (Hno js).
      * apply (Hno2 js). exists k. split; [lia|exact Hs].
Qed.

Lemma enter_word_ok words used i c : tracks words used c -> (i < length words)%nat ->
  enter_word i c = if decide (i ∈ used) then (Value false, c) else (Value true, c <| usedMap := <[i := 1]> (usedMap c) |>).
Proof.
  intros [T1 T2] Hi. unfold enter_word. rewrite decide_True by lia. specialize (T2 i Hi). destruct (decide (i ∈ used)) as [H|H].
  - rewrite decide_False; [done|]. rewrite T2. by intros N.
  - rewrite decide_True; [done|]. by apply T2.
Qed.
Lemma entered_tracks words used i c : tracks words used c -> (i < length words)%nat -> tracks words (i :: used) (c <| usedMap := <[i := 1]> (usedMap c) |>).
Proof.
  intros [T1 T2] Hi. split; cbn [usedMap set]; [by rewrite length_insert|]. intros j Hj. destruct (decide (j = i)) as [->|Hne].
  - rewrite ix_insert_eq by lia. split; [lia|]. intros N. exfalso. apply N. left.
  - rewrite ix_insert_ne by done. rewrite (T2 j Hj). rewrite not_elem_of_cons. tauto.
Qed.
(** Releasing a word restores the map. *)
Lemma released used words i c : tracks words used c -> (i < length words)%nat -> i ∉ used -> <[i := 0]> (<[i := 1]> (usedMap c)) = usedMap c.
Proof.
  intros [T1 T2] Hi Hu. rewrite list_insert_insert_eq. apply list_insert_id. apply (T2 i Hi) in Hu. 
  destruct (lookup_lt_is_Some_2 (usedMap c) i) as [x Hx]; [lia|]. rewrite Hx. f_equal. rewrite <- Hu. symmetry. by apply nth_lookup_Some.
Qed.

(** What taking word [i] can lead to. *)
Definition covers (words : list utf16string) (used : list nat) (position i : nat) (js : list nat) : Prop :=
  exists k js', js = i :: js' /\ (0 < k <= findEqualCharsCount q position (nth i words []))%nat /\ splits words (i :: used) (drop (position + k) q) js'.
(** The turn of the loop for a word that is free. *)
Lemma try_word_ok tail words used position i c :
  (forall k c, (0 < k)%nat -> tracks words (i :: used) c -> found (splits words (i :: used) (drop (position + k) q)) c (tail (position + k)%nat c)) ->
  tracks words used c -> (i < length words)%nat -> i ∉ used ->
  let c1 := (c <| usedMap := <[i := 1]> (usedMap c) |>) <| usedCount := usedCount c + 1 |> in
  let r := try_lengths tail position (findEqualCharsCount q position (nth i words [])) c1 in
  exists b, r.1 = Value b /\ _result r.2 = _result c /\ <[i := 0]> (usedMap r.2) = usedMap c /\
    if b : bool then exists js, covers words used position i js /\ usedCount r.2 = usedCount c + Z.of_nat (length js)
    else usedCount r.2 = usedCount c + 1 /\ forall js, ~ covers words used position i js.
Proof.
  intros Ht Hc Hi Hu c1 r. assert (tracks words (i :: used) c1) as Hc1 by (by apply (tracks_same _ _ (c <| usedMap := <[i := 1]> (usedMap c) |>)); [|apply entered_tracks]).
  destruct (try_lengths_ok tail words (i :: used) position (findEqualCharsCount q position (nth i words [])) c1) as (b & E1 & E2 & E3 & E4);
    [intros k c0 Hk; apply Ht; lia|exact Hc1|]. fold r in E1, E2, E3, E4.
  exists b. split; [exact E1|]. split; [exact E2|]. split; [rewrite E3; by apply (released used words)|]. destruct b.
  - destruct E4 as (js & (k & Hk & Hs) & Hn). exists (i :: js). split; [by exists k, js|]. rewrite Hn. cbn [usedCount set c1 length]. lia.
  - destruct E4 as [E4 Hno]. split; [exact E4|]. intros js (k & js' & -> & Hk & Hs). apply (Hno js'). by exists k.
Qed.
Lemma try_words_ok tail words used position : words_ok words ->
  (forall i k c, (0 < k)%nat -> i ∉ used -> tracks words (i :: used) c -> found (splits words (i :: used) (drop (position + k) q)) c (tail (position + k)%nat c)) ->
  forall l c, tracks words used c -> Forall (fun i => (i < length words)%nat) l ->
  found (fun js => exists i, i ∈ l /\ (i ∉ used) /\ covers words used position i js) c (try_words q tail words position l c).
Proof.
  intros Hw Ht l. induction l as [|i l IH]; intros c Hc Hl.
  { exists false. do 3 (split; [done|]). split; [done|]. intros js (i & Hi & _). by apply not_elem_of_nil in Hi. }
  apply Forall_cons in Hl as [Hi Hl]. cbn [try_words]. pose proof (enter_word_ok words used i c Hc Hi) as En. destruct (decide (i ∈ used)) as [Hu|Hu].
  { erewrite run_bind by exact En. cbv iota. destruct (IH c Hc Hl) as (b & E1 & E2 & E3 & E4). exists b. do 3 (split; [done|]). destruct b.
    - destruct E4 as (js & (i' & Hi' & H') & Hn). exists js. split; [|exact Hn]. exists i'. split; [by right|exact H'].
    - destruct E4 as [E4 Hno]. split; [exact E4|]. intros js (i' & [->|Hi']%elem_of_cons & Hu' & H'); [done|]. apply (Hno js). by exists i'. }
  erewrite run_bind by exact En. cbv iota. erewrite run_bind by reflexivity.
  destruct (try_word_ok tail words used position i c) as (b & E1 & E2 & E3 & E4); [intros k c0 Hk; by apply Ht|done|done|done|].
  set (c1 := (c <| usedMap := _ |>) <| usedCount := _ |>) in *. destruct (try_lengths tail position _ c1) as [o c2] eqn:E. cbn [fst snd] in *. subst o.
  erewrite run_bind by exact E. destruct b.
  - destruct E4 as (js & Hj & Hn). exists true. split; [reflexivity|]. split; [exact E2|]. split; [exact E3|]. exists js. split; [|exact Hn].
    exists i. split; [left|]. by split.
  - destruct E4 as [E4 Hno]. erewrite run_bind by reflexivity. erewrite run_bind by reflexivity.
    set (c3 := c2 <| usedCount := _ |> <| usedMap := _ |>). assert (_result c3 = _result c /\ usedMap c3 = usedMap c /\ usedCount c3 = usedCount c) as (R1 & R2 & R3)
      by (unfold c3; cbn [_result usedMap usedCount set]; split; [exact E2|split; [exact E3|lia]]).
    destruct (IH c3 (tracks_same _ _ _ _ R2 Hc) Hl) as (b & F1 & F2 & F3 & F4). exists b. split; [exact F1|]. split; [congruence|]. split; [congruence|]. destruct b.
    + destruct F4 as (js & (i' & Hi' & H') & Hn). exists js. split; [|by rewrite Hn, R3]. exists i'. split; [by right|exact H'].
    + destruct F4 as [F4 Hno2]. split; [congruence|]. intros js (i' & [->|Hi']%elem_of_cons & Hu' & H'); [by apply (Hno js)|]. apply (Hno2 js). by exists i'.
Qed.
(** The search is sound and complete, and terminates. *)
Lemma match_tail_ok words : words_ok words -> forall fuel used position c, (0 < fuel)%nat -> (length q < position + fuel)%nat -> tracks words used c ->
  found (splits words used (drop position q)) c (match_tail q fuel words position c).
Proof.
  intros Hw fuel. induction fuel as [|fuel IH]; intros used position c H0 Hf Hc; [lia|]. cbn [match_tail].
  destruct (decide (length q - position = 0)%nat) as [Hp|Hp].
  { exists true. do 3 (split; [done|]). exists []. split; [rewrite drop_ge by lia; constructor|]. cbn. lia. }
  destruct (try_words_ok (match_tail q fuel words) words used position Hw) with (l := findWordsStartingWith words q.[position]) (c := c)
    as (b & E1 & E2 & E3 & E4); [intros i k c0 Hk _; apply IH; lia|exact Hc| |].
  { apply Forall_forall. intros i Hi. by apply find_words in Hi as [Hi _]. }
  exists b. do 3 (split; [done|]). destruct b.
  - destruct E4 as (js & (i & Hi & Hu & k & js' & -> & Hk & Hs) & Hn). exists (i :: js'). split; [|exact Hn].
    apply (splits_from words used position i k js'); [done|lia|done|done|done|done].
  - destruct E4 as [E4 Hno]. split; [exact E4|]. intros js Hs.
    apply (splits_at words used position js Hw) in Hs as (i & k & js' & Hi & Hu & -> & Hk & Hs); [|lia].
    apply (Hno (i :: js')). exists i. split; [exact Hi|]. split; [exact Hu|]. by exists k, js'.
Qed.

(** A word starts with the query when the query is a beginning of it. *)
Lemma starts_with word : startsWithQuery q word = true <-> take (length q) word = q.
Proof.
  unfold startsWithQuery. case_decide as Hl.
  - split; [done|]. intros E. apply (f_equal length) in E. rewrite length_take in E. lia.
  - rewrite forallb_forall. split.
    + intros H. apply ix_ext; [rewrite length_take; lia|]. intros i Hi. rewrite length_take in Hi. rewrite ix_take by lia. apply Z.eqb_eq, H, in_seq. lia.
    + intros E i Hi. apply in_seq in Hi. apply Z.eqb_eq.
      assert (q.[i] = (take (length q) word).[i]) as -> by (by rewrite E). by rewrite ix_take by lia.
Qed.
Lemma splits_single word js : q <> [] -> word <> [] -> splits [word] [] q js <-> take (length q) word = q /\ js = [0%nat].
Proof.
  intros Hq Hw. split.
  - intros H. inversion H as [used E1|used i w k rest js' Hi Hu Hk Hr]; [congruence|].
    assert (i = 0%nat /\ w = word) as [-> ->] by (destruct i as [|i]; [by injection Hi as ->|by destruct i]).
    inversion Hr as [|used' i w k' rest' js2 Hi' Hu' Hk' Hr']; subst.
    + rewrite app_nil_r, length_take. by rewrite Nat.min_l by lia.
    + exfalso. apply Hu'. destruct i as [|i]; [left|]. by destruct i.
  - intros [E ->]. assert (length q <= length word)%nat by (apply (f_equal length) in E; rewrite length_take in E; lia).
    rewrite <- E at 1. rewrite <- (app_nil_r (take (length q) word)). apply (splits_word _ _ _ word); [done|by intros ?%not_elem_of_nil| |constructor].
    destruct q; [done|cbn in *; lia].
Qed.

(** The completer finds a cover exactly when there is one. *)
Lemma cover_found (words : list utf16string) (c : completer)
  (Hw : words_ok words) (Hq : q <> []) (Hc : (length words <= length (usedMap c))%nat /\ Forall (fun m => m = 0) (usedMap c)) :
  exists b c', matchQueryForCurrentItem q words c = (Value b, c') /\ _result c' = _result c /\ usedMap c' = usedMap c /\
    (b = true <-> exists js, splits words [] q js) /\
    (if b : bool then exists js, splits words [] q js /\ usedCount c' = usedCount c + (if decide (length words = 1)%nat then 0 else Z.of_nat (length js))
     else usedCount c' = usedCount c).
Proof.
  destruct Hc as [Hc1 Hc2]. assert (tracks words [] c) as Ht.
  { split; [exact Hc1|]. intros i Hi. split; [intros _; by apply not_elem_of_nil|]. intros _. destruct (lookup_lt_is_Some_2 (usedMap c) i) as [x Hx]; [lia|].
    unfold ix. rewrite (nth_lookup_Some _ _ _ _ Hx). exact (Forall_lookup_1 _ _ _ _ Hc2 Hx). }
  destruct words as [|w [|w' ws]]; [by destruct (wo_some _ Hw)| |].
  - assert (w <> []) as Hne by (by apply (Forall_inv (wo_nonempty _ Hw))). exists (startsWithQuery q w), c. do 3 (split; [done|]).
    split.
    + rewrite starts_with. split; [intros E; exists [0%nat]; by apply splits_single|]. intros (js & Hs). by apply splits_single in Hs as [? _].
    + destruct (startsWithQuery q w) eqn:E; [|done]. exists [0%nat]. split; [apply splits_single; [done|done|split; [by apply starts_with|done]]|].
      rewrite decide_True by done. lia.
  - destruct (match_tail_ok (w :: w' :: ws) Hw (S (length q)) [] 0%nat c ltac:(lia) ltac:(lia) Ht) as (b & E1 & E2 & E3 & E4).
    unfold matchQueryForCurrentItem, matchQueryTailStartingFrom. destruct (match_tail _ _ _ _ _) as [o c'] eqn:E. cbn [fst snd] in *. subst o.
    exists b, c'. split; [done|]. split; [exact E2|]. split; [exact E3|]. rewrite drop_0 in E4. destruct b.
    + destruct E4 as (js & Hs & Hn). split; [split; [by exists js|done]|]. exists js. split; [exact Hs|]. by rewrite decide_False by (cbn; lia).
    + destruct E4 as [E4 Hno]. split; [|exact E4]. split; [done|]. intros (js & Hs). by apply Hno in Hs.
Qed.

(** the completer finds a cover of the query by beginnings of distinct words exactly
    when there is one, whatever the words; it counts the words of the cover it
    finds, leaves no word marked, and never fails. *)
Theorem completer_match (words : list utf16string) (c : completer)
  (Hw : words_ok words) (Hq : q <> []) (Hc : (length words <= length (usedMap c))%nat /\ Forall (fun m => m = 0) (usedMap c)) :
  exists b c', matchQueryForCurrentItem q words c = (Value b, c') /\ _result c' = _result c /\ usedMap c' = usedMap c /\
    (b = true <-> exists js, splits words [] q js) /\
    (if b : bool then exists js, splits words [] q js /\ usedCount c' = usedCount c + (if decide (length words = 1)%nat then 0 else Z.of_nat (length js))
     else usedCount c' = usedCount c).
Proof. exact (cover_found words c Hw Hq Hc). Qed.
End search.

Lemma completer_match_witness :
  words_ok [str "floor"; str "laughing"; str "on"; str "the"] /\
  exists b c', matchQueryForCurrentItem (str "theflo") [str "floor"; str "laughing"; str "on"; str "the"] (Completer [] 1 (zeros 4)) = (Value b, c') /\ b = true /\ usedCount c' = 3.
Proof.
  assert (words_ok [str "floor"; str "laughing"; str "on"; str "the"]) as Hw by (apply words_check; reflexivity).
  split; [exact Hw|].
  destruct (completer_match (str "theflo") _ (Completer [] 1 (zeros 4)) Hw) as (b & c' & E & _); [discriminate|split; [vm_compute; lia|repeat constructor]|].
  exists b, c'. split; [exact E|]. vm_compute in E. injection E as <- <-. done.
Defined.

(** ** The order of the suggestions *)

(** A stable partition refines the order it finds. *)
Lemma stable_partition_perm {A} (p : A -> bool) l : stable_partition p l ≡ₚ l.
Proof.
  unfold stable_partition. induction l as [|x l IH]; [done|]. rewrite !filter_cons. destruct (p x) eqn:E.
  - rewrite decide_True, decide_False by congruence. cbn [app]. by rewrite IH.
  - rewrite decide_False, decide_True by congruence. by rewrite <- Permutation_middle, IH.
Qed.
Lemma sorted_filter {A} (R : relation A) (P : A -> Prop) `{forall x, Decision (P x)} l : StronglySorted R l -> StronglySorted R (filter P l).
Proof.
  induction 1 as [|x l Hs IH Hx]; [constructor|]. rewrite filter_cons. case_decide; [|done]. constructor; [done|].
  apply Forall_forall. intros y Hy. apply list_elem_of_filter in Hy as [_ Hy]. by eapply Forall_forall in Hx.
Qed.
Lemma stable_partition_sorted {A} (p : A -> bool) (f : A -> nat) (n : nat) l : (forall x, (f x < n)%nat) ->
  StronglySorted (fun a b => (f b <= f a)%nat) l ->
  StronglySorted (fun a b => (n * Nat.b2n (p b) + f b <= n * Nat.b2n (p a) + f a)%nat) (stable_partition p l).
Proof.
  intros Hf Hl. unfold stable_partition.
  assert (forall c, StronglySorted (fun a b => (n * Nat.b2n (p b) + f b <= n * Nat.b2n (p a) + f a)%nat) (filter (fun x => p x = c) l)) as H.
  { intros c. pose proof (sorted_filter _ (fun x => p x = c) l Hl) as Hs.
    assert (Forall (fun x => p x = c) (filter (fun x => p x = c) l)) as Hc by (apply Forall_forall; by intros x [Hx _]%list_elem_of_filter).
    induction Hs as [|x l' Hs IH Hx]; [constructor|]. apply Forall_cons in Hc as [Hpx Hc]. constructor; [by apply IH|].
    apply Forall_forall. intros y Hy. eapply Forall_forall in Hx; [|exact Hy]. eapply Forall_forall in Hc; [|exact Hy]. rewrite Hpx, Hc. lia. }
  apply StronglySorted_app. split; [|by split].
  intros x y [Hx _]%list_elem_of_filter [Hy _]%list_elem_of_filter. rewrite Hx, Hy. cbn. specialize (Hf y). lia.
Qed.
(** Elements the partition does not tell apart keep their order. *)
Lemma stable_partition_stable {A} (p : A -> bool) (P : A -> Prop) `{forall x, Decision (P x)} l : (forall x y, P x -> P y -> p x = p y) ->
  filter P (stable_partition p l) = filter P l.
Proof.
  intros Hp. unfold stable_partition. rewrite filter_app. destruct (filter P l) as [|x l'] eqn:E.
  - assert (forall c, filter P (filter (fun x => p x = c) l) = []) as H0; [|by rewrite !H0].
    intros c. apply elem_of_nil_inv. intros y [HP [_ Hy]%list_elem_of_filter]%list_elem_of_filter.
    apply (not_elem_of_nil y). rewrite <- E. by apply list_elem_of_filter.
  - assert (P x /\ x ∈ l) as [HPx _] by (apply (list_elem_of_filter P); rewrite E; left).
    assert (forall c, p x = c -> filter P (filter (fun y => p y = c) l) = x :: l') as Hsame.
    { intros c Hc. rewrite <- E. apply list_filter_filter_l. intros y Hy. by rewrite (Hp y x Hy HPx). }
    assert (forall c, p x <> c -> filter P (filter (fun y => p y = c) l) = []) as Hother.
    { intros c Hc. apply elem_of_nil_inv. intros y [HP [Hy _]%list_elem_of_filter]%list_elem_of_filter. apply Hc. by rewrite (Hp x y HPx HP). }
    destruct (p x) eqn:Ex; [by rewrite (Hsame true), (Hother false), app_nil_r|by rewrite (Hother true), (Hsame false)].
Qed.

(** What the order depends on, the most important first: an exact match, one word of
    several, a single word, the first character after the colon. *)
Definition first_char (q : list Z) (r : Result) : bool := (r_replacement (replacement r)).[1] =? q.[0].
Definition exact (query : list Z) (r : Result) : bool := isExactMatch query (r_replacement (replacement r)).
Definition rank (query q : list Z) (r : Result) : nat :=
  8 * Nat.b2n (exact query r) + (4 * Nat.b2n (wordsUsed r <? 3) + (2 * Nat.b2n (wordsUsed r <? 2) + (1 * Nat.b2n (first_char q r) + 0))).
(** Digits of a mixed-radix number with bits for digits. *)
Lemma digit_inj n a b x y : (x < n)%nat -> (y < n)%nat -> (n * Nat.b2n a + x = n * Nat.b2n b + y)%nat -> a = b /\ x = y.
Proof. destruct a, b; cbn [Nat.b2n]; intros; split; try done; lia. Qed.
Lemma rank_bounds (a b c : bool) : (1 * Nat.b2n c + 0 < 2)%nat /\ (2 * Nat.b2n b + (1 * Nat.b2n c + 0) < 4)%nat /\ (4 * Nat.b2n a + (2 * Nat.b2n b + (1 * Nat.b2n c + 0)) < 8)%nat.
Proof. destruct a, b, c; cbn; lia. Qed.
Lemma rank_inj query q r r' : rank query q r = rank query q r' -> exact query r = exact query r' /\
  (wordsUsed r <? 3) = (wordsUsed r' <? 3) /\ (wordsUsed r <? 2) = (wordsUsed r' <? 2) /\ first_char q r = first_char q r'.
Proof.
  unfold rank. destruct (rank_bounds (wordsUsed r <? 3) (wordsUsed r <? 2) (first_char q r)) as (A1 & A2 & A3).
  destruct (rank_bounds (wordsUsed r' <? 3) (wordsUsed r' <? 2) (first_char q r')) as (B1 & B2 & B3).
  intros [? H]%digit_inj; [|done|done]. apply digit_inj in H as [? H]; [|done|done]. apply digit_inj in H as [? H]; [|done|done].
  apply digit_inj in H as [? H]; [done|lia|lia].
Qed.
Lemma sorted_trivial {A} (l : list A) : StronglySorted (fun _ _ : A => (0 <= 0)%nat) l.
Proof. induction l as [|x l IH]; [constructor|]. constructor; [done|]. apply Forall_forall. intros; lia. Qed.

(** The partitions sort by rank and are stable. *)
Lemma partitioned (query q : list Z) (l : list Result) :
  let l' := partition_all query q l in
  l' ≡ₚ l /\ StronglySorted (fun a b => (rank query q b <= rank query q a)%nat) l' /\
  forall k, filter (fun r => rank query q r = k) l' = filter (fun r => rank query q r = k) l.
Proof.
  unfold partition_all. fold (first_char q). fold (exact query). split; [by rewrite !stable_partition_perm|]. split.
  - unfold rank. do 4 (refine (stable_partition_sorted _ _ _ _ _ _); [intros r; first [lia|apply (rank_bounds (wordsUsed r <? 3) (wordsUsed r <? 2) (first_char q r))]|]).
    apply sorted_trivial.
  - intros k. rewrite !stable_partition_stable; [done|..]; intros r r' Hr Hr'; rewrite <- Hr' in Hr; by apply rank_inj in Hr as (? & ? & ? & ?).
Qed.

(** the results are put in the order of their rank, the best first, and among results
    of the same rank the order of the table is kept; nothing is lost or added. *)
Theorem suggestions_ordered (query q : list Z) (l : list Result) :
  let l' := partition_all query q l in
  l' ≡ₚ l /\ StronglySorted (fun a b => (rank query q b <= rank query q a)%nat) l' /\
  forall k, filter (fun r => rank query q r = k) l' = filter (fun r => rank query q r = k) l.
Proof. apply partitioned. Qed.

(** ** The suggestions for a query *)

(** The item answers the query, with [n] words used: a query of one character is
    answered by every item of its list. *)
Inductive fits (q : list Z) (item : Replacement) : Z -> Prop :=
  | fits_char : (length q <= 1)%nat -> fits q item 1
  | fits_word w : (1 < length q)%nat -> r_words item = [w] -> splits [w] [] q [0%nat] -> fits q item 1
  | fits_words js : (1 < length q)%nat -> (1 < length (r_words item))%nat -> splits (r_words item) [] q js -> fits q item (1 + Z.of_nat (length js)).

(** The items that fit, in the order of the table, each with the words counted for it. *)
Inductive matches (q : list Z) : list Replacement -> list Result -> Prop :=
  | matches_nil : matches q [] []
  | matches_fit item n items ms : fits q item n -> matches q items ms -> matches q (item :: items) (mkResult item n :: ms)
  | matches_skip item items ms : (forall n, ~ fits q item n) -> matches q items ms -> matches q (item :: items) ms.
(** A match takes the place of the one kept when fewer words are used, or when only its
    replacement starts with the first character of the query. *)
Definition prefer (q : list Z) (kept r : Result) : Result :=
  if (wordsUsed r <? wordsUsed kept) || (negb (first_char q kept) && first_char q r) then r else kept.
(** The match kept of a run of matches of one emoji. *)
Definition keeps (q : list Z) (run : list Result) (kept : Result) : Prop :=
  exists r rest, run = r :: rest /\ kept = foldl (prefer q) r rest /\
    Forall (fun r => r_emoji (replacement r) = r_emoji (replacement kept)) run.
(** No emoji is repeated at once. *)
Definition apart (l : list Result) : Prop :=
  forall i a b, l !! i = Some a -> l !! S i = Some b -> r_emoji (replacement a) <> r_emoji (replacement b).

(** The results for the items seen so far: the matches fall into runs of one emoji,
    and one match of every run is kept. *)
Record results_for (q : list Z) (items : list Replacement) (l : list Result) : Prop := {
  rf_runs : exists ms runs, matches q items ms /\ ms = concat runs /\ Forall2 (keeps q) runs l;
  rf_apart : apart l
}.

Lemma matches_app q items items' ms ms' : matches q items ms -> matches q items' ms' -> matches q (items ++ items') (ms ++ ms').
Proof. induction 1 as [|item n items ms Hf _ IH|item items ms Hno _ IH]; intros H'; cbn [app]; [done| |]; [apply matches_fit|apply matches_skip]; auto. Qed.
Lemma prefer_better q item n r : prefer q r (mkResult item n) = if isBetterThanLastResult q item r n then mkResult item n else r.
Proof.
  unfold prefer, isBetterThanLastResult, first_char. cbn [wordsUsed replacement]. destruct (decide (n < wordsUsed r)) as [H|H].
  - by apply Z.ltb_lt in H as ->.
  - apply Z.ltb_nlt in H as ->. done.
Qed.
Lemma apart_snoc l r x : apart (l ++ [r]) -> r_emoji (replacement r) <> r_emoji (replacement x) -> apart ((l ++ [r]) ++ [x]).
Proof.
  intros H Hx i a b Ha [Hb|[Hi Hb]]%lookup_app_Some.
  - apply (H i a b); [|exact Hb]. by rewrite lookup_app_l in Ha by (apply lookup_lt_Some in Hb; lia).
  - apply list_lookup_singleton_Some in Hb as [E <-]. rewrite length_app in *. cbn [length] in *.
    rewrite lookup_app_l in Ha by (rewrite length_app; cbn; lia). rewrite lookup_app_r in Ha by lia.
    replace (i - length l)%nat with 0%nat in Ha by lia. by injection Ha as <-.
Qed.
Lemma apart_last l r x : apart (l ++ [r]) -> r_emoji (replacement x) = r_emoji (replacement r) -> apart (l ++ [x]).
Proof.
  intros H Hx i a b Ha Hb. assert (i < length l)%nat as Hi by (apply lookup_lt_Some in Hb; rewrite length_app in Hb; cbn in Hb; lia).
  rewrite lookup_app_l in Ha by lia. apply lookup_app_Some in Hb as [Hb|[Hl Hb]].
  - apply (H i); rewrite lookup_app_l; done || (apply lookup_lt_Some in Hb; lia).
  - apply list_lookup_singleton_Some in Hb as [E <-]. rewrite Hx. apply (H i); [by rewrite lookup_app_l by lia|].
    rewrite lookup_app_r by lia. by rewrite E.
Qed.

Lemma results_skip q items item l : (forall n, ~ fits q item n) -> results_for q items l -> results_for q (items ++ [item]) l.
Proof.
  intros Hno [(ms & runs & M & E & F) A]. split; [|exact A]. exists ms, runs. split; [|by split].
  rewrite <- (app_nil_r ms). apply matches_app; [exact M|]. apply matches_skip; [exact Hno|constructor].
Qed.
(** A match of another emoji begins a run, one of the same emoji goes on with it. *)
Lemma add_result_ok q items item used l : fits q item used -> results_for q items l -> results_for q (items ++ [item]) (add_result q item used l).
Proof.
  intros Hf [(ms & runs & M & E & F) A]. set (x := mkResult item used).
  assert (matches q (items ++ [item]) (ms ++ [x])) as M' by (apply matches_app; [exact M|apply matches_fit; [exact Hf|constructor]]).
  assert (apart (l ++ [x]) -> results_for q (items ++ [item]) (l ++ [x])) as Hadd.
  { intros Ha. split; [|exact Ha]. exists (ms ++ [x]), (runs ++ [[x]]). split; [exact M'|]. split; [by rewrite concat_app, E|].
    apply Forall2_app; [exact F|]. constructor; [|constructor]. exists x, []. split; [done|]. split; [done|]. by constructor. }
  unfold add_result. fold x. destruct (last l) as [r|] eqn:El.
  2:{ apply last_None in El as ->. apply Hadd. by intros i a b Ha [Hb _]%list_lookup_singleton_Some. }
  apply last_Some in El as [l' ->]. destruct (decide _) as [He|He]; [|by apply Hadd, apart_snoc].
  apply Forall2_app_inv_r in F as (runs' & last & F & Hlast & ->). apply Forall2_cons_inv_r in Hlast as (run & ? & (r0 & rest & -> & Er & Hs) & Hnil & ->).
  apply Forall2_nil_inv_r in Hnil as ->.
  assert (results_for q (items ++ [item]) (l' ++ [prefer q r x])) as H.
  { assert (r_emoji (replacement (prefer q r x)) = r_emoji (replacement r)) as Ep by (unfold prefer; destruct (_ || _); done).
    split; [|by apply (apart_last _ r)]. exists (ms ++ [x]), (runs' ++ [(r0 :: rest) ++ [x]]). split; [exact M'|].
    split; [by rewrite E, !concat_app; cbn [concat]; rewrite !app_nil_r, <- app_assoc|]. apply Forall2_app; [exact F|]. constructor; [|constructor].
    exists r0, (rest ++ [x]). split; [done|]. split; [by rewrite foldl_snoc, <- Er|]. rewrite Ep. apply Forall_app. split; [exact Hs|]. by constructor. }
  rewrite (prefer_better q item used r : prefer q r x = _) in H. destruct (isBetterThanLastResult q item r used); [|exact H].
  by rewrite length_app, Nat.add_sub, take_app_length.
Qed.

(** Every result is an item that fits, and every item that fits has a result for its emoji. *)
Lemma matches_sound q items ms : matches q items ms -> Forall (fun r => replacement r ∈ items /\ fits q (replacement r) (wordsUsed r)) ms.
Proof.
  assert (forall item items ms, Forall (fun r => replacement r ∈ items /\ fits q (replacement r) (wordsUsed r)) ms ->
    Forall (fun r => replacement r ∈ item :: items /\ fits q (replacement r) (wordsUsed r)) ms) as W.
  { intros item l r H. eapply Forall_impl; [exact H|]. intros x [Hx Hf]. split; [by right|exact Hf]. }
  induction 1 as [|item n items ms Hf _ IH|item items ms Hno _ IH]; [constructor| |by apply W].
  constructor; [split; [left|exact Hf]|by apply W].
Qed.
Lemma matches_complete q items ms item n : matches q items ms -> item ∈ items -> fits q item n -> exists r, r ∈ ms /\ replacement r = item.
Proof.
  induction 1 as [|item' n' items ms Hf _ IH|item' items ms Hno _ IH]; intros Hi Hn; [by apply not_elem_of_nil in Hi| |].
  - apply elem_of_cons in Hi as [->|Hi]; [eexists; split; [left|done]|]. destruct (IH Hi Hn) as (r & Hr & E). exists r. split; [by right|exact E].
  - apply elem_of_cons in Hi as [->|Hi]; [by apply Hno in Hn|by apply IH].
Qed.
Lemma prefer_in q r rest : foldl (prefer q) r rest ∈ r :: rest.
Proof.
  revert r. induction rest as [|x rest IH]; intros r; cbn [foldl]; [left|]. specialize (IH (prefer q r x)).
  apply elem_of_cons in IH as [->|H]; [|by right; right]. unfold prefer. destruct (_ || _); [right; left|left].
Qed.
Lemma results_sound q items l : results_for q items l -> Forall (fun r => replacement r ∈ items /\ fits q (replacement r) (wordsUsed r)) l.
Proof.
  intros [(ms & runs & M & -> & F) _]. apply matches_sound in M. induction F as [|run r runs l (r0 & rest & -> & -> & _) F IH]; [constructor|].
  cbn [concat] in M. apply Forall_app in M as [M1 M2]. constructor; [|by apply IH].
  rewrite Forall_forall in M1. apply M1, prefer_in.
Qed.
Lemma results_complete q items l item n : results_for q items l -> item ∈ items -> fits q item n -> exists r, r ∈ l /\ r_emoji (replacement r) = r_emoji item.
Proof.
  intros [(ms & runs & M & -> & F) _] Hi Hn. destruct (matches_complete _ _ _ item n M Hi Hn) as (x & Hx & <-). clear M Hi Hn.
  induction F as [|run r runs l (r0 & rest & -> & -> & Hs) F IH]; [by apply not_elem_of_nil in Hx|].
  cbn [concat] in Hx. apply elem_of_app in Hx as [Hx|Hx].
  - eexists. split; [left|]. rewrite Forall_forall in Hs. by rewrite (Hs x Hx).
  - destruct (IH Hx) as (r & Hr & E). exists r. split; [by right|exact E].
Qed.

(** A query of more than one character fits when the completer finds a cover. *)
Lemma fits_found q item c : words_ok (r_words item) -> (1 < length q)%nat -> usedCount c = 1 ->
  (length (r_words item) <= length (usedMap c))%nat /\ Forall (fun m => m = 0) (usedMap c) ->
  exists b c', matchQueryForCurrentItem q (r_words item) c = (Value b, c') /\ _result c' = _result c /\ usedMap c' = usedMap c /\
    (if b : bool then fits q item (usedCount c') else forall n, ~ fits q item n).
Proof.
  intros Hw Hq H1 Hc. destruct (cover_found q (r_words item) c Hw) as (b & c' & E & R & U & B & N); [by intros ->; cbn in Hq; lia|exact Hc|].
  exists b, c'. do 3 (split; [done|]). destruct b.
  - destruct N as (js & Hs & ->). rewrite H1. destruct (decide (length (r_words item) = 1%nat)) as [Hl|Hl].
    + destruct (r_words item) as [|w [|]] eqn:Ew; [done| |done]. apply (fits_word q item w); [exact Hq|exact Ew|].
      assert (w <> []) by (by apply (Forall_inv (wo_nonempty _ Hw))). pose proof Hs as [Ht ->]%splits_single; [exact Hs|by intros ->; cbn in Hq; lia|done].
    + apply fits_words; [exact Hq| |exact Hs]. pose proof (wo_some _ Hw). destruct (r_words item) as [|? [|]]; cbn in *; (done || lia).
  - intros n Hf. assert (false = true) as [=]. apply B. inversion Hf as [|w _ Ew Hs|js _ _ Hs]; [lia| |by exists js].
    rewrite Ew. by exists [0%nat].
Qed.
Lemma filter_item_ok q items item c : words_ok (r_words item) -> (1 < length q)%nat ->
  (length (r_words item) <= length (usedMap c))%nat /\ Forall (fun m => m = 0) (usedMap c) -> results_for q items (_result c) ->
  exists c', filter_item q item c = (Value tt, c') /\ usedMap c' = usedMap c /\ results_for q (items ++ [item]) (_result c').
Proof.
  intros Hw Hq Hc Hr. unfold filter_item. erewrite run_bind by reflexivity.
  destruct (fits_found q item (c <| usedCount := 1 |>)) as (b & c1 & E & R & U & F); [exact Hw|exact Hq|reflexivity|exact Hc|]. erewrite run_bind by exact E. destruct b; cbn [when].
  - erewrite run_bind by reflexivity. eexists. split; [reflexivity|]. split; [exact U|]. cbn [_result set]. apply add_result_ok; [exact F|]. rewrite R. exact Hr.
  - erewrite run_bind by reflexivity. eexists. split; [reflexivity|]. split; [exact U|]. cbn [_result set]. apply results_skip; [exact F|]. rewrite R. exact Hr.
Qed.
Lemma filter_items_ok q items : (1 < length q)%nat -> forall seen c, Forall (fun item => words_ok (r_words item) /\ (length (r_words item) <= length (usedMap c))%nat) items ->
  Forall (fun m => m = 0) (usedMap c) -> results_for q seen (_result c) ->
  exists c', iterate_list (filter_item q) items c = (Value tt, c') /\ results_for q (seen ++ items) (_result c').
Proof.
  intros Hq. induction items as [|item items IH]; intros seen c Hi Hz Hr; [exists c; rewrite app_nil_r; by split|].
  apply Forall_cons in Hi as [[Hw Hl] Hi]. cbn [iterate_list]. destruct (filter_item_ok q seen item c Hw Hq (conj Hl Hz) Hr) as (c1 & E & U & R).
  erewrite run_bind by exact E. destruct (IH (seen ++ [item]) c1) as (c' & E' & R'); [by rewrite U|by rewrite U|exact R|].
  exists c'. split; [exact E'|]. by rewrite <- app_assoc in R'.
Qed.
Lemma add_items_ok q items : (length q <= 1)%nat -> forall seen c, usedCount c = 1 -> results_for q seen (_result c) ->
  exists c', iterate_list (addResult q) items c = (Value tt, c') /\ results_for q (seen ++ items) (_result c').
Proof.
  intros Hq. induction items as [|item items IH]; intros seen c Hu Hr; [exists c; rewrite app_nil_r; by split|].
  cbn [iterate_list]. erewrite run_bind by reflexivity.
  destruct (IH (seen ++ [item]) (c <| _result := add_result q item (usedCount c) (_result c) |>)) as (c' & E & R); [exact Hu| |].
  { cbn [_result set]. rewrite Hu. apply add_result_ok; [by constructor|exact Hr]. }
  exists c'. split; [exact E|]. by rewrite <- app_assoc in R.
Qed.
(** The map is as long as the longest list of words. *)
Lemma longest_words items : forall m, let n := foldl (fun m item => if decide (m < length (r_words item))%nat then length (r_words item) else m) m items in
  (m <= n)%nat /\ Forall (fun item => (length (r_words item) <= n)%nat) items.
Proof.
  induction items as [|item items IH]; intros m; cbn [foldl]; [by split|]. specialize (IH (if decide (m < length (r_words item))%nat then length (r_words item) else m)) as [H1 H2].
  split; [|constructor; [|exact H2]]; case_decide; lia.
Qed.
Lemma results_nil q : results_for q [] [].
Proof. split; [|by intros i a b Ha]. exists [], []. split; [constructor|]. by split. Qed.
Lemma process_ok q items c : Forall (fun item => words_ok (r_words item)) items -> _result c = [] ->
  exists c', processInitialList q items c = (Value tt, c') /\ results_for q items (_result c').
Proof.
  intros Hi Hr. unfold processInitialList. case_decide as Hq.
  - erewrite run_bind by reflexivity. destruct (longest_words items 0) as [_ Hl].
    apply (filter_items_ok q items Hq [] (c <| usedMap := zeros _ |>)); cbn [usedMap _result set].
    + rewrite length_zeros. apply Forall_and. by split.
    + apply Forall_replicate. done.
    + rewrite Hr. apply results_nil.
  - erewrite run_bind by reflexivity. apply (add_items_ok q items ltac:(lia) []); [done|]. cbn [_result set]. rewrite Hr. apply results_nil.
Qed.

(** The tables after a query and the list of its first character. *)
Definition loaded (t : tables) (q : list Z) (g : globals) : globals :=
  if decide (q = [] \/ ReplacementsMap g <> ∅) then g else InitReplacements t g.
Definition candidates (q : list Z) (g : globals) : list Replacement :=
  if decide (q = []) then [] else default [] (ReplacementsMap g !! q.[0]).
Lemma run_replacements t g ch q : q <> [] -> GetReplacements t ch g = (Value (ReplacementsMap (loaded t q g) !! ch), loaded t q g).
Proof.
  intros Hq. unfold GetReplacements, loaded. erewrite run_bind by reflexivity. unfold gets.
  destruct (decide (ReplacementsMap g = ∅)) as [E|E]; [rewrite decide_False by tauto|rewrite decide_True by tauto]; done.
Qed.

(** C30: a query is answered, from whatever the tables hold, with the items of the list of
    its first character whose words cover it, each with a number of words that do:
    of every run of consecutive matches of the same emoji exactly one is kept, the
    first unless a later one of the run is better, so no emoji is repeated at once;
    every item that fits has a result for its emoji; the results are put in the
    order of their rank, the best first, and in the order of the table within a
    rank; the tables are loaded when a list is first needed. *)
Theorem suggestions_for_query (t : tables) (query : utf16string) (g : globals)
  (Hw : Forall (fun item => words_ok (r_words item)) (candidates (NormalizeQuery query) (loaded t (NormalizeQuery query) g))) :
  let q := NormalizeQuery query in let g' := loaded t q g in
  q = normal query /\
  exists kept results, GetSuggestions t query g = (Value (map suggest results), g') /\
    results_for q (candidates q g') kept /\
    Forall (fun r => replacement r ∈ candidates q g' /\ fits q (replacement r) (wordsUsed r)) results /\
    (forall item n, item ∈ candidates q g' -> fits q item n -> exists r, r ∈ results /\ r_emoji (replacement r) = r_emoji item) /\
    results ≡ₚ kept /\ StronglySorted (fun a b => (rank query q b <= rank query q a)%nat) results /\
    (forall k, filter (fun r => rank query q r = k) results = filter (fun r => rank query q r = k) kept).
Proof.
  intros q g'. split; [apply normalize_normal|].
  assert (exists kept, GetSuggestions t query g = (Value (map suggest (partition_all query q kept)), g') /\ results_for q (candidates q g') kept) as (kept & E & R).
  { unfold GetSuggestions, resolve. fold q. unfold candidates in *. fold q g' in Hw.
    destruct (decide (q = [])) as [Hq|Hq].
    { exists []. split; [unfold g', loaded; by rewrite decide_True by auto|apply results_nil]. }
    erewrite run_bind by (by apply run_replacements). fold g'. destruct (ReplacementsMap g' !! q.[0]) as [items|]; cbn [default from_option id] in *.
    - destruct (process_ok q items (Completer [] 0 []) Hw eq_refl) as (c & E & R). exists (_result c). split; [unfold complete; by rewrite E|exact R].
    - exists []. split; [done|apply results_nil]. }
  destruct (partitioned query q kept) as (Hp & Hs & Hk). exists kept, (partition_all query q kept). split; [exact E|]. split; [exact R|].
  split; [rewrite Hp; by apply results_sound|]. split; [|by split].
  intros item n Hi Hn. destruct (results_complete q _ kept item n R Hi Hn) as (r & Hr & Er). exists r. split; [by rewrite Hp|exact Er].
Qed.

(** ** Loading the tables *)

(** The arrays the generator writes for some items, for an index of them by character. *)
Definition lay_out (items : list Replacement) (index : list (Z * list nat)) : tables :=
  Tables (concat (map (fun i => r_emoji i ++ r_replacement i ++ concat (r_words i)) items))
    (map (fun i => (length (r_emoji i), length (r_replacement i), length (r_words i))) items)
    (concat (map (fun i => map length (r_words i)) items))
    (concat (map snd index)) (map (fun e => (e.1, length e.2)) index)
    (map (fun i => countChecksum (utf16_bytes (r_replacement i))) items).
Lemma take_words_ok words sizes data : take_words (length words) (map length words ++ sizes) (concat words ++ data) = (words, sizes, data).
Proof.
  induction words as [|w words IH]; [done|]. cbn [length take_words takeString map app nth concat]. unfold takeString.
  rewrite <- app_assoc, take_app_length, drop_app_length. cbn [drop]. by rewrite drop_0, IH.
Qed.
Lemma read_items_ok items :
  read_items (map (fun i => (length (r_emoji i), length (r_replacement i), length (r_words i))) items)
    (concat (map (fun i => map length (r_words i)) items)) (concat (map (fun i => r_emoji i ++ r_replacement i ++ concat (r_words i)) items)) = items.
Proof.
  induction items as [|i items IH]; [done|]. cbn [map concat read_items]. unfold takeString. rewrite <- !app_assoc, take_app_length, drop_app_length, take_app_length, drop_app_length.
  rewrite take_words_ok, IH. by destruct i.
Qed.
Lemma read_index_ok items index : forall m, NoDup (map fst index) ->
  let m' := read_index (map (fun e => (e.1, length e.2)) index) (concat (map snd index)) items m in
  (forall ch l, (ch, l) ∈ index -> m' !! ch = Some (map (fun i => nth i items no_replacement) l)) /\ (forall ch, ch ∉ map fst index -> m' !! ch = m !! ch).
Proof.
  induction index as [|[ch0 l0] index IH]; intros m Hd; [split; [by intros ch l ?%not_elem_of_nil|done]|].
  apply NoDup_cons in Hd as [Hn Hd]. cbn [map read_index concat fst snd]. rewrite take_app_length, drop_app_length.
  destruct (IH (<[ch0 := map (fun i => nth i items no_replacement) l0]> m) Hd) as [H1 H2]. split.
  - intros ch l [[= -> ->]|H]%elem_of_cons; [|by apply H1]. rewrite H2 by exact Hn. by rewrite lookup_insert_eq.
  - intros ch Hc. apply not_elem_of_cons in Hc as [Hne Hc]. rewrite H2 by exact Hc. by rewrite lookup_insert_ne.
Qed.
Lemma read_hash_ok (h : Replacement -> Z) items : forall m, NoDup (map h items) ->
  let m' := read_hash (map h items) items m in
  (forall item, item ∈ items -> m' !! h item = Some item) /\ (forall c, c ∉ map h items -> m' !! c = m !! c).
Proof.
  induction items as [|item items IH]; intros m Hd; [split; [by intros i ?%not_elem_of_nil|done]|].
  apply NoDup_cons in Hd as [Hn Hd]. cbn [map read_hash drop nth]. destruct (IH (<[h item := item]> m) Hd) as [H1 H2]. split.
  - intros i [->|H]%elem_of_cons; [|by apply H1]. rewrite H2 by exact Hn. by rewrite lookup_insert_eq.
  - intros c Hc. apply not_elem_of_cons in Hc as [Hne Hc]. rewrite H2 by exact Hc. by rewrite lookup_insert_ne.
Qed.

(** loading the arrays written for some items gives these items back, the list of
    every character of the index and, when no two checksums collide, the emoji of
    every replacement; loading again changes nothing. *)
Theorem tables_loaded (items : list Replacement) (index : list (Z * list nat)) (Hi : items <> [])
  (Hx : NoDup (map fst index)) (Hc : NoDup (ReplacementChecksums (lay_out items index))) :
  let g := InitReplacements (lay_out items index) no_globals in
  Replacements g = items /\
  (forall ch l, (ch, l) ∈ index -> ReplacementsMap g !! ch = Some (map (fun i => nth i items no_replacement) l)) /\
  (forall ch, ch ∉ map fst index -> ReplacementsMap g !! ch = None) /\
  (forall item, item ∈ items -> GetReplacementEmoji (r_replacement item) g = r_emoji item) /\
  (forall r, countChecksum (utf16_bytes r) ∉ ReplacementChecksums (lay_out items index) -> GetReplacementEmoji r g = []) /\
  InitReplacements (lay_out items index) g = g.
Proof.
  intros g. assert (g = Globals items (read_index (ReplacementIndexData (lay_out items index)) (ReplacementIndices (lay_out items index)) items ∅)
    (read_hash (ReplacementChecksums (lay_out items index)) items ∅)) as ->.
  { unfold g, InitReplacements. rewrite decide_False by (by intros H). cbn [no_globals Replacements ReplacementsMap ReplacementsHash lay_out ReplacementData ReplacementInitData ReplacementWordLengths].
    by rewrite read_items_ok. }
  cbn [Replacements ReplacementsMap lay_out ReplacementIndexData ReplacementIndices ReplacementChecksums] in *.
  destruct (read_index_ok items index ∅ Hx) as [X1 X2]. destruct (read_hash_ok (fun i => countChecksum (utf16_bytes (r_replacement i))) items ∅ Hc) as [H1 H2].
  split; [done|]. split; [exact X1|]. split; [intros ch Hch; rewrite X2 by exact Hch; apply lookup_empty|]. unfold GetReplacementEmoji. cbn [ReplacementsHash].
  split; [intros item H; by rewrite H1|]. split; [intros r Hr; rewrite H2 by exact Hr; by rewrite lookup_empty|].
  unfold InitReplacements. by rewrite decide_True by exact Hi.
Qed.

Definition demo_items : list Replacement :=
  [mkReplacement [0xD83E; 0xDD23] (str ":rofl:") [str "floor"; str "laughing"; str "rofl"]; mkReplacement [0x2691] (str ":waving_flag:") [str "flag"; str "waving"];
   mkReplacement [0x2691] (str ":flag:") [str "flag"]].
Definition demo_index : list (Z * list nat) := [(102, [0; 1; 2]%nat); (108, [0]%nat); (114, [0]%nat)].
Lemma suggestions_for_query_witness :
  let t := lay_out demo_items demo_index in
  Forall (fun item => words_ok (r_words item)) (candidates (NormalizeQuery (str ":fl")) (loaded t (NormalizeQuery (str ":fl")) no_globals)) /\
  exists results, GetSuggestions t (str ":fl") no_globals = (Value (map suggest results), InitReplacements t no_globals) /\
    map s_replacement (map suggest results) = [str ":flag:"; str ":rofl:"].
Proof.
  intros t. assert (Forall (fun item => words_ok (r_words item)) (candidates (NormalizeQuery (str ":fl")) (loaded t (NormalizeQuery (str ":fl")) no_globals))) as Hw.
  { change (Forall (fun item => words_ok (r_words item)) demo_items). repeat (apply Forall_cons; split; [by apply words_check|]). constructor. }
  split; [exact Hw|]. destruct (suggestions_for_query t (str ":fl") no_globals Hw) as (_ & kept & results & E & _). exists results. split; [exact E|].
  apply (f_equal fst) in E. injection E as <-. vm_compute. reflexivity.
Defined.
Lemma tables_loaded_witness :
  NoDup (map fst demo_index) /\ NoDup (ReplacementChecksums (lay_out demo_items demo_index)) /\
  GetReplacementEmoji (str ":rofl:") (InitReplacements (lay_out demo_items demo_index) no_globals) = [0xD83E; 0xDD23].
Proof.
  assert (NoDup (map fst demo_index)) as Hx by (apply (bool_decide_unpack _); vm_compute; exact I).
  assert (NoDup (ReplacementChecksums (lay_out demo_items demo_index))) as Hc by (apply (bool_decide_unpack _); vm_compute; exact I).
  split; [exact Hx|]. split; [exact Hc|]. 
  destruct (tables_loaded demo_items demo_index ltac:(discriminate) Hx Hc) as (_ & _ & _ & H & _). apply (H (mkReplacement [0xD83E; 0xDD23] (str ":rofl:") [str "floor"; str "laughing"; str "rofl"])). left.
Defined.
