(* ===== verification/VoipSocket.v ===== *)
(** * libtgvoip: sockets

    [src/submodules/libtgvoip/NetworkSocket.h], the sockets of
    [os/posix/NetworkSocketPosix.cpp] and the obfuscated TCP connection of
    [NetworkSocket.cpp]. The system calls are scripts of results. What one socket
    promises to another is the class [Socket]; a connection that delivers a stream
    of bytes satisfies [StreamSocket]. A [uint32_t] address holds the bytes of the
    address in the order of the memory of a little-endian machine. *)

From S2P Require Import Prelude Exn VoipBuffers Double.

(** ** Addresses and packets *)

Inductive NetworkProtocol := PROTO_UDP | PROTO_TCP.
#[export] Instance NetworkProtocol_eq_dec : EqDecision NetworkProtocol.
Proof. solve_decision. Defined.
Inductive NetworkAddress := IPv4Address (address : Z) | IPv6Address (address : list Z).
#[export] Instance NetworkAddress_eq_dec : EqDecision NetworkAddress.
Proof. solve_decision. Defined.
(** The overloaded [==]. *)
Definition same_address (self other : NetworkAddress) : bool :=
  match self, other with
  | IPv4Address a, IPv4Address b => a =? b
  | IPv6Address a, IPv6Address b => bool_decide (take 16 a = take 16 b)
  | _, _ => false
  end.
Definition IsEmpty (self : NetworkAddress) : bool :=
  match self with
  | IPv4Address a => a =? 0
  | IPv6Address a => (le_val (slice a 0 8) =? 0) && (le_val (slice a 8 8) =? 0)
  end.

(** [pk_data] is the buffer [data] points to, of which [pk_length] bytes count. *)
Record NetworkPacket := Packet { pk_data : list Z; pk_length : nat; pk_address : option NetworkAddress; pk_port : Z; pk_protocol : NetworkProtocol }.
#[export] Instance packet_eta : Eta NetworkPacket := fun p => Packet (pk_data p) (pk_length p) (pk_address p) (pk_port p) (pk_protocol p).
(** [NetworkPacket pkt={0}] over a buffer. *)
Definition plain (buffer : list Z) (len : nat) : NetworkPacket := Packet buffer len None 0 PROTO_UDP.

(** The virtual methods of [NetworkSocket]. *)
Class Socket (W : Type) := {
  sk_send : NetworkPacket -> M W unit;
  sk_receive : NetworkPacket -> M W NetworkPacket;
  sk_connect : NetworkAddress -> Z -> M W unit;
  sk_close : M W unit;
  sk_timeouts : Z -> Z -> M W unit;
  sk_failed : W -> bool;
  sk_address : W -> option NetworkAddress;
  sk_port : W -> Z
}.
Section plain.
Context {W : Type} `{Socket W}.
(** The overloads over a buffer: [Receive] returns the length, and the buffer. *)
Definition send_bytes (buffer : list Z) : M W unit := sk_send (plain buffer (length buffer)).
Definition receive_bytes (buffer : list Z) (len : nat) : M W (list Z * nat) :=
  p ← sk_receive (plain buffer len); mret (pk_data p, pk_length p).
End plain.

(** Run a writer on a stream, and keep what it wrote; run a reader on some bytes. *)
Definition written_on {W} (o : out_stream) (m : M out_stream unit) : M W (list Z) := fun w =>
  match m o with (Value _, o) => (Value (written o), w) | (Thrown, _) => (Thrown, w) | (Aborted, _) => (Aborted, w) end.
Definition read_from {W A} (bytes : list Z) (m : M in_stream A) : M W A := fun w => ((m (new_input bytes)).1, w).

(** ** The system *)

Inductive send_result := Sent (n : nat) | Unreachable | SendFailed.
Inductive addrinfo := AF_INET (address : Z) | AF_INET6 (address : list Z).
Record datagram := Datagram { d_address : list Z; d_port : Z; d_data : list Z }.

(** What the calls will return, in order, what has been sent, and the clock. An
    exhausted script of sends takes everything; of receives, fails. *)
Record kernel := Kernel {
  k_chunks : list (list Z); k_datagrams : list (option datagram); k_sends : list send_result;
  k_resolved : list (option (list addrinfo)); k_sockets : list bool; k_options : list bool; k_binds : list bool; k_connects : list bool;
  k_rand : list Z; k_now : double;
  k_stream : list Z; k_sent : list datagram; k_timeouts : Z * Z
}.
#[export] Instance kernel_eta : Eta kernel := fun k => Kernel (k_chunks k) (k_datagrams k) (k_sends k) (k_resolved k) (k_sockets k) (k_options k) (k_binds k)
  (k_connects k) (k_rand k) (k_now k) (k_stream k) (k_sent k) (k_timeouts k).
Record posix := Posix {
  kern : kernel; px_protocol : NetworkProtocol; px_fd : Z; px_failed : bool; closing : bool;
  needUpdateNat64Prefix : bool; nat64Present : bool; nat64Prefix : list Z; switchToV6at : double; isV4Available : bool; ipv6Timeout : double;
  tcpConnectedAddress : option NetworkAddress; tcpConnectedPort : Z; px_local : Z
}.
#[export] Instance posix_eta : Eta posix := fun p => Posix (kern p) (px_protocol p) (px_fd p) (px_failed p) (closing p)
  (needUpdateNat64Prefix p) (nat64Present p) (nat64Prefix p) (switchToV6at p) (isV4Available p) (ipv6Timeout p)
  (tcpConnectedAddress p) (tcpConnectedPort p) (px_local p).

(** [NetworkSocket::Create]; [timeout] is the configured [nat64_fallback_timeout]. *)
Definition new_posix (protocol : NetworkProtocol) (timeout : double) (k : kernel) : posix :=
  Posix k protocol (-1) false false true false (zeros 12) d0 false timeout None 0 0.

(** The next result of a script; [dflt] when it is exhausted. *)
Definition next {A} (script : kernel -> list A) (tail : list A -> kernel -> kernel) (dflt : A) : M posix A := fun p =>
  match script (kern p) with
  | [] => (Value dflt, p)
  | x :: rest => (Value x, p <| kern := tail rest (kern p) |>)
  end.
Definition fail_posix : M posix unit := modify (fun p => p <| px_failed := true |>).

(** ** [NetworkSocketPosix] *)

Definition MIN_UDP_PORT : Z := 16384.
Definition MAX_UDP_PORT : Z := 32768.
Definition GenerateLocalPort (rand : Z) : Z := u16 (Z.rem rand (MAX_UDP_PORT - MIN_UDP_PORT) + MIN_UDP_PORT).
Definition IN6_IS_ADDR_V4MAPPED (a : list Z) : bool := bool_decide (slice a 0 12 = zeros 10 ++ [0xFF; 0xFF]).

(** The loop over the addresses of [ipv4only.arpa]: the first of each kind. *)
Definition arpa_step (found : option (list Z) * option (list Z)) (a : addrinfo) : option (list Z) * option (list Z) :=
  match a with
  | AF_INET _ => found
  | AF_INET6 s6 =>
      let v4part := le_val (slice s6 12 4) in
      let '(addr170, addr171) := found in
      (if decide (v4part = 0xAA0000C0) then match addr170 with None => Some s6 | _ => addr170 end else addr170,
       if decide (v4part = 0xAB0000C0) then match addr171 with None => Some s6 | _ => addr171 end else addr171)
  end.
Definition find_prefix (l : list addrinfo) : option (list Z) :=
  match foldl arpa_step (None, None) l with
  | (Some addr170, Some addr171) => if decide (slice addr170 0 12 = slice addr171 0 12) then Some (slice addr170 0 12) else None
  | _ => None
  end.
Definition update_prefix : M posix unit :=
  modify (fun p => p <| nat64Present := false |>) ;;
  res ← next k_resolved (fun l k => k <| k_resolved := l |>) None;
  match res with
  | None => mret tt
  | Some l =>
      match find_prefix l with
      | Some prefix => modify (fun p => p <| nat64Present := true |> <| nat64Prefix := prefix |>)
      | None => mret tt
      end
  end ;;
  modify (fun p => p <| needUpdateNat64Prefix := false |>).
(** An IPv4 address in a socket address of IPv6. *)
Definition map_v4 (p : posix) (address : Z) : list Z :=
  (if nat64Present p then nat64Prefix p else zeros 10 ++ [0xFF; 0xFF]) ++ le_bytes 4 address.
Definition socket_address (a : NetworkAddress) : M posix (list Z) :=
  match a with
  | IPv4Address v4 =>
      p ← get;
      when (needUpdateNat64Prefix p && negb (isV4Available p) && dltb (switchToV6at p) (k_now (kern p)) && negb (deqb (switchToV6at p) d0)) update_prefix ;;
      gets (fun p => map_v4 p v4)
  | IPv6Address v6 => mret v6
  end.
Definition after_send (res : send_result) : M posix unit :=
  match res with
  | Unreachable => modify (fun p => if negb (isV4Available p) && dltb (k_now (kern p)) (switchToV6at p) then p <| switchToV6at := k_now (kern p) |> else p)
  | _ => mret tt
  end.
Definition next_send (len : nat) : M posix send_result := next k_sends (fun l k => k <| k_sends := l |>) (Sent len).
Definition Send (packet : NetworkPacket) : M posix unit :=
  protocol ← gets px_protocol;
  let bytes := take (pk_length packet) (pk_data packet) in
  match protocol, pk_address packet with
  | PROTO_UDP, None => mret tt
  | PROTO_UDP, Some a =>
      addr ← socket_address a;
      res ← next_send (length bytes);
      match res with
      | Sent _ => modify (fun p => p <| kern := (kern p) <| k_sent := k_sent (kern p) ++ [Datagram addr (pk_port packet) bytes] |> |>)
      | _ => mret tt
      end ;;
      after_send res
  | PROTO_TCP, _ =>
      res ← next_send (length bytes);
      match res with
      | Sent n => modify (fun p => p <| kern := (kern p) <| k_stream := k_stream (kern p) ++ take n bytes |> |>)
      | _ => mret tt
      end ;;
      after_send res
  end.

(** [recv] takes no more than [len] bytes; what is left of a segment stays. *)
Definition recv (len : nat) : M posix (list Z) := fun p =>
  match k_chunks (kern p) with
  | [] => (Value [], p)
  | chunk :: rest =>
      (Value (take len chunk),
       p <| kern := (kern p) <| k_chunks := if decide (length chunk <= len)%nat then rest else drop len chunk :: rest |> |>)
  end.
Definition from_address (p : posix) (a : list Z) : NetworkAddress :=
  if IN6_IS_ADDR_V4MAPPED a || (nat64Present p && bool_decide (take 12 (nat64Prefix p) = slice a 0 12)) then IPv4Address (le_val (slice a 12 4)) else IPv6Address a.
Definition Receive (packet : NetworkPacket) : M posix NetworkPacket :=
  protocol ← gets px_protocol;
  match protocol with
  | PROTO_UDP =>
      res ← next k_datagrams (fun l k => k <| k_datagrams := l |>) None;
      match res with
      | None => mret (packet <| pk_length := 0%nat |>)
      | Some d =>
          let bytes := take (pk_length packet) (d_data d) in
          if decide (length bytes = 0%nat) then mret (packet <| pk_length := 0%nat |>) else
          modify (fun p => if negb (isV4Available p) && IN6_IS_ADDR_V4MAPPED (d_address d) then p <| isV4Available := true |> else p) ;;
          p ← get;
          mret (Packet (store (pk_data packet) 0 bytes) (length bytes) (Some (from_address p (d_address d))) (d_port d) PROTO_UDP)
      end
  | PROTO_TCP =>
      res ← recv (pk_length packet);
      if decide (length res = 0%nat) then fail_posix ;; mret packet else
      p ← get;
      mret (Packet (store (pk_data packet) 0 res) (length res) (tcpConnectedAddress p) (tcpConnectedPort p) PROTO_TCP)
  end.

(** The attempts to bind to a random port; [None] when ten have failed. *)
Fixpoint try_bind (tries : nat) : M posix (option Z) :=
  match tries with
  | O => mret None
  | S tries =>
      r ← next k_rand (fun l k => k <| k_rand := l |>) 0;
      ok ← next k_binds (fun l k => k <| k_binds := l |>) true;
      if ok : bool then mret (Some (GenerateLocalPort r)) else try_bind tries
  end.
Definition OnActiveInterfaceChanged : M posix unit :=
  modify (fun p => p <| needUpdateNat64Prefix := true |> <| isV4Available := false |> <| switchToV6at := dadd (k_now (kern p)) (ipv6Timeout p) |>).
(** [any] is the port the system picks for port 0. *)
Definition Open (any : Z) : M posix unit :=
  protocol ← gets px_protocol;
  if decide (protocol <> PROTO_UDP) then mret tt else
  ok ← next k_sockets (fun l k => k <| k_sockets := l |>) true;
  modify (fun p => p <| px_fd := if ok : bool then 3 else -1 |>) ;;
  if negb ok then fail_posix else
  set_ok ← next k_options (fun l k => k <| k_options := l |>) true;
  if negb set_ok then fail_posix else
  bound ← try_bind 10;
  bound ← match bound with
          | Some port => mret (Some port)
          | None => res ← next k_binds (fun l k => k <| k_binds := l |>) true; mret (if res : bool then Some any else None)
          end;
  match bound with
  | None => fail_posix
  | Some port => modify (fun p => p <| px_local := port |>) ;; OnActiveInterfaceChanged
  end.
Definition Close : M posix unit := modify (fun p => p <| closing := true |> <| px_failed := true |> <| px_fd := -1 |>).
Definition SetTimeouts (sendTimeout recvTimeout : Z) : M posix unit :=
  modify (fun p => p <| kern := (kern p) <| k_timeouts := (sendTimeout, recvTimeout) |> |>).
(** The descriptor of a connection that fails is closed and kept. *)
Definition Connect (address : NetworkAddress) (port : Z) : M posix unit :=
  ok ← next k_sockets (fun l k => k <| k_sockets := l |>) true;
  modify (fun p => p <| px_fd := if ok : bool then 3 else -1 |>) ;;
  if negb ok then fail_posix else
  SetTimeouts 5 60 ;;
  res ← next k_connects (fun l k => k <| k_connects := l |>) true;
  if negb res then fail_posix else
  modify (fun p => p <| tcpConnectedAddress := Some address |> <| tcpConnectedPort := port |>).
(** The first IPv4 address of the list. *)
Definition ResolveDomainName (res : option (list addrinfo)) : option NetworkAddress :=
  match res with
  | None => None
  | Some l => foldr (fun a found => match a with AF_INET v4 => Some (IPv4Address v4) | AF_INET6 _ => found end) None l
  end.

#[export] Instance posix_socket : Socket posix := {
  sk_send := Send; sk_receive := Receive; sk_connect := Connect; sk_close := Close; sk_timeouts := SetTimeouts;
  sk_failed := px_failed; sk_address := tcpConnectedAddress; sk_port := tcpConnectedPort
}.

(** [Select]: [cancelled] and the sets are what [select] reports. A socket is its
    descriptor and whether it has failed. *)
Definition Select (cancelled : bool) (readable erroneous : list Z) (readFds errorFds : list (Z * bool)) : bool * list (Z * bool) * list (Z * bool) :=
  let anyFailed := existsb (fun s => negb (fst s =? 0) && snd s) errorFds in
  if cancelled && negb anyFailed then (false, readFds, errorFds) else
  let readable := if anyFailed then [] else readable in
  let erroneous := if anyFailed then [] else erroneous in
  let readFds := filter (fun s => fst s <> 0 /\ fst s ∈ readable) readFds in
  let errorFds := filter (fun s => (fst s <> 0 /\ fst s ∈ erroneous) \/ snd s = true) errorFds in
  (bool_decide (0 < length readFds)%nat || bool_decide (0 < length errorFds)%nat, readFds, errorFds).

(** ** [NetworkSocketTCPObfuscated] *)

Record TCPO2State := mkTCPO2State { key : list Z; iv : list Z; ecount : list Z; num : Z }.
(** [memset] and the copies of a key and an initialisation vector. *)
Definition fresh_state (key iv : list Z) : TCPO2State := mkTCPO2State key iv (zeros 16) 0.

(** AES in counter mode, which the application supplies: from a fresh state it adds
    a stream that depends on the key and the initialisation vector, and goes on
    where it stopped. *)
Class CtrFunctions := {
  aes_ctr_encrypt : list Z -> TCPO2State -> list Z * TCPO2State;
  keystream : list Z -> list Z -> nat -> Z;
  ctr_at : list Z -> list Z -> nat -> TCPO2State -> Prop;
  ctr_fresh k v : ctr_at k v 0 (fresh_state k v);
  ctr_bytes k v n s buf : ctr_at k v n s -> (aes_ctr_encrypt buf s).1 = zip_with Z.lxor buf (map (keystream k v) (seq n (length buf)));
  ctr_next k v n s buf : ctr_at k v n s -> ctr_at k v (n + length buf) (aes_ctr_encrypt buf s).2
}.
Record obfuscated (W : Type) := Obfuscated { wrapped : W; recvState : TCPO2State; sendState : TCPO2State }.
Arguments Obfuscated {W}.
Arguments wrapped {W}.
Arguments recvState {W}.
Arguments sendState {W}.

(** A nonce that looks like another protocol. *)
Definition refused (nonce : list Z) : bool :=
  let first := le_val (slice nonce 0 4) in let second := le_val (slice nonce 4 4) in
  bool_decide (first ∈ [0x44414548; 0x54534f50; 0x20544547; 0x20544547; 0xeeeeeeee]) || (second =? 0) || (nonce.[0] =? 0xef).
(** The loop over what [rand_bytes] returns. *)
Fixpoint draw_nonce (draws : list (list Z)) : option (list Z) :=
  match draws with
  | [] => None
  | nonce :: draws => if refused nonce then draw_nonce draws else Some nonce
  end.

Section obfuscated.
Context `{CtrFunctions}.

Definition EncryptForTCPO2 (buffer : list Z) (s : TCPO2State) : list Z * TCPO2State := aes_ctr_encrypt buffer s.
(** The 64 bytes to send and the states to receive and to send with. *)
Definition GenerateTCPO2States (nonce : list Z) : list Z * TCPO2State * TCPO2State :=
  let sendState := fresh_state (slice nonce 8 32) (slice nonce 40 16) in
  let reversed := reverse (slice nonce 8 48) in
  let recvState := fresh_state (slice reversed 0 32) (slice reversed 32 16) in
  let nonce := store nonce 56 [0xef; 0xef; 0xef; 0xef] in
  let '(encrypted, sendState) := EncryptForTCPO2 nonce sendState in
  (take 56 nonce ++ slice encrypted 56 8, recvState, sendState).

Context {W : Type} `{Socket W}.
Definition inner {A} (m : M W A) : M (obfuscated W) A := zoom wrapped (fun w o => Obfuscated w (recvState o) (sendState o)) m.
Definition encrypt_out (buffer : list Z) : M (obfuscated W) (list Z) := fun o =>
  let '(b, s) := EncryptForTCPO2 buffer (sendState o) in (Value b, Obfuscated (wrapped o) (recvState o) s).
Definition decrypt_in (buffer : list Z) : M (obfuscated W) (list Z) := fun o =>
  let '(b, s) := EncryptForTCPO2 buffer (recvState o) in (Value b, Obfuscated (wrapped o) s (sendState o)).

(** Without an acceptable nonce the loop does not end. *)
Definition ob_init (draws : list (list Z)) : M (obfuscated W) unit :=
  match draw_nonce draws with
  | None => abort
  | Some nonce =>
      let '(buf, r, s) := GenerateTCPO2States nonce in
      modify (fun o => Obfuscated (wrapped o) r s) ;;
      inner (send_bytes buf)
  end.
(** The length in words of four bytes, in one byte or four. *)
Definition write_packet (packet : NetworkPacket) : M out_stream unit :=
  let len := Z.of_nat (pk_length packet) / 4 in
  (if decide (len < 0x7F) then WriteByte (u8 len)
   else WriteByte 0x7F ;; WriteByte (u8 (Z.land len 0xFF)) ;; WriteByte (u8 (Z.land (Z.shiftr len 8) 0xFF)) ;; WriteByte (u8 (Z.land (Z.shiftr len 16) 0xFF))) ;;
  WriteBytes (take (pk_length packet) (pk_data packet)).
Definition ob_send (packet : NetworkPacket) : M (obfuscated W) unit :=
  os ← written_on (new_output (pk_length packet + 4)) (write_packet packet);
  os ← encrypt_out os;
  inner (send_bytes os).
(** The loop that fills the packet. It takes at least one byte per turn from a socket
    that works, and a socket that fails claims all of them. *)
Fixpoint fill (fuel : nat) (data : list Z) (offset packetLen : nat) : M (obfuscated W) (list Z) :=
  if decide (offset < packetLen)%nat then
    match fuel with
    | O => abort
    | S fuel =>
        '(part, len) ← inner (receive_bytes (drop offset data) (packetLen - offset));
        fill fuel (take offset data ++ part) (offset + len) packetLen
    end
  else mret data.
(** The length of the packet that comes; [stack] is what [len1] and [len2] held
    before. *)
Definition read_length (stack : list Z) : M (obfuscated W) Z :=
  '(len1, _) ← inner (receive_bytes (slice stack 0 1) 1);
  len1 ← decrypt_in len1;
  if decide (len1.[0] < 0x7F) then mret (len1.[0] * 4)
  else
    '(len2, _) ← inner (receive_bytes (slice stack 1 3) 3);
    len2 ← decrypt_in len2;
    mret (Z.lor (Z.lor len2.[0] (Z.shiftl len2.[1] 8)) (Z.shiftl len2.[2] 16) * 4).
Definition ob_receive (stack : list Z) (packet : NetworkPacket) : M (obfuscated W) NetworkPacket :=
  packetLen ← read_length stack;
  let packetLen := Z.to_nat packetLen in
  if decide (pk_length packet < packetLen)%nat then mret (packet <| pk_length := 0%nat |>) else
  data ← fill packetLen (pk_data packet) 0 packetLen;
  payload ← decrypt_in (take packetLen data);
  o ← get;
  mret (Packet (store data 0 payload) packetLen (sk_address (wrapped o)) (sk_port (wrapped o)) PROTO_TCP).
End obfuscated.
#[export] Instance obfuscated_socket `{CtrFunctions} (stack : list Z) {W} `{Socket W} : Socket (obfuscated W) := {
  sk_send := ob_send; sk_receive := ob_receive stack; sk_connect := fun _ _ => mret tt; sk_close := inner sk_close; sk_timeouts := fun _ _ => mret tt;
  sk_failed := fun o => sk_failed (wrapped o); sk_address := fun _ => None; sk_port := fun _ => 0
}.

(** ** Streams of bytes *)

(** A connection that delivers: [inbox] are the bytes to come, [cuts] the lengths of the
    pieces they come in, [outbox] the bytes sent. *)
Class StreamSocket (W : Type) `{Socket W} := {
  st_ok : W -> Prop; inbox : W -> list Z; cuts : W -> list nat; outbox : W -> list Z;
  st_alive w : st_ok w -> inbox w <> [] -> (0 < hd 0 (cuts w))%nat;
  st_works w : st_ok w -> sk_failed w = false;
  st_timeouts w x y : st_ok w -> exists w', sk_timeouts x y w = (Value tt, w') /\ st_ok w' /\ outbox w' = outbox w /\ inbox w' = inbox w /\ cuts w' = cuts w;
  st_send w p : st_ok w -> (pk_length p <= length (pk_data p))%nat -> exists w', sk_send p w = (Value tt, w') /\
    st_ok w' /\ outbox w' = outbox w ++ take (pk_length p) (pk_data p) /\ inbox w' = inbox w /\ cuts w' = cuts w;
  st_receive w p : st_ok w -> (0 < pk_length p <= length (pk_data p))%nat -> inbox w <> [] -> exists p' w', sk_receive p w = (Value p', w') /\
    let n := Nat.min (pk_length p) (hd 0%nat (cuts w)) in
    st_ok w' /\ outbox w' = outbox w /\ (n <= length (inbox w))%nat /\ inbox w' = drop n (inbox w) /\
    cuts w' = (if decide (n < hd 0 (cuts w))%nat then (hd 0 (cuts w) - n)%nat :: tail (cuts w) else tail (cuts w)) /\
    pk_data p' = store (pk_data p) 0 (take n (inbox w)) /\ pk_length p' = n
}.
(** What comes at once. *)
Definition available {W} `{StreamSocket W} (w : W) : nat := hd 0%nat (cuts w).

(** A TCP connection of the system that works: segments are not empty, and whatever
    is sent is taken. *)
Definition tcp_ok (p : posix) : Prop := px_protocol p = PROTO_TCP /\ Forall (fun c => c <> []) (k_chunks (kern p)) /\ k_sends (kern p) = [] /\ px_failed p = false.
Definition tcp_cuts (p : posix) : list nat := map length (k_chunks (kern p)).
Lemma tcp_send p packet : tcp_ok p -> exists p', Send packet p = (Value tt, p') /\
  tcp_ok p' /\ k_stream (kern p') = k_stream (kern p) ++ take (pk_length packet) (pk_data packet) /\ k_chunks (kern p') = k_chunks (kern p).
Proof.
  intros (Hp & Hc & Hs & Hf). unfold Send. erewrite run_bind by reflexivity. rewrite Hp. unfold next_send, next. unfold mbind at 1, M_bind at 1. rewrite Hs.
  erewrite run_bind by reflexivity. eexists. split; [reflexivity|]. unfold tcp_ok. cbn [kern px_protocol px_failed k_chunks k_sends k_stream set]. split; [done|].
  split; [|done]. f_equal. apply take_ge. lia.
Qed.
Lemma tcp_receive p packet c rest : tcp_ok p -> k_chunks (kern p) = c :: rest -> (0 < pk_length packet)%nat ->
  let n := Nat.min (pk_length packet) (length c) in
  exists p', Receive packet p = (Value (Packet (store (pk_data packet) 0 (take n c)) n (tcpConnectedAddress p) (tcpConnectedPort p) PROTO_TCP), p') /\
  tcp_ok p' /\ k_stream (kern p') = k_stream (kern p) /\ k_chunks (kern p') = if decide (length c <= pk_length packet)%nat then rest else drop n c :: rest.
Proof.
  intros (Hp & Hc & Hs & Hf) E Hl n. unfold Receive. erewrite run_bind by reflexivity. rewrite Hp.
  rewrite E in Hc. apply Forall_cons in Hc as [Hne Hc]. assert (0 < length c)%nat by (destruct c; [done|cbn; lia]).
  assert (take (pk_length packet) c = take n c) as Ht by (unfold n; by rewrite <- take_take, (take_ge c (length c)) by lia).
  assert (length (take n c) = n) as Hn by (rewrite length_take; lia).
  unfold recv. unfold mbind at 1, M_bind at 1. rewrite E, Ht, decide_False by lia. erewrite run_bind by reflexivity. rewrite Hn.
  eexists. split; [reflexivity|]. unfold tcp_ok. cbn [kern px_protocol px_failed k_chunks k_sends k_stream set]. case_decide as Hd.
  - by repeat split.
  - split; [split; [done|]; split; [|done]|split; [done|]]; [apply Forall_cons; split; [|done]|by replace n with (pk_length packet) by lia].
    intros D. apply (f_equal length) in D. rewrite length_drop in D. cbn in D. lia.
Qed.
#[export] Program Instance posix_stream : StreamSocket posix := {
  st_ok := tcp_ok; inbox := fun p => concat (k_chunks (kern p)); cuts := tcp_cuts; outbox := fun p => k_stream (kern p)
}.
Next Obligation.
  intros p (_ & Hc & _) Hi. cbn in *. unfold tcp_cuts. destruct (k_chunks (kern p)) as [|c l]; [done|]. apply Forall_cons in Hc as [Hc _]. destruct c; [done|cbn; lia].
Qed.
Next Obligation. by intros p (_ & _ & _ & Hf). Qed.
Next Obligation. intros p x y Hp. eexists. split; [reflexivity|]. by split. Qed.
Next Obligation.
  intros p packet Hp _. destruct (tcp_send p packet Hp) as (p' & E & H1 & H2 & H3). exists p'. unfold tcp_cuts. rewrite H3. done.
Qed.
Next Obligation.
  intros p packet Hp Hl Hi. cbn in *. destruct (k_chunks (kern p)) as [|c rest] eqn:Ec; [done|].
  destruct (tcp_receive p packet c rest Hp Ec ltac:(lia)) as (p' & E & H1 & H2 & H3). eexists _, p'. split; [exact E|]. unfold tcp_cuts. rewrite Ec.
  cbn [concat pk_data pk_length map hd tail]. set (n := Nat.min (pk_length packet) (length c)) in *.
  assert (take n (c ++ concat rest) = take n c) as -> by (apply take_app_le; lia). rewrite length_app. split; [exact H1|]. split; [exact H2|]. split; [lia|].
  rewrite H3. split; [|split; [|done]].
  - rewrite drop_app_le by lia. case_decide; [|done]. by rewrite drop_ge by lia.
  - destruct (decide (length c <= pk_length packet)%nat), (decide (n < length c)%nat); try lia; [done|]. cbn [map]. by rewrite length_drop.
Qed.

(** ** The obfuscated stream *)

(** The bytes [l] under the key stream, from position [n] on. *)
Definition masked `{CtrFunctions} (k v : list Z) (n : nat) (l : list Z) : list Z := zip_with Z.lxor l (map (keystream k v) (seq n (length l))).
(** A packet on the wire. *)
Definition frame_bytes (payload : list Z) : list Z :=
  let len := Z.of_nat (length payload) / 4 in (if decide (len < 0x7F) then [len] else 0x7F :: le_bytes 3 len) ++ payload.

Section stream.
Context `{CtrFunctions}.

Lemma length_masked k v n l : length (masked k v n l) = length l.
Proof. unfold masked. rewrite length_zip_with, length_map, length_seq. lia. Qed.
Lemma zip_with_app_eq (f : Z -> Z -> Z) a b c d : length a = length c -> zip_with f (a ++ b) (c ++ d) = zip_with f a c ++ zip_with f b d.
Proof. revert c. induction a as [|x a IH]; intros [|y c] Hl; try done. cbn. f_equal. apply IH. cbn in Hl. lia. Qed.
Lemma masked_app k v n a b : masked k v n (a ++ b) = masked k v n a ++ masked k v (n + length a) b.
Proof.
  unfold masked. rewrite length_app, seq_app, map_app. apply zip_with_app_eq. by rewrite length_map, length_seq.
Qed.
Lemma masked_masked k v n l : masked k v n (masked k v n l) = l.
Proof.
  unfold masked at 1. rewrite length_masked. unfold masked. generalize (seq n (length l)) as ns, (length_seq (length l) n). 
  induction l as [|x l IH]; intros [|m ns] Hl; try done. cbn in *. f_equal; [|apply IH; lia].
  by rewrite Z.lxor_assoc, Z.lxor_nilpotent, Z.lxor_0_r.
Qed.
Lemma crypt k v n s buf : ctr_at k v n s -> exists s', EncryptForTCPO2 buf s = (masked k v n buf, s') /\ ctr_at k v (n + length buf) s'.
Proof.
  intros Hs. pose proof (ctr_bytes k v n s buf Hs) as E. pose proof (ctr_next k v n s buf Hs) as N. unfold EncryptForTCPO2.
  destruct (aes_ctr_encrypt buf s) as [b s']. exists s'. cbn in *. by rewrite E.
Qed.
Lemma length_frame_bytes payload : length (frame_bytes payload) = (length payload + if decide (Z.of_nat (length payload) / 4 < 0x7F)%Z then 1 else 4)%nat.
Proof. unfold frame_bytes. rewrite length_app. case_decide; cbn [length le_bytes]; lia. Qed.
(** The writer of [Send] writes the frame. *)
Lemma write_packet_frame packet : (pk_length packet <= length (pk_data packet))%nat -> Z.of_nat (length (pk_data packet)) < 2 ^ 24 ->
  exists o, write_packet packet (new_output (pk_length packet + 4)) = (Value tt, o) /\ written o = frame_bytes (take (pk_length packet) (pk_data packet)).
Proof.
  intros Hl Hs. apply writes_new. unfold write_packet, frame_bytes. rewrite length_take, Nat.min_l by exact Hl.
  set (len := Z.of_nat (pk_length packet) / 4). assert (0 <= len < 2 ^ 22) as Hlen by (unfold len; lia).
  apply writes_bind; [|apply writes_bytes]. case_decide as Hd.
  - rewrite <- (u8_id len) at 2 by (unfold is_byte; lia). apply writes_byte.
  - change (0x7F :: le_bytes 3 len) with ([0x7F] ++ [u8 len] ++ [u8 (Z.shiftr len 8)] ++ [u8 (Z.shiftr (Z.shiftr len 8) 8)]).
    rewrite shiftr_shiftr8 by lia. assert (forall x, u8 (Z.land x 0xFF) = u8 x) as Hu by (intros x; apply u8_id, u8_is_byte). rewrite !Hu.
    change (Z.land len 0xFF) with (u8 len). repeat (apply writes_bind; [apply writes_byte|]). apply writes_byte.
Qed.

Context {W : Type} `{StreamSocket W}.
Lemma run_inner {A} (m : M W A) (o : obfuscated W) a w : m (wrapped o) = (Value a, w) -> inner m o = (Value a, Obfuscated w (recvState o) (sendState o)).
Proof. intros E. unfold inner, zoom. by rewrite E. Qed.

(** Sending appends the frame of the packet to the stream, under the key stream. *)
Lemma ob_send_ok k v n o packet : st_ok (wrapped o) -> ctr_at k v n (sendState o) ->
  (pk_length packet <= length (pk_data packet))%nat -> Z.of_nat (length (pk_data packet)) < 2 ^ 24 ->
  let bytes := frame_bytes (take (pk_length packet) (pk_data packet)) in
  exists o', ob_send packet o = (Value tt, o') /\ st_ok (wrapped o') /\ ctr_at k v (n + length bytes) (sendState o') /\ recvState o' = recvState o /\
    outbox (wrapped o') = outbox (wrapped o) ++ masked k v n bytes /\ inbox (wrapped o') = inbox (wrapped o) /\ cuts (wrapped o') = cuts (wrapped o).
Proof.
  intros Hw Hs Hl Hb bytes. unfold ob_send. destruct (write_packet_frame packet Hl Hb) as (os & Ew & Eo). fold bytes in Eo.
  erewrite run_bind by (unfold written_on; rewrite Ew; reflexivity). rewrite Eo. destruct (crypt k v n (sendState o) bytes Hs) as (s' & Ec & Hs').
  erewrite run_bind by (unfold encrypt_out; rewrite Ec; reflexivity).
  destruct (st_send (wrapped o) (plain (masked k v n bytes) (length (masked k v n bytes))) Hw) as (w' & E & A1 & A2 & A3 & A4); [cbn; lia|].
  exists (Obfuscated w' (recvState o) s'). split; [exact (run_inner _ (Obfuscated (wrapped o) (recvState o) s') tt w' E)|]. cbn [wrapped recvState sendState]. split; [exact A1|]. split; [exact Hs'|]. split; [done|].
  split; [|by split]. rewrite A2. cbn [plain pk_length pk_data]. by rewrite take_ge by lia.
Qed.

(** Receiving some bytes of the stream. *)
Lemma receive_bytes_ok o buffer len : st_ok (wrapped o) -> inbox (wrapped o) <> [] -> (0 < len <= length buffer)%nat ->
  let n := Nat.min len (available (wrapped o)) in
  exists o', inner (receive_bytes buffer len) o = (Value (store buffer 0 (take n (inbox (wrapped o))), n), o') /\
    st_ok (wrapped o') /\ inbox (wrapped o') = drop n (inbox (wrapped o)) /\ (n <= length (inbox (wrapped o)))%nat /\ (0 < n)%nat /\
    ((n < available (wrapped o))%nat -> available (wrapped o') = (available (wrapped o) - n)%nat) /\
    recvState o' = recvState o /\ sendState o' = sendState o /\ outbox (wrapped o') = outbox (wrapped o).
Proof.
  intros Hw Hi Hl n. destruct (st_receive (wrapped o) (plain buffer len) Hw Hl Hi) as (p' & w' & E & A1 & A2 & A3 & A4 & A5 & A6 & A7).
  cbn [plain pk_length pk_data] in *. fold (available (wrapped o)) in A3, A4, A5, A6, A7. fold n in A3, A4, A5, A6, A7. exists (Obfuscated w' (recvState o) (sendState o)). split.
  - apply run_inner. unfold receive_bytes. erewrite run_bind by exact E. by rewrite A6, A7.
  - cbn [wrapped recvState sendState]. pose proof (st_alive _ Hw Hi). unfold available in *. do 3 (split; [done|]). split; [lia|]. split; [|done].
    intros Hlt. by rewrite A5, decide_True.
Qed.
(** The loop puts the next bytes of the stream where they belong, however they come. *)
Lemma fill_ok body rest : forall fuel o data offset, st_ok (wrapped o) -> inbox (wrapped o) = body ++ rest ->
  (length body <= fuel)%nat -> (offset + length body <= length data)%nat ->
  exists o', fill fuel data offset (offset + length body) o = (Value (store data offset body), o') /\
    st_ok (wrapped o') /\ inbox (wrapped o') = rest /\ recvState o' = recvState o /\ sendState o' = sendState o /\ outbox (wrapped o') = outbox (wrapped o).
Proof.
  intros fuel. revert body. induction fuel as [|fuel IH]; intros body o data offset Hw Hi Hf Hd; cbn [fill].
  - destruct body; [|cbn in Hf; lia]. rewrite decide_False by (cbn; lia). exists o. unfold store. cbn [length app]. rewrite Nat.add_0_r, take_drop. by rewrite Hi.
  - destruct (decide (offset < offset + length body)%nat) as [Hb|Hb].
    2: { destruct body; [|cbn in Hb; lia]. exists o. unfold store. cbn [length app]. rewrite Nat.add_0_r, take_drop. by rewrite Hi. }
    assert (inbox (wrapped o) <> []) as Hne by (rewrite Hi; destruct body; [cbn in Hb; lia|done]).
    destruct (receive_bytes_ok o (drop offset data) (offset + length body - offset) Hw Hne) as (o1 & E & A1 & A2 & A3 & A4 & A5 & A6 & A7 & A8); [rewrite length_drop; lia|].
    set (n := Nat.min _ _) in *. assert (n <= length body)%nat as Hn by (unfold n; lia). erewrite run_bind by exact E.
    assert (take n (inbox (wrapped o)) = take n body) as -> by (rewrite Hi; by apply take_app_le). rewrite Hi, drop_app_le in A2 by exact Hn.
    assert (take offset data ++ store (drop offset data) 0 (take n body) = store data offset (take n body)) as ->.
    { unfold store. cbn [take app Nat.add]. by rewrite drop_drop. }
    assert (length (take n body) = n) as Ht by (rewrite length_take; lia). assert (length body = n + length (drop n body))%nat as Hlen by (rewrite length_drop; lia).
    destruct (IH (drop n body) o1 (store data offset (take n body)) (offset + n)%nat A1 A2) as (o' & F & B1 & B2 & B3 & B4 & B5); [lia|rewrite length_store; lia|].
    exists o'. rewrite Hlen, Nat.add_assoc, F. split; [|repeat split; congruence].
    rewrite <- Ht at 2. rewrite store_store by lia. by rewrite take_drop.
Qed.

(** Receiving exactly [l], masked, and unmasking it. *)
Lemma receive_masked k v n o buffer l rest : st_ok (wrapped o) -> ctr_at k v n (recvState o) -> l <> [] -> length buffer = length l ->
  inbox (wrapped o) = masked k v n l ++ rest -> (length l <= available (wrapped o))%nat ->
  exists o1 o', inner (receive_bytes buffer (length l)) o = (Value (masked k v n l, length l), o1) /\ decrypt_in (masked k v n l) o1 = (Value l, o') /\
    st_ok (wrapped o') /\ ctr_at k v (n + length l) (recvState o') /\ inbox (wrapped o') = rest /\ sendState o' = sendState o /\ outbox (wrapped o') = outbox (wrapped o) /\
    ((length l < available (wrapped o))%nat -> available (wrapped o') = (available (wrapped o) - length l)%nat).
Proof.
  intros Hw Hr Hl Hb Hi Ha. assert (0 < length l)%nat as Hpos by (destruct l; [done|cbn; lia]). pose proof (length_masked k v n l) as Hm.
  destruct (receive_bytes_ok o buffer (length l) Hw) as (o1 & E & A1 & A2 & A3 & A4 & A5 & A6 & A7 & A8).
  { rewrite Hi. intros D%(f_equal length). rewrite length_app in D. cbn in D. lia. }
  { lia. }
  rewrite Nat.min_l in E, A2, A5 by lia. rewrite Hi in E, A2. rewrite take_app_length' in E by done. rewrite drop_app_length' in A2 by done.
  rewrite store_all in E by lia. destruct (crypt k v n (recvState o1) (masked k v n l)) as (s' & Ec & Hs'); [by rewrite A6|]. rewrite masked_masked in Ec. rewrite Hm in Hs'.
  exists o1, (Obfuscated (wrapped o1) s' (sendState o1)). split; [exact E|]. split; [unfold decrypt_in; by rewrite Ec|]. cbn [wrapped recvState sendState]. done.
Qed.
(** What [ob_receive] does once it knows the length. *)
Lemma receive_body k v n o packet payload rest : st_ok (wrapped o) -> ctr_at k v n (recvState o) -> inbox (wrapped o) = masked k v n payload ++ rest ->
  (length payload <= length (pk_data packet))%nat ->
  exists o1 o', fill (length payload) (pk_data packet) 0 (length payload) o = (Value (store (pk_data packet) 0 (masked k v n payload)), o1) /\
    decrypt_in (take (length payload) (store (pk_data packet) 0 (masked k v n payload))) o1 = (Value payload, o') /\
    st_ok (wrapped o') /\ ctr_at k v (n + length payload) (recvState o') /\ inbox (wrapped o') = rest /\ sendState o' = sendState o /\ outbox (wrapped o') = outbox (wrapped o).
Proof.
  intros Hw Hr Hi Hl. pose proof (length_masked k v n payload) as Hm.
  destruct (fill_ok (masked k v n payload) rest (length payload) o (pk_data packet) 0 Hw Hi) as (o1 & E & A1 & A2 & A3 & A4 & A5); [lia|lia|].
  rewrite Hm in E. cbn [Nat.add] in E. rewrite (take_store (pk_data packet) 0 (masked k v n payload) (length payload)) by lia. rewrite take_0. cbn [app].
  destruct (crypt k v n (recvState o1) (masked k v n payload)) as (s' & Ec & Hs'); [by rewrite A3|]. rewrite masked_masked in Ec. rewrite Hm in Hs'.
  exists o1, (Obfuscated (wrapped o1) s' (sendState o1)). split; [exact E|]. split; [unfold decrypt_in; by rewrite Ec|]. cbn [wrapped recvState sendState]. done.
Qed.
Lemma store_twice l a b : length a = length b -> (length a <= length l)%nat -> store (store l 0 a) 0 b = store l 0 b.
Proof. intros Hab Hl. unfold store. rewrite !take_0, !Nat.add_0_l. cbn [app]. f_equal. rewrite <- Hab. by rewrite drop_app_length. Qed.

(** The length in front of a packet. *)
Definition length_bytes (len : Z) : list Z := if decide (len < 0x7F) then [len] else 0x7F :: le_bytes 3 len.
Lemma le_val_3 l : wf_bytes l -> length l = 3%nat -> Z.lor (Z.lor l.[0] (Z.shiftl l.[1] 8)) (Z.shiftl l.[2] 16) = le_val l.
Proof.
  intros Hl H3. destruct l as [|b0 [|b1 [|b2 [|]]]]; try done. apply Forall_cons in Hl as [? Hl]. apply Forall_cons in Hl as [? Hl].
  change ([b0; b1; b2].[0]) with b0. change ([b0; b1; b2].[1]) with b1. change ([b0; b1; b2].[2]) with b2. rewrite (le_val_1 b0) at 1. rewrite !or_snoc by (first [reflexivity | wf]). done.
Qed.
Lemma read_length_ok stack k v n o len rest : st_ok (wrapped o) -> ctr_at k v n (recvState o) -> length stack = 4%nat -> 0 <= len < 2 ^ 22 ->
  inbox (wrapped o) = masked k v n (length_bytes len) ++ rest -> (len < 0x7F \/ (4 <= available (wrapped o))%nat) ->
  exists o', read_length stack o = (Value (len * 4), o') /\ st_ok (wrapped o') /\ ctr_at k v (n + length (length_bytes len)) (recvState o') /\ inbox (wrapped o') = rest /\
    sendState o' = sendState o /\ outbox (wrapped o') = outbox (wrapped o).
Proof.
  intros Hw Hr Hst Hlen Hi Hav. assert (0 < available (wrapped o))%nat as Hav0.
  { apply st_alive; [exact Hw|]. rewrite Hi. intros D%(f_equal length). rewrite length_app, length_masked in D. unfold length_bytes in D. case_decide; cbn in D; lia. }
  unfold read_length, length_bytes in *. destruct (decide (len < 127)) as [Hd|Hd].
  - destruct (receive_masked k v n o (slice stack 0 1) [len] rest Hw Hr) as (o1 & o2 & E1 & E2 & B1 & B2 & B3 & B4 & B5 & _);
      [done|by rewrite length_slice by lia|exact Hi|cbn; lia|].
    erewrite run_bind by exact E1. cbv beta iota. erewrite run_bind by exact E2. change ([len].[0]) with len. rewrite decide_True by exact Hd. by exists o2.
  - change (127 :: le_bytes 3 len) with ([127] ++ le_bytes 3 len) in *. rewrite masked_app, <- app_assoc in Hi.
    destruct (receive_masked k v n o (slice stack 0 1) [127] _ Hw Hr ltac:(done) ltac:(by rewrite length_slice by lia) Hi) as (o1 & o2 & E1 & E2 & B1 & B2 & B3 & B4 & B5 & B6); [cbn; lia|].
    destruct (receive_masked k v (n + 1) o2 (slice stack 1 3) (le_bytes 3 len) _ B1 B2 ltac:(done) ltac:(by rewrite length_slice by lia) B3) as (o2' & o3 & F1 & F2 & C1 & C2 & C3 & C4 & C5 & _);
      [rewrite B6; cbn [length le_bytes] in *; lia|].
    erewrite run_bind by exact E1. cbv beta iota. erewrite run_bind by exact E2. change ([127].[0]) with 127. rewrite decide_False by lia.
    erewrite run_bind by exact F1. cbv beta iota. erewrite run_bind by exact F2. exists o3. split; [|split; [exact C1|split; [rewrite length_app, Nat.add_assoc; exact C2|split; [done|split; congruence]]]].
    unfold mret, M_ret. rewrite le_val_3; [|apply le_bytes_wf|apply length_le_bytes]. by rewrite le_val_le_bytes, Z.mod_small by lia.
Qed.

Lemma ob_receive_ok stack k v n o packet payload rest : st_ok (wrapped o) -> ctr_at k v n (recvState o) -> length stack = 4%nat ->
  inbox (wrapped o) = masked k v n (frame_bytes payload) ++ rest -> (length payload mod 4 = 0)%nat -> Z.of_nat (length payload) < 2 ^ 24 ->
  (length payload <= pk_length packet <= length (pk_data packet))%nat -> (Z.of_nat (length payload) / 4 < 0x7F \/ (4 <= available (wrapped o))%nat) ->
  exists p o', ob_receive stack packet o = (Value p, o') /\
    pk_data p = store (pk_data packet) 0 payload /\ pk_length p = length payload /\ pk_protocol p = PROTO_TCP /\
    st_ok (wrapped o') /\ ctr_at k v (n + length (frame_bytes payload)) (recvState o') /\ inbox (wrapped o') = rest /\
    sendState o' = sendState o /\ outbox (wrapped o') = outbox (wrapped o).
Proof.
  intros Hw Hr Hst Hi H4 Hbig Hfit Hav. apply (f_equal Z.of_nat) in H4. rewrite Nat2Z.inj_mod in H4. set (len := Z.of_nat (length payload) / 4) in *.
  assert (0 <= len < 2 ^ 22 /\ Z.to_nat (len * 4) = length payload) as [Hlen Hp] by (unfold len; lia).
  change (frame_bytes payload) with (length_bytes len ++ payload) in *. rewrite masked_app, <- app_assoc in Hi.
  destruct (read_length_ok stack k v n o len _ Hw Hr Hst Hlen Hi Hav) as (o1 & E1 & B1 & B2 & B3 & B4 & B5). unfold ob_receive. erewrite run_bind by exact E1.
  cbv zeta. rewrite Hp, decide_False by lia.
  destruct (receive_body k v _ o1 packet payload rest B1 B2 B3) as (o2 & o3 & E2 & E3 & C1 & C2 & C3 & C4 & C5); [lia|].
  erewrite run_bind by exact E2. erewrite run_bind by exact E3. erewrite run_bind by reflexivity. eexists _, o3. split; [reflexivity|]. cbn [pk_data pk_length pk_protocol].
  rewrite store_twice by (rewrite length_masked; lia). rewrite length_app, Nat.add_assoc. do 4 (split; [done|]). split; [done|]. split; [done|]. split; congruence.
Qed.
End stream.

(** Sending a list of packets, and receiving some number of them into a buffer. *)
Definition send_all `{CtrFunctions} {W} `{Socket W} (payloads : list (list Z)) : M (obfuscated W) unit :=
  iterate_list (fun l => ob_send (plain l (length l))) payloads.
Fixpoint receive_all `{CtrFunctions} {W} `{Socket W} (stack buffer : list Z) (n : nat) : M (obfuscated W) (list (list Z)) :=
  match n with
  | O => mret []
  | S n =>
      p ← ob_receive stack (plain buffer (length buffer));
      rest ← receive_all stack buffer n;
      mret (take (pk_length p) (pk_data p) :: rest)
  end.

Section streams.
Context `{CtrFunctions} {W V : Type} `{StreamSocket W} `{StreamSocket V}.

(** A packet a frame can carry, in a buffer of that size. *)
Definition carried (size : nat) (l : list Z) : Prop := (length l mod 4 = 0)%nat /\ Z.of_nat (length l) < 2 ^ 24 /\ (length l <= size)%nat.
Lemma send_all_ok k v payloads : forall n (o : obfuscated W), st_ok (wrapped o) -> ctr_at k v n (sendState o) -> Forall (fun l => Z.of_nat (length l) < 2 ^ 24) payloads ->
  exists o', send_all payloads o = (Value tt, o') /\ st_ok (wrapped o') /\ outbox (wrapped o') = outbox (wrapped o) ++ masked k v n (concat (map frame_bytes payloads)) /\
    ctr_at k v (n + length (concat (map frame_bytes payloads))) (sendState o') /\ recvState o' = recvState o.
Proof.
  induction payloads as [|l payloads IH]; intros n o Hw Hs Hl.
  { exists o. cbn. rewrite app_nil_r, Nat.add_0_r. done. }
  apply Forall_cons in Hl as [Hb Hl]. unfold send_all. cbn [iterate_list]. destruct (ob_send_ok k v n o (plain l (length l)) Hw Hs) as (o1 & E & A1 & A2 & A3 & A4 & _ & _); [cbn; lia|exact Hb|].
  cbn [plain pk_length pk_data] in *. rewrite take_ge in * by lia. erewrite run_bind by exact E. destruct (IH _ o1 A1 A2 Hl) as (o' & F & B1 & B2 & B3 & B4).
  exists o'. split; [exact F|]. split; [exact B1|]. cbn [map concat]. rewrite masked_app, app_assoc, length_app, Nat.add_assoc, B2, A4. split; [done|]. split; [exact B3|congruence].
Qed.
Lemma receives_ok stack buffer k v payloads : length stack = 4%nat -> forall n (o : obfuscated V) rest, st_ok (wrapped o) -> ctr_at k v n (recvState o) ->
  Forall (carried (length buffer)) payloads -> Forall (fun l => Z.of_nat (length l) / 4 < 0x7F) payloads ->
  inbox (wrapped o) = masked k v n (concat (map frame_bytes payloads)) ++ rest ->
  exists o', receive_all stack buffer (length payloads) o = (Value payloads, o') /\ st_ok (wrapped o') /\ inbox (wrapped o') = rest /\
    ctr_at k v (n + length (concat (map frame_bytes payloads))) (recvState o') /\ sendState o' = sendState o.
Proof.
  intros Hst. induction payloads as [|l payloads IH]; intros n o rest Hw Hr Hc Hsm Hi.
  { exists o. cbn in *. rewrite Nat.add_0_r. done. }
  apply Forall_cons in Hc as [(H4 & Hb & Hfit) Hc]. apply Forall_cons in Hsm as [Hl Hsm]. cbn [length receive_all map concat] in *. rewrite masked_app, <- app_assoc in Hi.
  destruct (ob_receive_ok stack k v n o (plain buffer (length buffer)) l _ Hw Hr Hst Hi H4 Hb) as (p & o1 & E & D1 & D2 & _ & A1 & A2 & A3 & A4 & _); [cbn; lia|by left|].
  erewrite run_bind by exact E. destruct (IH _ o1 rest A1 A2 Hc Hsm A3) as (o' & F & B1 & B2 & B3 & B4). erewrite run_bind by exact F.
  exists o'. rewrite length_app, Nat.add_assoc. split; [|split; [exact B1|split; [exact B2|split; [exact B3|congruence]]]].
  rewrite D1, D2, (take_store _ 0 l) by (cbn; lia). by rewrite take_0.
Qed.

(** C32: packets sent through an obfuscated connection arrive at the other end one by one and
    unchanged, however the network cuts the stream, when they are whole words and
    shorter than 508 bytes; a longer one does when the four bytes of its length are
    not cut. *)
Theorem obfuscated_stream (k v : list Z) (n : nat) (stack buffer : list Z) (payloads : list (list Z)) (a : obfuscated W) (b : obfuscated V)
  (Ha : st_ok (wrapped a) /\ ctr_at k v n (sendState a)) (Hb : st_ok (wrapped b) /\ ctr_at k v n (recvState b))
  (Hs : length stack = 4%nat) (Hp : Forall (carried (length buffer)) payloads) :
  exists bytes a', send_all payloads a = (Value tt, a') /\ st_ok (wrapped a') /\ outbox (wrapped a') = outbox (wrapped a) ++ bytes /\
    forall rest, inbox (wrapped b) = bytes ++ rest ->
      Forall (fun l => Z.of_nat (length l) / 4 < 0x7F) payloads \/ (length payloads = 1%nat /\ (4 <= available (wrapped b))%nat) ->
      exists b', receive_all stack buffer (length payloads) b = (Value payloads, b') /\ st_ok (wrapped b') /\ inbox (wrapped b') = rest /\
        exists m, ctr_at k v m (sendState a') /\ ctr_at k v m (recvState b').
Proof.
  destruct Ha as [Ha1 Ha2], Hb as [Hb1 Hb2]. destruct (send_all_ok k v payloads n a Ha1 Ha2) as (a' & E & A1 & A2 & A3 & _); [eapply Forall_impl; [exact Hp|]; by intros l (_ & ? & _)|].
  exists (masked k v n (concat (map frame_bytes payloads))), a'. do 3 (split; [done|]). intros rest Hi [Hsm|[Hone Hav]].
  - destruct (receives_ok stack buffer k v payloads Hs n b rest Hb1 Hb2 Hp Hsm Hi) as (b' & F & B1 & B2 & B3 & _). exists b'. do 3 (split; [done|]). by eexists.
  - destruct payloads as [|l [|]]; try done. apply Forall_cons in Hp as [(H4 & Hb & Hfit) _]. cbn [map concat length receive_all] in *. rewrite app_nil_r in *.
    destruct (ob_receive_ok stack k v n b (plain buffer (length buffer)) l rest Hb1 Hb2 Hs Hi H4 Hb) as (p & b' & F & D1 & D2 & _ & B1 & B2 & B3 & _ & _); [cbn; lia|by right|].
    erewrite run_bind by exact F. erewrite run_bind by reflexivity. exists b'. split; [|split; [exact B1|split; [exact B3|by eexists]]].
    rewrite D1, D2, (take_store _ 0 l) by (cbn; lia). by rewrite take_0.
Qed.
End streams.

(** ** Opening a connection *)

Section opening.
Context `{CtrFunctions} {W : Type} `{StreamSocket W}.

Lemma draw_first draws nonce rest : Forall (fun d => refused d = true) draws -> refused nonce = false -> draw_nonce (draws ++ nonce :: rest) = Some nonce.
Proof. induction 1 as [|d draws Hd _ IH]; intros Hn; cbn [app draw_nonce]; [by rewrite Hn|]. rewrite Hd. by apply IH. Qed.
Lemma slice_all (l : list Z) n : length l = n -> slice l 0 n = l.
Proof. intros <-. unfold slice. by rewrite drop_0, take_ge. Qed.
(** A byte string of 64 in the parts the code cuts it into. *)
Lemma nonce_parts (nonce : list Z) : length nonce = 64%nat -> exists a b c d e, nonce = a ++ b ++ c ++ d ++ e /\
  length a = 8%nat /\ length b = 16%nat /\ length c = 16%nat /\ length d = 16%nat /\ length e = 8%nat.
Proof.
  intros Hn. exists (slice nonce 0 8), (slice nonce 8 16), (slice nonce 24 16), (slice nonce 40 16), (slice nonce 56 8).
  split; [|by rewrite !length_slice by lia]. rewrite <- (slice_all nonce 64 Hn) at 1. change 64%nat with (8 + (16 + (16 + (16 + 8))))%nat. by rewrite !slice_split.
Qed.
(** The 64 bytes, with [k] and [v] the key and vector to send with: their last eight
    are the protocol and the end of the nonce, masked. *)
Lemma generate_ok nonce : length nonce = 64%nat ->
  let k := slice nonce 8 32 in let v := slice nonce 40 16 in
  exists s, GenerateTCPO2States nonce =
    (take 56 nonce ++ masked k v 56 ([0xef; 0xef; 0xef; 0xef] ++ drop 60 nonce), fresh_state (reverse (slice nonce 24 32)) (reverse (slice nonce 8 16)), s) /\ ctr_at k v 64 s.
Proof.
  intros Hn k v. unfold GenerateTCPO2States. fold k v. set (nonce' := store nonce 56 [239; 239; 239; 239]).
  assert (length nonce' = 64%nat) as Hn' by (unfold nonce'; rewrite length_store by (cbn; lia); exact Hn).
  assert (nonce' = take 56 nonce ++ [239; 239; 239; 239] ++ drop 60 nonce) as En by done.
  destruct (crypt k v 0 (fresh_state k v) nonce' (ctr_fresh k v)) as (s & Ec & Hs). rewrite Ec. exists s. rewrite Hn' in Hs. split; [|exact Hs]. f_equal. f_equal.
  - rewrite En, masked_app. rewrite take_app_length' by (rewrite length_take; lia). f_equal. unfold slice.
    rewrite drop_app_length' by (rewrite length_masked, length_take; lia). rewrite length_take, Nat.min_l by lia. apply take_ge. rewrite length_masked, length_app, length_drop. cbn [length]. lia.
  - change 48%nat with (16 + 32)%nat. rewrite slice_split, reverse_app. change (8 + 16)%nat with 24%nat. unfold slice at 1 4.
    rewrite drop_0, take_app_length', drop_app_length' by (rewrite length_reverse, length_slice; lia). f_equal. apply take_ge. rewrite length_reverse, length_slice; lia.
Qed.

(** Opening sends 64 bytes that hold the keys of both directions. *)
Lemma opens_ok (o : obfuscated W) (before after : list (list Z)) (nonce : list Z) (Hw : st_ok (wrapped o))
  (Hb : Forall (fun d => refused d = true) before) (Hn : refused nonce = false) (Hl : length nonce = 64%nat) :
  exists hdr o', ob_init (before ++ nonce :: after) o = (Value tt, o') /\ st_ok (wrapped o') /\ outbox (wrapped o') = outbox (wrapped o) ++ hdr /\
    length hdr = 64%nat /\ refused hdr = false /\
    let k := slice hdr 8 32 in let v := slice hdr 40 16 in
    slice (masked k v 0 hdr) 56 4 = [0xef; 0xef; 0xef; 0xef] /\ ctr_at k v 64 (sendState o') /\
    ctr_at (reverse (slice hdr 24 32)) (reverse (slice hdr 8 16)) 0 (recvState o').
Proof.
  unfold ob_init. rewrite draw_first by done. destruct (generate_ok nonce Hl) as (s & E & Hs). rewrite E. erewrite run_bind by reflexivity.
  set (k := slice nonce 8 32) in *. set (v := slice nonce 40 16) in *. set (tail := masked k v 56 _). set (hdr := take 56 nonce ++ tail).
  assert (length tail = 8%nat) as Ht by (unfold tail; rewrite length_masked, length_app, length_drop; cbn [length]; lia).
  assert (forall i m, (i + m <= 56)%nat -> slice hdr i m = slice nonce i m) as Hsl.
  { intros i m Him. rewrite <- (take_drop 56 nonce). unfold hdr. rewrite !slice_app_l by (rewrite length_take; lia). done. }
  destruct (st_send (wrapped o) (plain hdr (length hdr)) Hw) as (w' & Es & A1 & A2 & A3 & A4); [cbn; lia|]. cbn [plain pk_length pk_data] in A2. rewrite take_ge in A2 by lia.
  exists hdr, (Obfuscated w' (fresh_state (reverse (slice nonce 24 32)) (reverse (slice nonce 8 16))) s).
  split; [exact (run_inner _ (Obfuscated (wrapped o) _ s) tt w' Es)|]. cbn [wrapped sendState recvState]. split; [exact A1|]. split; [exact A2|].
  split; [unfold hdr; rewrite length_app, length_take; lia|]. split.
  { rewrite <- Hn. unfold refused. rewrite !Hsl by lia. do 2 f_equal. unfold hdr. rewrite ix_app_l by (rewrite length_take; lia). by rewrite ix_take by lia. }
  rewrite !Hsl by lia. fold k v. split; [|split; [exact Hs|apply ctr_fresh]].
  unfold hdr. rewrite masked_app. unfold slice. rewrite drop_app_length' by (rewrite length_masked, length_take; lia). rewrite length_take, Nat.min_l by lia.
  unfold tail. rewrite masked_masked. reflexivity.
Qed.

(** opening sends 64 bytes of the first nonce that does not look like another
    protocol. Whoever has them has both keys: reading them with the key and vector in
    bytes 8 to 56 gives the tag [ef ef ef ef] at byte 56 and leaves both ends at the
    same position; the other direction uses those bytes in reverse. *)
Theorem obfuscation_opens (o : obfuscated W) (before after : list (list Z)) (nonce : list Z) (Hw : st_ok (wrapped o))
  (Hb : Forall (fun d => refused d = true) before) (Hn : refused nonce = false) (Hl : length nonce = 64%nat) :
  exists hdr o', ob_init (before ++ nonce :: after) o = (Value tt, o') /\ st_ok (wrapped o') /\ outbox (wrapped o') = outbox (wrapped o) ++ hdr /\
    length hdr = 64%nat /\ refused hdr = false /\
    let k := slice hdr 8 32 in let v := slice hdr 40 16 in
    slice (masked k v 0 hdr) 56 4 = [0xef; 0xef; 0xef; 0xef] /\ ctr_at k v 64 (sendState o') /\
    ctr_at (reverse (slice hdr 24 32)) (reverse (slice hdr 8 16)) 0 (recvState o').
Proof. exact (opens_ok o before after nonce Hw Hb Hn Hl). Qed.

(** The receiving end of the same connection fails. *)
Lemma dead_receive p buffer len : px_protocol p = PROTO_TCP -> k_chunks (kern p) = [] ->
  receive_bytes buffer len p = (Value (buffer, len), p <| px_failed := true |>).
Proof.
  intros Hp Hc. unfold receive_bytes. cbn [sk_receive posix_socket]. assert (Receive (plain buffer len) p = (Value (plain buffer len), p <| px_failed := true |>)) as E.
  { unfold Receive. erewrite run_bind by reflexivity. rewrite Hp. unfold recv. unfold mbind at 1, M_bind at 1. rewrite Hc. reflexivity. }
  erewrite run_bind by exact E. reflexivity.
Qed.
End opening.

(** C33: on a connection that has failed [Receive] still returns a packet, as long as what
    the stack held decrypts to and with the contents of the buffer for data; only
    [IsFailed] tells. *)
Theorem dead_connection `{CtrFunctions} (stack : list Z) (packet : NetworkPacket) (o : obfuscated posix)
  (Hp : px_protocol (wrapped o) = PROTO_TCP /\ k_chunks (kern (wrapped o)) = [])
  (Hl : let x := (aes_ctr_encrypt (slice stack 0 1) (recvState o)).1.[0] in 0 < x < 0x7F /\ (4 * Z.to_nat x <= pk_length packet <= length (pk_data packet))%nat) :
  exists p o', ob_receive stack packet o = (Value p, o') /\ px_failed (wrapped o') = true /\
    pk_length p = (4 * Z.to_nat (aes_ctr_encrypt (slice stack 0 1) (recvState o)).1.[0])%nat /\ pk_address p = tcpConnectedAddress (wrapped o).
Proof.
  destruct Hp as [Hp Hc]. unfold ob_receive. destruct (aes_ctr_encrypt (slice stack 0 1) (recvState o)) as [l s] eqn:Ea. cbn [fst] in Hl |- *. destruct Hl as [Hx Hfit].
  set (w1 := (wrapped o) <| px_failed := true |>).
  assert (inner (receive_bytes (slice stack 0 1) 1) o = (Value (slice stack 0 1, 1%nat), Obfuscated w1 (recvState o) (sendState o))) as E1
    by (apply run_inner; by apply dead_receive).
  set (o2 := Obfuscated w1 s (sendState o)).
  assert (read_length stack o = (Value (l.[0] * 4), o2)) as E2.
  { unfold read_length. erewrite run_bind by exact E1. cbv beta iota. erewrite run_bind by (unfold decrypt_in, EncryptForTCPO2; cbn [recvState]; rewrite Ea; reflexivity).
    by rewrite decide_True by lia. }
  erewrite run_bind by exact E2. cbv zeta. replace (Z.to_nat (l.[0] * 4)) with (4 * Z.to_nat l.[0])%nat by lia. set (n := (4 * Z.to_nat l.[0])%nat) in *.
  rewrite decide_False by lia.
  assert (fill n (pk_data packet) 0 n o2 = (Value (pk_data packet), o2)) as E3.
  { assert (exists m, n = S m) as [m Em] by (exists (n - 1)%nat; lia). rewrite Em at 1. cbn [fill]. rewrite decide_True by lia.
    erewrite run_bind by (apply run_inner; by apply dead_receive). cbv beta iota. rewrite take_0, drop_0. cbn [app Nat.add]. rewrite Nat.sub_0_r.
    destruct m; cbn [fill]; by rewrite decide_False by lia. }
  erewrite run_bind by exact E3. destruct (EncryptForTCPO2 (take n (pk_data packet)) (recvState o2)) as [b s'] eqn:Eb.
  erewrite run_bind by (unfold decrypt_in; rewrite Eb; reflexivity).
  erewrite run_bind by reflexivity. eexists _, _. split; [reflexivity|]. done.
Qed.

(** A counter mode with a key stream simple enough to compute, and connections over
    it. *)
Definition toy_stream (k v : list Z) (n : nat) : Z := u8 (k.[n mod 32] + 3 * v.[n mod 16] + Z.of_nat n).
Definition toy_at (k v : list Z) (n : nat) (s : TCPO2State) : Prop := key s = k /\ iv s = v /\ num s = Z.of_nat n.
Definition toy_encrypt (buf : list Z) (s : TCPO2State) : list Z * TCPO2State :=
  (zip_with Z.lxor buf (map (toy_stream (key s) (iv s)) (seq (Z.to_nat (num s)) (length buf))),
   mkTCPO2State (key s) (iv s) (ecount s) (num s + Z.of_nat (length buf))).
#[export, program] Instance toy_ctr : CtrFunctions := {
  aes_ctr_encrypt := toy_encrypt; keystream := toy_stream; ctr_at := toy_at
}.
Next Obligation. done. Qed.
Next Obligation. intros k v n s buf (<- & <- & E). unfold toy_encrypt. by rewrite E, Nat2Z.id. Qed.
Next Obligation. intros k v n s buf (<- & <- & E). unfold toy_at, toy_encrypt. cbn [snd key iv num]. rewrite E. split; [done|]. split; [done|]. lia. Qed.

Definition demo_kernel (chunks : list (list Z)) : kernel := Kernel chunks [] [] [] [] [] [] [] [] d0 [] [] (0, 0).
Definition demo_tcp (chunks : list (list Z)) : posix := (new_posix PROTO_TCP d0 (demo_kernel chunks)) <| tcpConnectedAddress := Some (IPv4Address 16777343) |> <| tcpConnectedPort := 443 |>.
Definition demo_state : TCPO2State := fresh_state (map Z.of_nat (seq 0 32)) (map Z.of_nat (seq 50 16)).
Definition demo_conn (chunks : list (list Z)) : obfuscated posix := Obfuscated (demo_tcp chunks) demo_state demo_state.
(** One byte per segment. *)
Definition cut (l : list Z) : list (list Z) := map (fun b => [b]) l.
Definition demo_payloads : list (list Z) := [[1; 2; 3; 4]; []; [5; 6; 7; 8; 9; 10; 11; 12]].
Definition demo_bytes : list Z := Eval vm_compute in k_stream (kern (wrapped (send_all demo_payloads (demo_conn [])).2)).
Lemma demo_sent : k_stream (kern (wrapped (send_all demo_payloads (demo_conn [])).2)) = demo_bytes.
Proof. vm_compute. reflexivity. Qed.

Lemma obfuscated_stream_witness :
  exists b', receive_all (zeros 4) (zeros 16) (length demo_payloads) (demo_conn (cut demo_bytes)) = (Value demo_payloads, b') /\ inbox (wrapped b') = [].
Proof.
  assert (Forall (carried (length (zeros 16))) demo_payloads) as Hp by (repeat (apply Forall_cons; split; [unfold carried; cbn; lia|]); constructor).
  assert (forall chunks, Forall (fun c => c <> []) chunks -> st_ok (wrapped (demo_conn chunks)) /\ ctr_at (key demo_state) (iv demo_state) 0 demo_state) as Hok by (intros chunks Hc; by repeat split).
  assert (Forall (fun c : list Z => c <> []) (cut demo_bytes)) as Hc by (apply Forall_forall; by intros c (b & -> & _)%list_elem_of_fmap).
  destruct (obfuscated_stream (key demo_state) (iv demo_state) 0 (zeros 4) (zeros 16) demo_payloads (demo_conn []) (demo_conn (cut demo_bytes))
    (Hok [] ltac:(constructor)) (Hok _ Hc) eq_refl Hp) as (bytes & a' & E & _ & Ho & R).
  assert (bytes = demo_bytes) as ->.
  { pose proof demo_sent as D. rewrite E in D. cbn [snd] in D. rewrite <- D. symmetry. exact Ho. }
  assert (inbox (wrapped (demo_conn (cut demo_bytes))) = demo_bytes ++ []) as Hi.
  { rewrite app_nil_r. cbn [inbox posix_stream wrapped demo_conn kern]. unfold cut. change (k_chunks _) with (map (fun b => [b]) demo_bytes).
    generalize demo_bytes as l. induction l as [|x l IH]; [done|]. cbn [map concat app]. by rewrite IH. }
  destruct (R [] Hi) as (b' & F & _ & I & _); [left; repeat (apply Forall_cons; split; [reflexivity|]); constructor|].
  exists b'. split; [exact F|exact I].
Defined.
Definition demo_nonce : list Z := map Z.of_nat (seq 1 64).
Lemma obfuscation_opens_witness : refused demo_nonce = false /\ refused (0xef :: drop 1 demo_nonce) = true /\
  exists hdr o', ob_init [0xef :: drop 1 demo_nonce; demo_nonce] (demo_conn []) = (Value tt, o') /\ k_stream (kern (wrapped o')) = hdr /\ length hdr = 64%nat.
Proof.
  assert (refused demo_nonce = false) as Hn by reflexivity. assert (refused (0xef :: drop 1 demo_nonce) = true) as Hr by reflexivity. split; [exact Hn|]. split; [exact Hr|].
  destruct (obfuscation_opens (demo_conn []) [0xef :: drop 1 demo_nonce] [] demo_nonce) as (hdr & o' & E & _ & Ho & Hl & _);
    [by repeat split|by constructor|exact Hn|reflexivity|]. by exists hdr, o'.
Defined.
Lemma dead_connection_witness : exists p o', ob_receive [198; 0; 0; 0] (plain (zeros 1500) 1500) (demo_conn []) = (Value p, o') /\ px_failed (wrapped o') = true /\ pk_length p = 320%nat.
Proof.
  destruct (dead_connection [198; 0; 0; 0] (plain (zeros 1500) 1500) (demo_conn [])) as (p & o' & E & F & L & _); [by split|cbv zeta; vm_compute; split; [split; reflexivity|lia]|].
  exists p, o'. split; [exact E|]. split; [exact F|]. rewrite L. reflexivity.
Defined.
(** The three bytes of a long length are read at once: when they arrive apart the rest of
    the length is what the stack held. *)
Example cut_length : let payload := zeros 508 in
  let bytes := k_stream (kern (wrapped (send_all [payload] (demo_conn [])).2)) in
  option_map pk_length (match (ob_receive [9; 9; 9; 9] (plain (zeros 1500) 1500) (demo_conn [bytes])).1 with Value p => Some p | _ => None end) = Some 508%nat /\
  (ob_receive [9; 9; 9; 9] (plain (zeros 1500) 1500) (demo_conn [take 2 bytes; drop 2 bytes])).1 <>
  (ob_receive [9; 9; 9; 9] (plain (zeros 1500) 1500) (demo_conn [bytes])).1.
Proof. split; [vm_compute; reflexivity|]. vm_compute. discriminate. Qed.
