(* ===== verification/VoipSocks.v ===== *)
(** * libtgvoip: SOCKS5

    [NetworkSocketSOCKS5Proxy] of [src/submodules/libtgvoip/NetworkSocket.cpp] over
    any two sockets: the negotiation of RFC 1928 with the authentication of RFC 1929,
    connections, and datagrams wrapped for the relay of the proxy; and what the
    controller does with its sockets, [ActuallySendPacket], [InitUDPProxy] and the
    turn of [RunRecvThread]. A buffer on the stack is an argument. *)

From S2P Require Import Prelude Exn VoipBuffers Double VoipSocket.

Record socks (T U : Type) := Socks {
  sx_tcp : T; sx_udp : option U; sx_username : list Z; sx_password : list Z;
  sx_failed : bool; connectedAddress : option NetworkAddress; connectedPort : Z
}.
Arguments Socks {T U}.
Arguments sx_tcp {T U}.
Arguments sx_udp {T U}.
Arguments sx_username {T U}.
Arguments sx_password {T U}.
Arguments sx_failed {T U}.
Arguments connectedAddress {T U}.
Arguments connectedPort {T U}.

(** [htons] and [ntohs]. *)
Definition swap16 (x : Z) : Z := Z.lor (Z.shiftl (Z.land x 0xFF) 8) (Z.land (Z.shiftr x 8) 0xFF).

(** Run a reader with a state beside it. *)
Definition rd {W A} (m : M in_stream A) : M (in_stream * W) A := zoom fst (fun i s => (i, snd s)) m.
Definition st {W A} (m : M W A) : M (in_stream * W) A := zoom snd (fun w s => (fst s, w)) m.
Definition reading {W A} (bytes : list Z) (m : M (in_stream * W) A) : M W A := fun w =>
  let '(r, (_, w)) := m (new_input bytes, w) in (r, w).
(** [try ... catch(std::out_of_range&)]. *)
Definition catch {W} (m h : M W unit) : M W unit := fun w => match m w with (Thrown, w) => h w | r => r end.

Section socks.
Context {T U : Type} `{Socket T} `{Socket U}.
Abbreviation S5 := (socks T U).
Definition set_tcp (t : T) (s : S5) : S5 := Socks t (sx_udp s) (sx_username s) (sx_password s) (sx_failed s) (connectedAddress s) (connectedPort s).
Definition set_udp (u : U) (s : S5) : S5 := Socks (sx_tcp s) (Some u) (sx_username s) (sx_password s) (sx_failed s) (connectedAddress s) (connectedPort s).
Definition set_failed (s : S5) : S5 := Socks (sx_tcp s) (sx_udp s) (sx_username s) (sx_password s) true (connectedAddress s) (connectedPort s).
Definition set_address (a : option NetworkAddress) (s : S5) : S5 := Socks (sx_tcp s) (sx_udp s) (sx_username s) (sx_password s) (sx_failed s) a (connectedPort s).
Definition set_port (port : Z) (s : S5) : S5 := Socks (sx_tcp s) (sx_udp s) (sx_username s) (sx_password s) (sx_failed s) (connectedAddress s) port.
Definition new_socks (tcp : T) (udp : option U) (username password : list Z) : S5 := Socks tcp udp username password false None 0.
(** The protocol is UDP when there is a UDP socket. *)
Definition sx_protocol (s : S5) : NetworkProtocol := match sx_udp s with Some _ => PROTO_UDP | None => PROTO_TCP end.

Definition tcp {A} (m : M T A) : M S5 A := zoom sx_tcp set_tcp m.
(** [udp->...]. *)
Definition udp {A} (m : M U A) : M S5 A := fun s =>
  match sx_udp s with None => (Aborted, s) | Some u => let '(r, u) := m u in (r, set_udp u s) end.
Definition fail : M S5 unit := modify set_failed.

(** Send what a writer puts in the buffer and receive the answer there; [None] when it
    is too short or the connection has failed. Returns the buffer as well. *)
Definition exchange (buf : list Z) (m : M out_stream unit) : M S5 (list Z * option nat) := fun s =>
  match m (output_on buf) with
  | (Value _, o) =>
      (tcp (send_bytes (written o)) ;;
       '(buf, l) ← tcp (receive_bytes (o_buffer o) (length (o_buffer o)));
       failed ← gets (fun s => sk_failed (sx_tcp s));
       mret (buf, if decide (l < 2)%nat then None else if failed : bool then None else Some l)) s
  | (Thrown, _) => (Thrown, s)
  | (Aborted, _) => (Aborted, s)
  end.

(** ** The connection to the proxy *)

Definition write_greeting (username : list Z) : M out_stream unit :=
  WriteByte 5 ;;
  if decide (username <> []) then WriteByte 2 ;; WriteByte 0 ;; WriteByte 2 else WriteByte 1 ;; WriteByte 0.
Definition credential (l : list Z) : list Z := if decide (255 < length l)%nat then take 255 l else l.
Definition write_auth (username password : list Z) : M out_stream unit :=
  WriteByte 1 ;;
  WriteByte (u8 (Z.of_nat (length (credential username)))) ;; WriteBytes (credential username) ;;
  WriteByte (u8 (Z.of_nat (length (credential password)))) ;; WriteBytes (credential password).
Definition read_two : M in_stream (Z * Z) := a ← ReadByte; b ← ReadByte; mret (a, b).
(** The user name and the password; whether they are accepted. *)
Definition authenticate (buf : list Z) : M S5 bool :=
  s ← get;
  '(buf, l) ← exchange buf (write_auth (sx_username s) (sx_password s));
  match l with
  | None => fail ;; mret false
  | Some l =>
      '(ver, status) ← read_from (take l buf) read_two;
      if decide (ver <> 1) then fail ;; mret false else
      if decide (status <> 0) then fail ;; mret false else mret true
  end.
(** The method the proxy has chosen. *)
Definition choose (buf : list Z) (ver chosenMethod : Z) : M S5 unit :=
  s ← get;
  if decide (ver <> 5) then fail else
  if decide (chosenMethod = 0) then tcp (sk_timeouts 5 60) else
  if decide (chosenMethod = 2 /\ sx_username s <> []) then
    ok ← authenticate buf; when ok (tcp (sk_timeouts 5 60))
  else fail.
Definition sx_init (stack : list Z) : M S5 unit :=
  tcp (sk_timeouts 1 2) ;;
  s ← get;
  '(buf, l) ← exchange stack (write_greeting (sx_username s));
  match l with
  | None => fail
  | Some l =>
      '(ver, chosenMethod) ← read_from (take l buf) read_two;
      choose buf ver chosenMethod
  end.

Definition write_address (a : NetworkAddress) : M out_stream unit :=
  match a with
  | IPv4Address v4 => WriteByte 1 ;; WriteInt32 v4
  | IPv6Address v6 => WriteByte 4 ;; WriteBytes (take 16 v6)
  end.
Definition write_connect (a : NetworkAddress) (port : Z) : M out_stream unit :=
  WriteByte 5 ;; WriteByte 1 ;; WriteByte 0 ;; write_address a ;; WriteInt16 (swap16 port).
Definition sx_connect (stack : list Z) (address : NetworkAddress) (port : Z) : M S5 unit :=
  failed ← gets sx_failed;
  if failed : bool then mret tt else
  tcp (sk_timeouts 1 2) ;;
  '(buf, l) ← exchange stack (write_connect address port);
  match l with
  | None => fail
  | Some l =>
      ver ← read_from (take l buf) ReadByte;
      if decide (ver <> 5) then fail else
      '(_, rep) ← read_from (take l buf) read_two;
      if decide (rep <> 0) then fail else
      modify (fun s => set_port port (set_address (Some address) s)) ;;
      tcp (sk_timeouts 5 60)
  end.

(** ** The relay for datagrams *)

Variable resolve : list Z -> option NetworkAddress.
(** The string in a zeroed array, up to the first zero. *)
Fixpoint c_string (l : list Z) : list Z := match l with [] => [] | c :: l => if decide (c = 0) then [] else c :: c_string l end.
Definition write_associate : M out_stream unit :=
  WriteByte 5 ;; WriteByte 3 ;; WriteByte 0 ;; WriteByte 1 ;; WriteInt32 0 ;; WriteInt16 0.
Definition read_port : M (in_stream * S5) unit :=
  port ← rd ReadInt16; st (modify (set_port (swap16 (u16 port)))) ;; st (tcp (sk_timeouts 0 0)).
Definition read_bound (atyp : Z) : M (in_stream * S5) unit :=
  if decide (atyp = 1) then
    addr ← rd ReadInt32; st (modify (set_address (Some (IPv4Address (u32 addr))))) ;; read_port
  else if decide (atyp = 3) then
    len ← rd ReadByte;
    domain ← rd (ReadBytes (Z.to_nat len));
    st (modify (set_address (resolve (c_string domain)))) ;;
    match resolve (c_string domain) with None => st fail | Some _ => read_port end
  else if decide (atyp = 4) then
    addr ← rd (ReadBytes 16); st (modify (set_address (Some (IPv6Address addr)))) ;; read_port
  else st fail.
Definition read_association : M (in_stream * S5) unit :=
  ver ← rd ReadByte;
  rep ← rd ReadByte;
  if decide (ver <> 5) then st fail else
  if decide (rep <> 0) then st fail else
  rd ReadByte ;;
  atyp ← rd ReadByte;
  read_bound atyp.
Definition sx_open (stack : list Z) : M S5 unit :=
  protocol ← gets sx_protocol;
  if decide (protocol <> PROTO_UDP) then mret tt else
  '(buf, l) ← exchange stack write_associate;
  match l with
  | None => fail
  | Some l => catch (reading (take l buf) read_association) fail
  end.

(** A packet without an address is a null pointer. *)
Definition write_datagram (packet : NetworkPacket) : M out_stream unit :=
  WriteInt16 0 ;; WriteByte 0 ;;
  match pk_address packet with Some a => write_address a | None => abort end ;;
  WriteInt16 (swap16 (pk_port packet)) ;;
  WriteBytes (take (pk_length packet) (pk_data packet)).
Definition sx_send (stack : list Z) (packet : NetworkPacket) : M S5 unit :=
  protocol ← gets sx_protocol;
  match protocol with
  | PROTO_TCP => tcp (sk_send packet)
  | PROTO_UDP =>
      bytes ← written_on (output_on stack) (write_datagram packet);
      s ← get;
      udp (sk_send (Packet bytes (length bytes) (connectedAddress s) (connectedPort s) PROTO_UDP))
  end.
(** An address of an unknown type leaves the one of the packet. *)
Definition read_address (old : option NetworkAddress) : M in_stream (option NetworkAddress) :=
  atyp ← ReadByte;
  if decide (atyp = 1) then addr ← ReadInt32; mret (Some (IPv4Address (u32 addr)))
  else if decide (atyp = 4) then addr ← ReadBytes 16; mret (Some (IPv6Address addr))
  else mret old.
(** The address and the port of a datagram, and its contents. *)
Definition read_datagram (packet : NetworkPacket) : M in_stream NetworkPacket :=
  ReadInt16 ;;
  ReadByte ;;
  address ← read_address (pk_address packet);
  port ← ReadInt16;
  left ← Remaining;
  let packet := packet <| pk_address := address |> <| pk_port := swap16 (u16 port) |> in
  if decide (left <= pk_length packet)%nat then
    data ← ReadBytes left;
    mret (packet <| pk_length := left |> <| pk_data := store (pk_data packet) 0 data |>)
  else mret (packet <| pk_length := 0%nat |>).
(** The protocol of the packet is left as it is. *)
Definition sx_receive (stack : list Z) (packet : NetworkPacket) : M S5 NetworkPacket :=
  protocol ← gets sx_protocol;
  match protocol with
  | PROTO_TCP => tcp (sk_receive packet)
  | PROTO_UDP =>
      p ← udp (sk_receive (plain stack (length stack)));
      s ← get;
      match pk_address p with
      | None => mret packet
      | Some a =>
          if decide (pk_length p = 0%nat) then mret packet else
          match connectedAddress s with
          | None => abort
          | Some c =>
              if same_address a c && (pk_port p =? connectedPort s) then read_from (take (pk_length p) (pk_data p)) (read_datagram packet) else mret packet
          end
      end
  end.
Definition sx_close : M S5 unit := tcp sk_close.
Definition sx_is_failed (s : S5) : bool := sx_failed s || sk_failed (sx_tcp s).
End socks.
#[export] Instance socks_socket (stack dgram : list Z) {T U} `{Socket T} `{Socket U} : Socket (socks T U) := {
  sk_send := sx_send dgram; sk_receive := sx_receive dgram; sk_connect := sx_connect stack; sk_close := sx_close;
  sk_timeouts := fun _ _ => mret tt; sk_failed := sx_is_failed; sk_address := connectedAddress; sk_port := connectedPort
}.

(** ** Exchanges with the proxy *)

Lemma swap16_bytes x : 0 <= x < 65536 -> le_bytes 2 (swap16 x) = [Z.shiftr x 8; Z.land x 0xFF].
Proof.
  intros Hx. change 0xFF with (Z.ones 8). unfold swap16. change 0xFF with (Z.ones 8). rewrite !Z.land_ones by lia. rewrite !Z.shiftr_div_pow2 by lia.
  rewrite Z.lor_comm, lor_add_shift by lia. cbn [le_bytes]. rewrite !u8_mod, Z.shiftr_div_pow2 by lia. f_equal; [|f_equal]; lia.
Qed.
Lemma swap16_swap16 x : 0 <= x < 65536 -> swap16 (u16 (i16 (swap16 x))) = x.
Proof.
  intros Hx. assert (forall y, 0 <= y < 65536 -> swap16 y = (y mod 256) * 256 + y / 256) as Hs.
  { intros y Hy. unfold swap16. change 0xFF with (Z.ones 8). rewrite !Z.land_ones by lia. rewrite !Z.shiftr_div_pow2 by lia. rewrite Z.lor_comm, lor_add_shift by lia. lia. }
  rewrite (Hs x Hx). set (y := (x mod 256) * 256 + x / 256). assert (0 <= y < 65536) as Hy by (unfold y; lia).
  assert (u16 (i16 y) = y) as -> by (unfold i16; rewrite !u16_mod; change 0x8000 with 32768; Z.div_mod_to_equations; lia).
  rewrite (Hs y Hy). unfold y. Z.div_mod_to_equations. lia.
Qed.

Section exchanges.
Context {T U : Type} `{StreamSocket T} `{Socket U}.
Abbreviation S5 := (socks T U).
Lemma run_tcp {A} (m : M T A) (s : S5) a t : m (sx_tcp s) = (Value a, t) -> tcp m s = (Value a, set_tcp t s).
Proof. intros E. unfold tcp, zoom. by rewrite E. Qed.

Lemma take_drop_length (n : nat) (l : list Z) : l = take n l ++ drop (length (take n l)) l.
Proof. rewrite length_take. destruct (decide (n <= length l)%nat); [by rewrite Nat.min_l, take_drop|]. by rewrite Nat.min_r, take_ge, drop_ge, app_nil_r by lia. Qed.
(** What the proxy answers, as far as it fits and has arrived. *)
Definition answer (n : nat) (t : T) : list Z := take (Nat.min n (available t)) (inbox t).
Lemma exchange_ok (s : S5) buf m bytes : st_ok (sx_tcp s) -> inbox (sx_tcp s) <> [] -> writes m bytes -> (length bytes <= length buf)%nat -> (0 < length buf)%nat ->
  let r := answer (length buf) (sx_tcp s) in
  exists buf' t, exchange buf m s = (Value (buf', if decide (length r < 2)%nat then None else Some (length r)), set_tcp t s) /\
    take (length r) buf' = r /\ length buf' = length buf /\ st_ok t /\ inbox t = drop (length r) (inbox (sx_tcp s)) /\ outbox t = outbox (sx_tcp s) ++ bytes /\
    (length r = available (sx_tcp s) -> cuts t = tail (cuts (sx_tcp s))).
Proof.
  intros Hs Hi Hm Hb Hp r. destruct (writes_on m bytes buf Hm Hb) as (o & Ew & Eo & _ & Hlo). unfold exchange. rewrite Ew, Eo.
  destruct (st_send (sx_tcp s) (plain bytes (length bytes)) Hs) as (t1 & E1 & A1 & A2 & A3 & A4); [cbn; lia|]. cbn [plain pk_length pk_data] in A2. rewrite take_ge in A2 by lia.
  erewrite run_bind by (apply run_tcp; exact E1).
  destruct (st_receive t1 (plain (o_buffer o) (length (o_buffer o))) A1) as (p & t2 & E2 & B1 & B2 & B3 & B4 & Bc & B5 & B6); [cbn; lia|by rewrite A3|].
  cbn [plain pk_length pk_data] in *. rewrite Hlo, A3, A4 in B3, B4, B5. rewrite Hlo, A4 in B6, Bc. fold (available (sx_tcp s)) in B3, B4, B5, B6, Bc.
  assert (length r = Nat.min (length buf) (available (sx_tcp s))) as Hr by (unfold r, answer; rewrite length_take; lia).
  assert (receive_bytes (o_buffer o) (length (o_buffer o)) t1 = (Value (pk_data p, pk_length p), t2)) as E3 by (unfold receive_bytes; erewrite run_bind by exact E2; reflexivity).
  erewrite run_bind by (apply (run_tcp _ (set_tcp t1 s)); exact E3).
  cbv beta iota. erewrite run_bind by reflexivity. cbn [set_tcp sx_tcp]. rewrite (st_works t2 B1), B6, <- Hr. exists (pk_data p), t2. split; [done|].
  assert (length (take (length r) (inbox (sx_tcp s))) = length r) as Hlen by (rewrite length_take; lia).
  rewrite B5, <- Hr. split; [|split; [|split; [exact B1|split; [by rewrite Hr|split; [congruence|intros Ha; rewrite Bc, decide_False by lia; done]]]]].
  - rewrite (take_store _ 0) by lia. rewrite take_0. cbn [app]. rewrite Hr. reflexivity.
  - rewrite length_store by lia. exact Hlo.
Qed.

(** The methods the proxy may choose, and whether it lets the client in: [r1] answers
    the greeting, [r2] the credentials. *)
Definition asks (username r1 : list Z) : bool := match r1 with v :: m :: _ => (v =? 5) && (m =? 2) && negb (bool_decide (username = [])) | _ => false end.
Definition accepts (r2 : list Z) : bool := match r2 with v :: status :: _ => (v =? 1) && (status =? 0) | _ => false end.
Definition granted (username r1 r2 : list Z) : bool :=
  match r1 with v :: m :: _ => (v =? 5) && ((m =? 0) || (asks username r1 && accepts r2)) | _ => false end.
(** The requests of the two standards. *)
Definition greeting (username : list Z) : list Z := if decide (username <> []) then [5; 2; 0; 2] else [5; 1; 0].
Definition login (username password : list Z) : list Z :=
  1 :: u8 (Z.of_nat (length (credential username))) :: credential username ++ u8 (Z.of_nat (length (credential password))) :: credential password.
Lemma greeting_writes u : writes (write_greeting u) (greeting u).
Proof. unfold write_greeting, greeting. case_decide; [change [5; 2; 0; 2] with ([5] ++ [2] ++ [0] ++ [2])|change [5; 1; 0] with ([5] ++ [1] ++ [0])]; writes_go. Qed.
Lemma login_writes u p : writes (write_auth u p) (login u p).
Proof.
  unfold write_auth, login. change (writes (write_auth u p) ([1] ++ [u8 (Z.of_nat (length (credential u)))] ++ credential u ++ [u8 (Z.of_nat (length (credential p)))] ++ credential p)).
  unfold write_auth. repeat (apply writes_bind; [auto with writes|]). auto with writes.
Qed.
Lemma length_credential l : (length (credential l) <= 255)%nat.
Proof. unfold credential. case_decide; [rewrite length_take|]; lia. Qed.
Lemma length_login u p : (length (login u p) <= 513)%nat.
Proof. unfold login. cbn [length]. rewrite length_app. cbn [length]. pose proof (length_credential u). pose proof (length_credential p). lia. Qed.
Lemma read_two_ok {W} a b l (w : W) : read_from (a :: b :: l) read_two w = (Value (a, b), w).
Proof.
  unfold read_from. assert (takes read_two ([a] ++ [b] ++ []) (a, b)) as Ht by (apply takes_bind with a; [apply takes_byte|]; apply takes_bind with b; [apply takes_byte|apply takes_ret]).
  rewrite (Ht (new_input (a :: b :: l)) l) by done. done.
Qed.

Lemma run_timeouts x y (s : S5) : st_ok (sx_tcp s) -> exists t, tcp (sk_timeouts x y) s = (Value tt, set_tcp t s) /\ st_ok t /\
  outbox t = outbox (sx_tcp s) /\ inbox t = inbox (sx_tcp s) /\ cuts t = cuts (sx_tcp s).
Proof. intros Hs. destruct (st_timeouts (sx_tcp s) x y Hs) as (t & E & A). exists t. split; [by apply run_tcp|exact A]. Qed.

Lemma authenticate_ok (s : S5) buf : st_ok (sx_tcp s) -> inbox (sx_tcp s) <> [] -> length buf = 1024%nat ->
  let r := answer 1024 (sx_tcp s) in
  exists t, st_ok t /\ inbox t = drop (length r) (inbox (sx_tcp s)) /\ outbox t = outbox (sx_tcp s) ++ login (sx_username s) (sx_password s) /\
    authenticate buf s = (Value (accepts r), if accepts r then set_tcp t s else set_failed (set_tcp t s)).
Proof.
  intros Hs Hi Hb r. unfold authenticate. erewrite run_bind by reflexivity.
  destruct (exchange_ok s buf _ _ Hs Hi (login_writes (sx_username s) (sx_password s))) as (buf' & t & E & Hr & Hb' & A1 & A2 & A3 & _);
    [pose proof (length_login (sx_username s) (sx_password s)); lia|lia|]. rewrite Hb in E, Hr, A2. fold r in E, Hr, A2.
  exists t. do 3 (split; [done|]). erewrite run_bind by exact E. cbv beta iota. destruct (decide (length r < 2)%nat) as [Hl|Hl].
  { erewrite run_bind by reflexivity. destruct r as [|? [|]]; [done|done|cbn in Hl; lia]. }
  rewrite Hr. destruct r as [|a [|b l]]; [cbn in Hl; lia|cbn in Hl; lia|]. erewrite run_bind by apply read_two_ok. cbv beta iota. cbn [accepts].
  destruct (decide (a <> 1)) as [Ha|Ha]; [replace (a =? 1) with false by lia; by erewrite run_bind by reflexivity|].
  destruct (decide (b <> 0)) as [Hb0|Hb0]; [replace (b =? 0) with false by lia; rewrite andb_false_r; by erewrite run_bind by reflexivity|].
  by replace ((a =? 1) && (b =? 0)) with true by lia.
Qed.

Lemma choose_ok (s : S5) buf v m l : st_ok (sx_tcp s) -> length buf = 1024%nat -> (asks (sx_username s) (v :: m :: l) = true -> inbox (sx_tcp s) <> []) ->
  exists r2 s', choose buf v m s = (Value tt, s') /\ st_ok (sx_tcp s') /\ inbox (sx_tcp s) = r2 ++ inbox (sx_tcp s') /\
    outbox (sx_tcp s') = outbox (sx_tcp s) ++ (if asks (sx_username s) (v :: m :: l) then login (sx_username s) (sx_password s) else []) /\
    (asks (sx_username s) (v :: m :: l) = false -> r2 = []) /\ sx_failed s' = sx_failed s || negb (granted (sx_username s) (v :: m :: l) r2).
Proof.
  intros Hs Hb Hm. unfold choose. erewrite run_bind by reflexivity. cbn [asks granted] in *.
  destruct (decide (v <> 5)) as [Hv|Hv].
  { replace (v =? 5) with false in * by lia. cbn [andb negb]. exists [], (set_failed s). rewrite app_nil_r, orb_true_r. done. }
  replace (v =? 5) with true in * by lia. cbn [andb] in *. destruct (decide (m = 0)) as [->|H0m].
  { destruct (run_timeouts 5 60 s Hs) as (t & E & A1 & A2 & A3 & A4). exists [], (set_tcp t s). cbn [Z.eqb andb orb negb set_tcp sx_tcp sx_failed]. rewrite app_nil_r, orb_false_r. done. }
  replace (m =? 0) with false by lia. cbn [orb]. destruct (decide (m = 2 /\ sx_username s <> [])) as [[-> Hu]|Hno].
  - rewrite bool_decide_eq_false_2 in * by exact Hu. cbn [Z.eqb Pos.eqb andb negb] in *.
    destruct (authenticate_ok s buf Hs (Hm eq_refl) Hb) as (t & A1 & A2 & A3 & E). set (r := answer 1024 (sx_tcp s)) in *. exists r. erewrite run_bind by exact E.
    destruct (accepts r); cbn [when negb].
    + destruct (run_timeouts 5 60 (set_tcp t s) A1) as (t' & E' & B1 & B2 & B3 & B4). exists (set_tcp t' (set_tcp t s)). cbn [set_tcp sx_tcp sx_failed] in *.
      rewrite B2, B3, A2, A3, orb_false_r. split; [exact E'|]. split; [exact B1|]. split; [apply take_drop_length|done].
    + exists (set_failed (set_tcp t s)). cbn [set_failed set_tcp sx_tcp sx_failed]. rewrite A2, A3, orb_true_r. split; [done|]. split; [exact A1|]. split; [apply take_drop_length|done].
  - assert ((m =? 2) && negb (bool_decide (sx_username s = [])) = false) as ->.
    { apply andb_false_iff. destruct (decide (m = 2)) as [->|]; [right|left; lia]. rewrite bool_decide_eq_true_2; [done|]. apply dec_stable. tauto. }
    exists [], (set_failed s). cbn [andb orb negb]. rewrite app_nil_r, orb_true_r. done.
Qed.

(** the greeting offers a password only when there is one, the credentials go out, cut to
    255 bytes, exactly when the proxy asks for them, and the connection counts as
    failed exactly when the proxy does not let the client in. *)
Theorem socks_negotiation (s : S5) (stack : list Z) (Hs : st_ok (sx_tcp s)) (Hi : inbox (sx_tcp s) <> []) (Hb : length stack = 1024%nat)
  (Hm : asks (sx_username s) (answer 1024 (sx_tcp s)) = true -> drop (length (answer 1024 (sx_tcp s))) (inbox (sx_tcp s)) <> []) :
  let u := sx_username s in let r1 := answer 1024 (sx_tcp s) in
  exists r2 s', sx_init stack s = (Value tt, s') /\ st_ok (sx_tcp s') /\ inbox (sx_tcp s) = r1 ++ r2 ++ inbox (sx_tcp s') /\
    outbox (sx_tcp s') = outbox (sx_tcp s) ++ greeting u ++ (if asks u r1 then login u (sx_password s) else []) /\
    (asks u r1 = false -> r2 = []) /\ sx_failed s' = sx_failed s || negb (granted u r1 r2).
Proof.
  intros u r1. unfold sx_init. destruct (run_timeouts 1 2 s Hs) as (t0 & E0 & Z1 & Z2 & Z3 & Z4). erewrite run_bind by exact E0. erewrite run_bind by reflexivity.
  destruct (exchange_ok (set_tcp t0 s) stack _ _ Z1 ltac:(by rewrite <- Z3 in Hi) (greeting_writes u)) as (buf & t & E & Hr & Hbl & A1 & A2 & A3 & _);
    [unfold greeting; case_decide; cbn; lia|lia|]. cbn [set_tcp sx_tcp] in E, Hr, A2, A3. unfold answer, available in E, Hr, A2. rewrite Hb, Z3, Z4 in E, Hr, A2. fold (available (sx_tcp s)) in E, Hr, A2. fold (answer 1024 (sx_tcp s)) in E, Hr, A2. fold r1 in E, Hr, A2, Hm.
  rewrite Z2 in A3. assert (inbox (sx_tcp s) = r1 ++ inbox t) as Hin by (rewrite A2; apply take_drop_length).
  erewrite run_bind by exact E. cbv beta iota. fold u in A3 |- *. destruct (decide (length r1 < 2)%nat) as [Hl|Hl].
  { exists [], (set_failed (set_tcp t (set_tcp t0 s))). assert (asks u r1 = false /\ granted u r1 [] = false) as [Ha Hg] by (destruct r1 as [|? [|]]; [done|done|cbn in Hl; lia]).
    cbn [set_failed set_tcp sx_tcp sx_failed]. rewrite Ha, Hg, A3, !app_nil_r, orb_true_r. done. }
  rewrite Hr. clearbody r1. destruct r1 as [|v [|m l]]; [cbn in Hl; lia|cbn in Hl; lia|]. erewrite run_bind by apply read_two_ok. cbv beta iota.
  destruct (choose_ok (set_tcp t (set_tcp t0 s)) buf v m l A1) as (r2 & s' & E2 & B1 & B2 & B3 & B4 & B5); [lia|by intros Ha; cbn [set_tcp sx_tcp]; rewrite A2; apply Hm|].
  cbn [set_tcp sx_tcp sx_username sx_password sx_failed] in *. exists r2, s'. rewrite B3, A3, <- app_assoc, Hin, B2. done.
Qed.
End exchanges.

(** ** Datagrams through the proxy *)

Section datagrams.
Context {T U : Type} `{Socket T} `{Socket U}.
Abbreviation S5 := (socks T U).

Definition address_ok (a : NetworkAddress) : Prop := match a with IPv4Address v4 => is_u32 v4 | IPv6Address v6 => length v6 = 16%nat end.
Definition address_bytes (a : NetworkAddress) : list Z := match a with IPv4Address v4 => 1 :: le_bytes 4 v4 | IPv6Address v6 => 4 :: v6 end.
(** A datagram to or from [a], as the relay of the proxy carries it. *)
Definition wrap (a : NetworkAddress) (port : Z) (payload : list Z) : list Z := [0; 0; 0] ++ address_bytes a ++ [Z.shiftr port 8; Z.land port 0xFF] ++ payload.
Lemma address_writes a : address_ok a -> writes (write_address a) (address_bytes a).
Proof.
  intros Ha. destruct a as [v4|v6]; cbn [write_address address_bytes].
  - change (1 :: le_bytes 4 v4) with ([1] ++ le_bytes 4 v4). writes_go.
  - change (4 :: v6) with ([4] ++ v6). cbn in Ha. rewrite take_ge by lia. writes_go.
Qed.
Lemma datagram_writes packet a : pk_address packet = Some a -> address_ok a -> 0 <= pk_port packet < 65536 ->
  writes (write_datagram packet) (wrap a (pk_port packet) (take (pk_length packet) (pk_data packet))).
Proof.
  intros E Ha Hp. unfold write_datagram, wrap. rewrite E. rewrite <- swap16_bytes by exact Hp. change [0; 0; 0] with (le_bytes 2 0 ++ [0]). rewrite <- app_assoc.
  apply writes_bind; [apply writes_int16|]. apply writes_bind; [apply writes_byte|]. apply writes_bind; [by apply address_writes|]. apply writes_bind; [apply writes_int16|apply writes_bytes].
Qed.
Lemma takes_int16 v : takes ReadInt16 (le_bytes 2 v) (i16 v).
Proof. intros s k E. by rewrite (ReadInt16_ok s v k E), length_le_bytes. Qed.

Lemma takes_map {A B} (m : M in_stream A) (g : A -> B) bs a : takes m bs a -> takes (x ← m; mret (g x)) bs (g a).
Proof. intros Hm s k E. by erewrite run_bind by exact (Hm s k E). Qed.
Lemma takes_address a old : address_ok a -> takes (read_address old) (address_bytes a) (Some a).
Proof.
  intros Ha. destruct a as [v4|v6]; cbn [address_bytes address_ok] in *; unfold read_address.
  - apply (takes_bind _ _ [1] (le_bytes 4 v4) 1); [apply takes_byte|]. rewrite decide_True by done.
    assert (u32 (i32 v4) = v4) as Hv by (unfold i32, is_u32 in *; rewrite !u32_mod; Z.div_mod_to_equations; lia). rewrite <- Hv at 2.
    apply (takes_map ReadInt32 (fun v => Some (IPv4Address (u32 v)))), takes_int32.
  - apply (takes_bind _ _ [4] v6 4); [apply takes_byte|]. rewrite decide_False, decide_True by done. apply (takes_map (ReadBytes 16) (fun v => Some (IPv6Address v))). by apply takes_bytes.
Qed.
(** The reader gives back what was wrapped. *)
Lemma read_wrapped a port payload packet : address_ok a -> 0 <= port < 65536 ->
  (read_datagram packet (new_input (wrap a port payload))).1 = Value
    (if decide (length payload <= pk_length packet)%nat
     then Packet (store (pk_data packet) 0 payload) (length payload) (Some a) port (pk_protocol packet)
     else Packet (pk_data packet) 0 (Some a) port (pk_protocol packet)).
Proof.
  intros Ha Hp. unfold read_datagram.
  assert (rest (new_input (wrap a port payload)) = le_bytes 2 0 ++ [0] ++ address_bytes a ++ le_bytes 2 (swap16 port) ++ payload) as R by (unfold wrap; by rewrite swap16_bytes).
  erewrite run_bind by exact (takes_int16 0 _ _ R). pose proof (rest_advance_app _ _ _ _ R eq_refl) as R1.
  erewrite run_bind by exact (takes_byte 0 _ _ R1). pose proof (rest_advance_app _ _ _ _ R1 eq_refl) as R2.
  erewrite run_bind by exact (takes_address a (pk_address packet) Ha _ _ R2). pose proof (rest_advance_app _ _ _ _ R2 eq_refl) as R3.
  erewrite run_bind by exact (takes_int16 _ _ _ R3). pose proof (rest_advance_app _ _ _ _ R3 eq_refl) as R4. rewrite swap16_swap16 by exact Hp.
  clear R R1 R2 R3. revert R4. generalize (advance (length (le_bytes 2 (swap16 port))) (advance (length (address_bytes a)) (advance (length [0%Z]) (advance (length (le_bytes 2 0)) (new_input (wrap a port payload)))))).
  intros i R4. assert (Remaining i = (Value (length payload), i)) as Er by (unfold Remaining; rewrite <- R4; unfold rest; by rewrite length_drop).
  erewrite run_bind by exact Er. cbv zeta. cbn [pk_length set]. destruct (decide _) as [Hd|Hd]; [|done].
  rewrite <- (app_nil_r payload) in R4. by erewrite run_bind by exact (takes_bytes payload _ eq_refl _ _ R4).
Qed.
(** Less than the fixed part of the header makes the reader throw. *)
Lemma read_short packet d : (length d < 4)%nat -> (read_datagram packet (new_input d)).1 = Thrown.
Proof. intros Hd. destruct d as [|a [|b [|c [|]]]]; try (cbn in Hd; lia); reflexivity. Qed.

(** A datagram of the relay of the proxy, and of anybody else. *)
Definition from_relay (s : S5) (p : NetworkPacket) : bool :=
  match pk_address p, connectedAddress s with Some a, Some c => negb (bool_decide (pk_length p = 0%nat)) && (same_address a c && (pk_port p =? connectedPort s)) | _, _ => false end.

(** Sending and receiving through the relay. *)
Lemma datagrams_ok (s : S5) (u u' : U) (stack : list Z) (packet p : NetworkPacket) (Hs : length stack = 1500%nat)
  (Hu : sx_udp s = Some u) (Hc : connectedAddress s <> None) (Hr : sk_receive (plain stack 1500) u = (Value p, u')) :
  (forall a v, pk_address packet = Some a -> address_ok a -> 0 <= pk_port packet < 65536 -> (pk_length packet <= length (pk_data packet))%nat -> (pk_length packet <= 1478)%nat ->
    let d := wrap a (pk_port packet) (take (pk_length packet) (pk_data packet)) in
    sk_send (Packet d (length d) (connectedAddress s) (connectedPort s) PROTO_UDP) u = (Value tt, v) -> sx_send stack packet s = (Value tt, set_udp v s)) /\
  (from_relay s p = false -> sx_receive stack packet s = (Value packet, set_udp u' s)) /\
  (from_relay s p = true ->
    (forall a port payload, take (pk_length p) (pk_data p) = wrap a port payload -> address_ok a -> 0 <= port < 65536 ->
      sx_receive stack packet s = (Value (if decide (length payload <= pk_length packet)%nat
        then Packet (store (pk_data packet) 0 payload) (length payload) (Some a) port (pk_protocol packet)
        else Packet (pk_data packet) 0 (Some a) port (pk_protocol packet)), set_udp u' s)) /\
    ((pk_length p < 4)%nat -> sx_receive stack packet s = (Thrown, set_udp u' s))).
Proof.
  assert (sx_protocol s = PROTO_UDP) as Hp by (unfold sx_protocol; by rewrite Hu).
  assert (udp (sk_receive (plain stack (length stack))) s = (Value p, set_udp u' s)) as Er by (unfold udp; by rewrite Hu, Hs, Hr).
  split; [|split].
  - intros a v Ea Ha Hport Hl Hmax d Hv. unfold sx_send. erewrite run_bind by reflexivity. rewrite Hp.
    destruct (writes_on _ _ stack (datagram_writes packet a Ea Ha Hport)) as (o & Ew & Eo & _).
    { unfold wrap. rewrite !length_app, length_take. cbn [length]. assert (length (address_bytes a) <= 17)%nat by (destruct a; cbn in *; lia). lia. }
    fold d in Eo. erewrite run_bind by (unfold written_on; rewrite Ew; reflexivity). rewrite Eo. erewrite run_bind by reflexivity. unfold udp. by rewrite Hu, Hv.
  - intros Hf. unfold sx_receive. erewrite run_bind by reflexivity. rewrite Hp. erewrite run_bind by exact Er. erewrite run_bind by reflexivity.
    unfold from_relay in Hf. destruct (pk_address p) as [a|]; [|done]. cbn [set_udp connectedAddress connectedPort]. destruct (decide (pk_length p = 0%nat)) as [H0p|H0p]; [done|].
    destruct (connectedAddress s) as [c|]; [|done]. rewrite bool_decide_eq_false_2 in Hf by exact H0p. cbn [negb andb] in Hf. by rewrite Hf.
  - intros Hf. assert (sx_receive stack packet s = (fun w => read_from (take (pk_length p) (pk_data p)) (read_datagram packet) w) (set_udp u' s)) as Eq.
    { unfold sx_receive. erewrite run_bind by reflexivity. rewrite Hp. erewrite run_bind by exact Er. erewrite run_bind by reflexivity.
      unfold from_relay in Hf. destruct (pk_address p) as [a|]; [|done]. cbn [set_udp connectedAddress connectedPort]. destruct (connectedAddress s) as [c|]; [|done].
      apply andb_true_iff in Hf as [Hf1 Hf2]. destruct (decide (pk_length p = 0%nat)) as [H0p|H0p]; [by rewrite bool_decide_eq_true_2 in Hf1|]. by rewrite Hf2. }
    rewrite Eq. unfold read_from. split.
    + intros a port payload Ed Ha Hport. rewrite Ed. by rewrite read_wrapped.
    + intros Hl. rewrite read_short; [done|]. rewrite length_take. lia.
Qed.

(** a packet is sent to the relay wrapped with its address and port, and from the relay
    a wrapped datagram is delivered with the address, the port and the contents it was
    wrapped with; a datagram from elsewhere leaves the packet of the caller as it was,
    its length included, one that does not fit leaves it empty, one shorter than four
    bytes throws. *)
Theorem socks_datagrams (s : S5) (u u' : U) (stack : list Z) (packet p : NetworkPacket) (Hs : length stack = 1500%nat)
  (Hu : sx_udp s = Some u) (Hc : connectedAddress s <> None) (Hr : sk_receive (plain stack 1500) u = (Value p, u')) :
  (forall a v, pk_address packet = Some a -> address_ok a -> 0 <= pk_port packet < 65536 -> (pk_length packet <= length (pk_data packet))%nat -> (pk_length packet <= 1478)%nat ->
    let d := wrap a (pk_port packet) (take (pk_length packet) (pk_data packet)) in
    sk_send (Packet d (length d) (connectedAddress s) (connectedPort s) PROTO_UDP) u = (Value tt, v) -> sx_send stack packet s = (Value tt, set_udp v s)) /\
  (from_relay s p = false -> sx_receive stack packet s = (Value packet, set_udp u' s)) /\
  (from_relay s p = true ->
    (forall a port payload, take (pk_length p) (pk_data p) = wrap a port payload -> address_ok a -> 0 <= port < 65536 ->
      sx_receive stack packet s = (Value (if decide (length payload <= pk_length packet)%nat
        then Packet (store (pk_data packet) 0 payload) (length payload) (Some a) port (pk_protocol packet)
        else Packet (pk_data packet) 0 (Some a) port (pk_protocol packet)), set_udp u' s)) /\
    ((pk_length p < 4)%nat -> sx_receive stack packet s = (Thrown, set_udp u' s))).
Proof. exact (datagrams_ok s u u' stack packet p Hs Hu Hc Hr). Qed.
End datagrams.

(** ** The association *)

Section association.
Context {T U : Type} `{StreamSocket T} `{Socket U}.
Abbreviation S5 := (socks T U).
Context (resolve : list Z -> option NetworkAddress).

(** [m] consumes exactly [bytes], returns [a], and takes the socket from [w] to [w']. *)
Definition consumes {W A} (m : M (in_stream * W) A) (bytes : list Z) (w : W) (a : A) (w' : W) : Prop :=
  forall i k, rest i = bytes ++ k -> exists i', m (i, w) = (Value a, (i', w')) /\ rest i' = k.
Lemma consumes_rd {W A} (m : M in_stream A) bs a (w : W) : takes m bs a -> consumes (rd m) bs w a w.
Proof. intros Hm i k E. exists (advance (length bs) i). split; [unfold rd, zoom; cbn; by rewrite (Hm i k E)|by apply (rest_advance_app _ _ bs)]. Qed.
Lemma consumes_st {W A} (m : M W A) a (w w' : W) : m w = (Value a, w') -> consumes (st m) [] w a w'.
Proof. intros E i k R. exists i. split; [unfold st, zoom; cbn; by rewrite E|done]. Qed.
Lemma consumes_bind {W A B} (m : M (in_stream * W) A) (f : A -> M (in_stream * W) B) bs cs w a w1 b w2 :
  consumes m bs w a w1 -> consumes (f a) cs w1 b w2 -> consumes (m ≫= f) (bs ++ cs) w b w2.
Proof.
  intros Hm Hf i k R. rewrite <- app_assoc in R. destruct (Hm i _ R) as (i1 & E1 & R1). destruct (Hf i1 k R1) as (i2 & E2 & R2).
  exists i2. split; [by rewrite (run_bind _ _ _ _ _ E1)|exact R2].
Qed.
Lemma reading_ok {W} (m : M (in_stream * W) unit) bs k w w' : consumes m bs w tt w' -> reading (bs ++ k) m w = (Value tt, w').
Proof. intros Hm. destruct (Hm (new_input (bs ++ k)) k) as (i & E & _); [done|]. unfold reading. by rewrite E. Qed.

Lemma port_consumed (s : S5) port : st_ok (sx_tcp s) -> 0 <= port < 65536 ->
  exists t, st_ok t /\ inbox t = inbox (sx_tcp s) /\ outbox t = outbox (sx_tcp s) /\
    consumes read_port [Z.shiftr port 8; Z.land port 0xFF] s tt (set_tcp t (set_port port s)).
Proof.
  intros Hs Hp. destruct (run_timeouts 0 0 (set_port port s) Hs) as (t & E & A1 & A2 & A3 & _). exists t. do 3 (split; [done|]).
  rewrite <- swap16_bytes by exact Hp. unfold read_port. rewrite <- (app_nil_r (le_bytes 2 (swap16 port))).
  eapply consumes_bind; [apply consumes_rd, takes_int16|]. rewrite swap16_swap16 by exact Hp. apply (consumes_bind _ _ [] [] _ tt (set_port port s)); [by apply consumes_st|by apply consumes_st].
Qed.

(** The address in an answer of the proxy: one of the three kinds, the domain resolved. *)
Inductive bound_to : list Z -> NetworkAddress -> Prop :=
  | bound_v4 v4 : is_u32 v4 -> bound_to (1 :: le_bytes 4 v4) (IPv4Address v4)
  | bound_v6 v6 : length v6 = 16%nat -> bound_to (4 :: v6) (IPv6Address v6)
  | bound_domain len domain a : 0 <= len < 256 -> length domain = Z.to_nat len -> resolve (c_string domain) = Some a -> bound_to (3 :: len :: domain) a.
Lemma bound_consumed (s : S5) atyp bs a port : st_ok (sx_tcp s) -> 0 <= port < 65536 -> bound_to (atyp :: bs) a ->
  exists t, st_ok t /\ inbox t = inbox (sx_tcp s) /\ outbox t = outbox (sx_tcp s) /\
    consumes (read_bound resolve atyp) (bs ++ [Z.shiftr port 8; Z.land port 0xFF]) s tt (set_tcp t (set_port port (set_address (Some a) s))).
Proof.
  intros Hs Hp Hb. destruct (port_consumed (set_address (Some a) s) port Hs Hp) as (t & A1 & A2 & A3 & C). exists t. do 3 (split; [done|]). unfold read_bound.
  assert (forall v, v = Some a -> consumes (st (modify (set_address v)) ;; read_port) [Z.shiftr port 8; Z.land port 255] s tt (set_tcp t (set_port port (set_address (Some a) s)))) as Hend.
  { intros v ->. apply (consumes_bind _ _ [] _ _ tt (set_address (Some a) s)); [by apply consumes_st|exact C]. }
  inversion Hb as [v4 Hv E1 E2|v6 Hv E1 E2|len domain a' Hlen Hd Hres E1 E2]; subst.
  - rewrite decide_True by done. eapply consumes_bind; [apply consumes_rd, takes_int32|]. apply Hend. unfold i32, is_u32 in *. do 2 f_equal. rewrite !u32_mod. Z.div_mod_to_equations. lia.
  - rewrite decide_False, decide_False, decide_True by done. eapply consumes_bind; [apply consumes_rd; by apply takes_bytes|]. by apply Hend.
  - rewrite decide_False, decide_True by done. change (len :: domain) with ([len] ++ domain). rewrite <- app_assoc.
    eapply consumes_bind; [apply consumes_rd, takes_byte|]. eapply consumes_bind; [apply consumes_rd; by apply takes_bytes|]. rewrite Hres. by apply Hend.
Qed.

(** asking for a relay sends the ten bytes of the request; an answer with the version, no
    error and an address of any of the three kinds gives the relay, whatever follows;
    a version or an error other than these makes the connection count as failed. *)
Theorem socks_association (s : S5) (stack r : list Z) (Hs : st_ok (sx_tcp s)) (Hi : inbox (sx_tcp s) <> []) (Hb : length stack = 1024%nat)
  (Hu : sx_udp s <> None) (Hr : r = answer 1024 (sx_tcp s)) :
  (forall rsv bs a port more, is_byte rsv -> bound_to bs a -> 0 <= port < 65536 -> r = [5; 0; rsv] ++ bs ++ [Z.shiftr port 8; Z.land port 0xFF] ++ more ->
    exists t, st_ok t /\ inbox t = drop (length r) (inbox (sx_tcp s)) /\ outbox t = outbox (sx_tcp s) ++ [5; 3; 0; 1; 0; 0; 0; 0; 0; 0] /\
      sx_open resolve stack s = (Value tt, set_tcp t (set_port port (set_address (Some a) s)))) /\
  (match r with 5 :: 0 :: _ => False | _ => True end -> exists t, st_ok t /\ sx_open resolve stack s = (Value tt, set_failed (set_tcp t s))).
Proof.
  assert (writes write_associate [5; 3; 0; 1; 0; 0; 0; 0; 0; 0]) as Hw.
  { change [5; 3; 0; 1; 0; 0; 0; 0; 0; 0] with ([5] ++ [3] ++ [0] ++ [1] ++ le_bytes 4 0 ++ le_bytes 2 0). unfold write_associate. writes_go. }
  destruct (exchange_ok s stack _ _ Hs Hi Hw) as (buf & t & E & Hbuf & _ & A1 & A2 & A3 & _); [cbn; lia|lia|]. rewrite Hb, <- Hr in E, Hbuf, A2.
  assert (sx_open resolve stack s = match (if decide (length r < 2)%nat then None else Some (length r)) with
    None => fail (set_tcp t s) | Some l => catch (reading (take l buf) (read_association resolve)) fail (set_tcp t s) end) as Eo.
  { unfold sx_open. erewrite run_bind by reflexivity. rewrite decide_False by (unfold sx_protocol; destruct (sx_udp s); [by intros N; apply N|done]). erewrite run_bind by exact E. cbv beta iota. by destruct (decide _). }
  split.
  - intros rsv bs a port more Hrsv Hbnd Hp Er. assert (exists atyp bs', bs = atyp :: bs') as (atyp & bs' & ->) by (inversion Hbnd; eauto).
    destruct (bound_consumed (set_tcp t s) atyp bs' a port A1 Hp Hbnd) as (t' & B1 & B2 & B3 & C). exists t'. cbn [set_tcp sx_tcp] in B2, B3. rewrite A2 in B2. rewrite A3 in B3. do 3 (split; [done|]).
    rewrite Eo, decide_False, Hbuf by (rewrite Er; cbn; lia). unfold catch. rewrite Er.
    assert ([5; 0; rsv] ++ (atyp :: bs') ++ [Z.shiftr port 8; Z.land port 255] ++ more = ([5] ++ [0] ++ [rsv] ++ [atyp] ++ bs' ++ [Z.shiftr port 8; Z.land port 255]) ++ more) as -> by (cbn [app]; by rewrite <- app_assoc).
    erewrite reading_ok; [reflexivity|]. unfold read_association. eapply consumes_bind; [apply consumes_rd, takes_byte|]. eapply consumes_bind; [apply consumes_rd, takes_byte|].
    rewrite decide_False, decide_False by (intros N; by apply N). eapply consumes_bind; [apply consumes_rd, takes_byte|]. eapply consumes_bind; [apply consumes_rd, takes_byte|exact C].
  - intros Hbad. exists t. split; [exact A1|]. rewrite Eo. destruct (decide (length r < 2)%nat) as [Hl|Hl]; [done|]. rewrite Hbuf.
    destruct r as [|v [|rep l]]; [cbn in Hl; lia|cbn in Hl; lia|]. unfold catch.
    change (v :: rep :: l) with (([v] ++ [rep] ++ []) ++ l). erewrite reading_ok; [reflexivity|]. unfold read_association.
    eapply consumes_bind; [apply consumes_rd, takes_byte|]. eapply consumes_bind; [apply consumes_rd, takes_byte|].
    destruct (decide (v <> 5)) as [Hv|Hv]; [by apply consumes_st|]. destruct (decide (rep <> 0)) as [Hrep|Hrep]; [by apply consumes_st|].
    exfalso. assert (v = 5 /\ rep = 0) as [-> ->] by lia. exact Hbad.
Qed.
End association.

(** ** Connections through the proxy *)

Section connections.
Context {T U : Type} `{StreamSocket T} `{Socket U}.
Abbreviation S5 := (socks T U).

(** A proxy that asks for nothing. *)
Lemma init_open (s : S5) stack : st_ok (sx_tcp s) -> length stack = 1024%nat -> available (sx_tcp s) = 2%nat -> take 2 (inbox (sx_tcp s)) = [5; 0] ->
  exists t, sx_init stack s = (Value tt, set_tcp t s) /\ st_ok t /\ inbox t = drop 2 (inbox (sx_tcp s)) /\ cuts t = tail (cuts (sx_tcp s)) /\
    outbox t = outbox (sx_tcp s) ++ greeting (sx_username s).
Proof.
  intros Hs Hb Ha Hr. unfold sx_init. destruct (run_timeouts 1 2 s Hs) as (t0 & E0 & Z1 & Z2 & Z3 & Z4). erewrite run_bind by exact E0. erewrite run_bind by reflexivity.
  assert (answer (length stack) t0 = [5; 0]) as Han by (unfold answer, available in *; by rewrite Hb, Z3, Z4, Ha).
  destruct (exchange_ok (set_tcp t0 s) stack _ _ Z1 ltac:(intros N; cbn in N; rewrite <- Z3, N in Hr; discriminate) (greeting_writes (sx_username s))) as (buf & t & E & Ht & Hbl & A1 & A2 & A3 & A4);
    [unfold greeting; case_decide; cbn; lia|lia|]. cbn [set_tcp sx_tcp] in *. rewrite Han in *. cbn [length] in *.
  erewrite run_bind by exact E. cbv beta iota. rewrite decide_False by lia. rewrite Ht. erewrite run_bind by apply read_two_ok. cbv beta iota.
  unfold choose. erewrite run_bind by reflexivity. rewrite decide_False by lia. rewrite decide_True by done.
  destruct (run_timeouts 5 60 (set_tcp t (set_tcp t0 s)) A1) as (t' & E' & B1 & B2 & B3 & B4). exists t'. cbn [set_tcp sx_tcp] in *.
  split; [exact E'|]. split; [exact B1|]. rewrite B3, B4, B2, A2, A3, A4, Z2, Z3, Z4; [done|]. unfold available in *. by rewrite Z4, Ha.
Qed.

(** The request to connect and its outcome. *)
Definition request (a : NetworkAddress) (port : Z) : list Z := [5; 1; 0] ++ address_bytes a ++ [Z.shiftr port 8; Z.land port 0xFF].
Definition connected (r : list Z) : bool := match r with v :: rep :: _ => (v =? 5) && (rep =? 0) | _ => false end.
Lemma request_writes a port : address_ok a -> 0 <= port < 65536 -> writes (write_connect a port) (request a port).
Proof.
  intros Ha Hp. unfold write_connect, request. rewrite <- swap16_bytes by exact Hp. change ([5; 1; 0] ++ ?l) with ([5] ++ [1] ++ [0] ++ l).
  do 3 (apply writes_bind; [apply writes_byte|]). apply writes_bind; [by apply address_writes|apply writes_int16].
Qed.
Lemma connect_ok (s : S5) stack a port : st_ok (sx_tcp s) -> inbox (sx_tcp s) <> [] -> length stack = 1024%nat -> sx_failed s = false -> address_ok a -> 0 <= port < 65536 ->
  let r := answer 1024 (sx_tcp s) in
  exists t, st_ok t /\ inbox t = drop (length r) (inbox (sx_tcp s)) /\ outbox t = outbox (sx_tcp s) ++ request a port /\
    sx_connect stack a port s = (Value tt, if connected r then set_tcp t (set_port port (set_address (Some a) s)) else set_failed (set_tcp t s)).
Proof.
  intros Hs Hi Hb Hf Ha Hp r. unfold sx_connect. erewrite run_bind by reflexivity. rewrite Hf.
  destruct (run_timeouts 1 2 s Hs) as (t0 & E0 & Z1 & Z2 & Z3 & Z4). erewrite run_bind by exact E0.
  assert (answer (length stack) t0 = r) as Han by (unfold r, answer, available in *; by rewrite Hb, Z3, Z4).
  destruct (exchange_ok (set_tcp t0 s) stack _ _ Z1 ltac:(by cbn; rewrite Z3) (request_writes a port Ha Hp)) as (buf & t & E & Ht & Hbl & A1 & A2 & A3 & _);
    [unfold request; rewrite !length_app; cbn [length]; assert (length (address_bytes a) <= 17)%nat by (destruct a; cbn in *; lia); lia|lia|].
  cbn [set_tcp sx_tcp] in *. rewrite Han, ?Z3, ?Z2 in *. erewrite run_bind by exact E. cbv beta iota.
  destruct (decide (length r < 2)%nat) as [Hl|Hl].
  { exists t. do 3 (split; [done|]). assert (connected r = false) as -> by (destruct r as [|? [|]]; [done|done|cbn in Hl; lia]). done. }
  rewrite Ht. clearbody r. destruct r as [|v [|rep l]]; [cbn in Hl; lia|cbn in Hl; lia|]. cbn [connected].
  erewrite run_bind by (unfold read_from; by rewrite (takes_byte v (new_input (v :: rep :: l)) (rep :: l)) by done).
  destruct (decide (v <> 5)) as [Hv|Hv]; [exists t; replace (v =? 5) with false by lia; done|]. erewrite run_bind by apply read_two_ok. cbv beta iota.
  destruct (decide (rep <> 0)) as [Hrep|Hrep]; [exists t; replace (rep =? 0) with false by lia; rewrite andb_false_r; done|].
  replace ((v =? 5) && (rep =? 0)) with true by lia. erewrite run_bind by reflexivity.
  destruct (run_timeouts 5 60 (set_port port (set_address (Some a) (set_tcp t (set_tcp t0 s)))) A1) as (t' & E' & B1 & B2 & B3 & _). exists t'. cbn [set_port set_address set_tcp sx_tcp] in *.
  rewrite B2, B3. split; [exact B1|]. split; [exact A2|]. split; [exact A3|exact E'].
Qed.
End connections.

(** A connection through the proxy is a stream as the one to the proxy is. *)
#[export] Program Instance socks_stream (stack dgram : list Z) {T U} `{StreamSocket T} `{Socket U} : @StreamSocket (socks T U) (socks_socket stack dgram) := {
  st_ok := fun s => sx_udp s = None /\ sx_failed s = false /\ st_ok (sx_tcp s);
  inbox := fun s => inbox (sx_tcp s); cuts := fun s => cuts (sx_tcp s); outbox := fun s => outbox (sx_tcp s)
}.
Next Obligation. intros stack dgram T U ??? s (_ & _ & Hs) Hi. by apply st_alive. Qed.
Next Obligation. intros stack dgram T U ??? s (_ & Hf & Hs). cbn. unfold sx_is_failed. by rewrite Hf, (st_works _ Hs). Qed.
Next Obligation. intros stack dgram T U ??? s x y Hs. by exists s. Qed.
Next Obligation.
  intros stack dgram T U ??? s p (Hu & Hf & Hs) Hl. destruct (st_send (sx_tcp s) p Hs Hl) as (t & E & A1 & A2). exists (set_tcp t s).
  split; [|by split; [split; [exact Hu|by split]|]]. cbn. unfold sx_send. erewrite run_bind by reflexivity. unfold sx_protocol. rewrite Hu. by apply run_tcp.
Qed.
Next Obligation.
  intros stack dgram T U ??? s p (Hu & Hf & Hs) Hl Hi. destruct (st_receive (sx_tcp s) p Hs Hl Hi) as (p' & t & E & A1 & A2). exists p', (set_tcp t s).
  split; [|by split; [split; [exact Hu|by split]|]]. cbn. unfold sx_receive. erewrite run_bind by reflexivity. unfold sx_protocol. rewrite Hu. by apply run_tcp.
Qed.

(** ** Examples *)

Definition demo_socks (chunks : list (list Z)) (datagrams : list (option datagram)) : socks posix posix :=
  new_socks (demo_tcp chunks) (Some (new_posix PROTO_UDP d0 (Kernel [] datagrams [] [] [] [] [] [] [] d0 [] [] (0, 0)))) (str "user") (str "secret").
Lemma demo_st_ok chunks ds : Forall (fun c => c <> []) chunks -> st_ok (sx_tcp (demo_socks chunks ds)).
Proof. intros Hc. by repeat split. Qed.
Lemma socks_negotiation_witness :
  exists s', sx_init (zeros 1024) (demo_socks [[5; 2]; [1; 0]] []) = (Value tt, s') /\ sx_failed s' = false /\
    k_stream (kern (sx_tcp s')) = [5; 2; 0; 2] ++ [1; 4] ++ str "user" ++ [6] ++ str "secret".
Proof.
  destruct (socks_negotiation (demo_socks [[5; 2]; [1; 0]] []) (zeros 1024)) as (r2 & s' & E & _ & Hi & Ho & _ & Hf);
    [apply demo_st_ok; repeat constructor; discriminate|discriminate|reflexivity|by intros _|].
  exists s'. split; [exact E|]. apply (f_equal snd) in E. cbn [snd] in E. rewrite <- E. vm_compute. split; reflexivity.
Defined.
Definition relay_at : list Z := slice (map_v4 (demo_tcp []) 16777343) 0 16.
Definition demo_via (ds : list (option datagram)) : socks posix posix := set_port 1080 (set_address (Some (IPv4Address 16777343)) (demo_socks [] ds)).
Definition demo_wrapped : list Z := wrap (IPv4Address 0x04030201) 443 [7; 8; 9].
Lemma socks_datagrams_witness :
  let s := demo_via [Some (Datagram relay_at 1080 demo_wrapped)] in
  let packet := plain (zeros 1500) 1500 in
  exists p s', sx_receive (zeros 1500) packet s = (Value p, s') /\ pk_address p = Some (IPv4Address 0x04030201) /\ pk_port p = 443 /\ take (pk_length p) (pk_data p) = [7; 8; 9].
Proof.
  intros s packet. set (u := new_posix PROTO_UDP d0 (Kernel [] [Some (Datagram relay_at 1080 demo_wrapped)] [] [] [] [] [] [] [] d0 [] [] (0, 0))).
  assert (match (sk_receive (plain (zeros 1500) 1500) u).1 with Value p => (from_relay s p, take (pk_length p) (pk_data p)) | _ => (false, []) end = (true, demo_wrapped)) as Ef
    by (vm_compute; reflexivity).
  destruct (sk_receive (plain (zeros 1500) 1500) u) as [[p| |] u'] eqn:Er; cbn [fst] in Ef; [|discriminate|discriminate]. injection Ef as Ef Ed.
  destruct (socks_datagrams s u u' (zeros 1500) packet p ltac:(apply length_zeros) eq_refl ltac:(discriminate) Er) as (_ & _ & H).
  destruct (H Ef) as [Hd _]. eexists _, _. split; [apply (Hd (IPv4Address 0x04030201) 443 [7; 8; 9]); [exact Ed|unfold address_ok, is_u32; lia|lia]|].
  vm_compute. done.
Defined.
Lemma socks_association_witness :
  let s := demo_socks [[5; 0; 0; 1; 127; 0; 0; 1; 4; 56]] [] in
  exists t, sx_open (fun _ => None) (zeros 1024) s = (Value tt, set_tcp t (set_port 1080 (set_address (Some (IPv4Address 16777343)) s))).
Proof.
  intros s. destruct (socks_association (fun _ => None) s (zeros 1024) [5; 0; 0; 1; 127; 0; 0; 1; 4; 56]) as [H _];
    [apply demo_st_ok; repeat constructor; discriminate|discriminate|reflexivity|discriminate|reflexivity|].
  destruct (H 0 [1; 127; 0; 0; 1] (IPv4Address 16777343) 1080 []) as (t & _ & _ & _ & E); [unfold is_byte; lia|apply (bound_v4 _ 16777343); unfold is_u32; lia|lia|reflexivity|].
  by exists t.
Defined.
