(* ===== verification/VoipNet.v ===== *)
(** * libtgvoip: the sockets of a call

    How [src/submodules/libtgvoip/VoIPController.cpp] uses its sockets: a packet goes
    out through [ActuallySendPacket], over the socket of its relay, which is opened on
    demand and through the proxy, or over the UDP socket, which [InitUDPProxy] may
    have wrapped; a turn of [RunRecvThread] takes one packet from the socket that
    [Select] reports. New sockets meet the kernels of a script. *)

From stdpp Require Import gmap.
From S2P Require Import Prelude Exn VoipBuffers Double VoipDefs VoipCrypto VoipPacket VoipState VoipControl VoipReceive VoipSafety VoipSocket VoipSocks.

Inductive proxy := PROXY_NONE | PROXY_SOCKS5 | PROXY_OTHER.
#[export] Instance proxy_eq_dec : EqDecision proxy.
Proof. solve_decision. Defined.
Inductive udp_socket := DirectUDP (p : posix) | ProxiedUDP (s : socks posix posix).
Inductive relay_socket := DirectTCP (o : obfuscated posix) | ProxiedTCP (o : obfuscated (socks posix posix)).

Record network := Network {
  udpSocket : udp_socket; relaySockets : gmap nat relay_socket;
  proxyProtocol : proxy; resolvedProxyAddress : NetworkAddress; proxyPort : Z; proxyUsername : list Z; proxyPassword : list Z;
  newKernels : list kernel; newNonces : list (list (list Z)); cancelled : nat; netFailed : bool
}.
#[export] Instance network_eta : Eta network := fun n => Network (udpSocket n) (relaySockets n) (proxyProtocol n) (resolvedProxyAddress n) (proxyPort n)
  (proxyUsername n) (proxyPassword n) (newKernels n) (newNonces n) (cancelled n) (netFailed n).

Section network.
Context `{CtrFunctions}.
(** What the buffers on the stack hold: of the lengths of an obfuscated packet, of an
    exchange with the proxy, of a wrapped datagram. *)
Variables (stack4 stack1024 stack1500 : list Z) (timeout : double).
#[local] Instance proxied : Socket (socks posix posix) := socks_socket stack1024 stack1500.

(** ** Opening the connection to a relay *)

(** Over a socket that can connect: the obfuscation, and the first packet; the states of
    the obfuscation when all went well. *)
Definition open_obfuscated {W} `{Socket W} (draws : list (list Z)) (packet : NetworkPacket) : M (obfuscated W) bool :=
  ob_init draws ;;
  failed ← gets (fun o => sk_failed (wrapped o));
  if failed : bool then inner sk_close ;; mret false else ob_send packet ;; mret true.
(** An object made by operations that may fail, throw or abort; a failed one is deleted. *)
Definition create {S} (m : M S bool) (s : S) : outcome (option S) :=
  match m s with
  | (Value made, s) => Value (if made : bool then Some s else None)
  | (Thrown, _) => Thrown
  | (Aborted, _) => Aborted
  end.
Definition connect_relay {W} `{Socket W} (draws : list (list Z)) (address : NetworkAddress) (port : Z) (packet : NetworkPacket) : W -> outcome (option (obfuscated W)) := fun w =>
  create (inner (sk_connect address port) ;;
          failed ← gets (fun o => sk_failed (wrapped o));
          if failed : bool then mret false else open_obfuscated draws packet) (Obfuscated w (fresh_state [] []) (fresh_state [] [])).
Definition pop_kernel (n : network) : kernel := match newKernels n with [] => Kernel [] [] [] [] [false] [] [] [] [] d0 [] [] (0, 0) | k :: _ => k end.
Definition pop_nonces (n : network) : list (list Z) := match newNonces n with [] => [] | l :: _ => l end.
(** A connection to the proxy, negotiated. *)
Definition connect_proxy (n : network) (udp : option posix) : outcome (option (socks posix posix)) :=
  match create (sk_connect (resolvedProxyAddress n) (proxyPort n) ;; failed ← gets sk_failed; mret (negb failed)) (new_posix PROTO_TCP timeout (pop_kernel n)) with
  | Value (Some rawTcp) => create (sx_init stack1024 ;; failed ← gets sk_failed; mret (negb failed)) (new_socks rawTcp udp (proxyUsername n) (proxyPassword n))
  | Value None => Value None
  | Thrown => Thrown
  | Aborted => Aborted
  end.
Definition omap_out {A B} (f : A -> B) (o : outcome (option A)) : outcome (option B) :=
  match o with Value x => Value (f <$> x) | Thrown => Thrown | Aborted => Aborted end.
Definition open_relay (n : network) (address : NetworkAddress) (port : Z) (packet : NetworkPacket) : outcome (option relay_socket) :=
  match proxyProtocol n with
  | PROXY_NONE => omap_out DirectTCP (connect_relay (pop_nonces n) address port packet (new_posix PROTO_TCP timeout (pop_kernel n)))
  | PROXY_SOCKS5 =>
      match connect_proxy n None with
      | Value (Some s) => omap_out ProxiedTCP (connect_relay (pop_nonces n) address port packet s)
      | Value None => Value None
      | Thrown => Thrown
      | Aborted => Aborted
      end
  | PROXY_OTHER => Value None
  end.
Definition relay_failed (s : relay_socket) : bool := match s with DirectTCP o => sk_failed (wrapped o) | ProxiedTCP o => sk_failed (wrapped o) end.
Definition relay_send (packet : NetworkPacket) : M relay_socket unit := fun s =>
  match s with
  | DirectTCP o => let '(r, o) := ob_send packet o in (r, DirectTCP o)
  | ProxiedTCP o => let '(r, o) := ob_send packet o in (r, ProxiedTCP o)
  end.
Definition next_sockets (n : network) : network := n <| newKernels := drop 1 (newKernels n) |> <| newNonces := drop 1 (newNonces n) |>.

(** ** [ActuallySendPacket] *)

(** [i] is the endpoint, [relay] whether it is a TCP relay. A proxy of an unknown kind
    fails the call. *)
Definition ActuallySendPacket (i : nat) (relay : bool) (address : NetworkAddress) (port : Z) (packet : NetworkPacket) : M network unit := fun n =>
  if relay then
    match (match relaySockets n !! i with Some s => if relay_failed s then None else Some s | None => None end) with
    | Some s => let '(r, s) := relay_send packet s in (r, n <| relaySockets := <[i := s]> (relaySockets n) |>)
    | None =>
        let n := n <| relaySockets := delete i (relaySockets n) |> in
        match proxyProtocol n with
        | PROXY_OTHER => (Value tt, n <| netFailed := true |>)
        | _ =>
            match open_relay n address port packet with
            | Value (Some s) => (Value tt, next_sockets n <| relaySockets := <[i := s]> (relaySockets n) |> <| cancelled := S (cancelled n) |>)
            | Value None => (Value tt, next_sockets n)
            | Thrown => (Thrown, next_sockets n)
            | Aborted => (Aborted, next_sockets n)
            end
        end
    end
  else
    match udpSocket n with
    | DirectUDP p => let '(r, p) := Send packet p in (r, n <| udpSocket := DirectUDP p |>)
    | ProxiedUDP s => let '(r, s) := sx_send stack1500 packet s in (r, n <| udpSocket := ProxiedUDP s |>)
    end.

(** ** [InitUDPProxy] *)

(** The proxy that was there is replaced; whether UDP can be used, [None] when the proxy
    cannot be reached and the call fails. *)
Definition InitUDPProxy (resolve : list Z -> option NetworkAddress) : M network (option bool) := fun n =>
  match udpSocket n with
  | ProxiedUDP {| sx_udp := None |} => (Value (Some false), n)
  | ProxiedUDP {| sx_udp := Some real |} | DirectUDP real =>
      let n := n <| udpSocket := DirectUDP real |> in
      match create (sk_connect (resolvedProxyAddress n) (proxyPort n) ;; failed ← gets sk_failed; mret (negb failed)) (new_posix PROTO_TCP timeout (pop_kernel n)) with
      | Value None => (Value None, next_sockets n)
      | Value (Some rawTcp) =>
          match create (sx_init stack1024 ;; sx_open resolve stack1024 ;; failed ← gets sx_is_failed; mret (negb failed))
                  (new_socks rawTcp (Some real) (proxyUsername n) (proxyPassword n)) with
          | Value (Some s) => (Value (Some true), next_sockets n <| udpSocket := ProxiedUDP s |>)
          | Value None => (Value (Some false), next_sockets n)
          | Thrown => (Thrown, next_sockets n)
          | Aborted => (Aborted, next_sockets n)
          end
      | Thrown => (Thrown, next_sockets n)
      | Aborted => (Aborted, next_sockets n)
      end
  end.

(** ** The receive thread *)

Inductive sock_id := UDP | RELAY (i : nat).
#[export] Instance sock_id_eq_dec : EqDecision sock_id.
Proof. solve_decision. Defined.
Definition receive_on (id : sock_id) (packet : NetworkPacket) : M network NetworkPacket := fun n =>
  match id with
  | UDP =>
      match udpSocket n with
      | DirectUDP p => let '(r, p) := Receive packet p in (r, n <| udpSocket := DirectUDP p |>)
      | ProxiedUDP s => let '(r, s) := sx_receive stack1500 packet s in (r, n <| udpSocket := ProxiedUDP s |>)
      end
  | RELAY i =>
      match relaySockets n !! i with
      | Some (DirectTCP o) => let '(r, o) := ob_receive stack4 packet o in (r, n <| relaySockets := <[i := DirectTCP o]> (relaySockets n) |>)
      | Some (ProxiedTCP o) => let '(r, o) := ob_receive stack4 packet o in (r, n <| relaySockets := <[i := ProxiedTCP o]> (relaySockets n) |>)
      | None => (Aborted, n)
      end
  end.
Definition close_failed (errorSockets : list sock_id) (n : network) : network :=
  foldl (fun n id => match id with RELAY i => n <| relaySockets := delete i (relaySockets n) |> | UDP => n end) n errorSockets.
Definition sender (a : NetworkAddress) : Z + list Z := match a with IPv4Address v4 => inl v4 | IPv6Address v6 => inr v6 end.

Context `{crypto : CryptoFunctions} `{cfg : Config}.
Variables (now : double) (NDEBUG : bool) (junkTag : list Z).
Definition net {A} (m : M network A) : M (network * controller) A := zoom fst (fun n s => (n, snd s)) m.
Definition call {A} (m : M controller A) : M (network * controller) A := zoom snd (fun c s => (fst s, c)) m.
(** An exception that nothing catches ends the program. *)
Definition uncaught {W A} (m : M W A) : M W A := fun w => match m w with (Thrown, w) => (Aborted, w) | r => r end.
(** One turn, with the packet of the turn before; [None] when the thread ends. [Select]
    has been cancelled or has left these sockets. *)
Definition RunRecvThread (selected : bool) (readSockets errorSockets : list sock_id) (packet : NetworkPacket) : M (network * controller) (option NetworkPacket) :=
  let packet := packet <| pk_length := 1500%nat |> in
  if negb selected then mret (Some packet) else
  if decide (UDP ∈ errorSockets) then call (SetState STATE_FAILED now) ;; mret None else
  match (if decide (UDP ∈ readSockets) then Some UDP else head readSockets) with
  | None => net (modify (close_failed errorSockets)) ;; mret (Some packet)
  | Some id =>
      packet ← uncaught (net (receive_on id packet));
      match pk_address packet with
      | None => mret (Some packet)
      | Some a =>
          call (receive_packet now NDEBUG junkTag (bool_decide (pk_protocol packet = PROTO_TCP)) (sender a) (pk_port packet) (take (pk_length packet) (pk_data packet))) ;;
          mret (Some packet)
      end
  end.
End network.

(** ** Relays *)

Section relays.
Context `{CtrFunctions} (stack4 stack1024 stack1500 : list Z) (timeout : double).
#[local] Instance proxied' : Socket (socks posix posix) := socks_socket stack1024 stack1500.
#[local] Instance proxied_stream : StreamSocket (socks posix posix) := socks_stream stack1024 stack1500.

(** What has been sent on the connection of a relay, and the state of its obfuscation. *)
Definition relay_out (s : relay_socket) : list Z := match s with DirectTCP o => outbox (wrapped o) | ProxiedTCP o => outbox (wrapped o) end.
Definition relay_state (s : relay_socket) : TCPO2State := match s with DirectTCP o => sendState o | ProxiedTCP o => sendState o end.
Definition relay_ok (s : relay_socket) : Prop := match s with DirectTCP o => st_ok (wrapped o) | ProxiedTCP o => st_ok (wrapped o) end.
Lemma relay_works s : relay_ok s -> relay_failed stack1024 stack1500 s = false.
Proof. destruct s as [o|o]; exact (st_works (wrapped o)). Qed.
Lemma relay_send_ok s k v n l : relay_ok s -> ctr_at k v n (relay_state s) -> Z.of_nat (length l) < 2 ^ 24 ->
  exists s', relay_send stack1024 stack1500 (plain l (length l)) s = (Value tt, s') /\
  relay_ok s' /\ ctr_at k v (n + length (frame_bytes l)) (relay_state s') /\ relay_out s' = relay_out s ++ masked k v n (frame_bytes l).
Proof.
  intros Hs Hc Hl. destruct s as [o|o]; cbn [relay_ok relay_state relay_send relay_out] in *;
    destruct (ob_send_ok k v n o (plain l (length l)) Hs Hc) as (o' & E & A1 & A2 & _ & A3 & _); try (cbn; lia);
    cbn [plain pk_length pk_data] in *; rewrite take_ge in * by lia; try change (proxied stack1024 stack1500) with proxied'; rewrite E; by eexists.
Qed.

(** A nonce the connection can start with, after some it cannot. *)
Definition draws_of (nonce : list Z) (draws : list (list Z)) : Prop :=
  exists before after, draws = before ++ nonce :: after /\ Forall (fun d => refused d = true) before /\ refused nonce = false /\ length nonce = 64%nat.
(** The keys in the first 64 bytes, and the tag they protect. *)
Definition opened (hdr k v : list Z) : Prop :=
  length hdr = 64%nat /\ refused hdr = false /\ k = slice hdr 8 32 /\ v = slice hdr 40 16 /\ slice (masked k v 0 hdr) 56 4 = [0xef; 0xef; 0xef; 0xef].
Lemma connect_relay_ok {W} `{StreamSocket W} nonce draws a port l (w w1 : W) : sk_connect a port w = (Value tt, w1) -> st_ok w1 -> draws_of nonce draws -> Z.of_nat (length l) < 2 ^ 24 ->
  exists o hdr k v, connect_relay draws a port (plain l (length l)) w = Value (Some o) /\ opened hdr k v /\ st_ok (wrapped o) /\
    outbox (wrapped o) = outbox w1 ++ hdr ++ masked k v 64 (frame_bytes l) /\ ctr_at k v (64 + length (frame_bytes l)) (sendState o).
Proof.
  intros E Hw (before & after & -> & Hb & Hn & Hl64) Hl. set (o0 := Obfuscated w1 (fresh_state [] []) (fresh_state [] [])). destruct (opens_ok o0 before after nonce Hw Hb Hn Hl64) as (hdr & o1 & E1 & A1 & A2 & A3 & A4 & A5 & A6 & _).
  destruct (ob_send_ok _ _ _ o1 (plain l (length l)) A1 A6) as (o2 & E2 & B1 & B2 & _ & B3 & _); [cbn; lia|exact Hl|]. cbn [plain pk_length pk_data] in *. rewrite take_ge in * by lia.
  unfold connect_relay, create, open_obfuscated. rewrite (run_bind _ _ _ tt o0) by (unfold inner, zoom; cbn [wrapped]; by rewrite E).
  rewrite (run_bind _ _ _ (sk_failed w1) o0) by reflexivity. rewrite (st_works w1 Hw).
  rewrite (run_bind _ _ _ _ _ E1). rewrite (run_bind _ _ _ (sk_failed (wrapped o1)) o1) by reflexivity. rewrite (st_works _ A1). rewrite (run_bind _ _ _ _ _ E2).
  exists o2, hdr, (slice hdr 8 32), (slice hdr 40 16). split; [done|]. split; [done|]. split; [exact B1|]. split; [by rewrite B3, A2, <- app_assoc|exact B2].
Qed.

(** A system that connects and takes what it is given. *)
Definition healthy (k : kernel) : Prop := k_sockets k = [] /\ k_connects k = [] /\ k_sends k = [] /\ Forall (fun c => c <> []) (k_chunks k) /\ k_stream k = [].
Lemma posix_connects k a port : healthy k -> exists p, Connect a port (new_posix PROTO_TCP timeout k) = (Value tt, p) /\ tcp_ok p /\
  k_stream (kern p) = [] /\ k_chunks (kern p) = k_chunks k.
Proof.
  intros (H1 & H2 & H3 & H4 & H5). destruct k. cbn in *. subst. eexists. split; [reflexivity|]. by repeat split.
Qed.

(** What the proxy, when there is one, has to answer for the relay at [a] to be reached,
    and what it is sent before. *)
Definition reachable (n : network) (k : kernel) : Prop :=
  match proxyProtocol n with
  | PROXY_NONE => True
  | PROXY_SOCKS5 => proxyUsername n = [] /\ exists r2 more, k_chunks k = [5; 0] :: r2 :: more /\ connected r2 = true /\ (length r2 <= 1024)%nat
  | PROXY_OTHER => False
  end.
Definition preamble (n : network) (a : NetworkAddress) (port : Z) : list Z :=
  match proxyProtocol n with PROXY_SOCKS5 => [5; 1; 0] ++ request a port | _ => [] end.
Lemma create_checked {S} (m : M S unit) (failed : S -> bool) s t : m s = (Value tt, t) -> failed t = false ->
  create (m ;; b ← gets failed; mret (negb b)) s = Value (Some t).
Proof. intros E F. unfold create. rewrite (run_bind _ _ _ _ _ E). rewrite (run_bind _ _ _ (failed t) t) by reflexivity. by rewrite F. Qed.
Lemma proxy_connects (n : network) k ks a port : newKernels n = k :: ks -> healthy k -> proxyProtocol n = PROXY_SOCKS5 -> reachable n k -> length stack1024 = 1024%nat ->
  address_ok a -> 0 <= port < 65536 ->
  exists s s1, connect_proxy stack1024 stack1500 timeout n None = Value (Some s) /\ sk_connect a port s = (Value tt, s1) /\ st_ok s1 /\ outbox s1 = [5; 1; 0] ++ request a port.
Proof.
  intros Hk Hh Hp Hr Hst Ha Hport. unfold reachable in Hr. rewrite Hp in Hr. destruct Hr as (Hu & r2 & more & Hc & Hcon & Hl).
  destruct (posix_connects k (resolvedProxyAddress n) (proxyPort n) Hh) as (p & E & A1 & A2 & A3). unfold connect_proxy, pop_kernel. rewrite Hk.
  assert (sk_failed p = false) as F by exact (st_works p A1).
  erewrite (create_checked _ _ (new_posix PROTO_TCP timeout k) p) by (first [exact E|exact F]). set (s0 := new_socks p None (proxyUsername n) (proxyPassword n)).
  assert (0 < length r2)%nat as Hr2 by (destruct r2; [done|cbn; lia]).
  assert (st_ok (sx_tcp s0)) as A1' by exact A1.
  destruct (init_open s0 stack1024 A1' Hst) as (t & E1 & B1 & B2 & B3 & B4); [cbn; unfold available; cbn; unfold tcp_cuts; by rewrite A3, Hc|cbn; by rewrite A3, Hc|].
  cbn [s0 new_socks sx_tcp sx_username inbox cuts outbox posix_stream] in B2, B3, B4. unfold tcp_cuts in B3. rewrite A3, Hc in B2, B3. rewrite A2, Hu in B4. cbn in B2, B3, B4.
  exists (set_tcp t s0). change (proxied stack1024 stack1500) with proxied'. assert (sx_is_failed (set_tcp t s0) = false) as F2 by (cbn; unfold sx_is_failed; cbn; exact (st_works t B1)).
  erewrite (create_checked _ _ s0 (set_tcp t s0)) by (first [exact E1|exact F2]).
  destruct (connect_ok (set_tcp t s0) stack1024 a port B1) as (t2 & C1 & _ & C3 & C4); [cbn; rewrite B2; destruct r2; [done|discriminate]|exact Hst|done|exact Ha|exact Hport|].
  assert (answer 1024 t = r2) as Han.
  { unfold answer, available. cbn [inbox cuts posix_stream]. unfold tcp_cuts. rewrite B2, B3. cbn [hd]. rewrite Nat.min_r by exact Hl. apply take_app_length. }
  cbn [set_tcp sx_tcp] in C3, C4. rewrite Han, Hcon in C4.
  exists (set_tcp t2 (set_port port (set_address (Some a) (set_tcp t s0)))). split; [done|].
  split; [exact C4|]. split; [by repeat split; apply C1|]. cbn. cbn in C3. rewrite C3, B4. done.
Qed.
Lemma open_relay_ok (n : network) k ks nonce draws rest a port l : newKernels n = k :: ks -> healthy k -> reachable n k -> length stack1024 = 1024%nat ->
  newNonces n = draws :: rest -> draws_of nonce draws -> address_ok a -> 0 <= port < 65536 -> Z.of_nat (length l) < 2 ^ 24 ->
  exists s hdr kk v, open_relay stack1024 stack1500 timeout n a port (plain l (length l)) = Value (Some s) /\ opened hdr kk v /\ relay_ok s /\
    relay_out s = preamble n a port ++ hdr ++ masked kk v 64 (frame_bytes l) /\ ctr_at kk v (64 + length (frame_bytes l)) (relay_state s).
Proof.
  intros Hk Hh Hr Hst Hn Hd Ha Hport Hl. unfold open_relay, preamble, pop_nonces. rewrite Hn. destruct (proxyProtocol n) eqn:Hp.
  - destruct (posix_connects k a port Hh) as (p & E & A1 & A2 & _).
    destruct (connect_relay_ok (W := posix) (H0 := posix_socket) (H1 := posix_stream) nonce draws a port l (new_posix PROTO_TCP timeout k) p E A1 Hd Hl) as (o & hdr & kk & v & E2 & B1 & B2 & B3 & B4).
    exists (DirectTCP o), hdr, kk, v. unfold pop_kernel. rewrite Hk, E2. cbn [omap_out]. split; [done|]. split; [exact B1|]. split; [exact B2|]. split; [|exact B4].
    cbn [relay_out]. rewrite B3. cbn [outbox posix_stream]. by rewrite A2.
  - destruct (proxy_connects n k ks a port Hk Hh Hp Hr Hst Ha Hport) as (s & s1 & E1 & E2 & A1 & A2). rewrite E1.
    change (proxied stack1024 stack1500) with proxied'.
    destruct (connect_relay_ok (W := socks posix posix) (H0 := proxied') (H1 := proxied_stream) nonce draws a port l s s1 E2 A1 Hd Hl) as (o & hdr & kk & v & E3 & B1 & B2 & B3 & B4).
    exists (ProxiedTCP o), hdr, kk, v. rewrite E3. cbn [omap_out]. split; [done|]. split; [exact B1|]. split; [exact B2|]. split; [|exact B4]. cbn [relay_out]. rewrite B3, A2. by rewrite <- !app_assoc.
  - unfold reachable in Hr. by rewrite Hp in Hr.
Qed.

(** Packets for the relay [i], one after the other. *)
Definition send_packets (i : nat) (a : NetworkAddress) (port : Z) (payloads : list (list Z)) : M network unit :=
  iterate_list (fun l => ActuallySendPacket stack1024 stack1500 timeout i true a port (plain l (length l))) payloads.
Lemma send_more i a port payloads : forall (n : network) s k v m, relaySockets n !! i = Some s -> relay_ok s -> ctr_at k v m (relay_state s) ->
  Forall (fun l => Z.of_nat (length l) < 2 ^ 24) payloads ->
  exists n' s', send_packets i a port payloads n = (Value tt, n') /\ relaySockets n' !! i = Some s' /\ relay_ok s' /\ newKernels n' = newKernels n /\
    relay_out s' = relay_out s ++ masked k v m (concat (map frame_bytes payloads)).
Proof.
  induction payloads as [|l payloads IH]; intros n s k v m Hi Hs Hc Hl.
  { exists n, s. unfold masked. cbn. rewrite app_nil_r. done. }
  apply Forall_cons in Hl as [Hb Hl]. destruct (relay_send_ok s k v m l Hs Hc Hb) as (s1 & E & A1 & A2 & A3).
  set (n1 := n <| relaySockets := <[i := s1]> (relaySockets n) |>).
  destruct (IH n1 s1 k v (m + length (frame_bytes l))%nat) as (n' & s' & B & B1 & B2 & B3 & B4); [by apply lookup_insert_eq|exact A1|exact A2|exact Hl|].
  exists n', s'. split; [|split; [exact B1|split; [exact B2|split; [exact B3|cbn [map concat]; by rewrite B4, A3, masked_app, app_assoc]]]].
  unfold send_packets. cbn [iterate_list]. rewrite (run_bind _ _ _ tt n1); [exact B|]. unfold ActuallySendPacket. by rewrite Hi, (relay_works s Hs), E.
Qed.

(** C31: the first packet for a TCP relay opens its connection, through the proxy when there is
    one, and every packet goes out on it: after the requests to the proxy and the 64
    bytes with the keys come the frames of the packets in order, under one key stream;
    no operation throws or aborts. *)
Theorem relay_stream (n : network) (i : nat) (a : NetworkAddress) (port : Z) (p : list Z) (ps : list (list Z))
  (k : kernel) (ks : list kernel) (nonce : list Z) (draws : list (list Z)) (rest : list (list (list Z)))
  (Hi : relaySockets n !! i = None) (Hk : newKernels n = k :: ks) (Hh : healthy k /\ reachable n k) (Hst : length stack1024 = 1024%nat)
  (Hn : newNonces n = draws :: rest) (Hd : draws_of nonce draws) (Ha : address_ok a /\ 0 <= port < 65536)
  (Hl : Forall (fun l => Z.of_nat (length l) < 2 ^ 24) (p :: ps)) :
  exists n' s hdr key v, send_packets i a port (p :: ps) n = (Value tt, n') /\ relaySockets n' !! i = Some s /\ relay_failed stack1024 stack1500 s = false /\
    newKernels n' = ks /\ opened hdr key v /\
    relay_out s = preamble n a port ++ hdr ++ masked key v 64 (concat (map frame_bytes (p :: ps))).
Proof.
  destruct Hh as [Hh Hr], Ha as [Ha Hport]. apply Forall_cons in Hl as [Hb Hl].
  set (n0 := n <| relaySockets := delete i (relaySockets n) |>). assert (reachable n0 k) as Hr0 by exact Hr.
  destruct (open_relay_ok n0 k ks nonce draws rest a port p Hk Hh Hr0 Hst Hn Hd Ha Hport Hb) as (s & hdr & kk & v & E & A1 & A2 & A3 & A4).
  set (n1 := next_sockets n0 <| relaySockets := <[i := s]> (relaySockets n0) |> <| cancelled := S (cancelled n0) |>).
  destruct (send_more i a port ps n1 s kk v _ (lookup_insert_eq _ _ _) A2 A4 Hl) as (n' & s' & B & B1 & B2 & B3 & B4).
  exists n', s', hdr, kk, v. split; [|split; [exact B1|]; split; [by apply relay_works|]; split; [rewrite B3; unfold n1, n0; cbn; by rewrite Hk|]; split; [exact A1|]].
  - unfold send_packets. cbn [iterate_list]. rewrite (run_bind _ _ _ tt n1); [exact B|]. unfold ActuallySendPacket. rewrite Hi. fold n0. rewrite E. fold n1.
    unfold reachable in Hr. cbn [n0 proxyProtocol set]. destruct (proxyProtocol n); [done|done|contradiction].
  - rewrite B4, A3. cbn [map concat]. rewrite masked_app. change (preamble n0 a port) with (preamble n a port). by rewrite <- !app_assoc.
Qed.
End relays.

(** ** A turn of the receive thread *)

Section turn.
Context `{CtrFunctions} `{crypto : CryptoFunctions} `{cfg : Config} (stack4 stack1024 stack1500 : list Z) (now : double) (NDEBUG : bool) (junkTag : list Z).

(** The end of a turn: the bytes of the packet go to the endpoint of its sender. *)
Definition deliver (packet : NetworkPacket) : M (network * controller) (option NetworkPacket) :=
  match pk_address packet with
  | None => mret (Some packet)
  | Some a => call (receive_packet now NDEBUG junkTag (bool_decide (pk_protocol packet = PROTO_TCP)) (sender a) (pk_port packet) (take (pk_length packet) (pk_data packet))) ;; mret (Some packet)
  end.
Lemma turn_receives packet (reads errors : list sock_id) n c r n' : (UDP ∉ errors) -> UDP ∈ reads -> receive_on stack4 stack1024 stack1500 UDP (packet <| pk_length := 1500%nat |>) n = (Value r, n') ->
  RunRecvThread stack4 stack1024 stack1500 now NDEBUG junkTag true reads errors packet (n, c) = deliver r (n', c).
Proof.
  intros He Hr E. unfold RunRecvThread. cbn [negb]. rewrite decide_False by exact He. rewrite decide_True by exact Hr. erewrite run_bind; [|unfold uncaught, net, zoom; cbn [fst snd]; rewrite E; reflexivity]. done.
Qed.

(** behind a proxy a turn delivers what the relay wrapped, to the endpoint of the address it
    was wrapped with and with the transport of the packet of the turn before; a datagram
    from elsewhere makes the thread process the whole buffer again as if the sender of
    the turn before had sent it, and one shorter than four bytes ends the program. *)
Theorem proxied_turn (n : network) (c : controller) (packet p : NetworkPacket) (s : socks posix posix) (u u' : posix) (reads errors : list sock_id)
  (Hst : length stack1500 = 1500%nat) (Hp : udpSocket n = ProxiedUDP s) (Hu : sx_udp s = Some u) (Hc : connectedAddress s <> None)
  (Hr : Receive (plain stack1500 1500) u = (Value p, u')) (He : UDP ∉ errors) (Hs : UDP ∈ reads) :
  let n' := n <| udpSocket := ProxiedUDP (set_udp u' s) |> in
  let turn := RunRecvThread stack4 stack1024 stack1500 now NDEBUG junkTag true reads errors packet (n, c) in
  (from_relay s p = false -> turn = deliver (packet <| pk_length := 1500%nat |>) (n', c)) /\
  (from_relay s p = true ->
    (forall a port payload, take (pk_length p) (pk_data p) = wrap a port payload -> address_ok a -> 0 <= port < 65536 -> (length payload <= 1500)%nat ->
      turn = deliver (Packet (Prelude.store (pk_data packet) 0 payload) (length payload) (Some a) port (pk_protocol packet)) (n', c)) /\
    ((pk_length p < 4)%nat -> turn = (Aborted, (n', c)))).
Proof.
  intros n' turn. set (packet0 := packet <| pk_length := 1500%nat |>).
  assert (sk_receive (plain stack1500 1500) u = (Value p, u')) as Hr' by exact Hr.
  destruct (datagrams_ok s u u' stack1500 packet0 p Hst Hu Hc Hr') as (_ & D1 & D2). unfold turn.
  assert (forall r s', sx_receive stack1500 packet0 s = (r, s') -> receive_on stack4 stack1024 stack1500 UDP packet0 n = (r, n <| udpSocket := ProxiedUDP s' |>)) as Eon
    by (intros r s' E; unfold receive_on; by rewrite Hp, E).
  split; [|intros Hf; split].
  - intros Hf. apply turn_receives; [exact He|exact Hs|]. apply Eon. by apply D1.
  - intros a port payload Ed Ha Hport Hl. destruct (D2 Hf) as [D _]. specialize (D a port payload Ed Ha Hport). cbn [packet0 pk_length set] in D. rewrite decide_True in D by exact Hl.
    apply turn_receives; [exact He|exact Hs|]. by apply Eon.
  - intros Hl. destruct (D2 Hf) as [_ D]. specialize (D Hl). apply Eon in D. unfold RunRecvThread. cbn [negb]. rewrite decide_False by exact He. rewrite decide_True by exact Hs.
    fold packet0. unfold mbind, M_bind, uncaught, net, zoom. cbn [fst snd]. by rewrite D.
Qed.
End turn.

(** ** Examples *)

Definition demo_network : network :=
  Network (DirectUDP (new_posix PROTO_UDP d0 (demo_kernel []))) ∅ PROXY_SOCKS5 (IPv4Address 16777343) 1080 [] []
    [demo_kernel [[5; 0]; [5; 0; 0; 1; 0; 0; 0; 0; 0; 0]]] [[demo_nonce]] 0 false.
Lemma relay_stream_witness :
  let r := send_packets (zeros 1024) (zeros 1500) d0 3 (IPv4Address 0x04030201) 443 [[1; 2; 3; 4]; [5; 6; 7; 8]] demo_network in
  exists s, r.1 = Value tt /\ relaySockets r.2 !! 3%nat = Some s /\
    take 13 (relay_out (zeros 1024) (zeros 1500) s) = [5; 1; 0; 5; 1; 0; 1; 1; 2; 3; 4; 1; 187] /\ length (relay_out (zeros 1024) (zeros 1500) s) = (13 + 64 + 5 + 5)%nat.
Proof.
  destruct (relay_stream (zeros 1024) (zeros 1500) d0 demo_network 3 (IPv4Address 0x04030201) 443 [1; 2; 3; 4] [[5; 6; 7; 8]]
    (demo_kernel [[5; 0]; [5; 0; 0; 1; 0; 0; 0; 0; 0; 0]]) [] demo_nonce [demo_nonce] []) as (n' & s & hdr & kk & v & E & E2 & _ & _ & (Hl & _) & Eo).
  - reflexivity.
  - reflexivity.
  - split; [split; [done|split; [done|split; [done|split; [repeat constructor; discriminate|done]]]]|]. cbn. split; [done|]. eexists _, []. split; [reflexivity|]. split; [done|]. cbn. lia.
  - apply length_zeros.
  - reflexivity.
  - exists [], []. split; [done|]. split; [constructor|]. split; reflexivity.
  - unfold address_ok, is_u32. lia.
  - repeat (apply Forall_cons; split; [reflexivity|]). constructor.
  - cbv zeta. exists s. rewrite E. cbn [fst snd]. split; [done|]. split; [exact E2|]. rewrite Eo. split; [reflexivity|]. rewrite !length_app, length_masked, Hl. reflexivity.
Defined.
(** Somebody else sends a datagram to a call behind a proxy. *)
Definition demo_foreign : posix := new_posix PROTO_UDP d0 (Kernel [] [Some (Datagram relay_at 9 [1; 2; 3; 4; 5])] [] [] [] [] [] [] [] d0 [] [] (0, 0)).
Lemma proxied_turn_witness :
  let s := Socks (demo_tcp []) (Some demo_foreign) [] [] false (Some (IPv4Address 16777343)) 1080 in
  let n := demo_network <| udpSocket := ProxiedUDP s |> in
  let last := Packet (zeros 1500) 40 (Some (IPv4Address 5)) 4000 PROTO_UDP in
  exists u', RunRecvThread (crypto := toy_crypto) (cfg := demo_call_config) (zeros 4) (zeros 1024) (zeros 1500) d0 true (zeros 16) true [UDP] [] last (n, new_controller (cfg := demo_call_config) []) =
    deliver (crypto := toy_crypto) (cfg := demo_call_config) d0 true (zeros 16) (last <| pk_length := 1500%nat |>)
      (n <| udpSocket := ProxiedUDP (set_udp u' s) |>, new_controller (cfg := demo_call_config) []).
Proof.
  intros s n last. assert (match (Receive (plain (zeros 1500) 1500) demo_foreign).1 with Value p => from_relay s p | _ => true end = false) as Ef by (vm_compute; reflexivity).
  assert (match (Receive (plain (zeros 1500) 1500) demo_foreign).1 with Value p => true | _ => false end = true) as Ev by (vm_compute; reflexivity).
  destruct (Receive (plain (zeros 1500) 1500) demo_foreign) as [[p| |] u'] eqn:Er; cbn [fst] in Ef, Ev; [|discriminate|discriminate]. exists u'.
  destruct (proxied_turn (crypto := toy_crypto) (cfg := demo_call_config) (zeros 4) (zeros 1024) (zeros 1500) d0 true (zeros 16) n (new_controller (cfg := demo_call_config) [])
    last p s demo_foreign u' [UDP] [] (length_zeros 1500) eq_refl eq_refl ltac:(discriminate) Er) as [H _]; [apply not_elem_of_nil|left|].
  exact (H Ef).
Defined.
