(* ===== verification/TgMessage.v ===== *)
(** * Calls: the messages of the signalling

    [src/thirdparty/TgVoipWebrtcIOS6/src/tgcalls/Message.cpp] and [Message.h], over the
    byte readers and writers of [include/rtc_base/byte_buffer.h]. A reader is the list of the
    bytes that are left and a writer the bytes written so far; a function that returns
    [false] throws, a failed [assert] aborts. *)

From stdpp Require Import sorting.
From S2P Require Import Prelude Exn.

(** ** [ByteBufferWriter] and [ByteBufferReader] *)

(** Big-endian integers of [n] bytes. *)
Definition be_bytes (n : nat) (v : Z) : list Z := reverse (le_bytes n v).
Definition be_val (l : list Z) : Z := le_val (reverse l).

Definition emit (bytes : list Z) : M (list Z) unit := modify (fun w => w ++ bytes).
Definition WriteUInt8 (v : Z) : M (list Z) unit := emit (be_bytes 1 v).
Definition WriteUInt16 (v : Z) : M (list Z) unit := emit (be_bytes 2 v).
Definition WriteUInt32 (v : Z) : M (list Z) unit := emit (be_bytes 4 v).
Definition WriteString (s : list Z) : M (list Z) unit := emit s.
Definition WriteBytes (s : list Z) : M (list Z) unit := emit s.
(** [assert]. *)
Definition need {S} (b : bool) : M S unit := if b then mret tt else abort.

(** A read past the end fails and takes nothing. *)
Definition ReadString (n : nat) : M (list Z) (list Z) := fun l =>
  if decide (length l < n)%nat then (Thrown, l) else (Value (take n l), drop n l).
Definition ReadBytes (n : nat) : M (list Z) (list Z) := ReadString n.
Definition ReadUInt8 : M (list Z) Z := b ← ReadString 1; mret (be_val b).
Definition ReadUInt16 : M (list Z) Z := b ← ReadString 2; mret (be_val b).
Definition ReadUInt32 : M (list Z) Z := b ← ReadString 4; mret (be_val b).
Definition Length : M (list Z) nat := gets length.
Definition Consume (n : nat) : M (list Z) unit := modify (drop n).

(** ** The messages *)

(** A candidate is the text of its description. *)
Abbreviation Candidate := (list Z) (only parsing).
Record PeerIceParameters := IceParameters { ufrag : list Z; pwd : list Z; supportsRenomination : bool }.
(** [parameters] is a [std::map]: its pairs in the order of the keys. *)
Record SdpVideoFormat := VideoFormat { name : list Z; parameters : list (list Z * list Z) }.
Inductive VideoState := Inactive | Paused | VideoActive.
Inductive AudioState := Muted | AudioActive.

Inductive Message :=
| CandidatesListMessage (candidates : list Candidate) (iceParameters : PeerIceParameters)
| VideoFormatsMessage (formats : list SdpVideoFormat) (encodersCount : Z)
| RequestVideoMessage
| RemoteMediaStateMessage (audio : AudioState) (video : VideoState)
| AudioDataMessage (data : list Z)
| VideoDataMessage (data : list Z)
| UnstructuredDataMessage (data : list Z)
| VideoParametersMessage (aspectRatio : Z)
| RemoteBatteryLevelIsLowMessage (batteryLow : bool)
| RemoteNetworkStatusMessage (isLowCost isLowDataRequested : bool).

Definition kId (m : Message) : Z :=
  match m with
  | CandidatesListMessage _ _ => 1 | VideoFormatsMessage _ _ => 2 | RequestVideoMessage => 3 | RemoteMediaStateMessage _ _ => 4
  | AudioDataMessage _ => 5 | VideoDataMessage _ => 6 | UnstructuredDataMessage _ => 7 | VideoParametersMessage _ => 8
  | RemoteBatteryLevelIsLowMessage _ => 9 | RemoteNetworkStatusMessage _ _ => 10
  end.
Definition kRequiresAck (m : Message) : bool := match m with AudioDataMessage _ | VideoDataMessage _ => false | _ => true end.

(** ** Writing *)

Definition kMaxStringLength : nat := Z.to_nat 65536.
Definition bytes_max : nat := 255.

Definition Serialize_string (s : list Z) : M (list Z) unit :=
  need (bool_decide (length s < kMaxStringLength)%nat) ;; WriteUInt32 (Z.of_nat (length s)) ;; WriteString s.
Definition Serialize_format (f : SdpVideoFormat) : M (list Z) unit :=
  need (bool_decide (length (parameters f) < bytes_max)%nat) ;;
  Serialize_string (name f) ;;
  WriteUInt8 (Z.of_nat (length (parameters f))) ;;
  iterate_list (fun p => Serialize_string (fst p) ;; Serialize_string (snd p)) (parameters f).
(** The length is left out of a message that fills its packet. *)
Definition Serialize_data (data : list Z) (singleMessagePacket : bool) : M (list Z) unit :=
  when (negb singleMessagePacket) (need (bool_decide (Z.of_nat (length data) <= 0xFFFF)) ;; WriteUInt16 (Z.of_nat (length data))) ;;
  WriteBytes data.
Definition audio_bits (a : AudioState) : Z := match a with Muted => 0 | AudioActive => 1 end.
Definition video_bits (v : VideoState) : Z := match v with Inactive => 0 | Paused => 1 | VideoActive => 2 end.
(** The comparison of the number of encoders is unsigned. *)
Definition Serialize (m : Message) (singleMessagePacket : bool) : M (list Z) unit :=
  match m with
  | CandidatesListMessage candidates iceParameters =>
      need (bool_decide (length candidates < bytes_max)%nat) ;;
      WriteUInt8 (Z.of_nat (length candidates)) ;;
      iterate_list Serialize_string candidates ;;
      Serialize_string (ufrag iceParameters) ;;
      Serialize_string (pwd iceParameters)
  | VideoFormatsMessage formats encodersCount =>
      need (bool_decide (length formats < bytes_max)%nat) ;;
      need (bool_decide (u32 encodersCount <= Z.of_nat (length formats))) ;;
      WriteUInt8 (Z.of_nat (length formats)) ;;
      iterate_list Serialize_format formats ;;
      WriteUInt8 encodersCount
  | RequestVideoMessage => mret tt
  | RemoteMediaStateMessage audio video => WriteUInt8 (Z.lor (Z.shiftl (video_bits video) 1) (audio_bits audio))
  | AudioDataMessage data | VideoDataMessage data | UnstructuredDataMessage data => Serialize_data data singleMessagePacket
  | VideoParametersMessage aspectRatio => WriteUInt32 aspectRatio
  | RemoteBatteryLevelIsLowMessage batteryLow => WriteUInt8 (if batteryLow then 1 else 0)
  | RemoteNetworkStatusMessage isLowCost isLowDataRequested =>
      WriteUInt8 (if isLowCost then 1 else 0) ;; WriteUInt8 (if isLowDataRequested then 1 else 0)
  end.
Definition SerializeMessageWithSeq (m : Message) (seq : Z) (singleMessagePacket : bool) : M (list Z) unit :=
  WriteUInt32 seq ;; WriteUInt8 (kId m) ;; Serialize m singleMessagePacket.

(** ** Reading *)

Fixpoint read_n {A} (n : nat) (m : M (list Z) A) : M (list Z) (list A) :=
  match n with O => mret [] | S n => a ← m; l ← read_n n m; mret (a :: l) end.
Definition Deserialize_string : M (list Z) (list Z) :=
  length ← ReadUInt32;
  if decide (65536 <= length) then throw else ReadString (Z.to_nat length).
(** [std::string] compares bytes. *)
Fixpoint compare_bytes (a b : list Z) : comparison :=
  match a, b with
  | [], [] => Eq | [], _ => Lt | _, [] => Gt
  | x :: a, y :: b => match x ?= y with Eq => compare_bytes a b | c => c end
  end.
(** [std::map::insert] leaves a key that is there as it is. *)
Fixpoint insert_param {V} (k : list Z) (v : V) (m : list (list Z * V)) : list (list Z * V) :=
  match m with
  | [] => [(k, v)]
  | (k', v') :: rest =>
      match compare_bytes k k' with Lt => (k, v) :: m | Eq => m | Gt => (k', v') :: insert_param k v rest end
  end.
Fixpoint read_params (count : nat) (m : list (list Z * list Z)) : M (list Z) (list (list Z * list Z)) :=
  match count with
  | O => mret m
  | S count => k ← Deserialize_string; v ← Deserialize_string; read_params count (insert_param k v m)
  end.
Definition Deserialize_format : M (list Z) SdpVideoFormat :=
  name ← Deserialize_string;
  count ← ReadUInt8;
  parameters ← read_params (Z.to_nat count) [];
  mret (VideoFormat name parameters).
Definition Deserialize_data (singleMessagePacket : bool) : M (list Z) (list Z) :=
  left ← Length;
  length ← (if singleMessagePacket then mret (u16 (Z.of_nat left)) else
    length ← ReadUInt16;
    left ← Length;
    if decide (Z.of_nat left < length) then throw else mret length);
  data ← gets (take (Z.to_nat length));
  Consume (Z.to_nat length) ;;
  mret data.
Definition Deserialize_candidates : M (list Z) Message :=
  count ← ReadUInt8;
  candidates ← read_n (Z.to_nat count) Deserialize_string;
  ufrag ← Deserialize_string;
  pwd ← Deserialize_string;
  mret (CandidatesListMessage candidates (IceParameters ufrag pwd false)).
Definition Deserialize_formats : M (list Z) Message :=
  count ← ReadUInt8;
  formats ← read_n (Z.to_nat count) Deserialize_format;
  encoders ← ReadUInt8;
  if decide (Z.of_nat (length formats) < encoders) then throw else mret (VideoFormatsMessage formats encoders).
Definition audio_state (bits : Z) : AudioState := if decide (bits = 0) then Muted else AudioActive.
Definition Deserialize_media_state : M (list Z) Message :=
  state ← ReadUInt8;
  let audio := audio_state (Z.land state 1) in
  let video := Z.land (Z.shiftr state 1) 3 in
  if decide (video = 3) then throw else
  mret (RemoteMediaStateMessage audio (if decide (video = 0) then Inactive else if decide (video = 1) then Paused else VideoActive)).
(** The second byte may be missing. *)
Definition Deserialize_network_status : M (list Z) Message :=
  value ← ReadUInt8;
  more ← Length;
  value2 ← (if decide (more = 0%nat) then mret 0 else ReadUInt8);
  mret (RemoteNetworkStatusMessage (bool_decide (value <> 0)) (bool_decide (value2 <> 0))).

(** One alternative of the variant: the next one when the tag is another's. *)
Definition TryDeserialize (id : Z) (parse next : M (list Z) Message) : M (list Z) Message := fun l =>
  match l with
  | [] => (Aborted, l)
  | tag :: rest => if decide (tag <> id) then next l else parse rest
  end.
Definition DeserializeMessage (singleMessagePacket : bool) : M (list Z) Message :=
  left ← Length;
  if decide (left = 0%nat) then throw else
  TryDeserialize 1 Deserialize_candidates (
  TryDeserialize 2 Deserialize_formats (
  TryDeserialize 3 (mret RequestVideoMessage) (
  TryDeserialize 4 Deserialize_media_state (
  TryDeserialize 5 (data ← Deserialize_data singleMessagePacket; mret (AudioDataMessage data)) (
  TryDeserialize 6 (data ← Deserialize_data singleMessagePacket; mret (VideoDataMessage data)) (
  TryDeserialize 7 (data ← Deserialize_data singleMessagePacket; mret (UnstructuredDataMessage data)) (
  TryDeserialize 8 (aspectRatio ← ReadUInt32; mret (VideoParametersMessage aspectRatio)) (
  TryDeserialize 9 (value ← ReadUInt8; mret (RemoteBatteryLevelIsLowMessage (bool_decide (value <> 0)))) (
  TryDeserialize 10 Deserialize_network_status throw))))))))).
Definition DeserializeRawMessage : M (list Z) (list Z) :=
  left ← Length;
  if decide (left = 0%nat) then throw else
  length ← ReadUInt32;
  if decide (1024 * 1024 < length) then throw else ReadBytes (Z.to_nat length).

(** ** What is written is read *)

Lemma length_be_bytes n v : length (be_bytes n v) = n.
Proof. unfold be_bytes. by rewrite length_reverse, length_le_bytes. Qed.
Lemma be_val_be_bytes n v : be_val (be_bytes n v) = v mod 256 ^ Z.of_nat n.
Proof. unfold be_val, be_bytes. by rewrite reverse_involutive, le_val_le_bytes. Qed.
#[export] Hint Rewrite length_be_bytes : len.

Definition emits (m : M (list Z) unit) (bytes : list Z) : Prop := forall w, m w = (Value tt, w ++ bytes).
Definition reads {A} (m : M (list Z) A) (bytes : list Z) (a : A) : Prop := forall k, m (bytes ++ k) = (Value a, k).

Lemma emits_emit bs : emits (emit bs) bs.
Proof. by intros w. Qed.
Lemma emits_nil : emits (mret tt) [].
Proof. intros w. by rewrite app_nil_r. Qed.
Lemma emits_seq m n bs cs : emits m bs -> emits n cs -> emits (m ;; n) (bs ++ cs).
Proof. intros Hm Hn w. erewrite run_bind by apply Hm. by rewrite Hn, app_assoc. Qed.
Lemma emits_need b m bs : b = true -> emits m bs -> emits (need b ;; m) bs.
Proof. intros -> Hm w. exact (Hm w). Qed.
Lemma emits_list {A} (f : A -> M (list Z) unit) g (l : list A) : Forall (fun a => emits (f a) (g a)) l -> emits (iterate_list f l) (concat (map g l)).
Proof. induction 1 as [|a l Ha _ IH]; [apply emits_nil|]. by apply emits_seq. Qed.

Lemma reads_ret {A} (a : A) : reads (mret a) [] a.
Proof. by intros k. Qed.
Lemma reads_bind {A B} (m : M (list Z) A) (f : A -> M (list Z) B) bs cs a b : reads m bs a -> reads (f a) cs b -> reads (m ≫= f) (bs ++ cs) b.
Proof. intros Hm Hf k. rewrite <- app_assoc. erewrite run_bind by apply Hm. apply Hf. Qed.
(** The last step reads nothing. *)
Lemma reads_map {A B} (m : M (list Z) A) (f : A -> B) bs a : reads m bs a -> reads (x ← m; mret (f x)) bs (f a).
Proof. intros Hm. rewrite <- (app_nil_r bs). eapply reads_bind; [exact Hm|apply reads_ret]. Qed.
Lemma reads_string n s : length s = n -> reads (ReadString n) s s.
Proof.
  intros <- k. unfold ReadString. rewrite decide_False by (rewrite length_app; lia). by rewrite take_app_length, drop_app_length.
Qed.
Lemma reads_be n v : 0 <= v < 256 ^ Z.of_nat n -> reads (b ← ReadString n; mret (be_val b)) (be_bytes n v) v.
Proof.
  intros Hv. replace v with (be_val (be_bytes n v)) at 2 by (rewrite be_val_be_bytes; apply Z.mod_small, Hv).
  apply reads_map, reads_string, length_be_bytes.
Qed.
Lemma reads_u8 v : 0 <= v < 256 -> reads ReadUInt8 (be_bytes 1 v) v.
Proof. intros Hv. by apply reads_be. Qed.
Lemma reads_u16 v : 0 <= v < 65536 -> reads ReadUInt16 (be_bytes 2 v) v.
Proof. intros Hv. by apply reads_be. Qed.
Lemma reads_u32 v : is_u32 v -> reads ReadUInt32 (be_bytes 4 v) v.
Proof. intros Hv. by apply reads_be. Qed.
Lemma reads_n {A} (m : M (list Z) A) g l : Forall (fun a => reads m (g a) a) l -> reads (read_n (length l) m) (concat (map g l)) l.
Proof.
  induction 1 as [|a l Ha _ IH]; [apply reads_ret|]. cbn [length read_n map concat]. eapply reads_bind; [exact Ha|].
  by apply (reads_map (read_n (length l) m) (cons a)).
Qed.

Definition string_bytes (s : list Z) : list Z := be_bytes 4 (Z.of_nat (length s)) ++ s.
Definition short (s : list Z) : Prop := (length s < kMaxStringLength)%nat.
Lemma short_Z s : short s <-> Z.of_nat (length s) < 65536.
Proof. unfold short, kMaxStringLength. lia. Qed.
Lemma string_emits s : short s -> emits (Serialize_string s) (string_bytes s).
Proof.
  intros Hs. apply emits_need; [by apply bool_decide_eq_true_2|]. apply (emits_seq _ _ _ _ (emits_emit _) (emits_emit _)).
Qed.
Lemma string_reads s : short s -> reads Deserialize_string (string_bytes s) s.
Proof.
  intros Hs%short_Z. eapply reads_bind; [apply reads_u32; unfold is_u32; lia|]. rewrite decide_False by lia. apply reads_string. lia.
Qed.

(** The order of the keys. *)
Lemma compare_bytes_trans a b c : compare_bytes a b = Lt -> compare_bytes b c = Lt -> compare_bytes a c = Lt.
Proof.
  revert b c. induction a as [|x a IH]; intros [|y b] [|z c]; try done. cbn.
  destruct (x ?= y) eqn:Exy, (y ?= z) eqn:Eyz; try done.
  - apply Z.compare_eq in Exy as ->. rewrite Eyz. apply IH.
  - apply Z.compare_eq in Exy as ->. by rewrite Eyz.
  - apply Z.compare_eq in Eyz as ->. by rewrite Exy.
  - intros _ _. assert ((x ?= z) = Lt) as ->; [|done]. rewrite Z.compare_lt_iff in *. lia.
Qed.
Lemma compare_bytes_flip a b : compare_bytes a b = Lt -> compare_bytes b a = Gt.
Proof.
  revert b. induction a as [|x a IH]; intros [|y b]; try done. cbn. rewrite (Z.compare_antisym x y). destruct (x ?= y); [apply IH|done|done].
Qed.
Definition before {V} (p q : list Z * V) : Prop := compare_bytes (fst p) (fst q) = Lt.
Lemma insert_last {V} k (v : V) m : Forall (fun p => before p (k, v)) m -> insert_param k v m = m ++ [(k, v)].
Proof.
  induction 1 as [|[k' v'] m Hb _ IH]; [done|]. cbn [insert_param app]. unfold before in Hb. cbn in Hb. apply compare_bytes_flip in Hb. by rewrite Hb, IH.
Qed.
Definition pair_bytes (p : list Z * list Z) : list Z := string_bytes (fst p) ++ string_bytes (snd p).
Lemma params_reads (l m : list (list Z * list Z)) : StronglySorted before (m ++ l) -> Forall (fun p => short (fst p) /\ short (snd p)) l ->
  reads (read_params (length l) m) (concat (map pair_bytes l)) (m ++ l).
Proof.
  revert m. induction l as [|[k v] l IH]; intros m Hs Hl; [rewrite app_nil_r; apply reads_ret|]. apply Forall_cons in Hl as [[Hk Hv] Hl].
  cbn [length read_params map concat]. unfold pair_bytes at 1. cbn [fst snd]. rewrite <- app_assoc. eapply reads_bind; [by apply string_reads|]. cbv beta. eapply reads_bind; [by apply string_reads|]. cbv beta.
  rewrite insert_last.
  - replace (m ++ (k, v) :: l) with ((m ++ [(k, v)]) ++ l) in * by by rewrite <- app_assoc. by apply IH.
  - clear -Hs. induction m as [|p m IHm]; [constructor|]. cbn [app] in Hs. apply StronglySorted_inv in Hs as [Hs Hp]. constructor; [|by apply IHm].
    rewrite Forall_app, Forall_cons in Hp. apply Hp.
Qed.

(** ** Messages *)

Definition format_ok (f : SdpVideoFormat) : Prop :=
  short (name f) /\ (length (parameters f) < bytes_max)%nat /\ StronglySorted before (parameters f) /\ Forall (fun p => short (fst p) /\ short (snd p)) (parameters f).
Definition format_bytes (f : SdpVideoFormat) : list Z :=
  string_bytes (name f) ++ be_bytes 1 (Z.of_nat (length (parameters f))) ++ concat (map pair_bytes (parameters f)).
Lemma format_emits f : format_ok f -> emits (Serialize_format f) (format_bytes f).
Proof.
  intros (Hn & Hl & _ & Hp). apply emits_need; [by apply bool_decide_eq_true_2|]. apply emits_seq; [by apply string_emits|]. apply emits_seq; [apply emits_emit|].
  apply emits_list. eapply Forall_impl; [exact Hp|]. intros p [Hk Hv]. apply emits_seq; by apply string_emits.
Qed.
Lemma format_reads f : format_ok f -> reads Deserialize_format (format_bytes f) f.
Proof.
  intros (Hn & Hl & Hs & Hp). unfold bytes_max in Hl. eapply reads_bind; [by apply string_reads|]. cbv beta. eapply reads_bind; [apply reads_u8; lia|]. cbv beta. rewrite Nat2Z.id.
  replace f with (VideoFormat (name f) ([] ++ parameters f)) at 3 by by destruct f. by apply reads_map, params_reads.
Qed.

(** A message that can be sent: no assertion fails, and alone in its packet the data
    is not longer than the 16 bits its length is read with. *)
Definition sendable (m : Message) : Prop :=
  match m with
  | CandidatesListMessage candidates ice => (length candidates < bytes_max)%nat /\ Forall short candidates /\ short (ufrag ice) /\ short (pwd ice)
  | VideoFormatsMessage formats n => (length formats < bytes_max)%nat /\ 0 <= n <= Z.of_nat (length formats) /\ Forall format_ok formats
  | AudioDataMessage data | VideoDataMessage data | UnstructuredDataMessage data => Z.of_nat (length data) < 65536
  | VideoParametersMessage aspectRatio => is_u32 aspectRatio
  | _ => True
  end.
Definition body (m : Message) (single : bool) : list Z :=
  match m with
  | CandidatesListMessage candidates ice => be_bytes 1 (Z.of_nat (length candidates)) ++ concat (map string_bytes candidates) ++ string_bytes (ufrag ice) ++ string_bytes (pwd ice)
  | VideoFormatsMessage formats n => be_bytes 1 (Z.of_nat (length formats)) ++ concat (map format_bytes formats) ++ be_bytes 1 n
  | RequestVideoMessage => []
  | RemoteMediaStateMessage audio video => be_bytes 1 (Z.lor (Z.shiftl (video_bits video) 1) (audio_bits audio))
  | AudioDataMessage data | VideoDataMessage data | UnstructuredDataMessage data => (if single then [] else be_bytes 2 (Z.of_nat (length data))) ++ data
  | VideoParametersMessage aspectRatio => be_bytes 4 aspectRatio
  | RemoteBatteryLevelIsLowMessage b => be_bytes 1 (if b then 1 else 0)
  | RemoteNetworkStatusMessage a b => be_bytes 1 (if a then 1 else 0) ++ be_bytes 1 (if b then 1 else 0)
  end.
(** What arrives: the renomination of the candidates is not sent. *)
Definition received (m : Message) : Message :=
  match m with
  | CandidatesListMessage candidates ice => CandidatesListMessage candidates (IceParameters (ufrag ice) (pwd ice) false)
  | m => m
  end.

Lemma data_emits single data : Z.of_nat (length data) < 65536 -> emits (Serialize_data data single) ((if single then [] else be_bytes 2 (Z.of_nat (length data))) ++ data).
Proof.
  intros Hl. apply emits_seq; [|apply emits_emit]. destruct single; [apply emits_nil|]. apply emits_need; [apply bool_decide_eq_true_2; lia|apply emits_emit].
Qed.
Lemma body_emits m single : sendable m -> emits (Serialize m single) (body m single).
Proof.
  destruct m; cbn [sendable Serialize body]; try solve [intros _; first [apply emits_nil | apply emits_emit | apply emits_seq; apply emits_emit]].
  - intros (Hl & Hc & Hu & Hp). apply emits_need; [by apply bool_decide_eq_true_2|]. apply emits_seq; [apply emits_emit|].
    apply emits_seq; [|apply emits_seq; by apply string_emits]. apply emits_list. eapply Forall_impl; [exact Hc|]. apply string_emits.
  - intros (Hl & Hn & Hf). unfold bytes_max in Hl. apply emits_need; [by apply bool_decide_eq_true_2|]. apply emits_need; [apply bool_decide_eq_true_2; rewrite u32_id by lia; lia|].
    apply emits_seq; [apply emits_emit|]. apply emits_seq; [|apply emits_emit]. apply emits_list. eapply Forall_impl; [exact Hf|]. apply format_emits.
  - apply data_emits.
  - apply data_emits.
  - apply data_emits.
Qed.
(** In a packet of its own a message ends where the packet does. *)
Definition reads_in {A} (single : bool) (m : M (list Z) A) (bytes : list Z) (a : A) : Prop :=
  forall k, (single = true -> k = []) -> m (bytes ++ k) = (Value a, k).
Lemma reads_reads_in {A} single (m : M (list Z) A) bs a : reads m bs a -> reads_in single m bs a.
Proof. intros H k _. apply H. Qed.
Lemma data_reads {A} (f : list Z -> A) single data : Z.of_nat (length data) < 65536 ->
  reads_in single (x ← Deserialize_data single; mret (f x)) ((if single then [] else be_bytes 2 (Z.of_nat (length data))) ++ data) (f data).
Proof.
  intros Hl k Hk. erewrite run_bind; [reflexivity|]. unfold Deserialize_data. erewrite run_bind by reflexivity. destruct single.
  - rewrite (Hk eq_refl), !app_nil_r. cbn [app]. erewrite run_bind by reflexivity.
    assert (Z.to_nat (u16 (Z.of_nat (length data))) = length data) as -> by (rewrite u16_mod; lia). erewrite run_bind by reflexivity. erewrite run_bind by reflexivity.
    by rewrite firstn_all, skipn_all.
  - rewrite <- app_assoc. erewrite run_bind; [|erewrite run_bind by (apply reads_u16; lia); erewrite run_bind by reflexivity; rewrite decide_False by (rewrite length_app; lia); reflexivity].
    rewrite Nat2Z.id. erewrite run_bind by reflexivity. erewrite run_bind by reflexivity. by rewrite take_app_length, drop_app_length.
Qed.
Lemma message_reads m single : sendable m -> reads_in single (DeserializeMessage single) (kId m :: body m single) (received m).
Proof.
  intros Hm k Hk. cbn [app]. unfold DeserializeMessage. erewrite run_bind by reflexivity. rewrite decide_False by (cbn; lia).
  destruct m; cbn [kId body received sendable] in *; unfold TryDeserialize; repeat (rewrite decide_True by done || rewrite decide_False by lia); cbn [decide decide_rel].
  - destruct Hm as (Hl & Hc & Hu & Hp). unfold bytes_max in Hl. revert k Hk. apply reads_reads_in.
    eapply reads_bind; [apply reads_u8; lia|]. cbv beta. rewrite Nat2Z.id. eapply reads_bind; [apply reads_n; eapply Forall_impl; [exact Hc|]; apply string_reads|].
    eapply reads_bind; [by apply string_reads|].
    by apply (reads_map _ (fun p => CandidatesListMessage candidates (IceParameters (ufrag iceParameters) p false))), string_reads.
  - destruct Hm as (Hl & Hn & Hf). unfold bytes_max in Hl. revert k Hk. apply reads_reads_in.
    eapply reads_bind; [apply reads_u8; lia|]. cbv beta. rewrite Nat2Z.id. eapply reads_bind; [apply reads_n; eapply Forall_impl; [exact Hf|]; apply format_reads|].
    rewrite <- (app_nil_r (be_bytes 1 _)). eapply reads_bind; [apply reads_u8; lia|]. cbv beta. rewrite decide_False by lia. apply reads_ret.
  - done.
  - destruct audio, video; vm_compute; done.
  - by apply (data_reads AudioDataMessage).
  - by apply (data_reads VideoDataMessage).
  - by apply (data_reads UnstructuredDataMessage).
  - revert k Hk. apply reads_reads_in. by apply reads_map, reads_u32.
  - destruct batteryLow; vm_compute; done.
  - destruct isLowCost, isLowDataRequested; vm_compute; done.
Qed.

Lemma message_writes m seq single : sendable m -> exists bytes, SerializeMessageWithSeq m seq single [] = (Value tt, be_bytes 4 seq ++ bytes) /\ hd 0 bytes = kId m /\
  forall k, (single = true -> k = []) -> DeserializeMessage single (bytes ++ k) = (Value (received m), k).
Proof.
  intros Hm. exists (kId m :: body m single). split; [|split; [done|by apply message_reads]].
  assert (be_bytes 1 (kId m) = [kId m]) as E by by destruct m. change (kId m :: body m single) with ([kId m] ++ body m single). rewrite <- E.
  exact (emits_seq _ _ _ _ (emits_emit _) (emits_seq _ _ _ _ (emits_emit _) (body_emits m single Hm)) []).
Qed.

(** C36: a message that can be sent is written without a failed assertion, and reading what was
    written gives the message back, but for the renomination flag of its candidates, and
    leaves what follows. *)
Theorem message_roundtrip (m : Message) (seq : Z) (single : bool) (k : list Z) (Hm : sendable m) (Hk : single = true -> k = []) :
  exists bytes, SerializeMessageWithSeq m seq single [] = (Value tt, be_bytes 4 seq ++ bytes) /\ hd 0 bytes = kId m /\
    DeserializeMessage single (bytes ++ k) = (Value (received m), k).
Proof. destruct (message_writes m seq single Hm) as (bytes & E & Hb & Hr). exists bytes. by rewrite Hr. Qed.

(** ** Arbitrary input

    A reader takes bytes off the front, whatever they are, and no assertion fails. *)

Definition shrinks {A} (m : M (list Z) A) : Prop := forall n, safe true (fun l => (length l <= n)%nat) m.
Lemma result_safe {S A} (I : S -> Prop) (m : M S A) : (forall s, I s -> (m s).1 <> Aborted /\ I (m s).2) -> safe true I m.
Proof. intros H s Hs. destruct (H s Hs) as [H1 H2]. by destruct (m s) as [[a| |] t]. Qed.
Lemma ReadString_shrinks k : shrinks (ReadString k).
Proof. intros n l Hl. unfold ReadString. case_decide; cbn; [done|]. rewrite length_drop. lia. Qed.
Lemma Consume_shrinks k n : safe true (fun l => (length l <= n)%nat) (Consume k).
Proof. intros l Hl. cbn. rewrite length_drop. lia. Qed.
Lemma read_n_shrinks {A} (m : M (list Z) A) : shrinks m -> forall n, shrinks (read_n n m).
Proof. intros Hm n k. induction n as [|n IH]; cbn [read_n]; [apply safe_ret|]. apply safe_bind; [apply Hm|]. intros a. apply safe_bind; [exact IH|]. intros l. apply safe_ret. Qed.
#[export] Hint Extern 1 (safe _ _ (ReadString _)) => apply ReadString_shrinks : safe.
#[export] Hint Extern 1 (safe _ _ (ReadBytes _)) => apply ReadString_shrinks : safe.
#[export] Hint Extern 1 (safe _ _ (Consume _)) => apply Consume_shrinks : safe.
#[export] Hint Extern 1 (safe _ _ Length) => apply safe_gets : safe.
#[export] Hint Extern 2 (safe _ _ ReadUInt8) => unfold ReadUInt8; safe_go : safe.
#[export] Hint Extern 2 (safe _ _ ReadUInt16) => unfold ReadUInt16; safe_go : safe.
#[export] Hint Extern 2 (safe _ _ ReadUInt32) => unfold ReadUInt32; safe_go : safe.
Lemma string_shrinks : shrinks Deserialize_string.
Proof. intros n. unfold Deserialize_string. safe_go. Qed.
#[export] Hint Extern 1 (safe _ _ Deserialize_string) => apply string_shrinks : safe.
#[export] Hint Extern 2 (safe _ _ (read_n _ _)) => apply read_n_shrinks; intros ? : safe.
Lemma params_shrinks c : forall m, shrinks (read_params c m).
Proof. induction c as [|c IH]; intros m n; cbn [read_params]; [apply safe_ret|]. safe_go. apply IH. Qed.
#[export] Hint Extern 1 (safe _ _ (read_params _ _)) => apply params_shrinks : safe.
Lemma format_shrinks : shrinks Deserialize_format.
Proof. intros n. unfold Deserialize_format. safe_go. Qed.
#[export] Hint Extern 1 (safe _ _ Deserialize_format) => apply format_shrinks : safe.
Lemma data_shrinks single : shrinks (Deserialize_data single).
Proof. intros n. unfold Deserialize_data. safe_go. Qed.
#[export] Hint Extern 1 (safe _ _ (Deserialize_data _)) => apply data_shrinks : safe.
Lemma try_shrinks id parse next n l : (length l <= n)%nat -> l <> [] -> safe true (fun l => (length l <= n)%nat) parse ->
  ((next l).1 <> Aborted /\ (length (next l).2 <= n)%nat) -> (TryDeserialize id parse next l).1 <> Aborted /\ (length (TryDeserialize id parse next l).2 <= n)%nat.
Proof. intros Hl Hne Hp Hn. unfold TryDeserialize. destruct l as [|x l]; [done|]. case_decide; [exact Hn|]. apply (safe_result _ _ _ Hp). cbn in Hl. lia. Qed.
Lemma message_shrinks single : shrinks (DeserializeMessage single).
Proof.
  intros n. apply result_safe. intros l Hl. unfold DeserializeMessage. erewrite run_bind by reflexivity. case_decide as E; [by split|].
  assert (l <> []) as Hne by by intros ->.
  repeat (apply try_shrinks; [exact Hl|exact Hne|unfold Deserialize_candidates, Deserialize_formats, Deserialize_media_state, Deserialize_network_status; safe_go|]).
  by split.
Qed.
Lemma raw_shrinks : shrinks DeserializeRawMessage.
Proof. intros n. unfold DeserializeRawMessage. safe_go. Qed.

Definition demo_format : SdpVideoFormat := VideoFormat (str "H264") [(str "level", str "31"); (str "mode", str "1")].
Lemma message_roundtrip_witness :
  let m := VideoFormatsMessage [demo_format; VideoFormat (str "VP8") []] 1 in
  exists bytes, SerializeMessageWithSeq m 7 false [] = (Value tt, be_bytes 4 7 ++ bytes) /\ hd 0 bytes = 2 /\ DeserializeMessage false (bytes ++ [1; 2; 3]) = (Value m, [1; 2; 3]).
Proof.
  intros m. apply (message_roundtrip m 7 false [1; 2; 3]); [|done]. cbn [m sendable]. assert (forall s, (length s < 100)%nat -> short s) as Hs by (intros s Hl; apply short_Z; lia).
  split; [cbn; unfold bytes_max; lia|]. split; [cbn; lia|]. repeat (apply Forall_cons; split); try apply Forall_nil_2; (split; [apply Hs; vm_compute; lia|]); (split; [vm_compute; lia|]); split.
  - repeat constructor; vm_compute; reflexivity.
  - repeat (apply Forall_cons; split); try apply Forall_nil_2; split; apply Hs; vm_compute; lia.
  - constructor.
  - constructor.
Defined.
