(* ===== verification/TgConnection.v ===== *)
(** * Calls: the encrypted connection

    [src/thirdparty/TgVoipWebrtcIOS6/src/tgcalls/EncryptedConnection.cpp], [EncryptedConnection.h]
    and the key derivation of [CryptoHelper.cpp]: messages with counters, acknowledged
    and sent again until they are, in packets under the key of the call. A connection
    is a state; the requests for service are collected in [requests], the
    clock is an argument. A failed [assert] aborts. *)

From stdpp Require Import sorting.
From S2P Require Import Prelude Exn Double TgMessage.

(** ** Encryption *)

(** The parts of OpenSSL that are used, and what is relied on: a counter mode undoes
    itself. *)
Class TgCrypto := {
  SHA256 : list Z -> list Z;
  ctr128_encrypt : list Z -> list Z -> list Z -> list Z;
  length_SHA256 m : length (SHA256 m) = 32%nat;
  length_ctr128 k iv m : length (ctr128_encrypt k iv m) = length m;
  ctr128_ctr128 k iv m : ctr128_encrypt k iv (ctr128_encrypt k iv m) = m
}.
#[export] Hint Rewrite @length_SHA256 @length_ctr128 : len.

Definition ConcatSHA256 `{TgCrypto} (parts : list (list Z)) : list Z := SHA256 (concat parts).
Definition PrepareAesKeyIv `{TgCrypto} (key msgKey : list Z) (x : nat) : list Z * list Z :=
  let sha256a := ConcatSHA256 [slice msgKey 0 16; slice key x 36] in
  let sha256b := ConcatSHA256 [slice key (40 + x) 36; slice msgKey 0 16] in
  (slice sha256a 0 8 ++ slice sha256b 8 16 ++ slice sha256a 24 8,
   slice sha256b 0 4 ++ slice sha256a 8 8 ++ slice sha256b 24 4).
Definition AesProcessCtr `{TgCrypto} (from : list Z) (aesKeyIv : list Z * list Z) : list Z := ctr128_encrypt aesKeyIv.1 aesKeyIv.2 from.

(** ** The state *)

Definition kSingleMessagePacketSeqBit : Z := Z.shiftl 1 31.
Definition kMessageRequiresAckSeqBit : Z := Z.shiftl 1 30.
Definition kMaxAllowedCounter : Z := Z.land (Z.land 0xFFFFFFFF (u32 (Z.lnot kSingleMessagePacketSeqBit))) (u32 (Z.lnot kMessageRequiresAckSeqBit)).
Definition kAckSerializedSize : nat := 4 + 1.
Definition kNotAckedMessagesLimit : Z := 64 * 1024.
Definition kMaxIncomingPacketSize : Z := 128 * 1024.
Definition kKeepIncomingCountersCount : Z := 64.
Definition kMaxFullPacketSize : Z := 1500.
Definition kMaxOuterPacketSize : Z := kMaxFullPacketSize - 48.
Definition kMaxSignalingPacketSize : Z := 16 * 1024.
Definition kServiceCauseAcks : Z := 1.
Definition kServiceCauseResend : Z := 2.
Definition kAckId : Z := u8 (-1).
Definition kEmptyId : Z := u8 (-2).
Definition kCustomId : Z := 127.

Inductive ConnectionType := Signaling | Transport.
#[export] Instance ConnectionType_eq_dec : EqDecision ConnectionType.
Proof. solve_decision. Defined.
Record DelayIntervals := mkDelays { minDelayBeforeMessageResend : Z; maxDelayBeforeMessageResend : Z; maxDelayBeforeAckResend : Z }.
Definition DelayIntervalsByType (type : ConnectionType) : DelayIntervals :=
  match type with Signaling => mkDelays 3000 5000 5000 | Transport => mkDelays 300 1000 1000 end.
Record MessageForResend := Resend { r_data : list Z; r_lastSent : Z }.
Record EncryptedConnection := Connection {
  ec_type : ConnectionType; ec_key : list Z; ec_isOutgoing : bool; ec_counter : Z;
  largestIncomingCounters : list Z; acksToSendSeqs : list Z; acksSentCounters : list Z; myNotYetAckedMessages : list MessageForResend;
  resendTimerActive : bool; sendAcksTimerActive : bool; requests : list (Z * Z)
}.
#[export] Instance connection_eta : Eta EncryptedConnection := fun c => Connection (ec_type c) (ec_key c) (ec_isOutgoing c) (ec_counter c)
  (largestIncomingCounters c) (acksToSendSeqs c) (acksSentCounters c) (myNotYetAckedMessages c) (resendTimerActive c) (sendAcksTimerActive c) (requests c).
Definition new_connection (type : ConnectionType) (key : list Z) (isOutgoing : bool) : EncryptedConnection :=
  Connection type key isOutgoing 0 [] [] [] [] false false [].
Record EncryptedPacket := Packet { ep_bytes : list Z; ep_counter : Z }.
(** The messages of a packet, each with its counter. *)
Record DecryptedPacket (A : Type) := Decrypted { main : A * Z; additional : list (A * Z) }.
Arguments Decrypted {A}.
Arguments main {A}.
Arguments additional {A}.

Definition AppendSeq (buffer : list Z) (seq : Z) : list Z := buffer ++ be_bytes 4 seq.
Definition ReadSeq (bytes : list Z) : Z := be_val (take 4 bytes).
Definition CounterFromSeq (seq : Z) : Z := Z.land (Z.land seq (u32 (Z.lnot kSingleMessagePacketSeqBit))) (u32 (Z.lnot kMessageRequiresAckSeqBit)).
Definition SerializeRawMessageWithSeq (message : list Z) (seq : Z) : M (list Z) unit :=
  WriteUInt32 seq ;; WriteUInt8 kCustomId ;; WriteUInt32 (u32 (Z.of_nat (length message))) ;; WriteBytes message.
Definition SerializeEmptyMessageWithSeq (seq : Z) : list Z := be_bytes 4 seq ++ [kEmptyId].
(** The loop that does not stop at the first difference. *)
Definition ConstTimeIsDifferent (a b : list Z) : bool := foldl (fun d p => d || negb (fst p =? snd p)) false (zip a b).

Abbreviation C := EncryptedConnection.
(** The writer on its own; a failed assertion aborts. *)
Definition serialized (m : M (list Z) unit) : M C (list Z) := fun c => match m [] with (Value _, w) => (Value w, c) | (_, _) => (Aborted, c) end.
Definition requestSendService (delayMs cause : Z) : M C unit := modify (fun c => c <| requests := requests c ++ [(delayMs, cause)] |>).

(** ** Sending *)

Definition packetLimit (c : C) : Z := match ec_type c with Signaling => kMaxSignalingPacketSize | Transport => kMaxOuterPacketSize end.
Definition enoughSpaceInPacket (c : C) (buffer : list Z) (amount : nat) : bool :=
  let limit := packetLimit c in
  bool_decide (Z.of_nat amount < limit) && bool_decide (16 + Z.of_nat (length buffer) + Z.of_nat amount <= limit).
Definition haveAdditionalMessages (c : C) : bool := negb (bool_decide (length (myNotYetAckedMessages c) = 0%nat)) || negb (bool_decide (acksToSendSeqs c = [])).
Definition computeNextSeq (messageRequiresAck singleMessagePacket : bool) : M C (option Z) :=
  c ← get;
  if messageRequiresAck && bool_decide (kNotAckedMessagesLimit <= Z.of_nat (length (myNotYetAckedMessages c))) then mret None
  else if decide (ec_counter c = kMaxAllowedCounter) then mret None
  else
    put (c <| ec_counter := u32 (ec_counter c + 1) |>) ;;
    mret (Some (Z.lor (Z.lor (u32 (ec_counter c + 1)) (if singleMessagePacket then kSingleMessagePacketSeqBit else 0)) (if messageRequiresAck then kMessageRequiresAckSeqBit else 0))).

(** The acknowledgements that fit; the rest stays. *)
Fixpoint append_acks (c : C) (buffer : list Z) (acks : list Z) : list Z * list Z :=
  match acks with
  | [] => (buffer, [])
  | seq :: rest => if enoughSpaceInPacket c buffer kAckSerializedSize then append_acks c (AppendSeq buffer seq ++ [kAckId]) rest else (buffer, acks)
  end.
Definition appendAcksToSend (buffer : list Z) : M C (list Z) :=
  c ← get;
  let '(buffer, rest) := append_acks c buffer (acksToSendSeqs c) in
  put (c <| acksToSendSeqs := rest |>) ;; mret buffer.
Definition fullNotAckedLength (c : C) : nat := foldl (fun n r => n + length (r_data r))%nat 0%nat (myNotYetAckedMessages c).
(** The messages that are due, up to the first that is not or does not fit. *)
Fixpoint append_resends (c : C) (now : Z) (buffer : list Z) (l : list MessageForResend) : option (list Z * list MessageForResend) :=
  match l with
  | [] => Some (buffer, [])
  | r :: rest =>
      let sent := r_lastSent r in
      let when := if decide (sent <> 0) then i64 (sent + minDelayBeforeMessageResend (DelayIntervalsByType (ec_type c))) else 0 in
      if decide (length (r_data r) < 5)%nat then None
      else if decide (now < when) then Some (buffer, l)
      else if enoughSpaceInPacket c buffer (length (r_data r)) then
        '(b, rest) ← append_resends c now (buffer ++ r_data r) rest; Some (b, Resend (r_data r) now :: rest)
      else Some (buffer, l)
  end.
Definition appendAdditionalMessages (now : Z) (buffer : list Z) : M C (list Z) :=
  buffer ← appendAcksToSend buffer;
  c ← get;
  if decide (length (myNotYetAckedMessages c) = 0%nat) then mret buffer else
  match append_resends c now buffer (myNotYetAckedMessages c) with
  | None => abort
  | Some (buffer, l) =>
      put (c <| myNotYetAckedMessages := l |>) ;;
      when (negb (resendTimerActive c)) (
        modify (fun c => c <| resendTimerActive := true |>) ;;
        requestSendService (maxDelayBeforeMessageResend (DelayIntervalsByType (ec_type c))) kServiceCauseResend) ;;
      mret buffer
  end.

(** The part of the key that a direction uses. *)
Definition key_offset (type : ConnectionType) (first : bool) : nat := ((if first then 0 else 8) + match type with Signaling => 128 | Transport => 0 end)%nat.
Section crypto.
Context `{TgCrypto}.

Definition encryptPrepared (c : C) (buffer : list Z) : EncryptedPacket :=
  let x := key_offset (ec_type c) (ec_isOutgoing c) in
  let msgKeyLarge := ConcatSHA256 [slice (ec_key c) (88 + x) 32; buffer] in
  let msgKey := slice msgKeyLarge 8 16 in
  Packet (msgKey ++ AesProcessCtr buffer (PrepareAesKeyIv (ec_key c) msgKey x)) (CounterFromSeq (ReadSeq buffer)).
Definition prepareForSendingService (now cause : Z) : M C (option EncryptedPacket) :=
  modify (fun c => if decide (cause = kServiceCauseAcks) then c <| sendAcksTimerActive := false |>
                   else if decide (cause = kServiceCauseResend) then c <| resendTimerActive := false |> else c) ;;
  c ← get;
  if negb (haveAdditionalMessages c) then mret None else
  seq ← computeNextSeq false false;
  match seq with
  | None => mret None
  | Some seq =>
      let serialized := SerializeEmptyMessageWithSeq seq in
      need (enoughSpaceInPacket c serialized 0) ;;
      buffer ← appendAdditionalMessages now serialized;
      c ← get;
      mret (Some (encryptPrepared c buffer))
  end.
Definition prepareForSendingMessageInternal (now : Z) (serialized : list Z) (seq : Z) (messageRequiresAck : bool) : M C (option EncryptedPacket) :=
  c ← get;
  if negb (enoughSpaceInPacket c serialized 0) then mret None else
  let notYetAckedCopy := serialized in
  if negb messageRequiresAck then mret (Some (encryptPrepared c serialized)) else
  let sendEnqueued := negb (bool_decide (length (myNotYetAckedMessages c) = 0%nat)) in
  serialized ← (if sendEnqueued then mret serialized else appendAdditionalMessages now serialized);
  modify (fun c => c <| myNotYetAckedMessages := myNotYetAckedMessages c ++ [Resend notYetAckedCopy now] |>) ;;
  if negb sendEnqueued then gets (fun c => Some (encryptPrepared c serialized)) else
  modify (fun c => c <| myNotYetAckedMessages := map (fun r => Resend (r_data r) 0) (myNotYetAckedMessages c) |>) ;;
  prepareForSendingService now 0.
(** The two kinds of messages share the way they are sent; [write] serialises one
    with its sequence number, alone in its packet or not. *)
Definition prepare (now : Z) (write : Z -> bool -> M (list Z) unit) (messageRequiresAck : bool) : M C (option EncryptedPacket) :=
  c ← get;
  let singleMessagePacket := negb (haveAdditionalMessages c) && negb messageRequiresAck in
  maybeSeq ← computeNextSeq messageRequiresAck singleMessagePacket;
  match maybeSeq with
  | None => mret None
  | Some seq => buffer ← serialized (write seq singleMessagePacket); prepareForSendingMessageInternal now buffer seq messageRequiresAck
  end.
Definition prepareForSending (now : Z) (message : Message) : M C (option EncryptedPacket) :=
  prepare now (SerializeMessageWithSeq message) (kRequiresAck message).
Definition prepareForSendingRawMessage (now : Z) (message : list Z) (messageRequiresAck : bool) : M C (option EncryptedPacket) :=
  prepare now (fun seq _ => SerializeRawMessageWithSeq message seq) messageRequiresAck.
(** No limit on the counter here. *)
Definition encryptRawPacket (buffer : list Z) : M C (list Z) :=
  modify (fun c => c <| ec_counter := u32 (ec_counter c + 1) |>) ;;
  gets (fun c => ep_bytes (encryptPrepared c (be_bytes 4 (ec_counter c) ++ buffer))).

(** ** Receiving *)

(** [std::lower_bound] on a sorted list. *)
Fixpoint lower_bound (l : list Z) (x : Z) : nat :=
  match l with [] => 0%nat | y :: l => if decide (y < x) then S (lower_bound l x) else 0%nat end.
Definition insert_at (n : nat) (x : Z) (l : list Z) : list Z := take n l ++ x :: drop n l.
(** The first counter that is not yet too old for [incoming]. *)
Fixpoint erase_till (incoming : Z) (l : list Z) : list Z :=
  match l with [] => [] | counter :: rest => if decide (incoming < u32 (counter + kKeepIncomingCountersCount)) then l else erase_till incoming rest end.
Definition registerIncomingCounter (incomingCounter : Z) : M C bool :=
  c ← get;
  let list := largestIncomingCounters c in
  let position := lower_bound list incomingCounter in
  let largest := default 0 (last list) in
  if decide (list !! position = Some incomingCounter) then mret false
  else if decide (u32 (incomingCounter + kKeepIncomingCountersCount) <= largest) then mret false
  else
    let list := erase_till incomingCounter list in
    put (c <| largestIncomingCounters := insert_at (lower_bound list incomingCounter) incomingCounter list |>) ;;
    mret true.
Definition registerSentAck (counter : Z) (firstInPacket : bool) : M C bool :=
  c ← get;
  let list := acksSentCounters c in
  let position := lower_bound list counter in
  let already := bool_decide (list !! position = Some counter) in
  let list := if firstInPacket then (if already then drop position list else counter :: drop position list)
              else if already then list else insert_at position counter list in
  put (c <| acksSentCounters := list |>) ;;
  mret (negb already).
Definition sendAckPostponed (incomingSeq : Z) : M C unit :=
  modify (fun c => if decide (incomingSeq ∈ acksToSendSeqs c) then c else c <| acksToSendSeqs := acksToSendSeqs c ++ [incomingSeq] |>).
(** The first message with the sequence number is erased; the ones before it are long
    enough to have one. *)
Fixpoint erase_acked (seq : Z) (l : list MessageForResend) : option (list MessageForResend) :=
  match l with
  | [] => Some []
  | r :: rest =>
      if decide (length (r_data r) < 5)%nat then None
      else if decide (ReadSeq (r_data r) = seq) then Some rest
      else rest ← erase_acked seq rest; Some (r :: rest)
  end.
Definition ackMyMessage (seq : Z) : M C unit :=
  c ← get;
  match erase_acked seq (myNotYetAckedMessages c) with
  | None => abort
  | Some l => put (c <| myNotYetAckedMessages := l |>)
  end.

(** The two kinds of packets: how a message is read, and whether the
    acknowledgements of new messages wait for a timer. *)
Class Flavour (A : Type) := { parse_message : bool -> M (list Z) A; defers_acks : bool }.
#[export] Instance typed : Flavour Message := { parse_message := DeserializeMessage; defers_acks := false }.
#[export] Instance raw : Flavour (list Z) := {
  parse_message := fun _ l => if decide (l.[0] = kCustomId) then DeserializeRawMessage (drop 1 l) else (Thrown, l);
  defers_acks := true
}.

Section process.
Context {A : Type} `{Flavour A}.

Definition appendReceivedMessage (to : option (DecryptedPacket A)) (message : A) (incomingSeq : Z) : option (DecryptedPacket A) :=
  let decrypted := (message, CounterFromSeq incomingSeq) in
  match to with
  | Some p => Some (Decrypted (main p) (additional p ++ [decrypted]))
  | None => Some (Decrypted decrypted [])
  end.
(** What the loop carries: what is left to read, whether a message that requires an
    acknowledgement can still be the first, whether there was a new one, and the result. *)
Record progress := Progress { pr_left : list Z; firstMessageRequiringAck : bool; newRequiringAckReceived : bool; pr_result : option (DecryptedPacket A) }.
Definition process_message (seq : Z) (additionalMessage : bool) (p : progress) : M C (option progress) :=
  match parse_message (Z.testbit seq 31) (pr_left p) with
  | (Value message, unread) =>
      let messageRequiresAck := Z.testbit seq 30 in
      skipMessage ← (if messageRequiresAck then isNew ← registerSentAck (CounterFromSeq seq) (firstMessageRequiringAck p); mret (negb isNew)
                     else if additionalMessage then isNew ← registerIncomingCounter (CounterFromSeq seq); mret (negb isNew) else mret false);
      when messageRequiresAck (sendAckPostponed seq) ;;
      mret (Some (Progress unread (firstMessageRequiringAck p && negb messageRequiresAck) (newRequiringAckReceived p || (messageRequiresAck && negb skipMessage))
        (if skipMessage : bool then pr_result p else appendReceivedMessage (pr_result p) message seq)))
  | (Thrown, _) => mret None
  | (Aborted, _) => abort
  end.
Definition process_item (seq : Z) (additionalMessage : bool) (p : progress) : M C (option progress) :=
  let type := (pr_left p).[0] in
  let consumed := Progress (drop 1 (pr_left p)) (firstMessageRequiringAck p) (newRequiringAckReceived p) (pr_result p) in
  if decide (type = kEmptyId) then mret (if additionalMessage then None else Some consumed)
  else if decide (type = kAckId) then
    if negb additionalMessage then mret None else ackMyMessage seq ;; mret (Some consumed)
  else process_message seq additionalMessage p.
(** [None] when the packet is malformed: what it held is lost. *)
Fixpoint process_loop (fuel : nat) (seq : Z) (additionalMessage : bool) (p : progress) : M C (option progress) :=
  match fuel with
  | O => abort
  | S fuel =>
      let singleMessagePacket := Z.testbit seq 31 in
      if singleMessagePacket && additionalMessage then mret None else
      p ← process_item seq additionalMessage p;
      match p with
      | None => mret None
      | Some p =>
          if decide (pr_left p = []) then mret (Some p)
          else if singleMessagePacket : bool then mret None
          else if decide (length (pr_left p) < 5)%nat then mret None
          else process_loop fuel (ReadSeq (pr_left p)) true (Progress (drop 4 (pr_left p)) (firstMessageRequiringAck p) (newRequiringAckReceived p) (pr_result p))
      end
  end.
Definition request_acks (isNew : bool) : M C unit :=
  c ← get;
  if decide (acksToSendSeqs c = []) then mret tt
  else if isNew && negb defers_acks then requestSendService 0 0
  else when (negb (sendAcksTimerActive c)) (
    modify (fun c => c <| sendAcksTimerActive := true |>) ;;
    requestSendService (if isNew then 10 else maxDelayBeforeAckResend (DelayIntervalsByType (ec_type c))) kServiceCauseAcks).
Definition processPacket (fullBuffer : list Z) (packetSeq : Z) : M C (option (DecryptedPacket A)) :=
  need (bool_decide (5 <= length fullBuffer)%nat) ;;
  p ← process_loop (length fullBuffer) packetSeq false (Progress (drop 4 fullBuffer) true false None);
  match p with
  | None => mret None
  | Some p => request_acks (newRequiringAckReceived p) ;; mret (pr_result p)
  end.
End process.
Arguments progress : clear implicits.

(** The contents of a packet, when its key is right. *)
Definition decrypt (c : C) (bytes : list Z) : option (list Z) :=
  if decide (length bytes < 21)%nat then None
  else if decide (kMaxIncomingPacketSize < Z.of_nat (length bytes)) then None
  else
    let x := key_offset (ec_type c) (negb (ec_isOutgoing c)) in
    let msgKey := take 16 bytes in
    let decryptionBuffer := AesProcessCtr (drop 16 bytes) (PrepareAesKeyIv (ec_key c) msgKey x) in
    let msgKeyLarge := ConcatSHA256 [slice (ec_key c) (88 + x) 32; decryptionBuffer] in
    if ConstTimeIsDifferent (slice msgKeyLarge 8 16) msgKey then None else Some decryptionBuffer.
Definition handleIncomingPacket {A} `{Flavour A} (bytes : list Z) : M C (option (DecryptedPacket A)) :=
  c ← get;
  match decrypt c bytes with
  | None => mret None
  | Some buffer =>
      let incomingSeq := ReadSeq buffer in
      isNew ← registerIncomingCounter (CounterFromSeq incomingSeq);
      if negb isNew then mret None else processPacket buffer incomingSeq
  end.
Definition decryptRawPacket (bytes : list Z) : M C (option (list Z)) :=
  c ← get;
  match decrypt c bytes with
  | None => mret None
  | Some buffer =>
      isNew ← registerIncomingCounter (CounterFromSeq (ReadSeq buffer));
      mret (if negb isNew then None else Some (drop 4 buffer))
  end.
End crypto.

(** ** Sequence numbers *)

Definition counter_ok (n : Z) : Prop := 0 <= n <= kMaxAllowedCounter.
Definition seq_of (n : Z) (single requiresAck : bool) : Z :=
  Z.lor (Z.lor n (if single then kSingleMessagePacketSeqBit else 0)) (if requiresAck then kMessageRequiresAckSeqBit else 0).
Lemma counter_ok_lt n : counter_ok n <-> 0 <= n < 2 ^ 30.
Proof. unfold counter_ok. change kMaxAllowedCounter with (2 ^ 30 - 1). lia. Qed.
Lemma CounterFromSeq_mod seq : CounterFromSeq seq = seq mod 2 ^ 30.
Proof. unfold CounterFromSeq. rewrite <- Z.land_assoc. change (Z.land _ (u32 (Z.lnot kMessageRequiresAckSeqBit))) with (2 ^ 30 - 1). by apply land_mask_mod. Qed.
Lemma CounterFromSeq_ok seq : counter_ok (CounterFromSeq seq).
Proof. rewrite CounterFromSeq_mod, counter_ok_lt. lia. Qed.
Lemma seq_of_add n single requiresAck : counter_ok n -> seq_of n single requiresAck = n + (if requiresAck then 2 ^ 30 else 0) + (if single then 2 ^ 31 else 0).
Proof.
  rewrite counter_ok_lt. intros Hn. unfold seq_of. rewrite <- Z.lor_assoc, (Z.lor_comm (if single then _ else _)), Z.lor_assoc.
  assert (Z.lor n (if requiresAck then kMessageRequiresAckSeqBit else 0) = n + (if requiresAck then 2 ^ 30 else 0)) as ->.
  { destruct requiresAck; [|rewrite Z.lor_0_r; lia]. unfold kMessageRequiresAckSeqBit. rewrite lor_add_shift by lia. lia. }
  destruct single; [|rewrite Z.lor_0_r; lia]. unfold kSingleMessagePacketSeqBit. rewrite lor_add_shift by (destruct requiresAck; lia). lia.
Qed.
Lemma seq_of_u32 n single requiresAck : counter_ok n -> is_u32 (seq_of n single requiresAck).
Proof. intros Hn. rewrite seq_of_add by exact Hn. apply counter_ok_lt in Hn. unfold is_u32. destruct single, requiresAck; lia. Qed.
Lemma seq_of_counter n single requiresAck : counter_ok n -> CounterFromSeq (seq_of n single requiresAck) = n.
Proof. intros Hn. rewrite CounterFromSeq_mod, seq_of_add by exact Hn. apply counter_ok_lt in Hn. destruct single, requiresAck; lia. Qed.
Lemma seq_of_single n single requiresAck : counter_ok n -> Z.testbit (seq_of n single requiresAck) 31 = single.
Proof.
  intros Hn. rewrite seq_of_add by exact Hn. apply counter_ok_lt in Hn. rewrite Z.testbit_odd, Z.shiftr_div_pow2 by lia.
  destruct single, requiresAck; [replace (_ / _) with 1 by lia|replace (_ / _) with 1 by lia|replace (_ / _) with 0 by lia|replace (_ / _) with 0 by lia]; done.
Qed.
Lemma seq_of_requires n single requiresAck : counter_ok n -> Z.testbit (seq_of n single requiresAck) 30 = requiresAck.
Proof.
  intros Hn. rewrite seq_of_add by exact Hn. apply counter_ok_lt in Hn. rewrite Z.testbit_odd, Z.shiftr_div_pow2 by lia.
  destruct single, requiresAck; [replace (_ / _) with 3 by lia|replace (_ / _) with 2 by lia|replace (_ / _) with 1 by lia|replace (_ / _) with 0 by lia]; done.
Qed.
Lemma ReadSeq_be seq k : is_u32 seq -> ReadSeq (be_bytes 4 seq ++ k) = seq.
Proof. intros Hs. unfold ReadSeq. rewrite take_app_length' by by rewrite length_be_bytes. rewrite be_val_be_bytes. apply Z.mod_small, Hs. Qed.
Lemma ReadSeq_u32 l : wf_bytes l -> is_u32 (ReadSeq l).
Proof.
  intros Hl. unfold ReadSeq, be_val. assert (wf_bytes (reverse (take 4 l))) as Hw by (by apply Forall_reverse, Forall_take).
  pose proof (le_val_bound _ Hw) as B. rewrite length_reverse, length_take in B. unfold is_u32. assert (256 ^ Z.of_nat (4 `min` length l) <= 256 ^ 4) by (apply Z.pow_le_mono_r; lia). lia.
Qed.

(** ** Packets *)

Section packets.
Context `{TgCrypto}.

Lemma differs_spec a b : length a = length b -> ConstTimeIsDifferent a b = false <-> a = b.
Proof.
  unfold ConstTimeIsDifferent. assert (forall l d, foldl (fun d (p : Z * Z) => d || negb (fst p =? snd p)) d l = d || existsb (fun p => negb (fst p =? snd p)) l) as E.
  { intros l. induction l as [|p l IH]; intros d; cbn; [by rewrite orb_false_r|]. by rewrite IH, orb_assoc. }
  rewrite E. cbn [orb]. revert b. induction a as [|x a IH]; intros [|y b] Hl; try done. cbn in *. rewrite orb_false_iff, IH by lia. rewrite negb_false_iff, Z.eqb_eq.
  split; [by intros [-> ->]|by intros [= -> ->]].
Qed.
Lemma AesProcessCtr_twice k m : AesProcessCtr (AesProcessCtr m k) k = m.
Proof. apply ctr128_ctr128. Qed.

(** The two ends of a connection. *)
Definition ends (a b : C) : Prop := ec_type a = ec_type b /\ ec_key a = ec_key b /\ ec_isOutgoing a = negb (ec_isOutgoing b).
Lemma ends_sym a b : ends a b -> ends b a.
Proof. intros (H1 & H2 & H3). repeat split; [done|done|]. by rewrite H3, negb_involutive. Qed.
Lemma length_encrypted c buf : length (ep_bytes (encryptPrepared c buf)) = (16 + length buf)%nat.
Proof. unfold encryptPrepared, AesProcessCtr, ConcatSHA256. cbn [ep_bytes]. rewrite length_app, length_ctr128, length_slice by (rewrite length_SHA256; lia). lia. Qed.
Lemma decrypt_encrypt a b buf : ends a b -> (5 <= length buf)%nat -> 16 + Z.of_nat (length buf) <= kMaxIncomingPacketSize ->
  decrypt b (ep_bytes (encryptPrepared a buf)) = Some buf.
Proof.
  intros (E1 & E2 & E3) Hl Hm. unfold decrypt. rewrite length_encrypted, decide_False by lia. rewrite decide_False by lia.
  unfold encryptPrepared. cbn [ep_bytes]. rewrite E1, E2, E3. set (x := key_offset _ _). set (msgKey := slice (ConcatSHA256 [slice (ec_key b) (88 + x) 32; buf]) 8 16).
  assert (length msgKey = 16%nat) as Hk by (unfold msgKey; apply length_slice; unfold ConcatSHA256; rewrite length_SHA256; lia).
  rewrite take_app_length', drop_app_length' by lia. rewrite AesProcessCtr_twice. fold msgKey.
  assert (ConstTimeIsDifferent msgKey msgKey = false) as -> by by apply differs_spec. done.
Qed.
(** The end that could have sent what [c] receives. *)
Definition peer (c : C) : C := new_connection (ec_type c) (ec_key c) (negb (ec_isOutgoing c)).
Lemma decrypt_authentic c bytes buf : decrypt c bytes = Some buf -> bytes = ep_bytes (encryptPrepared (peer c) buf) /\ (5 <= length buf)%nat.
Proof.
  unfold decrypt. case_decide as Hl; [done|]. case_decide; [done|]. unfold encryptPrepared, peer. cbn [ep_bytes ec_type ec_key ec_isOutgoing new_connection].
  set (x := key_offset _ _). set (plain := AesProcessCtr _ _). destruct (ConstTimeIsDifferent _ _) eqn:Ed; [done|]. intros [= <-].
  apply differs_spec in Ed; [|rewrite length_slice, length_take by (unfold ConcatSHA256; rewrite length_SHA256; lia); lia]. rewrite Ed. split.
  - unfold plain. by rewrite AesProcessCtr_twice, take_drop.
  - unfold plain, AesProcessCtr. rewrite length_ctr128, length_drop. lia.
Qed.
End packets.

(** ** Sorted lists of counters *)

Abbreviation ascending := (StronglySorted Z.lt).
Lemma lower_bound_split l x : ascending l -> Forall (fun y => y < x) (take (lower_bound l x) l) /\ Forall (fun y => x <= y) (drop (lower_bound l x) l).
Proof.
  induction 1 as [|y l Hs IH Hy]; [by split|]. cbn [lower_bound]. case_decide as E.
  - cbn [take drop]. split; [by constructor; [|apply IH]|apply IH].
  - cbn [take drop]. split; [done|]. constructor; [lia|]. eapply Forall_impl; [exact Hy|]. cbn. lia.
Qed.
Lemma lower_bound_found l x : ascending l -> l !! lower_bound l x = Some x <-> x ∈ l.
Proof.
  intros Hs. destruct (lower_bound_split l x Hs) as [H1 H2]. split; [by intros ?%list_elem_of_lookup_2|].
  intros Hx. rewrite <- (take_drop (lower_bound l x) l) in Hx. apply elem_of_app in Hx as [Hx|Hx].
  - rewrite Forall_forall in H1. specialize (H1 x Hx). cbn in H1. lia.
  - rewrite <- (Nat.add_0_r (lower_bound l x)), <- lookup_drop. assert (ascending (drop (lower_bound l x) l)) as Hd.
    { clear -Hs. rewrite <- (take_drop (lower_bound l x) l) in Hs. by apply StronglySorted_app in Hs as (_ & _ & Hs). }
    destruct (drop (lower_bound l x) l) as [|y k] eqn:E; [by apply elem_of_nil in Hx|]. apply StronglySorted_inv in Hd as [_ Hd]. apply Forall_cons in H2 as [Hy _].
    apply elem_of_cons in Hx as [->|Hx]; [done|]. rewrite Forall_forall in Hd. specialize (Hd x Hx). lia.
Qed.
Lemma ascending_app l k : ascending (l ++ k) <-> ascending l /\ ascending k /\ forall x y, x ∈ l -> y ∈ k -> x < y.
Proof.
  induction l as [|z l IH]; cbn [app]; [split; [intros H; split; [constructor|split; [done|]]; by intros x y ?%elem_of_nil|by intros (_ & H & _)]|].
  split.
  - intros [H Hz]%StronglySorted_inv. apply IH in H as (H1 & H2 & H3). rewrite Forall_app in Hz. destruct Hz as [Hz1 Hz2]. split; [by constructor|]. split; [done|].
    intros x y [->|Hx]%elem_of_cons Hy; [rewrite Forall_forall in Hz2; by apply Hz2|by apply H3].
  - intros ([H1 Hz]%StronglySorted_inv & H2 & H3). constructor; [apply IH; split; [done|]; split; [done|]; intros x y Hx Hy; apply H3; [by right|done]|].
    rewrite Forall_app. split; [done|]. apply Forall_forall. intros y Hy. apply H3; [by left|done].
Qed.
Lemma insert_ascending l x : ascending l -> x ∉ l -> ascending (insert_at (lower_bound l x) x l).
Proof.
  intros Hs Hx. destruct (lower_bound_split l x Hs) as [H1 H2]. unfold insert_at. rewrite <- (take_drop (lower_bound l x) l) in Hs. apply ascending_app in Hs as (S1 & S2 & S3).
  rewrite Forall_forall in H1, H2. apply ascending_app. split; [done|]. split.
  - constructor; [done|]. apply Forall_forall. intros y Hy. specialize (H2 y Hy). cbn in H2. assert (x <> y); [|lia]. intros ->. apply Hx.
    rewrite <- (take_drop (lower_bound l y) l). apply elem_of_app. by right.
  - intros y z Hy [->|Hz]%elem_of_cons; [by apply H1|by apply S3].
Qed.
Lemma elem_of_insert_at l n x y : y ∈ insert_at n x l <-> y = x \/ y ∈ l.
Proof. unfold insert_at. rewrite elem_of_app, elem_of_cons. rewrite <- (take_drop n l) at 3. rewrite elem_of_app. tauto. Qed.
Lemma drop_lower_bound l x : ascending l -> ascending (drop (lower_bound l x) l) /\ forall y, y ∈ drop (lower_bound l x) l <-> y ∈ l /\ x <= y.
Proof.
  intros Hs. destruct (lower_bound_split l x Hs) as [H1 H2]. rewrite Forall_forall in H1, H2. split.
  - rewrite <- (take_drop (lower_bound l x) l) in Hs. by apply ascending_app in Hs as (_ & Hs & _).
  - intros y. split; [intros Hy; split; [rewrite <- (take_drop (lower_bound l x) l), elem_of_app; by right|by apply H2]|].
    intros [Hy Hxy]. rewrite <- (take_drop (lower_bound l x) l), elem_of_app in Hy. destruct Hy as [Hy|Hy]; [|done]. specialize (H1 y Hy). cbn in H1. lia.
Qed.
Lemma erase_till_spec x l : ascending l -> Forall counter_ok l -> ascending (erase_till x l) /\ forall y, y ∈ erase_till x l <-> y ∈ l /\ x < y + 64.
Proof.
  induction 1 as [|y l Hs IH Hy]; intros Hl; cbn [erase_till]; [split; [constructor|]; set_solver|]. apply Forall_cons in Hl as [Hc Hl]. apply counter_ok_lt in Hc.
  change kKeepIncomingCountersCount with 64. rewrite u32_id by lia. case_decide as E.
  - split; [by constructor|]. intros z. split; [|tauto]. intros Hz. split; [done|]. apply elem_of_cons in Hz as [->|Hz]; [lia|]. rewrite Forall_forall in Hy. specialize (Hy z Hz). cbn in Hy. lia.
  - destruct (IH Hl) as [H1 H2]. split; [done|]. intros z. rewrite H2, elem_of_cons. split; [tauto|]. intros [[->|Hz] Hlt]; [lia|done].
Qed.

(** ** The window of received counters

    The specification: the counters seen so far, and which next ones are new. *)

Definition newest (seen : list Z) : Z := foldr Z.max 0 seen.
Definition is_new (seen : list Z) (x : Z) : bool := bool_decide (x ∉ seen) && bool_decide (newest seen < x + 64).
Fixpoint admitted (seen xs : list Z) : list Z :=
  match xs with [] => [] | x :: xs => if is_new seen x then x :: admitted (x :: seen) xs else admitted seen xs end.
Lemma newest_ge seen x : x ∈ seen -> x <= newest seen.
Proof. induction seen as [|y seen IH]; [by intros ?%elem_of_nil|]. cbn. fold (newest seen). intros [->|Hx]%elem_of_cons; [lia|]. specialize (IH Hx). lia. Qed.
Lemma newest_in seen : Forall counter_ok seen -> seen <> [] -> newest seen ∈ seen.
Proof.
  induction 1 as [|y seen Hy Hs IH]; [done|]. intros _. cbn. apply counter_ok_lt in Hy. destruct seen as [|z seen]; [apply list_elem_of_singleton; cbn; lia|].
  destruct (Z.max_spec y (newest (z :: seen))) as [[_ E]|[_ E]]; unfold newest in *; cbn [foldr] in *; rewrite E; [right; by apply IH|left].
Qed.

(** The list holds the counters that are not too old, in order. *)
Definition window (seen list : list Z) : Prop := ascending list /\ Forall counter_ok seen /\ forall x, x ∈ list <-> x ∈ seen /\ newest seen < x + 64.
Lemma window_last seen l : window seen l -> default 0 (last l) = newest seen.
Proof.
  intros (Hs & Hc & Hl). destruct seen as [|y seen]; [destruct l as [|z l]; [done|]; assert (z ∈ []) as []%elem_of_nil by (apply Hl; left)|].
  assert (newest (y :: seen) ∈ l) as Hn by (apply Hl; split; [by apply newest_in|lia]).
  destruct l as [|z l _] using rev_ind; [by apply elem_of_nil in Hn|]. rewrite last_snoc. change (z = newest (y :: seen)).
  assert (z ∈ y :: seen) as Hz by (apply Hl, elem_of_app; right; left). apply newest_ge in Hz.
  apply elem_of_app in Hn as [Hn|Hn%list_elem_of_singleton]; [|lia]. apply ascending_app in Hs as (_ & _ & Hs). specialize (Hs _ z Hn ltac:(left)). lia.
Qed.
Lemma register_window seen c x : window seen (largestIncomingCounters c) -> counter_ok x ->
  exists l, registerIncomingCounter x c = (Value (is_new seen x), c <| largestIncomingCounters := l |>) /\ window (if is_new seen x then x :: seen else seen) l.
Proof.
  intros Hw Hx. pose proof (window_last _ _ Hw) as Hlast. destruct Hw as (Hs & Hc & Hl). unfold registerIncomingCounter. erewrite run_bind by reflexivity. rewrite Hlast.
  apply counter_ok_lt in Hx as Hx'. change kKeepIncomingCountersCount with 64. rewrite u32_id by lia.
  assert (largestIncomingCounters c !! lower_bound (largestIncomingCounters c) x = Some x <-> x ∈ seen /\ newest seen < x + 64) as Hf by by rewrite lower_bound_found, Hl.
  unfold is_new. case_decide as Ef.
  { apply Hf in Ef as [Ef _]. rewrite bool_decide_eq_false_2 by tauto. exists (largestIncomingCounters c). split; [by destruct c|done]. }
  case_decide as Eo.
  { rewrite (bool_decide_eq_false_2 (newest seen < x + 64)) by lia. rewrite andb_false_r. exists (largestIncomingCounters c). split; [by destruct c|done]. }
  assert (x ∉ seen) as Hn by (intros ?; apply Ef, Hf; split; [done|lia]). rewrite !bool_decide_eq_true_2 by (done || lia). cbn [andb].
  assert (Forall counter_ok (largestIncomingCounters c)) as Hlc by (apply Forall_forall; intros y [Hy _]%Hl; rewrite Forall_forall in Hc; by apply Hc).
  destruct (erase_till_spec x _ Hs Hlc) as [He1 He2]. assert (x ∉ erase_till x (largestIncomingCounters c)) as Hxe by (rewrite He2, Hl; tauto).
  eexists. split; [reflexivity|]. split; [by apply insert_ascending|]. split; [by constructor|].
  intros y. rewrite elem_of_insert_at, He2, Hl, elem_of_cons. cbn [newest foldr]. fold (newest seen). split; [intros [->|[[Hy ?] ?]]; (split; [by auto|lia])|].
  intros [[->|Hy] Hlt]; [by left|right; split; [split; [done|lia]|lia]].
Qed.
Fixpoint registers (xs : list Z) : M C (list Z) :=
  match xs with [] => mret [] | x :: xs => isNew ← registerIncomingCounter x; l ← registers xs; mret (if isNew : bool then x :: l else l) end.
Lemma registers_window xs : Forall counter_ok xs -> forall seen c, window seen (largestIncomingCounters c) ->
  exists l, registers xs c = (Value (admitted seen xs), c <| largestIncomingCounters := l |>) /\ exists seen', window seen' l.
Proof.
  induction 1 as [|x xs Hx _ IH]; intros seen c Hw; [exists (largestIncomingCounters c); split; [by destruct c|by exists seen]|].
  destruct (register_window seen c x Hw Hx) as (l & E & Hl). cbn [registers]. erewrite run_bind by exact E.
  set (c1 := c <| largestIncomingCounters := l |>) in *.
  destruct (IH (if is_new seen x then x :: seen else seen) c1 Hl) as (l' & E' & Hl'). erewrite run_bind by exact E'. exists l'. split; [|done].
  cbn [admitted]. by destruct (is_new seen x).
Qed.
Lemma admitted_nodup xs : forall seen, NoDup (admitted seen xs) /\ forall x, x ∈ admitted seen xs -> x ∉ seen.
Proof.
  induction xs as [|x xs IH]; intros seen; [split; [constructor|by intros x ?%elem_of_nil]|]. cbn [admitted]. destruct (is_new seen x) eqn:E; [|apply IH].
  unfold is_new in E. apply andb_true_iff in E as [E%bool_decide_eq_true _]. destruct (IH (x :: seen)) as [H1 H2]. split.
  - constructor; [|done]. intros Hx. apply (H2 x Hx). left.
  - intros y [->|Hy]%elem_of_cons; [done|]. intros Hs. apply (H2 y Hy). by right.
Qed.
(** Its counters are distinct and within 64 of the newest. *)
Lemma window_bounded seen l : window seen l -> (length l <= 64)%nat.
Proof.
  intros (Hs & _ & Hl). assert (forall (l : list Z) m, ascending l -> (forall x, x ∈ l -> m - 64 < x <= m) -> Z.of_nat (length l) <= 64) as H.
  { intros k m Hk Hm. assert (forall j, (j < length k)%nat -> m - 64 + Z.of_nat j < k.[j]) as Hj.
    { clear -Hk Hm. revert Hm. induction k as [|y k IH] using rev_ind; [cbn; lia|]. apply ascending_app in Hk as (Hk & _ & Hky). intros Hm j Hj. rewrite length_app in Hj. cbn in Hj.
      assert (forall x, x ∈ k -> m - 64 < x <= m) as Hm' by (intros x Hx; apply Hm, elem_of_app; by left). specialize (IH Hk Hm').
      destruct (decide (j < length k)%nat) as [Hlt|Hge]; [rewrite ix_app_l by done; by apply IH|]. assert (j = length k) as -> by lia. rewrite ix_app_r, Nat.sub_diag by lia. cbn.
      destruct (decide (length k = 0%nat)) as [E|E]; [specialize (Hm y ltac:(apply elem_of_app; right; left)); lia|].
      specialize (IH (length k - 1)%nat ltac:(lia)). assert (k.[length k - 1] ∈ k) as Hin.
      { destruct (lookup_lt_is_Some_2 k (length k - 1)%nat ltac:(lia)) as [z Hz]. rewrite (ix_lookup _ _ _ Hz). by eapply list_elem_of_lookup_2. }
      specialize (Hky _ y Hin ltac:(left)). lia. }
    destruct (decide (length k = 0%nat)) as [E|E]; [lia|]. specialize (Hj (length k - 1)%nat ltac:(lia)).
    assert (k.[length k - 1] ∈ k) as Hin.
    { destruct (lookup_lt_is_Some_2 k (length k - 1)%nat ltac:(lia)) as [z Hz]. rewrite (ix_lookup _ _ _ Hz). by eapply list_elem_of_lookup_2. }
    specialize (Hm _ Hin). lia. }
  specialize (H l (newest seen) Hs). lapply H; [lia|]. intros x [Hx Hlt]%Hl. apply newest_ge in Hx. lia.
Qed.

(** C34: the counters of packets, in whatever order they come, are accepted exactly when they
    have not been seen and are not 64 or more behind the newest; so none is accepted
    twice, and the list stays within 64 entries. *)
Theorem replay_window (xs : list Z) (c : EncryptedConnection) (Hx : Forall counter_ok xs) (Hc : largestIncomingCounters c = []) :
  exists c', registers xs c = (Value (admitted [] xs), c') /\ NoDup (admitted [] xs) /\ (length (largestIncomingCounters c') <= 64)%nat /\
    c' = c <| largestIncomingCounters := largestIncomingCounters c' |>.
Proof.
  assert (window [] (largestIncomingCounters c)) as Hw by (rewrite Hc; split; [constructor|split; [constructor|set_solver]]).
  destruct (registers_window xs Hx [] c Hw) as (l & E & seen & Hl). exists (c <| largestIncomingCounters := l |>). split; [exact E|].
  split; [apply admitted_nodup|]. split; [by eapply window_bounded|by destruct c].
Qed.

(** ** Arbitrary packets *)

(** The lists are sorted, as [std::lower_bound] needs them, and what waits for an
    acknowledgement has a sequence number and a type. *)
Definition connection_ok (c : EncryptedConnection) : Prop :=
  ascending (largestIncomingCounters c) /\ Forall counter_ok (largestIncomingCounters c) /\ ascending (acksSentCounters c) /\
  Forall (fun r => (5 <= length (r_data r))%nat) (myNotYetAckedMessages c).
(** [m] returns, and keeps the invariant. *)
Definition keeps {A} (m : M EncryptedConnection A) : Prop := triple connection_ok m (fun _ => connection_ok) (fun _ => False).
Lemma preserves_ret {A} (a : A) : keeps (mret a).
Proof. by intros c Hc. Qed.
Lemma preserves_bind {A B} (m : M EncryptedConnection A) (f : A -> M EncryptedConnection B) : keeps m -> (forall a, keeps (f a)) -> keeps (m ≫= f).
Proof. apply triple_bind. Qed.
Lemma preserves_get {A} (f : EncryptedConnection -> M EncryptedConnection A) : (forall c, connection_ok c -> keeps (f c)) -> keeps (get ≫= f).
Proof. intros Hf c Hc. by apply (Hf c Hc). Qed.
Lemma preserves_when b (m : M EncryptedConnection unit) : keeps m -> keeps (when b m).
Proof. destruct b; [done|]. intros _. apply preserves_ret. Qed.
(** The invariant does not mention the timers, the requests, what is to be
    acknowledged and the counter. *)
Lemma preserves_modify f : (forall c, connection_ok c -> connection_ok (f c)) -> keeps (modify f).
Proof. intros Hf c Hc. by apply Hf. Qed.
Lemma registerIncomingCounter_keeps x : counter_ok x -> keeps (registerIncomingCounter x).
Proof.
  intros Hx. unfold registerIncomingCounter. apply preserves_get. intros c Hc c0 Hc0. case_decide as Ef; [done|]. case_decide; [done|]. cbn.
  destruct Hc as (H1 & H2 & H3 & H4). rewrite lower_bound_found in Ef by done. destruct (erase_till_spec x _ H1 H2) as [E1 E2].
  split; [apply insert_ascending; [done|]; by rewrite E2; tauto|]. split; [|done]. apply Forall_forall. intros y [->|[Hy _]%E2]%elem_of_insert_at; [done|].
  rewrite Forall_forall in H2. by apply H2.
Qed.
Lemma registerSentAck_keeps x first : keeps (registerSentAck x first).
Proof.
  unfold registerSentAck. apply preserves_get. intros c (H1 & H2 & H3 & H4) c0 Hc0. cbn. split; [done|]. split; [done|]. split; [|done]. cbn.
  destruct (drop_lower_bound (acksSentCounters c) x H3) as [D1 D2]. case_bool_decide as E; rewrite lower_bound_found in E by done.
  - by destruct first.
  - destruct first; [|by apply insert_ascending]. constructor; [done|]. apply Forall_forall. intros y [Hy Hxy]%D2. assert (x <> y); [|lia]. by intros ->.
Qed.
Lemma sendAckPostponed_keeps x : keeps (sendAckPostponed x).
Proof. apply preserves_modify. intros c Hc. by case_decide. Qed.
Lemma erase_acked_ok seq l : Forall (fun r => (5 <= length (r_data r))%nat) l -> exists l', erase_acked seq l = Some l' /\ Forall (fun r => (5 <= length (r_data r))%nat) l'.
Proof.
  induction 1 as [|r l Hr Hl IH]; [by exists []|]. cbn [erase_acked]. rewrite decide_False by lia. case_decide; [by exists l|].
  destruct IH as (l' & -> & Hl'). exists (r :: l'). split; [done|by constructor].
Qed.
Lemma ackMyMessage_keeps seq : keeps (ackMyMessage seq).
Proof.
  unfold ackMyMessage. apply preserves_get. intros c (H1 & H2 & H3 & H4) c0 Hc0. destruct (erase_acked_ok seq _ H4) as (l & -> & Hl). by repeat split.
Qed.
Lemma requestSendService_keeps d cause : keeps (requestSendService d cause).
Proof. by apply preserves_modify. Qed.

(** What the code relies on in the reader of a message: on any input it ends, leaving part
    of the input. *)
Class Reader (A : Type) `{Flavour A} := reader_safe : forall single l, (parse_message single l).1 <> Aborted /\ (length (parse_message single l).2 <= length l)%nat.
#[export] Instance typed_reader : Reader Message.
Proof. intros single l. by apply (safe_result _ _ _ (message_shrinks single (length l))). Qed.
#[export] Instance raw_reader : Reader (list Z).
Proof.
  intros single l. cbn [parse_message raw]. case_decide; [|done]. destruct (safe_result _ _ (drop 1 l) (raw_shrinks (length l))) as [H1 H2]; [rewrite length_drop; lia|done].
Qed.

Section arbitrary.
Context `{TgCrypto} {A : Type} `{Reader A}.

Lemma process_item_keeps seq additional p n : (length (pr_left p) <= n)%nat ->
  triple connection_ok (process_item seq additional p) (fun r c => connection_ok c /\ forall q, r = Some q -> (length (pr_left q) <= n)%nat) (fun _ => False).
Proof.
  intros Hp. unfold process_item. case_decide; [intros c Hc; split; [done|]; destruct additional; intros q [= <-]; cbn; rewrite length_drop; lia|].
  case_decide.
  { destruct additional; cbn [negb]; [|by intros c Hc]. eapply triple_bind; [apply ackMyMessage_keeps|]. intros _ c Hc. split; [done|]. intros q [= <-]. cbn. rewrite length_drop. lia. }
  unfold process_message. destruct (reader_safe (Z.testbit seq 31) (pr_left p)) as [Hs Hl]. destruct (parse_message _ _) as [[m| |] unread]; [|by intros c Hc|done]. cbn in Hl.
  eapply triple_bind.
  { instantiate (1 := fun _ => connection_ok). change (keeps (if Z.testbit seq 30 then isNew ← registerSentAck (CounterFromSeq seq) (firstMessageRequiringAck p); mret (negb isNew)
      else if additional then isNew ← registerIncomingCounter (CounterFromSeq seq); mret (negb isNew) else mret false)).
    destruct (Z.testbit seq 30); [apply preserves_bind; [apply registerSentAck_keeps|by intros a; apply preserves_ret]|].
    destruct additional; [apply preserves_bind; [apply registerIncomingCounter_keeps, CounterFromSeq_ok|by intros a; apply preserves_ret]|apply preserves_ret]. }
  intros skip. eapply triple_bind; [apply (preserves_when _ (sendAckPostponed seq)), sendAckPostponed_keeps|]. intros _ c Hc. split; [done|]. intros q [= <-]. cbn. lia.
Qed.
Lemma process_loop_keeps fuel : forall seq additional p, (length (pr_left p) < fuel)%nat -> keeps (process_loop fuel seq additional p).
Proof.
  induction fuel as [|fuel IH]; intros seq additional p Hp; [lia|]. cbn [process_loop]. destruct (Z.testbit seq 31 && additional); [apply preserves_ret|].
  eapply triple_bind; [by apply (process_item_keeps seq additional p fuel); lia|]. intros [q|]; [|by intros c [Hc _]].
  intros c [Hc Hq]. specialize (Hq q eq_refl). case_decide as E; [done|]. destruct (Z.testbit seq 31); [done|]. case_decide; [done|].
  apply IH; [|done]. cbn. rewrite length_drop. lia.
Qed.
Lemma request_acks_keeps isNew : keeps (request_acks isNew).
Proof.
  unfold request_acks. apply preserves_get. intros c Hc. case_decide; [apply preserves_ret|]. destruct (isNew && negb defers_acks); [apply requestSendService_keeps|].
  apply preserves_when, preserves_bind; [by apply preserves_modify|]. intros _. apply requestSendService_keeps.
Qed.
Lemma processPacket_keeps buffer seq : (5 <= length buffer)%nat -> keeps (processPacket buffer seq).
Proof.
  intros Hl. unfold processPacket. rewrite bool_decide_eq_true_2 by done. apply preserves_bind; [apply preserves_ret|]. intros _.
  apply preserves_bind; [apply process_loop_keeps; cbn; rewrite length_drop; lia|]. intros [p|]; [|apply preserves_ret]. apply preserves_bind; [apply request_acks_keeps|]. intros _. apply preserves_ret.
Qed.

Lemma handle_ok (bytes : list Z) (c : EncryptedConnection) (Hc : connection_ok c) :
  exists r c', handleIncomingPacket bytes c = (Value r, c') /\ connection_ok c' /\
    ((r = None /\ c' = c) \/ exists buf, bytes = ep_bytes (encryptPrepared (peer c) buf) /\ decrypt c bytes = Some buf /\ (5 <= length buf)%nat).
Proof.
  unfold handleIncomingPacket. erewrite run_bind by reflexivity. destruct (decrypt c bytes) as [buf|] eqn:Ed; [|exists None, c; by auto].
  destruct (decrypt_authentic c bytes buf Ed) as [E Hl]. match goal with |- context [?m c = _] => assert (keeps m) as K end.
  { apply preserves_bind; [apply registerIncomingCounter_keeps, CounterFromSeq_ok|]. intros isNew. destruct isNew; [by apply processPacket_keeps|apply preserves_ret]. }
  specialize (K c Hc). match type of K with match ?x with _ => _ end => destruct x as [[r| |] c']; [|done|done] end. exists r, c'. split; [done|]. split; [done|]. right. by exists buf.
Qed.
(** C35: whatever arrives, handling it returns, keeps the lists sorted, and either changes and
    delivers nothing or is a packet that the other end, with the same key, would have
    made of its contents. *)
Theorem incoming_authentic (bytes : list Z) (c : EncryptedConnection) (Hc : connection_ok c) :
  exists r c', handleIncomingPacket bytes c = (Value r, c') /\ connection_ok c' /\
    ((r = None /\ c' = c) \/ exists buf, bytes = ep_bytes (encryptPrepared (peer c) buf) /\ decrypt c bytes = Some buf /\ (5 <= length buf)%nat).
Proof. exact (handle_ok bytes c Hc). Qed.
End arbitrary.

(** ** Examples

    A toy cipher that satisfies what is relied on. *)
#[local] Program Instance demo_crypto : TgCrypto := { SHA256 m := repeat (foldr Z.add 0 m mod 256) 32; ctr128_encrypt _ _ m := m }.
Next Obligation. intros m. apply repeat_length. Qed.
Next Obligation. done. Qed.
Next Obligation. done. Qed.
Definition demo_end : C := new_connection Transport (repeat 7 256) true.
Lemma replay_window_witness : let xs := [1; 100; 99; 37; 100; 36; 36; 200; 137; 136] in
  exists c', registers xs demo_end = (Value [1; 100; 99; 37; 200; 137], c') /\ NoDup (admitted [] xs) /\ (length (largestIncomingCounters c') <= 64)%nat /\
    c' = demo_end <| largestIncomingCounters := largestIncomingCounters c' |>.
Proof.
  intros xs. assert (admitted [] xs = [1; 100; 99; 37; 200; 137]) as <- by (vm_compute; reflexivity). apply (replay_window xs demo_end); [|reflexivity].
  repeat (apply Forall_cons; split; [apply counter_ok_lt; lia|]). constructor.
Defined.
(** A packet of the other end, and one with a byte more. *)
Definition demo_packet : list Z := Eval vm_compute in ep_bytes (encryptPrepared (peer demo_end) (be_bytes 4 1 ++ [kCustomId] ++ be_bytes 4 2 ++ [5; 6])).
Lemma incoming_authentic_witness : decrypt demo_end demo_packet = Some (be_bytes 4 1 ++ [kCustomId] ++ be_bytes 4 2 ++ [5; 6]) /\ decrypt demo_end (demo_packet ++ [1]) = None /\
  exists r c', handleIncomingPacket (A := list Z) demo_packet demo_end = (Value r, c') /\ connection_ok c' /\
    ((r = None /\ c' = demo_end) \/ exists buf, demo_packet = ep_bytes (encryptPrepared (peer demo_end) buf) /\ decrypt demo_end demo_packet = Some buf /\ (5 <= length buf)%nat).
Proof.
  split; [vm_compute; reflexivity|]. split; [vm_compute; reflexivity|]. apply (incoming_authentic (A := list Z) demo_packet demo_end). repeat split; constructor.
Defined.
