(* ===== verification/TgReliable.v ===== *)
(** * Calls: reliable delivery

    Two ends of [TgConnection.EncryptedConnection] over a network that may lose and
    repeat packets but not reorder them: what is sent with an acknowledgement arrives
    once and in order, and is kept until it has arrived. The theorems hold for both
    kinds of messages, through the class [Transmissible]. *)

From stdpp Require Import sorting relations.
From S2P Require Import Prelude Exn Double TgMessage TgConnection.

(** ** What is sent and how it is read *)

(** The bytes of a message after its sequence number: told from an empty message and an
    acknowledgement, and read to the end. *)
Definition body_ok {A} `{Flavour A} (single : bool) (body : list Z) (m : A) : Prop :=
  body <> [] /\ body.[0] <> kEmptyId /\ body.[0] <> kAckId /\
  forall k, (single = true -> k = []) -> parse_message single (body ++ k) = (Value m, k).
(** [X] is what is sent, [A] what arrives. *)
Class Transmissible (X A : Type) `{Flavour A} := {
  write : X -> Z -> bool -> M (list Z) unit;
  requires_ack : X -> bool;
  arrives : X -> A;
  transmissible : X -> Prop;
  write_ok x seq single : transmissible x ->
    exists body, write x seq single [] = (Value tt, be_bytes 4 seq ++ body) /\ body_ok single body (arrives x)
}.
#[export] Program Instance typed_messages : Transmissible Message Message := {
  write := SerializeMessageWithSeq; requires_ack := kRequiresAck; arrives := received; transmissible := sendable
}.
Next Obligation.
  intros m seq single Hm. destruct (message_writes m seq single Hm) as (bytes & E & Hb & Hr). exists bytes. split; [exact E|].
  assert (bytes.[0] = kId m) as Hi by by destruct bytes. assert (1 <= kId m <= 10) as Hk by (destruct m; cbn; lia).
  split; [intros ->; cbn in Hi; lia|]. rewrite Hi. split; [change kEmptyId with 254; lia|]. split; [change kAckId with 255; lia|]. exact Hr.
Qed.
(** A raw message, and whether it is to be acknowledged. *)
#[export] Program Instance raw_messages : Transmissible (list Z * bool) (list Z) := {
  write := fun x seq _ => SerializeRawMessageWithSeq x.1 seq; requires_ack := snd; arrives := fst;
  transmissible := fun x => Z.of_nat (length x.1) <= 1024 * 1024
}.
Next Obligation.
  intros [m req] seq single Hm. cbn in *. exists ([kCustomId] ++ be_bytes 4 (Z.of_nat (length m)) ++ m). split.
  - unfold SerializeRawMessageWithSeq. rewrite u32_id by lia. exact (emits_seq _ _ _ _ (emits_emit _) (emits_seq _ _ _ _ (emits_emit _) (emits_seq _ _ _ _ (emits_emit _) (emits_emit _))) []).
  - split; [done|]. split; [done|]. split; [done|]. intros k _. cbn [parse_message raw app ix nth]. rewrite decide_True by done. cbn [drop].
    unfold DeserializeRawMessage. rewrite drop_0. erewrite run_bind by reflexivity. rewrite decide_False by (rewrite !length_app, length_be_bytes; lia). rewrite <- app_assoc.
    erewrite run_bind by (apply reads_u32; unfold is_u32; lia). rewrite decide_False by lia. rewrite Nat2Z.id. by apply reads_string.
Qed.

Section reliable.
Context `{TC : TgCrypto} {X A : Type} `{FL : Flavour A} `{TR : !Transmissible X A} `{RD : !Reader A}.

(** A message that waits for its acknowledgement. *)
Record entry := Entry { e_counter : Z; e_body : list Z; e_msg : A }.
Definition e_seq (e : entry) : Z := seq_of (e_counter e) false true.
Definition entry_bytes (e : entry) : list Z := be_bytes 4 (e_seq e) ++ e_body e.
Definition entry_ok (e : entry) : Prop := counter_ok (e_counter e) /\ body_ok false (e_body e) (e_msg e).

(** ** One packet *)

Inductive item := IAck (seq : Z) | IMsg (e : entry).
Definition item_seq (i : item) : Z := match i with IAck seq => seq | IMsg e => e_seq e end.
Definition item_rest (i : item) : list Z := match i with IAck _ => [kAckId] | IMsg e => e_body e end.
Definition item_bytes (i : item) : list Z := be_bytes 4 (item_seq i) ++ item_rest i.
Definition ack_ok (seq : Z) : Prop := exists n, counter_ok n /\ seq = seq_of n false true.
Definition item_ok (i : item) : Prop := match i with IAck seq => ack_ok seq | IMsg e => entry_ok e end.

(** [registerSentAck] on the list. *)
Definition sent_ack (l : list Z) (counter : Z) (first : bool) : list Z * bool :=
  let position := lower_bound l counter in
  let already := bool_decide (l !! position = Some counter) in
  (if first then (if already then drop position l else counter :: drop position l) else if already then l else insert_at position counter l, negb already).
Lemma registerSentAck_list counter first c : registerSentAck counter first c =
  (Value (sent_ack (acksSentCounters c) counter first).2, c <| acksSentCounters := (sent_ack (acksSentCounters c) counter first).1 |>).
Proof. done. Qed.
Definition postpone (acks : list Z) (seq : Z) : list Z := if decide (seq ∈ acks) then acks else acks ++ [seq].
Definition forget (l : list MessageForResend) (seq : Z) : list MessageForResend := default l (erase_acked seq l).
Definition items_of (r : option (DecryptedPacket A)) : list (A * Z) := match r with None => [] | Some p => main p :: additional p end.
Lemma items_append r m seq : items_of (appendReceivedMessage r m seq) = items_of r ++ [(m, CounterFromSeq seq)].
Proof. by destruct r. Qed.

(** What an item does to the connection and to the loop. *)
Record loop_state := Loop { l_conn : EncryptedConnection; l_first : bool; l_new : bool; l_result : option (DecryptedPacket A) }.
Definition istep (s : loop_state) (i : item) : loop_state :=
  let c := l_conn s in
  match i with
  | IAck seq => Loop (c <| myNotYetAckedMessages := forget (myNotYetAckedMessages c) seq |>) (l_first s) (l_new s) (l_result s)
  | IMsg e =>
      let '(l, isNew) := sent_ack (acksSentCounters c) (e_counter e) (l_first s) in
      Loop (c <| acksSentCounters := l |> <| acksToSendSeqs := postpone (acksToSendSeqs c) (e_seq e) |>) false (l_new s || isNew)
        (if isNew then appendReceivedMessage (l_result s) (e_msg e) (e_seq e) else l_result s)
  end.
Definition run_item (additional : bool) (i : item) (k : list Z) (s : loop_state) : outcome (option progress) * EncryptedConnection :=
  let t := istep s i in (Value (Some (Progress k (l_first t) (l_new t) (l_result t))), l_conn t).
Lemma process_msg additional e k s : entry_ok e ->
  process_item (e_seq e) additional (Progress (e_body e ++ k) (l_first s) (l_new s) (l_result s)) (l_conn s) = run_item additional (IMsg e) k s.
Proof.
  intros (Hn & Hne & He & Ha & Hp). unfold process_item. cbn [pr_left]. assert ((e_body e ++ k).[0] = (e_body e).[0]) as -> by (apply ix_app_l; destruct (e_body e); [done|cbn; lia]).
  rewrite !decide_False by done. unfold process_message, e_seq. cbn [pr_left firstMessageRequiringAck newRequiringAckReceived pr_result].
  rewrite (seq_of_single _ false true Hn), (seq_of_requires _ false true Hn), (seq_of_counter _ false true Hn), Hp by done. cbn [when].
  set (c := l_conn s). destruct (sent_ack (acksSentCounters c) (e_counter e) (l_first s)) as [l isNew] eqn:El.
  pose proof (registerSentAck_list (e_counter e) (l_first s) c) as E. rewrite El in E. cbn [fst snd] in E.
  erewrite run_bind by (erewrite run_bind by exact E; reflexivity).
  assert (sendAckPostponed (seq_of (e_counter e) false true) (c <| acksSentCounters := l |>) =
    (Value tt, c <| acksSentCounters := l |> <| acksToSendSeqs := postpone (acksToSendSeqs c) (e_seq e) |>)) as E2.
  { clear. clearbody c. unfold sendAckPostponed, postpone, modify, e_seq. destruct c. unfold set. cbn. by case_decide. }
  erewrite run_bind by exact E2. unfold run_item, istep. fold c. rewrite El. cbn [l_first l_new l_result l_conn]. by rewrite andb_false_r; destruct isNew.
Qed.
Lemma process_ack seq k s : connection_ok (l_conn s) ->
  process_item seq true (Progress (kAckId :: k) (l_first s) (l_new s) (l_result s)) (l_conn s) = run_item true (IAck seq) k s.
Proof.
  intros (_ & _ & _ & H4). unfold process_item. cbn [pr_left]. change ((kAckId :: k).[0]) with kAckId. rewrite decide_False by done. rewrite decide_True by done. cbn [negb].
  destruct (erase_acked_ok seq _ H4) as (l & E & _). erewrite run_bind; [|unfold ackMyMessage; erewrite run_bind by reflexivity; rewrite E; reflexivity].
  unfold run_item, istep, forget. rewrite E. done.
Qed.
Lemma istep_ok s i : connection_ok (l_conn s) -> connection_ok (l_conn (istep s i)).
Proof.
  intros (H1 & H2 & H3 & H4). destruct i as [seq|e]; cbn [istep].
  - unfold forget. destruct (erase_acked_ok seq _ H4) as (l & E & Hl). rewrite E. by repeat split.
  - pose proof (registerSentAck_keeps (e_counter e) (l_first s) (l_conn s)) as K. rewrite registerSentAck_list in K.
    destruct (sent_ack _ _ _) as [l isNew]. by apply K.
Qed.

Lemma item_seq_ok i : item_ok i -> exists n, counter_ok n /\ item_seq i = seq_of n false true.
Proof. destruct i as [seq|e]; [done|]. intros [Hn _]. by exists (e_counter e). Qed.
Lemma item_rest_ne i : item_ok i -> item_rest i <> [].
Proof. destruct i as [seq|e]; [done|]. by intros (_ & Hne & _). Qed.
Lemma length_item i : item_ok i -> (5 <= length (item_bytes i))%nat.
Proof. intros Hi%item_rest_ne. unfold item_bytes. rewrite length_app, length_be_bytes. destruct (item_rest i); [done|cbn; lia]. Qed.
Definition items_bytes (l : list item) : list Z := concat (map item_bytes l).
Lemma loop_items (l : list item) : forall fuel additional i s, Forall item_ok (i :: l) -> (additional = true \/ exists e, i = IMsg e) -> connection_ok (l_conn s) ->
  (length (item_rest i ++ items_bytes l) < fuel)%nat ->
  process_loop fuel (item_seq i) additional (Progress (item_rest i ++ items_bytes l) (l_first s) (l_new s) (l_result s)) (l_conn s) =
  let t := foldl istep s (i :: l) in (Value (Some (Progress [] (l_first t) (l_new t) (l_result t))), l_conn t).
Proof.
  induction l as [|j l IH]; intros fuel additional i s Hl Ha Hs Hf; apply Forall_cons in Hl as [Hi Hl]; destruct fuel as [|fuel]; try lia; cbn [process_loop];
    destruct (item_seq_ok i Hi) as (n & Hn & En); rewrite En, (seq_of_single n false true Hn), <- En; cbn [andb].
  all: assert (forall k, process_item (item_seq i) additional (Progress (item_rest i ++ k) (l_first s) (l_new s) (l_result s)) (l_conn s) = run_item additional i k s) as E
    by (intros k; destruct i as [seq|e]; [destruct Ha as [->|[e He]]; [by apply process_ack|done]|by apply process_msg]); erewrite run_bind by apply E; cbn [pr_left foldl].
  - by rewrite decide_True.
  - apply Forall_cons in Hl as Hl'. destruct Hl' as [Hj Hl']. destruct (item_seq_ok j Hj) as (n' & Hn' & En'). pose proof (length_item j Hj) as Hlj.
    assert (items_bytes (j :: l) = be_bytes 4 (item_seq j) ++ item_rest j ++ items_bytes l) as Ej by (unfold items_bytes; cbn [map concat]; unfold item_bytes at 1; by rewrite <- app_assoc).
    rewrite length_app in Hf. assert (5 <= length (items_bytes (j :: l)))%nat as Hge by (unfold items_bytes; cbn [map concat]; rewrite length_app; lia).
    rewrite decide_False by (intros D; rewrite D in Hge; cbn in Hge; lia). rewrite decide_False by lia. cbn [firstMessageRequiringAck newRequiringAckReceived pr_result].
    rewrite Ej in Hf |- *. rewrite ReadSeq_be by (rewrite En'; by apply seq_of_u32). rewrite drop_app_length' by by rewrite length_be_bytes.
    pose proof (istep_ok s i Hs) as Hs'. rewrite length_app, length_be_bytes in Hf. specialize (IH fuel true j (istep s i) Hl ltac:(by left) Hs' ltac:(lia)). exact IH.
Qed.

(** A packet: one message that needs no acknowledgement, or a first item that is an empty
    message or one that does, and then acknowledgements and messages. *)
Inductive wire := Single (n : Z) (single : bool) (body : list Z) (m : A) | Batch (n : Z) (lead : option entry) (acks : list Z) (entries : list entry).
Definition batch_items (acks : list Z) (entries : list entry) : list item := map IAck acks ++ map IMsg entries.
Definition plain (w : wire) : list Z :=
  match w with
  | Single n single body _ => be_bytes 4 (seq_of n single false) ++ body
  | Batch n None acks entries => be_bytes 4 n ++ [kEmptyId] ++ items_bytes (batch_items acks entries)
  | Batch n (Some e) acks entries => item_bytes (IMsg e) ++ items_bytes (batch_items acks entries)
  end.
Definition wire_ok (w : wire) : Prop :=
  match w with
  | Single n single body m => counter_ok n /\ body_ok single body m
  | Batch n lead acks entries => counter_ok n /\ Forall ack_ok acks /\ Forall entry_ok entries /\ match lead with Some e => entry_ok e /\ e_counter e = n /\ entries = [] | None => True end
  end.
Definition wire_seq (w : wire) : Z :=
  match w with Single n single _ _ => seq_of n single false | Batch n None _ _ => n | Batch n (Some e) _ _ => e_seq e end.
Definition wire_counter (w : wire) : Z := match w with Single n _ _ _ | Batch n _ _ _ => n end.
Definition wire_acks (w : wire) : list Z := match w with Single _ _ _ _ => [] | Batch _ _ acks _ => acks end.
Definition wire_entries (w : wire) : list entry := match w with Single _ _ _ _ => [] | Batch _ lead _ entries => option_list lead ++ entries end.
Lemma wire_reads w : wire_ok w -> ReadSeq (plain w) = wire_seq w /\ CounterFromSeq (wire_seq w) = wire_counter w /\ (5 <= length (plain w))%nat.
Proof.
  destruct w as [n single body m|n [e|] acks entries]; cbn [wire_ok plain wire_seq wire_counter].
  - intros (Hn & Hne & _). rewrite ReadSeq_be by by apply seq_of_u32. rewrite seq_of_counter by done. rewrite length_app, length_be_bytes. destruct body; [done|cbn; by auto with lia].
  - intros (Hn & _ & _ & [He1 He2] & <- & _). unfold item_bytes. cbn [item_seq item_rest]. rewrite <- app_assoc, ReadSeq_be by by apply seq_of_u32. unfold e_seq. rewrite seq_of_counter by done.
    rewrite !length_app, length_be_bytes. destruct He2 as [Hne _]. destruct (e_body e); [done|cbn; by auto with lia].
  - intros (Hn & _). apply counter_ok_lt in Hn as Hn'. rewrite ReadSeq_be by (unfold is_u32; lia). rewrite CounterFromSeq_mod, Z.mod_small by lia. rewrite !length_app, length_be_bytes. cbn. split; [done|]. split; [done|lia].
Qed.

(** The connection without its timers and requests. *)
Definition core (c : EncryptedConnection) := (ec_type c, ec_key c, ec_isOutgoing c, ec_counter c, largestIncomingCounters c, acksToSendSeqs c, acksSentCounters c, myNotYetAckedMessages c).
Lemma core_ok c c' : core c' = core c -> connection_ok c -> connection_ok c'.
Proof. intros [= E1 E2 E3 E4 E5 E6 E7 E8]. unfold connection_ok. by rewrite E5, E7, E8. Qed.
Lemma request_acks_core isNew c : exists c', request_acks isNew c = (Value tt, c') /\ core c' = core c.
Proof.
  unfold request_acks. erewrite run_bind by reflexivity. case_decide; [by exists c|]. destruct (isNew && negb defers_acks); [by eexists|]. destruct (sendAcksTimerActive c); by eexists.
Qed.

Definition out (e : entry) : A * Z := (e_msg e, e_counter e).
(** The entries of a packet that are new, and what becomes of the list of counters. *)
Fixpoint absorb (l : list Z) (first : bool) (es : list entry) : list Z * list entry :=
  match es with
  | [] => (l, [])
  | e :: es => let '(l, isNew) := sent_ack l (e_counter e) first in let '(l, fresh) := absorb l false es in (l, if isNew then e :: fresh else fresh)
  end.
Definition with_entries (first : bool) (es : list entry) (c : EncryptedConnection) : EncryptedConnection :=
  c <| acksSentCounters := (absorb (acksSentCounters c) first es).1 |> <| acksToSendSeqs := foldl postpone (acksToSendSeqs c) (map e_seq es) |>.
Definition with_acks (acks : list Z) (c : EncryptedConnection) : EncryptedConnection := c <| myNotYetAckedMessages := foldl forget (myNotYetAckedMessages c) acks |>.
Lemma fold_acks acks : forall s, foldl istep s (map IAck acks) = Loop (with_acks acks (l_conn s)) (l_first s) (l_new s) (l_result s).
Proof. induction acks as [|a acks IH]; intros [c f n r]; [by destruct c|]. cbn [map foldl]. rewrite IH. by destruct c. Qed.
Lemma fold_msgs es : Forall entry_ok es -> forall s, exists f n r, foldl istep s (map IMsg es) = Loop (with_entries (l_first s) es (l_conn s)) f n r /\
  items_of r = items_of (l_result s) ++ map out (absorb (acksSentCounters (l_conn s)) (l_first s) es).2.
Proof.
  induction 1 as [|e es He _ IH]; intros [c f n r]; [exists f, n, r; rewrite app_nil_r; by destruct c|]. cbn [map foldl istep l_conn l_first l_new l_result].
  destruct (sent_ack (acksSentCounters c) (e_counter e) f) as [l isNew] eqn:El. set (s1 := Loop _ _ _ _).
  destruct (IH s1) as (f' & n' & r' & E & Er). exists f', n', r'. rewrite E, Er. unfold with_entries. cbn [absorb s1 l_conn l_first l_new l_result]. rewrite El.
  change (acksSentCounters (_ <| acksToSendSeqs := _ |>)) with l. destruct (absorb l false es) as [l' fresh]. split; [by destruct c|].
  destruct isNew; [|done]. rewrite items_append, <- app_assoc. unfold e_seq. by rewrite seq_of_counter by apply He.
Qed.

Definition wire_single (w : wire) : list (A * Z) := match w with Single n _ _ m => [(m, n)] | _ => [] end.
Definition after_wire (w : wire) (b : EncryptedConnection) : EncryptedConnection := with_entries true (wire_entries w) (with_acks (wire_acks w) b).
Lemma wire_loop w b : wire_ok w -> connection_ok b -> exists p c,
  process_loop (length (plain w)) (wire_seq w) false (Progress (drop 4 (plain w)) true false None) b = (Value (Some p), c) /\ core c = core (after_wire w b) /\
  items_of (pr_result p) = wire_single w ++ map out (absorb (acksSentCounters b) true (wire_entries w)).2.
Proof.
  intros Hw Hb. destruct (wire_reads w Hw) as (_ & _ & Hl). destruct w as [n single body m|n [e|] acks entries]; cbn [wire_ok] in Hw.
  - destruct Hw as (Hn & Hne & He & Ha & Hp). pose proof (Hp [] ltac:(done)) as Hp0. rewrite app_nil_r in Hp0. assert (exists fuel, length (plain (Single n single body m)) = S fuel) as [fuel ->] by (exists (length (plain (Single n single body m)) - 1)%nat; lia).
    cbn [plain wire_seq]. rewrite drop_app_length' by by rewrite length_be_bytes. cbn [process_loop]. rewrite andb_false_r. eexists _, b. split; [|split].
    + erewrite run_bind; [|unfold process_item; cbn [pr_left]; rewrite !decide_False by done; unfold process_message; cbn [pr_left];
        rewrite (seq_of_single n single false Hn), (seq_of_requires n single false Hn); rewrite Hp0; reflexivity].
      cbv beta. cbn [pr_left]. rewrite decide_True by done. reflexivity.
    + by destruct b.
    + cbn. by rewrite seq_of_counter.
  - destruct Hw as (Hn & Hacks & _ & He & <- & ->). cbn [plain wire_seq] in *. unfold item_bytes in *. cbn [item_seq item_rest] in *. unfold batch_items in *. rewrite app_nil_r in *.
    rewrite <- app_assoc in *. rewrite drop_app_length' by by rewrite length_be_bytes.
    pose proof (loop_items (map IAck acks) (length (be_bytes 4 (e_seq e) ++ e_body e ++ items_bytes (map IAck acks))) false (IMsg e) (Loop b true false None)) as E.
    cbv zeta in E. cbn [item_seq item_rest l_first l_new l_result l_conn foldl] in E. rewrite E; clear E.
    + destruct (fold_msgs [e] ltac:(by constructor) (Loop b true false None)) as (f1 & n1 & r1 & E1 & R1). cbn [map foldl l_conn l_first l_result] in E1, R1. rewrite E1, fold_acks.
      eexists _, _. split; [reflexivity|]. cbn [l_conn pr_result l_result]. split; [by destruct b|by rewrite R1].
    + constructor; [done|]. by apply Forall_fmap.
    + right. by exists e.
    + done.
    + rewrite (length_app (be_bytes _ _)), length_be_bytes. lia.
  - destruct Hw as (Hn & Hacks & Hes & _). apply counter_ok_lt in Hn as Hn'. cbn [plain wire_seq] in *. rewrite drop_app_length' by by rewrite length_be_bytes.
    assert (Z.testbit n 31 = false) as Hbit by (rewrite <- (seq_of_single n false false Hn); unfold seq_of; by rewrite !Z.lor_0_r).
    set (items := batch_items acks entries) in *. assert (Forall item_ok items) as Hok by (unfold items, batch_items; rewrite Forall_app, !Forall_fmap; done).
    set (c := with_entries true entries (with_acks acks b)).
    assert (exists f n r, foldl istep (Loop b true false None) items = Loop c f n r /\ items_of r = map out (absorb (acksSentCounters b) true entries).2) as (f & n1 & r & E & R).
    { unfold items, batch_items. rewrite foldl_app, fold_acks. cbn [l_conn l_first l_new l_result]. destruct (fold_msgs entries Hes (Loop (with_acks acks b) true false None)) as (f & n1 & r & E & R).
      exists f, n1, r. split; [exact E|exact R]. }
    assert (exists fuel, length (be_bytes 4 n ++ [kEmptyId] ++ items_bytes items) = S fuel /\ (length (items_bytes items) < fuel)%nat) as (fuel & -> & Hfuel)
      by (exists (4 + length (items_bytes items))%nat; rewrite !length_app, length_be_bytes; cbn; lia).
    cbn [process_loop]. rewrite Hbit. cbn [andb]. erewrite run_bind by (unfold process_item; cbn [pr_left app]; rewrite decide_True by done; reflexivity). cbn [pr_left drop]. rewrite drop_0.
    destruct items as [|i l] eqn:Ei.
    + cbn [foldl] in E. injection E as E <- <- <-. eexists _, b. rewrite decide_True by done. split; [reflexivity|]. cbn [pr_result]. split; [exact (f_equal core E)|].
      exact R.
    + apply Forall_cons in Hok as Hok'. destruct Hok' as [Hi _]. pose proof (length_item i Hi) as Hli. destruct (item_seq_ok i Hi) as (n' & Hn2 & En).
      assert (items_bytes (i :: l) = be_bytes 4 (item_seq i) ++ item_rest i ++ items_bytes l) as Ej by (unfold items_bytes; cbn [map concat]; unfold item_bytes at 1; by rewrite <- app_assoc).
      assert (5 <= length (items_bytes (i :: l)))%nat as Hge by (unfold items_bytes; cbn [map concat]; rewrite length_app; lia).
      rewrite decide_False by (intros D; rewrite D in Hge; cbn in Hge; lia). rewrite decide_False by lia. rewrite Ej in Hfuel |- *. rewrite ReadSeq_be by (rewrite En; by apply seq_of_u32).
      rewrite drop_app_length' by by rewrite length_be_bytes. cbn [firstMessageRequiringAck newRequiringAckReceived pr_result].
      pose proof (loop_items l fuel true i (Loop b true false None) Hok ltac:(by left) Hb) as EL. cbv zeta in EL. cbn [l_first l_new l_result l_conn] in EL. rewrite EL by (rewrite length_app in Hfuel; lia).
      rewrite E. eexists _, _. split; [reflexivity|]. split; [done|exact R].
Qed.
Lemma process_wire w b : wire_ok w -> connection_ok b -> exists r b', processPacket (plain w) (wire_seq w) b = (Value r, b') /\ core b' = core (after_wire w b) /\
  items_of r = wire_single w ++ map out (absorb (acksSentCounters b) true (wire_entries w)).2.
Proof.
  intros Hw Hb. destruct (wire_reads w Hw) as (_ & _ & Hl). unfold processPacket. rewrite bool_decide_eq_true_2 by done. erewrite run_bind by reflexivity.
  destruct (wire_loop w b Hw Hb) as (p & c & E & Hc & Hr). erewrite run_bind by exact E. destruct (request_acks_core (newRequiringAckReceived p) c) as (c' & E' & Hc').
  erewrite run_bind by exact E'. exists (pr_result p), c'. split; [done|]. by rewrite Hc'.
Qed.

(** ** Sending *)

Definition seal (c : EncryptedConnection) (w : wire) : EncryptedPacket := encryptPrepared c (plain w).
Definition fits_limit (c : EncryptedConnection) (buffer : list Z) : Prop := 16 + Z.of_nat (length buffer) <= packetLimit c.
#[local] Instance fits_limit_dec c buffer : Decision (fits_limit c buffer).
Proof. unfold fits_limit. apply _. Defined.
Lemma enough_fits c buffer k : enoughSpaceInPacket c buffer (length k) = true -> fits_limit c (buffer ++ k).
Proof. unfold enoughSpaceInPacket, fits_limit. intros [_ E%bool_decide_eq_true]%andb_true_iff. rewrite length_app. lia. Qed.
Lemma items_bytes_app k l : items_bytes (k ++ l) = items_bytes k ++ items_bytes l.
Proof. unfold items_bytes. by rewrite map_app, concat_app. Qed.
Lemma append_acks_spec c acks : forall buffer, fits_limit c buffer -> exists i, append_acks c buffer acks = (buffer ++ items_bytes (map IAck (take i acks)), drop i acks) /\
  fits_limit c (buffer ++ items_bytes (map IAck (take i acks))).
Proof.
  induction acks as [|a acks IH]; intros buffer Hb; [exists 0%nat; cbn; by rewrite app_nil_r|]. cbn [append_acks].
  destruct (enoughSpaceInPacket c buffer kAckSerializedSize) eqn:E; [|exists 0%nat; cbn; by rewrite app_nil_r].
  assert (AppendSeq buffer a ++ [kAckId] = buffer ++ item_bytes (IAck a)) as Eb by (unfold AppendSeq, item_bytes; by rewrite <- app_assoc).
  assert (length (item_bytes (IAck a)) = kAckSerializedSize) as El by (unfold item_bytes; rewrite length_app, length_be_bytes; done).
  destruct (IH (buffer ++ item_bytes (IAck a))) as (i & Ei & Hi); [apply enough_fits; by rewrite El|]. exists (S i). rewrite Eb, Ei. cbn [take drop map]. unfold items_bytes in *. cbn [map concat].
  rewrite <- app_assoc in *. done.
Qed.
Lemma append_resends_spec c now Q : forall l buffer, map r_data l = map entry_bytes Q -> Forall entry_ok Q -> fits_limit c buffer ->
  exists j l', append_resends c now buffer l = Some (buffer ++ items_bytes (map IMsg (take j Q)), l') /\ map r_data l' = map entry_bytes Q /\
    fits_limit c (buffer ++ items_bytes (map IMsg (take j Q))).
Proof.
  induction Q as [|e Q IH]; intros [|r l] buffer Hl HQ Hb; try discriminate; [exists 0%nat, []; cbn; by rewrite app_nil_r|]. injection Hl as Hr Hl. apply Forall_cons in HQ as [He HQ].
  assert (5 <= length (r_data r))%nat by (rewrite Hr; apply (length_item (IMsg e) He)). cbn [append_resends]. cbv zeta. rewrite decide_False by lia.
  case_decide; [exists 0%nat, (r :: l); cbn; rewrite app_nil_r, Hr; split; [done|]; split; [by rewrite Hl|done]|].
  destruct (enoughSpaceInPacket c buffer (length (r_data r))) eqn:E; [|exists 0%nat, (r :: l); cbn; rewrite app_nil_r, Hr; split; [done|]; split; [by rewrite Hl|done]].
  destruct (IH l (buffer ++ r_data r) Hl HQ) as (j & l' & Ej & Hl' & Hf); [by apply enough_fits|]. exists (S j), (Resend (r_data r) now :: l'). rewrite Ej. cbn [take map mbind option_bind].
  unfold items_bytes in *. cbn [map concat]. change (item_bytes (IMsg e)) with (entry_bytes e). rewrite <- Hr, <- app_assoc in *. cbn [r_data]. by rewrite Hl'.
Qed.

(** What sending leaves behind: the queue [Q] of messages to be acknowledged, and the
    packet, whose acknowledgements and messages come from the front of the lists. *)
Definition queue (c : EncryptedConnection) (Q : list entry) : Prop := map r_data (myNotYetAckedMessages c) = map entry_bytes Q /\ Forall entry_ok Q.
Record tx (c : EncryptedConnection) (Q : list entry) (w : option wire) (c' : EncryptedConnection) : Prop := {
  tx_same : (ec_type c', ec_key c', ec_isOutgoing c', largestIncomingCounters c', acksSentCounters c') = (ec_type c, ec_key c, ec_isOutgoing c, largestIncomingCounters c, acksSentCounters c);
  tx_queue : queue c' Q;
  tx_counter : ec_counter c <= ec_counter c' /\ counter_ok (ec_counter c');
  tx_wire : match w with
            | None => acksToSendSeqs c' = acksToSendSeqs c
            | Some w => wire_ok w /\ wire_counter w = ec_counter c' /\ ec_counter c < ec_counter c' /\ fits_limit c (plain w) /\
                wire_entries w `prefix_of` Q /\ exists i, wire_acks w = take i (acksToSendSeqs c) /\ acksToSendSeqs c' = drop i (acksToSendSeqs c)
            end
}.
Lemma queue_nil c Q : queue c Q -> length (myNotYetAckedMessages c) = length Q.
Proof. intros [E _]. apply (f_equal length) in E. by rewrite !length_map in E. Qed.
Lemma additional_spec now buffer c Q : queue c Q -> fits_limit c buffer -> exists i j c',
  appendAdditionalMessages now buffer c = (Value (buffer ++ items_bytes (batch_items (take i (acksToSendSeqs c)) (take j Q))), c') /\
  fits_limit c (buffer ++ items_bytes (batch_items (take i (acksToSendSeqs c)) (take j Q))) /\
  (ec_type c', ec_key c', ec_isOutgoing c', ec_counter c', largestIncomingCounters c', acksSentCounters c') =
    (ec_type c, ec_key c, ec_isOutgoing c, ec_counter c, largestIncomingCounters c, acksSentCounters c) /\
  queue c' Q /\ acksToSendSeqs c' = drop i (acksToSendSeqs c).
Proof.
  intros HQ Hb. unfold appendAdditionalMessages. destruct (append_acks_spec c (acksToSendSeqs c) buffer Hb) as (i & Ei & Hi).
  erewrite run_bind by (unfold appendAcksToSend; erewrite run_bind by reflexivity; rewrite Ei; reflexivity). erewrite run_bind by reflexivity.
  set (c1 := c <| acksToSendSeqs := _ |>). assert (queue c1 Q) as HQ1 by exact HQ. rewrite (queue_nil c1 Q HQ1). case_decide as E.
  { apply nil_length_inv in E as ->. exists i, 0%nat, c1. unfold batch_items. cbn [take map]. rewrite app_nil_r. done. }
  destruct (append_resends_spec c1 now Q (myNotYetAckedMessages c1) _ (proj1 HQ1) (proj2 HQ1) Hi) as (j & l' & Ej & Hl' & Hj). rewrite Ej.
  exists i, j. unfold batch_items. rewrite items_bytes_app, app_assoc. destruct (resendTimerActive c1); eexists; (split; [reflexivity|]); (split; [exact Hj|]); (split; [done|]); (split; [|done]); (split; [exact Hl'|apply HQ]).
Qed.

Lemma encrypt_same c c' buf : (ec_type c', ec_key c', ec_isOutgoing c') = (ec_type c, ec_key c, ec_isOutgoing c) -> encryptPrepared c' buf = encryptPrepared c buf.
Proof. intros [= E1 E2 E3]. unfold encryptPrepared. by rewrite E1, E2, E3. Qed.
Lemma packetLimit_bounds c : 1452 <= packetLimit c <= 16384.
Proof. unfold packetLimit. destruct (ec_type c); vm_compute; split; discriminate. Qed.
Lemma enough_0 c buffer : enoughSpaceInPacket c buffer 0 = bool_decide (fits_limit c buffer).
Proof.
  unfold enoughSpaceInPacket, fits_limit. pose proof (packetLimit_bounds c). rewrite bool_decide_eq_true_2 by lia. cbn [andb]. apply bool_decide_ext. lia.
Qed.
Lemma computeNextSeq_spec requires single c : counter_ok (ec_counter c) ->
  computeNextSeq requires single c = (Value None, c) \/
  counter_ok (ec_counter c + 1) /\ computeNextSeq requires single c = (Value (Some (seq_of (ec_counter c + 1) single requires)), c <| ec_counter := ec_counter c + 1 |>).
Proof.
  intros Hc. unfold computeNextSeq. erewrite run_bind by reflexivity. destruct (requires && _); [by left|]. case_decide as E; [by left|]. right.
  assert (counter_ok (ec_counter c + 1)) as Hn by (unfold counter_ok in *; lia). apply counter_ok_lt in Hn as Hn'. rewrite u32_id by lia. split; [done|]. reflexivity.
Qed.
Lemma batch_prefix (acks : list Z) (Q : list entry) i j n : counter_ok n -> Forall ack_ok acks -> Forall entry_ok Q -> wire_ok (Batch n None (take i acks) (take j Q)).
Proof. intros Hn Ha HQ. split; [done|]. split; [by apply Forall_take|]. split; [by apply Forall_take|done]. Qed.
Lemma service_tx now cause c Q : queue c Q -> counter_ok (ec_counter c) -> Forall ack_ok (acksToSendSeqs c) ->
  exists w c', prepareForSendingService now cause c = (Value (seal c <$> w), c') /\ tx c Q w c' /\ (forall w', w = Some w' -> wire_single w' = []).
Proof.
  intros HQ Hc Ha. unfold prepareForSendingService. set (c0 := if decide (cause = kServiceCauseAcks) then c <| sendAcksTimerActive := false |>
                   else if decide (cause = kServiceCauseResend) then c <| resendTimerActive := false |> else c).
  erewrite run_bind by reflexivity. change (if decide (cause = kServiceCauseAcks) then _ else _) with c0. erewrite run_bind by reflexivity.
  assert (core c0 = core c) as E0 by (unfold c0; repeat case_decide; done). assert (queue c0 Q) as HQ0 by (unfold queue in *; by injection E0 as _ _ _ _ _ _ _ ->).
  injection E0 as E1 E2 E3 E4 E5 E6 E7 E8. rewrite <- E4 in Hc.
  assert (tx c Q None c0) as Hnone by (constructor; [congruence|done|split; [lia|done]|done]).
  destruct (negb (haveAdditionalMessages c0)); [by exists None, c0|].
  destruct (computeNextSeq_spec false false c0 Hc) as [E|[Hn E]]; erewrite run_bind by exact E; [by exists None, c0|].
  set (c1 := c0 <| ec_counter := ec_counter c0 + 1 |>). cbv beta iota zeta. assert (SerializeEmptyMessageWithSeq (seq_of (ec_counter c0 + 1) false false) = be_bytes 4 (ec_counter c0 + 1) ++ [kEmptyId]) as ->
    by (unfold SerializeEmptyMessageWithSeq, seq_of; by rewrite !Z.lor_0_r). set (hdr := be_bytes 4 _ ++ _).
  assert (fits_limit c1 hdr) as Hh by (unfold fits_limit, hdr; pose proof (packetLimit_bounds c1); rewrite length_app, length_be_bytes; cbn; lia).
  rewrite enough_0, bool_decide_eq_true_2 by exact Hh. erewrite run_bind by reflexivity.
  assert (queue c1 Q) as HQ1 by exact HQ0.
  destruct (additional_spec now hdr c1 Q HQ1 Hh) as (i & j & c2 & E' & Hf & Hs & HQ2 & Ha2). erewrite run_bind by exact E'. erewrite run_bind by reflexivity.
  injection Hs as S1 S2 S3 S4 S5 S6. change (ec_counter c1) with (ec_counter c0 + 1) in S4. change (acksToSendSeqs c1) with (acksToSendSeqs c0) in *.
  exists (Some (Batch (ec_counter c0 + 1) None (take i (acksToSendSeqs c0)) (take j Q))), c2. split; [|split; [|by intros w' [= <-]]].
  - cbn [fmap option_fmap option_map]. unfold seal, mret, M_ret. cbn [plain]. unfold hdr. rewrite <- app_assoc. rewrite (encrypt_same c c2); [done|]. rewrite S1, S2, S3. cbn. congruence.
  - constructor; [rewrite S1, S2, S3, S5, S6; cbn; congruence|done|split; [lia|by rewrite S4]|].
    split; [apply batch_prefix; [done|congruence|apply HQ]|]. split; [done|]. split; [lia|]. split; [unfold fits_limit in *; cbn [plain]; unfold hdr in Hf; rewrite <- app_assoc in Hf; change (packetLimit c1) with (packetLimit c0) in Hf; unfold packetLimit in *; by rewrite E1 in Hf|].
    split; [apply prefix_take|]. exists i. cbn [wire_acks]. by rewrite E6 in Ha2 |- *.
Qed.

(** What is sent is either refused, or goes out at once, or joins the queue. *)
Definition enqueues (x : X) (c c' : EncryptedConnection) (Q Q' : list entry) : Prop :=
  Q' = Q \/ requires_ack x = true /\ exists e, Q' = Q ++ [e] /\ e_msg e = arrives x /\ e_counter e = ec_counter c + 1 /\ entry_ok e /\ e_counter e <= ec_counter c'.
Lemma tx_weaken c c1 Q w c' : tx c1 Q w c' -> core c1 = core (c <| ec_counter := ec_counter c1 |> <| myNotYetAckedMessages := myNotYetAckedMessages c1 |>) -> ec_counter c <= ec_counter c1 -> tx c Q w c'.
Proof.
  intros [T1 T2 T3 T4] E Hle. destruct c, c1. cbn in *. injection E as -> -> -> -> -> ->. cbn in T1, T2, T3, T4, Hle. constructor; [done|done|cbn; split; [lia|apply T3]|]. destruct w as [w|]; [|done].
  destruct T4 as (H1 & H2 & H3 & H4 & H5 & H6). split; [done|]. split; [done|]. split; [cbn in *; lia|]. by split.
Qed.
Lemma prepare_tx now x c Q : transmissible x -> queue c Q -> counter_ok (ec_counter c) -> Forall ack_ok (acksToSendSeqs c) ->
  exists w c' Q', prepare now (write x) (requires_ack x) c = (Value (seal c <$> w), c') /\ tx c Q' w c' /\ enqueues x c c' Q Q' /\
    (forall w' , w = Some w' -> wire_single w' = [] \/ requires_ack x = false /\ wire_single w' = [(arrives x, ec_counter c')]).
Proof.
  intros Hx HQ Hc Ha. unfold prepare. erewrite run_bind by reflexivity. set (single := _ && _).
  assert (tx c Q None c) as Hnone by (constructor; [done|done|split; [lia|done]|done]).
  destruct (computeNextSeq_spec (requires_ack x) single c Hc) as [E|[Hn E]]; erewrite run_bind by exact E; [exists None, c, Q; split; [done|]; split; [done|]; by split; [left|]|].
  set (n := ec_counter c + 1) in *. set (c1 := c <| ec_counter := n |>). destruct (write_ok x (seq_of n single (requires_ack x)) single Hx) as (body & Ew & Hbody).
  erewrite run_bind by (unfold serialized; rewrite Ew; reflexivity). unfold prepareForSendingMessageInternal. erewrite run_bind by reflexivity. rewrite enough_0.
  set (buf := be_bytes 4 _ ++ body) in *.
  case_bool_decide as Hf; cbn [negb].
  2: { exists None, c1, Q. split; [done|]. split; [constructor; [done|done|split; [cbn; lia|done]|done]|]. by split; [left|]. }
  destruct (requires_ack x) eqn:Hreq; cbn [negb].
  2: { exists (Some (Single n single body (arrives x))), c1, Q. split; [cbn [fmap option_fmap option_map]; unfold seal; by rewrite (encrypt_same c1 c)|].
    split; [|split; [by left|intros w' [= <-]; by right]]. constructor; [done|done|split; [cbn; lia|done]|]. split; [by split|]. split; [done|]. split; [cbn; lia|]. split; [exact Hf|].
    split; [apply prefix_nil|]. by exists 0%nat. }
  assert (single = false) as Hsingle by (unfold single; by rewrite andb_false_r). clearbody single. subst single. set (e := Entry n body (arrives x)). assert (entry_ok e) as He by by split.
  assert (buf = entry_bytes e) as Eb by done. assert (queue c1 Q) as HQ1 by exact HQ. rewrite (queue_nil c1 Q HQ1).
  assert (forall c', n <= ec_counter c' -> enqueues x c c' Q (Q ++ [e])) as Henq by (intros c' Hc'; right; split; [done|]; by exists e).
  case_bool_decide as EQ; cbn [negb].
  - apply nil_length_inv in EQ as ->. destruct (additional_spec now buf c1 [] HQ1 Hf) as (i & j & c2 & E2 & Hf2 & Hs & HQ2 & Ha2). erewrite run_bind by exact E2. erewrite run_bind by reflexivity.
    rewrite take_nil in *. injection Hs as S1 S2 S3 S4 S5 S6. change (acksToSendSeqs c1) with (acksToSendSeqs c) in *.
    eexists (Some (Batch n (Some e) (take i (acksToSendSeqs c)) [])), _, [e]. split; [cbn [fmap option_fmap option_map]; unfold seal; unfold gets; cbn [plain]; rewrite (encrypt_same c); [reflexivity|cbn; congruence]|].
    split; [|split; [apply Henq; cbn; rewrite S4; cbn; lia|intros w' [= <-]; by left]].
    assert (myNotYetAckedMessages c2 = []) as En by (destruct HQ2 as [HQ2 _]; by destruct (myNotYetAckedMessages c2)).
    constructor; [cbn; congruence|split; [cbn; by rewrite En|by constructor]|cbn; split; [rewrite S4; cbn; lia|by rewrite S4]|]. cbn [wire_counter ec_counter].
    split; [split; [done|]; split; [by apply Forall_take|]; split; [constructor|]; split; [exact He|by split]|]. split; [by symmetry; exact S4|]. split; [cbn; rewrite S4; cbn; lia|]. split; [exact Hf2|]. split; [cbn; done|]. exists i. split; [done|exact Ha2].
  - erewrite run_bind by reflexivity. erewrite run_bind by reflexivity. set (c2 := _ <| myNotYetAckedMessages := _ |>). erewrite run_bind by reflexivity.
    set (c3 := _ <| myNotYetAckedMessages := _ |>). assert (queue c3 (Q ++ [e])) as HQ3.
    { split; [|rewrite Forall_app; split; [apply HQ|by constructor]]. cbn. rewrite map_map. cbn [r_data]. rewrite map_app, map_app. f_equal. apply HQ. }
    destruct (service_tx now 0 c3 (Q ++ [e]) HQ3) as (w & c4 & E4 & T4 & Hw); [exact Hn|exact Ha|]. exists w, c4, (Q ++ [e]).
    split; [rewrite E4; destruct w as [w|]; cbn [fmap option_fmap option_map]; [unfold seal; by rewrite (encrypt_same c3 c)|done]|].
    split; [eapply tx_weaken; [exact T4|done|cbn; lia]|]. split; [apply Henq; destruct T4 as [_ _ [T4 _] _]; cbn in T4; lia|]. intros w' ->. left. by apply Hw.
Qed.

(** ** Receiving *)

Lemma handle_wire a b w : ends a b -> wire_ok w -> fits_limit a (plain w) -> connection_ok b ->
  exists r b', handleIncomingPacket (ep_bytes (seal a w)) b = (Value r, b') /\
    ((r = None /\ b' = b) \/ exists l, core b' = core (after_wire w (b <| largestIncomingCounters := l |>)) /\
      items_of r = wire_single w ++ map out (absorb (acksSentCounters b) true (wire_entries w)).2).
Proof.
  intros He Hw Hf Hb. destruct (wire_reads w Hw) as (R1 & R2 & R3). unfold handleIncomingPacket. erewrite run_bind by reflexivity.
  unfold seal. rewrite (decrypt_encrypt a b (plain w) He) by (done || (unfold fits_limit in Hf; pose proof (packetLimit_bounds a); unfold kMaxIncomingPacketSize; lia)). rewrite R1, R2.
  assert (counter_ok (wire_counter w)) as Hn by (destruct w; apply Hw).
  pose proof (registerIncomingCounter_keeps (wire_counter w) Hn b Hb) as K.
  assert (registerIncomingCounter (wire_counter w) b = (Value false, b) \/ exists l, registerIncomingCounter (wire_counter w) b = (Value true, b <| largestIncomingCounters := l |>)) as [E|[l E]].
  { unfold registerIncomingCounter. unfold mbind, M_bind, get. case_decide; [by left|]. case_decide; [by left|]. right. by eexists. }
  - erewrite run_bind by exact E. exists None, b. by auto.
  - rewrite E in K. erewrite run_bind by exact E. destruct (process_wire w _ Hw K) as (r & b' & Ep & Hc & Hi). exists r, b'. split; [exact Ep|]. right. exists l. by split.
Qed.

(** [sent_ack] as a set. *)
Lemma sent_ack_spec l x first : ascending l -> ascending (sent_ack l x first).1 /\ (sent_ack l x first).2 = bool_decide (x ∉ l) /\
  forall y, y ∈ (sent_ack l x first).1 <-> y = x \/ y ∈ l /\ (first = true -> x <= y).
Proof.
  intros Hl. unfold sent_ack. cbn [fst snd]. destruct (drop_lower_bound l x Hl) as [D1 D2]. case_bool_decide as E; rewrite lower_bound_found in E by done; cbn [negb].
  - rewrite (bool_decide_eq_false_2 (x ∉ l)) by tauto. destruct first; (split; [done|]); (split; [done|]); intros y.
    + rewrite D2. split; [intros [Hy Hxy]; by right|]. intros [->|[Hy Hxy]]; [split; [done|lia]|split; [done|by apply Hxy]].
    + split; [intros Hy; by right|]. by intros [->|[Hy _]].
  - rewrite (bool_decide_eq_true_2 (x ∉ l)) by done. destruct first; split.
    + constructor; [done|]. apply Forall_forall. intros y [Hy Hxy]%D2. assert (x <> y); [|lia]. by intros ->.
    + split; [done|]. intros y. rewrite elem_of_cons, D2. split; [intros [->|[Hy Hxy]]; [by left|by right]|]. intros [->|[Hy Hxy]]; [by left|right; split; [done|by apply Hxy]].
    + by apply insert_ascending.
    + split; [done|]. intros y. rewrite elem_of_insert_at. split; [intros [->|Hy]; [by left|by right]|]. intros [->|[Hy _]]; by auto.
Qed.

(** The messages of a packet, all of [E]: some of the first [i], and then the ones after them. *)
Definition fits_at (E : list entry) (i : nat) (M : list entry) : Prop := exists Q Y, M = Q ++ Y /\ Q `sublist_of` take i E /\ Y `prefix_of` drop i E.
Abbreviation counters := (map e_counter).
Definition delivered_from (E : list entry) (d : nat) (floor : Z) (l : list Z) : Prop :=
  ascending l /\ forall x, x ∈ l <-> x ∈ counters (take d E) /\ floor <= x.
Lemma elem_of_take_mono {B} (x : B) (d d' : nat) (l : list B) : (d <= d')%nat -> x ∈ take d l -> x ∈ take d' l.
Proof. intros Hd Hx. rewrite <- (take_drop d (take d' l)), take_take, Nat.min_l by lia. apply elem_of_app. by left. Qed.
Lemma elem_of_take_mono_all {B} (x : B) (d : nat) (l : list B) : x ∈ take d l -> x ∈ l.
Proof. intros Hx. rewrite <- (take_drop d l). apply elem_of_app. by left. Qed.
Lemma ascending_sublist (k l : list entry) : k `sublist_of` l -> ascending (map e_counter l) -> ascending (map e_counter k).
Proof.
  induction 1 as [|e k l Hs IH|e k l Hs IH]; cbn [map]; [done| |]; intros [Hl He]%StronglySorted_inv; [|by apply IH].
  constructor; [by apply IH|]. rewrite Forall_forall in He. apply Forall_forall. intros x (e' & -> & He')%list_elem_of_fmap. apply He, list_elem_of_fmap_2. by eapply elem_of_sublist.
Qed.
Lemma ascending_lookup_fresh (E : list entry) d e : ascending (counters E) -> E !! d = Some e -> e_counter e ∉ counters (take d E).
Proof.
  intros HE Hd Hin. rewrite <- (take_drop d E), map_app in HE. apply ascending_app in HE as (_ & _ & HE). specialize (HE _ (e_counter e) Hin).
  lapply HE; [lia|]. apply list_elem_of_fmap. exists e. split; [done|]. apply list_elem_of_lookup. exists 0%nat. by rewrite lookup_drop, Nat.add_0_r.
Qed.
Lemma absorb_spec (E : list entry) : ascending (counters E) -> forall M i d floor l (first : bool), fits_at E i M -> (i <= d <= length E)%nat -> delivered_from E d floor l ->
  Forall (fun e => floor <= e_counter e) M -> ascending (counters M) ->
  exists d', (d <= d' <= length E)%nat /\ take d E ++ (absorb l first M).2 = take d' E /\ (forall e, e ∈ M -> e ∈ take d' E) /\
    delivered_from E d' (if first then match M with e :: _ => e_counter e | [] => floor end else floor) (absorb l first M).1.
Proof.
  intros HE M. induction M as [|e M IH]; intros i d floor l first Hfit Hd Hl Hfl HM.
  { exists d. split; [lia|]. rewrite app_nil_r. split; [done|]. split; [by intros e ?%elem_of_nil|]. by destruct first. }
  apply Forall_cons in Hfl as [He Hfl]. cbn [map] in HM. apply StronglySorted_inv in HM as [HM HeM]. destruct Hl as [Hl1 Hl2].
  destruct (sent_ack_spec l (e_counter e) first Hl1) as (S1 & S2 & S3).
  assert (exists d1 i1, (d <= d1 <= length E)%nat /\ (i1 <= d1)%nat /\ fits_at E i1 M /\ e ∈ take d1 E /\
    take d E ++ (if (sent_ack l (e_counter e) first).2 then [e] else []) = take d1 E) as (d1 & i1 & Hd1 & Hi1 & Hfit1 & Hin & Htake).
  { assert (e ∈ take d E -> (sent_ack l (e_counter e) first).2 = false) as Hold.
    { intros Hin. rewrite S2. apply bool_decide_eq_false_2. intros Hn. apply Hn, Hl2. split; [by apply list_elem_of_fmap_2|done]. }
    destruct Hfit as (Q & Y & EM & HQ & HY). destruct Q as [|q Q]; cbn [app] in EM.
    - subst Y. destruct HY as [Z HY]. assert (E !! i = Some e) as Hi by (rewrite <- (Nat.add_0_r i), <- lookup_drop, HY; done).
      assert (fits_at E (S i) M) as Hfit1.
      { exists [], M. split; [done|]. split; [apply sublist_nil_l|]. exists Z. replace (S i) with (i + 1)%nat by lia. rewrite <- drop_drop, HY. done. }
      destruct (decide (i = d)) as [->|Hne].
      + exists (S d), (S d). pose proof (lookup_lt_Some _ _ _ Hi). split; [lia|]. split; [lia|]. split; [done|]. rewrite (take_S_r _ _ _ Hi). split; [apply elem_of_app; right; left|].
        rewrite S2, bool_decide_eq_true_2; [done|]. rewrite Hl2. intros [Hin _]. by apply (ascending_lookup_fresh E d e HE Hi).
      + assert (e ∈ take d E) as Hin by (apply list_elem_of_lookup; exists i; rewrite lookup_take_lt by lia; done). exists d, (S i). split; [lia|]. split; [lia|]. split; [done|]. split; [done|].
        by rewrite (Hold Hin), app_nil_r.
    - injection EM as <- ->. assert (e ∈ take d E) as Hin by (eapply elem_of_take_mono; [|eapply elem_of_sublist; [left|exact HQ]]; lia).
      exists d, i. split; [lia|]. split; [lia|]. split; [|split; [done|by rewrite (Hold Hin), app_nil_r]]. exists Q, Y. split; [done|]. split; [|done]. etrans; [|exact HQ]. by constructor. }
  set (floor1 := if first then e_counter e else floor).
  assert (delivered_from E d1 floor1 (sent_ack l (e_counter e) first).1) as Hl'.
  { split; [done|]. intros y. rewrite S3, Hl2. rewrite <- Htake, map_app, elem_of_app. unfold floor1.
    assert (e_counter e ∈ counters (take d E) \/ e_counter e ∈ counters (if (sent_ack l (e_counter e) first).2 then [e] else [])) as Hx
      by (rewrite <- elem_of_app, <- map_app, Htake; by apply list_elem_of_fmap_2).
    assert (y ∈ counters (if (sent_ack l (e_counter e) first).2 then [e] else []) -> y = e_counter e) as Hy by (destruct (_).2; [by intros ?%list_elem_of_singleton|by intros ?%elem_of_nil]).
    destruct first; split.
    - intros [->|[[Hy1 Hy2] Hxy]]; [split; [done|lia]|]. split; [by left|by apply Hxy].
    - intros [[Hy1|Hy1] Hy2]; [right; split; [split; [done|lia]|done]|left; by apply Hy].
    - intros [->|[[Hy1 Hy2] _]]; [split; [done|lia]|]. split; [by left|done].
    - intros [[Hy1|Hy1] Hy2]; [by right|left; by apply Hy]. }
  destruct (IH i1 d1 floor1 (sent_ack l (e_counter e) first).1 false Hfit1 ltac:(lia) Hl') as (d' & Hd' & Ht & Hm & Hdel); [|done|].
  { rewrite Forall_forall in Hfl. rewrite Forall_forall in HeM. apply Forall_forall. intros e' He'. unfold floor1. destruct first; [|by apply Hfl]. specialize (HeM (e_counter e')). lapply HeM; [lia|]. by apply list_elem_of_fmap_2. }
  exists d'. split; [lia|]. cbn [absorb]. destruct (sent_ack l (e_counter e) first) as [l1 isNew]. cbn [fst snd] in *. destruct (absorb l1 false M) as [l2 fresh]. cbn [fst snd] in *.
  split; [rewrite <- Ht, <- Htake; destruct isNew; by rewrite <- app_assoc|]. split; [|exact Hdel].
  intros e' [->|He']%elem_of_cons; [|by apply Hm]. eapply elem_of_take_mono; [|exact Hin]. lia.
Qed.

(** ** One direction

    [a] sends, [S] is what it accepted to be acknowledged, [b] receives, [G] is what was
    delivered there; [W] are the packets on the way to [b], [V] those on the way back.
    The first [d] messages have arrived. *)

Fixpoint heads (lo : Z) (W : list wire) (hi : Z) : Prop :=
  match W with
  | [] => lo <= hi
  | w :: W => match wire_entries w with [] => heads lo W hi | e :: _ => lo <= e_counter e /\ heads (e_counter e) W hi end
  end.
Definition single_ok (a : EncryptedConnection) (E : list entry) (w : wire) : Prop := Forall (fun g => g.2 <= ec_counter a /\ g.2 ∉ counters E) (wire_single w).
Record direction (a : EncryptedConnection) (S : list (A * Z)) (b : EncryptedConnection) (G : list (A * Z)) (W V : list wire)
  (E : list entry) (d : nat) (L : list entry) (floor hi : Z) : Prop := {
  dir_sent : S = map out E /\ Forall entry_ok E /\ ascending (counters E) /\ Forall (fun e => e_counter e <= ec_counter a) E;
  dir_got : (d <= length E)%nat /\ filter (fun g => g.2 ∈ counters E) G = map out (take d E) /\ Forall (fun g => g.2 <= ec_counter a) G;
  dir_queue : queue a (L ++ drop d E) /\ L `sublist_of` take d E;
  dir_acks : delivered_from E d floor (acksSentCounters b);
  dir_wires : Forall (fun w => exists i, (i <= d)%nat /\ fits_at E i (wire_entries w)) W;
  dir_heads : heads floor W hi /\ hi <= ec_counter a /\ Forall (fun e => hi <= e_counter e) (L ++ drop d E);
  dir_single : Forall (single_ok a E) W;
  dir_back : Forall (fun seq => seq ∈ map e_seq (take d E)) (acksToSendSeqs b) /\ Forall (fun v => Forall (fun seq => seq ∈ map e_seq (take d E)) (wire_acks v)) V
}.
Definition dir (a : EncryptedConnection) (S : list (A * Z)) (b : EncryptedConnection) (G : list (A * Z)) (W V : list wire) : Prop :=
  exists E d L floor hi, direction a S b G W V E d L floor hi.

Lemma heads_le lo W : forall hi, heads lo W hi -> lo <= hi.
Proof. revert lo. induction W as [|w W IH]; intros lo hi; cbn [heads]; [done|]. destruct (wire_entries w) as [|e M]; [apply IH|]. intros [H1 H2%IH]. lia. Qed.
Lemma heads_snoc lo W hi w hi' : heads lo W hi -> match wire_entries w with [] => hi' = hi | e :: _ => hi <= e_counter e /\ hi' = e_counter e end -> heads lo (W ++ [w]) hi'.
Proof.
  revert lo. induction W as [|v W IH]; intros lo Hh Hw; cbn [app heads] in *.
  - destruct (wire_entries w) as [|e M]; [by subst|]. destruct Hw as [H1 ->]. split; lia.
  - destruct (wire_entries v) as [|e M]; [by apply IH|]. destruct Hh as [H1 H2]. split; [done|by apply IH].
Qed.
Lemma heads_lower lo lo' W hi : lo' <= lo -> heads lo W hi -> heads lo' W hi.
Proof. revert lo lo'. induction W as [|w W IH]; intros lo lo' Hlo; cbn [heads]; [lia|]. destruct (wire_entries w) as [|e M]; [by apply IH|]. intros [H1 H2]. split; [lia|done]. Qed.
Lemma heads_lose lo W1 w W2 hi : heads lo (W1 ++ w :: W2) hi -> heads lo (W1 ++ W2) hi.
Proof.
  revert lo. induction W1 as [|v W1 IH]; intros lo; cbn [app heads].
  - destruct (wire_entries w) as [|e M]; [done|]. intros [H1 H2]. by apply (heads_lower (e_counter e)).
  - destruct (wire_entries v) as [|e M]; [apply IH|]. intros [H1 H2]. split; [done|by apply IH].
Qed.
Lemma heads_repeat lo W1 w W2 hi : heads lo (W1 ++ w :: W2) hi -> heads lo (W1 ++ w :: w :: W2) hi.
Proof.
  revert lo. induction W1 as [|v W1 IH]; intros lo; cbn [app heads].
  - destruct (wire_entries w) as [|e M]; [done|]. intros [H1 H2]. split; [done|]. split; [lia|done].
  - destruct (wire_entries v) as [|e M]; [apply IH|]. intros [H1 H2]. split; [done|by apply IH].
Qed.
Lemma dir_lose a S b G W1 w W2 V : dir a S b G (W1 ++ w :: W2) V -> dir a S b G (W1 ++ W2) V.
Proof.
  intros (E & d & L & floor & hi & [D1 D2 D3 D4 D5 D6 D7 D8]). exists E, d, L, floor, hi. rewrite Forall_app, Forall_cons in D5, D7.
  constructor; [done|done|done|done|rewrite Forall_app; tauto|split; [eapply heads_lose, D6|apply D6]|rewrite Forall_app; tauto|done].
Qed.
Lemma dir_repeat a S b G W1 w W2 V : dir a S b G (W1 ++ w :: W2) V -> dir a S b G (W1 ++ w :: w :: W2) V.
Proof.
  intros (E & d & L & floor & hi & [D1 D2 D3 D4 D5 D6 D7 D8]). exists E, d, L, floor, hi. rewrite Forall_app, Forall_cons in D5, D7.
  constructor; [done|done|done|done|rewrite Forall_app, !Forall_cons; tauto|split; [apply heads_repeat, D6|apply D6]|rewrite Forall_app, !Forall_cons; tauto|done].
Qed.
Lemma dir_lose_back a S b G W V1 v V2 : dir a S b G W (V1 ++ v :: V2) -> dir a S b G W (V1 ++ V2).
Proof.
  intros (E & d & L & floor & hi & [D1 D2 D3 D4 D5 D6 D7 [D8 D9]]). exists E, d, L, floor, hi. rewrite Forall_app, Forall_cons in D9.
  constructor; [done..|]. split; [done|]. rewrite Forall_app. tauto.
Qed.
Lemma dir_repeat_back a S b G W V1 v V2 : dir a S b G W (V1 ++ v :: V2) -> dir a S b G W (V1 ++ v :: v :: V2).
Proof.
  intros (E & d & L & floor & hi & [D1 D2 D3 D4 D5 D6 D7 [D8 D9]]). exists E, d, L, floor, hi. rewrite Forall_app, Forall_cons in D9.
  constructor; [done..|]. split; [done|]. rewrite Forall_app, !Forall_cons. tauto.
Qed.

(** *** The receiver handles a packet *)

Lemma fits_mono E i M : fits_at E i M -> Forall (fun e => e ∈ E) M.
Proof.
  intros (Q & Y & -> & HQ & HY). rewrite Forall_app. split; apply Forall_forall; intros e He.
  - eapply elem_of_take_mono_all. eapply elem_of_sublist; [exact He|exact HQ].
  - destruct HY as [Z HY]. assert (e ∈ drop i E) as Hd by (rewrite HY; apply elem_of_app; by left). rewrite <- (take_drop i E). apply elem_of_app. by right.
Qed.
Lemma fits_ascending E i M : ascending (counters E) -> fits_at E i M -> ascending (counters M).
Proof.
  intros HE (Q & Y & -> & HQ & [Z HY]). assert ((Q ++ Y) `sublist_of` E) as Hs.
  { rewrite <- (take_drop i E). apply sublist_app; [done|]. rewrite HY. by apply sublist_inserts_r. }
  by eapply ascending_sublist.
Qed.
Lemma filter_out (E : list entry) (l : list entry) : (forall e, e ∈ l -> e_counter e ∈ counters E) -> filter (fun g : A * Z => g.2 ∈ counters E) (map out l) = map out l.
Proof.
  induction l as [|e l IH]; intros Hl; [done|]. cbn [map]. rewrite filter_cons_True by (apply Hl; left). f_equal. apply IH. intros e' He'. apply Hl. by right.
Qed.
Lemma foldl_postpone (acks seqs : list Z) (P : Z -> Prop) : Forall P acks -> Forall P seqs -> Forall P (foldl postpone acks seqs).
Proof.
  revert acks. induction seqs as [|x seqs IH]; intros acks Ha Hs; [done|]. apply Forall_cons in Hs as [Hx Hs]. cbn [foldl]. apply IH; [|done]. unfold postpone. case_decide; [done|].
  rewrite Forall_app. by split; [|constructor].
Qed.
Lemma dir_receive a S b G w W V l b' items : dir a S b G (w :: W) V -> core b' = core (after_wire w (b <| largestIncomingCounters := l |>)) ->
  items = wire_single w ++ map out (absorb (acksSentCounters b) true (wire_entries w)).2 -> dir a S b' (G ++ items) W V.
Proof.
  intros (E & d & L & floor & hi & [[D1 [D2 [D2' D2'']]] [D3 [D3' D3'']] [D4 D4'] D5 D6 [D7 [D7' D7'']] D8 [D9 D9']]) Hb ->.
  apply Forall_cons in D6 as [(i & Hi & Hfit) D6]. apply Forall_cons in D8 as [Hsingle D8].
  pose proof (fits_ascending E i _ D2' Hfit) as Hasc.
  assert (Forall (fun e => floor <= e_counter e) (wire_entries w)) as Hfl.
  { cbn [heads] in D7. destruct (wire_entries w) as [|e M]; [done|]. destruct D7 as [D7 _]. cbn [map] in Hasc. apply StronglySorted_inv in Hasc as [_ Hasc].
    constructor; [done|]. rewrite Forall_forall in Hasc. apply Forall_forall. intros e' He'. specialize (Hasc (e_counter e')). lapply Hasc; [lia|]. by apply list_elem_of_fmap_2. }
  destruct (absorb_spec E D2' (wire_entries w) i d floor (acksSentCounters b) true Hfit ltac:(lia) D5 Hfl Hasc) as (d' & Hd' & Htake & Hin & Hdel).
  injection Hb as _ _ _ _ _ B6 B7 _. change (acksSentCounters b' = (absorb (acksSentCounters b) true (wire_entries w)).1) in B7.
  change (acksToSendSeqs b' = foldl postpone (acksToSendSeqs b) (map e_seq (wire_entries w))) in B6.
  set (fresh := (absorb (acksSentCounters b) true (wire_entries w)).2) in *.
  assert (fresh = take (d' - d) (drop d E)) as Efresh.
  { apply (app_inv_head (take d E)). rewrite Htake, take_take_drop. f_equal. lia. }
  assert (forall e, e ∈ fresh -> e ∈ E) as HfE by (intros e He; apply (elem_of_take_mono_all e d'); rewrite <- Htake; apply elem_of_app; by right).
  exists E, d', (L ++ fresh), (match wire_entries w with e :: _ => e_counter e | [] => floor end), hi. constructor.
  - done.
  - split; [lia|]. split.
    + rewrite filter_app, D3', filter_app. rewrite filter_out by (intros e He; by apply list_elem_of_fmap_2, HfE).
      assert (filter (fun g : A * Z => g.2 ∈ counters E) (wire_single w) = []) as ->.
      { unfold single_ok in Hsingle. clear -Hsingle. induction Hsingle as [|g gs [_ Hg] _ IH]; [done|]. by rewrite filter_cons_False. }
      rewrite <- Htake. cbn [app]. by rewrite map_app.
    + rewrite !Forall_app. split; [done|]. split; [eapply Forall_impl; [exact Hsingle|]; cbn; tauto|]. apply Forall_fmap, Forall_forall. intros e He. rewrite Forall_forall in D2''. by apply D2'', HfE.
  - assert ((L ++ fresh) ++ drop d' E = L ++ drop d E) as -> .
    { rewrite <- app_assoc, Efresh. f_equal. replace d' with (d + (d' - d))%nat at 2 by lia. rewrite <- drop_drop. apply take_drop. }
    split; [done|]. rewrite <- Htake. by apply sublist_app.
  - rewrite B7. exact Hdel.
  - eapply Forall_impl; [exact D6|]. intros v (j & Hj & Hv). exists j. split; [lia|done].
  - cbn [heads] in D7. split; [destruct (wire_entries w); [done|apply D7]|]. split; [done|].
    assert ((L ++ fresh) ++ drop d' E = L ++ drop d E) as ->; [|done].
    rewrite <- app_assoc, Efresh. f_equal. replace d' with (d + (d' - d))%nat at 2 by lia. rewrite <- drop_drop. apply take_drop.
  - done.
  - rewrite B6. assert (forall seq, seq ∈ map e_seq (take d E) -> seq ∈ map e_seq (take d' E)) as Hmono.
    { intros seq (e & -> & He)%list_elem_of_fmap. apply list_elem_of_fmap_2. eapply elem_of_take_mono; [|exact He]. lia. }
    split.
    + apply foldl_postpone; [eapply Forall_impl; [exact D9|done]|]. apply Forall_fmap, Forall_forall. intros e He. by apply list_elem_of_fmap_2, Hin.
    + eapply Forall_impl; [exact D9'|]. intros v Hv. eapply Forall_impl; [exact Hv|done].
Qed.

(** *** The sender handles the acknowledgements *)

Lemma e_seq_inj e e' : entry_ok e -> entry_ok e' -> e_seq e = e_seq e' -> e_counter e = e_counter e'.
Proof. intros [H _] [H' _] E. unfold e_seq in E. rewrite <- (seq_of_counter _ false true H), <- (seq_of_counter _ false true H'), E. reflexivity. Qed.
Lemma entry_reads e : entry_ok e -> ReadSeq (entry_bytes e) = e_seq e /\ (5 <= length (entry_bytes e))%nat.
Proof. intros He. split; [exact (ReadSeq_be _ _ (seq_of_u32 _ _ _ (proj1 He)))|exact (length_item (IMsg e) He)]. Qed.
Lemma erase_queue seq Q : Forall entry_ok Q -> forall l, map r_data l = map entry_bytes Q -> exists l', erase_acked seq l = Some l' /\
  (map r_data l' = map entry_bytes Q \/ exists Q1 e Q2, Q = Q1 ++ e :: Q2 /\ e_seq e = seq /\ map r_data l' = map entry_bytes (Q1 ++ Q2)).
Proof.
  induction 1 as [|e Q He HQ IH]; intros [|r l] Hl; try discriminate; [exists []; by auto|]. cbn [map] in Hl. injection Hl as Hr Hl. cbn [erase_acked]. rewrite Hr.
  destruct (entry_reads e He) as [-> Hlen]. rewrite decide_False by lia.
  case_decide as E; [exists l; split; [done|]; right; by exists [], e, Q|]. destruct (IH l Hl) as (l' & -> & [El|(Q1 & e1 & Q2 & -> & Es & El)]); cbn [mbind option_bind]; eexists; (split; [reflexivity|]); cbn [map]; rewrite Hr, El.
  - by left.
  - right. by exists (e :: Q1), e1, Q2.
Qed.
Lemma forget_queue seq E d L l : Forall entry_ok E -> ascending (counters E) -> L `sublist_of` take d E -> seq ∈ map e_seq (take d E) -> map r_data l = map entry_bytes (L ++ drop d E) ->
  exists L', L' `sublist_of` L /\ map r_data (forget l seq) = map entry_bytes (L' ++ drop d E).
Proof.
  intros HE Hasc HL Hseq Hl. assert (L ++ drop d E `sublist_of` E) as Hsub by (rewrite <- (take_drop d E) at 2; by apply sublist_app).
  assert (Forall entry_ok (L ++ drop d E)) as Hok by (apply Forall_forall; intros e He; rewrite Forall_forall in HE; apply HE; by eapply elem_of_sublist).
  destruct (erase_queue seq _ Hok l Hl) as (l' & E1 & H). unfold forget. rewrite E1. cbn [default].
  destruct H as [El|(Q1 & e & Q2 & EQ & Es & El)]; [by exists L|].
  assert (e ∉ drop d E) as Hnew.
  { intros Hin. apply list_elem_of_fmap in Hseq as (e0 & -> & He0). rewrite Forall_forall in HE. rewrite <- (take_drop d E), map_app in Hasc. apply ascending_app in Hasc as (_ & _ & Hasc).
    specialize (Hasc (e_counter e0) (e_counter e) (list_elem_of_fmap_2 _ _ _ He0) (list_elem_of_fmap_2 _ _ _ Hin)).
    rewrite (e_seq_inj e e0) in Hasc; [lia| | |done]; apply HE; [rewrite <- (take_drop d E); apply elem_of_app; by right|by eapply elem_of_take_mono_all]. }
  apply app_eq_inv in EQ as [(k & EL & ER)|(k & EL & ER)].
  - destruct k as [|e1 k]; cbn [app] in ER; [exfalso; apply Hnew; rewrite <- ER; left|]. injection ER as <- ->. exists (Q1 ++ k). subst L. split; [|by rewrite <- app_assoc].
    apply sublist_app; [done|by constructor].
  - exfalso. apply Hnew. rewrite ER. apply elem_of_app. right. left.
Qed.
Lemma dir_receive_acks a S b G W v V l a' : dir a S b G W (v :: V) -> core a' = core (after_wire v (a <| largestIncomingCounters := l |>)) -> dir a' S b G W V.
Proof.
  intros (E & d & L & floor & hi & [[D1 [D2 [D2' D2'']]] D3 [D4 D4'] D5 D6 [D7 [D7' D7'']] D8 [D9 D9']]) Ha. apply Forall_cons in D9' as [Hacks D9'].
  injection Ha as _ _ _ A4 _ _ _ A8. change (ec_counter a' = ec_counter a) in A4. change (myNotYetAckedMessages a' = foldl forget (myNotYetAckedMessages a) (wire_acks v)) in A8.
  assert (exists L', L' `sublist_of` L /\ map r_data (myNotYetAckedMessages a') = map entry_bytes (L' ++ drop d E)) as (L' & HL' & EL').
  { rewrite A8. destruct D4 as [D4 _]. clear -Hacks D4 D4' D2 D2'. revert L D4 D4' Hacks. generalize (myNotYetAckedMessages a). induction (wire_acks v) as [|seq acks IH]; intros q L HL Hq Hacks; [by exists L|].
    apply Forall_cons in Hacks as [Hseq Hacks]. destruct (forget_queue seq E d L q D2 D2' Hq Hseq HL) as (L1 & HL1 & E1). destruct (IH (forget q seq) L1 E1) as (L2 & HL2 & E2); [by etrans|done|].
    exists L2. split; [by etrans|exact E2]. }
  assert (L' ++ drop d E `sublist_of` L ++ drop d E) as Hsub by by apply sublist_app.
  assert (forall P : entry -> Prop, Forall P (L ++ drop d E) -> Forall P (L' ++ drop d E)) as HF by (intros P; rewrite !Forall_forall; intros HP e He; apply HP; by eapply elem_of_sublist).
  exists E, d, L', floor, hi. constructor; rewrite ?A4; [done|done| |done|done| |eapply Forall_impl; [exact D8|intros w; unfold single_ok; by rewrite A4]|done].
  - split; [split; [exact EL'|apply HF, D4]|by etrans].
  - split; [done|]. split; [done|by apply HF].
Qed.

(** *** The two ends send *)

Lemma tx_sent a Q w a' : tx a Q w a' -> acksSentCounters a' = acksSentCounters a.
Proof. intros [[= _ _ _ _ E] _ _ _]. exact E. Qed.
Lemma dir_send_back a S b G W V Q w b' : dir a S b G W V -> tx b Q w b' -> dir a S b' G W (V ++ option_list w).
Proof.
  intros (E & d & L & floor & hi & [D1 D2 D3 D4 D5 D6 D7 [D8 D9]]) T. exists E, d, L, floor, hi. pose proof (tx_sent _ _ _ _ T) as Es. destruct T as [_ _ _ Tw].
  constructor; [done|done|done|by rewrite Es|done|done|done|]. destruct w as [w|]; [change (option_list (Some w)) with [w]|change (option_list None) with (@nil wire)].
  - destruct Tw as (_ & _ & _ & _ & _ & i & Ea & Er). rewrite Er. split; [by apply Forall_drop|]. rewrite Forall_app, Forall_singleton, Ea. split; [done|by apply Forall_take].
  - rewrite app_nil_r, Tw. by split.
Qed.

Lemma ascending_snoc (E : list entry) e c : ascending (counters E) -> Forall (fun e => e_counter e <= c) E -> c < e_counter e -> ascending (counters (E ++ [e])).
Proof.
  intros HE Hc He. rewrite map_app. apply ascending_app. split; [done|]. split; [repeat constructor|]. intros x y (e' & -> & He')%list_elem_of_fmap ->%list_elem_of_singleton.
  rewrite Forall_forall in Hc. specialize (Hc e' He'). cbn in Hc. lia.
Qed.
Lemma fits_grow E i M K : (i <= length E)%nat -> fits_at E i M -> fits_at (E ++ K) i M.
Proof.
  intros Hi (Q & Y & -> & HQ & [Z HZ]). exists Q, Y. split; [done|]. rewrite take_app_le, drop_app_le by done. split; [done|]. exists (Z ++ K). by rewrite HZ, <- app_assoc.
Qed.
(** [a] has more messages to be acknowledged. *)
Lemma dir_accept a S b G W V E d L floor hi K a1 : direction a S b G W V E d L floor hi -> (K = [] \/ exists e, K = [e] /\ entry_ok e /\ ec_counter a < e_counter e <= ec_counter a1) ->
  queue a1 (L ++ drop d (E ++ K)) -> ec_counter a <= ec_counter a1 -> direction a1 (S ++ map out K) b G W V (E ++ K) d L floor hi.
Proof.
  intros [[D1 [D2 [D2' D2'']]] [D3 [D3' D3'']] [D4 D4'] D5 D6 [D7 [D7' D7'']] D8 D9] HK HQ Hle.
  assert (take d (E ++ K) = take d E) as Et by (apply take_app_le; lia). assert (drop d (E ++ K) = drop d E ++ K) as Ed by (apply drop_app_le; lia).
  assert (Forall (fun g : A * Z => g.2 ∈ counters (E ++ K) <-> g.2 ∈ counters E) G /\ forall n, n <= ec_counter a -> n ∉ counters E -> n ∉ counters (E ++ K)) as [HG Hn].
  { assert (forall n, n <= ec_counter a -> n ∈ counters (E ++ K) <-> n ∈ counters E) as H; [|split; [eapply Forall_impl; [exact D3''|]; intros g Hg; by apply H|intros n Hle' Hn; by rewrite H]].
    intros n Hn. rewrite map_app, elem_of_app. split; [|by left]. intros [?|Hin]; [done|]. destruct HK as [->|(e & -> & _ & He)]; [by apply elem_of_nil in Hin|]. apply list_elem_of_singleton in Hin. lia. }
  constructor; rewrite ?Et.
  - rewrite map_app, D1. split; [done|]. rewrite !Forall_app. destruct HK as [->|(e & -> & He & Hc)]; [rewrite app_nil_r; split; [by split|split; [done|split; [|done]]]|split; [by split; [|constructor]|]].
    + eapply Forall_impl; [exact D2''|]. cbn. lia.
    + split; [eapply ascending_snoc; [done|exact D2''|lia]|]. split; [eapply Forall_impl; [exact D2''|]; cbn; lia|constructor; [lia|constructor]].
  - rewrite length_app. split; [lia|]. split; [|eapply Forall_impl; [exact D3''|]; cbn; lia]. rewrite <- D3'. clear -HG. induction HG as [|g G Hg _ IH]; [done|].
    rewrite !filter_cons, IH. case_decide as H1; case_decide as H2; tauto || done.
  - by split.
  - unfold delivered_from. by rewrite Et.
  - eapply Forall_impl; [exact D6|]. intros w (i & Hi & Hf). exists i. split; [done|]. apply fits_grow; [lia|done].
  - split; [done|]. split; [lia|]. rewrite Ed, app_assoc, Forall_app. split; [done|]. destruct HK as [->|(e & -> & _ & He)]; [constructor|]. constructor; [lia|constructor].
  - eapply Forall_impl; [exact D8|]. intros w Hw. unfold single_ok in *. eapply Forall_impl; [exact Hw|]. intros g [Hg1 Hg2]. split; [lia|by apply Hn].
  - done.
Qed.
Lemma dir_emit a S b G W V E d L floor hi w : direction a S b G W V E d L floor hi -> wire_entries w `prefix_of` L ++ drop d E -> single_ok a E w ->
  exists hi', direction a S b G (W ++ [w]) V E d L floor hi'.
Proof.
  intros [[D1 [D2 [D2' D2'']]] [D3 [D3' D3'']] [D4 D4'] D5 D6 [D7 [D7' D7'']] D8 D9] [Z HZ] Hw.
  assert (L ++ drop d E `sublist_of` E) as Hsub by (rewrite <- (take_drop d E) at 2; by apply sublist_app).
  assert (ascending (counters (L ++ drop d E))) as Hasc by by eapply ascending_sublist.
  exists (match wire_entries w with e :: _ => e_counter e | [] => hi end). constructor; [done..| | | |done].
  - rewrite Forall_app, Forall_singleton. split; [done|]. exists d. split; [done|]. clear -HZ D4'. revert D4' HZ. generalize (wire_entries w) as M. intros M HL HM.
    apply app_eq_inv in HM as [(k & EL & ER)|(k & EL & ER)].
    + exists M, []. rewrite app_nil_r. split; [done|]. split; [|apply prefix_nil]. etrans; [|exact HL]. rewrite EL. by apply sublist_inserts_r.
    + exists L, k. split; [done|]. split; [done|]. exists Z. exact ER.
  - split; [|].
    + eapply heads_snoc; [exact D7|]. destruct (wire_entries w) as [|e M]; [done|]. split; [|done]. rewrite HZ in D7''. by apply Forall_cons in D7'' as [? _].
    + destruct (wire_entries w) as [|e M]; [done|]. cbn [app] in HZ. split.
      * rewrite Forall_forall in D2''. apply D2''. eapply elem_of_sublist; [|exact Hsub]. rewrite HZ. left.
      * rewrite HZ in Hasc |- *. cbn [map] in Hasc. apply StronglySorted_inv in Hasc as [_ Hasc]. constructor; [lia|]. rewrite Forall_forall in Hasc. apply Forall_forall. intros e' He'.
        specialize (Hasc (e_counter e') (list_elem_of_fmap_2 _ _ _ He')). lia.
  - rewrite Forall_app, Forall_singleton. by split.
Qed.

Lemma dir_tx a S b G W V E d L floor hi K w a' : direction a S b G W V E d L floor hi -> (K = [] \/ exists e, K = [e] /\ entry_ok e /\ ec_counter a < e_counter e <= ec_counter a') ->
  tx a (L ++ drop d (E ++ K)) w a' -> (forall w', w = Some w' -> Forall (fun g => g.2 = ec_counter a' /\ K = []) (wire_single w')) -> dir a' (S ++ map out K) b G (W ++ option_list w) V.
Proof.
  intros D HK [_ T2 [T3 _] T4] Hs. pose proof (dir_accept _ _ _ _ _ _ _ _ _ _ _ K a' D HK T2 T3) as D'. destruct w as [w|]; [change (option_list (Some w)) with [w]|change (option_list None) with (@nil wire)].
  - destruct T4 as (_ & _ & Hlt & _ & Hp & _). destruct (dir_emit _ _ _ _ _ _ _ _ _ _ _ w D' Hp) as [hi' D'']; [|by exists (E ++ K), d, L, floor, hi'].
    specialize (Hs w eq_refl). unfold single_ok. eapply Forall_impl; [exact Hs|]. intros g [-> ->]. split; [lia|]. rewrite app_nil_r. intros (e & Ec & He)%list_elem_of_fmap.
    destruct D as [(_ & _ & _ & D) _ _ _ _ _ _ _]. rewrite Forall_forall in D. specialize (D e He). cbn in D. lia.
  - rewrite app_nil_r. by exists (E ++ K), d, L, floor, hi.
Qed.
Lemma dir_acks_ok a S b G W V : dir a S b G W V -> Forall ack_ok (acksToSendSeqs b).
Proof.
  intros (E & d & L & floor & hi & [(_ & HE & _) _ _ _ _ _ _ [D _]]). eapply Forall_impl; [exact D|]. intros seq (e & -> & He)%list_elem_of_fmap. exists (e_counter e). split; [|done].
  rewrite Forall_forall in HE. apply HE. by eapply elem_of_take_mono_all.
Qed.
Definition grown (c c' : EncryptedConnection) : bool := bool_decide (length (myNotYetAckedMessages c) < length (myNotYetAckedMessages c'))%nat.
(** Both ends: [a] sends. *)
Lemma send_step now x a Sa b Ga Sb Gb W V : transmissible x -> dir a Sa b Gb W V -> dir b Sb a Ga V W -> counter_ok (ec_counter a) ->
  exists w a', prepare now (write x) (requires_ack x) a = (Value (seal a <$> w), a') /\ (exists Q, tx a Q w a') /\ 
    dir a' (Sa ++ (if grown a a' then [(arrives x, ec_counter a + 1)] else [])) b Gb (W ++ option_list w) V /\ dir b Sb a' Ga V (W ++ option_list w).
Proof.
  intros Hx Da Db Hc. pose proof (dir_acks_ok _ _ _ _ _ _ Db) as Hacks. destruct Da as (E & d & L & floor & hi & D). pose proof (dir_queue _ _ _ _ _ _ _ _ _ _ _ D) as [HQ _].
  destruct (prepare_tx now x a _ Hx HQ Hc Hacks) as (w & a' & Q' & Ep & T & HQ' & Hs). exists w, a'. split; [exact Ep|]. split; [by exists Q'|]. split; [|by eapply dir_send_back].
  pose proof (queue_nil _ _ HQ) as Hl. pose proof (queue_nil _ _ (tx_queue _ _ _ _ T)) as Hl'. unfold grown. destruct HQ' as [->|(Hreq & e & -> & Em & Ec & He & Hle)].
  - rewrite bool_decide_eq_false_2 by lia. apply (dir_tx a Sa b Gb W V E d L floor hi [] w a' D); [by left|by rewrite app_nil_r|].
    intros w' Ew. destruct (Hs w' Ew) as [->|[_ ->]]; [constructor|by repeat constructor].
  - rewrite length_app in Hl'. cbn [length] in Hl'. rewrite bool_decide_eq_true_2 by lia. assert ([(arrives x, ec_counter a + 1)] = map out [e]) as -> by (cbn; unfold out; by rewrite Em, Ec).
    apply (dir_tx a Sa b Gb W V E d L floor hi [e] w a' D); [right; exists e; split; [done|]; split; [done|lia]| |].
    + rewrite drop_app_le, app_assoc by apply (dir_got _ _ _ _ _ _ _ _ _ _ _ D). exact T.
    + intros w' Ew. destruct (Hs w' Ew) as [->|[Hn _]]; [constructor|congruence].
Qed.
Lemma service_step now cause a Sa b Ga Sb Gb W V : dir a Sa b Gb W V -> dir b Sb a Ga V W -> counter_ok (ec_counter a) ->
  exists w a', prepareForSendingService now cause a = (Value (seal a <$> w), a') /\ (exists Q, tx a Q w a') /\ dir a' Sa b Gb (W ++ option_list w) V /\ dir b Sb a' Ga V (W ++ option_list w).
Proof.
  intros Da Db Hc. pose proof (dir_acks_ok _ _ _ _ _ _ Db) as Hacks. destruct Da as (E & d & L & floor & hi & D). pose proof (dir_queue _ _ _ _ _ _ _ _ _ _ _ D) as [HQ _].
  destruct (service_tx now cause a _ HQ Hc Hacks) as (w & a' & Ep & T & Hs). exists w, a'. split; [exact Ep|]. split; [by eexists|]. split; [|by eapply dir_send_back].
  rewrite <- (app_nil_r Sa). apply (dir_tx a Sa b Gb W V E d L floor hi [] w a' D); [by left|by rewrite app_nil_r|]. intros w' Ew. rewrite (Hs w' Ew). constructor.
Qed.

(** ** The two ends and the network

    What an end accepted to be acknowledged and what was delivered to it are recorded
    next to its connection. *)

Record side := Side { s_conn : EncryptedConnection; s_sent : list (A * Z); s_got : list (A * Z) }.
Record network := Network { near : side; far : side; forth : list (list Z); back : list (list Z) }.
Definition swap (m : network) : network := Network (far m) (near m) (back m) (forth m).
Lemma swap_swap m : swap (swap m) = m.
Proof. by destruct m. Qed.
Definition packets (p : option EncryptedPacket) : list (list Z) := option_list (ep_bytes <$> p).
Definition accepts (x : X) (a : side) (c : EncryptedConnection) : list (A * Z) := if grown (s_conn a) c then [(arrives x, ec_counter (s_conn a) + 1)] else [].
(** The near end sends; the network loses, repeats or delivers a packet on its way to
    the far end, or brings one that is not under the key. *)
Inductive act : network -> network -> Prop :=
| act_send a b F B now x p c : transmissible x -> prepare now (write x) (requires_ack x) (s_conn a) = (Value p, c) ->
    act (Network a b F B) (Network (Side c (s_sent a ++ accepts x a c) (s_got a)) b (F ++ packets p) B)
| act_service a b F B now cause p c : prepareForSendingService now cause (s_conn a) = (Value p, c) ->
    act (Network a b F B) (Network (Side c (s_sent a) (s_got a)) b (F ++ packets p) B)
| act_lose a b F1 p F2 B : act (Network a b (F1 ++ p :: F2) B) (Network a b (F1 ++ F2) B)
| act_repeat a b F1 p F2 B : act (Network a b (F1 ++ p :: F2) B) (Network a b (F1 ++ p :: p :: F2) B)
| act_deliver a b p F B r c : handleIncomingPacket p (s_conn b) = (Value r, c) -> act (Network a b (p :: F) B) (Network a (Side c (s_sent b) (s_got b ++ items_of r)) F B)
| act_forge a b p F B r c : decrypt (s_conn b) p = None -> handleIncomingPacket p (s_conn b) = (Value r, c) ->
    act (Network a b F B) (Network a (Side c (s_sent b) (s_got b ++ items_of r)) F B).
Definition step (m m' : network) : Prop := act m m' \/ act (swap m) (swap m').
Definition start (type : ConnectionType) (key : list Z) : network := Network (Side (new_connection type key true) [] []) (Side (new_connection type key false) [] []) [] [].
Definition reachable (m : network) : Prop := exists type key, rtc step (start type key) m.

Definition channel (c : EncryptedConnection) (W : list wire) (F : list (list Z)) : Prop :=
  F = map (fun w => ep_bytes (seal c w)) W /\ Forall (fun w => wire_ok w /\ fits_limit c (plain w)) W.
Definition side_ok (s : side) : Prop := connection_ok (s_conn s) /\ counter_ok (ec_counter (s_conn s)).
Definition inv (m : network) : Prop := exists W V, ends (s_conn (near m)) (s_conn (far m)) /\ side_ok (near m) /\ side_ok (far m) /\
  channel (s_conn (near m)) W (forth m) /\ channel (s_conn (far m)) V (back m) /\
  dir (s_conn (near m)) (s_sent (near m)) (s_conn (far m)) (s_got (far m)) W V /\ dir (s_conn (far m)) (s_sent (far m)) (s_conn (near m)) (s_got (near m)) V W.

Definition ident (c : EncryptedConnection) := (ec_type c, ec_key c, ec_isOutgoing c).
Lemma channel_same c c' W F : ident c' = ident c -> channel c W F -> channel c' W F.
Proof.
  intros E [-> HW]. split; [apply map_ext; intros w; unfold seal; by rewrite (encrypt_same c c')|]. eapply Forall_impl; [exact HW|]. intros w [H1 H2]. split; [done|].
  unfold fits_limit, packetLimit in *. by injection E as -> _ _.
Qed.
Lemma channel_snoc c W F w : channel c W F -> wire_ok w -> fits_limit c (plain w) -> channel c (W ++ [w]) (F ++ [ep_bytes (seal c w)]).
Proof. intros [-> HW] H1 H2. split; [by rewrite map_app|]. rewrite Forall_app. split; [done|]. by constructor. Qed.
Lemma channel_app c W F1 p F2 : channel c W (F1 ++ p :: F2) -> exists W1 w W2, W = W1 ++ w :: W2 /\ p = ep_bytes (seal c w) /\ channel c W1 F1 /\ channel c W2 F2 /\ wire_ok w /\ fits_limit c (plain w).
Proof.
  intros [E HW]. symmetry in E. apply map_eq_app in E as (W1 & W2 & -> & E1 & E2). destruct W2 as [|w W2]; [done|]. cbn [map] in E2. injection E2 as E2 E3.
  rewrite Forall_app, Forall_cons in HW. destruct HW as (H1 & [H2 H3] & H4). exists W1, w, W2. by repeat split.
Qed.
Lemma channel_join c W1 F1 W2 F2 : channel c W1 F1 -> channel c W2 F2 -> channel c (W1 ++ W2) (F1 ++ F2).
Proof. intros [-> H1] [-> H2]. split; [by rewrite map_app|]. rewrite Forall_app. by split. Qed.
Lemma channel_cons c w W F : wire_ok w -> fits_limit c (plain w) -> channel c W F -> channel c (w :: W) (ep_bytes (seal c w) :: F).
Proof. intros H1 H2 [-> H3]. split; [done|]. by constructor. Qed.
Lemma ends_same a b a' b' : ident a' = ident a -> ident b' = ident b -> ends a b -> ends a' b'.
Proof. unfold ends. intros [= -> -> ->] [= -> -> ->]. exact id. Qed.
Lemma tx_side a Q w a' : connection_ok a -> tx a Q w a' -> ident a' = ident a /\ connection_ok a' /\ counter_ok (ec_counter a').
Proof.
  intros (H1 & H2 & H3 & H4) [[= E1 E2 E3 E4 E5] [Tq Tq'] [_ Tc] _]. split; [unfold ident; by rewrite E1, E2, E3|]. split; [|done]. unfold connection_ok. rewrite E4, E5.
  split; [done|]. split; [done|]. split; [done|]. apply Forall_forall. intros r Hr. assert (r_data r ∈ map entry_bytes Q) as Hin by (rewrite <- Tq; by apply list_elem_of_fmap_2).
  apply list_elem_of_fmap in Hin as (e & -> & He). rewrite Forall_forall in Tq'. by apply entry_reads, Tq'.
Qed.
Lemma inv_swap m : inv m -> inv (swap m).
Proof. intros (W & V & He & Ha & Hb & HW & HV & Da & Db). exists V, W. cbn. split; [by apply ends_sym|]. done. Qed.
Lemma inv_start type key : inv (start type key).
Proof.
  exists [], []. assert (forall o, side_ok (Side (new_connection type key o) [] [])) as Hs.
  { intros o. split; [repeat split; constructor|]. apply counter_ok_lt. cbn. lia. }
  assert (forall o o', dir (new_connection type key o) [] (new_connection type key o') [] [] []) as Hd.
  { intros o o'. exists [], 0%nat, [], 0, 0. constructor; cbn; try done; try (repeat constructor; done). split; [constructor|]. intros x. split; [by intros ?%elem_of_nil|by intros [?%elem_of_nil _]]. }
  cbn. split; [done|]. split; [apply Hs|]. split; [apply Hs|]. split; [done|]. split; [done|]. split; apply Hd.
Qed.

(** A packet that is sent joins the channel. *)
Lemma channel_sent a Q w a' W F : tx a Q w a' -> channel a W F -> channel a' (W ++ option_list w) (F ++ packets (seal a <$> w)).
Proof.
  intros T HW. assert (ident a' = ident a) as Ei by (destruct T as [[= E1 E2 E3 _ _] _ _ _]; unfold ident; by rewrite E1, E2, E3).
  apply (channel_same a a' _ _ Ei). destruct w as [w|]; [|by rewrite !app_nil_r]. destruct T as [_ _ _ (H1 & _ & _ & H2 & _)]. by apply channel_snoc.
Qed.
Lemma inv_sent a b F B c K Q w W V : inv (Network a b F B) -> channel (s_conn a) W F -> channel (s_conn b) V B -> tx (s_conn a) Q w c ->
  dir c (s_sent a ++ K) (s_conn b) (s_got b) (W ++ option_list w) V -> dir (s_conn b) (s_sent b) c (s_got a) V (W ++ option_list w) ->
  inv (Network (Side c (s_sent a ++ K) (s_got a)) b (F ++ packets (seal (s_conn a) <$> w)) B).
Proof.
  intros (_ & _ & He & [Ha _] & Hb & _) HW HV T Da Db. destruct (tx_side _ _ _ _ Ha T) as (Ei & Hc & Hn). exists (W ++ option_list w), V. cbn.
  split; [by apply (ends_same (s_conn a) (s_conn b))|]. split; [by split|]. split; [done|]. split; [by eapply channel_sent|]. done.
Qed.
Lemma core_ident c c' w l : core c' = core (after_wire w (c <| largestIncomingCounters := l |>)) -> ident c' = ident c /\ ec_counter c' = ec_counter c.
Proof. intros [= E1 E2 E3 E4 _ _ _ _]. unfold ident. rewrite E1, E2, E3, E4. done. Qed.
Lemma inv_act m m' : inv m -> act m m' -> inv m'.
Proof.
  intros Hm Hact. pose proof Hm as (W & V & He & Ha & Hb & HW & HV & Da & Db). destruct Hact as [a b F B now x p c Hx E|a b F B now cause p c E|a b F1 p F2 B|a b F1 p F2 B|a b p F B r c E|a b p F B r c Ed E];
    cbn [near far forth back] in *.
  - destruct (send_step now x _ _ _ _ _ _ _ _ Hx Da Db (proj2 Ha)) as (w & a' & E' & [Q T] & Da' & Db'). rewrite E' in E. injection E as <- <-. by eapply inv_sent.
  - destruct (service_step now cause _ _ _ _ _ _ _ _ Da Db (proj2 Ha)) as (w & a' & E' & [Q T] & Da' & Db'). rewrite E' in E. injection E as <- <-.
    rewrite <- (app_nil_r (s_sent a)) in Da' |- *. by eapply inv_sent.
  - destruct (channel_app _ _ _ _ _ HW) as (W1 & w & W2 & -> & _ & H1 & H2 & _). exists (W1 ++ W2), V. cbn. split; [done|]. split; [done|]. split; [done|]. split; [by apply channel_join|].
    split; [done|]. split; [by eapply dir_lose|by eapply dir_lose_back].
  - destruct (channel_app _ _ _ _ _ HW) as (W1 & w & W2 & -> & -> & H1 & H2 & H3 & H4). exists (W1 ++ w :: w :: W2), V. cbn. split; [done|]. split; [done|]. split; [done|].
    split; [apply channel_join; [done|]; by do 2 (apply channel_cons; [done|done|])|]. split; [done|]. split; [by apply dir_repeat|by apply dir_repeat_back].
  - destruct (channel_app _ W [] p F HW) as (W1 & w & W2 & -> & -> & [H1 _] & H2 & H3 & H4). destruct W1 as [|? ?]; [|done]. cbn [app] in *. destruct Hb as [Hb Hbn].
    destruct (handle_wire _ _ w He H3 H4 Hb) as (r' & b' & E' & H). rewrite E' in E. injection E as <- <-. pose proof (handle_ok (ep_bytes (seal (s_conn a) w)) _ Hb) as (r2 & c2 & E2 & Hc2 & _). rewrite E' in E2. injection E2 as <- <-.
    destruct H as [[-> ->]|(l & Hcore & Hitems)].
    + exists W2, V. cbn. rewrite app_nil_r. split; [done|]. split; [done|]. split; [done|]. split; [done|]. split; [done|]. split; [by apply (dir_lose _ _ _ _ [] w)|by apply (dir_lose_back _ _ _ _ _ [] w)].
    + destruct (core_ident _ _ _ _ Hcore) as [Ei En]. exists W2, V. cbn. split; [by apply (ends_same (s_conn a) (s_conn b))|]. split; [done|]. split; [split; [done|cbn; by rewrite En]|]. split; [done|].
      split; [by apply (channel_same (s_conn b))|]. split; [by eapply dir_receive|by eapply dir_receive_acks].
  - assert (r = None /\ c = s_conn b) as [-> ->] by (unfold handleIncomingPacket in E; erewrite run_bind in E by reflexivity; rewrite Ed in E; by injection E as <- <-).
    exists W, V. cbn. rewrite app_nil_r. done.
Qed.
Lemma inv_step m m' : inv m -> step m m' -> inv m'.
Proof. intros Hm [H|H]; [by eapply inv_act|]. assert (inv (swap m')) as Hs by (eapply inv_act; [by apply inv_swap|exact H]). apply inv_swap in Hs. by destruct m'. Qed.
Lemma inv_reachable m : reachable m -> inv m.
Proof.
  intros (type & key & H). assert (inv (start type key)) as Hs by apply inv_start. revert Hs. induction H as [|m m1 m2 H1 H2 IH]; [done|]. intros Hm. apply IH. by eapply inv_step.
Qed.

(** What was delivered of the messages [a] accepted are the first of them, once each and in
    order; the rest is at the end of the queue, after messages that have arrived but whose
    acknowledgement has not. *)
Definition queued (c : EncryptedConnection) : list Z := map (fun r => CounterFromSeq (ReadSeq (r_data r))) (myNotYetAckedMessages c).
Definition in_order (a b : side) : Prop :=
  let arrived := filter (fun g : A * Z => g.2 ∈ map snd (s_sent a)) (s_got b) in
  exists waits pending, s_sent a = arrived ++ pending /\ queued (s_conn a) = waits ++ map snd pending /\ waits `sublist_of` map snd arrived /\ ascending (map snd (s_sent a)).
Lemma queue_queued c Q : queue c Q -> queued c = counters Q.
Proof.
  intros [E HQ]. unfold queued. rewrite <- (map_map r_data (fun d => CounterFromSeq (ReadSeq d))), E, map_map. apply map_ext_in. intros e He%list_elem_of_In. rewrite Forall_forall in HQ.
  specialize (HQ e He). destruct (entry_reads e HQ) as [-> _]. exact (seq_of_counter _ _ _ (proj1 HQ)).
Qed.
Lemma counters_sublist (k l : list entry) : k `sublist_of` l -> counters k `sublist_of` counters l.
Proof. induction 1; cbn [map]; by constructor. Qed.
Lemma dir_in_order a b W V : dir (s_conn a) (s_sent a) (s_conn b) (s_got b) W V -> in_order a b.
Proof.
  intros (E & d & L & floor & hi & [(HS & _ & HE & _) (Hd & HG & _) [HQ HL] _ _ _ _ _]). unfold in_order. rewrite HS. rewrite map_map. change (fun x : entry => (out x).2) with e_counter. cbv zeta.
  rewrite HG. exists (counters L), (map out (drop d E)). rewrite map_map. change (fun x : entry => (out x).2) with e_counter. split; [by rewrite <- map_app, take_drop|].
  split; [rewrite <- map_app; by apply queue_queued|]. split; [|done]. rewrite map_map. change (fun x : entry => (out x).2) with e_counter. by apply counters_sublist.
Qed.
Definition sending_returns (c : EncryptedConnection) : Prop :=
  (forall now x, transmissible x -> exists p c', prepare now (write x) (requires_ack x) c = (Value p, c')) /\
  (forall now cause, exists p c', prepareForSendingService now cause c = (Value p, c')).
Lemma dir_sending_returns a b W V : dir (s_conn a) (s_sent a) (s_conn b) (s_got b) W V -> dir (s_conn b) (s_sent b) (s_conn a) (s_got a) V W -> counter_ok (ec_counter (s_conn a)) ->
  sending_returns (s_conn a).
Proof.
  intros Da Db Ha. split.
  - intros now x Hx. destruct (send_step now x _ _ _ _ _ _ _ _ Hx Da Db Ha) as (w & a' & E & _). by eexists _, _.
  - intros now cause. destruct (service_step now cause _ _ _ _ _ _ _ _ Da Db Ha) as (w & a' & E & _). by eexists _, _.
Qed.
(** C5: whatever is lost or repeated between the ends, and whatever else arrives, the messages
    that one end accepts to be acknowledged are delivered to the other once and in order, a
    message is kept until it is, and sending returns. *)
Theorem reliable_delivery (m : network) (Hm : reachable m) :
  in_order (near m) (far m) /\ in_order (far m) (near m) /\ sending_returns (s_conn (near m)) /\ sending_returns (s_conn (far m)).
Proof.
  destruct (inv_reachable m Hm) as (W & V & He & [_ Ha] & [_ Hb] & HW & HV & Da & Db). split; [by eapply dir_in_order|]. split; [by eapply dir_in_order|].
  split; by eapply dir_sending_returns.
Qed.
End reliable.

(** ** An exchange

    With the toy cipher of [TgConnection.demo_crypto]. *)
#[local] Existing Instance demo_crypto.
Definition demo_start : network (A := list Z) := start Transport (repeat 7 256).
(** The state after each step; what fails leaves it as it is. *)
Definition demo_send (now : Z) (x : list Z * bool) (m : network) : network :=
  match prepare now (write x) (requires_ack x) (s_conn (near m)) with
  | (Value p, c) => Network (Side c (s_sent (near m) ++ accepts x (near m) c) (s_got (near m))) (far m) (forth m ++ packets p) (back m)
  | _ => m
  end.
Definition demo_service (now cause : Z) (m : network (A := list Z)) : network :=
  match prepareForSendingService now cause (s_conn (near m)) with
  | (Value p, c) => Network (Side c (s_sent (near m)) (s_got (near m))) (far m) (forth m ++ packets p) (back m)
  | _ => m
  end.
Definition demo_lose (m : network (A := list Z)) : network := Network (near m) (far m) (tail (forth m)) (back m).
Definition demo_deliver (m : network) : network :=
  match forth m with
  | [] => m
  | p :: F => match handleIncomingPacket p (s_conn (far m)) with
              | (Value r, c) => Network (near m) (Side c (s_sent (far m)) (s_got (far m) ++ items_of (A := list Z) r)) F (back m)
              | _ => m
              end
  end.

Definition runs {C B} (r : outcome B * C) : bool := match r with (Value _, _) => true | _ => false end.
Lemma demo_send_act now x m : transmissible x -> runs (prepare now (write x) (requires_ack x) (s_conn (near m))) = true -> act (X := list Z * bool) m (demo_send now x m).
Proof. intros Hx Hr. unfold demo_send. destruct m as [a b F B]. destruct (prepare _ _ _ _) as [[p| |] c] eqn:E; try done. by apply (act_send a b F B now x p c). Qed.
Lemma demo_service_act now cause m : runs (prepareForSendingService now cause (s_conn (near m))) = true -> act (X := list Z * bool) m (demo_service now cause m).
Proof. intros Hr. unfold demo_service. destruct m as [a b F B]. destruct (prepareForSendingService _ _ _) as [[p| |] c] eqn:E; try done. by apply (act_service a b F B now cause p c). Qed.
Lemma demo_lose_act m : forth m <> [] -> act (X := list Z * bool) m (demo_lose m).
Proof. destruct m as [a b [|p F] B]; [done|]. intros _. exact (act_lose a b [] p F B). Qed.
Lemma demo_deliver_act m : forth m <> [] -> runs (handleIncomingPacket (A := list Z) (hd [] (forth m)) (s_conn (far m))) = true -> act (X := list Z * bool) m (demo_deliver m).
Proof. intros Hf Hr. unfold demo_deliver. destruct m as [a b [|p F] B]; [done|]. cbn [forth hd far] in *. destruct (handleIncomingPacket p (s_conn b)) as [[r| |] c] eqn:E; try done. by apply (act_deliver a b p F B r c). Qed.

(** The packet is lost, the message is sent again with another one, they arrive, and the
    acknowledgements come back. *)
Definition demo1 := demo_send 10 ([1; 2; 3], true) demo_start.
Definition demo2 := demo_send 20 ([4], true) (demo_lose demo1).
Definition demo3 := demo_deliver demo2.
Definition demo4 := demo_service 30 kServiceCauseAcks (swap demo3).
Definition demo5 := swap (demo_deliver demo4).
Lemma reliable_delivery_witness : let arrived := [([1; 2; 3], 1); ([4], 2)] in
  s_got (far demo5) = arrived /\ s_sent (near demo5) = arrived /\ queued (s_conn (near demo5)) = [] /\
  in_order (near demo5) (far demo5) /\ in_order (far demo5) (near demo5) /\ sending_returns (s_conn (near demo5)) /\ sending_returns (s_conn (far demo5)).
Proof.
  split; [vm_compute; reflexivity|]. split; [vm_compute; reflexivity|]. split; [vm_compute; reflexivity|]. apply (reliable_delivery (X := list Z * bool) demo5). exists Transport, (repeat 7 256).
  apply (rtc_l _ _ demo1); [left; apply demo_send_act; vm_compute; [discriminate|reflexivity]|]. apply (rtc_l _ _ (demo_lose demo1)); [left; apply demo_lose_act; vm_compute; discriminate|].
  apply (rtc_l _ _ demo2); [left; apply demo_send_act; vm_compute; [discriminate|reflexivity]|]. apply (rtc_l _ _ demo3); [left; apply demo_deliver_act; vm_compute; [discriminate|reflexivity]|].
  apply (rtc_l _ _ (swap demo4)); [right; rewrite swap_swap; apply demo_service_act; vm_compute; reflexivity|]. apply rtc_once. right. unfold demo5. rewrite !swap_swap. apply demo_deliver_act; vm_compute; [discriminate|reflexivity].
Defined.

(** ** What is not promised *)

(** The first message to be acknowledged asks for no service, so that nothing sends it
    again when its packet is lost and nothing follows. *)
Example lost_without_timer : requests (s_conn (near demo1)) = [] /\ resendTimerActive (s_conn (near demo1)) = false /\ queued (s_conn (near demo1)) = [1].
Proof. vm_compute. done. Qed.
(** Packets that overtake each other: the first message is sent twice, the second copy comes
    after a later message and is delivered again. *)
Definition demo_take (n : nat) (m : network (A := list Z)) : network := Network (near m) (far m) (take 1 (drop n (forth m)) ++ take n (forth m) ++ drop (S n) (forth m)) (back m).
Definition demo_late : network := demo_service 1000 0 demo1.
Definition demo_acked : network := swap (demo_deliver (demo_service 1010 kServiceCauseAcks (swap (demo_deliver demo_late)))).
Example overtaken_repeats : s_got (far (demo_deliver (demo_deliver (demo_take 1 (demo_send 1020 ([4], true) demo_acked))))) = [([1; 2; 3], 1); ([4], 3); ([1; 2; 3], 1)].
Proof. vm_compute. reflexivity. Qed.
(** A message that fills its packet is accepted, and does not fit behind the header of the
    packets that would send it again: they are empty, and it holds up what follows it. *)
Definition demo_large : network := demo_send 10 (repeat 0 1425, true) demo_start.
Example large_blocks : let m := demo_send 5000 ([4], true) (demo_lose demo_large) in
  map length (forth demo_large) = [1450%nat] /\ map length (forth m) = [21%nat] /\ map length (forth (demo_service 10000 kServiceCauseResend m)) = [21%nat; 21%nat] /\ queued (s_conn (near m)) = [1; 2].
Proof. vm_compute. done. Qed.
