(* ===== verification/Json.v ===== *)
(** * Calls: JSON

    [src/thirdparty/TgVoipWebrtcIOS6/src/tgcalls/third-party/json11.cpp]: values, [dump]
    and the parser, with the strategy that takes no comments, the only one used. The
    parser is an index into its input and a flag; a function that fails sets the flag
    and returns a default. A read past the terminating zero of the input aborts, and so
    does a loop out of fuel. *)

From stdpp Require Import sorting.
From S2P Require Import Prelude Exn Double TgMessage.

(** ** Values *)

(** An object is a [std::map]: its pairs in the order of the keys. *)
Inductive Json :=
| JsonNull
| JsonDouble (x : double)
| JsonInt (n : Z)
| JsonBoolean (b : bool)
| JsonString (s : list Z)
| JsonArray (l : list Json)
| JsonObject (m : list (list Z * Json)).
Inductive Type_ := NUL | NUMBER | BOOL | STRING | ARRAY | OBJECT.
#[export] Instance Type_eq_dec : EqDecision Type_.
Proof. solve_decision. Defined.
Definition type (j : Json) : Type_ :=
  match j with
  | JsonNull => NUL | JsonDouble _ | JsonInt _ => NUMBER | JsonBoolean _ => BOOL
  | JsonString _ => STRING | JsonArray _ => ARRAY | JsonObject _ => OBJECT
  end.
(** The value of the kind that is asked for, or a default. *)
Definition number_value (j : Json) : double := match j with JsonDouble x => x | JsonInt n => of_Z n | _ => d0 end.
Definition bool_value (j : Json) : bool := match j with JsonBoolean b => b | _ => false end.
Definition string_value (j : Json) : list Z := match j with JsonString s => s | _ => [] end.
Definition array_items (j : Json) : list Json := match j with JsonArray l => l | _ => [] end.
Definition object_items (j : Json) : list (list Z * Json) := match j with JsonObject m => m | _ => [] end.

(** [std::map]: [find], and assignment through [operator[]]. *)
Fixpoint map_find {V} (k : list Z) (m : list (list Z * V)) : option V :=
  match m with [] => None | (k', v) :: m => if decide (k = k') then Some v else map_find k m end.
Fixpoint map_assign {V} (k : list Z) (v : V) (m : list (list Z * V)) : list (list Z * V) :=
  match m with
  | [] => [(k, v)]
  | (k', v') :: rest => match compare_bytes k k' with Lt => (k, v) :: m | Eq => (k, v) :: rest | Gt => (k', v') :: map_assign k v rest end
  end.

(** ** The C library

    The functions of the standard library on numbers, on the texts that a JSON number can be
    and in the locale "C"; the conversions of doubles round to nearest. *)

Definition in_range (x lower upper : Z) : bool := bool_decide (lower <= x <= upper).
Definition digit (c : Z) : bool := in_range c 48 57.
(** A decimal number, up to the first character that is not a digit; [atoi]. *)
Fixpoint digits_value (a : Z) (s : list Z) : Z :=
  match s with c :: s => if digit c then digits_value (a * 10 + (c - 48)) s else a | [] => a end.
Definition atoi (s : list Z) : Z := match s with 45 :: s => - digits_value 0 s | _ => digits_value 0 s end.
Definition dump_int (n : Z) : list Z := if decide (n < 0) then 45 :: dec (- n) else dec n.
Fixpoint span_digits (s : list Z) : list Z * list Z :=
  match s with c :: s' => if digit c then let '(ds, r) := span_digits s' in (c :: ds, r) else ([], s) | [] => ([], []) end.
Definition sign_of (s : list Z) : bool * list Z := match s with 45 :: s => (true, s) | 43 :: s => (false, s) | _ => (false, s) end.
(** [d * 10 ^ e]. *)
Definition scale (negative : bool) (d e : Z) : double :=
  if decide (d = 0) then SpecFloat.S754_zero negative
  else if decide (0 <= e) then of_Z ((if negative then - d else d) * 10 ^ e)
  else ddiv (SpecFloat.S754_finite negative (Z.to_pos d) 0) (SpecFloat.S754_finite false (Z.to_pos (10 ^ (- e))) 0).
Definition strtod (s : list Z) : double :=
  let '(negative, s) := sign_of s in
  let '(integer, s) := span_digits s in
  let '(fraction, s) := match s with 46 :: s => span_digits s | _ => ([], s) end in
  let exponent := match s with c :: s => if bool_decide (c = 101) || bool_decide (c = 69) then let '(negative, s) := sign_of s in (if negative then -1 else 1) * digits_value 0 s else 0 | [] => 0 end in
  scale negative (digits_value 0 (integer ++ fraction)) (exponent - Z.of_nat (length fraction)).
(** ["%.17g"]: the quotient rounded to an integer, the power of ten below it, and the text. *)
Definition round_div (n d : Z) : Z :=
  let q := n / d in let r := n mod d in if decide (2 * r < d \/ 2 * r = d /\ Z.even q) then q else q + 1.
Definition decimal (n : Z) : list Z := dec_digits (S (Z.to_nat (Z.log2 n))) n.
Definition floor_log10 (n d : Z) : Z :=
  if decide (d <= n) then Z.of_nat (length (decimal (n / d))) - 1 else - Z.of_nat (length (decimal ((d + n - 1) / n - 1))).
Definition strip_zeros (s : list Z) : list Z := foldr (fun c r => if decide (c = 48 /\ r = []) then [] else c :: r) [] s.
Definition with_fraction (integer fraction : list Z) : list Z := match strip_zeros fraction with [] => integer | f => integer ++ [46] ++ f end.
Definition g17_digits (D X : Z) : list Z :=
  let s := decimal D in
  if decide (-4 <= X < 17) then
    if decide (0 <= X) then with_fraction (take (Z.to_nat (X + 1)) s) (drop (Z.to_nat (X + 1)) s)
    else with_fraction [48] (replicate (Z.to_nat (- X - 1)) 48 ++ s)
  else with_fraction (take 1 s) (drop 1 s) ++ [101; if decide (X < 0) then 45 else 43] ++ (if decide (Z.abs X < 10) then [48] else []) ++ decimal (Z.abs X).
Definition snprintf_17g (x : double) : list Z :=
  match x with
  | SpecFloat.S754_nan => str "nan"
  | SpecFloat.S754_infinity s => (if s then [45] else []) ++ str "inf"
  | SpecFloat.S754_zero s => (if s then [45] else []) ++ [48]
  | SpecFloat.S754_finite s m e =>
      let n := Zpos m * 2 ^ Z.max 0 e in let d := 2 ^ Z.max 0 (- e) in
      let X := floor_log10 n d in
      let D := round_div (n * 10 ^ Z.max 0 (16 - X)) (d * 10 ^ Z.max 0 (X - 16)) in
      (if s then [45] else []) ++ (if decide (D = 10 ^ 17) then g17_digits (10 ^ 16) (X + 1) else g17_digits D X)
  end.
Example snprintf_17g_examples : map snprintf_17g [literal 1 10; of_Z 100; literal (-1) 8; literal 1 100000; of_Z (10 ^ 17); of_Z (2 ^ 62); SpecFloat.S754_finite false 4503599627370496 (-1074); SpecFloat.S754_finite true 9007199254740991 971] =
  [str "0.10000000000000001"; str "100"; str "-0.125"; str "1.0000000000000001e-05"; str "1e+17"; str "4.6116860184273879e+18"; str "2.2250738585072014e-308"; str "-1.7976931348623157e+308"].
Proof. vm_compute. reflexivity. Qed.
Example strtod_examples : map strtod [str "0.10000000000000001"; str "1e2"; str "-0.125,"; str "1.0000000000000001e-05"; str "2.2250738585072014e-308"; str "-1.7976931348623157E+308"; str "1e400"; str "-0.0"; str "12345678901}"] =
  [literal 1 10; of_Z 100; literal (-1) 8; literal 1 100000; SpecFloat.S754_finite false 4503599627370496 (-1074); SpecFloat.S754_finite true 9007199254740991 971; dinf; SpecFloat.S754_zero true; of_Z 12345678901].
Proof. vm_compute. reflexivity. Qed.

(** ** Writing *)

Definition hex_digit (d : Z) : Z := if decide (d < 10) then 48 + d else 87 + d.
(** ["\\u%04x"]. *)
Definition escape_u (v : Z) : list Z := str "\u" ++ [hex_digit (v / 4096 mod 16); hex_digit (v / 256 mod 16); hex_digit (v / 16 mod 16); hex_digit (v mod 16)].
(** The characters of a string between the quotes; two line separators are escaped. *)
Fixpoint dump_chars (s : list Z) : list Z :=
  match s with
  | [] => []
  | ch :: rest =>
      if decide (ch = 92) then str "\\" ++ dump_chars rest
      else if decide (ch = 34) then [92; 34] ++ dump_chars rest
      else if decide (ch = 8) then str "\b" ++ dump_chars rest
      else if decide (ch = 12) then str "\f" ++ dump_chars rest
      else if decide (ch = 10) then str "\n" ++ dump_chars rest
      else if decide (ch = 13) then str "\r" ++ dump_chars rest
      else if decide (ch = 9) then str "\t" ++ dump_chars rest
      else if decide (ch <= 0x1f) then escape_u ch ++ dump_chars rest
      else match rest with
           | 0x80 :: 0xa8 :: rest' => if decide (ch = 0xe2) then str "\u2028" ++ dump_chars rest' else ch :: dump_chars rest
           | 0x80 :: 0xa9 :: rest' => if decide (ch = 0xe2) then str "\u2029" ++ dump_chars rest' else ch :: dump_chars rest
           | _ => ch :: dump_chars rest
           end
  end.
Definition dump_string (s : list Z) : list Z := [34] ++ dump_chars s ++ [34].
Definition isfinite (x : double) : bool := match x with SpecFloat.S754_infinity _ | SpecFloat.S754_nan => false | _ => true end.
Fixpoint separated (l : list (list Z)) : list Z :=
  match l with [] => [] | [x] => x | x :: l => x ++ str ", " ++ separated l end.
Fixpoint dump (j : Json) : list Z :=
  match j with
  | JsonNull => str "null"
  | JsonDouble x => if isfinite x then snprintf_17g x else str "null"
  | JsonInt n => dump_int n
  | JsonBoolean b => if b then str "true" else str "false"
  | JsonString s => dump_string s
  | JsonArray l => str "[" ++ separated (map dump l) ++ str "]"
  | JsonObject m => str "{" ++ separated (map (fun p => dump_string p.1 ++ str ": " ++ dump p.2) m) ++ str "}"
  end.

(** ** Reading *)

Record parser := Parser { p_i : nat; failed : bool }.
Definition max_depth : nat := 200.

Section parser.
Context (input : list Z).
Abbreviation P := (M parser).

(** [fail(msg, err_ret)]: the message is not kept. *)
Definition fail {A} (err_ret : A) : P A := modify (fun p => Parser (p_i p) true) ;; mret err_ret.
(** [str[i]]: the terminator is a zero. *)
Definition char_at (i : nat) : P Z := if decide (i <= length input)%nat then mret (input.[i]) else abort.
Definition here : P Z := p ← get; char_at (p_i p).
Definition advance (n : nat) : P unit := modify (fun p => Parser (p_i p + n) (failed p)).
(** [i--] *)
Definition step_back : P unit := p ← get; if decide (p_i p = 0%nat) then abort else put (Parser (p_i p - 1) (failed p)).
Definition at_end : P bool := gets (fun p => bool_decide (p_i p = length input)).

(** Advance while the character satisfies [f]. *)
Fixpoint skip_while (fuel : nat) (f : Z -> bool) : P unit :=
  match fuel with
  | O => abort
  | S fuel => ch ← here; if f ch then advance 1 ;; skip_while fuel f else mret tt
  end.
Definition white (ch : Z) : bool := bool_decide (ch = 32) || bool_decide (ch = 13) || bool_decide (ch = 10) || bool_decide (ch = 9).
Definition consume_whitespace : P unit := skip_while (S (length input)) white.
Definition get_next_token : P Z :=
  consume_whitespace ;;
  p ← get;
  if failed p then mret 0 else
  ended ← at_end;
  if ended : bool then fail 0 else
  ch ← here;
  advance 1 ;;
  mret ch.
Definition encode_utf8 (pt : Z) (out : list Z) : list Z :=
  if decide (pt < 0) then out
  else if decide (pt < 0x80) then out ++ [u8 pt]
  else if decide (pt < 0x800) then out ++ [u8 (Z.lor (Z.shiftr pt 6) 0xC0); u8 (Z.lor (Z.land pt 0x3F) 0x80)]
  else if decide (pt < 0x10000) then out ++ [u8 (Z.lor (Z.shiftr pt 12) 0xE0); u8 (Z.lor (Z.land (Z.shiftr pt 6) 0x3F) 0x80); u8 (Z.lor (Z.land pt 0x3F) 0x80)]
  else out ++ [u8 (Z.lor (Z.shiftr pt 18) 0xF0); u8 (Z.lor (Z.land (Z.shiftr pt 12) 0x3F) 0x80); u8 (Z.lor (Z.land (Z.shiftr pt 6) 0x3F) 0x80); u8 (Z.lor (Z.land pt 0x3F) 0x80)].
Definition hex (c : Z) : bool := in_range c 97 102 || in_range c 65 70 || digit c.
Definition hex_value (c : Z) : Z := if in_range c 97 102 then c - 87 else if in_range c 65 70 then c - 55 else c - 48.
(** [strtol(esc, nullptr, 16)] *)
Definition strtol_16 (s : list Z) : Z := foldl (fun a c => a * 16 + hex_value c) 0 s.
(** The rest of a string; [last] is an escaped code point that is not yet written. *)
Fixpoint parse_chars (fuel : nat) (out : list Z) (last : Z) : P (list Z) :=
  match fuel with
  | O => abort
  | S fuel =>
      ended ← at_end;
      if ended : bool then fail [] else
      ch ← here; advance 1 ;;
      if decide (ch = 34) then mret (encode_utf8 last out)
      else if in_range ch 0 0x1f then fail []
      else if decide (ch <> 92) then parse_chars fuel (encode_utf8 last out ++ [ch]) (-1)
      else
        ended ← at_end;
        if ended : bool then fail [] else
        ch ← here; advance 1 ;;
        if decide (ch = 117) then
          esc ← gets (fun p => slice input (p_i p) 4);
          if decide (length esc < 4)%nat then fail []
          else if negb (forallb hex esc) then fail []
          else
            let codepoint := strtol_16 esc in
            advance 4 ;;
            if in_range last 0xD800 0xDBFF && in_range codepoint 0xDC00 0xDFFF
            then parse_chars fuel (encode_utf8 (Z.lor (Z.shiftl (last - 0xD800) 10) (codepoint - 0xDC00) + 0x10000) out) (-1)
            else parse_chars fuel (encode_utf8 last out) codepoint
        else
          let out := encode_utf8 last out in
          if decide (ch = 98) then parse_chars fuel (out ++ [8]) (-1)
          else if decide (ch = 102) then parse_chars fuel (out ++ [12]) (-1)
          else if decide (ch = 110) then parse_chars fuel (out ++ [10]) (-1)
          else if decide (ch = 114) then parse_chars fuel (out ++ [13]) (-1)
          else if decide (ch = 116) then parse_chars fuel (out ++ [9]) (-1)
          else if bool_decide (ch = 34) || bool_decide (ch = 92) || bool_decide (ch = 47) then parse_chars fuel (out ++ [ch]) (-1)
          else fail []
  end.
Definition parse_string : P (list Z) := parse_chars (S (length input)) [] (-1).

Definition skip_digits : P unit := skip_while (S (length input)) digit.
(** [false] after [fail]. *)
Definition integer_part : P bool :=
  ch ← here;
  if decide (ch = 48) then
    advance 1 ;; ch ← here; if digit ch then fail false else mret true
  else if in_range ch 49 57 then advance 1 ;; skip_digits ;; mret true
  else fail false.
Definition fraction_part : P bool :=
  ch ← here;
  if decide (ch = 46) then advance 1 ;; ch ← here; if digit ch then skip_digits ;; mret true else fail false else mret true.
Definition exponent_part : P bool :=
  ch ← here;
  if bool_decide (ch = 101) || bool_decide (ch = 69) then
    advance 1 ;;
    ch ← here; when (bool_decide (ch = 43) || bool_decide (ch = 45)) (advance 1) ;;
    ch ← here; if digit ch then skip_digits ;; mret true else fail false
  else mret true.
Definition skip_sign : P unit := ch ← here; when (bool_decide (ch = 45)) (advance 1).
Definition parse_number : P Json :=
  start ← get;
  let text := drop (p_i start) input in
  skip_sign ;;
  ok ← integer_part;
  if negb ok then mret JsonNull else
  ch ← here;
  p ← get;
  if negb (bool_decide (ch = 46)) && negb (bool_decide (ch = 101)) && negb (bool_decide (ch = 69)) && bool_decide (p_i p - p_i start <= 9)%nat
  then mret (JsonInt (atoi text)) else
  ok ← fraction_part;
  if negb ok then mret JsonNull else
  ok ← exponent_part;
  if negb ok then mret JsonNull else mret (JsonDouble (strtod text)).

Definition expect (expected : list Z) (res : Json) : P Json :=
  step_back ;;
  p ← get;
  if decide (slice input (p_i p) (length expected) = expected) then advance (length expected) ;; mret res else fail JsonNull.

(** What follows a value inside of brackets. *)
Fixpoint parse_json (fuel : nat) (depth : nat) : P Json :=
  match fuel with
  | O => abort
  | S fuel =>
      if decide (max_depth < depth)%nat then fail JsonNull else
      ch ← get_next_token;
      p ← get;
      if failed p then mret JsonNull
      else if bool_decide (ch = 45) || digit ch then step_back ;; parse_number
      else if decide (ch = 116) then expect (str "true") (JsonBoolean true)
      else if decide (ch = 102) then expect (str "false") (JsonBoolean false)
      else if decide (ch = 110) then expect (str "null") JsonNull
      else if decide (ch = 34) then s ← parse_string; mret (JsonString s)
      else if decide (ch = 123) then
        ch ← get_next_token;
        if decide (ch = 125) then mret (JsonObject []) else parse_members fuel depth ch []
      else if decide (ch = 91) then
        ch ← get_next_token;
        if decide (ch = 93) then mret (JsonArray []) else parse_elements fuel depth []
      else fail JsonNull
  end
(** The members of an object, the first character of the next being [ch]. *)
with parse_members (fuel : nat) (depth : nat) (ch : Z) (data : list (list Z * Json)) : P Json :=
  match fuel with
  | O => abort
  | S fuel =>
      if decide (ch <> 34) then fail JsonNull else
      key ← parse_string;
      p ← get;
      if failed p then mret JsonNull else
      ch ← get_next_token;
      if decide (ch <> 58) then fail JsonNull else
      value ← parse_json fuel (S depth);
      p ← get;
      if failed p then mret JsonNull else
      let data := map_assign key value data in
      ch ← get_next_token;
      if decide (ch = 125) then mret (JsonObject data)
      else if decide (ch <> 44) then fail JsonNull
      else ch ← get_next_token; parse_members fuel depth ch data
  end
with parse_elements (fuel : nat) (depth : nat) (data : list Json) : P Json :=
  match fuel with
  | O => abort
  | S fuel =>
      step_back ;;
      value ← parse_json fuel (S depth);
      p ← get;
      if failed p then mret JsonNull else
      let data := data ++ [value] in
      ch ← get_next_token;
      if decide (ch = 93) then mret (JsonArray data)
      else if decide (ch <> 44) then fail JsonNull
      else get_next_token ;; parse_elements fuel depth data
  end.
Definition parse_fuel : nat := (2 * length input + 3)%nat.
Definition parse_all : P Json :=
  result ← parse_json parse_fuel 0;
  consume_whitespace ;;
  p ← get;
  if failed p then mret JsonNull else
  ended ← at_end;
  if ended : bool then mret result else fail JsonNull.
End parser.
(** [Json::parse]: null when it fails. *)
Definition parse (input : list Z) : outcome Json := (parse_all input (Parser 0 false)).1.

(** ** Values that can be written and read

    Numbers are integers, and the keys of an object are in order. *)

Fixpoint json_ok (j : Json) : Prop :=
  match j with
  | JsonDouble _ => False
  | JsonInt n => -2147483648 <= n < 2147483648
  | JsonString s => wf_bytes s
  | JsonArray l => foldr (fun x P => json_ok x /\ P) True l
  | JsonObject m => StronglySorted before m /\ foldr (fun p P => (wf_bytes p.1 /\ json_ok p.2) /\ P) True m
  | _ => True
  end.
Fixpoint json_depth (j : Json) : nat :=
  match j with
  | JsonArray l => S (foldr (fun x n => json_depth x `max` n)%nat 0%nat l)
  | JsonObject m => S (foldr (fun p n => json_depth p.2 `max` n)%nat 0%nat m)
  | _ => 0%nat
  end.
(** An integer of more than nine characters is read as a double. *)
Definition int_as (n : Z) : Json := if decide (length (dump_int n) <= 9)%nat then JsonInt n else JsonDouble (of_Z n).
Fixpoint read_as (j : Json) : Json :=
  match j with
  | JsonInt n => int_as n
  | JsonArray l => JsonArray (map read_as l)
  | JsonObject m => JsonObject (map (fun p => (p.1, read_as p.2)) m)
  | j => j
  end.
(** The characters that end a number. *)
Definition ends_number (k : list Z) : Prop := ~ is_digit (hd 0 k) /\ hd 0 k <> 46 /\ hd 0 k <> 101 /\ hd 0 k <> 69.
Lemma foldr_and {A} (f : A -> Prop) l : foldr (fun x P => f x /\ P) True l <-> Forall f l.
Proof. induction l as [|x l IH]; cbn; [split; [constructor|done]|]. by rewrite Forall_cons, IH. Qed.
Lemma foldr_max_le {A} (f : A -> nat) l n : (foldr (fun x m => f x `max` m) 0 l <= n)%nat <-> Forall (fun x => (f x <= n)%nat) l.
Proof. induction l as [|x l IH]; cbn; [split; [constructor|lia]|]. rewrite Forall_cons, <- IH. lia. Qed.
(** Induction through the lists. *)
Lemma Json_nested (P : Json -> Prop) : P JsonNull -> (forall x, P (JsonDouble x)) -> (forall n, P (JsonInt n)) -> (forall b, P (JsonBoolean b)) -> (forall s, P (JsonString s)) ->
  (forall l, Forall P l -> P (JsonArray l)) -> (forall m, Forall (fun p => P p.2) m -> P (JsonObject m)) -> forall j, P j.
Proof.
  intros H1 H2 H3 H4 H5 H6 H7. fix IH 1. intros [|x|n|b|s|l|m]; [exact H1|apply H2|apply H3|apply H4|apply H5| |].
  - apply H6. induction l as [|j l IHl]; constructor; [apply IH|exact IHl].
  - apply H7. induction m as [|[k j] m IHm]; constructor; [apply IH|exact IHm].
Qed.

(** ** Reading what was written *)

Section reading.
Context (input : list Z).

(** The parser stands before [k]. *)
Definition pos (i : nat) (k : list Z) : Prop := (i <= length input)%nat /\ drop i input = k.
Lemma pos_app i l k : pos i (l ++ k) -> pos (i + length l) k.
Proof.
  intros [Hi E]. assert (length (drop i input) = length (l ++ k)) as El by by rewrite E. rewrite length_drop, length_app in El. split; [lia|].
  rewrite <- drop_drop, E. apply drop_app_length.
Qed.
Lemma pos_cons i c k : pos i (c :: k) -> pos (i + 1) k.
Proof. exact (pos_app i [c] k). Qed.
Lemma pos_lt i c k : pos i (c :: k) -> (i < length input)%nat.
Proof. intros [Hi E]. assert (length (drop i input) = S (length k)) as El by by rewrite E. rewrite length_drop in El. lia. Qed.
Lemma pos_back i c k : pos i (c :: k) -> forall f, step_back (Parser (i + 1) f) = (Value tt, Parser i f).
Proof. intros _ f. unfold step_back. erewrite run_bind by reflexivity. cbn [p_i]. rewrite decide_False by lia. by rewrite Nat.add_sub. Qed.
Lemma here_pos i k f : pos i k -> here input (Parser i f) = (Value (hd 0 k), Parser i f).
Proof.
  intros [Hi E]. unfold here. erewrite run_bind by reflexivity. unfold char_at. cbn [p_i]. rewrite decide_True by done. do 2 f_equal.
  rewrite <- (Nat.add_0_r i) at 1. rewrite <- ix_drop, E. by destruct k.
Qed.
Lemma at_end_pos i k f : pos i k -> at_end input (Parser i f) = (Value (bool_decide (k = [])), Parser i f).
Proof.
  intros [Hi E]. unfold at_end, gets. cbn [p_i]. f_equal. f_equal. apply bool_decide_ext. assert (length (drop i input) = length k) as El by by rewrite E. rewrite length_drop in El.
  split; [intros ->; apply nil_length_inv; lia|]. intros ->. cbn in El. lia.
Qed.
Lemma at_end_cons i c k f : pos i (c :: k) -> at_end input (Parser i f) = (Value false, Parser i f).
Proof. intros Hp. by rewrite (at_end_pos i (c :: k)). Qed.
Lemma here_cons i c k f : pos i (c :: k) -> here input (Parser i f) = (Value c, Parser i f).
Proof. apply here_pos. Qed.
Lemma skip_while_pos g l k f : Forall (fun c => g c = true) l -> g (hd 0 k) = false -> forall fuel i, pos i (l ++ k) -> (length l < fuel)%nat ->
  skip_while input fuel g (Parser i f) = (Value tt, Parser (i + length l) f).
Proof.
  intros Hl Hk. induction Hl as [|c l Hc _ IH]; intros [|fuel] i Hp Hf; cbn [length] in Hf; try lia; cbn [skip_while]; cbn [app] in Hp.
  - rewrite (run_bind _ _ _ _ _ (here_pos _ _ f Hp)), Hk. cbn [length]. by rewrite Nat.add_0_r.
  - rewrite (run_bind _ _ _ _ _ (here_cons _ _ _ f Hp)), Hc. erewrite run_bind by reflexivity. cbn [length]. rewrite IH by (lia || exact (pos_cons _ _ _ Hp)). cbn [p_i]. do 2 f_equal. lia.
Qed.
Lemma pos_length i k : pos i k -> (i + length k = length input)%nat.
Proof. intros [Hi E]. rewrite <- E, length_drop. lia. Qed.
Lemma consume_none i k f : pos i k -> white (hd 0 k) = false -> consume_whitespace input (Parser i f) = (Value tt, Parser i f).
Proof.
  intros Hp Hw. unfold consume_whitespace. rewrite (skip_while_pos white [] k) by (done || cbn; lia). by rewrite Nat.add_0_r.
Qed.
Lemma next_token i c k : pos i (c :: k) -> white c = false -> get_next_token input (Parser i false) = (Value c, Parser (i + 1) false).
Proof.
  intros Hp Hw. unfold get_next_token. rewrite (run_bind _ _ _ _ _ (consume_none i (c :: k) _ Hp Hw)). erewrite run_bind by reflexivity. cbn [failed].
  rewrite (run_bind _ _ _ _ _ (at_end_cons _ _ _ _ Hp)). rewrite (run_bind _ _ _ _ _ (here_cons _ _ _ _ Hp)). by erewrite run_bind by reflexivity.
Qed.
(** After a space. *)
Lemma next_token_space i c k : pos i (32 :: c :: k) -> white c = false -> get_next_token input (Parser i false) = (Value c, Parser (i + 2) false).
Proof.
  intros Hp Hw. unfold get_next_token. pose proof (pos_length _ _ Hp) as Hl. cbn [length] in Hl.
  erewrite run_bind by (unfold consume_whitespace; apply (skip_while_pos white [32] (c :: k)); [by repeat constructor|done|done|cbn; lia]). cbn [length].
  apply pos_cons in Hp. erewrite run_bind by reflexivity. cbn [failed].
  rewrite (run_bind _ _ _ _ _ (at_end_cons _ _ _ _ Hp)). rewrite (run_bind _ _ _ _ _ (here_cons _ _ _ _ Hp)). erewrite run_bind by reflexivity. unfold mret, M_ret. cbn [p_i failed]. do 2 f_equal. lia.
Qed.

(** *** Strings *)

Lemma chars_plain fuel out last i c k : pos i (c :: k) -> 0x1f < c -> c <> 34 -> c <> 92 ->
  parse_chars input (S fuel) out last (Parser i false) = parse_chars input fuel (encode_utf8 last out ++ [c]) (-1) (Parser (i + 1) false).
Proof.
  intros Hp H1 H2 H3. cbn [parse_chars]. rewrite (run_bind _ _ _ _ _ (at_end_cons _ _ _ _ Hp)). rewrite (run_bind _ _ _ _ _ (here_cons _ _ _ _ Hp)). erewrite run_bind by reflexivity.
  rewrite decide_False by done. assert (in_range c 0 0x1f = false) as -> by (apply bool_decide_eq_false_2; lia). by rewrite decide_True by done.
Qed.
Lemma chars_end fuel out last i k : pos i (34 :: k) -> parse_chars input (S fuel) out last (Parser i false) = (Value (encode_utf8 last out), Parser (i + 1) false).
Proof.
  intros Hp. cbn [parse_chars]. rewrite (run_bind _ _ _ _ _ (at_end_cons _ _ _ _ Hp)). rewrite (run_bind _ _ _ _ _ (here_cons _ _ _ _ Hp)). by erewrite run_bind by reflexivity.
Qed.
(** A backslash and a letter. *)
Definition escapes (e c : Z) : Prop := (e, c) ∈ [(98, 8); (102, 12); (110, 10); (114, 13); (116, 9); (34, 34); (92, 92)].
Lemma chars_escape fuel out last i e c k : pos i (92 :: e :: k) -> escapes e c ->
  parse_chars input (S fuel) out last (Parser i false) = parse_chars input fuel (encode_utf8 last out ++ [c]) (-1) (Parser (i + 2) false).
Proof.
  intros Hp He. cbn [parse_chars]. rewrite (run_bind _ _ _ _ _ (at_end_cons _ _ _ _ Hp)). rewrite (run_bind _ _ _ _ _ (here_cons _ _ _ _ Hp)). erewrite run_bind by reflexivity.
  apply pos_cons in Hp. cbn [p_i failed]. change (in_range 92 0 0x1f) with false. rewrite (decide_False (P := 92 = 34)), (decide_False (P := 92 <> 92)) by lia. rewrite (run_bind _ _ _ _ _ (at_end_cons _ _ _ _ Hp)). rewrite (run_bind _ _ _ _ _ (here_cons _ _ _ _ Hp)). erewrite run_bind by reflexivity.
  cbn [p_i failed]. rewrite <- Nat.add_assoc. unfold escapes in He. repeat (apply elem_of_cons in He as [[= -> ->]|He]; [reflexivity|]). by apply elem_of_nil in He.
Qed.
Lemma hex_digit_hex d : 0 <= d < 16 -> hex (hex_digit d) = true /\ hex_value (hex_digit d) = d.
Proof.
  intros Hd. assert (d ∈ seqZ 0 16) as Hin by (apply elem_of_seqZ; lia). change (seqZ 0 16) with [0;1;2;3;4;5;6;7;8;9;10;11;12;13;14;15] in Hin.
  repeat (apply elem_of_cons in Hin as [->|Hin]; [by vm_compute|]). by apply elem_of_nil in Hin.
Qed.
Lemma chars_u fuel out last i v k : pos i (escape_u v ++ k) -> 0 <= v < 0xD800 -> last < 0xD800 ->
  parse_chars input (S fuel) out last (Parser i false) = parse_chars input fuel (encode_utf8 last out) v (Parser (i + 6) false).
Proof.
  intros Hp Hv Hl. unfold escape_u in Hp. change (str "\u") with [92; 117] in Hp. cbn [app] in Hp. cbn [parse_chars].
  rewrite (run_bind _ _ _ _ _ (at_end_cons _ _ _ _ Hp)). rewrite (run_bind _ _ _ _ _ (here_cons _ _ _ _ Hp)). erewrite run_bind by reflexivity.
  apply pos_cons in Hp. cbn [p_i failed]. change (in_range 92 0 0x1f) with false. rewrite (decide_False (P := 92 = 34)), (decide_False (P := 92 <> 92)) by lia. rewrite (run_bind _ _ _ _ _ (at_end_cons _ _ _ _ Hp)). rewrite (run_bind _ _ _ _ _ (here_cons _ _ _ _ Hp)). erewrite run_bind by reflexivity.
  apply pos_cons in Hp. cbn [p_i failed]. rewrite <- Nat.add_assoc in *. cbn [Nat.add] in *. rewrite decide_True by done. erewrite run_bind by reflexivity. cbn [p_i].
  assert (slice input (i + 2) 4 = [hex_digit (v / 4096 mod 16); hex_digit (v / 256 mod 16); hex_digit (v / 16 mod 16); hex_digit (v mod 16)]) as -> by (unfold slice; by rewrite (proj2 Hp)).
  destruct (hex_digit_hex (v / 4096 mod 16) ltac:(lia)) as [X1 V1]. destruct (hex_digit_hex (v / 256 mod 16) ltac:(lia)) as [X2 V2].
  destruct (hex_digit_hex (v / 16 mod 16) ltac:(lia)) as [X3 V3]. destruct (hex_digit_hex (v mod 16) ltac:(lia)) as [X4 V4].
  cbn [length forallb]. rewrite decide_False by lia. rewrite X1, X2, X3, X4. cbn [andb negb]. erewrite run_bind by reflexivity. cbn [p_i failed].
  assert (in_range last 0xD800 0xDBFF = false) as -> by (apply bool_decide_eq_false_2; lia). cbn [andb]. rewrite <- Nat.add_assoc. do 2 f_equal.
  unfold strtol_16. cbn [foldl]. rewrite V1, V2, V3, V4. lia.
Qed.

Lemma encode_none out : encode_utf8 (-1) out = out.
Proof. done. Qed.
Lemma encode_ascii v out : 0 <= v < 0x80 -> encode_utf8 v out = out ++ [v].
Proof. intros Hv. unfold encode_utf8. rewrite decide_False, decide_True by lia. by rewrite u8_id by lia. Qed.
(** How a character, or a separator of three, is written. *)
Inductive char_dump : list Z -> list Z -> Prop :=
| dump_escape e c : escapes e c -> char_dump [c] [92; e]
| dump_control v : 0 <= v <= 0x1f -> char_dump [v] (escape_u v)
| dump_plain c : 0x1f < c -> c <> 34 -> c <> 92 -> char_dump [c] [c]
| dump_separator c : c = 0xa8 \/ c = 0xa9 -> char_dump [0xe2; 0x80; c] (escape_u (0x2000 + (c - 0x80))).
Lemma dump_chars_cons c s : 0 <= c -> exists a b t, c :: s = a ++ t /\ char_dump a b /\ dump_chars (c :: s) = b ++ dump_chars t.
Proof.
  intros Hc. cbn [dump_chars]. assert (forall e, escapes e c -> exists a b t, c :: s = a ++ t /\ char_dump a b /\ [92; e] ++ dump_chars s = b ++ dump_chars t) as Hesc
    by (intros e He; exists [c], [92; e], s; split; [done|]; split; [by apply dump_escape|done]).
  destruct (decide (c = 92)) as [->|H1]; [apply (Hesc 92); by repeat (left || right)|]. destruct (decide (c = 34)) as [->|H2]; [apply (Hesc 34); by repeat (left || right)|].
  destruct (decide (c = 8)) as [->|H3]; [apply (Hesc 98); by repeat (left || right)|]. destruct (decide (c = 12)) as [->|H4]; [apply (Hesc 102); by repeat (left || right)|].
  destruct (decide (c = 10)) as [->|H5]; [apply (Hesc 110); by repeat (left || right)|]. destruct (decide (c = 13)) as [->|H6]; [apply (Hesc 114); by repeat (left || right)|].
  destruct (decide (c = 9)) as [->|H7]; [apply (Hesc 116); by repeat (left || right)|]. destruct (decide (c <= 0x1f)) as [H8|H8].
  { exists [c], (escape_u c), s. split; [done|]. split; [by apply dump_control|done]. }
  assert (exists a b t, c :: s = a ++ t /\ char_dump a b /\ c :: dump_chars s = b ++ dump_chars t) as Hplain by (exists [c], [c], s; split; [done|]; split; [apply dump_plain; lia|done]).
  assert (forall x rest, s = 0x80 :: x :: rest -> x = 0xa8 \/ x = 0xa9 -> c = 0xe2 -> exists a b t, c :: s = a ++ t /\ char_dump a b /\ escape_u (0x2000 + (x - 0x80)) ++ dump_chars rest = b ++ dump_chars t) as Hsep.
  { intros x rest -> Hx ->. exists [0xe2; 0x80; x], (escape_u (0x2000 + (x - 0x80))), rest. split; [done|]. split; [by apply dump_separator|done]. }
  repeat (lazymatch goal with |- context [match ?x with _ => _ end] => destruct x eqn:? end; try exact Hplain); subst; first [exact (Hsep 0xa8 _ eq_refl (or_introl eq_refl) eq_refl)|exact (Hsep 0xa9 _ eq_refl (or_intror eq_refl) eq_refl)].
Qed.
(** What may be pending: a code point that is written in one to three bytes. *)
Lemma chars_dump a b fuel out last i k : char_dump a b -> pos i (b ++ k) -> last < 0xD800 -> exists out' last', last' < 0xD800 /\ encode_utf8 last' out' = encode_utf8 last out ++ a /\
  parse_chars input (S fuel) out last (Parser i false) = parse_chars input fuel out' last' (Parser (i + length b) false).
Proof.
  intros Hd Hp Hl. destruct Hd as [e c He|v Hv|c H1 H2 H3|c Hc]; cbn [app length] in Hp |- *.
  - exists (encode_utf8 last out ++ [c]), (-1). split; [done|]. split; [by rewrite encode_none|]. exact (chars_escape _ _ _ _ e c k Hp He).
  - exists (encode_utf8 last out), v. split; [lia|]. split; [by rewrite encode_ascii by lia|]. exact (chars_u _ _ _ _ v k Hp ltac:(lia) Hl).
  - exists (encode_utf8 last out ++ [c]), (-1). split; [done|]. split; [by rewrite encode_none|]. exact (chars_plain _ _ _ _ c k Hp H1 H2 H3).
  - exists (encode_utf8 last out), (0x2000 + (c - 0x80)). split; [lia|]. split; [destruct Hc as [-> | ->]; reflexivity|]. exact (chars_u _ _ _ _ _ k Hp ltac:(lia) Hl).
Qed.
Lemma char_dump_length a b : char_dump a b -> (0 < length a /\ 0 < length b)%nat.
Proof. intros []; cbn; lia. Qed.
Lemma parse_chars_reads n : forall s fuel out last i k, (length s <= n)%nat -> wf_bytes s -> pos i (dump_chars s ++ 34 :: k) -> (length (dump_chars s) < fuel)%nat -> last < 0xD800 ->
  parse_chars input fuel out last (Parser i false) = (Value (encode_utf8 last out ++ s), Parser (i + length (dump_chars s) + 1) false).
Proof.
  induction n as [|n IH]; intros [|c s] [|fuel] out last i k Hs Hw Hp Hf Hl; cbn [length] in Hs; try lia.
  1,2: cbn [dump_chars app length] in *; rewrite (chars_end _ _ _ _ _ Hp); rewrite app_nil_r, Nat.add_0_r; done.
  apply Forall_cons in Hw as Hw'. destruct Hw' as [Hc _]. destruct (dump_chars_cons c s ltac:(unfold is_byte in Hc; lia)) as (a & b & t & E & Hd & Ed). rewrite Ed in Hp, Hf |- *. rewrite E in *.
  rewrite <- app_assoc in Hp. destruct (chars_dump a b fuel out last i _ Hd Hp Hl) as (out' & last' & Hl' & Ee & ->). destruct (char_dump_length a b Hd) as [Ha Hb]. rewrite length_app in *.
  apply pos_app in Hp. assert (length a + length t = S (length s))%nat as El by (apply (f_equal length) in E; rewrite length_app in E; cbn in E; lia).
  rewrite (IH t fuel out' last' _ k); [|lia|by apply Forall_app in Hw as [_ Hw]|exact Hp|lia|done]. rewrite Ee, <- app_assoc. do 2 f_equal. lia.
Qed.
Lemma parse_string_reads s i k : wf_bytes s -> pos i (dump_chars s ++ 34 :: k) -> parse_string input (Parser i false) = (Value s, Parser (i + length (dump_chars s) + 1) false).
Proof.
  intros Hs Hp. unfold parse_string. pose proof (pos_length _ _ Hp) as Hl. rewrite length_app in Hl. by rewrite (parse_chars_reads (length s) s _ [] (-1) i k) by (done || lia).
Qed.

(** *** Numbers *)

Lemma digit_spec c : digit c = true <-> is_digit c.
Proof. unfold digit, in_range, is_digit. by rewrite bool_decide_eq_true. Qed.
Lemma digit_false c : digit c = false <-> ~ is_digit c.
Proof. rewrite <- digit_spec. by destruct (digit c). Qed.
Lemma digits_value_spec ds k : Forall is_digit ds -> ~ is_digit (hd 0 k) -> forall a, digits_value a (ds ++ k) = foldl (fun a c => a * 10 + (c - 48)) a ds.
Proof.
  intros Hds Hk. induction Hds as [|c ds Hc _ IH]; intros a; cbn [app].
  - destruct k as [|c k]; [done|]. cbn [digits_value]. apply digit_false in Hk. cbn in Hk. by rewrite Hk.
  - cbn [digits_value foldl]. apply digit_spec in Hc as ->. apply IH.
Qed.
(** The digits of a number. *)
Lemma dec_spec n : 0 <= n < 10 ^ 10 -> exists c ds, dec n = c :: ds /\ is_digit c /\ Forall is_digit ds /\ (c = 48 -> ds = []) /\ foldl (fun a c => a * 10 + (c - 48)) 0 (dec n) = n.
Proof.
  intros Hn. destruct (dec_digits_spec 10 n Hn) as [H1 H2]. destruct (dec_digits_head 10 n Hn ltac:(lia)) as (c & ds & E & Hc & H0). exists c, ds. fold (dec n) in *. rewrite E in H1. apply Forall_cons in H1 as [_ H1].
  split; [done|]. split; [done|]. split; [done|]. split; [|exact H2]. intros Ec. by destruct (H0 Ec).
Qed.
Lemma skip_digits_pos ds i k f : Forall is_digit ds -> ~ is_digit (hd 0 k) -> pos i (ds ++ k) -> skip_digits input (Parser i f) = (Value tt, Parser (i + length ds) f).
Proof.
  intros Hds Hk Hp. pose proof (pos_length _ _ Hp) as Hl. rewrite length_app in Hl. apply (skip_while_pos digit ds k); [|by apply digit_false|done|lia].
  eapply Forall_impl; [exact Hds|]. intros c. apply digit_spec.
Qed.
Lemma integer_part_pos c ds i k f : is_digit c -> Forall is_digit ds -> (c = 48 -> ds = []) -> ~ is_digit (hd 0 k) -> pos i (c :: ds ++ k) ->
  integer_part input (Parser i f) = (Value true, Parser (i + 1 + length ds) f).
Proof.
  intros Hc Hds H0 Hk Hp. unfold integer_part. rewrite (run_bind _ _ _ _ _ (here_cons _ _ _ f Hp)). apply pos_cons in Hp. case_decide as E.
  - rewrite (H0 E) in *. cbn [app length] in *. erewrite run_bind by reflexivity. cbn [p_i failed]. rewrite (run_bind _ _ _ _ _ (here_pos _ _ f Hp)). apply digit_false in Hk as ->. by rewrite Nat.add_0_r.
  - assert (in_range c 49 57 = true) as -> by (apply bool_decide_eq_true_2; unfold is_digit in Hc; lia). erewrite run_bind by reflexivity. cbn [p_i failed].
    by rewrite (run_bind _ _ _ _ _ (skip_digits_pos ds _ k f Hds Hk Hp)).
Qed.
Lemma atoi_positive c s : c <> 45 -> atoi (c :: s) = digits_value 0 (c :: s).
Proof. intros Hc. unfold atoi. repeat (lazymatch goal with |- context [match ?x with _ => _ end = _] => destruct x end; try reflexivity); lia. Qed.
Lemma dump_int_spec n : -2147483648 <= n < 2147483648 -> exists c ds, dump_int n = (if decide (n < 0) then [45] else []) ++ c :: ds /\ is_digit c /\ Forall is_digit ds /\ (c = 48 -> ds = []) /\
  foldl (fun a c => a * 10 + (c - 48)) 0 (c :: ds) = Z.abs n.
Proof.
  intros Hn. destruct (dec_spec (Z.abs n) ltac:(lia)) as (c & ds & E & H1 & H2 & H3 & H4). exists c, ds. rewrite E in H4. split; [|done].
  unfold dump_int. rewrite <- E. case_decide; [rewrite Z.abs_neq by lia|rewrite Z.abs_eq by lia]; reflexivity.
Qed.
Lemma atoi_dump_int n k : -2147483648 <= n < 2147483648 -> ~ is_digit (hd 0 k) -> atoi (dump_int n ++ k) = n.
Proof.
  intros Hn Hk. destruct (dump_int_spec n Hn) as (c & ds & -> & Hc & Hds & _ & Hv).
  assert (digits_value 0 (c :: ds ++ k) = Z.abs n) as Hdv by (rewrite <- Hv; apply (digits_value_spec (c :: ds)); [by constructor|done]).
  case_decide; cbn [app]; [unfold atoi; rewrite Hdv; lia|]. rewrite atoi_positive by (unfold is_digit in Hc; lia). rewrite Hdv. lia.
Qed.
Lemma span_digits_spec ds k : Forall is_digit ds -> ~ is_digit (hd 0 k) -> span_digits (ds ++ k) = (ds, k).
Proof.
  induction 1 as [|d ds Hd _ IH]; intros Hk; cbn [app span_digits]; [|by rewrite (proj2 (digit_spec d) Hd), IH]. destruct k as [|c k]; [done|]. cbn [span_digits]. by rewrite (proj2 (digit_false c) Hk).
Qed.
Lemma sign_of_digit c s : is_digit c -> sign_of (c :: s) = (false, c :: s).
Proof. intros Hc. unfold is_digit in Hc. unfold sign_of. repeat (lazymatch goal with |- context [match ?x with _ => _ end = _] => destruct x end; try reflexivity); lia. Qed.
Lemma strtod_int n k : -2147483648 <= n < 2147483648 -> ends_number k -> strtod (dump_int n ++ k) = of_Z n.
Proof.
  intros Hn (Hk & H1 & H2 & H3). destruct (dump_int_spec n Hn) as (c & ds & -> & Hc & Hds & _ & Hv). unfold strtod.
  assert (sign_of (((if decide (n < 0) then [45] else []) ++ c :: ds) ++ k) = (bool_decide (n < 0), (c :: ds) ++ k)) as ->.
  { case_decide; [by rewrite bool_decide_true|]. rewrite bool_decide_false by done. by apply sign_of_digit. }
  rewrite span_digits_spec by (done || by constructor).
  assert (match k with 46 :: s => span_digits s | _ => ([], k) end = ([], k)) as ->.
  { destruct k as [|x k]; [done|]. cbn in H1. repeat (lazymatch goal with |- match ?x with _ => _ end = _ => destruct x end; try reflexivity); lia. }
  assert (match k with c :: s => if bool_decide (c = 101) || bool_decide (c = 69) then let '(negative, s) := sign_of s in (if negative then -1 else 1) * digits_value 0 s else 0 | [] => 0 end = 0) as ->.
  { destruct k as [|x k]; [done|]. cbn in H2, H3. by rewrite !bool_decide_false. }
  rewrite (digits_value_spec (c :: ds) []) by ((unfold is_digit; cbn; lia) || by constructor). rewrite Hv. cbn [length]. unfold scale. case_decide as H0.
  - assert (n = 0) as -> by lia. done.
  - rewrite decide_True by lia. case_bool_decide; f_equal; lia.
Qed.
(** A number after its sign. *)
Lemma parse_number_reads n i k : -2147483648 <= n < 2147483648 -> ends_number k -> pos i (dump_int n ++ k) ->
  parse_number input (Parser i false) = (Value (int_as n), Parser (i + length (dump_int n)) false).
Proof.
  intros Hn Hk Hp. unfold parse_number. erewrite run_bind by reflexivity. cbn [p_i]. cbv zeta. rewrite (proj2 Hp).
  pose proof (strtod_int n k Hn Hk) as Hs. pose proof Hk as (Hk1 & Hk2 & Hk3 & Hk4).
  pose proof (atoi_dump_int n k Hn Hk1) as Ha. destruct (dump_int_spec n Hn) as (c & ds & En & Hc & Hds & H0 & _). set (sign := if decide (n < 0) then [45] else []) in *.
  assert (skip_sign input (Parser i false) = (Value tt, Parser (i + length sign) false)) as E1.
  { unfold skip_sign. rewrite (run_bind _ _ _ _ _ (here_pos _ _ false Hp)). rewrite En. unfold sign. case_decide; cbn [app hd length]; [done|].
    rewrite bool_decide_eq_false_2 by (unfold is_digit in Hc; lia). cbn. by rewrite Nat.add_0_r. }
  rewrite En, <- app_assoc in Hp. cbn [app] in Hp. pose proof (pos_app _ _ _ Hp) as Hp1. rewrite (run_bind _ _ _ _ _ E1).
  rewrite (run_bind _ _ _ _ _ (integer_part_pos c ds _ k false Hc Hds H0 Hk1 Hp1)). cbn [negb].
  assert (pos (i + length sign + 1 + length ds) k) as Hp2 by (apply pos_app; by apply pos_cons in Hp1).
  rewrite (run_bind _ _ _ _ _ (here_pos _ _ false Hp2)). erewrite run_bind by reflexivity. cbn [p_i]. rewrite !(bool_decide_eq_false_2 (hd 0 k = _)) by done. cbn [negb andb].
  assert (length (dump_int n) = length sign + 1 + length ds)%nat as El by (rewrite En, length_app; cbn; lia).
  replace (i + length sign + 1 + length ds - i)%nat with (length (dump_int n)) by lia. replace (i + length sign + 1 + length ds)%nat with (i + length (dump_int n))%nat in * by lia.
  unfold int_as. case_bool_decide as E9; [rewrite decide_True by done; by rewrite Ha|]. rewrite decide_False by done.
  rewrite (run_bind _ _ _ true (Parser (i + length (dump_int n)) false)); [|unfold fraction_part; rewrite (run_bind _ _ _ _ _ (here_pos _ _ false Hp2)); by rewrite decide_False]. cbn [negb].
  rewrite (run_bind _ _ _ true (Parser (i + length (dump_int n)) false)); [|unfold exponent_part; rewrite (run_bind _ _ _ _ _ (here_pos _ _ false Hp2)); by rewrite !(bool_decide_eq_false_2 (hd 0 k = _))]. cbn [negb].
  by rewrite Hs.
Qed.

(** *** Values *)

Lemma next_token_white i sp c k : Forall (fun c => white c = true) sp -> pos i (sp ++ c :: k) -> white c = false -> get_next_token input (Parser i false) = (Value c, Parser (i + length sp + 1) false).
Proof.
  intros Hsp Hp Hw. unfold get_next_token. pose proof (pos_length _ _ Hp) as Hl. rewrite length_app in Hl. cbn [length] in Hl.
  erewrite run_bind by (unfold consume_whitespace; apply (skip_while_pos white sp (c :: k)); [done|done|done|lia]).
  apply pos_app in Hp. erewrite run_bind by reflexivity. cbn [failed]. rewrite (run_bind _ _ _ _ _ (at_end_cons _ _ _ _ Hp)), (run_bind _ _ _ _ _ (here_cons _ _ _ _ Hp)). by erewrite run_bind by reflexivity.
Qed.
Lemma dump_head j : json_ok j -> exists c t, dump j = c :: t /\ white c = false /\ c <> 93.
Proof.
  destruct j as [|x|n|b|s|l|m]; intros Hj; try (cbn; eauto; done).
  - cbn [json_ok dump] in *. unfold dump_int. case_decide; [by eexists _, _|]. destruct (dec_spec n ltac:(lia)) as (c & ds & -> & Hc & _). exists c, ds. split; [done|].
    unfold is_digit in Hc. unfold white. rewrite !bool_decide_eq_false_2 by lia. split; [done|lia].
  - destruct b; by eexists _, _.
Qed.
Lemma expect_reads c text res i k f : pos i ((c :: text) ++ k) -> expect input (c :: text) res (Parser (i + 1) f) = (Value res, Parser (i + length (c :: text)) f).
Proof.
  intros Hp. unfold expect. rewrite (run_bind _ _ _ _ _ (pos_back i c (text ++ k) Hp f)). erewrite run_bind by reflexivity. cbn [p_i].
  assert (slice input i (length (c :: text)) = c :: text) as -> by (unfold slice; rewrite (proj2 Hp); apply take_app_length). by rewrite decide_True.
Qed.
Lemma assign_last {V} (k : list Z) (v : V) m : Forall (fun p => compare_bytes p.1 k = Lt) m -> map_assign k v m = m ++ [(k, v)].
Proof. induction 1 as [|[k' v'] m Hb _ IH]; [done|]. cbn [map_assign app]. cbn in Hb. apply compare_bytes_flip in Hb. by rewrite Hb, IH. Qed.

Definition reads_back (j : Json) : Prop := forall fuel depth i sp k, pos i (sp ++ dump j ++ k) -> Forall (fun c => white c = true) sp -> ends_number k -> (json_depth j + depth <= max_depth)%nat ->
  (length (dump j) <= fuel)%nat -> parse_json input fuel depth (Parser i false) = (Value (read_as j), Parser (i + length sp + length (dump j)) false).
Lemma ends_bracket c k : c = 44 \/ c = 93 \/ c = 125 -> ends_number (c :: k).
Proof. intros Hc. unfold ends_number, is_digit. cbn. lia. Qed.
Lemma separated_cons x y l : separated (x :: y :: l) = x ++ str ", " ++ separated (y :: l).
Proof. done. Qed.
Lemma parse_elements_reads l : Forall (fun j => json_ok j /\ reads_back j) l -> l <> [] -> forall fuel depth data i k, pos i (separated (map dump l) ++ 93 :: k) ->
  Forall (fun j => (json_depth j + S depth <= max_depth)%nat) l -> (length (separated (map dump l)) < fuel)%nat ->
  parse_elements input fuel depth data (Parser (i + 1) false) = (Value (JsonArray (data ++ map read_as l)), Parser (i + length (separated (map dump l)) + 1) false).
Proof.
  induction 1 as [|j l [Hj Hr] Hl IH]; [done|]. intros _ fuel depth data i k Hp Hd Hf. apply Forall_cons in Hd as [Hd1 Hd]. destruct fuel as [|fuel]; [lia|]. cbn [parse_elements].
  destruct (dump_head j Hj) as (c & t & Ec & Hw & _).
  assert (exists k', separated (map dump (j :: l)) ++ 93 :: k = dump j ++ k' /\ ends_number k' /\ (length (dump j) <= fuel)%nat /\ match l with [] => k' = 93 :: k | _ => k' = 44 :: 32 :: separated (map dump l) ++ 93 :: k end) as (k' & Ek & Hk & Hfj & Hl').
  { destruct l as [|j' l]; cbn [map] in *.
    - exists (93 :: k). split; [done|]. split; [by apply ends_bracket; auto|]. split; [cbn [separated] in Hf; lia|done].
    - rewrite separated_cons in *. exists (44 :: 32 :: separated (dump j' :: map dump l) ++ 93 :: k). rewrite <- app_assoc. split; [done|]. split; [by apply ends_bracket; auto|]. split; [rewrite length_app in Hf; lia|done]. }
  rewrite Ek in Hp. assert (pos i (c :: t ++ k')) as Hp0 by by rewrite Ec in Hp. rewrite (run_bind _ _ _ _ _ (pos_back _ _ _ Hp0 _)).
  pose proof (Hr fuel (S depth) i [] k' Hp ltac:(constructor) Hk Hd1 Hfj) as E. cbn [length] in E. rewrite Nat.add_0_r in E. rewrite (run_bind _ _ _ _ _ E). erewrite run_bind by reflexivity. cbn [failed].
  apply pos_app in Hp. destruct l as [|j' l].
  - subst k'. rewrite (run_bind _ _ _ _ _ (next_token _ _ _ Hp eq_refl)). by rewrite decide_True.
  - subst k'. rewrite (run_bind _ _ _ _ _ (next_token _ _ _ Hp eq_refl)). rewrite decide_False by lia. rewrite decide_False by lia.
    apply pos_cons in Hp. destruct (dump_head j' ltac:(by apply Forall_cons in Hl as [[? _] _])) as (c' & t' & Ec' & Hw' & _).
    assert (exists t'', separated (map dump (j' :: l)) ++ 93 :: k = c' :: t'') as [t'' Es] by (cbn [map]; destruct (map dump l); cbn [separated]; rewrite Ec'; by eexists).
    assert (pos (i + length (dump j) + 1) ([32] ++ c' :: t'')) as Hp' by (rewrite <- Es; exact Hp). rewrite (run_bind _ _ _ _ _ (next_token_white _ [32] _ _ ltac:(by repeat constructor) Hp' Hw')).
    apply (pos_app _ [32]) in Hp. cbn [length] in Hp |- *. rewrite (IH ltac:(done) fuel depth (data ++ [read_as j]) _ k Hp Hd).
    + cbn [map]. rewrite separated_cons, !length_app, <- app_assoc. cbn [app length]. do 3 f_equal. change (length (str ", ")) with 2%nat. lia.
    + cbn [map] in *. rewrite separated_cons, !length_app in Hf. change (length (str ", ")) with 2%nat in Hf. lia.
Qed.
Definition dump_member (p : list Z * Json) : list Z := dump_string p.1 ++ str ": " ++ dump p.2.
Lemma parse_members_reads m : Forall (fun p => (wf_bytes p.1 /\ json_ok p.2) /\ reads_back p.2) m -> m <> [] -> forall fuel depth data i k, pos i (separated (map dump_member m) ++ 125 :: k) ->
  StronglySorted before (data ++ map (fun p => (p.1, read_as p.2)) m) ->
  Forall (fun p => (json_depth p.2 + S depth <= max_depth)%nat) m -> (length (separated (map dump_member m)) < fuel)%nat ->
  parse_members input fuel depth 34 data (Parser (i + 1) false) = (Value (JsonObject (data ++ map (fun p => (p.1, read_as p.2)) m)), Parser (i + length (separated (map dump_member m)) + 1) false).
Proof.
  induction 1 as [|[key j] m [[Hkey Hj] Hr] Hm IH]; [done|]. intros _ fuel depth data i k Hp Hs Hd Hf. apply Forall_cons in Hd as [Hd1 Hd]. destruct fuel as [|fuel]; [lia|]. cbn [parse_members fst snd] in *.
  rewrite decide_False by lia.
  assert (exists k', separated (map dump_member ((key, j) :: m)) ++ 125 :: k = dump_member (key, j) ++ k' /\ ends_number k' /\ (length (dump_member (key, j)) <= fuel)%nat /\
    match m with [] => k' = 125 :: k | _ => k' = 44 :: 32 :: separated (map dump_member m) ++ 125 :: k end) as (k' & Ek & Hk & Hfj & Hm').
  { destruct m as [|p m]; cbn [map] in *.
    - exists (125 :: k). split; [done|]. split; [by apply ends_bracket; auto|]. split; [cbn [separated] in Hf; lia|done].
    - rewrite separated_cons in *. exists (44 :: 32 :: separated (dump_member p :: map dump_member m) ++ 125 :: k). rewrite <- app_assoc. split; [done|]. split; [by apply ends_bracket; auto|]. split; [rewrite length_app in Hf; lia|done]. }
  rewrite Ek in Hp. unfold dump_member, dump_string in Hp, Hfj. cbn [fst snd] in Hp, Hfj. rewrite !length_app in Hfj. change (length (str ": ")) with 2%nat in Hfj. cbn [length] in Hfj.
  assert (pos i (34 :: dump_chars key ++ 34 :: 58 :: [32] ++ dump j ++ k')) as Hp0 by (rewrite <- !app_assoc in Hp; exact Hp). apply pos_cons in Hp0.
  rewrite (run_bind _ _ _ _ _ (parse_string_reads _ _ _ Hkey Hp0)). erewrite run_bind by reflexivity. cbn [failed]. apply pos_app, pos_cons in Hp0.
  rewrite (run_bind _ _ _ _ _ (next_token _ _ _ Hp0 eq_refl)). rewrite decide_False by lia. apply pos_cons in Hp0.
  pose proof (Hr fuel (S depth) _ [32] k' Hp0 ltac:(by repeat constructor) Hk Hd1 ltac:(lia)) as E. rewrite (run_bind _ _ _ _ _ E). erewrite run_bind by reflexivity. cbn [failed]. cbv zeta.
  apply (pos_app _ [32]), pos_app in Hp0.
  match type of Hp0 with pos ?x _ => assert (x = i + length (dump_member (key, j)))%nat as Ei end.
  { unfold dump_member, dump_string. cbn [fst snd]. rewrite !length_app. change (length (str ": ")) with 2%nat. cbn [length]. lia. }
  rewrite Ei in Hp0 |- *. clear Ei.
  rewrite assign_last. 2: { clear -Hs. cbn [map fst snd] in Hs. induction data as [|p data IHd]; [constructor|]. cbn [app] in Hs. apply StronglySorted_inv in Hs as [Hs Hp]. constructor; [|by apply IHd].
    rewrite Forall_app, Forall_cons in Hp. apply Hp. }
  cbn [map fst snd] in Hs. replace (data ++ (key, read_as j) :: map (fun p => (p.1, read_as p.2)) m) with ((data ++ [(key, read_as j)]) ++ map (fun p => (p.1, read_as p.2)) m) in Hs by by rewrite <- app_assoc.
  destruct m as [|p m].
  - subst k'. rewrite (run_bind _ _ _ _ _ (next_token _ _ _ Hp0 eq_refl)). by rewrite decide_True.
  - subst k'. rewrite (run_bind _ _ _ _ _ (next_token _ _ _ Hp0 eq_refl)). rewrite decide_False by lia. rewrite decide_False by lia.
    apply pos_cons in Hp0. assert (exists t'', separated (map dump_member (p :: m)) ++ 125 :: k = 34 :: t'') as [t'' Es] by (cbn [map]; destruct (map dump_member m); cbn [separated]; by eexists).
    assert (pos (i + length (dump_member (key, j)) + 1) ([32] ++ 34 :: t'')) as Hp' by (rewrite <- Es; exact Hp0). rewrite (run_bind _ _ _ _ _ (next_token_white _ [32] _ _ ltac:(by repeat constructor) Hp' eq_refl)).
    apply (pos_app _ [32]) in Hp0. cbn [length] in Hp0 |- *. rewrite (IH ltac:(done) fuel depth _ _ k Hp0 Hs Hd).
    + cbn [map]. rewrite separated_cons, !length_app, <- app_assoc. cbn [app fst snd]. do 3 f_equal. change (length (str ", ")) with 2%nat. lia.
    + cbn [map] in *. rewrite separated_cons, !length_app in Hf. change (length (str ", ")) with 2%nat in Hf. lia.
Qed.
Lemma parse_json_S fuel depth : parse_json input (S fuel) depth = (
      if decide (max_depth < depth)%nat then fail JsonNull else
      ch ← get_next_token input;
      p ← get;
      if failed p then mret JsonNull
      else if bool_decide (ch = 45) || digit ch then step_back ;; parse_number input
      else if decide (ch = 116) then expect input (str "true") (JsonBoolean true)
      else if decide (ch = 102) then expect input (str "false") (JsonBoolean false)
      else if decide (ch = 110) then expect input (str "null") JsonNull
      else if decide (ch = 34) then s ← parse_string input; mret (JsonString s)
      else if decide (ch = 123) then
        ch ← get_next_token input;
        if decide (ch = 125) then mret (JsonObject []) else parse_members input fuel depth ch []
      else if decide (ch = 91) then
        ch ← get_next_token input;
        if decide (ch = 93) then mret (JsonArray []) else parse_elements input fuel depth []
      else fail JsonNull).
Proof. reflexivity. Qed.
Lemma sorted_read_as (m : list (list Z * Json)) : StronglySorted before m -> StronglySorted before (map (fun p => (p.1, read_as p.2)) m).
Proof. induction 1 as [|p m Hs IH Hp]; [constructor|]. cbn [map]. constructor; [done|]. by apply Forall_fmap. Qed.
Lemma parse_json_reads j : json_ok j -> reads_back j.
Proof.
  induction j as [|x|n|b|s|l IH|m IH] using Json_nested; intros Hj fuel depth i sp k Hp Hsp Hk Hd Hf; destruct fuel as [|fuel]; try (exfalso; destruct (dump_head _ Hj) as (c & t & E & _); rewrite E in Hf; cbn in Hf; lia);
    cbn [json_ok dump read_as json_depth] in *; try done; rewrite parse_json_S, decide_False by lia.
  - rewrite (run_bind _ _ _ _ _ (next_token_white i sp _ _ Hsp Hp eq_refl)). erewrite run_bind by reflexivity. cbn [failed]. apply pos_app in Hp. exact (expect_reads 110 (str "ull") JsonNull _ k false Hp).
  - destruct (dump_head (JsonInt n) Hj) as (c & t & Ec & Hw & _). cbn [dump] in Ec. assert (pos i (sp ++ c :: t ++ k)) as Hp0 by by rewrite Ec in Hp.
    rewrite (run_bind _ _ _ _ _ (next_token_white i sp _ _ Hsp Hp0 Hw)). erewrite run_bind by reflexivity. cbn [failed]. apply pos_app in Hp, Hp0.
    assert (bool_decide (c = 45) || digit c = true) as ->.
    { revert Ec. unfold dump_int. case_decide; [by intros [= <- <-]|]. destruct (dec_spec n ltac:(lia)) as (c0 & ds & -> & Hc & _). intros [= <- <-]. apply digit_spec in Hc as ->. apply orb_true_r. }
    rewrite (run_bind _ _ _ _ _ (pos_back _ _ _ Hp0 _)). exact (parse_number_reads n _ k Hj Hk Hp).
  - destruct b.
    + rewrite (run_bind _ _ _ _ _ (next_token_white i sp _ _ Hsp Hp eq_refl)). erewrite run_bind by reflexivity. cbn [failed]. apply pos_app in Hp. exact (expect_reads 116 (str "rue") (JsonBoolean true) _ k false Hp).
    + rewrite (run_bind _ _ _ _ _ (next_token_white i sp _ _ Hsp Hp eq_refl)). erewrite run_bind by reflexivity. cbn [failed]. apply pos_app in Hp. exact (expect_reads 102 (str "alse") (JsonBoolean false) _ k false Hp).
  - unfold dump_string in *. assert (pos i (sp ++ 34 :: dump_chars s ++ 34 :: k)) as Hp0 by (rewrite <- !app_assoc in Hp; exact Hp).
    rewrite (run_bind _ _ _ _ _ (next_token_white i sp _ _ Hsp Hp0 eq_refl)). erewrite run_bind by reflexivity. cbn [failed]. apply pos_app, pos_cons in Hp0. cbn [bool_decide orb].
    assert (bool_decide (34 = 45) || digit 34 = false) as -> by done. rewrite !(decide_False (P := 34 = _)) by lia. rewrite decide_True by done. rewrite (run_bind _ _ _ _ _ (parse_string_reads _ _ _ Hj Hp0)).
    unfold mret, M_ret. do 2 f_equal. rewrite !length_app. cbn [length]. lia.
  - assert (pos i (sp ++ 91 :: separated (map dump l) ++ 93 :: k)) as Hp0 by (rewrite <- !app_assoc in Hp; exact Hp). rewrite !length_app in Hf |- *. cbn [length] in Hf |- *.
    change (length (str "[")) with 1%nat in *. change (length (str "]")) with 1%nat in *.
    rewrite (run_bind _ _ _ _ _ (next_token_white i sp _ _ Hsp Hp0 eq_refl)). erewrite run_bind by reflexivity. cbn [failed]. apply pos_app in Hp0. apply pos_cons in Hp0 as Hp1.
    assert (bool_decide (91 = 45) || digit 91 = false) as -> by done. rewrite !(decide_False (P := 91 = _)) by lia. rewrite decide_True by done.
    apply foldr_and in Hj. assert (Forall (fun j => json_ok j /\ reads_back j) l) as Hl by (rewrite Forall_forall in IH, Hj; apply Forall_forall; intros j Hin; split; [by apply Hj|by apply IH, Hj]).
    assert (Forall (fun j => (json_depth j + S depth <= max_depth)%nat) l) as Hdl.
    { assert (foldr (fun x n => json_depth x `max` n)%nat 0%nat l <= max_depth - S depth)%nat as Hle by lia. apply foldr_max_le in Hle. eapply Forall_impl; [exact Hle|]. intros ? ?. cbv beta in *. lia. }
    destruct l as [|j l].
    + cbn [map separated app length] in *. rewrite (run_bind _ _ _ _ _ (next_token _ _ _ Hp1 eq_refl)). rewrite decide_True by done. unfold mret, M_ret. do 2 f_equal. lia.
    + assert (exists c t, separated (map dump (j :: l)) ++ 93 :: k = c :: t /\ white c = false /\ c <> 93) as (c & t & Es & Hw & Hc).
      { destruct (dump_head j ltac:(by apply Forall_cons in Hj as [? _])) as (c & t & Ec & Hw & Hc). cbn [map]. destruct (map dump l); cbn [separated]; rewrite Ec; cbn [app]; by eexists _, _. }
      assert (pos (i + length sp + 1) (c :: t)) as Hp2 by (rewrite <- Es; exact Hp1). rewrite (run_bind _ _ _ _ _ (next_token _ _ _ Hp2 Hw)). rewrite decide_False by done.
      rewrite (parse_elements_reads (j :: l) Hl ltac:(done) fuel depth [] _ k Hp1 Hdl) by lia. cbn [app]. do 2 f_equal. lia.
  - fold dump_member in *. assert (pos i (sp ++ 123 :: separated (map dump_member m) ++ 125 :: k)) as Hp0 by (rewrite <- !app_assoc in Hp; exact Hp). rewrite !length_app in Hf |- *. cbn [length] in Hf |- *.
    change (length (str "{")) with 1%nat in *. change (length (str "}")) with 1%nat in *. change (fun p : list Z * Json => dump_string p.1 ++ str ": " ++ dump p.2) with dump_member in *.
    rewrite (run_bind _ _ _ _ _ (next_token_white i sp _ _ Hsp Hp0 eq_refl)). erewrite run_bind by reflexivity. cbn [failed]. apply pos_app in Hp0. apply pos_cons in Hp0 as Hp1.
    assert (bool_decide (123 = 45) || digit 123 = false) as -> by done. rewrite !(decide_False (P := 123 = _)) by lia. rewrite decide_True by done.
    destruct Hj as [Hs Hj]. apply foldr_and in Hj. assert (Forall (fun p => (wf_bytes p.1 /\ json_ok p.2) /\ reads_back p.2) m) as Hl by (rewrite Forall_forall in IH, Hj; apply Forall_forall; intros p Hin; split; [by apply Hj|by apply IH, Hj]).
    assert (Forall (fun p => (json_depth p.2 + S depth <= max_depth)%nat) m) as Hdl.
    { assert (foldr (fun p n => json_depth p.2 `max` n)%nat 0%nat m <= max_depth - S depth)%nat as Hle by lia. apply (foldr_max_le (fun p => json_depth p.2)) in Hle. eapply Forall_impl; [exact Hle|]. intros ? ?. cbv beta in *. lia. }
    destruct m as [|p m].
    + cbn [map separated app length] in *. rewrite (run_bind _ _ _ _ _ (next_token _ _ _ Hp1 eq_refl)). rewrite decide_True by done. unfold mret, M_ret. do 2 f_equal. lia.
    + assert (exists t, separated (map dump_member (p :: m)) ++ 125 :: k = 34 :: t) as (t & Es) by (cbn [map]; destruct (map dump_member m); cbn [separated]; by eexists).
      assert (pos (i + length sp + 1) (34 :: t)) as Hp2 by (rewrite <- Es; exact Hp1). rewrite (run_bind _ _ _ _ _ (next_token _ _ _ Hp2 eq_refl)). rewrite decide_False by lia.
      rewrite (parse_members_reads (p :: m) Hl ltac:(done) fuel depth [] _ k Hp1) by (done || lia || (cbn [app]; by apply sorted_read_as)). cbn [app]. do 2 f_equal. lia.
Qed.
Lemma parse_all_reads j : input = dump j -> json_ok j -> (json_depth j <= max_depth)%nat -> parse_all input (Parser 0 false) = (Value (read_as j), Parser (length input) false).
Proof.
  intros Ei Hj Hd. unfold parse_all. assert (pos 0 ([] ++ dump j ++ [])) as Hp by (split; [lia|]; cbn [app]; rewrite app_nil_r; exact Ei).
  assert (ends_number []) as Hk by (unfold ends_number, is_digit; cbn; lia).
  pose proof (parse_json_reads j Hj (parse_fuel input) 0%nat 0%nat [] [] Hp ltac:(constructor) Hk ltac:(lia) ltac:(unfold parse_fuel; rewrite Ei; lia)) as E. rewrite (run_bind _ _ _ _ _ E). cbn [length Nat.add]. rewrite <- Ei.
  assert (pos (length input) []) as Hp' by (split; [done|by rewrite drop_all]). rewrite (run_bind _ _ _ _ _ (consume_none _ _ _ Hp' eq_refl)). erewrite run_bind by reflexivity. cbn [failed].
  by rewrite (run_bind _ _ _ _ _ (at_end_pos _ _ _ Hp')).
Qed.
End reading.

(** ** Arbitrary input

    The parser stays within its input and its terminator, and comes to an end. *)

Section arbitrary.
Context (input : list Z).
Abbreviation n := (length input).

Definition from (lo : nat) (p : parser) : Prop := (lo <= p_i p <= n)%nat.
Abbreviation never := (fun _ : parser => False).
(** Whatever it does, it goes forward; [moved] unless it fails. *)
Definition moved (lo : nat) (p : parser) : Prop := from lo p /\ (failed p = false -> from (S lo) p).
Lemma from_mono lo lo' p : (lo' <= lo)%nat -> from lo p -> from lo' p.
Proof. unfold from. lia. Qed.
Lemma moved_fail {A} lo (a : A) : triple (from lo) (fail a) (fun b p => b = a /\ failed p = true /\ moved lo p) never.
Proof. intros p Hp. cbn. split; [done|]. split; [done|]. by split. Qed.
Lemma fail_moved {A} lo (a : A) : triple (from lo) (fail a) (fun _ => moved lo) never.
Proof. intros p Hp. by split. Qed.
Lemma advance_from lo k : triple (fun p => (lo <= p_i p + k <= n)%nat) (advance k) (fun _ => from lo) never.
Proof. intros p Hp. exact Hp. Qed.
Lemma step_back_from lo : triple (from (S lo)) step_back (fun _ => from lo) never.
Proof. intros p Hp. unfold from in *. unfold step_back. erewrite run_bind by reflexivity. rewrite decide_False by lia. cbn. lia. Qed.
(** The current character is the terminator exactly at the end. *)
Lemma here_from p : (p_i p <= n)%nat -> here input p = (Value (input.[p_i p]), p).
Proof. intros Hp. unfold here. erewrite run_bind by reflexivity. unfold char_at. by rewrite decide_True. Qed.
Lemma char_inside i : input.[i] <> 0 -> (i < n)%nat.
Proof. intros Hc. destruct (decide (i < n)%nat) as [|Hge]; [done|]. destruct Hc. unfold ix. apply nth_overflow. lia. Qed.
Lemma skip_while_from g : g 0 = false -> forall fuel lo p, from lo p -> (n - p_i p < fuel)%nat -> exists p', skip_while input fuel g p = (Value tt, p') /\ (p_i p <= p_i p' <= n)%nat /\ failed p' = failed p.
Proof.
  intros Hg. induction fuel as [|fuel IH]; intros lo p Hp Hf; [lia|]. cbn [skip_while]. rewrite (run_bind _ _ _ _ _ (here_from p (proj2 Hp))). destruct (g (input.[p_i p])) eqn:E; [|exists p; split; [reflexivity|]; split; [split; [lia|apply Hp]|done]].
  assert (p_i p < n)%nat as Hlt by (apply char_inside; intros E0; rewrite E0 in E; congruence). erewrite run_bind by reflexivity. destruct (IH lo (Parser (p_i p + 1) (failed p))) as (p' & E1 & H1 & H2); [unfold from in *; cbn; lia|cbn; lia|].
  exists p'. split; [exact E1|]. cbn in H1, H2. split; [lia|done].
Qed.
Lemma skip_from g lo : g 0 = false -> triple (from lo) (skip_while input (S n) g) (fun _ => from lo) never.
Proof. intros Hg p Hp. destruct (skip_while_from g Hg (S n) lo p Hp ltac:(lia)) as (p' & -> & H1 & _). unfold from in *. lia. Qed.
Lemma get_next_token_from lo : triple (from lo) (get_next_token input) (fun ch p => failed p = true /\ ch = 0 /\ from lo p \/ failed p = false /\ from (S lo) p) never.
Proof.
  intros p Hp. unfold get_next_token. destruct (skip_while_from white eq_refl (S n) lo p Hp ltac:(lia)) as (p1 & E & H1 & H2). rewrite (run_bind _ _ _ _ _ E). erewrite run_bind by reflexivity.
  assert (from lo p1) as Hp1 by (unfold from in *; lia). destruct (failed p1) eqn:Ef; [left; by auto|]. erewrite run_bind by reflexivity. case_bool_decide as En; [left; by auto|].
  rewrite (run_bind _ _ _ _ _ (here_from p1 (proj2 Hp1))). erewrite run_bind by reflexivity. right. split; [exact Ef|]. unfold from in *. cbn. lia.
Qed.
Lemma parse_chars_from fuel : forall lo out last p, from lo p -> (n - p_i p < fuel)%nat -> match parse_chars input fuel out last p with (Value _, p') => moved lo p' | _ => False end.
Proof.
  induction fuel as [|fuel IH]; intros lo out last p Hp Hf; [lia|]. cbn [parse_chars]. erewrite run_bind by reflexivity. case_bool_decide as En; [by apply fail_moved|]. pose proof Hp as [Hp1 Hp2].
  rewrite (run_bind _ _ _ _ _ (here_from p Hp2)). erewrite run_bind by reflexivity. set (p1 := Parser (p_i p + 1) (failed p)). assert (from (S lo) p1) as Hq by (unfold from; cbn; lia).
  assert (forall p', moved (S lo) p' -> moved lo p') as Hm by (intros p' [M1 M2]; split; [by apply (from_mono (S lo)); [lia|]|intros _; exact M1]).
  assert (forall out last p', from (S lo) p' -> (p_i p1 <= p_i p')%nat -> match parse_chars input fuel out last p' with (Value _, p') => moved lo p' | _ => False end) as IH'.
  { intros o l p' Hp' Hle. specialize (IH (S lo) o l p' Hp' ltac:(cbn in Hle; unfold from in *; lia)). destruct (parse_chars input fuel o l p') as [[?| |] ?]; try done. by apply Hm. }
  assert (forall {A} (a : A), match fail a p1 with (Value _, p') => moved lo p' | _ => False end) as Hfail by (intros A a; apply (fail_moved lo a p1); by apply (from_mono (S lo)); [lia|]).
  case_decide; [split; [by apply (from_mono (S lo)); [lia|]|done]|]. destruct (in_range _ _ _); [apply Hfail|]. case_decide; [by apply IH'|].
  erewrite run_bind by reflexivity. case_bool_decide as En2; [apply Hfail|]. rewrite (run_bind _ _ _ _ _ (here_from p1 (proj2 Hq))). erewrite run_bind by reflexivity. set (p2 := Parser (p_i p1 + 1) (failed p1)).
  assert (from (S lo) p2) as Hq2 by (unfold from in *; cbn in *; lia). assert (p_i p1 <= p_i p2)%nat as Hle2 by (cbn; lia).
  assert (forall {A} (a : A), match fail a p2 with (Value _, p') => moved lo p' | _ => False end) as Hfail2 by (intros A a; apply (fail_moved lo a p2); by apply (from_mono (S lo)); [lia|]).
  case_decide.
  - erewrite run_bind by reflexivity. cbv zeta. case_decide as E4; [apply Hfail2|]. destruct (negb _); [apply Hfail2|]. erewrite run_bind by reflexivity.
    assert (p_i p2 + 4 <= n)%nat as Hlen by (unfold slice in E4; rewrite length_take, length_drop in E4; lia). set (p3 := Parser (p_i p2 + 4) (failed p2)). assert (from (S lo) p3) by (unfold from in *; cbn in *; lia).
    assert (p_i p1 <= p_i p3)%nat by (cbn; lia). destruct (_ && _); by apply IH'.
  - cbv zeta. repeat (case_decide; [by apply IH'|]). destruct (_ || _); [by apply IH'|apply Hfail2].
Qed.
Lemma parse_string_from lo : triple (from lo) (parse_string input) (fun _ => moved lo) never.
Proof. intros p Hp. apply parse_chars_from; [done|]. destruct Hp. lia. Qed.
Lemma here_triple {B} lo (f : Z -> M parser B) Q : triple (fun p => from lo p /\ input.[p_i p] = 0) (f 0) Q never ->
  (forall ch, ch <> 0 -> triple (fun p => from lo p /\ (p_i p < n)%nat) (f ch) Q never) -> triple (from lo) (here input ≫= f) Q never.
Proof.
  intros H0 Hch p Hp. rewrite (run_bind _ _ _ _ _ (here_from p (proj2 Hp))). destruct (decide (input.[p_i p] = 0)) as [E|E]; [rewrite E; by apply H0|].
  apply Hch; [done|]. split; [done|by apply char_inside].
Qed.
Lemma advance_triple {B} lo (f : unit -> M parser B) Q : triple (from (S lo)) (f tt) Q never -> triple (fun p => from lo p /\ (p_i p < n)%nat) (advance 1 ≫= f) Q never.
Proof. intros Hf p [Hp Hlt]. erewrite run_bind by reflexivity. apply Hf. unfold from in *. cbn. lia. Qed.
Lemma triple_pre {S A} (P P' : S -> Prop) (m : M S A) Q L : (forall s, P' s -> P s) -> triple P m Q L -> triple P' m Q L.
Proof. intros HP Hm s Hs. by apply Hm, HP. Qed.
Lemma weaken_from {A} lo lo' (m : M parser A) Q : (lo <= lo')%nat -> triple (from lo) m Q never -> triple (from lo') m Q never.
Proof. intros Hle Hm p Hp. by apply Hm, (from_mono lo'). Qed.
Definition parsed (lo : nat) (ok : bool) (p : parser) : Prop := from lo p /\ (ok = false -> failed p = true).
Lemma parsed_fail lo lo' : (lo <= lo')%nat -> triple (from lo') (fail false) (parsed lo) never.
Proof. intros Hle p Hp. split; [by apply (from_mono lo')|done]. Qed.
Lemma skip_digits_parsed lo lo' : (lo <= lo')%nat -> triple (from lo') (skip_digits input ;; mret true) (parsed lo) never.
Proof. intros Hle. eapply triple_bind; [by apply skip_from|]. intros _ p Hp. split; [by apply (from_mono lo')|done]. Qed.
Lemma digits_parsed lo lo' : (lo <= lo')%nat -> triple (from lo') (ch ← here input; if digit ch then skip_digits input ;; mret true else fail false) (parsed lo) never.
Proof.
  intros Hle. apply here_triple.
  - intros p [Hp _]. by apply (parsed_fail lo lo').
  - intros ch _ p [Hp _]. destruct (digit ch); [by apply (skip_digits_parsed lo lo')|by apply (parsed_fail lo lo')].
Qed.
Lemma integer_part_from lo : triple (from lo) (integer_part input) (fun ok p => parsed lo ok p /\ (ok = true -> from (S lo) p)) never.
Proof.
  assert (triple (from lo) (fail false) (fun ok p => parsed lo ok p /\ (ok = true -> from (S lo) p)) never) as Hfail by by intros p Hp.
  unfold integer_part. apply here_triple; [intros p [Hp _]; by apply Hfail|]. intros ch _. case_decide.
  - apply advance_triple. apply here_triple; [intros p [Hp _]; split; [split; [by apply (from_mono (S lo)); [lia|]|done]|done]|].
    intros c _ p [Hp _]. destruct (digit c); (split; [split; [by apply (from_mono (S lo)); [lia|]|done]|done]).
  - destruct (in_range ch 49 57); [|intros p [Hp _]; by apply Hfail]. apply advance_triple. eapply triple_bind; [by apply skip_from|].
    intros _ p Hp. split; [split; [by apply (from_mono (S lo)); [lia|]|done]|done].
Qed.
Lemma fraction_part_from lo : triple (from lo) (fraction_part input) (parsed lo) never.
Proof.
  unfold fraction_part. apply here_triple; [intros p [Hp _]; by split|]. intros ch _. case_decide; [apply advance_triple, digits_parsed; lia|]. intros p [Hp _]. by split.
Qed.
Lemma exponent_part_from lo : triple (from lo) (exponent_part input) (parsed lo) never.
Proof.
  unfold exponent_part. apply here_triple; [intros p [Hp _]; by split|]. intros ch _. destruct (_ || _); [|intros p [Hp _]; by split]. apply advance_triple. apply here_triple.
  - intros p [Hp _]. apply (digits_parsed lo (S lo)); [lia|done].
  - intros c _. destruct (_ || _); cbn [when]; [apply advance_triple, digits_parsed; lia|]. intros p [Hp _]. apply (digits_parsed lo (S lo)); [lia|done].
Qed.
Lemma skip_sign_from lo : triple (from lo) (skip_sign input) (fun _ => from lo) never.
Proof.
  unfold skip_sign. apply here_triple; [by intros p [Hp _]|]. intros ch _. case_bool_decide; cbn [when]; [|by intros p [Hp _]]. intros p [Hp Hlt]. unfold from in *. cbn. lia.
Qed.
Lemma parse_number_from lo : triple (from lo) (parse_number input) (fun _ => moved lo) never.
Proof.
  unfold parse_number. apply triple_bind_get. intros start _. cbv zeta. eapply triple_bind; [apply skip_sign_from|]. intros []. eapply triple_bind; [apply integer_part_from|].
  intros [|]; cbn [negb]; [|intros p [[Hp Hf] _]; split; [done|by rewrite (Hf eq_refl)]]. apply (triple_pre (from (S lo))); [intros p [_ Hp]; exact (Hp eq_refl)|].
  assert (forall p, from (S lo) p -> moved lo p) as Hm by (intros p Hp; split; [by apply (from_mono (S lo)); [lia|]|done]).
  apply here_triple; [|intros ch _]; (apply (triple_pre (from (S lo))); [by intros p [Hp _]|]); apply triple_bind_get; intros p1 _; destruct (_ && _); try (intros p Hp; by apply Hm).
  all: eapply triple_bind; [apply fraction_part_from|]; intros [|]; cbn [negb]; [|intros p [Hp Hf]; split; [by apply (from_mono (S lo)); [lia|]|by rewrite (Hf eq_refl)]].
  all: apply (triple_pre (from (S lo))); [by intros p [Hp _]|]; eapply triple_bind; [apply exponent_part_from|]; intros [|]; cbn [negb]; intros p [Hp Hf]; [by apply Hm|split; [by apply (from_mono (S lo)); [lia|]|by rewrite (Hf eq_refl)]].
Qed.
Lemma expect_from c text res lo : triple (from (S lo)) (expect input (c :: text) res) (fun _ => moved lo) never.
Proof.
  intros p Hp. unfold from in Hp. unfold expect. set (q := Parser (p_i p - 1) (failed p)).
  assert (step_back p = (Value tt, q)) as E by (unfold step_back; erewrite run_bind by reflexivity; by rewrite decide_False by lia). rewrite (run_bind _ _ _ _ _ E). erewrite run_bind by reflexivity. unfold q. cbn [p_i]. clear E q. case_decide as Et.
  - assert (p_i p - 1 + length (c :: text) <= n)%nat as Hl by (apply (f_equal length) in Et; unfold slice in Et; rewrite length_take, length_drop in Et; lia).
    split; [unfold from; cbn in *; lia|]. intros _. unfold from. cbn in *. lia.
  - split; [unfold from; cbn in *; lia|done].
Qed.

Lemma parse_json_failed fuel depth lo p : from lo p -> failed p = true -> exists p', parse_json input (S fuel) depth p = (Value JsonNull, p') /\ from lo p' /\ failed p' = true.
Proof.
  intros Hp Hf. rewrite parse_json_S. case_decide; [exists (Parser (p_i p) true); done|].
  destruct (skip_while_from white eq_refl (S n) lo p Hp ltac:(lia)) as (p1 & E & H1 & H2). exists p1.
  assert (get_next_token input p = (Value 0, p1)) as Et by (unfold get_next_token; rewrite (run_bind _ _ _ _ _ E); erewrite run_bind by reflexivity; by rewrite H2, Hf).
  rewrite (run_bind _ _ _ _ _ Et). erewrite run_bind by reflexivity. rewrite H2, Hf. split; [done|]. split; [unfold from in *; lia|done].
Qed.
Lemma parse_members_S fuel depth data : parse_members input (S fuel) depth 34 data = (
  key ← parse_string input;
  p ← get;
  if failed p then mret JsonNull else
  ch ← get_next_token input;
  if decide (ch <> 58) then fail JsonNull else
  value ← parse_json input fuel (S depth);
  p ← get;
  if failed p then mret JsonNull else
  let data := map_assign key value data in
  ch ← get_next_token input;
  if decide (ch = 125) then mret (JsonObject data)
  else if decide (ch <> 44) then fail JsonNull
  else ch ← get_next_token input; parse_members input fuel depth ch data).
Proof. reflexivity. Qed.
Lemma parse_elements_S fuel depth data : parse_elements input (S fuel) depth data = (
  step_back ;;
  value ← parse_json input fuel (S depth);
  p ← get;
  if failed p then mret JsonNull else
  let data := data ++ [value] in
  ch ← get_next_token input;
  if decide (ch = 93) then mret (JsonArray data)
  else if decide (ch <> 44) then fail JsonNull
  else get_next_token input ;; parse_elements input fuel depth data).
Proof. reflexivity. Qed.
Lemma parse_members_other fuel depth ch data : ch <> 34 -> parse_members input (S fuel) depth ch data = fail JsonNull.
Proof. intros Hc. cbn [parse_members]. by rewrite decide_True. Qed.
(** A step that may fail, and what follows when it does not. *)
Lemma moved_then {A B} lo (m : M parser A) (f : A -> M parser B) (b : B) : triple (from lo) m (fun _ => moved lo) never ->
  (forall a, triple (from (S lo)) (f a) (fun _ => moved lo) never) -> triple (from lo) (a ← m; p ← get; if failed p then mret b else f a) (fun _ => moved lo) never.
Proof.
  intros Hm Hf. eapply triple_bind; [exact Hm|]. intros a p [Hp Hp']. erewrite run_bind by reflexivity. destruct (failed p) eqn:E; [split; [done|by rewrite E]|]. by apply Hf, Hp'.
Qed.
Lemma token_then {B} lo (f : Z -> M parser B) : triple (fun p => failed p = true /\ from lo p) (f 0) (fun _ => moved lo) never ->
  (forall ch, triple (from (S lo)) (f ch) (fun _ => moved lo) never) -> triple (from lo) (get_next_token input ≫= f) (fun _ => moved lo) never.
Proof. intros H0 Hf. eapply triple_bind; [apply get_next_token_from|]. intros ch p [(Hp & -> & Hl)|[_ Hp]]; [by apply H0|by apply Hf]. Qed.
Lemma moved_mono lo lo' p : (lo' <= lo)%nat -> moved lo p -> moved lo' p.
Proof. intros Hle [H1 H2]. split; [by apply (from_mono lo)|]. intros Hf. apply (from_mono (S lo)); [lia|by apply H2]. Qed.
Lemma moved_from lo p : from (S lo) p -> moved lo p.
Proof. intros Hp. split; [by apply (from_mono (S lo)); [lia|]|done]. Qed.
(** An element after a token that failed. *)
Lemma parse_elements_failed fuel depth data lo : triple (fun p => failed p = true /\ from (S lo) p) (parse_elements input (S (S fuel)) depth data) (fun _ => moved lo) never.
Proof.
  intros p [Hf Hp]. rewrite parse_elements_S. assert (step_back p = (Value tt, Parser (p_i p - 1) (failed p))) as E.
  { unfold step_back. erewrite run_bind by reflexivity. destruct Hp as [Hp _]. by rewrite decide_False by lia. }
  rewrite (run_bind _ _ _ _ _ E). destruct (parse_json_failed fuel (S depth) lo (Parser (p_i p - 1) (failed p))) as (p' & E' & Hp' & Hf'); [unfold from in *; cbn; lia|done|].
  rewrite (run_bind _ _ _ _ _ E'). erewrite run_bind by reflexivity. rewrite Hf'. split; [done|by rewrite Hf'].
Qed.
Lemma with_room {A} lo (m : M parser A) Q : ((lo < n)%nat -> triple (from (S lo)) m Q never) -> triple (from (S lo)) m Q never.
Proof. intros Hm p Hp. apply Hm; [unfold from in Hp; lia|done]. Qed.
Lemma moved_weaken {A} lo lo' (m : M parser A) : (lo <= lo')%nat -> triple (from lo') m (fun _ => moved lo') never -> triple (from lo') m (fun _ => moved lo) never.
Proof. intros Hle Hm. eapply triple_weaken; [exact Hm|done| |done]. intros ? p. by apply moved_mono. Qed.
Lemma ret_moved {A} lo (a : A) : triple (from (S lo)) (mret a) (fun _ => moved lo) never.
Proof. intros p Hp. by apply moved_from. Qed.
Lemma token_moved lo : triple (from lo) (get_next_token input) (fun _ => moved lo) never.
Proof. eapply triple_weaken; [apply get_next_token_from|done| |done]. intros ch p [(Hf & _ & Hp)|[_ Hp]]; [split; [done|by rewrite Hf]|by apply moved_from]. Qed.
Lemma parse_from fuel :
  (forall lo depth, (2 * (n - lo) + 1 <= fuel)%nat -> triple (from lo) (parse_json input fuel depth) (fun _ => moved lo) never) /\
  (forall lo depth data, (2 * (n - lo) + 2 <= fuel)%nat -> triple (from lo) (parse_members input fuel depth 34 data) (fun _ => moved lo) never) /\
  (forall lo depth data, (2 * (n - lo) + 2 <= fuel)%nat -> triple (from (S lo)) (parse_elements input fuel depth data) (fun _ => moved lo) never).
Proof.
  induction fuel as [|fuel (IHj & IHm & IHe)]; (split; [|split]); try (intros; lia).
  - intros lo depth Hf. rewrite parse_json_S. case_decide; [apply fail_moved|]. apply (moved_then lo (get_next_token input)); [apply token_moved|]. intros ch.
    apply with_room. intros Hroom. destruct fuel as [|[|fuel]]; [lia|lia|].
    destruct (_ || _); [eapply triple_bind; [apply step_back_from|]; intros []; apply parse_number_from|]. case_decide; [apply expect_from|]. case_decide; [apply expect_from|]. case_decide; [apply expect_from|].
    case_decide; [eapply triple_bind; [apply parse_string_from|]; intros s p Hp; by apply (moved_mono (S lo)); [lia|]|].
    case_decide; [|case_decide; [|apply (triple_pre (from lo)); [intros p; apply from_mono; lia|apply fail_moved]]].
    + apply (moved_weaken lo (S lo)); [lia|]. apply token_then.
      * rewrite decide_False, parse_members_other by done. intros p [_ Hp]. by apply fail_moved.
      * intros c. case_decide; [apply ret_moved|]. destruct (decide (c = 34)) as [->|Hc]; [|rewrite parse_members_other by done; apply (triple_pre (from (S lo))); [intros p; apply from_mono; lia|apply fail_moved]].
        apply (moved_weaken (S lo) (S (S lo))); [lia|]. apply IHm. lia.
    + eapply triple_bind; [apply get_next_token_from|]. intros c p [(Hp & -> & Hl)|[_ Hp]].
      * rewrite decide_False by done. by apply parse_elements_failed.
      * case_decide; [apply moved_from; by apply (from_mono (S (S lo))); [lia|]|]. revert p Hp. change (triple (from (S (S lo))) (parse_elements input (S (S fuel)) depth []) (fun _ => moved lo) never).
        eapply triple_weaken; [apply (IHe (S lo)); lia|done| |done]. intros ? p. apply moved_mono. lia.
  - intros lo depth data Hf. rewrite parse_members_S. apply (moved_then lo (parse_string input)); [apply parse_string_from|]. intros key. apply with_room. intros Hroom. destruct fuel as [|fuel]; [lia|].
    apply (moved_weaken lo (S lo)); [lia|]. apply token_then; [rewrite decide_True by done; intros p [_ Hp]; by apply fail_moved|]. intros c.
    case_decide; [apply (triple_pre (from (S lo))); [intros p; apply from_mono; lia|apply fail_moved]|]. apply (moved_weaken (S lo) (S (S lo))); [lia|]. apply (moved_then (S (S lo)) (parse_json input (S fuel) (S depth))); [apply IHj; lia|]. intros value. cbv zeta.
    apply (moved_weaken (S (S lo)) (S (S (S lo)))); [lia|]. apply token_then; [rewrite decide_False, decide_True by done; intros p [_ Hp]; by apply fail_moved|]. intros c'. case_decide; [apply ret_moved|].
    case_decide; [apply (triple_pre (from (S (S (S lo))))); [intros p; apply from_mono; lia|apply fail_moved]|]. apply (moved_weaken (S (S (S lo))) (S (S (S (S lo))))); [lia|].
    apply token_then; [rewrite parse_members_other by done; intros p [_ Hp]; by apply fail_moved|]. intros c2. destruct (decide (c2 = 34)) as [->|Hc]; [|rewrite parse_members_other by done; apply (triple_pre (from (S (S (S (S lo)))))); [intros p; apply from_mono; lia|apply fail_moved]].
    apply (moved_weaken _ (S (S (S (S (S lo)))))); [lia|]. apply IHm. lia.
  - intros lo depth data Hf. rewrite parse_elements_S. apply with_room. intros Hroom. destruct fuel as [|[|fuel]]; [lia|lia|]. eapply triple_bind; [apply step_back_from|]. intros [].
    apply (moved_then lo (parse_json input (S (S fuel)) (S depth))); [apply IHj; lia|]. intros value. cbv zeta. apply (moved_weaken lo (S lo)); [lia|].
    apply token_then; [rewrite decide_False, decide_True by done; intros p [_ Hp]; by apply fail_moved|]. intros c. case_decide; [apply ret_moved|].
    case_decide; [apply (triple_pre (from (S lo))); [intros p; apply from_mono; lia|apply fail_moved]|]. eapply triple_bind; [apply get_next_token_from|]. intros c' p [(Hp & -> & Hl)|[_ Hp]].
    + by apply parse_elements_failed.
    + revert p Hp. change (triple (from (S (S (S lo)))) (parse_elements input (S (S fuel)) depth (data ++ [value])) (fun _ => moved (S lo)) never).
      eapply triple_weaken; [apply (IHe (S (S lo))); lia|done| |done]. intros ? p. apply moved_mono. lia.
Qed.
Lemma parse_all_returns : exists j, (parse_all input (Parser 0 false)).1 = Value j.
Proof.
  assert (triple (from 0) (parse_all input) (fun _ _ => True) never) as T.
  { unfold parse_all. eapply triple_bind; [apply parse_from; unfold parse_fuel; lia|]. intros j. apply (triple_pre (from 0)); [by intros p [Hp _]|]. eapply triple_bind; [by apply skip_from|]. intros [].
    apply triple_bind_get. intros p _. destruct (failed p); [done|]. intros q Hq. erewrite run_bind by reflexivity. by case_bool_decide. }
  specialize (T (Parser 0 false) ltac:(unfold from; cbn; lia)). destruct (parse_all _ _) as [[j| |] p]; [by exists j|done|done].
Qed.
End arbitrary.
(** C39: what [dump] writes of a value without doubles, of at most 200 levels, [parse] reads
    back; only an integer of more than nine characters comes back as a double. *)
Theorem json_roundtrip (j : Json) (Hj : json_ok j) (Hd : (json_depth j <= max_depth)%nat) : parse (dump j) = Value (read_as j).
Proof. unfold parse. by rewrite (parse_all_reads (dump j) j). Qed.

(** C40: the parser reads nothing outside of its input and returns on every input. *)
Theorem parse_returns (input : list Z) : exists j, parse input = Value j.
Proof. exact (parse_all_returns input). Qed.

Definition demo_json : Json := JsonObject [(str "a", JsonArray [JsonInt 12; JsonInt (-2147483648); JsonNull; JsonBoolean true]); (str "b", JsonString (str "say \hi\" ++ [34; 10; 0xe2; 0x80; 0xa8; 1]))].
Lemma json_roundtrip_witness : parse (dump demo_json) =
  Value (JsonObject [(str "a", JsonArray [JsonInt 12; JsonDouble (of_Z (-2147483648)); JsonNull; JsonBoolean true]); (str "b", JsonString (str "say \hi\" ++ [34; 10; 0xe2; 0x80; 0xa8; 1]))]).
Proof.
  apply (json_roundtrip demo_json); [|vm_compute; lia]. split; [repeat constructor|]. split; [|split; [|exact I]]; (split; [apply str_wf|]).
  - vm_compute. repeat split; discriminate.
  - apply Forall_app. split; [apply str_wf|]. repeat (apply Forall_cons; split; [unfold is_byte; lia|]). constructor.
Defined.
