(* ===== verification/TgSignaling.v ===== *)
(** * Calls: signalling in JSON

    [src/thirdparty/TgVoipWebrtcIOS6/src/tgcalls/v2/Signaling.cpp] and [Signaling.h], over
    the values of [Json]. A function that returns [nullopt] throws; what C++ leaves
    undefined aborts: a double converted to an integer type that does not hold it, and the
    use of the iterator past the end. *)

From stdpp Require Import sorting.
From S2P Require Import Prelude Exn Double Json.

#[export] Instance outcome_ret : MRet outcome := fun A => Value.
#[export] Instance outcome_bind : MBind outcome := fun A B f m => match m with Value a => f a | Thrown => Thrown | Aborted => Aborted end.

(** ** The messages *)

Record DtlsFingerprint := Fingerprint { hash : list Z; setup : list Z; fingerprint : list Z }.
Record ConnectionAddress := Address { ip : list Z; port : Z }.
Record IceCandidate := Candidate { sdpString : list Z }.
Record SsrcGroup := Group { ssrcs : list Z; semantics : list Z }.
Record FeedbackType := Feedback { fb_type : list Z; fb_subtype : list Z }.
Record PayloadType := Payload { pt_id : Z; pt_name : list Z; pt_clockrate : Z; pt_channels : Z; feedbackTypes : list FeedbackType; pt_parameters : list (list Z * list Z) }.
Record RtpExtension := Extension { uri : list Z; ext_id : Z }.
Inductive MediaType := Audio | Video.
Record MediaContent := Content { mc_type : MediaType; mc_ssrc : Z; ssrcGroups : list SsrcGroup; payloadTypes : list PayloadType; rtpExtensions : list RtpExtension }.
Record InitialSetupMessage := InitialSetup { ufrag : list Z; pwd : list Z; supportsRenomination : bool; fingerprints : list DtlsFingerprint }.
Record NegotiateChannelsMessage := NegotiateChannels { exchangeId : Z; contents : list MediaContent }.
Record CandidatesMessage := Candidates { iceCandidates : list IceCandidate }.
Inductive VideoState := Inactive | Suspended | Active.
Inductive VideoRotation := Rotation0 | Rotation90 | Rotation180 | Rotation270.
Record MediaStateMessage := MediaState { isMuted : bool; videoState : VideoState; videoRotation : VideoRotation; screencastState : VideoState; isBatteryLow : bool }.
Inductive Message :=
| InitialSetupData (m : InitialSetupMessage)
| NegotiateChannelsData (m : NegotiateChannelsMessage)
| CandidatesData (m : CandidatesMessage)
| MediaStateData (m : MediaStateMessage).

(** ** Writing *)

Abbreviation object := (list (list Z * Json)).
(** Insertion of the pairs one after the other, into an empty object. *)
Definition inserted {V} (l : list (list Z * V)) : list (list Z * V) := foldl (fun m p => TgMessage.insert_param p.1 p.2 m) [] l.
Definition uint32ToString (value : Z) : list Z := dec value.
Definition SsrcGroup_serialize (g : SsrcGroup) : object :=
  inserted [(str "semantics", JsonString (semantics g)); (str "ssrcs", JsonArray (map (fun ssrc => JsonString (uint32ToString ssrc)) (ssrcs g)))].
Definition FeedbackType_serialize (f : FeedbackType) : object :=
  inserted [(str "type", JsonString (fb_type f)); (str "subtype", JsonString (fb_subtype f))].
Definition RtpExtension_serialize (e : RtpExtension) : object :=
  inserted [(str "id", JsonInt (ext_id e)); (str "uri", JsonString (uri e))].
Definition PayloadType_serialize (p : PayloadType) : object :=
  inserted [(str "id", JsonInt (i32 (pt_id p))); (str "name", JsonString (pt_name p)); (str "clockrate", JsonInt (i32 (pt_clockrate p))); (str "channels", JsonInt (i32 (pt_channels p)));
    (str "feedbackTypes", JsonArray (map (fun f => JsonObject (FeedbackType_serialize f)) (feedbackTypes p)));
    (str "parameters", JsonObject (inserted (map (fun q => (q.1, JsonString q.2)) (pt_parameters p))))].
Definition media_type_name (t : MediaType) : list Z := match t with Audio => str "audio" | Video => str "video" end.
(** An empty list of groups or payload types is left out. *)
Definition unless_empty {A} (key : list Z) (f : A -> object) (l : list A) : list (list Z * Json) :=
  if decide (length l = 0%nat) then [] else [(key, JsonArray (map (fun x => JsonObject (f x)) l))].
Definition MediaContent_serialize (c : MediaContent) : object :=
  inserted ([(str "type", JsonString (media_type_name (mc_type c))); (str "ssrc", JsonString (uint32ToString (mc_ssrc c)))] ++
    unless_empty (str "ssrcGroups") SsrcGroup_serialize (ssrcGroups c) ++ unless_empty (str "payloadTypes") PayloadType_serialize (payloadTypes c) ++
    [(str "rtpExtensions", JsonArray (map (fun e => JsonObject (RtpExtension_serialize e)) (rtpExtensions c)))]).
Definition fingerprint_serialize (f : DtlsFingerprint) : object :=
  inserted [(str "hash", JsonString (hash f)); (str "setup", JsonString (setup f)); (str "fingerprint", JsonString (fingerprint f))].
Definition ConnectionAddress_serialize (a : ConnectionAddress) : object := inserted [(str "ip", JsonString (ip a)); (str "port", JsonInt (port a))].
Definition video_state_name (v : VideoState) : list Z := match v with Inactive => str "inactive" | Suspended => str "suspended" | Active => str "active" end.
Definition rotation_value (r : VideoRotation) : Z := match r with Rotation0 => 0 | Rotation90 => 90 | Rotation180 => 180 | Rotation270 => 270 end.
Definition InitialSetupMessage_object (m : InitialSetupMessage) : object :=
  inserted [(str "@type", JsonString (str "InitialSetup")); (str "ufrag", JsonString (ufrag m)); (str "pwd", JsonString (pwd m)); (str "renomination", JsonBoolean (supportsRenomination m));
    (str "fingerprints", JsonArray (map (fun f => JsonObject (fingerprint_serialize f)) (fingerprints m)))].
Definition NegotiateChannelsMessage_object (m : NegotiateChannelsMessage) : object :=
  inserted [(str "@type", JsonString (str "NegotiateChannels")); (str "exchangeId", JsonString (uint32ToString (exchangeId m)));
    (str "contents", JsonArray (map (fun c => JsonObject (MediaContent_serialize c)) (contents m)))].
Definition CandidatesMessage_object (m : CandidatesMessage) : object :=
  inserted [(str "@type", JsonString (str "Candidates")); (str "candidates", JsonArray (map (fun c => JsonObject (inserted [(str "sdpString", JsonString (sdpString c))])) (iceCandidates m)))].
Definition MediaStateMessage_object (m : MediaStateMessage) : object :=
  inserted [(str "@type", JsonString (str "MediaState")); (str "muted", JsonBoolean (isMuted m)); (str "lowBattery", JsonBoolean (isBatteryLow m));
    (str "videoState", JsonString (video_state_name (videoState m))); (str "videoRotation", JsonInt (rotation_value (videoRotation m)));
    (str "screencastState", JsonString (video_state_name (screencastState m)))].
Definition Message_object (m : Message) : object :=
  match m with
  | InitialSetupData m => InitialSetupMessage_object m
  | CandidatesData m => CandidatesMessage_object m
  | MediaStateData m => MediaStateMessage_object m
  | NegotiateChannelsData m => NegotiateChannelsMessage_object m
  end.
Definition Message_serialize (m : Message) : list Z := dump (JsonObject (Message_object m)).

(** ** Reading *)

(** An unsigned number read from a stream: after white space and a sign, as many digits as
    there are; the largest value when there are too many. *)
Definition isspace (c : Z) : bool := bool_decide (c = 32) || in_range c 9 13.
Fixpoint skip_spaces (s : list Z) : list Z := match s with c :: s' => if isspace c then skip_spaces s' else s | [] => [] end.
Definition stringToUInt32 (s : list Z) : Z :=
  let s := skip_spaces s in
  let sign := hd 0 s in
  let value := digits_value 0 (if bool_decide (sign = 45) || bool_decide (sign = 43) then tail s else s) in
  if decide (0xFFFFFFFF < value) then 0xFFFFFFFF else if decide (sign = 45) then u32 (- value) else value.
(** The conversions of a double; the fraction is dropped. *)
Definition cast_in (lower upper : Z) (x : double) : outcome Z := if isfinite x && in_range (to_Z x) lower upper then Value (to_Z x) else Aborted.
Definition uint32_value (j : Json) : outcome Z := cast_in 0 0xFFFFFFFF (number_value j).
Definition int_value (j : Json) : outcome Z := match j with JsonInt n => Value n | JsonDouble x => cast_in (-2147483648) 2147483647 x | _ => Value 0 end.

Definition is_string (j : Json) : bool := bool_decide (type j = STRING).
Definition is_number (j : Json) : bool := bool_decide (type j = NUMBER).
Definition is_bool (j : Json) : bool := bool_decide (type j = BOOL).
Definition is_array (j : Json) : bool := bool_decide (type j = ARRAY).
Definition is_object (j : Json) : bool := bool_decide (type j = OBJECT).
(** A member that must be there and of a kind, and one that may be left out. *)
Definition find (kind : Json -> bool) (key : list Z) (o : object) : outcome Json :=
  match map_find key o with Some j => if kind j then Value j else Thrown | None => Thrown end.
Definition find_optional (kind : Json -> bool) (key : list Z) (o : object) : outcome (option Json) :=
  match map_find key o with Some j => if kind j then Value (Some j) else Thrown | None => Value None end.
Definition find_string (key : list Z) (o : object) : outcome (list Z) := j ← find is_string key o; mret (string_value j).
Fixpoint collect {A B} (f : A -> outcome B) (l : list A) : outcome (list B) :=
  match l with [] => mret [] | a :: l => b ← f a; l ← collect f l; mret (b :: l) end.
Definition collect_objects {B} (f : object -> outcome B) : list Json -> outcome (list B) := collect (fun j => if is_object j then f (object_items j) else Thrown).
Definition optional_objects {B} (key : list Z) (f : object -> outcome B) (o : object) : outcome (list B) :=
  l ← find_optional is_array key o; match l with None => mret [] | Some j => collect_objects f (array_items j) end.

Definition SsrcGroup_parse (o : object) : outcome SsrcGroup :=
  semantics ← find_string (str "semantics") o;
  ssrcs ← find is_array (str "ssrcs") o;
  l ← collect (fun ssrc =>
    if is_string ssrc then let parsedSsrc := stringToUInt32 (string_value ssrc) in if decide (parsedSsrc = 0) then Thrown else Value parsedSsrc
    else if is_number ssrc then uint32_value ssrc else Thrown) (array_items ssrcs);
  mret (Group l semantics).
Definition FeedbackType_parse (o : object) : outcome FeedbackType :=
  type ← find_string (str "type") o;
  subtype ← find_string (str "subtype") o;
  mret (Feedback type subtype).
Definition RtpExtension_parse (o : object) : outcome RtpExtension :=
  id ← find is_number (str "id") o;
  uri ← find_string (str "uri") o;
  id ← int_value id;
  mret (Extension uri id).
Definition find_int (key : list Z) (o : object) : outcome Z := j ← find is_number key o; int_value j.
Definition PayloadType_parse (o : object) : outcome PayloadType :=
  id ← find_int (str "id") o;
  name ← find_string (str "name") o;
  clockrate ← find_int (str "clockrate") o;
  channels ← find_optional is_number (str "channels") o;
  channels ← match channels with None => mret 0 | Some j => int_value j end;
  feedbackTypes ← optional_objects (str "feedbackTypes") FeedbackType_parse o;
  parameters ← find_optional is_object (str "parameters") o;
  parameters ← match parameters with None => mret [] | Some j => collect (fun p => if is_string p.2 then Value (p.1, string_value p.2) else Thrown) (object_items j) end;
  mret (Payload (u32 id) name (u32 clockrate) (u32 channels) feedbackTypes parameters).
(** A number, or its text. *)
Definition find_uint32 (key : list Z) (o : object) : outcome Z :=
  match map_find key o with
  | None => Thrown
  | Some j => if is_string j then Value (stringToUInt32 (string_value j)) else if is_number j then uint32_value j else Thrown
  end.
Definition MediaContent_parse (o : object) : outcome MediaContent :=
  type ← find_string (str "type") o;
  type ← (if decide (type = str "audio") then Value Audio else if decide (type = str "video") then Value Video else Thrown);
  ssrc ← find_uint32 (str "ssrc") o;
  ssrcGroups ← optional_objects (str "ssrcGroups") SsrcGroup_parse o;
  payloadTypes ← optional_objects (str "payloadTypes") PayloadType_parse o;
  rtpExtensions ← optional_objects (str "rtpExtensions") RtpExtension_parse o;
  mret (Content type ssrc ssrcGroups payloadTypes rtpExtensions).
Definition fingerprint_parse (o : object) : outcome DtlsFingerprint :=
  hash ← find_string (str "hash") o;
  setup ← find_string (str "setup") o;
  fingerprint ← find_string (str "fingerprint") o;
  mret (Fingerprint hash setup fingerprint).
Definition InitialSetupMessage_parse (o : object) : outcome InitialSetupMessage :=
  ufrag ← find_string (str "ufrag") o;
  pwd ← find_string (str "pwd") o;
  let renomination := match map_find (str "renomination") o with Some j => if is_bool j then bool_value j else false | None => false end in
  fingerprints ← find is_array (str "fingerprints") o;
  fingerprints ← collect_objects fingerprint_parse (array_items fingerprints);
  mret (InitialSetup ufrag pwd renomination fingerprints).
Definition NegotiateChannelsMessage_parse (o : object) : outcome NegotiateChannelsMessage :=
  exchangeId ← find_uint32 (str "exchangeId") o;
  contents ← optional_objects (str "contents") MediaContent_parse o;
  mret (NegotiateChannels exchangeId contents).
Definition ConnectionAddress_parse (o : object) : outcome ConnectionAddress :=
  ip ← find_string (str "ip") o;
  port ← find_int (str "port") o;
  mret (Address ip port).
Definition CandidatesMessage_parse (o : object) : outcome CandidatesMessage :=
  candidates ← find is_array (str "candidates") o;
  candidates ← collect_objects (fun o => s ← find_string (str "sdpString") o; mret (Candidate s)) (array_items candidates);
  mret (Candidates candidates).
(** A name that is not known leaves the state inactive. *)
Definition video_state (j : option Json) : VideoState :=
  match j with
  | None => Inactive
  | Some j =>
      if decide (string_value j = str "inactive") then Inactive else if decide (string_value j = str "suspended") then Suspended
      else if decide (string_value j = str "active") then Active else Inactive
  end.
(** The rotation is taken from the member [videoState]. *)
Definition MediaStateMessage_parse (o : object) : outcome MediaStateMessage :=
  muted ← find_optional is_bool (str "muted") o;
  lowBattery ← find_optional is_bool (str "lowBattery") o;
  videoState ← find_optional is_string (str "videoState") o;
  screencastState ← find_optional is_string (str "screencastState") o;
  videoRotation ← find_optional is_number (str "videoRotation") o;
  rotation ← match videoRotation with
             | None => Value Rotation0
             | Some _ =>
                 match videoState with
                 | None => Aborted
                 | Some j =>
                     value ← int_value j;
                     mret (if decide (value = 0) then Rotation0 else if decide (value = 90) then Rotation90 else if decide (value = 180) then Rotation180
                           else if decide (value = 270) then Rotation270 else Rotation0)
                 end
             end;
  mret (MediaState (match muted with Some j => bool_value j | None => false end) (video_state videoState) rotation (video_state screencastState)
    (match lowBattery with Some j => bool_value j | None => false end)).
Definition Message_parse (data : list Z) : outcome Message :=
  json ← parse data;
  if negb (is_object json) then Thrown else
  let o := object_items json in
  type ← find_string (str "@type") o;
  if decide (type = str "InitialSetup") then m ← InitialSetupMessage_parse o; mret (InitialSetupData m)
  else if decide (type = str "NegotiateChannels") then m ← NegotiateChannelsMessage_parse o; mret (NegotiateChannelsData m)
  else if decide (type = str "Candidates") then m ← CandidatesMessage_parse o; mret (CandidatesData m)
  else if decide (type = str "MediaState") then m ← MediaStateMessage_parse o; mret (MediaStateData m)
  else Thrown.

(** ** Objects *)

Section maps.
Context {V : Type}.
Implicit Types (m l : list (list Z * V)).

Lemma compare_bytes_opp a b : TgMessage.compare_bytes b a = CompOpp (TgMessage.compare_bytes a b).
Proof.
  revert b. induction a as [|x a IH]; intros [|y b]; try done. cbn. rewrite (Z.compare_antisym x y). destruct (x ?= y); [apply IH|done|done].
Qed.
Lemma compare_bytes_eq a b : TgMessage.compare_bytes a b = Eq <-> a = b.
Proof.
  split; [|intros <-; induction a as [|x a IH]; [done|]; cbn; by rewrite Z.compare_refl]. revert b. induction a as [|x a IH]; intros [|y b]; try done. cbn.
  destruct (Z.compare_spec x y) as [->|?|?]; try done. intros E. by rewrite (IH b E).
Qed.
Lemma insert_Forall (P : list Z * V -> Prop) k v m : Forall P m -> P (k, v) -> Forall P (TgMessage.insert_param k v m).
Proof.
  induction 1 as [|[k' v'] m Hp Hm IH]; intros Hk; [by constructor|]. cbn [TgMessage.insert_param]. destruct (TgMessage.compare_bytes k k'); (constructor; [done|]); auto.
Qed.
Lemma insert_sorted_map k v m : StronglySorted TgMessage.before m -> StronglySorted TgMessage.before (TgMessage.insert_param k v m).
Proof.
  induction 1 as [|[k' v'] m Hs IH Hp]; [repeat constructor|]. cbn [TgMessage.insert_param]. destruct (TgMessage.compare_bytes k k') eqn:E.
  - by constructor.
  - constructor; [by constructor|]. constructor; [exact E|]. eapply Forall_impl; [exact Hp|]. intros [k2 v2] Hk. unfold TgMessage.before in *. cbn in *. by eapply TgMessage.compare_bytes_trans.
  - constructor; [done|]. apply insert_Forall; [done|]. unfold TgMessage.before. cbn. by rewrite compare_bytes_opp, E.
Qed.
Lemma find_later k m : Forall (fun p => TgMessage.compare_bytes k p.1 = Lt) m -> map_find k m = None.
Proof.
  induction 1 as [|[k' v'] m Hk _ IH]; [done|]. cbn [map_find]. rewrite decide_False; [done|]. intros ->. cbn in Hk. by rewrite (proj2 (compare_bytes_eq k' k') eq_refl) in Hk.
Qed.
Lemma find_insert k k' v m : StronglySorted TgMessage.before m -> map_find k (TgMessage.insert_param k' v m) = match map_find k m with Some x => Some x | None => if decide (k = k') then Some v else None end.
Proof.
  induction 1 as [|[k2 v2] m Hs IH Hp]; [done|]. cbn [TgMessage.insert_param map_find]. destruct (TgMessage.compare_bytes k' k2) eqn:E; cbn [map_find].
  - apply compare_bytes_eq in E as ->. case_decide; [done|]. destruct (map_find k m); done.
  - destruct (decide (k = k')) as [->|Hk]; [|case_decide; [done|]; by destruct (map_find k m)].
    assert (k' <> k2) as Hne by (intros ->; rewrite (proj2 (compare_bytes_eq k2 k2) eq_refl) in E; done). rewrite decide_False by done. rewrite find_later; [done|].
    eapply Forall_impl; [exact Hp|]. intros [k3 v3] Hk. unfold TgMessage.before in Hk. cbn in *. by eapply TgMessage.compare_bytes_trans.
  - destruct (decide (k = k2)); [done|exact IH].
Qed.
Lemma inserted_onto l : forall m, StronglySorted TgMessage.before m -> let r := foldl (fun m p => TgMessage.insert_param p.1 p.2 m) m l in
  StronglySorted TgMessage.before r /\ (forall P, Forall P m -> Forall P l -> Forall P r) /\ forall k, map_find k r = match map_find k m with Some x => Some x | None => map_find k l end.
Proof.
  induction l as [|[k v] l IH]; intros m Hm; cbn [foldl fst snd]; [split; [done|]; split; [done|]; intros k; by destruct (map_find k m)|].
  destruct (IH (TgMessage.insert_param k v m) (insert_sorted_map k v m Hm)) as (H1 & H2 & H3). split; [done|]. split.
  - intros P HPm [HP HPl]%Forall_cons. apply H2; [by apply insert_Forall|done].
  - intros k'. rewrite H3, find_insert by done. cbn [map_find]. destruct (map_find k' m); [done|]. by case_decide.
Qed.
Lemma inserted_sorted l : StronglySorted TgMessage.before (inserted l).
Proof. exact (proj1 (inserted_onto l [] ltac:(constructor))). Qed.
Lemma inserted_Forall P l : Forall P l -> Forall P (inserted l).
Proof. intros Hl. by apply (inserted_onto l [] ltac:(constructor)). Qed.
Lemma find_inserted k l : map_find k (inserted l) = map_find k l.
Proof. exact (proj2 (proj2 (inserted_onto l [] ltac:(constructor))) k). Qed.
End maps.
Lemma inserted_map {V W} (f : V -> W) (l : list (list Z * V)) : inserted (map (fun p => (p.1, f p.2)) l) = map (fun p => (p.1, f p.2)) (inserted l).
Proof.
  unfold inserted. change (@nil (list Z * W)) with (map (fun p : list Z * V => (p.1, f p.2)) []). generalize (@nil (list Z * V)) as m. induction l as [|[k v] l IH]; intros m; [done|]. cbn [map foldl fst snd]. rewrite <- IH. f_equal.
  induction m as [|[k' v'] m IHm]; [done|]. cbn [map fst snd TgMessage.insert_param]. destruct (TgMessage.compare_bytes k k'); [done|done|]. cbn [map fst snd]. by rewrite IHm.
Qed.

(** What is written of a message can be read: [good n j] when [j] has at most [n] levels. *)
Definition good (n : nat) (j : Json) : Prop := json_ok j /\ (json_depth j <= n)%nat.
Lemma good_mono n n' j : (n <= n')%nat -> good n j -> good n' j.
Proof. intros Hn [H1 H2]. split; [done|lia]. Qed.
Lemma good_string n s : wf_bytes s -> good n (JsonString s).
Proof. intros Hs. split; [done|cbn; lia]. Qed.
Lemma good_bool n b : good n (JsonBoolean b).
Proof. split; [done|cbn; lia]. Qed.
Lemma good_int n k : -2147483648 <= k < 2147483648 -> good n (JsonInt k).
Proof. intros Hk. split; [done|cbn; lia]. Qed.
Lemma good_array n l : Forall (good n) l -> good (S n) (JsonArray l).
Proof.
  intros Hl. split; [cbn; apply foldr_and; eapply Forall_impl; [exact Hl|]; by intros j [Hj _]|].
  cbn [json_depth]. apply le_n_S. apply foldr_max_le. eapply Forall_impl; [exact Hl|]. by intros j [_ Hj].
Qed.
Lemma good_object n (l : object) : Forall (fun p => wf_bytes p.1 /\ good n p.2) l -> good (S n) (JsonObject (inserted l)).
Proof.
  intros Hl%inserted_Forall. split.
  - split; [apply inserted_sorted|]. apply foldr_and. eapply Forall_impl; [exact Hl|]. by intros p [Hp [Hj _]].
  - cbn [json_depth]. apply le_n_S. apply (foldr_max_le (fun p => json_depth p.2)). eapply Forall_impl; [exact Hl|]. by intros p [_ [_ Hj]].
Qed.
Lemma good_objects {A} n (f : A -> object) l : Forall (fun x => good n (JsonObject (f x))) l -> good (S n) (JsonArray (map (fun x => JsonObject (f x)) l)).
Proof. intros Hl. by apply good_array, Forall_fmap. Qed.

(** ** What arrives of a message *)

(** An object as its reader finds it. *)
Definition sent (o : object) : object := object_items (read_as (JsonObject o)).
Definition is_i32 (n : Z) : Prop := -2147483648 <= n < 2147483648.

Lemma find_sent key l : map_find key (sent (inserted l)) = read_as <$> map_find key l.
Proof.
  unfold sent. cbn [read_as object_items]. rewrite <- inserted_map, find_inserted. induction l as [|[k j] l IH]; [done|]. cbn. by case_decide.
Qed.
Lemma find_string_sent key l s : map_find key l = Some (JsonString s) -> find_string key (sent (inserted l)) = Value s.
Proof. intros E. unfold find_string, find. by rewrite find_sent, E. Qed.
Lemma find_array_sent key l a : map_find key l = Some (JsonArray a) -> find is_array key (sent (inserted l)) = Value (JsonArray (map read_as a)).
Proof. intros E. unfold find. by rewrite find_sent, E. Qed.
Lemma int_as_number n : is_number (int_as n) = true.
Proof. unfold int_as. by case_decide. Qed.
Lemma int_value_as n : is_i32 n -> int_value (int_as n) = Value n.
Proof.
  intros Hn. unfold is_i32 in Hn. unfold int_as. case_decide; [done|]. destruct (of_Z_exact n ltac:(lia)) as [E Hf]. unfold int_value, cast_in. rewrite E.
  assert (isfinite (of_Z n) = true) as -> by (unfold isfinite; by destruct (of_Z n)). cbn [andb]. unfold in_range. by rewrite bool_decide_true by lia.
Qed.
Lemma find_number_sent key l n : map_find key l = Some (JsonInt n) -> find is_number key (sent (inserted l)) = Value (int_as n).
Proof. intros E. unfold find. rewrite find_sent, E. cbn [fmap option_fmap option_map read_as]. by rewrite int_as_number. Qed.
Lemma find_int_sent key l n : is_i32 n -> map_find key l = Some (JsonInt n) -> find_int key (sent (inserted l)) = Value n.
Proof. intros Hn E. unfold find_int. rewrite (find_number_sent _ _ n) by done. by apply int_value_as. Qed.
Lemma stringToUInt32_dec n : is_u32 n -> stringToUInt32 (uint32ToString n) = n.
Proof.
  intros Hn. unfold is_u32 in Hn. destruct (dec_spec n ltac:(lia)) as (c & ds & E & Hc & Hds & _ & Ev). unfold stringToUInt32, uint32ToString. rewrite E in *. unfold is_digit in Hc.
  assert (isspace c = false) as Hs by (unfold isspace, in_range; rewrite !bool_decide_false by lia; done).
  cbn [skip_spaces]. rewrite Hs. cbn [hd]. rewrite !bool_decide_false by lia. cbn [orb]. rewrite <- (app_nil_r (c :: ds)), digits_value_spec by (done || (unfold is_digit; cbn; lia) || by constructor).
  rewrite Ev. rewrite !decide_False by lia. done.
Qed.
Lemma find_uint32_sent key l n : is_u32 n -> map_find key l = Some (JsonString (uint32ToString n)) -> find_uint32 key (sent (inserted l)) = Value n.
Proof. intros Hn E. unfold find_uint32. rewrite find_sent, E. cbn [fmap option_fmap option_map read_as]. change (is_string _) with true. cbn [string_value]. by rewrite stringToUInt32_dec. Qed.
Lemma collect_map {A B C} (f : B -> outcome C) (g : A -> B) (h : A -> C) l : Forall (fun x => f (g x) = Value (h x)) l -> collect f (map g l) = Value (map h l).
Proof. induction 1 as [|x l Hx _ IH]; [done|]. cbn [map collect]. rewrite Hx. cbn. rewrite IH. done. Qed.
Lemma collect_sent {A B} (f : A -> object) (g : object -> outcome B) (h : A -> B) l : Forall (fun x => g (sent (f x)) = Value (h x)) l ->
  collect_objects g (map read_as (map (fun x => JsonObject (f x)) l)) = Value (map h l).
Proof. intros Hl. unfold collect_objects. rewrite map_map. apply collect_map. exact Hl. Qed.
(** The list is there, or it is empty and left out. *)
Definition holds_objects {A} (key : list Z) (f : A -> object) (l : list A) (o : object) : Prop :=
  map_find key o = Some (JsonArray (map (fun x => JsonObject (f x)) l)) \/ l = [] /\ map_find key o = None.
Lemma optional_sent {A B} key (f : A -> object) (g : object -> outcome B) (h : A -> B) l o : Forall (fun x => g (sent (f x)) = Value (h x)) l -> holds_objects key f l o ->
  optional_objects key g (sent (inserted o)) = Value (map h l).
Proof.
  intros Hl [E|[-> E]]; unfold optional_objects, find_optional; rewrite find_sent, E; [|done]. cbn [fmap option_fmap option_map read_as]. change (is_array _) with true. cbn [array_items]. by apply collect_sent.
Qed.
Lemma find_app {V} key (l r : list (list Z * V)) : map_find key (l ++ r) = match map_find key l with Some v => Some v | None => map_find key r end.
Proof. induction l as [|[k v] l IH]; [done|]. cbn. by case_decide. Qed.
Lemma find_unless {A} key (f : A -> object) l : map_find key (unless_empty key f l) = (if decide (length l = 0%nat) then None else Some (JsonArray (map (fun x => JsonObject (f x)) l))).
Proof. unfold unless_empty. case_decide; [done|]. cbn. by rewrite decide_True by done. Qed.
Lemma find_unless_other {A} key key' (f : A -> object) l : key <> key' -> map_find key (unless_empty key' f l) = None.
Proof. intros Hk. unfold unless_empty. case_decide; [done|]. cbn. by rewrite decide_False by done. Qed.

(** The parameters of a payload type arrive in the order of their names, each once; the
    rotation of the video does not arrive. *)
Definition payload_received (p : PayloadType) : PayloadType := Payload (pt_id p) (pt_name p) (pt_clockrate p) (pt_channels p) (feedbackTypes p) (inserted (pt_parameters p)).
Definition content_received (c : MediaContent) : MediaContent := Content (mc_type c) (mc_ssrc c) (ssrcGroups c) (map payload_received (payloadTypes c)) (rtpExtensions c).
Definition received (m : Message) : Message :=
  match m with
  | NegotiateChannelsData m => NegotiateChannelsData (NegotiateChannels (exchangeId m) (map content_received (contents m)))
  | MediaStateData m => MediaStateData (MediaState (isMuted m) (videoState m) Rotation0 (screencastState m) (isBatteryLow m))
  | m => m
  end.

(** The values a message may hold: strings of bytes, numbers of their widths, no source zero in
    a group. *)
Definition fingerprint_ok (f : DtlsFingerprint) : Prop := wf_bytes (hash f) /\ wf_bytes (setup f) /\ wf_bytes (fingerprint f).
Definition group_ok (g : SsrcGroup) : Prop := Forall (fun ssrc => 0 < ssrc <= 0xFFFFFFFF) (ssrcs g) /\ wf_bytes (semantics g).
Definition feedback_ok (f : FeedbackType) : Prop := wf_bytes (fb_type f) /\ wf_bytes (fb_subtype f).
Definition payload_ok (p : PayloadType) : Prop :=
  is_u32 (pt_id p) /\ wf_bytes (pt_name p) /\ is_u32 (pt_clockrate p) /\ is_u32 (pt_channels p) /\ Forall feedback_ok (feedbackTypes p) /\ Forall (fun q => wf_bytes q.1 /\ wf_bytes q.2) (pt_parameters p).
Definition extension_ok (e : RtpExtension) : Prop := wf_bytes (uri e) /\ is_i32 (ext_id e).
Definition content_ok (c : MediaContent) : Prop := is_u32 (mc_ssrc c) /\ Forall group_ok (ssrcGroups c) /\ Forall payload_ok (payloadTypes c) /\ Forall extension_ok (rtpExtensions c).
Definition message_ok (m : Message) : Prop :=
  match m with
  | InitialSetupData m => wf_bytes (ufrag m) /\ wf_bytes (pwd m) /\ Forall fingerprint_ok (fingerprints m)
  | NegotiateChannelsData m => is_u32 (exchangeId m) /\ Forall content_ok (contents m)
  | CandidatesData m => Forall (fun c => wf_bytes (sdpString c)) (iceCandidates m)
  | MediaStateData _ => True
  end.

Lemma group_arrives g : group_ok g -> SsrcGroup_parse (sent (SsrcGroup_serialize g)) = Value g.
Proof.
  intros [Hg _]. unfold SsrcGroup_parse, SsrcGroup_serialize. rewrite (find_string_sent (str "semantics") _ (semantics g)) by reflexivity. cbn [mbind outcome_bind].
  rewrite (find_array_sent _ _ (map (fun ssrc => JsonString (uint32ToString ssrc)) (ssrcs g))) by reflexivity. cbn [mbind outcome_bind array_items]. rewrite map_map.
  rewrite (collect_map _ _ id), map_id; [by destruct g|]. eapply Forall_impl; [exact Hg|]. intros n Hn. cbn beta in Hn. cbn [read_as]. change (is_string _) with true. cbn [string_value]. cbv zeta.
  rewrite stringToUInt32_dec by (unfold is_u32; lia). by rewrite decide_False by lia.
Qed.
Lemma feedback_arrives f : FeedbackType_parse (sent (FeedbackType_serialize f)) = Value f.
Proof.
  unfold FeedbackType_parse, FeedbackType_serialize. rewrite (find_string_sent (str "type") _ (fb_type f)), (find_string_sent (str "subtype") _ (fb_subtype f)) by reflexivity. by destruct f.
Qed.
Lemma extension_arrives e : extension_ok e -> RtpExtension_parse (sent (RtpExtension_serialize e)) = Value e.
Proof.
  intros [_ He]. unfold RtpExtension_parse, RtpExtension_serialize. rewrite (find_number_sent (str "id") _ (ext_id e)), (find_string_sent (str "uri") _ (uri e)) by reflexivity.
  cbn [mbind outcome_bind]. rewrite int_value_as by done. by destruct e.
Qed.
Lemma fingerprint_arrives f : fingerprint_parse (sent (fingerprint_serialize f)) = Value f.
Proof.
  unfold fingerprint_parse, fingerprint_serialize. rewrite (find_string_sent (str "hash") _ (hash f)), (find_string_sent (str "setup") _ (setup f)), (find_string_sent (str "fingerprint") _ (fingerprint f)) by reflexivity. by destruct f.
Qed.
Lemma candidate_arrives c : (s ← find_string (str "sdpString") (sent (inserted [(str "sdpString", JsonString (sdpString c))])); mret (Candidate s)) = Value c.
Proof. rewrite (find_string_sent (str "sdpString") _ (sdpString c)) by reflexivity. by destruct c. Qed.
Lemma i32_range x : is_i32 (i32 x).
Proof. unfold is_i32, i32. rewrite u32_mod. pose proof (Z.mod_pos_bound (x + 0x80000000) 0x100000000 ltac:(lia)). lia. Qed.
Lemma u32_of_i32 x : is_u32 x -> u32 (i32 x) = x.
Proof. unfold is_u32, i32. intros Hx. rewrite !u32_mod. Z.div_mod_to_equations. lia. Qed.
Lemma find_optional_sent kind key l j : map_find key l = Some j -> kind (read_as j) = true -> find_optional kind key (sent (inserted l)) = Value (Some (read_as j)).
Proof. intros E Hj. unfold find_optional. rewrite find_sent, E. cbn [fmap option_fmap option_map]. by rewrite Hj. Qed.
Lemma parameters_arrive (q : list (list Z * list Z)) :
  collect (fun p => if is_string p.2 then Value (p.1, string_value p.2) else Thrown) (object_items (read_as (JsonObject (inserted (map (fun q => (q.1, JsonString q.2)) q))))) = Value (inserted q).
Proof.
  rewrite (inserted_map JsonString). cbn [read_as object_items]. rewrite map_map. rewrite (collect_map _ _ id); [by rewrite map_id|]. apply Forall_forall. by intros [k v] _.
Qed.
Lemma payload_arrives p : payload_ok p -> PayloadType_parse (sent (PayloadType_serialize p)) = Value (payload_received p).
Proof.
  intros (Hi & _ & Hc & Hn & _ & _). unfold PayloadType_parse, PayloadType_serialize. pose proof i32_range as Hr.
  rewrite (find_int_sent (str "id") _ (i32 (pt_id p))) by (exact (Hr _) || reflexivity). cbn [mbind outcome_bind]. rewrite (find_string_sent (str "name") _ (pt_name p)) by reflexivity. cbn [mbind outcome_bind].
  rewrite (find_int_sent (str "clockrate") _ (i32 (pt_clockrate p))) by (exact (Hr _) || reflexivity). cbn [mbind outcome_bind].
  rewrite (find_optional_sent _ (str "channels") _ (JsonInt (i32 (pt_channels p)))) by (reflexivity || apply int_as_number). cbn [mbind outcome_bind read_as]. rewrite int_value_as by exact (Hr _). cbn [mbind outcome_bind].
  rewrite (optional_sent (str "feedbackTypes") FeedbackType_serialize _ id (feedbackTypes p)) by ((apply Forall_forall; intros f _; apply feedback_arrives) || (left; reflexivity)). cbn [mbind outcome_bind].
  rewrite (find_optional_sent _ (str "parameters") _ (JsonObject (inserted (map (fun q => (q.1, JsonString q.2)) (pt_parameters p))))) by reflexivity. cbn [mbind outcome_bind].
  rewrite parameters_arrive. cbn [mbind outcome_bind mret outcome_ret]. by rewrite !u32_of_i32, map_id by done.
Qed.
Lemma holds_unless {A} key (f : A -> object) l o r : map_find key o = None -> map_find key r = None -> holds_objects key f l (o ++ unless_empty key f l ++ r).
Proof.
  intros Ho Hr. unfold holds_objects. rewrite !find_app, Ho, find_unless, Hr. case_decide as Hl; [right; split; [by apply nil_length_inv|done]|by left].
Qed.
Lemma content_arrives c : content_ok c -> MediaContent_parse (sent (MediaContent_serialize c)) = Value (content_received c).
Proof.
  intros (Hs & Hg & Hp & He). unfold MediaContent_parse, MediaContent_serialize.
  rewrite (find_string_sent (str "type") _ (media_type_name (mc_type c))) by reflexivity. cbn [mbind outcome_bind].
  assert ((if decide (media_type_name (mc_type c) = str "audio") then Value Audio else if decide (media_type_name (mc_type c) = str "video") then Value Video else Thrown) = Value (mc_type c)) as -> by (by destruct (mc_type c)).
  cbn [mbind outcome_bind]. rewrite (find_uint32_sent (str "ssrc") _ (mc_ssrc c)) by (done || reflexivity). cbn [mbind outcome_bind].
  rewrite (optional_sent (str "ssrcGroups") SsrcGroup_serialize _ id (ssrcGroups c)).
  2: { eapply Forall_impl; [exact Hg|]. exact group_arrives. }
  2: { apply holds_unless; [reflexivity|]. by rewrite find_app, find_unless_other. }
  cbn [mbind outcome_bind]. rewrite (optional_sent (str "payloadTypes") PayloadType_serialize _ payload_received (payloadTypes c)).
  2: { eapply Forall_impl; [exact Hp|]. exact payload_arrives. }
  2: { rewrite app_assoc. apply holds_unless; [|reflexivity]. by rewrite find_app, find_unless_other. }
  cbn [mbind outcome_bind]. rewrite (optional_sent (str "rtpExtensions") RtpExtension_serialize _ id (rtpExtensions c)).
  2: { eapply Forall_impl; [exact He|]. exact extension_arrives. }
  2: { left. rewrite !find_app, !find_unless_other by done. reflexivity. }
  cbn [mbind outcome_bind mret outcome_ret]. by rewrite !map_id.
Qed.
Lemma initial_setup_arrives m : InitialSetupMessage_parse (sent (InitialSetupMessage_object m)) = Value m.
Proof.
  unfold InitialSetupMessage_parse, InitialSetupMessage_object. rewrite (find_string_sent (str "ufrag") _ (ufrag m)), (find_string_sent (str "pwd") _ (pwd m)) by reflexivity. cbn [mbind outcome_bind].
  rewrite (find_sent (str "renomination")). rewrite (find_array_sent (str "fingerprints") _ (map (fun f => JsonObject (fingerprint_serialize f)) (fingerprints m))) by reflexivity. cbn [mbind outcome_bind array_items].
  rewrite (collect_sent fingerprint_serialize _ id), map_id; [by destruct m|]. apply Forall_forall. intros f _. apply fingerprint_arrives.
Qed.
Lemma candidates_arrive m : CandidatesMessage_parse (sent (CandidatesMessage_object m)) = Value m.
Proof.
  unfold CandidatesMessage_parse, CandidatesMessage_object.
  rewrite (find_array_sent (str "candidates") _ (map (fun c => JsonObject (inserted [(str "sdpString", JsonString (sdpString c))])) (iceCandidates m))) by reflexivity. cbn [mbind outcome_bind array_items].
  rewrite (collect_sent (fun c => inserted [(str "sdpString", JsonString (sdpString c))]) _ id), map_id; [by destruct m|]. apply Forall_forall. intros c _. apply candidate_arrives.
Qed.
Lemma negotiate_channels_arrives m : is_u32 (exchangeId m) -> Forall content_ok (contents m) ->
  NegotiateChannelsMessage_parse (sent (NegotiateChannelsMessage_object m)) = Value (NegotiateChannels (exchangeId m) (map content_received (contents m))).
Proof.
  intros Hi Hc. unfold NegotiateChannelsMessage_parse, NegotiateChannelsMessage_object. rewrite (find_uint32_sent (str "exchangeId") _ (exchangeId m)) by (done || reflexivity). cbn [mbind outcome_bind].
  rewrite (optional_sent (str "contents") MediaContent_serialize _ content_received (contents m)); [done| |by left]. eapply Forall_impl; [exact Hc|]. exact content_arrives.
Qed.
Lemma video_state_arrives v : video_state (Some (JsonString (video_state_name v))) = v.
Proof. by destruct v. Qed.
Lemma media_state_arrives m : MediaStateMessage_parse (sent (MediaStateMessage_object m)) = Value (MediaState (isMuted m) (videoState m) Rotation0 (screencastState m) (isBatteryLow m)).
Proof.
  unfold MediaStateMessage_parse, MediaStateMessage_object. rewrite (find_optional_sent _ (str "muted") _ (JsonBoolean (isMuted m))) by reflexivity. cbn [mbind outcome_bind].
  rewrite (find_optional_sent _ (str "lowBattery") _ (JsonBoolean (isBatteryLow m))) by reflexivity. cbn [mbind outcome_bind].
  rewrite (find_optional_sent _ (str "videoState") _ (JsonString (video_state_name (videoState m)))) by reflexivity. cbn [mbind outcome_bind].
  rewrite (find_optional_sent _ (str "screencastState") _ (JsonString (video_state_name (screencastState m)))) by reflexivity. cbn [mbind outcome_bind].
  rewrite (find_optional_sent _ (str "videoRotation") _ (JsonInt (rotation_value (videoRotation m)))) by (reflexivity || apply int_as_number). cbn [mbind outcome_bind read_as int_value mret outcome_ret bool_value].
  by rewrite !video_state_arrives.
Qed.

(** ** What is sent is within what can be read *)

Lemma member_good n k j : good n j -> wf_bytes (str k) /\ good n j.
Proof. intros Hj. split; [apply str_wf|done]. Qed.
Lemma uint32_wf n : is_u32 n -> wf_bytes (uint32ToString n).
Proof.
  intros Hn. unfold is_u32 in Hn. destruct (dec_spec n ltac:(lia)) as (c & ds & E & Hc & Hds & _). unfold uint32ToString. rewrite E. unfold is_digit in *.
  constructor; [unfold is_byte; lia|]. eapply Forall_impl; [exact Hds|]. intros d Hd. unfold is_byte. cbn beta in Hd. lia.
Qed.
Lemma unless_good {A} n k (f : A -> object) l : Forall (fun x => good n (JsonObject (f x))) l -> Forall (fun p => wf_bytes p.1 /\ good (S n) p.2) (unless_empty (str k) f l).
Proof. intros Hl. unfold unless_empty. case_decide; [constructor|]. constructor; [|constructor]. apply member_good. by apply good_objects. Qed.
Ltac members := apply good_object; repeat (apply Forall_cons; split; [apply member_good|]); [..|apply Forall_nil; exact I].
Lemma group_good g : group_ok g -> good 2 (JsonObject (SsrcGroup_serialize g)).
Proof.
  intros [Hs Hg]. members; [by apply good_string|]. apply good_array, Forall_fmap. eapply Forall_impl; [exact Hs|]. intros n Hn. cbn beta in Hn. apply good_string, uint32_wf. unfold is_u32. lia.
Qed.
Lemma feedback_good f : feedback_ok f -> good 1 (JsonObject (FeedbackType_serialize f)).
Proof. intros [H1 H2]. members; by apply good_string. Qed.
Lemma extension_good e : extension_ok e -> good 1 (JsonObject (RtpExtension_serialize e)).
Proof. intros [H1 H2]. members; [by apply good_int|by apply good_string]. Qed.
Lemma payload_good p : payload_ok p -> good 3 (JsonObject (PayloadType_serialize p)).
Proof.
  intros (_ & Hn & _ & _ & Hf & Hp). members; [apply good_int, i32_range|by apply good_string|apply good_int, i32_range|apply good_int, i32_range| |].
  - apply good_objects. eapply Forall_impl; [exact Hf|]. exact feedback_good.
  - apply good_object, Forall_fmap. eapply Forall_impl; [exact Hp|]. intros q [H1 H2]. split; [done|by apply good_string].
Qed.
Lemma content_good c : content_ok c -> good 5 (JsonObject (MediaContent_serialize c)).
Proof.
  intros (Hs & Hg & Hp & He). apply good_object. repeat (apply Forall_app; split).
  - repeat (apply Forall_cons; split; [apply member_good|]); [| |by apply Forall_nil]; apply good_string; [destruct (mc_type c); apply str_wf|by apply uint32_wf].
  - apply unless_good. eapply Forall_impl; [exact Hg|]. intros g Hk. eapply good_mono; [|by apply group_good]. lia.
  - apply unless_good. eapply Forall_impl; [exact Hp|]. exact payload_good.
  - apply Forall_cons; split; [apply member_good|by apply Forall_nil]. apply good_objects. eapply Forall_impl; [exact He|]. intros e Hk. eapply good_mono; [|by apply extension_good]. lia.
Qed.
Lemma message_good m : message_ok m -> good 7 (JsonObject (Message_object m)).
Proof.
  destruct m as [m|m|m|m]; cbn [message_ok Message_object].
  - intros (H1 & H2 & H3). members; [apply good_string, str_wf|by apply good_string|by apply good_string|apply good_bool|]. apply good_objects. eapply Forall_impl; [exact H3|]. intros f (Ha & Hb & Hc). members; by apply good_string.
  - intros (H1 & H2). members; [apply good_string, str_wf|by apply good_string, uint32_wf|]. apply good_objects. eapply Forall_impl; [exact H2|]. exact content_good.
  - intros H1. members; [apply good_string, str_wf|]. apply good_objects. eapply Forall_impl; [exact H1|]. intros c Hc. members. by apply good_string.
  - intros _. members; [apply good_string, str_wf|apply good_bool|apply good_bool|destruct (videoState m); apply good_string, str_wf|destruct (videoRotation m); apply good_int; cbn; lia|destruct (screencastState m); apply good_string, str_wf].
Qed.

Definition type_name (m : Message) : list Z :=
  match m with InitialSetupData _ => str "InitialSetup" | NegotiateChannelsData _ => str "NegotiateChannels" | CandidatesData _ => str "Candidates" | MediaStateData _ => str "MediaState" end.
Lemma find_type m : find_string (str "@type") (sent (Message_object m)) = Value (type_name m).
Proof. destruct m; apply find_string_sent; reflexivity. Qed.
Lemma message_arrives m : message_ok m -> Message_parse (Message_serialize m) = Value (received m).
Proof.
  intros Hm. destruct (message_good m Hm) as [Hok Hd]. unfold Message_parse, Message_serialize. unfold parse. rewrite (parse_all_reads _ (JsonObject (Message_object m))) by (done || (etrans; [exact Hd|]; unfold max_depth; lia)).
  cbn [fst mbind outcome_bind]. change (is_object (read_as (JsonObject (Message_object m)))) with true. cbn [negb]. cbv zeta. fold (sent (Message_object m)).
  rewrite find_type. cbn [mbind outcome_bind].
  destruct m as [m|m|m|m]; cbn [type_name message_ok Message_object received] in *.
  - rewrite decide_True by done. by rewrite initial_setup_arrives.
  - rewrite decide_False, decide_True by done. rewrite negotiate_channels_arrives by apply Hm. done.
  - rewrite !decide_False, decide_True by done. by rewrite candidates_arrive.
  - rewrite !decide_False, decide_True by done. by rewrite media_state_arrives.
Qed.

(** C38: a signalling message that is sent arrives as it was, but for the parameters of a payload
    type, which come in the order of their names and each once, and the rotation of the
    video, which is lost. *)
Theorem signaling_roundtrip (m : Message) (Hm : message_ok m) : Message_parse (Message_serialize m) = Value (received m).
Proof. by apply message_arrives. Qed.

Definition demo_message : Message :=
  NegotiateChannelsData (NegotiateChannels 4026531840 [
    Content Video 7 [Group [7; 4294967295] (str "FID")]
      [Payload 100 (str "VP8") 90000 0 [Feedback (str "nack") (str "pli")] [(str "max-fr", str "30"); (str "apt", str "96"); (str "apt", str "97")]]
      [Extension (str "urn:3gpp:video-orientation") 13]]).
Lemma demo_message_ok : message_ok demo_message.
Proof.
  cbn [demo_message message_ok contents exchangeId]. unfold content_ok, payload_ok, group_ok, extension_ok, feedback_ok, is_u32, is_i32.
  cbn -[str]. repeat first [split | apply Forall_cons | apply Forall_nil; exact I]; first [apply str_wf | cbn; lia].
Qed.
Lemma signaling_roundtrip_witness : Message_parse (Message_serialize demo_message) =
  Value (NegotiateChannelsData (NegotiateChannels 4026531840 [
    Content Video 7 [Group [7; 4294967295] (str "FID")]
      [Payload 100 (str "VP8") 90000 0 [Feedback (str "nack") (str "pli")] [(str "apt", str "96"); (str "max-fr", str "30")]]
      [Extension (str "urn:3gpp:video-orientation") 13]])).
Proof. exact (signaling_roundtrip demo_message demo_message_ok). Defined.

(** The rotation is lost, and a message that has it without the state of the video is not
    handled. *)
Example rotation_lost : Message_parse (Message_serialize (MediaStateData (MediaState false Active Rotation90 Inactive false))) =
  Value (MediaStateData (MediaState false Active Rotation0 Inactive false)).
Proof. vm_compute. reflexivity. Qed.
Example rotation_alone : Message_parse (dump (JsonObject [(str "@type", JsonString (str "MediaState")); (str "videoRotation", JsonInt 0)])) = Aborted.
Proof. vm_compute. reflexivity. Qed.
(** A number out of range is not handled, one in a text is cut. *)
Example number_out_of_range : Message_parse (dump (JsonObject [(str "@type", JsonString (str "NegotiateChannels")); (str "exchangeId", JsonInt (-1))])) = Aborted.
Proof. vm_compute. reflexivity. Qed.
Example text_out_of_range : Message_parse (dump (JsonObject [(str "@type", JsonString (str "NegotiateChannels")); (str "exchangeId", JsonString (str "99999999999"))])) =
  Value (NegotiateChannelsData (NegotiateChannels 4294967295 [])).
Proof. vm_compute. reflexivity. Qed.
Example group_of_zero : SsrcGroup_parse (inserted [(str "semantics", JsonString []); (str "ssrcs", JsonArray [JsonString (str "0")])]) = Thrown.
Proof. vm_compute. reflexivity. Qed.
