(* ===== verification/TgInstance.v ===== *)
(** * Calls: signalling over the encrypted connection

    Of [src/thirdparty/TgVoipWebrtcIOS6/src/tgcalls/v2/InstanceV2Impl.cpp] what lies between
    a message of [TgSignaling] and the packets of [TgConnection], in each version of the
    protocol, with the compression of [utils/gzip.cpp]. Sending returns the packets given to
    the signalling connection, receiving the messages that are handled, in their order. *)

From stdpp Require Import sorting.
From S2P Require Import Prelude Exn Double TgMessage TgConnection Json TgSignaling.

(** ** Compression *)

Inductive Status := Z_OK | Z_STREAM_END | Z_ERROR.
#[export] Instance Status_eq_dec : EqDecision Status.
Proof. solve_decision. Defined.
(** The parts of zlib that are used: the gzip stream of some data, which [deflate] writes as far
    as there is room; what [inflate] can write of a stream, and its status when it has
    written so many bytes and is given room for so many more. What is relied on is documented: a
    stream starts with its magic bytes, and [inflate] gives back the data, with [Z_OK] as
    long as there is not enough room and [Z_STREAM_END] when there is more than enough. *)
Class Zlib := {
  deflated : list Z -> list Z;
  inflated : list Z -> list Z;
  inflate : list Z -> nat -> nat -> Status;
  deflated_header data : take 2 (deflated data) = [0x1f; 0x8b];
  inflated_deflated data : inflated (deflated data) = data;
  inflate_ok data total avail : (total + avail < length data)%nat -> inflate (deflated data) total avail = Z_OK;
  inflate_full data total avail : (total + avail = length data)%nat -> inflate (deflated data) total avail = Z_OK \/ inflate (deflated data) total avail = Z_STREAM_END;
  inflate_end data total avail : (length data < total + avail)%nat -> inflate (deflated data) total avail = Z_STREAM_END
}.

Definition isGzip (data : list Z) : bool :=
  if decide (length data < 2)%nat then false
  else (bool_decide (data.[0] = 0x1f) && bool_decide (data.[1] = 0x8b)) || (bool_decide (data.[0] = 0x78) && bool_decide (data.[1] = 0x9c)).

Section zlib.
Context `{Zlib}.

(** The loops, with the bytes written so far and the size of the output; out of fuel they
    abort. *)
Definition ChunkSize : nat := Z.to_nat 16384.
Fixpoint deflate_loop (fuel : nat) (stream output : list Z) (size : nat) : outcome (list Z) :=
  match fuel with
  | O => Aborted
  | S fuel =>
      let size := if decide (size <= length output)%nat then (size + ChunkSize)%nat else size in
      let avail := (size - length output)%nat in
      let written := take avail (drop (length output) stream) in
      if decide (length written < avail)%nat then Value (output ++ written) else deflate_loop fuel stream (output ++ written) size
  end.
Definition gzipData (data : list Z) : outcome (list Z) := deflate_loop (S (length (deflated data))) (deflated data) [] ChunkSize.
Fixpoint inflate_loop (fuel : nat) (data : list Z) (sizeLimit total size : nat) : outcome (option (list Z)) :=
  match fuel with
  | O => Aborted
  | S fuel =>
      if decide (0 < sizeLimit /\ sizeLimit < total)%nat then Value None else
      let size := if decide (size <= total)%nat then (size + length data / 2)%nat else size in
      let avail := (size - total)%nat in
      let total' := (total + (avail `min` (length (inflated data) - total)))%nat in
      match inflate data total avail with
      | Z_OK => inflate_loop fuel data sizeLimit total' size
      | Z_STREAM_END => Value (Some (take total' (inflated data)))
      | Z_ERROR => if decide (0 < sizeLimit /\ sizeLimit < size)%nat then Value None else Value (Some (take total' (inflated data) ++ zeros (size - total')))
      end
  end.
Definition gunzipData (data : list Z) (sizeLimit : nat) : outcome (option (list Z)) :=
  if negb (isGzip data) then Value None else inflate_loop (length (inflated data) + 3) data sizeLimit 0 (length data * 2).
End zlib.

(** ** Sending and receiving *)

Inductive SignalingProtocolVersion := V1 | V2 | V3.
Definition signalingProtocolVersion (version : list Z) : SignalingProtocolVersion :=
  if decide (version = str "7.0.0") then V1 else if decide (version = str "8.0.0") then V2 else if decide (version = str "9.0.0") then V2
  else if decide (version = str "12.0.0") then V3 else if decide (version = str "13.0.0") then V3 else V2.
Definition signalingProtocolSupportsCompression (version : SignalingProtocolVersion) : bool := match version with V1 | V2 => false | V3 => true end.

Section instance.
Context `{TgCrypto} `{Zlib} (version : SignalingProtocolVersion).

Definition lift {A} (o : outcome A) : M EncryptedConnection A := fun c => (o, c).
Definition packetData (data : list Z) : outcome (list Z) := if signalingProtocolSupportsCompression version then gzipData data else Value data.
Definition sendRawSignalingMessage (now : Z) (data : list Z) : M EncryptedConnection (list (list Z)) :=
  match version with
  | V1 | V3 => packetData ← lift (packetData data); message ← encryptRawPacket packetData; mret [message]
  | V2 => packet ← prepareForSendingRawMessage now data true; mret (match packet with Some p => [ep_bytes p] | None => [] end)
  end.
Definition sendSignalingMessage (now : Z) (message : Message) : M EncryptedConnection (list (list Z)) := sendRawSignalingMessage now (Message_serialize message).

(** What is not a message is not handled. *)
Definition processSignalingData (data : list Z) : outcome (list Message) :=
  match Message_parse data with Value m => Value [m] | Thrown => Value [] | Aborted => Aborted end.
Definition sizeLimit : nat := Z.to_nat (2 * 1024 * 1024).
Definition processSignalingMessage (data : list Z) : outcome (list Message) :=
  if isGzip data then
    decompressedData ← gunzipData data sizeLimit;
    match decompressedData with Some d => processSignalingData d | None => Value [] end
  else processSignalingData data.
Fixpoint process_all (l : list (list Z)) : outcome (list Message) :=
  match l with [] => Value [] | d :: l => h ← processSignalingMessage d; r ← process_all l; Value (h ++ r) end.
Definition onSignalingData (data : list Z) : M EncryptedConnection (list Message) :=
  match version with
  | V1 | V3 => message ← decryptRawPacket data; match message with Some m => lift (processSignalingMessage m) | None => mret [] end
  | V2 =>
      packet ← handleIncomingPacket (A := list Z) data;
      match packet with Some p => lift (process_all ((main p).1 :: map fst (additional p))) | None => mret [] end
  end.

Fixpoint sends (now : Z) (l : list Message) : M EncryptedConnection (list (list Z)) :=
  match l with [] => mret [] | m :: l => p ← sendSignalingMessage now m; r ← sends now l; mret (p ++ r) end.
Fixpoint receives (l : list (list Z)) : M EncryptedConnection (list Message) :=
  match l with [] => mret [] | d :: l => h ← onSignalingData d; r ← receives l; mret (h ++ r) end.
End instance.

(** ** The loops *)

Section loops.
Context `{Zlib}.

Lemma ChunkSize_pos : (0 < ChunkSize)%nat.
Proof. unfold ChunkSize. lia. Qed.
Lemma deflate_loop_ok stream fuel : forall output rest size, stream = output ++ rest -> (length output <= size)%nat -> (length rest < fuel)%nat ->
  deflate_loop fuel stream output size = Value stream.
Proof.
  induction fuel as [|fuel IH]; intros output rest size -> Hs Hf; [lia|]. cbn [deflate_loop]. cbv zeta. pose proof ChunkSize_pos as Hc. set (size' := if decide (size <= length output)%nat then _ else size).
  assert (length output < size')%nat as Hs' by (unfold size'; case_decide; lia). clearbody size'. rewrite drop_app_length, length_take. case_decide.
  - by rewrite take_ge by lia.
  - apply (IH _ (drop (size' - length output) rest)); [by rewrite <- app_assoc, take_drop|rewrite length_app, length_take; lia|rewrite length_drop; lia].
Qed.
Lemma gzipData_ok data : gzipData data = Value (deflated data).
Proof. unfold gzipData. apply (deflate_loop_ok _ _ _ (deflated data)); cbn; [done|lia|lia]. Qed.

Lemma isGzip_deflated data : isGzip (deflated data) = true.
Proof.
  pose proof (deflated_header data) as E. unfold isGzip. destruct (deflated data) as [|x [|y l]]; [done|done|]. cbn in E. injection E as -> ->. done.
Qed.
Lemma inflate_loop_ok data limit fuel : forall total size, (length data <= limit)%nat -> (total <= length data)%nat -> (total <= size)%nat -> (2 + (length data - total) <= fuel)%nat ->
  inflate_loop fuel (deflated data) limit total size = Value (Some data).
Proof.
  induction fuel as [|fuel IH]; intros total size Hl Ht Hs Hf; [lia|]. cbn [inflate_loop]. cbv zeta. rewrite decide_False by lia. rewrite inflated_deflated.
  set (size' := if decide (size <= total)%nat then _ else size). assert (total < size')%nat as Hs'.
  { assert (2 <= length (deflated data))%nat as H2 by (pose proof (deflated_header data) as E; apply (f_equal length) in E; rewrite length_take in E; change (2 `min` length (deflated data) = 2)%nat in E; lia).
    unfold size'. case_decide; [|lia]. pose proof (Nat.Div0.div_le_mono 2 _ 2 H2) as H3. change (2 / 2)%nat with 1%nat in H3. lia. }
  clearbody size'. destruct (Nat.lt_trichotomy (total + (size' - total)) (length data)) as [E|[E|E]].
  - rewrite inflate_ok by done. apply IH; lia.
  - destruct (inflate_full _ _ _ E) as [-> | ->]; [apply IH; lia|]. rewrite take_ge by lia. done.
  - rewrite inflate_end by done. rewrite take_ge by lia. done.
Qed.
Lemma gunzip_gzip data limit : (length data <= limit)%nat -> gunzipData (deflated data) limit = Value (Some data).
Proof. intros Hl. unfold gunzipData. rewrite isGzip_deflated. cbn [negb]. rewrite inflated_deflated. apply inflate_loop_ok; lia. Qed.
End loops.

(** ** Packets without acknowledgement *)

(** In the order of their counters all of them are new. *)
Lemma admitted_ascending xs : forall seen, ascending xs -> Forall (fun x => newest seen < x) xs -> admitted seen xs = xs.
Proof.
  induction xs as [|x xs IH]; intros seen Ha Hn; [done|]. apply Forall_cons in Hn as [Hx Hn]. cbn [admitted].
  assert (is_new seen x = true) as ->.
  { unfold is_new. rewrite bool_decide_eq_true_2, bool_decide_eq_true_2; [done|lia|]. intros Hin%newest_ge. lia. }
  rewrite IH; [done| |].
  - by inversion Ha.
  - inversion Ha as [|? ? Ha' Hx']; subst. eapply Forall_impl; [exact Hx'|]. intros y Hy. cbn in *. fold (newest seen). lia.
Qed.

Section arriving.
Context `{TgCrypto} `{Zlib} (version : SignalingProtocolVersion).

(** What is encrypted of a message, and the packet that has it. *)
Definition body (m : Message) : list Z := if signalingProtocolSupportsCompression version then deflated (Message_serialize m) else Message_serialize m.
Definition raw_packet (c : EncryptedConnection) (n : Z) (m : Message) : list Z := ep_bytes (encryptPrepared c (be_bytes 4 n ++ body m)).
Lemma packetData_body m : packetData version (Message_serialize m) = Value (body m).
Proof. unfold packetData, body. destruct (signalingProtocolSupportsCompression version); [apply gzipData_ok|done]. Qed.
(** The lengths that the receiver accepts. *)
Definition fits (m : Message) : Prop := 20 + Z.of_nat (length (body m)) <= kMaxIncomingPacketSize /\ (length (Message_serialize m) <= sizeLimit)%nat.

Lemma send_raw now m c : version <> V2 -> counter_ok (ec_counter c + 1) ->
  sendSignalingMessage version now m c = (Value [raw_packet c (ec_counter c + 1) m], c <| ec_counter := ec_counter c + 1 |>).
Proof.
  intros Hv Hn. assert (u32 (ec_counter c + 1) = ec_counter c + 1) as Eu by (apply counter_ok_lt in Hn; apply u32_id; lia). unfold sendSignalingMessage, sendRawSignalingMessage.
  assert ((packetData ← lift (packetData version (Message_serialize m)); message ← encryptRawPacket packetData; mret [message]) c = (Value [raw_packet c (ec_counter c + 1) m], c <| ec_counter := ec_counter c + 1 |>)) as E.
  { rewrite packetData_body. rewrite (run_bind _ _ c (body m) c) by reflexivity.
    change ((Value [raw_packet c (u32 (ec_counter c + 1)) m], c <| ec_counter := u32 (ec_counter c + 1) |>) = (Value [raw_packet c (ec_counter c + 1) m], c <| ec_counter := ec_counter c + 1 |>)). by rewrite Eu. }
  destruct version; [exact E|done|exact E].
Qed.
(** The packets of messages that are sent one after the other. *)
Fixpoint raw_packets (c : EncryptedConnection) (n : Z) (ms : list Message) : list (list Z) :=
  match ms with [] => [] | m :: ms => raw_packet c (n + 1) m :: raw_packets c (n + 1) ms end.
Lemma raw_packets_lookup c ms : forall n i, raw_packets c n ms !! i = raw_packet c (n + Z.of_nat i + 1) <$> ms !! i.
Proof.
  induction ms as [|m ms IH]; intros n i; [done|]. destruct i as [|i]; cbn [raw_packets lookup list_lookup fmap option_fmap option_map].
  - change (Z.of_nat 0) with 0. by rewrite Z.add_0_r.
  - rewrite IH. replace (n + 1 + Z.of_nat i + 1) with (n + Z.of_nat (S i) + 1) by lia. reflexivity.
Qed.
Lemma raw_packets_same c n ms n' : raw_packets (c <| ec_counter := n' |>) n ms = raw_packets c n ms.
Proof. revert n. induction ms as [|m ms IH]; intros n; [done|]. cbn [raw_packets]. rewrite IH. reflexivity. Qed.
Lemma sends_raw now ms : forall c, version <> V2 -> 0 <= ec_counter c -> ec_counter c + Z.of_nat (length ms) <= kMaxAllowedCounter ->
  sends version now ms c = (Value (raw_packets c (ec_counter c) ms), c <| ec_counter := ec_counter c + Z.of_nat (length ms) |>).
Proof.
  induction ms as [|m ms IH]; intros c Hv Hp Hc; cbn [sends raw_packets length].
  - rewrite Z.add_0_r. by destruct c.
  - cbn [length] in Hc. rewrite (run_bind _ _ _ _ _ (send_raw now m c Hv ltac:(unfold counter_ok; lia))).
    set (c1 := c <| ec_counter := ec_counter c + 1 |>). assert (ec_counter c1 = ec_counter c + 1) as E1 by reflexivity.
    rewrite (run_bind _ _ _ _ _ (IH c1 Hv ltac:(rewrite E1; lia) ltac:(rewrite E1; lia))). rewrite E1.
    replace (ec_counter c + Z.of_nat (S (length ms))) with (ec_counter c + 1 + Z.of_nat (length ms)) by lia. unfold c1. rewrite raw_packets_same. reflexivity.
Qed.

Lemma serialize_head m : exists t, Message_serialize m = 123 :: t.
Proof. eexists. reflexivity. Qed.
Lemma body_ne m : (0 < length (body m))%nat.
Proof.
  unfold body. destruct (signalingProtocolSupportsCompression version); [|destruct (serialize_head m) as [t ->]; cbn; lia].
  pose proof (isGzip_deflated (Message_serialize m)) as E. destruct (deflated (Message_serialize m)); [done|cbn; lia].
Qed.
Lemma process_body m : message_ok m -> fits m -> processSignalingMessage (body m) = Value [received m].
Proof.
  intros Hm [_ Hf]. assert (processSignalingData (Message_serialize m) = Value [received m]) as E by (unfold processSignalingData; by rewrite message_arrives).
  unfold processSignalingMessage, body. destruct (signalingProtocolSupportsCompression version).
  - rewrite isGzip_deflated, gunzip_gzip by done. exact E.
  - assert (isGzip (Message_serialize m) = false) as ->; [|exact E]. destruct (serialize_head m) as [t ->]. unfold isGzip. by case_decide.
Qed.
Lemma receive_raw a b seen n m : version <> V2 -> ends a b -> window seen (largestIncomingCounters b) -> counter_ok n -> message_ok m -> fits m ->
  exists l, onSignalingData version (raw_packet a n m) b = (Value (if is_new seen n then [received m] else []), b <| largestIncomingCounters := l |>) /\
    window (if is_new seen n then n :: seen else seen) l.
Proof.
  intros Hv He Hw Hn Hm Hf. destruct (register_window seen b n Hw Hn) as (l & E & Hl). exists l. split; [|exact Hl]. apply counter_ok_lt in Hn as Hn'.
  assert (decryptRawPacket (raw_packet a n m) b = (Value (if is_new seen n then Some (body m) else None), b <| largestIncomingCounters := l |>)) as Ed.
  { unfold decryptRawPacket. rewrite (run_bind _ _ b b b) by reflexivity. pose proof (body_ne m) as Hb. pose proof (proj1 Hf) as Hf1.
    unfold raw_packet. rewrite (decrypt_encrypt a b) by (exact He || (rewrite length_app, length_be_bytes; lia)).
    rewrite ReadSeq_be by (unfold is_u32; lia). rewrite CounterFromSeq_mod, Z.mod_small by lia. rewrite (run_bind _ _ _ _ _ E). rewrite drop_app_length' by by rewrite length_be_bytes.
    by destruct (is_new seen n). }
  assert ((message ← decryptRawPacket (raw_packet a n m); match message with Some m => lift (processSignalingMessage m) | None => mret [] end) b =
    (Value (if is_new seen n then [received m] else []), b <| largestIncomingCounters := l |>)) as Em.
  { rewrite (run_bind _ _ _ _ _ Ed). destruct (is_new seen n); [|reflexivity]. unfold lift. by rewrite process_body. }
  unfold onSignalingData. destruct version; [exact Em|done|exact Em].
Qed.
(** The message whose counter is [x]. *)
Definition message_at (n : Z) (ms : list Message) (x : Z) : option Message := received <$> ms !! Z.to_nat (x - n - 1).
Lemma receives_raw a n ms : version <> V2 -> 0 <= n -> n + Z.of_nat (length ms) <= kMaxAllowedCounter -> Forall message_ok ms -> Forall fits ms ->
  forall order seen b, Forall (fun i => (i < length ms)%nat) order -> ends a b -> window seen (largestIncomingCounters b) ->
  exists b', receives version (omap (fun i => raw_packets a n ms !! i) order) b = (Value (omap (message_at n ms) (admitted seen (map (fun i => n + Z.of_nat i + 1) order))), b').
Proof.
  intros Hv Hn Hmax Hok Hfit. induction order as [|i order IH]; intros seen b Hi He Hw; [by exists b|]. apply Forall_cons in Hi as [Hi Ho].
  destruct (lookup_lt_is_Some_2 ms i Hi) as [m Em]. cbn [omap list_omap map admitted]. rewrite raw_packets_lookup, Em. cbn [fmap option_fmap option_map receives].
  rewrite Forall_lookup in Hok, Hfit. set (x := n + Z.of_nat i + 1).
  destruct (receive_raw a b seen x m Hv He Hw ltac:(unfold counter_ok, x; lia) (Hok _ _ Em) (Hfit _ _ Em)) as (l & E & Hl). rewrite (run_bind _ _ _ _ _ E).
  set (b1 := b <| largestIncomingCounters := l |>). destruct (IH (if is_new seen x then x :: seen else seen) b1 Ho He Hl) as [b' Eb]. rewrite (run_bind _ _ _ _ _ Eb).
  exists b'. destruct (is_new seen x); [|reflexivity]. cbn [omap list_omap]. unfold message_at at 2. unfold x at 2. replace (Z.to_nat (n + Z.of_nat i + 1 - n - 1)) with i by lia. by rewrite Em.
Qed.

Lemma raw_packets_length c n ms : length (raw_packets c n ms) = length ms.
Proof. revert n. induction ms as [|m ms IH]; intros n; [done|]. cbn. by rewrite IH. Qed.
(** In order. *)
Lemma omap_seq {A} (l : list A) : forall pre, omap (fun i => (pre ++ l) !! i) (seq (length pre) (length l)) = l.
Proof.
  induction l as [|x l IH]; intros pre; [done|]. cbn [length seq omap list_omap]. rewrite list_lookup_middle by done. f_equal.
  specialize (IH (pre ++ [x])). rewrite <- app_assoc, length_app, Nat.add_1_r in IH. exact IH.
Qed.
Lemma messages_in_order (ms : list Message) : forall pre, omap (message_at 0 (pre ++ ms)) (map (fun i => 0 + Z.of_nat i + 1) (seq (length pre) (length ms))) = map received ms.
Proof.
  induction ms as [|m ms IH]; intros pre; [done|]. cbn [length seq map omap list_omap]. unfold message_at at 1.
  replace (Z.to_nat (0 + Z.of_nat (length pre) + 1 - 0 - 1)) with (length pre) by lia. rewrite list_lookup_middle by done. cbn [fmap option_fmap option_map]. f_equal.
  specialize (IH (pre ++ [m])). rewrite <- app_assoc, length_app, Nat.add_1_r in IH. exact IH.
Qed.
Lemma counters_ascending n : forall k, ascending (map (fun i => 0 + Z.of_nat i + 1) (seq k n)) /\ Forall (fun x => Z.of_nat k < x) (map (fun i => 0 + Z.of_nat i + 1) (seq k n)).
Proof.
  induction n as [|n IH]; intros k; cbn [seq map]; [repeat constructor|]. destruct (IH (S k)) as [H1 H2]. split; constructor; [exact H1| |lia|]; (eapply Forall_impl; [exact H2|]; intros x Hx; cbn beta in Hx; lia).
Qed.

(** C37: messages that are sent without acknowledgements, compressed or not, arrive over a network
    that loses, repeats and reorders packets exactly when the window of counters takes
    them, each at most once and as [received] says; in order all of them arrive. *)
Theorem signaling_delivered (now : Z) (ms : list Message) (a b : EncryptedConnection) (order : list nat) (Hv : version <> V2) (He : ends a b)
  (Ha : ec_counter a = 0) (Hb : largestIncomingCounters b = []) (Hn : Z.of_nat (length ms) <= kMaxAllowedCounter)
  (Hm : Forall (fun m => message_ok m /\ fits m) ms) (Ho : Forall (fun i => (i < length ms)%nat) order) :
  exists packets a', sends version now ms a = (Value packets, a') /\ length packets = length ms /\
    let taken := admitted [] (map (fun i => Z.of_nat i + 1) order) in
    (exists b', receives version (omap (fun i => packets !! i) order) b = (Value (omap (message_at 0 ms) taken), b')) /\ NoDup taken /\
    exists b', receives version packets b = (Value (map received ms), b').
Proof.
  apply Forall_and in Hm as [Hok Hfit]. eexists _, _. split; [apply sends_raw; [done|lia|lia]|]. rewrite Ha.
  assert (window [] (largestIncomingCounters b)) as Hw by (rewrite Hb; split; [constructor|split; [constructor|intros x; split; [by intros ?%elem_of_nil|by intros [?%elem_of_nil _]]]]).
  split; [apply raw_packets_length|]. split; [by apply receives_raw|]. split; [apply admitted_nodup|].
  destruct (receives_raw a 0 ms Hv ltac:(lia) ltac:(lia) Hok Hfit (seq 0 (length ms)) [] b) as [b' E]; [apply Forall_seq; lia|done|done|].
  exists b'. pose proof (omap_seq (raw_packets a 0 ms) []) as Eo. rewrite raw_packets_length in Eo. cbn [app length] in Eo. rewrite Eo in E. rewrite E.
  destruct (counters_ascending (length ms) 0) as [H1 H2]. rewrite (admitted_ascending _ [] H1) by (eapply Forall_impl; [exact H2|]; intros x Hx; exact Hx).
  do 2 f_equal. exact (messages_in_order ms []).
Qed.
End arriving.

#[local] Existing Instance TgConnection.demo_crypto.
(** A stream that is not compressed. *)
#[local] Program Instance demo_zlib : Zlib := {
  deflated d := 0x1f :: 0x8b :: d;
  inflated x := drop 2 x;
  inflate x total avail := if decide (total + avail <= length x - 2)%nat then Z_OK else Z_STREAM_END
}.
Next Obligation. done. Qed.
Next Obligation. done. Qed.
Next Obligation. intros d total avail Ht. cbn [length] in *. case_decide; [done|lia]. Qed.
Next Obligation. intros d total avail Ht. left. cbn [length] in *. case_decide; [done|lia]. Qed.
Next Obligation. intros d total avail Ht. cbn [length] in *. case_decide; [lia|done]. Qed.
Definition demo_messages : list Message := [CandidatesData (Candidates [Candidate (str "candidate:1")]); MediaStateData (MediaState true Inactive Rotation0 Inactive false); demo_message].
Lemma demo_fits m : m ∈ demo_messages -> fits V3 m.
Proof.
  assert (forallb (fun m => Z.of_nat (length (Message_serialize m)) <=? 1000) demo_messages = true) as H by (vm_compute; reflexivity).
  rewrite forallb_forall in H. intros Hm%list_elem_of_In%H. apply Z.leb_le in Hm. unfold fits, body, kMaxIncomingPacketSize, sizeLimit. cbn [signalingProtocolSupportsCompression deflated demo_zlib length]. lia.
Qed.
Lemma signaling_delivered_witness :
  let a := new_connection Signaling (repeat 7 256) true in let b := new_connection Signaling (repeat 7 256) false in
  let order := [1; 0; 1; 2]%nat in let taken := admitted [] (map (fun i => Z.of_nat i + 1) order) in
  taken = [2; 1; 3] /\ exists packets a', sends V3 0 demo_messages a = (Value packets, a') /\ length packets = 3%nat /\
    (exists b', receives V3 (omap (fun i => packets !! i) order) b = (Value (omap (message_at 0 demo_messages) taken), b')) /\ NoDup taken /\
    exists b', receives V3 packets b = (Value (map received demo_messages), b').
Proof.
  intros a b order taken. split; [vm_compute; reflexivity|].
  apply (signaling_delivered V3 0 demo_messages a b order); [done|done|done|done|cbn; unfold kMaxAllowedCounter; vm_compute; discriminate| |repeat constructor].
  repeat first [apply Forall_cons; split | apply Forall_nil; exact I]; (split; [|apply demo_fits; set_solver]).
  - apply Forall_cons; split; [apply str_wf|apply Forall_nil; exact I].
  - exact I.
  - exact demo_message_ok.
Defined.
